(* ===== verification/_CoqProject ===== *)
-Q . S2P
Prelude.v
Count.v
DList.v
RbTree.v
RbTreeSpec.v
RbSearch.v
RbInsert.v
RbRemove.v
Base.v
Disk.v
Journal.v
Spec.v
CompactSpec.v
Types.v
RbSet.v
Super.v
SuperInv.v
SuperOps.v
Replay.v
World.v
JournalIO.v
JournalRecord.v
JournalLoad.v
JournalScan.v
LoaderSpec.v
JournalLog.v
Discard.v
DiscardSpec.v
Compact.v
CompactOk.v
Flusher.v
FlusherSpec.v
WriterSpec.v
Api.v
ApiSpec.v
LoaderClients.v
Handles.v
ReadWrite.v
ReadSpec.v
SeekSpec.v
WriteSpec.v
CopySpec.v
ReuseSpec.v
System.v
Recovery.v
FlushLive.v
Errno.v
Posix.v
Edit.v
EditLine.v
EditSpec.v
EditWrite.v
EditThread.v
Tools.v
Uefi.v
UefiSpec.v
UefiSim.v
UefiWrite.v
IoLoop.v
Bio.v
BioSpec.v
Backend.v
BackendSpec.v
Linux.v
LinuxCtl.v
LinuxConfig.v
LinuxRefs.v
LinuxSafe.v
LinuxSteps.v
LinuxSpec.v
LinuxSim.v
LinuxWait.v
