(* ===== verification/Prelude.v ===== *)
(** * cyanfs: a verification development

    cyanfs stores raw disk images on a block device.  An image is a list of
    1 MiB extents of the device; a fork of an image shows its parent's extents
    until it writes them (copy on write).  The whole state is kept in memory and
    rebuilt, when an instance is opened, from a journal that is linked from
    extent to extent.  The core ([src/core]) does no I/O itself: it queues tasks
    (read, write, copy, flush, discard, requeue) that an executor of the
    platform takes one after the other, and it is called back when a task is
    done.  The command line tools ([src/utils]), the Linux kernel module
    ([src/linux]) and the UEFI driver ([src/uefi]) are such platforms.

    ** The program and the files

    Files that use a component require its file; the theorems of a client are
    proved against the lemmas, or the type class, of what it uses.

    - Basics.  [Prelude] (this file): machine integers, the [cyanfs] hint
      database, the automation ([unwrap], [case_bool]), finite ordered sets and
      list lemmas.  [Base]: [core/base.h] (little-endian accessors, CRC-32) and
      the constants and the extent arithmetic of [core/core.h] and
      [core/internal.h].  [Disk]: a device as its bytes.  [Count]: how many
      entries of a map satisfy a predicate.  [Errno]: the error numbers of
      [core/platform].
    - Containers.  [DList]: [core/misc/list.h] on a memory of links.  [RbTree]:
      [core/misc/rb_tree.h] on a memory of entries, the colour in the low bit of
      the parent pointer; [RbTreeSpec], [RbSearch], [RbInsert], [RbRemove] prove
      it, and [RbSet] shows that the trees of the instance are the finite sets
      and maps that the other files use for them.
    - Journal format.  [Journal]: [core/journal.h] and the super block of
      [core/journal.c] (entries, headers, A/B copies).  [Spec]: the abstract file
      system and the meaning of an entry ([spec_apply], [spec_run]).
      [CompactSpec]: the journal that recreates a state.
    - State.  [Types]: the structures of [core/core.h] and [core/internal.h] (an
      extent node is known by its backend id, a file by its id).  [Super]:
      extents, files and replay, [core/super.c].  [SuperInv]: the invariant
      [wf].  [SuperOps]: every internal operation keeps it.  [Replay]: the
      replay of a journal implements its meaning.
    - Tasks.  [World]: the contexts of the asynchronous tasks, and the outcomes
      of the calls of [cyanfs_malloc] as an input.  [JournalIO]: the loader and
      the writer of [core/journal.c].  [JournalRecord]: the layout and the bytes
      of a record.  [JournalLoad]: the contract between the loader and its
      clients, as a type class ([LoaderModel]).  [JournalScan]: a reference
      reader of the journal.  [LoaderSpec]: the loader implements it.
      [JournalLog]: what the writer writes, the reader finds.  [Discard],
      [Flusher]: [core/flusher.c]; [Compact]: [core/compact.c]; [DiscardSpec],
      [FlusherSpec], [CompactOk] prove them.  [WriterSpec]: a flusher's writer
      extends the journal of the device.
    - Operations.  [Api]: the public functions of [core/super.c]; [ApiSpec],
      [Handles].  [LoaderClients]: opening and compaction satisfy [LoaderModel].
      [ReadWrite]: [core/readwrite.c], the caller's handler and what other
      threads do between two locked sections being parameters; [ReadSpec],
      [SeekSpec], [WriteSpec], [CopySpec].  [ReuseSpec]: a step relation for
      clients and flush machinery.
    - Systems.  [System]: an executor on a device.  [Recovery]: opening, end to
      end.  [FlushLive]: flushing, end to end.
    - Tools.  [Posix]: the system calls as a class ([PosixFile]) and
      [utils/utils.c].  [Edit]: [utils/edit.c] but its worker thread, from the
      executor [do_loop] to [main].  [EditLine]: the lines of batch files.
      [EditSpec]: the executor of the editor simulates [System].  [EditWrite]:
      the bytes a write changes.  [EditThread]: the worker thread and its
      wake-ups.  [Tools]: [utils/mkfs.c] and [utils/blkid.c].
    - UEFI.  [Uefi]: [uefi/CyanfsDxe/CyanfsDxe.c] on a class of firmware calls
      ([Firmware]).  [UefiSpec]: the virtual disks.  [UefiSim]: a firmware that
      satisfies the laws.  [UefiWrite]: writes to forks, and the size of the
      device.
    - Linux.  [Bio]: the block requests of [linux/main.c], on the functions of
      the block layer.  [IoLoop]: the loops of [core/readwrite.c] with any
      handler.  [BioSpec]: what becomes of a request.  [Backend]: the rest of
      [linux/main.c] (the executor, the work items, opening and closing), on a
      class of kernel calls ([Kernel]); [BackendSpec], with the laws of the
      kernel ([KernelLaws]).  [Linux]: [linux/vdisk.c] and the first half of
      [linux/ctl.c], with the objects of the module and their reference counts;
      [LinuxCtl]: the second half; [LinuxConfig]: [linux/configfs.c], and loading
      and unloading.  [LinuxRefs]: the invariant of the counts.  [LinuxSafe]:
      every operation keeps it.  [LinuxSteps]: all that can happen to the module,
      and what holds after any sequence of it.  [LinuxSpec]: single operations.
      [LinuxSim]: a kernel that satisfies the laws, and examples.
      [LinuxWait]: the work item and those who wait for it, interleaved.

    ** What is proved

    - The journal is the file system.  A record that is written is read back,
      and a changed byte is detected; decoding untrusted bytes is safe; the
      super block is replaced atomically.  The replay of a journal implements
      its meaning and keeps the extents of the device partitioned.  Every
      operation on files journals exactly its effect, so replaying what was
      journalled gives the files.  A compaction writes a journal with the same
      meaning that is not longer.  Opening any device ends, in the state its
      journal describes or marked failed; a flush ends, and puts the waiting
      entries on the device.
    - Images are isolated.  A write hands out only extents the file owns and
      nobody else shows; the end of a copy journals the binding, or an error.
      On the bytes of the device: a write of the editor changes the bytes
      written and no byte of another file.  A discard unbinds whole extents
      only.  An extent given up by a file is not reused before the device was
      flushed, over any interleaving, and only such extents are discarded.
    - Reading and seeking cover exactly what the file shows; listing enumerates
      the files; open files are locked as by a reader/writer lock.
    - The containers: insertion, removal and search in red-black trees on
      memory, their logarithmic bound, and circular lists and splices.
    - The platforms: the loops around the system calls transfer everything;
      [mkfs] and [blkid] agree; a line is split into its words; mounting in the
      editor recovers the journal; no wake-up of the worker is lost; the virtual
      disks of the UEFI driver agree with the handle database of the firmware.
      Two theorems show where the UEFI driver does not fit the core: it cannot
      execute the copy that a write to a fork needs, and it takes the device to
      be one block shorter than it is.
    - The Linux module: a block request is completed exactly once, with an error
      exactly if one was reported; mounting recovers the journal; copies in parts
      are copies; a backend gives back what it took; nobody waits in vain, or
      too short, for the tasks of a backend.  Over any sequence of
      calls, work items and completions, no object is used after it was freed,
      and the counts are the numbers of holders.  [LinuxSpec] and [BioSpec] also
      show where the code does not do what it means to: a buffer that is not
      there, a file mapped twice, a disk opened while it is taken down, a listing
      that turns back or overruns its page, a piece that cannot be queued.

    ** Conventions and bounds

    Unsigned integers are [Z] with the wrap-around written out ([u8] to [u64],
    [bf30] for the 30-bit fields).  [option] is for what does not return: a
    [CYANFS_BUG_ON], a pointer that is not there, or fuel used up; errors are
    values ([cyanfs_status], [efi_status]).  Loops that are not structural have
    fuel: the length of the range for reads, writes and discards (each turn
    handles at least one byte), the number of nodes for walks of trees and lists
    and for the chain of parents, the bytes and the pending interruptions for
    the system calls.  Where a loop runs tasks, the theorems say that some
    number of tasks is enough ([Recovery], [FlushLive], [EditSpec]), or hold for
    every number.  Allocation outcomes are lists of booleans; an empty list
    grants everything.

    ** Not modelled

    Locks, atomics and printing of the platforms ([core/platform]): operations
    are atomic at the granularity of the locked sections; the operations of the
    control device of Linux run one at a time, under its lock.  The kernel and
    the firmware are parameters; of the variants the Linux module has for older
    kernels, which differ in the names and arguments of the calls, there is one.
    The tests ([src/testcase]), the demos and the build files. *)
From Stdlib Require Import ZArith Lia.
From stdpp Require Export prelude gmap sorting list.

#[global] Open Scope Z_scope.

(** ** Machine integers

    Unsigned C integers are [Z] values with the wrap-around written out. *)
Definition u8 (x : Z) : Z := x mod 256.
Definition u16 (x : Z) : Z := x mod 65536.
Definition u32 (x : Z) : Z := x mod 4294967296.
Definition u64 (x : Z) : Z := x mod 18446744073709551616.

(** A 30-bit unsigned bit-field ([: CYANFS_EXTENT_INDEX_BITS]). *)
Definition bf30 (x : Z) : Z := x mod 1073741824.

Definition U32_MAX : Z := 4294967295.
Definition U64_MAX : Z := 18446744073709551615.

Lemma u8_small x : 0 ≤ x < 256 → u8 x = x.
Proof. apply Z.mod_small. Qed.
Lemma u16_small x : 0 ≤ x < 65536 → u16 x = x.
Proof. apply Z.mod_small. Qed.
Lemma u32_small x : 0 ≤ x < 4294967296 → u32 x = x.
Proof. apply Z.mod_small. Qed.
Lemma u64_small x : 0 ≤ x < 18446744073709551616 → u64 x = x.
Proof. apply Z.mod_small. Qed.
Lemma bf30_small x : 0 ≤ x < 1073741824 → bf30 x = x.
Proof. apply Z.mod_small. Qed.

Lemma u8_range x : 0 ≤ u8 x < 256.
Proof. by apply Z.mod_pos_bound. Qed.
Lemma u16_range x : 0 ≤ u16 x < 65536.
Proof. by apply Z.mod_pos_bound. Qed.
Lemma u32_range x : 0 ≤ u32 x < 4294967296.
Proof. by apply Z.mod_pos_bound. Qed.
Lemma u64_range x : 0 ≤ u64 x < 18446744073709551616.
Proof. by apply Z.mod_pos_bound. Qed.
Lemma bf30_range x : 0 ≤ bf30 x < 1073741824.
Proof. by apply Z.mod_pos_bound. Qed.

(** The hint database of the development: width facts and the routine
    rewriting of in-range machine integers. *)
Create HintDb cyanfs.
#[export] Hint Resolve u8_range u16_range u32_range u64_range bf30_range : cyanfs.

(** Remove the wrap-around of an expression that [lia] shows to be in range. *)
Ltac unwrap :=
  repeat first
    [ rewrite u64_small by lia | rewrite u32_small by lia
    | rewrite bf30_small by lia | rewrite u16_small by lia
    | rewrite u8_small by lia ].
Ltac unwrap_in H :=
  repeat first
    [ rewrite u64_small in H by lia | rewrite u32_small in H by lia
    | rewrite bf30_small in H by lia | rewrite u16_small in H by lia
    | rewrite u8_small in H by lia ].

(** Case analysis on the boolean comparisons a C condition is made of. *)
Ltac case_bool :=
  match goal with
  | |- context [?a <=? ?b] => destruct (Z.leb_spec a b)
  | |- context [?a <? ?b] => destruct (Z.ltb_spec a b)
  | |- context [?a =? ?b] => destruct (Z.eqb_spec a b)
  | H : context [?a <=? ?b] |- _ => destruct (Z.leb_spec a b)
  | H : context [?a <? ?b] |- _ => destruct (Z.ltb_spec a b)
  | H : context [?a =? ?b] |- _ => destruct (Z.eqb_spec a b)
  end.

(** ** Fatal checks

    [CYANFS_BUG_ON] aborts the program (and removing a node from a tree it is
    not in is undefined): code that can do so returns an [option], with [None]
    for the abort. *)
Definition bug_on (b : bool) : option unit := if b then None else Some ().

(** ** Ordered sets

    The red-black trees of [core/misc/rb_tree.h] are used as ordered sets of
    nodes; [RbSet] proves that the tree algorithms compute the functions
    below.  [set_nfind X k] is the least element that is at least [k]
    ([CYANFS_RB_NFIND]), [set_min X] is [CYANFS_RB_MIN] and [set_ordered X]
    is the order of [CYANFS_RB_FOREACH]. *)
Definition opt_min (x : Z) (acc : option Z) : option Z :=
  match acc with None => Some x | Some y => Some (Z.min x y) end.

Definition list_nfind (l : list Z) (k : Z) : option Z :=
  foldr (λ x acc, if k <=? x then opt_min x acc else acc) None l.

Definition set_nfind (X : gset Z) (k : Z) : option Z := list_nfind (elements X) k.

Definition set_min (X : gset Z) : option Z := foldr opt_min None (elements X).

Definition set_ordered (X : gset Z) : list Z := merge_sort Z.le (elements X).

Definition set_empty (X : gset Z) : bool := bool_decide (X = ∅).

Lemma list_nfind_spec l k :
  match list_nfind l k with
  | Some x => x ∈ l ∧ k ≤ x ∧ ∀ y, y ∈ l → k ≤ y → x ≤ y
  | None => ∀ y, y ∈ l → y < k
  end.
Proof.
  induction l as [|a l IH]; simpl; [intros y []%elem_of_nil|].
  destruct (Z.leb_spec k a) as [Ha|Ha]; destruct (list_nfind l k) as [x|] eqn:E; simpl.
  - destruct IH as (Hx & Hk & Hmin). split_and!.
    + destruct (Z.min_spec a x) as [[_ ->]|[_ ->]]; set_solver.
    + lia.
    + intros y [->|Hy]%elem_of_cons Hky; [lia|]. specialize (Hmin y Hy Hky). lia.
  - split_and!; [set_solver|lia|].
    intros y [->|Hy]%elem_of_cons Hky; [lia|]. specialize (IH y Hy). lia.
  - destruct IH as (Hx & Hk & Hmin). split_and!; [set_solver|lia|].
    intros y [->|Hy]%elem_of_cons Hky; [lia|]. by apply Hmin.
  - intros y [->|Hy]%elem_of_cons; [lia|]. by apply IH.
Qed.

Lemma set_nfind_Some X k x :
  set_nfind X k = Some x ↔ x ∈ X ∧ k ≤ x ∧ ∀ y, y ∈ X → k ≤ y → x ≤ y.
Proof.
  unfold set_nfind. pose proof (list_nfind_spec (elements X) k) as H.
  split.
  - intros E. rewrite E in H. set_solver.
  - intros (Hx & Hk & Hmin). destruct (list_nfind (elements X) k) as [z|] eqn:E.
    + destruct H as (Hz & Hkz & Hminz). f_equal.
      assert (z ≤ x) by (apply Hminz; set_solver).
      assert (x ≤ z) by (apply Hmin; set_solver). lia.
    + assert (x < k) by (apply H; set_solver). lia.
Qed.

Lemma set_nfind_None X k : set_nfind X k = None ↔ ∀ y, y ∈ X → y < k.
Proof.
  unfold set_nfind. pose proof (list_nfind_spec (elements X) k) as H. split.
  - intros E. rewrite E in H. set_solver.
  - intros Hlt. destruct (list_nfind (elements X) k) as [z|] eqn:E; [|done].
    destruct H as (Hz & Hk & _). assert (z < k) by (apply Hlt; set_solver). lia.
Qed.

Lemma foldr_opt_min_spec l :
  match foldr opt_min None l with
  | Some x => x ∈ l ∧ ∀ y, y ∈ l → x ≤ y
  | None => l = []
  end.
Proof.
  induction l as [|a l IH]; simpl; [done|].
  destruct (foldr opt_min None l) as [x|]; simpl.
  - destruct IH as [Hx Hmin]. split.
    + destruct (Z.min_spec a x) as [[_ ->]|[_ ->]]; set_solver.
    + intros y [->|Hy]%elem_of_cons; [lia|]. specialize (Hmin y Hy). lia.
  - subst l. split; [set_solver|]. intros y Hy. set_solver.
Qed.

Lemma set_min_Some X x : set_min X = Some x ↔ x ∈ X ∧ ∀ y, y ∈ X → x ≤ y.
Proof.
  unfold set_min. pose proof (foldr_opt_min_spec (elements X)) as H. split.
  - intros E. rewrite E in H. set_solver.
  - intros [Hx Hmin]. destruct (foldr opt_min None (elements X)) as [z|].
    + destruct H as [Hz Hminz]. f_equal.
      assert (z ≤ x) by (apply Hminz; set_solver).
      assert (x ≤ z) by (apply Hmin; set_solver). lia.
    + assert (x ∈ elements X) by set_solver. rewrite H in *. set_solver.
Qed.

Lemma set_min_None X : set_min X = None ↔ X = ∅.
Proof.
  unfold set_min. pose proof (foldr_opt_min_spec (elements X)) as H. split.
  - intros E. rewrite E in H. apply leibniz_equiv, elements_empty_inv. by rewrite H.
  - intros ->. by rewrite elements_empty.
Qed.

Lemma set_empty_true X : set_empty X = true ↔ X = ∅.
Proof. apply bool_decide_eq_true. Qed.

Lemma elem_of_set_ordered X x : x ∈ set_ordered X ↔ x ∈ X.
Proof. unfold set_ordered. by rewrite (merge_sort_Permutation _), elem_of_elements. Qed.

Lemma set_ordered_Permutation X : set_ordered X ≡ₚ elements X.
Proof. apply merge_sort_Permutation. Qed.

Lemma set_ordered_sorted X : StronglySorted Z.le (set_ordered X).
Proof. apply StronglySorted_merge_sort; apply _. Qed.

Lemma NoDup_set_ordered X : NoDup (set_ordered X).
Proof. rewrite set_ordered_Permutation. apply NoDup_elements. Qed.

(** ** Lists *)
Lemma nth_replicate_same {A} (x : A) k n : nth n (replicate k x) x = x.
Proof. revert n. induction k as [|k IH]; intros [|n]; simpl; auto. Qed.
