(* ===== verification/Count.v ===== *)
(** * Count: how many entries of a map, or elements of a list, satisfy a predicate

    The reference counts of the Linux module are counts of the objects that
    refer to another one; these lemmas say how a count moves when one object
    appears, changes or goes. *)
From Stdlib Require Import ZArith Lia.
From S2P Require Import Prelude.

Section count.
Context {K A : Type} `{Countable K} (P : A → Prop) `{!∀ x, Decision (P x)}.

Definition map_count (m : gmap K A) : Z := Z.of_nat (size (filter (λ kv, P kv.2) m)).

Lemma map_count_empty : map_count ∅ = 0.
Proof. unfold map_count. by rewrite map_filter_empty, map_size_empty. Qed.

Lemma map_count_insert m k x : m !! k = None → map_count (<[k := x]> m) = map_count m + Z.b2z (bool_decide (P x)).
Proof.
  intros Hk. unfold map_count. case_bool_decide as Hp; simpl.
  - rewrite map_filter_insert_True, map_size_insert_None by (done || by apply map_lookup_filter_None_2; left). lia.
  - rewrite map_filter_insert_False, delete_id by done. lia.
Qed.

Lemma map_count_delete m k x : m !! k = Some x → map_count (delete k m) = map_count m - Z.b2z (bool_decide (P x)).
Proof.
  intros Hk. rewrite <- (insert_delete_id m k x Hk) at 2. rewrite map_count_insert by apply lookup_delete_eq. lia.
Qed.

Lemma map_count_update m k x y :
  m !! k = Some x → map_count (<[k := y]> m) = map_count m - Z.b2z (bool_decide (P x)) + Z.b2z (bool_decide (P y)).
Proof.
  intros Hk. rewrite <- insert_delete_eq, map_count_insert, (map_count_delete m k x Hk) by apply lookup_delete_eq. lia.
Qed.

Lemma map_count_nonneg m : 0 ≤ map_count m.
Proof. unfold map_count. lia. Qed.

Lemma map_count_pos m k x : m !! k = Some x → P x → 0 < map_count m.
Proof.
  intros Hk Hp. pose proof (map_count_delete m k x Hk) as E. rewrite bool_decide_true in E by done.
  pose proof (map_count_nonneg (delete k m)). simpl in E. lia.
Qed.

Lemma map_count_zero m : map_count m = 0 ↔ ∀ k x, m !! k = Some x → ¬ P x.
Proof.
  split; [intros E k x Hk Hp; pose proof (map_count_pos m k x Hk Hp); lia|]. intros Hn.
  unfold map_count. change 0 with (Z.of_nat 0). f_equal. apply map_size_empty_iff, map_empty. intros k. apply map_lookup_filter_None. right. intros x Hx. by apply (Hn k).
Qed.

Lemma map_count_exists m : 0 < map_count m → ∃ k x, m !! k = Some x ∧ P x.
Proof.
  intros Hp. destruct (map_choose (filter (λ kv, P kv.2) m)) as (k & x & Hk).
  - intros E. unfold map_count in Hp. rewrite E, map_size_empty in Hp. lia.
  - apply map_lookup_filter_Some in Hk as [? ?]. eauto.
Qed.

Definition list_count (l : list A) : Z := Z.of_nat (length (filter P l)).

Lemma list_count_cons x l : list_count (x :: l) = Z.b2z (bool_decide (P x)) + list_count l.
Proof. unfold list_count. rewrite filter_cons. case_bool_decide; case_decide; try done; cbn [length Z.b2z]; lia. Qed.

Lemma list_count_app l l' : list_count (l ++ l') = list_count l + list_count l'.
Proof. unfold list_count. rewrite filter_app, length_app. lia. Qed.

Lemma list_count_nonneg l : 0 ≤ list_count l.
Proof. unfold list_count. lia. Qed.

Lemma list_count_pos l x : x ∈ l → P x → 0 < list_count l.
Proof.
  intros Hx Hp. unfold list_count. assert (x ∈ filter P l) as Hf by (by apply list_elem_of_filter).
  destruct (filter P l); [set_solver|cbn [length]; lia].
Qed.

#[export] Instance list_count_perm : Proper ((≡ₚ) ==> eq) list_count.
Proof. intros l l' E. unfold list_count. by rewrite E. Qed.
End count.

(** How often [a] is in a list. *)
Notation occurs a := (list_count (λ x, x = a)).

Lemma occurs_self (a : Z) l : occurs a (a :: l) = 1 + occurs a l.
Proof. rewrite list_count_cons, bool_decide_true by done. done. Qed.

Lemma occurs_other (a b : Z) l : a ≠ b → occurs b (a :: l) = occurs b l.
Proof. intros Hn. rewrite list_count_cons, bool_decide_false by done. done. Qed.

Lemma occurs_none (a : Z) l : a ∉ l → occurs a l = 0.
Proof.
  induction l as [|x l IH]; intros Hn; [done|]. apply not_elem_of_cons in Hn as [Hx Hn]. rewrite occurs_other, IH by congruence. done.
Qed.

(** The first occurrence of [a] out of a list. *)
Fixpoint list_take_out (a : Z) (l : list Z) : list Z :=
  match l with
  | [] => []
  | x :: l => if x =? a then l else x :: list_take_out a l
  end.

Lemma list_take_out_perm a l : a ∈ l → l ≡ₚ a :: list_take_out a l.
Proof.
  induction l as [|x l IH]; [set_solver|]. cbn [list_take_out]. destruct (Z.eqb_spec x a) as [->|Hne]; [done|].
  intros [->|Hin]%elem_of_cons; [done|]. rewrite (IH Hin) at 1. apply perm_swap.
Qed.

(** One more element at the end of the first, the second or the front of the third part. *)
Lemma parts_first {A} (x : A) l k : (l ++ [x]) ++ k ≡ₚ x :: l ++ k.
Proof. rewrite <- app_assoc. symmetry. apply (Permutation_middle l k x). Qed.
Lemma parts_second {A} (x : A) h l k : h ++ (l ++ [x]) ++ k ≡ₚ x :: h ++ l ++ k.
Proof. rewrite parts_first. by rewrite <- Permutation_middle. Qed.
Lemma parts_third {A} (x : A) h l k : h ++ l ++ x :: k ≡ₚ x :: h ++ l ++ k.
Proof. rewrite <- !Permutation_middle. done. Qed.
