(* ===== verification/DList.v ===== *)
(** * DList: the circular doubly linked lists

    Models [core/misc/list.h].  The memory maps the address of a [struct
    cyanfs_list_head] to its two pointers; a list is known by the address of
    its head.  Following a pointer outside the memory is [None].  The
    theorems say that the functions work on the memory as the operations on
    Rocq lists that the other files use for the queues of the program. *)
From Stdlib Require Import ZArith Lia.
From S2P Require Import Prelude.

Record cyanfs_list_head := mk_link { lh_next : Z; lh_prev : Z }.
Notation links := (gmap Z cyanfs_list_head).

Definition get_next (a : Z) (m : links) : option Z := lh_next <$> m !! a.
Definition get_prev (a : Z) (m : links) : option Z := lh_prev <$> m !! a.
Definition put_next (a v : Z) (m : links) : option links := e ← m !! a; Some (<[a := mk_link v (lh_prev e)]> m).
Definition put_prev (a v : Z) (m : links) : option links := e ← m !! a; Some (<[a := mk_link (lh_next e) v]> m).

Definition CYANFS_INIT_LIST_HEAD (l : Z) (m : links) : option links :=
  m ← put_next l l m; put_prev l l m.

Definition __cyanfs_list_add (new prev next : Z) (m : links) : option links :=
  m ← put_prev next new m;
  m ← put_next new next m;
  m ← put_prev new prev m;
  put_next prev new m.

Definition cyanfs_list_add (new head : Z) (m : links) : option links :=
  next ← get_next head m; __cyanfs_list_add new head next m.
Definition cyanfs_list_add_tail (new head : Z) (m : links) : option links :=
  prev ← get_prev head m; __cyanfs_list_add new prev head m.

Definition __cyanfs_list_del (prev next : Z) (m : links) : option links :=
  m ← put_prev next prev m; put_next prev next m.
Definition cyanfs_list_del (entry : Z) (m : links) : option links :=
  prev ← get_prev entry m; next ← get_next entry m; __cyanfs_list_del prev next m.

Definition cyanfs_list_is_first (l head : Z) (m : links) : option bool := p ← get_prev l m; Some (p =? head).
Definition cyanfs_list_is_last (l head : Z) (m : links) : option bool := n ← get_next l m; Some (n =? head).
Definition cyanfs_list_is_head (l head : Z) : bool := l =? head.
Definition cyanfs_list_empty (head : Z) (m : links) : option bool := n ← get_next head m; Some (n =? head).
Definition cyanfs_list_is_singular (head : Z) (m : links) : option bool :=
  e ← cyanfs_list_empty head m;
  if (e : bool) then Some false else n ← get_next head m; p ← get_prev head m; Some (n =? p).

Definition __cyanfs_list_splice (l prev next : Z) (m : links) : option links :=
  first ← get_next l m;
  last ← get_prev l m;
  m ← put_prev first prev m;
  m ← put_next prev first m;
  m ← put_next last next m;
  put_prev next last m.

Definition cyanfs_list_splice (l head : Z) (m : links) : option links :=
  e ← cyanfs_list_empty l m;
  if (e : bool) then Some m else next ← get_next head m; __cyanfs_list_splice l head next m.
Definition cyanfs_list_splice_tail (l head : Z) (m : links) : option links :=
  e ← cyanfs_list_empty l m;
  if (e : bool) then Some m else prev ← get_prev head m; __cyanfs_list_splice l prev head m.
Definition cyanfs_list_splice_init (l head : Z) (m : links) : option links :=
  e ← cyanfs_list_empty l m;
  if (e : bool) then Some m else
  next ← get_next head m; m ← __cyanfs_list_splice l head next m; CYANFS_INIT_LIST_HEAD l m.
Definition cyanfs_list_splice_tail_init (l head : Z) (m : links) : option links :=
  e ← cyanfs_list_empty l m;
  if (e : bool) then Some m else
  prev ← get_prev head m; m ← __cyanfs_list_splice l prev head m; CYANFS_INIT_LIST_HEAD l m.

(** [cyanfs_list_first_entry] and [cyanfs_list_last_entry], up to the offset
    of the member in the entry. *)
Definition cyanfs_list_first_entry (head : Z) (m : links) : option Z := get_next head m.
Definition cyanfs_list_last_entry (head : Z) (m : links) : option Z := get_prev head m.

(** [cyanfs_list_for_each] and [cyanfs_list_for_each_prev]: the positions of
    the loop; [step] is [pos->next] or [pos->prev]. *)
Fixpoint for_each_loop (step : Z → links → option Z) (fuel : nat) (pos head : Z) (m : links) : option (list Z) :=
  if cyanfs_list_is_head pos head then Some [] else
  match fuel with
  | O => None
  | S fuel => n ← step pos m; l ← for_each_loop step fuel n head m; Some (pos :: l)
  end.
Definition cyanfs_list_for_each (head : Z) (m : links) : option (list Z) :=
  pos ← get_next head m; for_each_loop get_next (size m) pos head m.
Definition cyanfs_list_for_each_prev (head : Z) (m : links) : option (list Z) :=
  pos ← get_prev head m; for_each_loop get_prev (size m) pos head m.

(** [cyanfs_list_for_each_safe] with the body [body]: the next position is
    read before the body, which may take the entry out of the list. *)
Fixpoint for_each_safe_loop (body : Z → links → option links) (fuel : nat) (pos n head : Z) (m : links)
    : option (list Z * links) :=
  if cyanfs_list_is_head pos head then Some ([], m) else
  match fuel with
  | O => None
  | S fuel =>
      m ← body pos m;
      n' ← get_next n m;
      '(l, m) ← for_each_safe_loop body fuel n n' head m;
      Some (pos :: l, m)
  end.
Definition cyanfs_list_for_each_safe (body : Z → links → option links) (head : Z) (m : links)
    : option (list Z * links) :=
  pos ← get_next head m; n ← get_next pos m; for_each_safe_loop body (size m) pos n head m.

(** ** Representation

    [chain m x l y]: the elements of [l] lead from [x] to [y], and back.  A
    list with head [h] is a chain from [h] to itself. *)
Fixpoint chain (m : links) (x : Z) (l : list Z) (y : Z) : Prop :=
  match l with
  | [] => get_next x m = Some y ∧ get_prev y m = Some x
  | a :: l => (get_next x m = Some a ∧ get_prev a m = Some x) ∧ chain m a l y
  end.
Definition ring (m : links) (h : Z) (l : list Z) : Prop := NoDup (h :: l) ∧ chain m h l h.

Lemma chain_app m x l1 a l2 y : chain m x (l1 ++ a :: l2) y ↔ chain m x l1 a ∧ chain m a l2 y.
Proof. revert x. induction l1 as [|b l1 IH]; intros x; simpl; [done|]. rewrite IH. tauto. Qed.

Lemma chain_frame m m' x l y : (∀ a, a ∈ x :: l → get_next a m' = get_next a m) → (∀ a, a ∈ l ++ [y] → get_prev a m' = get_prev a m) →
  chain m x l y → chain m' x l y.
Proof.
  revert x. induction l as [|a l IH]; intros x Hn Hp; simpl in *.
  - rewrite Hn, Hp by set_solver. done.
  - rewrite Hn, Hp by set_solver. intros [H1 H2]. split; [done|]. apply IH; [set_solver|set_solver|done].
Qed.

Lemma chain_dom m x l y : chain m x l y → ∀ a, a ∈ x :: y :: l → is_Some (m !! a).
Proof.
  revert x. induction l as [|b l IH]; intros x H a Ha; simpl in H; unfold get_next, get_prev in H.
  - destruct H as [H1 H2]. apply elem_of_cons in Ha as [->|[->|Ha]%elem_of_cons]; [by destruct (m !! x)|by destruct (m !! y)|by apply elem_of_nil in Ha].
  - destruct H as [[H1 _] H]. apply elem_of_cons in Ha as [->|Ha]; [by destruct (m !! x)|]. apply (IH b H). set_solver.
Qed.

Lemma put_next_ok a v m : is_Some (m !! a) → ∃ m', put_next a v m = Some m' ∧ dom m' = dom m ∧
  (∀ b, get_next b m' = if decide (b = a) then Some v else get_next b m) ∧ (∀ b, get_prev b m' = get_prev b m).
Proof.
  intros [e He]. unfold put_next. rewrite He. eexists. split; [done|]. split; [rewrite dom_insert_L; apply elem_of_dom_2 in He; set_solver|].
  unfold get_next, get_prev. split; intros b; (destruct (decide (b = a)) as [->|]; [rewrite lookup_insert_eq; by rewrite ?He|by rewrite lookup_insert_ne]).
Qed.
Lemma put_prev_ok a v m : is_Some (m !! a) → ∃ m', put_prev a v m = Some m' ∧ dom m' = dom m ∧
  (∀ b, get_prev b m' = if decide (b = a) then Some v else get_prev b m) ∧ (∀ b, get_next b m' = get_next b m).
Proof.
  intros [e He]. unfold put_prev. rewrite He. eexists. split; [done|]. split; [rewrite dom_insert_L; apply elem_of_dom_2 in He; set_solver|].
  unfold get_next, get_prev. split; intros b; (destruct (decide (b = a)) as [->|]; [rewrite lookup_insert_eq; by rewrite ?He|by rewrite lookup_insert_ne]).
Qed.

(** ** Relinking *)
Definition final_of (x : Z) (l : list Z) : Z := default x (last l).
Definition first_of (l : list Z) (y : Z) : Z := default y (head l).

Lemma final_of_cons x a l : final_of x (a :: l) = final_of a l.
Proof. unfold final_of. by rewrite last_cons; destruct (last l). Qed.
Lemma final_of_elem x l : final_of x l ∈ x :: l.
Proof. revert x. induction l as [|a l IH]; intros x; [set_solver|]. rewrite final_of_cons. specialize (IH a). set_solver. Qed.
Lemma first_of_elem l y : first_of l y ∈ l ++ [y].
Proof. destruct l; simpl; set_solver. Qed.

Lemma chain_first m x l y : chain m x l y → get_next x m = Some (first_of l y).
Proof. destruct l; simpl; tauto. Qed.
Lemma chain_final m x l y : chain m x l y → get_prev y m = Some (final_of x l).
Proof. revert x. induction l as [|a l IH]; intros x; [simpl; tauto|]. rewrite final_of_cons. intros [_ H]. by apply IH. Qed.

(** Replacing the elements between two places of a chain. *)
Lemma relink m m' old mid l2 y l1 : ∀ x,
  chain m x (l1 ++ old ++ l2) y → NoDup (x :: l1 ++ l2) → y ∉ l1 ++ l2 →
  (∀ a, a ∈ x :: l1 ++ l2 → a ≠ final_of x l1 → get_next a m' = get_next a m) →
  (∀ a, a ∈ l1 ++ l2 ++ [y] → a ≠ first_of l2 y → get_prev a m' = get_prev a m) →
  chain m' (final_of x l1) mid (first_of l2 y) → chain m' x (l1 ++ mid ++ l2) y.
Proof.
  induction l1 as [|a l1 IH]; intros x Hc Hnd Hy Hn Hp Hm.
  - simpl in *. change (final_of x []) with x in *. destruct l2 as [|b l2]; [by rewrite app_nil_r|]. change (first_of (b :: l2) y) with b in *.
    apply chain_app in Hc as [_ Hc]. apply chain_app. split; [done|]. rewrite !NoDup_cons in Hnd. destruct Hnd as (Hx & Hb & _).
    revert Hc. apply chain_frame; intros a Ha; [apply Hn; set_solver|apply Hp; set_solver].
  - rewrite final_of_cons in *. simpl in *. destruct Hc as [[H1 H2] Hc]. rewrite NoDup_cons in Hnd. destruct Hnd as [Hx Hnd].
    pose proof (final_of_elem a l1) as Hf. pose proof (first_of_elem l2 y) as Hg. split; [split|].
    + rewrite Hn; [done|set_solver|set_solver].
    + rewrite Hp; [done|set_solver|]. rewrite NoDup_cons in Hnd. set_solver.
    + apply IH; set_solver.
Qed.

(** Another end for a chain. *)
Lemma chain_retarget m m' l y y' : ∀ x, chain m x l y → NoDup (x :: l) →
  (∀ a, a ∈ x :: l → a ≠ final_of x l → get_next a m' = get_next a m) → (∀ a, a ∈ l → get_prev a m' = get_prev a m) →
  get_next (final_of x l) m' = Some y' → get_prev y' m' = Some (final_of x l) → chain m' x l y'.
Proof.
  induction l as [|a l IH]; intros x Hc Hnd Hn Hp H1 H2; [done|]. rewrite final_of_cons in *. destruct Hc as [[C1 C2] Hc].
  apply NoDup_cons in Hnd as [Hx Hnd]. pose proof (final_of_elem a l) as Hf. split; [split|].
  - rewrite Hn; [done|set_solver|set_solver].
  - rewrite Hp; [done|set_solver].
  - apply IH; set_solver.
Qed.

Lemma ring_dom m h l a : ring m h l → a ∈ h :: l → is_Some (m !! a).
Proof. intros [_ H] Ha. apply (chain_dom m h l h H). set_solver. Qed.

(** Elements a change leaves alone. *)
Definition same_off (L : list Z) (m m' : links) : Prop :=
  dom m' = dom m ∧ (∀ a, a ∉ L → get_next a m' = get_next a m) ∧ (∀ a, a ∉ L → get_prev a m' = get_prev a m).

Lemma ring_same_off L m m' h l : same_off L m m' → (∀ a, a ∈ h :: l → a ∉ L) → ring m h l → ring m' h l.
Proof.
  intros (_ & Hn & Hp) Hd [Hnd Hc]. split; [done|]. revert Hc. apply chain_frame; intros a Ha; [apply Hn|apply Hp]; apply Hd; set_solver.
Qed.

(** ** Adding and deleting *)
Lemma nodup_insert (h new : Z) l1 l2 : NoDup (h :: l1 ++ l2) → new ∉ h :: l1 ++ l2 → NoDup (h :: l1 ++ new :: l2).
Proof.
  intros Hnd Hnew. assert (h :: l1 ++ new :: l2 ≡ₚ new :: h :: l1 ++ l2) as -> by solve_Permutation. by constructor.
Qed.
Lemma nodup_delete (h x : Z) l1 l2 : NoDup (h :: l1 ++ x :: l2) → NoDup (h :: l1 ++ l2) ∧ x ∉ h :: l1 ++ l2.
Proof.
  assert (h :: l1 ++ x :: l2 ≡ₚ x :: h :: l1 ++ l2) as -> by solve_Permutation. rewrite NoDup_cons. tauto.
Qed.

Lemma list_add_at m h l1 l2 new : ring m h (l1 ++ l2) → new ∉ h :: l1 ++ l2 → is_Some (m !! new) →
  ∃ m', __cyanfs_list_add new (final_of h l1) (first_of l2 h) m = Some m' ∧ ring m' h (l1 ++ new :: l2) ∧ same_off (new :: h :: l1 ++ l2) m m'.
Proof.
  intros Hr Hnew Hin. pose proof Hr as [Hnd Hc]. pose proof (final_of_elem h l1) as Hf. pose proof (first_of_elem l2 h) as Hg.
  set (p := final_of h l1) in *. set (n := first_of l2 h) in *.
  assert (Hp0 : is_Some (m !! p)) by (apply (ring_dom m h _ p Hr); set_solver).
  assert (Hn0 : is_Some (m !! n)) by (apply (ring_dom m h _ n Hr); set_solver).
  assert (new ≠ p ∧ new ≠ n) as [Hnp Hnn] by set_solver.
  unfold __cyanfs_list_add. destruct (put_prev_ok n new m Hn0) as (m1 & -> & D1 & P1 & N1). cbn [mbind option_bind].
  rewrite <- elem_of_dom, <- D1, elem_of_dom in Hin, Hp0.
  destruct (put_next_ok new n m1 Hin) as (m2 & -> & D2 & N2 & P2). cbn [mbind option_bind].
  rewrite <- elem_of_dom, <- D2, elem_of_dom in Hin, Hp0.
  destruct (put_prev_ok new p m2 Hin) as (m3 & -> & D3 & P3 & N3). cbn [mbind option_bind].
  rewrite <- elem_of_dom, <- D3, elem_of_dom in Hp0.
  destruct (put_next_ok p new m3 Hp0) as (m4 & -> & D4 & N4 & P4). exists m4. split; [done|].
  assert (HN : ∀ b, get_next b m4 = if decide (b = p) then Some new else if decide (b = new) then Some n else get_next b m).
  { intros b. rewrite N4, N3, N2, N1. done. }
  assert (HP : ∀ b, get_prev b m4 = if decide (b = new) then Some p else if decide (b = n) then Some new else get_prev b m).
  { intros b. rewrite P4, P3, P2, P1. done. }
  split.
  - split; [by apply nodup_insert|].
    apply (relink m m4 [] [new] l2 h l1 h); [done|done|apply NoDup_cons in Hnd; tauto|..].
    + intros a Ha Hap. rewrite HN, !decide_False; [done|set_solver|done].
    + intros a Ha Han. rewrite HP, !decide_False; [done|done|set_solver].
    + simpl. fold p n. rewrite !HN, !HP, (decide_True (P := p = p)), (decide_True (P := new = new)), (decide_False (P := new = p)), (decide_False (P := n = new)), (decide_True (P := n = n)) by done.
      rewrite (decide_True (P := new = new)) by done. done.
  - split_and!; [congruence| |]; intros a Ha; [rewrite HN|rewrite HP]; rewrite !decide_False; try done; set_solver.
Qed.

Lemma list_del_at m h l1 x l2 : ring m h (l1 ++ x :: l2) →
  ∃ m', cyanfs_list_del x m = Some m' ∧ ring m' h (l1 ++ l2) ∧ same_off (h :: l1 ++ x :: l2) m m'.
Proof.
  intros Hr. pose proof Hr as [Hnd Hc]. destruct (nodup_delete _ _ _ _ Hnd) as [Hnd' Hx].
  pose proof (final_of_elem h l1) as Hf. pose proof (first_of_elem l2 h) as Hg.
  unfold cyanfs_list_del, __cyanfs_list_del. pose proof Hc as [C1 C2]%chain_app.
  rewrite (chain_final _ _ _ _ C1). cbn [mbind option_bind]. rewrite (chain_first _ _ _ _ C2). cbn [mbind option_bind].
  set (p := final_of h l1) in *. set (n := first_of l2 h) in *.
  assert (Hp0 : is_Some (m !! p)) by (apply (ring_dom m h _ p Hr); set_solver).
  assert (Hn0 : is_Some (m !! n)) by (apply (ring_dom m h _ n Hr); set_solver).
  destruct (put_prev_ok n p m Hn0) as (m1 & -> & D1 & P1 & N1). cbn [mbind option_bind].
  rewrite <- elem_of_dom, <- D1, elem_of_dom in Hp0.
  destruct (put_next_ok p n m1 Hp0) as (m2 & -> & D2 & N2 & P2). exists m2. split; [done|]. split.
  - split; [done|]. apply (relink m m2 [x] [] l2 h l1 h); [done|done|apply NoDup_cons in Hnd'; tauto|..].
    + intros a Ha Hap. rewrite N2, decide_False, N1; done.
    + intros a Ha Han. rewrite P2, P1, decide_False; done.
    + simpl. fold p n. rewrite N2, P2, P1, !decide_True; done.
  - split_and!; [congruence| |]; intros a Ha; [rewrite N2, N1|rewrite P2, P1]; rewrite decide_False; try done; set_solver.
Qed.

(** ** Splicing *)
Lemma list_splice_at m h l1 l2 g k : ring m h (l1 ++ l2) → ring m g k → k ≠ [] → (∀ a, a ∈ g :: k → a ∉ h :: l1 ++ l2) →
  ∃ m', __cyanfs_list_splice g (final_of h l1) (first_of l2 h) m = Some m' ∧ ring m' h (l1 ++ k ++ l2) ∧ same_off (h :: l1 ++ l2 ++ k) m m'.
Proof.
  intros Hr Hg Hk Hd. pose proof Hr as [Hnd Hc]. pose proof Hg as [Hnd' Hc'].
  pose proof (final_of_elem h l1) as Hf. pose proof (first_of_elem l2 h) as Hf'.
  unfold __cyanfs_list_splice. rewrite (chain_first _ _ _ _ Hc'). cbn [mbind option_bind]. rewrite (chain_final _ _ _ _ Hc'). cbn [mbind option_bind].
  set (p := final_of h l1) in *. set (n := first_of l2 h) in *.
  destruct k as [|a k]; [done|]. change (first_of (a :: k) g) with a. rewrite final_of_cons. set (b := final_of a k).
  pose proof (final_of_elem a k) as Hb. fold b in Hb.
  assert (Hp0 : is_Some (m !! p)) by (apply (ring_dom m h _ p Hr); set_solver).
  assert (Hn0 : is_Some (m !! n)) by (apply (ring_dom m h _ n Hr); set_solver).
  assert (Ha0 : is_Some (m !! a)) by (apply (ring_dom m g _ a Hg); set_solver).
  assert (Hb0 : is_Some (m !! b)) by (apply (ring_dom m g _ b Hg); set_solver).
  assert (b ≠ p ∧ a ≠ n) as [Hbp Han].
  { clearbody p n b. split; intros ->; [apply (Hd p)|apply (Hd n)]; set_solver. }
  destruct (put_prev_ok a p m Ha0) as (m1 & -> & D1 & P1 & N1). cbn [mbind option_bind].
  rewrite <- elem_of_dom, <- D1, elem_of_dom in Hp0, Hb0, Hn0.
  destruct (put_next_ok p a m1 Hp0) as (m2 & -> & D2 & N2 & P2). cbn [mbind option_bind].
  rewrite <- elem_of_dom, <- D2, elem_of_dom in Hb0, Hn0.
  destruct (put_next_ok b n m2 Hb0) as (m3 & -> & D3 & N3 & P3). cbn [mbind option_bind].
  rewrite <- elem_of_dom, <- D3, elem_of_dom in Hn0.
  destruct (put_prev_ok n b m3 Hn0) as (m4 & -> & D4 & P4 & N4). exists m4. split; [done|].
  assert (HN : ∀ c, get_next c m4 = if decide (c = b) then Some n else if decide (c = p) then Some a else get_next c m).
  { intros c. by rewrite N4, N3, N2, N1. }
  assert (HP : ∀ c, get_prev c m4 = if decide (c = n) then Some b else if decide (c = a) then Some p else get_prev c m).
  { intros c. by rewrite P4, P3, P2, P1. }
  split.
  - split.
    { assert (h :: l1 ++ (a :: k) ++ l2 ≡ₚ (a :: k) ++ h :: l1 ++ l2) as -> by solve_Permutation.
      apply NoDup_app. split_and!; [by apply NoDup_cons in Hnd' as [_ ?]|intros c Hc0; apply Hd; by apply elem_of_cons; right|done]. }
    apply (relink m m4 [] (a :: k) l2 h l1 h); [done|done|apply NoDup_cons in Hnd; tauto|..].
    + intros c Hc0 Hcp. rewrite HN, !decide_False; [done|done|]. clearbody b. intros ->. apply (Hd b); set_solver.
    + intros c Hc0 Hcn. rewrite HP, !decide_False; [done| |done]. intros ->. apply (Hd a); set_solver.
    + fold p n. split.
      * rewrite HN, HP. rewrite (decide_False (P := p = b)), (decide_True (P := p = p)), (decide_False (P := a = n)), (decide_True (P := a = a)) by done. done.
      * destruct Hc' as [_ Hc']. apply NoDup_cons in Hnd' as [Hgk Hnd'].
        apply (chain_retarget m m4 k g n a Hc' Hnd'); fold b; clearbody p n b.
        -- intros c Hc0 Hcb. rewrite HN, !decide_False; [done| |done]. intros ->. apply (Hd p); set_solver.
        -- intros c Hc0. rewrite HP, !decide_False; [done|intros ->; apply NoDup_cons in Hnd'; set_solver|intros ->; apply (Hd n); set_solver].
        -- rewrite HN, decide_True; done.
        -- rewrite HP, decide_True; done.
  - split_and!; [congruence| |]; clearbody p n b; intros c Hc0; [rewrite HN|rewrite HP]; rewrite !decide_False; try done; set_solver.
Qed.

Lemma init_head_ok h m : is_Some (m !! h) → ∃ m', CYANFS_INIT_LIST_HEAD h m = Some m' ∧ ring m' h [] ∧ same_off [h] m m'.
Proof.
  intros Hh. unfold CYANFS_INIT_LIST_HEAD. destruct (put_next_ok h h m Hh) as (m1 & -> & D1 & N1 & P1). cbn [mbind option_bind].
  rewrite <- elem_of_dom, <- D1, elem_of_dom in Hh. destruct (put_prev_ok h h m1 Hh) as (m2 & -> & D2 & P2 & N2).
  exists m2. split; [done|]. split.
  - split; [apply NoDup_singleton|]. simpl. rewrite N2, N1, P2, !decide_True; done.
  - split_and!; [congruence| |]; intros a Ha; [rewrite N2, N1|rewrite P2, P1]; (rewrite decide_False by set_solver; done).
Qed.

(** ** Queries and loops *)
Lemma ring_next m h l1 x l2 : ring m h (l1 ++ x :: l2) → get_next x m = Some (first_of l2 h) ∧ get_prev x m = Some (final_of h l1).
Proof. intros [_ [H1 H2]%chain_app]. split; [by eapply chain_first|by eapply chain_final]. Qed.

Lemma first_of_head h l : h ∉ l → (first_of l h =? h) = bool_decide (l = []).
Proof. destruct l as [|a l]; intros Hh; [apply Z.eqb_refl|]. change (first_of (a :: l) h) with a. rewrite bool_decide_false by done. apply Z.eqb_neq. set_solver. Qed.
Lemma final_of_head h l : h ∉ l → (final_of h l =? h) = bool_decide (l = []).
Proof.
  destruct l as [|a l]; intros Hh; [apply Z.eqb_refl|]. rewrite final_of_cons, bool_decide_false by done. apply Z.eqb_neq.
  pose proof (final_of_elem a l). set_solver.
Qed.
Lemma list_empty_ok m h l : ring m h l → cyanfs_list_empty h m = Some (bool_decide (l = [])).
Proof.
  intros [Hnd Hc]. unfold cyanfs_list_empty. rewrite (chain_first _ _ _ _ Hc). cbn [mbind option_bind]. f_equal. apply first_of_head.
  by apply NoDup_cons in Hnd as [? _].
Qed.

Lemma ring_size m h l : ring m h l → (length l < size m)%nat.
Proof.
  intros Hr. pose proof Hr as [Hnd _]. enough (size (list_to_set (h :: l) : gset Z) ≤ size m)%nat as Hs.
  { rewrite size_list_to_set in Hs by done. simpl in Hs. lia. }
  rewrite <- (size_dom (D := gset Z) m). apply subseteq_size. intros a Ha%elem_of_list_to_set. apply elem_of_dom. by apply (ring_dom m h l).
Qed.

Lemma for_each_ok m h l2 : ∀ l1 fuel, ring m h (l1 ++ l2) → (length l2 ≤ fuel)%nat → for_each_loop get_next fuel (first_of l2 h) h m = Some l2.
Proof.
  induction l2 as [|x l2 IH]; intros l1 fuel Hr Hf.
  - change (first_of [] h) with h. destruct fuel; simpl; unfold cyanfs_list_is_head; by rewrite Z.eqb_refl.
  - destruct fuel as [|fuel]; simpl in Hf; [lia|]. change (first_of (x :: l2) h) with x. cbn [for_each_loop]. unfold cyanfs_list_is_head.
    rewrite (proj2 (Z.eqb_neq x h)) by (destruct Hr as [Hnd _]; apply NoDup_cons in Hnd as [? _]; set_solver).
    rewrite (proj1 (ring_next _ _ _ _ _ Hr)). cbn [mbind option_bind]. rewrite (IH (l1 ++ [x])); [done|by rewrite <- app_assoc|lia].
Qed.
Lemma for_each_prev_ok m h l1 : ∀ l2 fuel, ring m h (l1 ++ l2) → (length l1 ≤ fuel)%nat → for_each_loop get_prev fuel (final_of h l1) h m = Some (reverse l1).
Proof.
  induction l1 as [|x l1 IH] using rev_ind; intros l2 fuel Hr Hf.
  - change (final_of h []) with h. destruct fuel; simpl; unfold cyanfs_list_is_head; by rewrite Z.eqb_refl.
  - rewrite length_app in Hf. destruct fuel as [|fuel]; simpl in Hf; [lia|]. rewrite <- app_assoc in Hr.
    replace (final_of h (l1 ++ [x])) with x by (unfold final_of; by rewrite last_snoc). cbn [for_each_loop]. unfold cyanfs_list_is_head.
    rewrite (proj2 (Z.eqb_neq x h)) by (destruct Hr as [Hnd _]; apply NoDup_cons in Hnd as [? _]; set_solver).
    rewrite (proj2 (ring_next _ _ _ _ _ Hr)). cbn [mbind option_bind]. rewrite (IH ([x] ++ l2)); [by rewrite reverse_snoc|done|lia].
Qed.

(** A body that leaves the entries after the current one in the list, and
    [keep] of the ones up to it. *)
Definition body_safe (h : Z) (body : Z → links → option links) (keep : list Z → Z → list Z) : Prop :=
  ∀ m l1 x l2, ring m h (l1 ++ x :: l2) → ∃ m', body x m = Some m' ∧ ring m' h (keep l1 x ++ l2).

Lemma for_each_safe_ok h body keep l2 : body_safe h body keep → ∀ l1 m fuel n, ring m h (l1 ++ l2) → (length l2 ≤ fuel)%nat →
  get_next (first_of l2 h) m = Some n →
  ∃ m', for_each_safe_loop body fuel (first_of l2 h) n h m = Some (l2, m') ∧ ring m' h (foldl keep l1 l2).
Proof.
  intros Hb. induction l2 as [|x l2 IH]; intros l1 m fuel n Hr Hf Hn.
  - rewrite app_nil_r in Hr. exists m. split; [|done]. change (first_of [] h) with h. destruct fuel; simpl; unfold cyanfs_list_is_head; by rewrite Z.eqb_refl.
  - destruct fuel as [|fuel]; simpl in Hf; [lia|]. change (first_of (x :: l2) h) with x in *. cbn [for_each_safe_loop]. unfold cyanfs_list_is_head.
    rewrite (proj2 (Z.eqb_neq x h)) by (destruct Hr as [Hnd _]; apply NoDup_cons in Hnd as [? _]; set_solver).
    rewrite (proj1 (ring_next _ _ _ _ _ Hr)) in Hn. injection Hn as <-.
    destruct (Hb m l1 x l2 Hr) as (m1 & -> & Hr1). cbn [mbind option_bind].
    assert (∃ n', get_next (first_of l2 h) m1 = Some n') as [n' Hn'].
    { pose proof (ring_dom _ _ _ (first_of l2 h) Hr1) as [e He]; [pose proof (first_of_elem l2 h); set_solver|]. unfold get_next. rewrite He. by eexists. }
    rewrite Hn'. cbn [mbind option_bind]. destruct (IH _ m1 fuel n' Hr1 ltac:(lia) Hn') as (m' & -> & Hr'). by exists m'.
Qed.

Lemma foldl_const (l acc : list Z) : foldl (λ (l1 : list Z) (_ : Z), l1) acc l = acc.
Proof. by induction l. Qed.
Lemma del_safe h : body_safe h cyanfs_list_del (λ l1 _, l1).
Proof. intros m l1 x l2 Hr. destruct (list_del_at m h l1 x l2 Hr) as (m' & E & Hr' & _). by exists m'. Qed.

(** C33: a linked list is a list.  On a memory that holds the list [l] under
    the head [h], the tests, the first and last entry and the loops compute
    the corresponding functions of [l]; adding at either end and deleting an
    entry leave a memory that holds the list with that change and touch no
    other entry; a loop that deletes every entry visits them all and leaves
    an empty list. *)
Theorem list_refines m h l :
  ring m h l →
  cyanfs_list_empty h m = Some (bool_decide (l = [])) ∧
  cyanfs_list_first_entry h m = Some (first_of l h) ∧ cyanfs_list_last_entry h m = Some (final_of h l) ∧
  cyanfs_list_for_each h m = Some l ∧ cyanfs_list_for_each_prev h m = Some (reverse l) ∧
  (∃ m', cyanfs_list_for_each_safe cyanfs_list_del h m = Some (l, m') ∧ ring m' h []) ∧
  (∀ new, new ∉ h :: l → is_Some (m !! new) →
     (∃ m', cyanfs_list_add new h m = Some m' ∧ ring m' h (new :: l) ∧ same_off (new :: h :: l) m m') ∧
     (∃ m', cyanfs_list_add_tail new h m = Some m' ∧ ring m' h (l ++ [new]) ∧ same_off (new :: h :: l) m m')) ∧
  (∀ l1 x l2, l = l1 ++ x :: l2 →
     cyanfs_list_is_first x h m = Some (bool_decide (l1 = [])) ∧ cyanfs_list_is_last x h m = Some (bool_decide (l2 = [])) ∧
     ∃ m', cyanfs_list_del x m = Some m' ∧ ring m' h (l1 ++ l2) ∧ same_off (h :: l) m m').
Proof.
  intros Hr. pose proof (ring_size _ _ _ Hr) as Hsz. pose proof Hr as [Hnd Hc]. pose proof (proj1 (NoDup_cons h l) Hnd) as [Hh _].
  pose proof (chain_first _ _ _ _ Hc) as Hfst. pose proof (chain_final _ _ _ _ Hc) as Hlst. split_and!.
  - by apply list_empty_ok.
  - done.
  - done.
  - unfold cyanfs_list_for_each. rewrite Hfst. cbn [mbind option_bind]. apply (for_each_ok m h l []); [done|lia].
  - unfold cyanfs_list_for_each_prev. rewrite Hlst. cbn [mbind option_bind]. apply (for_each_prev_ok m h l []); [by rewrite app_nil_r|lia].
  - unfold cyanfs_list_for_each_safe. rewrite Hfst. cbn [mbind option_bind].
    destruct (ring_dom m h l (first_of l h) Hr) as [e He]; [pose proof (first_of_elem l h); set_solver|].
    assert (Hn : get_next (first_of l h) m = Some (lh_next e)) by (unfold get_next; by rewrite He). rewrite Hn. cbn [mbind option_bind].
    destruct (for_each_safe_ok h _ _ l (del_safe h) [] m (size m) _ Hr ltac:(lia) Hn) as (m' & E & Hr').
    exists m'. split; [done|]. rewrite (foldl_const l []) in Hr'. done.
  - intros new Hnew Hin. split.
    + unfold cyanfs_list_add. rewrite Hfst. apply (list_add_at m h [] l new Hr Hnew Hin).
    + unfold cyanfs_list_add_tail. rewrite Hlst. pose proof (list_add_at m h l [] new) as Ha. rewrite !app_nil_r in Ha. by apply Ha.
  - intros l1 x l2 ->. destruct (ring_next _ _ _ _ _ Hr) as [N P]. unfold cyanfs_list_is_first, cyanfs_list_is_last. rewrite N, P. cbn [mbind option_bind].
    rewrite first_of_head, final_of_head by set_solver. split_and!; [done..|]. by apply list_del_at.
Qed.

Definition ex_links : links := list_to_map [(1, mk_link 2 3); (2, mk_link 3 1); (3, mk_link 1 2); (4, mk_link 5 5); (5, mk_link 4 4)].
Lemma ex_ring : ring ex_links 1 [2; 3] ∧ ring ex_links 4 [5].
Proof. split; (split; [apply (bool_decide_unpack _); by vm_compute|by vm_compute]). Qed.

Lemma list_refines_witness : cyanfs_list_for_each 1 ex_links = Some [2; 3] ∧
  ∃ m', cyanfs_list_for_each_safe cyanfs_list_del 1 ex_links = Some ([2; 3], m') ∧ ring m' 1 [].
Proof. destruct (list_refines ex_links 1 [2; 3] (proj1 ex_ring)) as (_ & _ & _ & H1 & _ & H2 & _). split; [exact H1|exact H2]. Defined.

(** Splicing.  On a memory that holds two disjoint lists [l] under [h] and
    [k] under [g], the splices put the entries of [k], in order, at the front
    or at the back of [l]; the ones that end in init leave [g] empty; nothing
    else changes. *)
Theorem list_splice_refines m h l g k :
  ring m h l → ring m g k → (∀ a, a ∈ g :: k → a ∉ h :: l) →
  (∃ m', cyanfs_list_splice g h m = Some m' ∧ ring m' h (k ++ l) ∧ same_off (h :: l ++ k) m m') ∧
  (∃ m', cyanfs_list_splice_tail g h m = Some m' ∧ ring m' h (l ++ k) ∧ same_off (h :: l ++ k) m m') ∧
  (∃ m', cyanfs_list_splice_init g h m = Some m' ∧ ring m' h (k ++ l) ∧ ring m' g []) ∧
  (∃ m', cyanfs_list_splice_tail_init g h m = Some m' ∧ ring m' h (l ++ k) ∧ ring m' g []).
Proof.
  intros Hh Hg Hd. unfold cyanfs_list_splice, cyanfs_list_splice_tail, cyanfs_list_splice_init, cyanfs_list_splice_tail_init.
  rewrite (list_empty_ok _ _ _ Hg). cbn [mbind option_bind]. case_bool_decide as Hk.
  { subst k. rewrite !app_nil_r. split_and!; exists m; done. }
  rewrite (chain_first _ _ _ _ (proj2 Hh)), (chain_final _ _ _ _ (proj2 Hh)). cbn [mbind option_bind].
  destruct (list_splice_at m h [] l g k Hh Hg Hk Hd) as (m1 & E1 & R1 & S1). change (final_of h []) with h in E1.
  pose proof (list_splice_at m h l [] g k) as Ht. rewrite !app_nil_r in Ht. destruct (Ht Hh Hg Hk Hd) as (m2 & E2 & R2 & S2).
  rewrite app_nil_l in S2. change (first_of [] h) with h in E2. rewrite E1, E2. cbn [mbind option_bind].
  assert (Hinit : ∀ m' l', dom m' = dom m → ring m' h l' → l' ≡ₚ l ++ k → ∃ m'', CYANFS_INIT_LIST_HEAD g m' = Some m'' ∧ ring m'' h l' ∧ ring m'' g []).
  { intros m' l' Hdom Hr' Hp. destruct (init_head_ok g m') as (m'' & E & Hg' & Hs).
    - rewrite <- elem_of_dom, Hdom, elem_of_dom. apply (ring_dom m g k g Hg). set_solver.
    - exists m''. split_and!; [done| |done]. apply (ring_same_off [g] m' m'' h l' Hs); [|done]. intros a Ha ->%list_elem_of_singleton.
      rewrite Hp in Ha. destruct Hg as [Hgn _]. apply NoDup_cons in Hgn as [Hgk _]. specialize (Hd g ltac:(set_solver)). set_solver. }
  split_and!; [by exists m1|by exists m2|apply (Hinit m1); [apply S1|done|by rewrite Permutation_app_comm]|apply (Hinit m2); [apply S2|done|done]].
Qed.

Lemma list_splice_refines_witness : ∃ m', cyanfs_list_splice_tail_init 4 1 ex_links = Some m' ∧ ring m' 1 [2; 3; 5] ∧ ring m' 4 [].
Proof.
  destruct ex_ring as [H1 H2]. destruct (list_splice_refines ex_links 1 [2; 3] 4 [5] H1 H2) as (_ & _ & _ & H); [set_solver|exact H].
Defined.
