(* ===== verification/RbTree.v ===== *)
(** * RbTree: the intrusive red-black trees

    Models [core/misc/rb_tree.h].  An element is its address; the memory maps
    an address to the [CYANFS_RB_ENTRY] of the element, whose [rbe_parent]
    holds the address of the parent with the colour in its low bit.  0 is the
    null pointer; reading or writing a null or dangling pointer is [None].
    The assignments of the macros are functions on the memory and the root
    pointer of the tree; the comparison [cmp] is a parameter, as in the
    macros.  A loop has a fuel, and the functions start it with one more than
    twice the number of elements in memory: [RbTreeSpec] proves that it is
    enough. *)
From Stdlib Require Import ZArith Lia.
From S2P Require Import Prelude.

Definition CYANFS_RB_BLACK : Z := 0.
Definition CYANFS_RB_RED : Z := 1.

Record rb_entry := mk_rb { rbe_left : Z; rbe_right : Z; rbe_parent : Z }.

(** The memory and [head->rbh_root]. *)
Record rb_state := mk_rbs { rb_mem : gmap Z rb_entry; rbh_root : Z }.

Definition CYANFS_RB_INIT (s : rb_state) : rb_state := mk_rbs (rb_mem s) 0.
Definition CYANFS_RB_EMPTY (s : rb_state) : bool := rbh_root s =? 0.
Definition set_root (p : Z) (s : rb_state) : rb_state := mk_rbs (rb_mem s) p.

(** ** Fields of an element *)
Definition CYANFS_RB_LEFT (elm : Z) (s : rb_state) : option Z := rbe_left <$> rb_mem s !! elm.
Definition CYANFS_RB_RIGHT (elm : Z) (s : rb_state) : option Z := rbe_right <$> rb_mem s !! elm.
Definition CYANFS_RB_PARENT_GET (elm : Z) (s : rb_state) : option Z :=
  e ← rb_mem s !! elm; Some (Z.land (rbe_parent e) (Z.lnot 1)).
Definition CYANFS_RB_COLOR_GET (elm : Z) (s : rb_state) : option Z :=
  e ← rb_mem s !! elm; Some (Z.land (rbe_parent e) 1).

(** An assignment to a field. *)
Definition rb_store (elm : Z) (g : rb_entry → rb_entry) (s : rb_state) : option rb_state :=
  e ← rb_mem s !! elm; Some (mk_rbs (<[elm := g e]> (rb_mem s)) (rbh_root s)).

Definition LEFT_SET (elm v : Z) : rb_state → option rb_state :=
  rb_store elm (λ e, mk_rb v (rbe_right e) (rbe_parent e)).
Definition RIGHT_SET (elm v : Z) : rb_state → option rb_state :=
  rb_store elm (λ e, mk_rb (rbe_left e) v (rbe_parent e)).
Definition CYANFS_RB_PARENT_SET (elm parent : Z) (s : rb_state) : option rb_state :=
  c ← CYANFS_RB_COLOR_GET elm s;
  rb_store elm (λ e, mk_rb (rbe_left e) (rbe_right e) (Z.lor parent c)) s.
Definition CYANFS_RB_COLOR_SET (elm color : Z) (s : rb_state) : option rb_state :=
  p ← CYANFS_RB_PARENT_GET elm s;
  rb_store elm (λ e, mk_rb (rbe_left e) (rbe_right e) (Z.lor p color)) s.

Definition CYANFS_RB_SET (elm parent : Z) (s : rb_state) : option rb_state :=
  rb_store elm (λ _, mk_rb 0 0 (Z.lor parent CYANFS_RB_RED)) s.
Definition CYANFS_RB_SET_BLACKRED (black red : Z) (s : rb_state) : option rb_state :=
  s ← CYANFS_RB_COLOR_SET black CYANFS_RB_BLACK s;
  CYANFS_RB_COLOR_SET red CYANFS_RB_RED s.

(** [p && COLOR_GET(p) == RED], and [p == NULL || COLOR_GET(p) == BLACK]. *)
Definition is_red (p : Z) (s : rb_state) : option bool :=
  if p =? 0 then Some false else c ← CYANFS_RB_COLOR_GET p s; Some (c =? CYANFS_RB_RED).
Definition is_black (p : Z) (s : rb_state) : option bool :=
  if p =? 0 then Some true else c ← CYANFS_RB_COLOR_GET p s; Some (c =? CYANFS_RB_BLACK).

(** Replace [old] by [new] in the child fields of [parent]. *)
Definition replace_child (parent old new : Z) (s : rb_state) : option rb_state :=
  l ← CYANFS_RB_LEFT parent s;
  if l =? old then LEFT_SET parent new s else RIGHT_SET parent new s.

(** ** Rotations *)
Definition CYANFS_RB_ROTATE_LEFT (elm : Z) (s : rb_state) : option rb_state :=
  tmp ← CYANFS_RB_RIGHT elm s;
  l ← CYANFS_RB_LEFT tmp s;
  s ← RIGHT_SET elm l s;
  s ← (if l =? 0 then Some s else CYANFS_RB_PARENT_SET l elm s);
  p ← CYANFS_RB_PARENT_GET elm s;
  s ← CYANFS_RB_PARENT_SET tmp p s;
  s ← (if p =? 0 then Some (set_root tmp s) else replace_child p elm tmp s);
  s ← LEFT_SET tmp elm s;
  CYANFS_RB_PARENT_SET elm tmp s.

Definition CYANFS_RB_ROTATE_RIGHT (elm : Z) (s : rb_state) : option rb_state :=
  tmp ← CYANFS_RB_LEFT elm s;
  r ← CYANFS_RB_RIGHT tmp s;
  s ← LEFT_SET elm r s;
  s ← (if r =? 0 then Some s else CYANFS_RB_PARENT_SET r elm s);
  p ← CYANFS_RB_PARENT_GET elm s;
  s ← CYANFS_RB_PARENT_SET tmp p s;
  s ← (if p =? 0 then Some (set_root tmp s) else replace_child p elm tmp s);
  s ← RIGHT_SET tmp elm s;
  CYANFS_RB_PARENT_SET elm tmp s.

(** ** Rebalancing after an insertion *)
Fixpoint insert_color_loop (fuel : nat) (elm : Z) (s : rb_state) : option rb_state :=
  match fuel with
  | O => None
  | S fuel =>
      parent ← CYANFS_RB_PARENT_GET elm s;
      red ← is_red parent s;
      if negb red then Some s else
      gparent ← CYANFS_RB_PARENT_GET parent s;
      gl ← CYANFS_RB_LEFT gparent s;
      if parent =? gl then
        tmp ← CYANFS_RB_RIGHT gparent s;
        red ← is_red tmp s;
        if (red : bool) then
          s ← CYANFS_RB_COLOR_SET tmp CYANFS_RB_BLACK s;
          s ← CYANFS_RB_SET_BLACKRED parent gparent s;
          insert_color_loop fuel gparent s
        else
          pr ← CYANFS_RB_RIGHT parent s;
          '(elm, parent, s) ← (if pr =? elm
                               then s ← CYANFS_RB_ROTATE_LEFT parent s; Some (parent, elm, s)
                               else Some (elm, parent, s));
          s ← CYANFS_RB_SET_BLACKRED parent gparent s;
          s ← CYANFS_RB_ROTATE_RIGHT gparent s;
          insert_color_loop fuel elm s
      else
        tmp ← CYANFS_RB_LEFT gparent s;
        red ← is_red tmp s;
        if (red : bool) then
          s ← CYANFS_RB_COLOR_SET tmp CYANFS_RB_BLACK s;
          s ← CYANFS_RB_SET_BLACKRED parent gparent s;
          insert_color_loop fuel gparent s
        else
          pl ← CYANFS_RB_LEFT parent s;
          '(elm, parent, s) ← (if pl =? elm
                               then s ← CYANFS_RB_ROTATE_RIGHT parent s; Some (parent, elm, s)
                               else Some (elm, parent, s));
          s ← CYANFS_RB_SET_BLACKRED parent gparent s;
          s ← CYANFS_RB_ROTATE_LEFT gparent s;
          insert_color_loop fuel elm s
  end.

Definition rb_fuel (s : rb_state) : nat := S (2 * size (rb_mem s)).

Definition CYANFS_RB_INSERT_COLOR (elm : Z) (s : rb_state) : option rb_state :=
  s ← insert_color_loop (rb_fuel s) elm s;
  CYANFS_RB_COLOR_SET (rbh_root s) CYANFS_RB_BLACK s.

(** ** Rebalancing after a removal: the element to make black at the end *)
Fixpoint remove_color_loop (fuel : nat) (parent elm : Z) (s : rb_state) : option (Z * rb_state) :=
  match fuel with
  | O => None
  | S fuel =>
      black ← is_black elm s;
      if negb black || (elm =? rbh_root s) then Some (elm, s) else
      pl ← CYANFS_RB_LEFT parent s;
      if pl =? elm then
        tmp ← CYANFS_RB_RIGHT parent s;
        c ← CYANFS_RB_COLOR_GET tmp s;
        '(tmp, s) ← (if c =? CYANFS_RB_RED then
                       s ← CYANFS_RB_SET_BLACKRED tmp parent s;
                       s ← CYANFS_RB_ROTATE_LEFT parent s;
                       tmp ← CYANFS_RB_RIGHT parent s;
                       Some (tmp, s)
                     else Some (tmp, s));
        tl ← CYANFS_RB_LEFT tmp s; bl ← is_black tl s;
        tr ← CYANFS_RB_RIGHT tmp s; br ← is_black tr s;
        if (bl : bool) && (br : bool) then
          s ← CYANFS_RB_COLOR_SET tmp CYANFS_RB_RED s;
          p ← CYANFS_RB_PARENT_GET parent s;
          remove_color_loop fuel p parent s
        else
          '(tmp, s) ← (if (br : bool) then
                         s ← (if tl =? 0 then Some s else CYANFS_RB_COLOR_SET tl CYANFS_RB_BLACK s);
                         s ← CYANFS_RB_COLOR_SET tmp CYANFS_RB_RED s;
                         s ← CYANFS_RB_ROTATE_RIGHT tmp s;
                         tmp ← CYANFS_RB_RIGHT parent s;
                         Some (tmp, s)
                       else Some (tmp, s));
          c ← CYANFS_RB_COLOR_GET parent s;
          s ← CYANFS_RB_COLOR_SET tmp c s;
          s ← CYANFS_RB_COLOR_SET parent CYANFS_RB_BLACK s;
          tr ← CYANFS_RB_RIGHT tmp s;
          s ← (if tr =? 0 then Some s else CYANFS_RB_COLOR_SET tr CYANFS_RB_BLACK s);
          s ← CYANFS_RB_ROTATE_LEFT parent s;
          Some (rbh_root s, s)
      else
        tmp ← CYANFS_RB_LEFT parent s;
        c ← CYANFS_RB_COLOR_GET tmp s;
        '(tmp, s) ← (if c =? CYANFS_RB_RED then
                       s ← CYANFS_RB_SET_BLACKRED tmp parent s;
                       s ← CYANFS_RB_ROTATE_RIGHT parent s;
                       tmp ← CYANFS_RB_LEFT parent s;
                       Some (tmp, s)
                     else Some (tmp, s));
        tl ← CYANFS_RB_LEFT tmp s; bl ← is_black tl s;
        tr ← CYANFS_RB_RIGHT tmp s; br ← is_black tr s;
        if (bl : bool) && (br : bool) then
          s ← CYANFS_RB_COLOR_SET tmp CYANFS_RB_RED s;
          p ← CYANFS_RB_PARENT_GET parent s;
          remove_color_loop fuel p parent s
        else
          '(tmp, s) ← (if (bl : bool) then
                         s ← (if tr =? 0 then Some s else CYANFS_RB_COLOR_SET tr CYANFS_RB_BLACK s);
                         s ← CYANFS_RB_COLOR_SET tmp CYANFS_RB_RED s;
                         s ← CYANFS_RB_ROTATE_LEFT tmp s;
                         tmp ← CYANFS_RB_LEFT parent s;
                         Some (tmp, s)
                       else Some (tmp, s));
          c ← CYANFS_RB_COLOR_GET parent s;
          s ← CYANFS_RB_COLOR_SET tmp c s;
          s ← CYANFS_RB_COLOR_SET parent CYANFS_RB_BLACK s;
          tl ← CYANFS_RB_LEFT tmp s;
          s ← (if tl =? 0 then Some s else CYANFS_RB_COLOR_SET tl CYANFS_RB_BLACK s);
          s ← CYANFS_RB_ROTATE_RIGHT parent s;
          Some (rbh_root s, s)
  end.

Definition CYANFS_RB_REMOVE_COLOR (parent elm : Z) (s : rb_state) : option rb_state :=
  '(elm, s) ← remove_color_loop (rb_fuel s) parent elm s;
  if elm =? 0 then Some s else CYANFS_RB_COLOR_SET elm CYANFS_RB_BLACK s.

(** ** Removal *)
(** [while ((left = LEFT(elm)) != NULL) elm = left], and its mirror image. *)
Fixpoint leftmost (fuel : nat) (elm : Z) (s : rb_state) : option Z :=
  match fuel with
  | O => None
  | S fuel => l ← CYANFS_RB_LEFT elm s; if l =? 0 then Some elm else leftmost fuel l s
  end.
Fixpoint rightmost (fuel : nat) (elm : Z) (s : rb_state) : option Z :=
  match fuel with
  | O => None
  | S fuel => r ← CYANFS_RB_RIGHT elm s; if r =? 0 then Some elm else rightmost fuel r s
  end.

(** Unlink [elm], whose only child is [child]: its parent and its colour. *)
Definition unlink (elm child : Z) (s : rb_state) : option (Z * Z * rb_state) :=
  parent ← CYANFS_RB_PARENT_GET elm s;
  color ← CYANFS_RB_COLOR_GET elm s;
  s ← (if child =? 0 then Some s else CYANFS_RB_PARENT_SET child parent s);
  s ← (if parent =? 0 then Some (set_root child s) else replace_child parent elm child s);
  Some (parent, color, s).

(** Put [elm] at the place of [old]. *)
Definition transplant (old elm : Z) (s : rb_state) : option rb_state :=
  e ← rb_mem s !! old;
  s ← rb_store elm (λ _, e) s;
  p ← CYANFS_RB_PARENT_GET old s;
  s ← (if p =? 0 then Some (set_root elm s) else replace_child p old elm s);
  l ← CYANFS_RB_LEFT old s;
  s ← CYANFS_RB_PARENT_SET l elm s;
  r ← CYANFS_RB_RIGHT old s;
  if r =? 0 then Some s else CYANFS_RB_PARENT_SET r elm s.

Definition CYANFS_RB_REMOVE (old : Z) (s : rb_state) : option rb_state :=
  l ← CYANFS_RB_LEFT old s;
  r ← CYANFS_RB_RIGHT old s;
  '(child, parent, color, s) ←
    (if (l =? 0) || (r =? 0) then
       let child := if l =? 0 then r else l in
       '(parent, color, s) ← unlink old child s; Some (child, parent, color, s)
     else
       elm ← leftmost (rb_fuel s) r s;
       child ← CYANFS_RB_RIGHT elm s;
       '(parent, color, s) ← unlink elm child s;
       q ← CYANFS_RB_PARENT_GET elm s;
       let parent := if q =? old then elm else parent in
       s ← transplant old elm s;
       Some (child, parent, color, s));
  if color =? CYANFS_RB_BLACK then CYANFS_RB_REMOVE_COLOR parent child s else Some s.

(** ** Neighbours, first and last *)
(** [while (PARENT(elm) && elm == RIGHT(PARENT(elm))) elm = PARENT(elm)]; the
    parent of the element it stops at. *)
Fixpoint climb (child : Z → rb_state → option Z) (fuel : nat) (elm : Z) (s : rb_state) : option Z :=
  match fuel with
  | O => None
  | S fuel =>
      p ← CYANFS_RB_PARENT_GET elm s;
      if p =? 0 then Some p else
      c ← child p s;
      if elm =? c then climb child fuel p s else Some p
  end.

Definition CYANFS_RB_NEXT (elm : Z) (s : rb_state) : option Z :=
  r ← CYANFS_RB_RIGHT elm s;
  if negb (r =? 0) then leftmost (rb_fuel s) r s else
  p ← CYANFS_RB_PARENT_GET elm s;
  up ← (if p =? 0 then Some false else l ← CYANFS_RB_LEFT p s; Some (elm =? l));
  if (up : bool) then Some p else climb CYANFS_RB_RIGHT (rb_fuel s) elm s.

Definition CYANFS_RB_PREV (elm : Z) (s : rb_state) : option Z :=
  l ← CYANFS_RB_LEFT elm s;
  if negb (l =? 0) then rightmost (rb_fuel s) l s else
  p ← CYANFS_RB_PARENT_GET elm s;
  up ← (if p =? 0 then Some false else r ← CYANFS_RB_RIGHT p s; Some (elm =? r));
  if (up : bool) then Some p else climb CYANFS_RB_LEFT (rb_fuel s) elm s.

Fixpoint minmax_loop (val : Z) (fuel : nat) (tmp parent : Z) (s : rb_state) : option Z :=
  if tmp =? 0 then Some parent else
  match fuel with
  | O => None
  | S fuel =>
      c ← (if val <? 0 then CYANFS_RB_LEFT tmp s else CYANFS_RB_RIGHT tmp s);
      minmax_loop val fuel c tmp s
  end.
Definition CYANFS_RB_MINMAX (val : Z) (s : rb_state) : option Z := minmax_loop val (rb_fuel s) (rbh_root s) 0 s.
Definition CYANFS_RB_MIN : rb_state → option Z := CYANFS_RB_MINMAX (-1).
Definition CYANFS_RB_MAX : rb_state → option Z := CYANFS_RB_MINMAX 1.

(** [CYANFS_RB_FOREACH]: the elements in the order of the loop. *)
Fixpoint foreach_loop (fuel : nat) (x : Z) (s : rb_state) : option (list Z) :=
  if x =? 0 then Some [] else
  match fuel with
  | O => None
  | S fuel => y ← CYANFS_RB_NEXT x s; l ← foreach_loop fuel y s; Some (x :: l)
  end.
Definition CYANFS_RB_FOREACH (s : rb_state) : option (list Z) :=
  x ← CYANFS_RB_MIN s; foreach_loop (rb_fuel s) x s.

(** ** Searching *)
Section cmp.
Context (cmp : Z → Z → Z).

(** The search of [CYANFS_RB_INSERT]: an element equal to [elm], or the
    element to insert [elm] under and the last comparison. *)
Fixpoint insert_search (fuel : nat) (elm tmp parent comp : Z) (s : rb_state) : option (Z + Z * Z) :=
  if tmp =? 0 then Some (inr (parent, comp)) else
  match fuel with
  | O => None
  | S fuel =>
      let comp := cmp elm tmp in
      if comp <? 0 then c ← CYANFS_RB_LEFT tmp s; insert_search fuel elm c tmp comp s
      else if 0 <? comp then c ← CYANFS_RB_RIGHT tmp s; insert_search fuel elm c tmp comp s
      else Some (inl tmp)
  end.

Definition CYANFS_RB_INSERT (elm : Z) (s : rb_state) : option (Z * rb_state) :=
  r ← insert_search (rb_fuel s) elm (rbh_root s) 0 0 s;
  match r with
  | inl tmp => Some (tmp, s)
  | inr (parent, comp) =>
      s ← CYANFS_RB_SET elm parent s;
      s ← (if negb (parent =? 0)
           then if comp <? 0 then LEFT_SET parent elm s else RIGHT_SET parent elm s
           else Some (set_root elm s));
      s ← CYANFS_RB_INSERT_COLOR elm s;
      Some (0, s)
  end.

Fixpoint find_loop (fuel : nat) (elm tmp : Z) (s : rb_state) : option Z :=
  if tmp =? 0 then Some 0 else
  match fuel with
  | O => None
  | S fuel =>
      let comp := cmp elm tmp in
      if comp <? 0 then c ← CYANFS_RB_LEFT tmp s; find_loop fuel elm c s
      else if 0 <? comp then c ← CYANFS_RB_RIGHT tmp s; find_loop fuel elm c s
      else Some tmp
  end.
Definition CYANFS_RB_FIND (elm : Z) (s : rb_state) : option Z := find_loop (rb_fuel s) elm (rbh_root s) s.

Fixpoint nfind_loop (fuel : nat) (elm tmp res : Z) (s : rb_state) : option Z :=
  if tmp =? 0 then Some res else
  match fuel with
  | O => None
  | S fuel =>
      let comp := cmp elm tmp in
      if comp <? 0 then c ← CYANFS_RB_LEFT tmp s; nfind_loop fuel elm c tmp s
      else if 0 <? comp then c ← CYANFS_RB_RIGHT tmp s; nfind_loop fuel elm c res s
      else Some tmp
  end.
Definition CYANFS_RB_NFIND (elm : Z) (s : rb_state) : option Z := nfind_loop (rb_fuel s) elm (rbh_root s) 0 s.
End cmp.
