(* ===== verification/RbTreeSpec.v ===== *)
(** * RbTreeSpec: the red-black trees are balanced ordered sets

    The memory represents a tree: the entries of its elements hold its links,
    parents and colours ([rep]).  The loops of [RbTree] work at a place inside
    a tree, which is a subtree and its context, a list of frames as in a
    zipper; [zrep] says that the memory represents both.  A direction [d] is
    [false] for left and [true] for right: the code has each case twice, once
    per direction, and the lemmas treat both at once. *)
From Stdlib Require Import ZArith Lia.
From S2P Require Import Prelude RbTree.

Inductive tree := Leaf | Node (red : bool) (l : tree) (a : Z) (r : tree).

(** A frame: the hole is the child on side [fr_side] of the element
    [fr_addr], and [fr_sib] is the other child. *)
Record frame := Fr { fr_side : bool; fr_red : bool; fr_addr : Z; fr_sib : tree }.

(** The node with [x] on side [d] and [y] on the other one. *)
Definition node (d red : bool) (x : tree) (a : Z) (y : tree) : tree :=
  if d then Node red y a x else Node red x a y.

Fixpoint plug (k : list frame) (t : tree) : tree :=
  match k with
  | [] => t
  | f :: k => plug k (node (fr_side f) (fr_red f) t (fr_addr f) (fr_sib f))
  end.

Fixpoint addrs (t : tree) : list Z :=
  match t with Leaf => [] | Node _ l a r => a :: addrs l ++ addrs r end.
Fixpoint caddrs (k : list frame) : list Z :=
  match k with [] => [] | f :: k => fr_addr f :: addrs (fr_sib f) ++ caddrs k end.

Fixpoint height (t : tree) : nat :=
  match t with Leaf => 0 | Node _ l _ r => S (height l `max` height r) end.

Fixpoint inorder (t : tree) : list Z :=
  match t with Leaf => [] | Node _ l a r => inorder l ++ a :: inorder r end.

(** ** Balance

    [rbt t n]: no red node has a red child, and every path down has [n] black
    nodes.  [cok k n]: the context is the one of such a tree with a hole for a
    subtree of black height [n]; its root is black. *)
Definition is_redt (t : tree) : bool := match t with Node true _ _ _ => true | _ => false end.
Definition red_head (k : list frame) : bool := match k with Fr _ true _ _ :: _ => true | _ => false end.

Fixpoint rbt (t : tree) (n : nat) : Prop :=
  match t with
  | Leaf => n = 0%nat
  | Node true l _ r => rbt l n ∧ rbt r n ∧ is_redt l = false ∧ is_redt r = false
  | Node false l _ r => match n with O => False | S n => rbt l n ∧ rbt r n end
  end.
Fixpoint cok (k : list frame) (n : nat) : Prop :=
  match k with
  | [] => True
  | Fr _ true _ sib :: k => rbt sib n ∧ is_redt sib = false ∧ cok k n ∧ k ≠ [] ∧ red_head k = false
  | Fr _ false _ sib :: k => rbt sib n ∧ cok k (S n)
  end.

(** A red-black tree. *)
Definition rb_tree (t : tree) : Prop := is_redt t = false ∧ ∃ n, rbt t n.

Lemma node_flip d red x a y : node d red x a y = node (negb d) red y a x.
Proof. by destruct d. Qed.
Lemma node_dir d d' red l x r : ∃ l' r', node d red l x r = node d' red l' x r'.
Proof. destruct (decide (d = d')) as [->|]; [by eexists _, _|]. exists r, l. rewrite node_flip. f_equal. by destruct d, d'. Qed.
Lemma is_redt_node d red x a y : is_redt (node d red x a y) = red.
Proof. by destruct d, red. Qed.
Lemma rbt_red d x a y n : rbt (node d true x a y) n ↔ rbt x n ∧ rbt y n ∧ is_redt x = false ∧ is_redt y = false.
Proof. destruct d; simpl; tauto. Qed.
Lemma rbt_black d x a y n : rbt (node d false x a y) (S n) ↔ rbt x n ∧ rbt y n.
Proof. destruct d; simpl; tauto. Qed.
Lemma rbt_black_inv d x a y n : rbt (node d false x a y) n → ∃ m, n = S m ∧ rbt x m ∧ rbt y m.
Proof. destruct n as [|m]; [by destruct d|]. rewrite rbt_black. eauto. Qed.

Lemma plug_rb k : ∀ t n, cok k n → rbt t n → (is_redt t = true → red_head k = false) →
  ∃ m, rbt (plug k t) m ∧ (k ≠ [] → is_redt (plug k t) = false).
Proof.
  induction k as [|[d [] a sib] k IH]; intros t n Hk Ht Hr; simpl in *; [by exists n| |].
  - destruct Hk as (Hs & Hsb & Hk & Hk0 & Hh). destruct (is_redt t) eqn:Et; [by specialize (Hr eq_refl)|].
    destruct (IH (node d true t a sib) n) as (m & Hm & Hb); [done|by apply rbt_red|by rewrite Hh|]. exists m. split; [done|]. intros _. by apply Hb.
  - destruct Hk as [Hs Hk]. destruct (IH (node d false t a sib) (S n)) as (m & Hm & Hb); [done|by apply rbt_black|by rewrite is_redt_node|].
    exists m. split; [done|]. intros _. destruct k; [apply is_redt_node|by apply Hb].
Qed.

(** Equality of in-order traversals, up to the shape of the trees. *)
Ltac inord := simpl; repeat (rewrite <- app_assoc; simpl); reflexivity.

Lemma inorder_plug k : ∀ t t', inorder t = inorder t' → inorder (plug k t) = inorder (plug k t').
Proof.
  induction k as [|[d red a sib] k IH]; intros t t' H; [done|]. simpl. apply IH. destruct d; simpl; by rewrite H.
Qed.
Lemma inorder_rotate d c x a c' y b z c1 c2 :
  inorder (node d c x a (node d c' y b z)) = inorder (node d c1 (node d c2 x a y) b z).
Proof. destruct d; simpl; by rewrite <- app_assoc. Qed.
(** ** Representation in memory *)
Definition root_ptr (t : tree) : Z := match t with Leaf => 0 | Node _ _ a _ => a end.
Definition par_ptr (k : list frame) : Z := match k with [] => 0 | f :: _ => fr_addr f end.
Fixpoint top_ptr (k : list frame) (p : Z) : Z := match k with [] => p | f :: k => top_ptr k (fr_addr f) end.

Definition pack (p : Z) (red : bool) : Z := Z.lor p (if red then CYANFS_RB_RED else CYANFS_RB_BLACK).
Definition entry (d : bool) (x y w : Z) : rb_entry := if d then mk_rb y x w else mk_rb x y w.

Fixpoint rep (m : gmap Z rb_entry) (par : Z) (t : tree) : Prop :=
  match t with
  | Leaf => True
  | Node red l a r => m !! a = Some (mk_rb (root_ptr l) (root_ptr r) (pack par red)) ∧ rep m a l ∧ rep m a r
  end.
Fixpoint crep (m : gmap Z rb_entry) (k : list frame) (p : Z) : Prop :=
  match k with
  | [] => True
  | Fr d red a sib :: k =>
      m !! a = Some (entry d p (root_ptr sib) (pack (par_ptr k) red)) ∧ rep m a sib ∧ crep m k a
  end.

(** The addresses of elements: not null, and aligned, so that the low bit is
    free for the colour. *)
Definition good (a : Z) : Prop := a ≠ 0 ∧ Z.even a = true.

Lemma pack_parent p red : Z.even p = true → Z.land (pack p red) (Z.lnot 1) = p.
Proof.
  intros [q ->]%Z.even_spec. unfold pack, CYANFS_RB_RED, CYANFS_RB_BLACK. apply Z.bits_inj'. intros n Hn.
  rewrite Z.land_spec, Z.lor_spec, Z.lnot_spec by done.
  destruct (Z.eqb_spec n 0) as [->|Hn0].
  - rewrite Z.testbit_even_0. by destruct red.
  - assert (Z.testbit (if red then 1 else 0) n = false) as -> by (destruct red; [apply Z.bits_above_log2; simpl; lia|apply Z.bits_0]).
    assert (Z.testbit 1 n = false) as -> by (apply Z.bits_above_log2; simpl; lia). by rewrite orb_false_r, andb_true_r.
Qed.
Lemma pack_color p red : Z.even p = true → Z.land (pack p red) 1 = if red then CYANFS_RB_RED else CYANFS_RB_BLACK.
Proof.
  intros [q ->]%Z.even_spec. unfold pack, CYANFS_RB_RED, CYANFS_RB_BLACK. change 1 with (Z.ones 1) at 2.
  rewrite Z.land_ones by done. rewrite <- Z.bit0_mod, Z.lor_spec, Z.testbit_even_0. by destruct red.
Qed.

Section rep.
(** [A] has the elements a function may change, [m0] is the memory it starts
    from. *)
Context {m0 : gmap Z rb_entry} {A : list Z}.

Record zrep (s : rb_state) (k : list frame) (t : tree) : Prop := {
  z_nodup : NoDup (addrs t ++ caddrs k);
  z_good : ∀ a, a ∈ addrs t ++ caddrs k → good a ∧ a ∈ A;
  z_rep : rep (rb_mem s) (par_ptr k) t;
  z_ctx : crep (rb_mem s) k (root_ptr t);
  z_root : rbh_root s = top_ptr k (root_ptr t);
  z_frame : ∀ a, a ∉ A → rb_mem s !! a = m0 !! a;
  z_dom : dom (rb_mem s) = dom m0 }.

Lemma addrs_node d red x a y : addrs (node d red x a y) ≡ₚ a :: addrs x ++ addrs y.
Proof. destruct d; simpl; [|done]. by rewrite (Permutation_app_comm (addrs y)). Qed.
Lemma root_node d red x a y : root_ptr (node d red x a y) = a.
Proof. by destruct d. Qed.
Lemma rep_node m par d red x a y :
  rep m par (node d red x a y) ↔ m !! a = Some (entry d (root_ptr x) (root_ptr y) (pack par red)) ∧ rep m a x ∧ rep m a y.
Proof. destruct d; simpl; tauto. Qed.

(** Moving the focus. *)
Lemma zrep_focus s d red a sib k t : zrep s (Fr d red a sib :: k) t ↔ zrep s k (node d red t a sib).
Proof.
  assert (Hp : addrs t ++ caddrs (Fr d red a sib :: k) ≡ₚ addrs (node d red t a sib) ++ caddrs k).
  { rewrite addrs_node. simpl. rewrite <- Permutation_middle. by rewrite <- app_assoc. }
  split; intros [H1 H2 H3 H4 H5 H6 H7]; split; try done.
  - by rewrite <- Hp.
  - intros b Hb. apply H2. by rewrite Hp.
  - apply rep_node. simpl in *. tauto.
  - rewrite root_node. simpl in *. tauto.
  - rewrite root_node. done.
  - by rewrite Hp.
  - intros b Hb. apply H2. by rewrite <- Hp.
  - apply rep_node in H3. simpl. tauto.
  - apply rep_node in H3. rewrite root_node in H4. simpl. tauto.
  - rewrite root_node in H5. done.
Qed.

Lemma zrep_up s d red a sib k t : zrep s (Fr d red a sib :: k) t → zrep s k (node d red t a sib).
Proof. apply zrep_focus. Qed.
Lemma zrep_down s d red a sib k t : zrep s k (node d red t a sib) → zrep s (Fr d red a sib :: k) t.
Proof. apply zrep_focus. Qed.
Lemma zrep_other s d red a sib k t : zrep s k (node d red t a sib) → zrep s (Fr (negb d) red a t :: k) sib.
Proof. rewrite node_flip. apply zrep_focus. Qed.

(** A change of the memory at elements of the tree. *)
Lemma zrep_change s k t s' k' t' :
  zrep s k t → addrs t' ++ caddrs k' ≡ₚ addrs t ++ caddrs k →
  rep (rb_mem s') (par_ptr k') t' → crep (rb_mem s') k' (root_ptr t') → rbh_root s' = top_ptr k' (root_ptr t') →
  (∀ a, a ∉ addrs t ++ caddrs k → rb_mem s' !! a = rb_mem s !! a) → dom (rb_mem s') = dom (rb_mem s) →
  zrep s' k' t'.
Proof.
  intros [H1 H2 H3 H4 H5 H6 H7] Hp Hr Hc Ht Hf Hd. split; try done.
  - by rewrite Hp.
  - intros a Ha. apply H2. by rewrite <- Hp.
  - intros a Ha. rewrite Hf; [by apply H6|]. intros ?%H2. tauto.
  - by rewrite Hd.
Qed.

Lemma dom_store (m : gmap Z rb_entry) a e e' : m !! a = Some e → dom (<[a := e']> m) = dom m.
Proof. intros H. rewrite dom_insert_L. apply elem_of_dom_2 in H. set_solver. Qed.

Lemma zrep_par_even s k t : zrep s k t → Z.even (par_ptr k) = true.
Proof.
  intros H. destruct k as [|[d red a sib] k]; [done|]. apply (z_good _ _ _ H). simpl. set_solver.
Qed.
Lemma zrep_ptr_null s k t : zrep s k t → root_ptr t = 0 ↔ t = Leaf.
Proof.
  intros H. destruct t as [|red l a r]; [done|]. split; [|done]. simpl.
  destruct (z_good _ _ _ H a) as [[? _] _]; [simpl; set_solver|done].
Qed.

(** ** Updates of the memory *)
(** The memory changed at most at the elements of [L]. *)
Record upd (L : list Z) (s s' : rb_state) : Prop := {
  upd_mem : ∀ a, a ∉ L → rb_mem s' !! a = rb_mem s !! a;
  upd_dom : dom (rb_mem s') = dom (rb_mem s) }.

Lemma upd_trans L L' s1 s2 s3 : upd L s1 s2 → upd L' s2 s3 → upd (L ++ L') s1 s3.
Proof.
  intros [H1 D1] [H2 D2]. split; [|congruence]. intros a. rewrite not_elem_of_app. intros [Ha Ha']. rewrite H2, H1; done.
Qed.
Lemma rep_upd L s s' par t : upd L s s' → (∀ a, a ∈ addrs t → a ∉ L) → rep (rb_mem s) par t → rep (rb_mem s') par t.
Proof.
  intros Hu. revert par. induction t as [|red l IHl a r IHr]; intros par Hd; [done|]. simpl in *. intros (H & Hl & Hr).
  rewrite (upd_mem _ _ _ Hu) by (apply Hd; set_solver). split_and!; [done|apply IHl; set_solver|apply IHr; set_solver].
Qed.
Lemma crep_upd L s s' k p : upd L s s' → (∀ a, a ∈ caddrs k → a ∉ L) → crep (rb_mem s) k p → crep (rb_mem s') k p.
Proof.
  intros Hu. revert p. induction k as [|[d red a sib] k IH]; intros p Hd; [done|]. simpl in *. intros (H & Hl & Hr).
  rewrite (upd_mem _ _ _ Hu) by (apply Hd; set_solver). split_and!; [done|eapply rep_upd; [done|set_solver|done]|apply IH; set_solver].
Qed.

Lemma store_ok a g s e : rb_mem s !! a = Some e →
  ∃ s', rb_store a g s = Some s' ∧ rb_mem s' !! a = Some (g e) ∧ rbh_root s' = rbh_root s ∧ upd [a] s s'.
Proof.
  intros H. unfold rb_store. rewrite H. eexists. split; [done|]. cbn. rewrite lookup_insert_eq. split_and!; [done..|]. split; cbn.
  - intros b Hb. apply lookup_insert_ne. set_solver.
  - by eapply dom_store.
Qed.

Definition CHILD (d : bool) : Z → rb_state → option Z := if d then CYANFS_RB_RIGHT else CYANFS_RB_LEFT.
Definition CHILD_SET (d : bool) : Z → Z → rb_state → option rb_state := if d then RIGHT_SET else LEFT_SET.

Lemma child_get s a d x y w : rb_mem s !! a = Some (entry d x y w) → CHILD d a s = Some x ∧ CHILD (negb d) a s = Some y.
Proof. destruct d; unfold CHILD, CYANFS_RB_LEFT, CYANFS_RB_RIGHT; cbn; by intros ->. Qed.
Lemma parent_get s a d x y p red : rb_mem s !! a = Some (entry d x y (pack p red)) → Z.even p = true →
  CYANFS_RB_PARENT_GET a s = Some p.
Proof. intros H He. unfold CYANFS_RB_PARENT_GET. rewrite H. destruct d; cbn; by rewrite pack_parent. Qed.
Definition code (red : bool) : Z := if red then CYANFS_RB_RED else CYANFS_RB_BLACK.
Lemma color_get s a d x y p red : rb_mem s !! a = Some (entry d x y (pack p red)) → Z.even p = true →
  CYANFS_RB_COLOR_GET a s = Some (code red).
Proof. intros H He. unfold CYANFS_RB_COLOR_GET. rewrite H. destruct d; cbn; by rewrite pack_color. Qed.

(** What a store of one field does. *)
Definition stored (a : Z) (e : rb_entry) (s s' : rb_state) : Prop :=
  rb_mem s' !! a = Some e ∧ rbh_root s' = rbh_root s ∧ upd [a] s s'.

Lemma child_set_ok s a d x y w v : rb_mem s !! a = Some (entry d x y w) →
  ∃ s', CHILD_SET d a v s = Some s' ∧ stored a (entry d v y w) s s'.
Proof. intros H. unfold CHILD_SET, LEFT_SET, RIGHT_SET. destruct d; (edestruct (store_ok a) as (s' & E & Hs'); [exact H|]; exists s'; split; [exact E|exact Hs']). Qed.
Lemma other_set_ok s a d x y w v : rb_mem s !! a = Some (entry d x y w) →
  ∃ s', CHILD_SET (negb d) a v s = Some s' ∧ stored a (entry d x v w) s s'.
Proof. intros H. unfold CHILD_SET, LEFT_SET, RIGHT_SET. destruct d; (edestruct (store_ok a) as (s' & E & Hs'); [exact H|]; exists s'; split; [exact E|exact Hs']). Qed.
Lemma parent_set_ok s a d x y p red q : rb_mem s !! a = Some (entry d x y (pack p red)) → Z.even p = true →
  ∃ s', CYANFS_RB_PARENT_SET a q s = Some s' ∧ stored a (entry d x y (pack q red)) s s'.
Proof.
  intros H He. unfold CYANFS_RB_PARENT_SET. rewrite (color_get _ _ _ _ _ _ _ H He). cbn [mbind option_bind].
  destruct (store_ok a (λ e, mk_rb (rbe_left e) (rbe_right e) (Z.lor q (code red))) s _ H) as (s' & E & Hs').
  exists s'. split; [done|]. by destruct d.
Qed.
Lemma recolor_ok s a d x y p red c : rb_mem s !! a = Some (entry d x y (pack p red)) → Z.even p = true →
  ∃ s', CYANFS_RB_COLOR_SET a (code c) s = Some s' ∧ stored a (entry d x y (pack p c)) s s'.
Proof.
  intros H He. unfold CYANFS_RB_COLOR_SET. rewrite (parent_get _ _ _ _ _ _ _ H He). cbn [mbind option_bind].
  destruct (store_ok a (λ e, mk_rb (rbe_left e) (rbe_right e) (Z.lor p (code c))) s _ H) as (s' & E & Hs').
  exists s'. split; [done|]. by destruct d.
Qed.

(** [if (p) PARENT_SET(p, q)] for the root [p] of a subtree. *)
Lemma set_sub_parent s par t q : rep (rb_mem s) par t → NoDup (addrs t) → Z.even par = true → (∀ a, a ∈ addrs t → a ≠ 0) →
  ∃ s', (if root_ptr t =? 0 then Some s else CYANFS_RB_PARENT_SET (root_ptr t) q s) = Some s' ∧
    rep (rb_mem s') q t ∧ rbh_root s' = rbh_root s ∧ upd (addrs t) s s'.
Proof.
  intros Hr Hn He H0. destruct t as [|red l a r]; [by exists s|]. cbn [root_ptr].
  rewrite (proj2 (Z.eqb_neq a 0)) by (apply H0; simpl; set_solver). destruct Hr as (Hm & Hl & Hr).
  destruct (parent_set_ok s a false (root_ptr l) (root_ptr r) par red q Hm He) as (s' & E & Hs' & Hrt & Hu).
  exists s'. simpl in Hn. rewrite NoDup_cons, not_elem_of_app in Hn. destruct Hn as [[Hal Har] _]. split_and!; [done| |done|].
  - simpl. split_and!; [done|eapply rep_upd; [done|set_solver|done]..].
  - split; [|apply Hu]. intros b Hb. apply Hu. simpl in Hb. set_solver.
Qed.

(** [if (parent) (replace the child old by new) else root = new] *)
Lemma set_ctx_child s k old new : crep (rb_mem s) k old → rbh_root s = top_ptr k old → NoDup (old :: caddrs k) → old ≠ 0 →
  (∀ a, a ∈ caddrs k → a ≠ 0) →
  ∃ s', (if par_ptr k =? 0 then Some (set_root new s) else replace_child (par_ptr k) old new s) = Some s' ∧
    crep (rb_mem s') k new ∧ rbh_root s' = top_ptr k new ∧ upd (caddrs k) s s'.
Proof.
  intros Hc Hrt Hn Hold H0. destruct k as [|[d red a sib] k]; [by eexists|]. cbn [par_ptr fr_addr].
  rewrite (proj2 (Z.eqb_neq a 0)) by (apply H0; simpl; set_solver). destruct Hc as (Hm & Hs & Hk).
  unfold replace_child. change CYANFS_RB_LEFT with (CHILD false). change LEFT_SET with (CHILD_SET false).
  change RIGHT_SET with (CHILD_SET true). simpl in Hn. rewrite !NoDup_cons, elem_of_cons, !elem_of_app in Hn.
  destruct Hn as (Hno & Hna & _).
  assert (root_ptr sib ≠ old) by (destruct sib; [done|]; simpl in *; set_solver).
  destruct (child_get _ _ _ _ _ _ Hm) as [G1 G2], (child_set_ok s a d _ _ _ new Hm) as (s' & E & Hs' & Hr' & Hu).
  exists s'. split_and!.
  - destruct d; cbn [negb] in *; [rewrite G2|rewrite G1]; cbn [mbind option_bind]; [by rewrite (proj2 (Z.eqb_neq _ _))|by rewrite Z.eqb_refl].
  - simpl. split_and!; [done|eapply rep_upd; [done|set_solver|done]|eapply crep_upd; [done|set_solver|done]].
  - by rewrite Hr'.
  - split; [|apply Hu]. intros b Hb. apply Hu. simpl in Hb. set_solver.
Qed.

Lemma zrep_node s k d red x a y : zrep s k (node d red x a y) →
  rb_mem s !! a = Some (entry d (root_ptr x) (root_ptr y) (pack (par_ptr k) red)).
Proof. intros H%z_rep%rep_node. tauto. Qed.

(** ** Reading and colouring the element in focus *)
Lemma child_ok s k d red x a y : zrep s k (node d red x a y) →
  CHILD d a s = Some (root_ptr x) ∧ CHILD (negb d) a s = Some (root_ptr y).
Proof. intros H. by apply (child_get s a d _ _ _ (zrep_node _ _ _ _ _ _ _ H)). Qed.
Lemma parent_ok s k d red x a y : zrep s k (node d red x a y) → CYANFS_RB_PARENT_GET a s = Some (par_ptr k).
Proof. intros H. eapply parent_get; [by apply zrep_node|by eapply zrep_par_even]. Qed.
Lemma color_ok s k d red x a y : zrep s k (node d red x a y) → CYANFS_RB_COLOR_GET a s = Some (code red).
Proof. intros H. eapply color_get; [by apply zrep_node|by eapply zrep_par_even]. Qed.

Lemma color_set_ok c s k d red x a y : zrep s k (node d red x a y) →
  ∃ s', CYANFS_RB_COLOR_SET a (code c) s = Some s' ∧ zrep s' k (node d c x a y).
Proof.
  intros H. destruct (recolor_ok s a d _ _ _ red c (zrep_node _ _ _ _ _ _ _ H) (zrep_par_even _ _ _ H)) as (s' & E & Hm & Hr & Hu).
  exists s'. split; [done|]. pose proof (z_nodup _ _ _ H) as Hnd. rewrite addrs_node in Hnd. simpl in Hnd.
  rewrite NoDup_cons, !elem_of_app in Hnd. destruct Hnd as [Hna _]. pose proof (z_ctx _ _ _ H) as HK.
  pose proof (z_rep _ _ _ H) as (_ & HX & HY)%rep_node.
  apply (zrep_change s k (node d red x a y)); [done|by rewrite !addrs_node| | | |intros b Hb; apply Hu|apply Hu].
  - apply rep_node. split_and!; [done|eapply rep_upd; [done|set_solver|done]..].
  - rewrite root_node in *. eapply crep_upd; [done|set_solver|done].
  - rewrite Hr, (z_root _ _ _ H). by rewrite !root_node.
  - rewrite addrs_node in Hb. set_solver.
Qed.

(** ** Rotations *)
Definition ROTATE (d : bool) : Z → rb_state → option rb_state :=
  if d then CYANFS_RB_ROTATE_RIGHT else CYANFS_RB_ROTATE_LEFT.

Lemma rotate_eq d elm s :
  ROTATE d elm s =
  (tmp ← CHILD (negb d) elm s;
   l ← CHILD d tmp s;
   s ← CHILD_SET (negb d) elm l s;
   s ← (if l =? 0 then Some s else CYANFS_RB_PARENT_SET l elm s);
   p ← CYANFS_RB_PARENT_GET elm s;
   s ← CYANFS_RB_PARENT_SET tmp p s;
   s ← (if p =? 0 then Some (set_root tmp s) else replace_child p elm tmp s);
   s ← CHILD_SET d tmp elm s;
   CYANFS_RB_PARENT_SET elm tmp s).
Proof. by destruct d. Qed.

Lemma rotate_nodup (a b : Z) (X Y Z K : list Z) :
  NoDup (a :: b :: X ++ Y ++ Z ++ K) →
  a ≠ b ∧ (a ∉ X ∧ a ∉ Y ∧ a ∉ Z ∧ a ∉ K) ∧ (b ∉ X ∧ b ∉ Y ∧ b ∉ Z ∧ b ∉ K) ∧
  (∀ q, q ∈ Y → q ∉ X ∧ q ∉ Z ∧ q ∉ K) ∧ (∀ q, q ∈ K → q ∉ X ∧ q ∉ Y ∧ q ∉ Z) ∧ NoDup Y ∧ NoDup K.
Proof.
  rewrite !NoDup_cons, !NoDup_app. rewrite !elem_of_cons, !elem_of_app. intros H. decompose [and] H. clear H. split_and!; set_solver.
Qed.

Lemma rotate_ok d s k c x a c' y b z :
  zrep s k (node d c x a (node d c' y b z)) →
  ∃ s', ROTATE d a s = Some s' ∧ zrep s' k (node d c' (node d c x a y) b z).
Proof.
  intros H. pose proof (z_nodup _ _ _ H) as Hnd. pose proof (z_good _ _ _ H) as Hg. pose proof (zrep_par_even _ _ _ H) as Hpe.
  assert (Hp : addrs (node d c x a (node d c' y b z)) ++ caddrs k ≡ₚ a :: b :: addrs x ++ addrs y ++ addrs z ++ caddrs k).
  { rewrite !addrs_node. simpl. rewrite (Permutation_app_comm (addrs x)). simpl. solve_Permutation. }
  rewrite Hp in Hnd. pose proof (rotate_nodup _ _ _ _ _ _ Hnd) as (Hab & (Hax & Hay & Haz & Hak) & (Hbx & Hby & Hbz & Hbk) & HY & HK & HYn & HKn).
  assert (Hg' : ∀ q, q ∈ a :: b :: addrs x ++ addrs y ++ addrs z ++ caddrs k → good q) by (intros q; rewrite <- Hp; apply Hg).
  destruct (Hg' a ltac:(set_solver)) as [Ha0 Hae], (Hg' b ltac:(set_solver)) as [Hb0 Hbe].
  pose proof (z_rep _ _ _ H) as (Hma & HX & (Hmb & HYr & HZ)%rep_node)%rep_node. rewrite root_node in Hma.
  pose proof (z_ctx _ _ _ H) as HC. pose proof (z_root _ _ _ H) as HR. rewrite root_node in HC, HR.
  rewrite rotate_eq. rewrite (proj2 (child_get _ _ _ _ _ _ Hma)). cbn [mbind option_bind].
  rewrite (proj1 (child_get _ _ _ _ _ _ Hmb)). cbn [mbind option_bind].
  destruct (other_set_ok s a d _ _ _ (root_ptr y) Hma) as (s1 & -> & M1 & R1 & U1). cbn [mbind option_bind].
  destruct (set_sub_parent s1 b y a) as (s2 & -> & Y2 & R2 & U2); [eapply rep_upd; [done|set_solver|done]|done|done|..].
  { intros q Hq. apply Hg'. set_solver. }
  cbn [mbind option_bind].
  assert (M2 : rb_mem s2 !! a = Some (entry d (root_ptr x) (root_ptr y) (pack (par_ptr k) c))) by (by rewrite (upd_mem _ _ _ U2)).
  rewrite (parent_get _ _ _ _ _ _ _ M2 Hpe). cbn [mbind option_bind].
  assert (B2 : rb_mem s2 !! b = Some (entry d (root_ptr y) (root_ptr z) (pack a c'))).
  { rewrite (upd_mem _ _ _ U2), (upd_mem _ _ _ U1); [done|set_solver|done]. }
  destruct (parent_set_ok s2 b d _ _ _ _ (par_ptr k) B2 Hae) as (s3 & -> & M3 & R3 & U3). cbn [mbind option_bind].
  assert (HC3 : crep (rb_mem s3) k a).
  { eapply crep_upd; [exact (upd_trans _ _ _ _ _ (upd_trans _ _ _ _ _ U1 U2) U3)| |done]. set_solver. }
  destruct (set_ctx_child s3 k a b HC3) as (s4 & -> & C4 & R4 & U4); [congruence|by constructor|done|intros q Hq; apply Hg'; set_solver|].
  cbn [mbind option_bind].
  assert (B4 : rb_mem s4 !! b = Some (entry d (root_ptr y) (root_ptr z) (pack (par_ptr k) c'))) by (by rewrite (upd_mem _ _ _ U4)).
  destruct (child_set_ok s4 b d _ _ _ a B4) as (s5 & -> & M5 & R5 & U5). cbn [mbind option_bind].
  pose proof (upd_trans _ _ _ _ _ (upd_trans _ _ _ _ _ U3 U4) U5) as U35.
  assert (A5 : rb_mem s5 !! a = Some (entry d (root_ptr x) (root_ptr y) (pack (par_ptr k) c))).
  { rewrite (upd_mem _ _ _ U35); [done|set_solver]. }
  destruct (parent_set_ok s5 a d _ _ _ _ b A5 Hpe) as (s6 & -> & M6 & R6 & U6).
  exists s6. split; [done|]. pose proof (upd_trans _ _ _ _ _ U35 U6) as U36.
  pose proof (upd_trans _ _ _ _ _ (upd_trans _ _ _ _ _ U1 U2) U36) as U16.
  apply (zrep_change s k (node d c x a (node d c' y b z))); [done| | | | | |].
  - rewrite !addrs_node. simpl. solve_Permutation.
  - apply rep_node. rewrite root_node. split_and!.
    + rewrite (upd_mem _ _ _ U6); [done|set_solver].
    + apply rep_node. split_and!; [done|eapply rep_upd; [exact U16| |done]|eapply rep_upd; [exact U36| |done]]; set_solver.
    + eapply rep_upd; [exact U16| |done]. set_solver.
  - rewrite root_node. eapply crep_upd; [exact (upd_trans _ _ _ _ _ U5 U6)| |done]. set_solver.
  - rewrite root_node. congruence.
  - intros q. rewrite Hp. intros Hq. apply U16. set_solver.
  - apply U16.
Qed.

(** ** Tests on the element in focus and its parent *)
Lemma is_red_ok s k t : zrep s k t → is_red (root_ptr t) s = Some (is_redt t).
Proof.
  intros H. unfold is_red. destruct t as [|red l a r]; [done|]. cbn [root_ptr].
  rewrite (proj2 (Z.eqb_neq a 0)) by (by intros ?%(zrep_ptr_null _ _ _ H)).
  rewrite (color_ok s k false red l a r H). by destruct red.
Qed.
Lemma is_black_ok s k t : zrep s k t → is_black (root_ptr t) s = Some (negb (is_redt t)).
Proof.
  intros H. unfold is_black. destruct t as [|red l a r]; [done|]. cbn [root_ptr].
  rewrite (proj2 (Z.eqb_neq a 0)) by (by intros ?%(zrep_ptr_null _ _ _ H)).
  rewrite (color_ok s k false red l a r H). by destruct red.
Qed.

(** The tests [x == LEFT(parent)] and [x == RIGHT(parent)] tell the side of a
    child. *)
Lemma sib_ne s k d red a sib t : zrep s (Fr d red a sib :: k) t → t ≠ Leaf ∨ sib ≠ Leaf → root_ptr sib ≠ root_ptr t.
Proof.
  intros H Hne. pose proof (z_nodup _ _ _ H) as Hnd. pose proof (z_good _ _ _ H) as Hg. destruct t, sib; simpl in *; [by destruct Hne| | |].
  - intros ->. by destruct (Hg 0 ltac:(set_solver)) as [[? _] _].
  - intros <-. by destruct (Hg 0 ltac:(set_solver)) as [[? _] _].
  - intros ->. apply NoDup_cons in Hnd as [Hnd _]. set_solver.
Qed.
Lemma side_ok s k d red a sib t : zrep s (Fr d red a sib :: k) t → t ≠ Leaf ∨ sib ≠ Leaf →
  ∃ l, CYANFS_RB_LEFT a s = Some l ∧ (l =? root_ptr t) = negb d.
Proof.
  intros H Hne. pose proof (sib_ne _ _ _ _ _ _ _ H Hne) as Hn. apply zrep_up in H. destruct (child_ok _ _ _ _ _ _ _ H) as [G1 G2].
  destruct d; cbn [negb CHILD] in *; [exists (root_ptr sib)|exists (root_ptr t)]; (split; [done|]); [by apply Z.eqb_neq|apply Z.eqb_refl].
Qed.
Lemma right_side_ok s k d red a sib t : zrep s (Fr d red a sib :: k) t → t ≠ Leaf ∨ sib ≠ Leaf →
  ∃ r, CYANFS_RB_RIGHT a s = Some r ∧ (r =? root_ptr t) = d.
Proof.
  intros H Hne. pose proof (sib_ne _ _ _ _ _ _ _ H Hne) as Hn. apply zrep_up in H. destruct (child_ok _ _ _ _ _ _ _ H) as [G1 G2].
  destruct d; cbn [negb CHILD] in *; [exists (root_ptr t)|exists (root_ptr sib)]; (split; [done|]); [apply Z.eqb_refl|by apply Z.eqb_neq].
Qed.

Lemma is_red_par s k t : zrep s k t → is_red (par_ptr k) s = Some (red_head k).
Proof.
  intros H. destruct k as [|[d red a sib] k]; [done|]. apply zrep_up, is_red_ok in H.
  rewrite root_node, is_redt_node in H. cbn [par_ptr fr_addr]. rewrite H. by destruct red.
Qed.

Lemma blackred_ok s k d c x p y d' c' z g :
  zrep s k (node d c' (node d' c x p y) g z) →
  ∃ s', CYANFS_RB_SET_BLACKRED p g s = Some s' ∧ zrep s' k (node d true (node d' false x p y) g z).
Proof.
  intros H. unfold CYANFS_RB_SET_BLACKRED. change CYANFS_RB_BLACK with (code false). change CYANFS_RB_RED with (code true).
  apply zrep_down in H. destruct (color_set_ok false _ _ _ _ _ _ _ H) as (s1 & -> & H1). cbn [mbind option_bind].
  apply zrep_up in H1. apply (color_set_ok true _ _ _ _ _ _ _ H1).
Qed.

(** The outer rotation: [x] and [g] become the children of [p]. *)
Lemma outer_rotation d s k c c' x p y g u : zrep s k (node d c (node d c' x p y) g u) →
  ∃ s1 s2, CYANFS_RB_SET_BLACKRED p g s = Some s1 ∧ ROTATE (negb d) g s1 = Some s2 ∧
    zrep s2 k (node d false x p (node d true y g u)).
Proof.
  intros H. destruct (blackred_ok _ _ _ _ _ _ _ _ _ _ _ H) as (s1 & E1 & H1).
  rewrite node_flip, (node_flip d false) in H1. destruct (rotate_ok _ _ _ _ _ _ _ _ _ _ H1) as (s2 & E2 & H2).
  exists s1, s2. split_and!; [done..|]. by rewrite node_flip, (node_flip d true).
Qed.

(** What the loop ends with: a place in a balanced tree with the same
    elements in the same order. *)
Definition balanced_at (l : list Z) (s : rb_state) : Prop :=
  ∃ k t n, zrep s k t ∧ rbt t n ∧ cok k n ∧ (is_redt t = true → red_head k = false) ∧ inorder (plug k t) = l.

End rep.
Arguments zrep : clear implicits.
Arguments balanced_at : clear implicits.

(** ** The elements around a place *)
Fixpoint lefts (k : list frame) : list Z :=
  match k with
  | [] => []
  | Fr d _ a sib :: k => if d then lefts k ++ inorder sib ++ [a] else lefts k
  end.
Fixpoint rights (k : list frame) : list Z :=
  match k with
  | [] => []
  | Fr d _ a sib :: k => if d then rights k else a :: inorder sib ++ rights k
  end.

Lemma inorder_at k : ∀ t, inorder (plug k t) = lefts k ++ inorder t ++ rights k.
Proof.
  induction k as [|[d red a sib] k IH]; intros t; simpl; [by rewrite app_nil_r|]. rewrite IH. destruct d; inord.
Qed.

Lemma inorder_addrs t : inorder t ≡ₚ addrs t.
Proof. induction t as [|red l IHl a r IHr]; simpl; [done|]. rewrite IHl, IHr. by rewrite Permutation_middle. Qed.
Lemma addrs_at k : ∀ t, addrs (plug k t) ≡ₚ addrs t ++ caddrs k.
Proof.
  induction k as [|[d red a sib] k IH]; intros t; simpl; [by rewrite app_nil_r|]. rewrite IH, addrs_node. solve_Permutation.
Qed.

Lemma height_addrs t : (height t ≤ length (addrs t))%nat.
Proof. induction t as [|c l IHl a r IHr]; simpl; [lia|]. rewrite length_app. lia. Qed.

(** ** The tree of a head

    The memory holds a red-black tree under the root pointer, whose elements
    are [l] in order. *)
Definition rb_holds (s : rb_state) (t : tree) : Prop := zrep (rb_mem s) (addrs t) s [] t.
Definition represents (s : rb_state) (l : list Z) : Prop := ∃ t, rb_tree t ∧ rb_holds s t ∧ inorder t = l.

Section plug.
Context {m0 : gmap Z rb_entry} {A : list Z}.

Lemma zrep_plug s k : ∀ t, zrep m0 A s k t ↔ zrep m0 A s [] (plug k t).
Proof. induction k as [|[d red a sib] k IH]; intros t; [done|]. simpl. by rewrite zrep_focus, IH. Qed.

Lemma zrep_holds s k t : zrep m0 A s k t → rb_holds s (plug k t).
Proof. intros [H1 H2 H3 H4 H5 _ _]%zrep_plug. split; try done. intros a Ha. split; [by apply H2|]. by rewrite app_nil_r in Ha. Qed.

Lemma zrep_length s k t : zrep m0 A s k t → (length (addrs t ++ caddrs k) ≤ size (rb_mem s))%nat.
Proof.
  intros H. pose proof (proj1 (zrep_plug s k t) H) as H'. rewrite <- (addrs_at k t).
  pose proof (z_nodup _ _ _ H') as Hnd. rewrite app_nil_r in Hnd. pose proof (z_rep _ _ _ H') as Hr. revert Hnd Hr.
  generalize (plug k t) (par_ptr []). intros u par Hnd Hr. rewrite <- (size_dom (D := gset Z) (rb_mem s)), <- (size_list_to_set (C := gset Z)) by done.
  apply subseteq_size. intros a Ha%elem_of_list_to_set. clear H H' Hnd. revert par Hr Ha.
  induction u as [|red l IHl b r IHr]; intros par Hr Ha; [by apply elem_of_nil in Ha|]. simpl in *. destruct Hr as (Hm & Hl & Hr').
  apply elem_of_cons in Ha as [->|[Ha|Ha]%elem_of_app]; [by eapply elem_of_dom_2|by eapply IHl|by eapply IHr].
Qed.
End plug.

(** ** The order of the elements *)
(** What the trees rely on of a comparison function. *)
Class CmpOrder (cmp : Z → Z → Z) : Prop := {
  cmp_swap a b : cmp a b < 0 ↔ 0 < cmp b a;
  cmp_trans a b c : cmp a b < 0 → cmp b c < 0 → cmp a c < 0;
  cmp_equal a b c : cmp a b = 0 → cmp c b < 0 → cmp c a < 0 }.

Section order.
Context (cmp : Z → Z → Z).

Definition rb_sorted (l : list Z) : Prop := StronglySorted (λ a b, cmp a b < 0) l.

Lemma sorted_app l1 l2 : rb_sorted (l1 ++ l2) ↔ rb_sorted l1 ∧ rb_sorted l2 ∧ ∀ a b, a ∈ l1 → b ∈ l2 → cmp a b < 0.
Proof.
  unfold rb_sorted. induction l1 as [|x l1 IH]; simpl.
  - split; [intros H; split_and!; [constructor|done|set_solver]|tauto].
  - rewrite !StronglySorted_cons, IH, Forall_app, !Forall_forall. set_solver.
Qed.
Lemma sorted_cons a l : rb_sorted (a :: l) ↔ rb_sorted l ∧ ∀ b, b ∈ l → cmp a b < 0.
Proof. unfold rb_sorted. rewrite StronglySorted_cons, Forall_forall. tauto. Qed.
End order.

(** ** Balance of a tree and of its places *)
Lemma plug_cok k : ∀ t m, rbt (plug k t) m → is_redt (plug k t) = false →
  ∃ n, rbt t n ∧ cok k n ∧ (is_redt t = true → red_head k = false).
Proof.
  induction k as [|[d c a sib] k IH]; intros t m Hm Hb; simpl in *; [by exists m|].
  destruct (IH _ _ Hm Hb) as (n & Hn & Hk & Hr). rewrite is_redt_node in Hr. destruct c.
  - apply rbt_red in Hn as (Ht & Hs & Htb & Hsb). exists n. rewrite Htb. split_and!; try done; [|by apply Hr].
    intros ->. simpl in Hb. by rewrite is_redt_node in Hb.
  - apply rbt_black_inv in Hn as (n' & -> & Ht & Hs). by exists n'.
Qed.

Lemma blacken c l a r m : rbt (Node c l a r) m → ∃ n, rbt (Node false l a r) n.
Proof. destruct c; [|by exists m]. simpl. intros (Hl & Hr & _). by exists (S m). Qed.

Section blacken.
Context {m0 : gmap Z rb_entry} {A : list Z}.

Lemma zrep_weaken (A' : list Z) s k t : (∀ a, a ∈ A → a ∈ A') → zrep m0 A s k t → zrep m0 A' s k t.
Proof. intros HA [H1 H2 H3 H4 H5 H6 H7]. split; try done; [|by eauto]. intros a Ha. destruct (H2 a Ha). by eauto. Qed.

(** The root is made black at the end. *)
Lemma blacken_ok s l : balanced_at m0 A l s → l ≠ [] →
  ∃ s' t, CYANFS_RB_COLOR_SET (rbh_root s) CYANFS_RB_BLACK s = Some s' ∧ zrep m0 A s' [] t ∧ rb_tree t ∧ inorder t = l.
Proof.
  intros (k & t & n & Hz & Ht & Hk & Hr & <-) Hne. destruct (plug_rb k t n Hk Ht Hr) as (m & Hm & _).
  apply zrep_plug in Hz. destruct (plug k t) as [|c tl a tr]; [done|]. rewrite (z_root _ _ _ Hz). cbn [top_ptr root_ptr].
  destruct (color_set_ok false _ _ false _ _ _ _ Hz) as (s' & E & Hz'). exists s', (Node false tl a tr).
  split_and!; [done|done| |done]. split; [done|]. by eapply blacken.
Qed.
End blacken.

(** The height of a red-black tree is at most twice the logarithm of the number
    of its elements. *)
Lemma rbt_size t : ∀ n, rbt t n → (2 ^ n ≤ S (length (addrs t)))%nat.
Proof.
  induction t as [|[] l IHl a r IHr]; intros n Hn; simpl in *; [by subst| |].
  - destruct Hn as (Hl & _). specialize (IHl n Hl). rewrite length_app. lia.
  - destruct n as [|n]; [done|]. destruct Hn as [Hl Hr]. specialize (IHl n Hl). specialize (IHr n Hr). rewrite length_app. simpl. lia.
Qed.
Lemma rbt_height t : ∀ n, rbt t n → (height t ≤ 2 * n + if is_redt t then 1 else 0)%nat.
Proof.
  induction t as [|[] l IHl a r IHr]; intros n Hn; simpl in *; [lia| |].
  - destruct Hn as (Hl & Hr & Bl & Br). specialize (IHl n Hl). specialize (IHr n Hr). rewrite Bl in IHl. rewrite Br in IHr. lia.
  - destruct n as [|n]; [done|]. destruct Hn as [Hl Hr]. specialize (IHl n Hl). specialize (IHr n Hr).
    destruct (is_redt l), (is_redt r); lia.
Qed.
Lemma rb_height t : rb_tree t → (height t ≤ 2 * Nat.log2 (S (length (addrs t))))%nat.
Proof.
  intros [Hb [n Hn]]. pose proof (rbt_size t n Hn) as H1. pose proof (rbt_height t n Hn) as H2. rewrite Hb in H2.
  pose proof (Nat.log2_le_mono _ _ H1) as H3. rewrite Nat.log2_pow2 in H3 by lia. lia.
Qed.
