(* ===== verification/RbSearch.v ===== *)
(** * RbSearch: searching and walking a red-black tree

    Every function that only reads the tree computes a function of the list
    of its elements in order. *)
From Stdlib Require Import ZArith Lia.
From S2P Require Import Prelude RbTree RbTreeSpec.

(** The first and the last element, or null. *)
Definition first (l : list Z) : Z := default 0 (head l).
Definition final (l : list Z) : Z := default 0 (last l).

Lemma first_app l1 l2 : first (l1 ++ l2) = match l1 with [] => first l2 | _ => first l1 end.
Proof. by destruct l1. Qed.
Lemma final_app l1 l2 : final (l1 ++ l2) = match l2 with [] => final l1 | _ => final l2 end.
Proof. unfold final. destruct l2; [by rewrite app_nil_r|]. by rewrite last_app_cons. Qed.

Lemma final_skip l1 x l2 : l2 ≠ [] → final (l1 ++ x :: l2) = final l2.
Proof. intros H. change (x :: l2) with ([x] ++ l2). rewrite app_assoc, final_app. by destruct l2. Qed.

Lemma plug_app k k' t : plug (k ++ k') t = plug k' (plug k t).
Proof. revert t. induction k as [|f k IH]; intros t; [done|]. simpl. apply IH. Qed.

(** [leftmost] and [rightmost]. *)
Definition extreme (d : bool) : nat → Z → rb_state → option Z := if d then rightmost else leftmost.
Lemma extreme_eq d fuel a s :
  extreme d (S fuel) a s = (c ← CHILD d a s; if c =? 0 then Some a else extreme d fuel c s).
Proof. by destruct d. Qed.

Section walk.
Context {m0 : gmap Z rb_entry} {A : list Z}.
Local Notation zrep := (zrep m0 A).

Lemma extreme_ok d s fuel : ∀ k red x a y, (length (addrs (node d red x a y)) ≤ fuel)%nat → zrep s k (node d red x a y) →
  ∃ ks c b z, extreme d fuel a s = Some b ∧ node d red x a y = plug ks (node d c Leaf b z) ∧
    Forall (λ f, fr_side f = d) ks ∧ zrep s (ks ++ k) (node d c Leaf b z).
Proof.
  induction fuel as [|fuel IH]; intros k red x a y Hl H; rewrite addrs_node in Hl; simpl in Hl; [lia|].
  rewrite extreme_eq, (proj1 (child_ok _ _ _ _ _ _ _ H)). cbn [mbind option_bind].
  pose proof (zrep_down _ _ _ _ _ _ _ H) as Hx. destruct x as [|cx xl b xr].
  - exists [], red, a, y. by split_and!.
  - rewrite (proj2 (Z.eqb_neq _ _)) by (by intros ?%(zrep_ptr_null _ _ _ Hx)). rewrite length_app in Hl.
    destruct (node_dir false d cx xl b xr) as (x1 & x2 & Ex). change (Node cx xl b xr) with (node false cx xl b xr) in *. rewrite Ex in *.
    destruct (IH (Fr d red a y :: k) cx x1 b x2 ltac:(lia) Hx) as (ks & c & b' & z & E & Ep & Hs & Hz).
    rewrite root_node, E. exists (ks ++ [Fr d red a y]), c, b', z. split_and!; [done| | |by rewrite <- app_assoc].
    + rewrite plug_app, <- Ep. done.
    + apply Forall_app. split; [done|]. by repeat constructor.
Qed.

Lemma sides_left ks : Forall (λ f, fr_side f = false) ks → lefts ks = [].
Proof. induction 1 as [|[] ks Hf _ IH]; [done|]. simpl in *. by subst. Qed.
Lemma sides_right ks : Forall (λ f, fr_side f = true) ks → rights ks = [].
Proof. induction 1 as [|[] ks Hf _ IH]; [done|]. simpl in *. by subst. Qed.

Lemma zrep_fuel s k t : zrep s k t → (length (addrs t) + length (caddrs k) < rb_fuel s)%nat.
Proof. intros H%zrep_length. rewrite length_app in H. unfold rb_fuel. lia. Qed.

Lemma zrep_depth s k t : zrep s k t → (length k < rb_fuel s)%nat.
Proof.
  intros H%zrep_fuel. enough (length k ≤ length (caddrs k))%nat by lia. clear.
  induction k as [|[] k IH]; simpl; [lia|]. rewrite length_app. lia.
Qed.

Lemma leftmost_first s k red l a r fuel : (length (addrs (Node red l a r)) ≤ fuel)%nat → zrep s k (Node red l a r) →
  leftmost fuel a s = Some (first (inorder (Node red l a r))).
Proof.
  intros Hf H. destruct (extreme_ok false s fuel k red l a r Hf H) as (ks & c & b & z & E & Ep & Hs & _).
  change (extreme false) with leftmost in E. rewrite E. change (Node red l a r) with (node false red l a r).
  by rewrite Ep, inorder_at, (sides_left _ Hs).
Qed.
Lemma rightmost_final s k red l a r fuel : (length (addrs (Node red l a r)) ≤ fuel)%nat → zrep s k (Node red l a r) →
  rightmost fuel a s = Some (final (inorder (Node red l a r))).
Proof.
  intros Hf H. destruct (extreme_ok true s fuel k red r a l) as (ks & c & b & z & E & Ep & Hs & _); [done|done|].
  change (extreme true) with rightmost in E. rewrite E. change (Node red l a r) with (node true red r a l).
  rewrite Ep, inorder_at, (sides_right _ Hs), app_nil_r. simpl. by rewrite app_assoc, final_app.
Qed.

(** Climbing from the child on side [d] to the first element that is not. *)
Definition ahead (d : bool) (k : list frame) : Z := if d then first (rights k) else final (lefts k).

Lemma climb_ok d s k : ∀ fuel t, (length k < fuel)%nat → t ≠ Leaf → zrep s k t →
  climb (CHILD d) fuel (root_ptr t) s = Some (ahead d k).
Proof.
  induction k as [|[df red a sib] k IH]; intros [|fuel] t Hl Ht H; simpl in Hl; try lia; cbn [climb];
    destruct t as [|c tl b tr]; try done; cbn [root_ptr]; rewrite (parent_ok _ _ false c tl b tr H); cbn [mbind option_bind par_ptr fr_addr].
  - by destruct d.
  - pose proof (zrep_up _ _ _ _ _ _ _ H) as H'.
    rewrite (proj2 (Z.eqb_neq a 0)) by (destruct (proj1 (z_good _ _ _ H a ltac:(simpl; set_solver))); done).
    destruct (child_ok _ _ _ _ _ _ _ H') as [C1 C2]. destruct (bool_decide_reflect (df = d)) as [->|Hd].
    + rewrite C1. cbn [mbind option_bind]. rewrite Z.eqb_refl.
      replace a with (root_ptr (node d red (Node c tl b tr) a sib)) by apply root_node.
      rewrite (IH fuel _ ltac:(lia)); [by destruct d|by destruct d|done].
    + assert (d = negb df) as -> by (by destruct d, df). rewrite C2. cbn [mbind option_bind root_ptr].
      rewrite (proj2 (Z.eqb_neq _ _)).
      * destruct df; simpl; [by rewrite app_assoc, final_app|done].
      * intros ->. pose proof (z_nodup _ _ _ H) as Hnd. destruct sib; simpl in *.
        -- by destruct (proj1 (z_good _ _ _ H 0 ltac:(simpl; set_solver))).
        -- apply NoDup_cons in Hnd as [Hnd _]. set_solver.
Qed.

Lemma next_ok s k red l a r : zrep s k (Node red l a r) → CYANFS_RB_NEXT a s = Some (first (inorder r ++ rights k)).
Proof.
  intros H. pose proof (zrep_fuel _ _ _ H) as Hf. unfold CYANFS_RB_NEXT. change CYANFS_RB_RIGHT with (CHILD (negb false)).
  rewrite (proj2 (child_ok _ _ false _ _ _ _ H)). cbn [mbind option_bind].
  pose proof (zrep_other _ false _ _ _ _ _ H) as Hr. destruct r as [|c rl b rr].
  - cbn [root_ptr Z.eqb negb inorder app]. rewrite (parent_ok _ _ false _ _ _ _ H). cbn [mbind option_bind].
    assert (Hc : climb (CHILD true) (rb_fuel s) a s = Some (first (rights k))).
    { rewrite <- (root_node false red l a Leaf). rewrite (climb_ok true s k); [done| |done|done]. by eapply zrep_depth. }
    destruct k as [|[df rd p sib] k]; [done|]. cbn [par_ptr fr_addr].
    rewrite (proj2 (Z.eqb_neq p 0)) by (destruct (proj1 (z_good _ _ _ H p ltac:(simpl; set_solver))); done).
    destruct (side_ok _ _ _ _ _ _ _ H) as (pl & El & Hs); [by left|]. rewrite El. cbn [mbind option_bind].
    rewrite Z.eqb_sym. cbn [root_ptr] in Hs. rewrite Hs. destruct df; [done|]. done.
  - rewrite (proj2 (Z.eqb_neq _ _)) by (by intros ?%(zrep_ptr_null _ _ _ Hr)). cbn [negb root_ptr].
    rewrite (leftmost_first s _ c rl b rr (rb_fuel s) ltac:(pose proof (zrep_fuel _ _ _ Hr); lia) Hr).
    rewrite first_app. by destruct (inorder (Node c rl b rr)) eqn:E; [simpl in E; destruct (inorder rl)|].
Qed.

Lemma prev_ok s k red l a r : zrep s k (Node red l a r) → CYANFS_RB_PREV a s = Some (final (lefts k ++ inorder l)).
Proof.
  intros H. pose proof (zrep_fuel _ _ _ H) as Hf. unfold CYANFS_RB_PREV. change CYANFS_RB_LEFT with (CHILD false).
  rewrite (proj1 (child_ok _ _ false _ _ _ _ H)). cbn [mbind option_bind].
  pose proof (zrep_down _ false _ _ _ _ _ H) as Hl. destruct l as [|c ll b lr].
  - cbn [root_ptr Z.eqb negb inorder]. rewrite (parent_ok _ _ false _ _ _ _ H), app_nil_r. cbn [mbind option_bind].
    assert (Hc : climb (CHILD false) (rb_fuel s) a s = Some (final (lefts k))).
    { rewrite <- (root_node false red Leaf a r). rewrite (climb_ok false s k); [done| |done|done]. by eapply zrep_depth. }
    destruct k as [|[df rd p sib] k]; [done|]. cbn [par_ptr fr_addr].
    rewrite (proj2 (Z.eqb_neq p 0)) by (destruct (proj1 (z_good _ _ _ H p ltac:(simpl; set_solver))); done).
    destruct (right_side_ok _ _ _ _ _ _ _ H) as (pr & Er & Hs); [by left|]. rewrite Er. cbn [mbind option_bind].
    rewrite Z.eqb_sym. cbn [root_ptr] in Hs. rewrite Hs. destruct df; [|done]. simpl. by rewrite app_assoc, final_app.
  - rewrite (proj2 (Z.eqb_neq _ _)) by (by intros ?%(zrep_ptr_null _ _ _ Hl)). cbn [negb root_ptr].
    rewrite (rightmost_final s _ c ll b lr (rb_fuel s) ltac:(pose proof (zrep_fuel _ _ _ Hl); lia) Hl).
    rewrite final_app. by destruct (inorder (Node c ll b lr)) eqn:E; [simpl in E; destruct (inorder ll)|].
Qed.
End walk.

(** Every element has a place. *)
Lemma locate t x : x ∈ inorder t → ∃ k c l r, t = plug k (Node c l x r).
Proof.
  induction t as [|c l IHl a r IHr]; simpl; [by intros ?%elem_of_nil|]. intros [H|[->|H]%elem_of_cons]%elem_of_app.
  - destruct (IHl H) as (k & c' & l' & r' & ->). exists (k ++ [Fr false c a r]), c', l', r'. by rewrite plug_app.
  - by exists [], c, l, r.
  - destruct (IHr H) as (k & c' & l' & r' & ->). exists (k ++ [Fr true c a l]), c', l', r'. by rewrite plug_app.
Qed.

Lemma split_unique (l1 l2 k1 k2 : list Z) x : NoDup (l1 ++ x :: l2) → l1 ++ x :: l2 = k1 ++ x :: k2 → l1 = k1 ∧ l2 = k2.
Proof.
  revert k1. induction l1 as [|y l1 IH]; intros [|z k1] Hn E; simpl in *; [by simplify_eq|..].
  - injection E as <- ->. apply NoDup_cons in Hn as [Hn _]. set_solver.
  - injection E as -> <-. apply NoDup_cons in Hn as [Hn _]. set_solver.
  - injection E as <- E. apply NoDup_cons in Hn as [_ Hn]. by destruct (IH _ Hn E) as [-> ->].
Qed.

Section holds.
Context (s : rb_state) (t : tree).
Hypothesis Hs : rb_holds s t.

Lemma holds_nodup : NoDup (inorder t).
Proof. rewrite inorder_addrs. pose proof (z_nodup _ _ _ Hs) as H. by rewrite app_nil_r in H. Qed.

Lemma holds_at l1 x l2 : inorder t = l1 ++ x :: l2 →
  ∃ k c l r, zrep (rb_mem s) (addrs t) s k (Node c l x r) ∧ t = plug k (Node c l x r) ∧ l1 = lefts k ++ inorder l ∧ l2 = inorder r ++ rights k.
Proof.
  intros E. destruct (locate t x) as (k & c & l & r & Et); [rewrite E; set_solver|].
  exists k, c, l, r. pose proof holds_nodup as Hn. rewrite E in Hn. split; [apply zrep_plug; by rewrite <- Et|]. split; [done|].
  rewrite Et, inorder_at in E. simpl in E. rewrite <- app_assoc in E. simpl in E. rewrite app_assoc in E.
  by apply (split_unique l1 l2 _ _ x Hn).
Qed.

Lemma next_list l1 x l2 : inorder t = l1 ++ x :: l2 → CYANFS_RB_NEXT x s = Some (first l2).
Proof. intros (k & c & l & r & H & _ & _ & ->)%holds_at. by eapply next_ok. Qed.
Lemma prev_list l1 x l2 : inorder t = l1 ++ x :: l2 → CYANFS_RB_PREV x s = Some (final l1).
Proof. intros (k & c & l & r & H & _ & -> & _)%holds_at. by eapply prev_ok. Qed.

Lemma elem_nonnull x : x ∈ inorder t → x ≠ 0.
Proof. rewrite inorder_addrs. intros Hx. apply (z_good _ _ _ Hs). by rewrite app_nil_r. Qed.

Lemma holds_fuel : (length (inorder t) < rb_fuel s)%nat.
Proof. rewrite inorder_addrs. pose proof (zrep_fuel _ _ _ Hs). simpl in *. lia. Qed.

Lemma foreach_list l2 : ∀ l1 fuel, inorder t = l1 ++ l2 → (length l2 < fuel)%nat → foreach_loop fuel (first l2) s = Some l2.
Proof.
  induction l2 as [|x l2 IH]; intros l1 [|fuel] E Hf; simpl in Hf; try lia; [done|].
  change (first (x :: l2)) with x. cbn [foreach_loop].
  rewrite (proj2 (Z.eqb_neq x 0)) by (apply elem_nonnull; rewrite E; set_solver).
  rewrite (next_list _ _ _ E). cbn [mbind option_bind]. rewrite (IH (l1 ++ [x])); [done|by rewrite <- app_assoc|lia].
Qed.
End holds.

Section minmax.
Context {m0 : gmap Z rb_entry} {A : list Z}.

Lemma minmax_ok s val t : ∀ k fuel p, (length (addrs t) ≤ fuel)%nat → zrep m0 A s k t →
  minmax_loop val fuel (root_ptr t) p s =
  Some (match t with Leaf => p | _ => if val <? 0 then first (inorder t) else final (inorder t) end).
Proof.
  induction t as [|c l IHl a r IHr]; intros k fuel p Hf H; [by destruct fuel|].
  destruct fuel as [|fuel]; simpl in Hf; [lia|]. rewrite length_app in Hf. cbn [minmax_loop root_ptr].
  rewrite (proj2 (Z.eqb_neq a 0)) by (by intros ?%(zrep_ptr_null _ _ _ H)).
  destruct (child_ok _ _ false _ _ _ _ H) as [C1 C2]. cbn [CHILD negb] in *. destruct (val <? 0).
  - rewrite C1. cbn [mbind option_bind]. rewrite (IHl _ fuel a ltac:(lia) (zrep_down _ false _ _ _ _ _ H)).
    destruct l as [|cl ll b lr]; [done|]. simpl. by rewrite <- app_assoc; destruct (inorder ll).
  - rewrite C2. cbn [mbind option_bind]. rewrite (IHr _ fuel a ltac:(lia) (zrep_other _ false _ _ _ _ _ H)).
    f_equal. cbn [inorder]. destruct r as [|cr rl b rr]; [by rewrite final_app|]. symmetry. apply final_skip. simpl. by destruct (inorder rl).
Qed.
End minmax.

Lemma minmax_list s t val : rb_holds s t → CYANFS_RB_MINMAX val s = Some (if val <? 0 then first (inorder t) else final (inorder t)).
Proof.
  intros H. unfold CYANFS_RB_MINMAX. rewrite (z_root _ _ _ H). cbn [top_ptr].
  pose proof (zrep_fuel _ _ _ H) as Hf. rewrite (minmax_ok s val t [] (rb_fuel s) 0 ltac:(lia) H). destruct t; [by destruct (val <? 0)|done].
Qed.

(** Walking a tree.  On a tree whose elements are [l] in order, MIN and
    MAX return its first and last element (null when there is none), NEXT and
    PREV the neighbours of an element, and FOREACH visits exactly [l]; all of
    them terminate without following a bad pointer. *)
Lemma rb_walk s l :
  represents s l →
  CYANFS_RB_MIN s = Some (first l) ∧ CYANFS_RB_MAX s = Some (final l) ∧ CYANFS_RB_FOREACH s = Some l ∧
  ∀ l1 x l2, l = l1 ++ x :: l2 → CYANFS_RB_NEXT x s = Some (first l2) ∧ CYANFS_RB_PREV x s = Some (final l1).
Proof.
  intros (t & _ & H & <-). unfold CYANFS_RB_FOREACH, CYANFS_RB_MIN, CYANFS_RB_MAX. rewrite !(minmax_list s t _ H).
  split_and!; [done..| |].
  - cbn [mbind option_bind Z.ltb Z.compare]. apply (foreach_list s t H _ []); [done|by apply holds_fuel].
  - intros l1 x l2 E. split; [by eapply next_list|by eapply prev_list].
Qed.

Section search.
Context (cmp : Z → Z → Z) `{!CmpOrder cmp}.
Context {m0 : gmap Z rb_entry} {A : list Z}.

Lemma find_loop_ok elm s t : ∀ k fuel, (height t ≤ fuel)%nat → zrep m0 A s k t → rb_sorted cmp (inorder t) →
  ∃ p, find_loop cmp fuel elm (root_ptr t) s = Some p ∧
    (p = 0 ∧ (∀ y, y ∈ inorder t → cmp elm y ≠ 0) ∨ p ∈ inorder t ∧ cmp elm p = 0).
Proof.
  induction t as [|c l IHl a r IHr]; intros k fuel Hf H Hs.
  { exists 0. split; [by destruct fuel|]. left. split; [done|]. by intros y ?%elem_of_nil. }
  destruct fuel as [|fuel]; simpl in Hf; [lia|]. cbn [find_loop root_ptr].
  rewrite (proj2 (Z.eqb_neq a 0)) by (by intros ?%(zrep_ptr_null _ _ _ H)).
  destruct (child_ok _ _ false _ _ _ _ H) as [C1 C2]. cbn [CHILD negb] in *.
  cbn [inorder] in Hs. apply sorted_app in Hs as (Hsl & (Hsr & Hra)%sorted_cons & Hlr). cbn [inorder].
  destruct (Z.ltb_spec (cmp elm a) 0) as [Hlt|Hge]; [|destruct (Z.ltb_spec 0 (cmp elm a)) as [Hgt|Hle]].
  - rewrite C1. cbn [mbind option_bind]. destruct (IHl _ fuel ltac:(lia) (zrep_down _ false _ _ _ _ _ H) Hsl) as (p & E & Hp).
    exists p. split; [done|]. destruct Hp as [[-> Hp]|[Hp ?]]; [left; split; [done|]|right; set_solver].
    intros y [Hy|[->|Hy]%elem_of_cons]%elem_of_app; [by apply Hp|lia|]. pose proof (cmp_trans elm a y Hlt (Hra y Hy)). lia.
  - rewrite C2. cbn [mbind option_bind]. destruct (IHr _ fuel ltac:(lia) (zrep_other _ false _ _ _ _ _ H) Hsr) as (p & E & Hp).
    exists p. split; [done|]. destruct Hp as [[-> Hp]|[Hp ?]]; [left; split; [done|]|right; set_solver].
    intros y [Hy|[->|Hy]%elem_of_cons]%elem_of_app; [|lia|by apply Hp].
    pose proof (cmp_trans y a elm (Hlr y a Hy ltac:(set_solver)) (proj2 (cmp_swap a elm) Hgt)) as Hye. apply cmp_swap in Hye. lia.
  - exists a. split; [done|]. right. split; [set_solver|lia].
Qed.

Lemma find_fuel elm s t : ∀ k f1 f2, (height t ≤ f1)%nat → (height t ≤ f2)%nat → zrep m0 A s k t →
  find_loop cmp f1 elm (root_ptr t) s = find_loop cmp f2 elm (root_ptr t) s.
Proof.
  induction t as [|c l IHl a r IHr]; intros k f1 f2 H1 H2 H; [by destruct f1, f2|].
  destruct f1 as [|f1], f2 as [|f2]; simpl in H1, H2; try lia. cbn [find_loop root_ptr].
  destruct (child_ok _ _ false _ _ _ _ H) as [C1 C2]. cbn [CHILD negb] in *. rewrite C1, C2. cbn [mbind option_bind].
  rewrite (IHl _ f1 f2 ltac:(lia) ltac:(lia) (zrep_down _ false _ _ _ _ _ H)).
  by rewrite (IHr _ f1 f2 ltac:(lia) ltac:(lia) (zrep_other _ false _ _ _ _ _ H)).
Qed.

Lemma nfind_loop_ok elm s t : ∀ k fuel res, (height t ≤ fuel)%nat → zrep m0 A s k t → rb_sorted cmp (inorder t) →
  ∃ l1 l2, inorder t = l1 ++ l2 ∧ (∀ y, y ∈ l1 → 0 < cmp elm y) ∧ (∀ y, y ∈ l2 → cmp elm y ≤ 0) ∧
    nfind_loop cmp fuel elm (root_ptr t) res s = Some (default res (head l2)).
Proof.
  induction t as [|c l IHl a r IHr]; intros k fuel res Hf H Hs.
  { exists [], []. split_and!; [done|by intros y ?%elem_of_nil..|by destruct fuel]. }
  destruct fuel as [|fuel]; simpl in Hf; [lia|]. cbn [nfind_loop root_ptr].
  rewrite (proj2 (Z.eqb_neq a 0)) by (by intros ?%(zrep_ptr_null _ _ _ H)).
  destruct (child_ok _ _ false _ _ _ _ H) as [C1 C2]. cbn [CHILD negb] in *.
  cbn [inorder] in Hs. apply sorted_app in Hs as (Hsl & (Hsr & Hra)%sorted_cons & Hlr). cbn [inorder].
  destruct (Z.ltb_spec (cmp elm a) 0) as [Hlt|Hge]; [|destruct (Z.ltb_spec 0 (cmp elm a)) as [Hgt|Hle]].
  - rewrite C1. cbn [mbind option_bind].
    destruct (IHl _ fuel a ltac:(lia) (zrep_down _ false _ _ _ _ _ H) Hsl) as (l1 & l2 & E & H1 & H2 & ->).
    exists l1, (l2 ++ a :: inorder r). rewrite E, <- app_assoc. split_and!; [done|done| |by destruct l2].
    intros y [Hy|[->|Hy]%elem_of_cons]%elem_of_app; [by apply H2|lia|]. pose proof (cmp_trans elm a y Hlt (Hra y Hy)). lia.
  - rewrite C2. cbn [mbind option_bind].
    destruct (IHr _ fuel res ltac:(lia) (zrep_other _ false _ _ _ _ _ H) Hsr) as (l1 & l2 & E & H1 & H2 & ->).
    exists (inorder l ++ a :: l1), l2. rewrite E, <- app_assoc. split_and!; [done| |done|done].
    intros y [Hy|[->|Hy]%elem_of_cons]%elem_of_app; [|lia|by apply H1].
    apply cmp_swap, (cmp_trans y a elm); [apply Hlr; set_solver|by apply cmp_swap].
  - assert (Ea : cmp elm a = 0) by lia. exists (inorder l), (a :: inorder r). split_and!; [done| | |done].
    + intros y Hy. apply cmp_swap, (cmp_equal _ a); [done|]. apply Hlr; set_solver.
    + intros y [->|Hy]%elem_of_cons; [lia|]. destruct (Z.le_gt_cases (cmp elm y) 0) as [|Hc]; [done|].
      apply cmp_swap in Hc. pose proof (cmp_trans a y elm (Hra y Hy) Hc) as Hn. apply cmp_swap in Hn. lia.
Qed.
End search.

(** Searching a tree.  On a tree with the elements [l] in the order of the
    comparison, FIND returns an element of [l] equal to the one given, or null
    when there is none; NFIND returns the first element of [l] that is not
    smaller than the one given, or null.  The searches terminate and follow
    no bad pointer. *)
Lemma rb_search cmp `{!CmpOrder cmp} s l elm :
  represents s l → rb_sorted cmp l →
  (∃ p, CYANFS_RB_FIND cmp elm s = Some p ∧
     (p = 0 ∧ (∀ y, y ∈ l → cmp elm y ≠ 0) ∨ p ∈ l ∧ cmp elm p = 0)) ∧
  (∃ l1 l2, l = l1 ++ l2 ∧ (∀ y, y ∈ l1 → 0 < cmp elm y) ∧ (∀ y, y ∈ l2 → cmp elm y ≤ 0) ∧
     CYANFS_RB_NFIND cmp elm s = Some (first l2)).
Proof.
  intros (t & _ & H & <-) Hs. pose proof (zrep_fuel _ _ _ H) as Hf. pose proof (height_addrs t). unfold CYANFS_RB_FIND, CYANFS_RB_NFIND.
  rewrite (z_root _ _ _ H). cbn [top_ptr].
  split; [by apply (find_loop_ok cmp elm s t [] (rb_fuel s) ltac:(lia) H)|by apply (nfind_loop_ok cmp elm s t [] (rb_fuel s) 0 ltac:(lia) H)].
Qed.
