(* ===== verification/RbInsert.v ===== *)
(** * RbInsert: insertion into a red-black tree *)
From Stdlib Require Import ZArith Lia.
From S2P Require Import Prelude RbTree RbTreeSpec RbSearch.

Section insert.
Context {m0 : gmap Z rb_entry} {A : list Z}.
Local Notation zrep := (zrep m0 A).
Local Notation balanced_at := (balanced_at m0 A).

(** One case of the loop, with the parent on side [d] of the grandparent. *)
Definition insert_case (d : bool) (loop : Z → rb_state → option rb_state) (elm parent gparent : Z) (s : rb_state) : option rb_state :=
  tmp ← CHILD (negb d) gparent s;
  red ← is_red tmp s;
  if (red : bool) then
    s ← CYANFS_RB_COLOR_SET tmp CYANFS_RB_BLACK s;
    s ← CYANFS_RB_SET_BLACKRED parent gparent s;
    loop gparent s
  else
    c ← CHILD (negb d) parent s;
    '(elm, parent, s) ← (if c =? elm then s ← ROTATE d parent s; Some (parent, elm, s) else Some (elm, parent, s));
    s ← CYANFS_RB_SET_BLACKRED parent gparent s;
    s ← ROTATE (negb d) gparent s;
    loop elm s.

Lemma insert_loop_red fuel elm s p g gl :
  CYANFS_RB_PARENT_GET elm s = Some p → is_red p s = Some true →
  CYANFS_RB_PARENT_GET p s = Some g → CYANFS_RB_LEFT g s = Some gl →
  insert_color_loop (S fuel) elm s = insert_case (negb (gl =? p)) (insert_color_loop fuel) elm p g s.
Proof.
  intros H1 H2 H3 H4. cbn [insert_color_loop]. rewrite H1. cbn [mbind option_bind]. rewrite H2. cbn [mbind option_bind negb].
  rewrite H3. cbn [mbind option_bind]. rewrite H4. cbn [mbind option_bind]. rewrite (Z.eqb_sym gl p). unfold insert_case, CHILD.
  destruct (p =? gl); cbn [negb]; by rewrite ?H4.
Qed.
Lemma insert_loop_stop fuel elm s p :
  CYANFS_RB_PARENT_GET elm s = Some p → is_red p s = Some false → insert_color_loop (S fuel) elm s = Some s.
Proof. intros H1 H2. cbn [insert_color_loop]. rewrite H1. cbn [mbind option_bind]. by rewrite H2. Qed.

(** The case of a black uncle. *)
Lemma insert_case_rotate d df s k X p sf g u d1 l x r loop :
  X = node d1 true l x r →
  zrep s k (node d false (node df true X p sf) g u) → is_redt u = false →
  ∃ s' y b z p' q, insert_case d loop x p g s = loop y s' ∧
    zrep s' k (node d false (node d true b y z) p' (node d true q g u)) ∧
    inorder (node d false (node df true X p sf) g u) = inorder (node d false (node d true b y z) p' (node d true q g u)) ∧
    ∀ n, rbt X n → rbt sf n → rbt u n → is_redt sf = false →
      rbt (node d true b y z) n ∧ rbt (node d true q g u) n.
Proof.
  intros HX H Hu. unfold insert_case. rewrite (proj2 (child_ok _ _ _ _ _ _ _ H)). cbn [mbind option_bind].
  rewrite (is_red_ok _ _ _ (zrep_other _ _ _ _ _ _ _ H)), Hu. cbn [mbind option_bind].
  pose proof (zrep_down _ _ _ _ _ _ _ H) as Hp. destruct (child_ok _ _ _ _ _ _ _ Hp) as [C1 C2].
  assert (Hx : root_ptr X = x) by (subst; apply root_node). rewrite Hx in C1.
  assert (Hsx : (root_ptr sf =? x) = false).
  { apply Z.eqb_neq. intros E. pose proof (z_nodup _ _ _ Hp) as Hnd. rewrite addrs_node, HX, addrs_node in Hnd.
    destruct sf as [|? ? a ?]; simpl in *; [|subst; apply NoDup_cons in Hnd as [_ Hnd]; apply NoDup_cons in Hnd as [Hnd _]; set_solver].
    destruct (z_good _ _ _ Hp x) as [[? _] _]; [|done]. rewrite addrs_node, HX, addrs_node. set_solver. }
  destruct (node_dir d1 d true l x r) as (xl & xr & HX'). rewrite HX' in HX. clear HX'.
  destruct (bool_decide_reflect (df = d)) as [->|Hd].
  - rewrite C2. cbn [mbind option_bind]. rewrite Hsx. cbn [mbind option_bind].
    destruct (outer_rotation _ _ _ _ _ _ _ _ _ _ H) as (s1 & s2 & E1 & E2 & H2). rewrite E1. cbn [mbind option_bind]. rewrite E2. cbn [mbind option_bind].
    subst X. exists s2, x, xl, xr, p, sf. split_and!; [done|done| |].
    + destruct d; inord.
    + intros n HXn Hsf Hun Hsb. split; [done|]. by apply rbt_red.
  - assert (df = negb d) as -> by (by destruct d, df). rewrite C1. cbn [mbind option_bind]. rewrite Z.eqb_refl. cbn [mbind option_bind].
    rewrite node_flip, negb_involutive, HX in Hp.
    destruct (rotate_ok _ _ _ _ _ _ _ _ _ _ Hp) as (s0 & E0 & H0). rewrite E0. cbn [mbind option_bind].
    apply zrep_up in H0.
    destruct (outer_rotation _ _ _ _ _ _ _ _ _ _ H0) as (s1 & s2 & E1 & E2 & H2). rewrite E1. cbn [mbind option_bind].
    rewrite E2. cbn [mbind option_bind].
    exists s2, p, sf, xl, x, xr. split_and!; [done|done| |].
    + rewrite HX. destruct d; inord.
    + rewrite HX. intros n (HXl & HXr & HbL & HbR)%rbt_red Hsf Hun Hsb. split; by apply rbt_red.
Qed.

Lemma insert_loop_ok fuel : ∀ s k d l x r n, (length k < fuel)%nat →
  zrep s k (node d true l x r) → rbt (node d true l x r) n → cok k n →
  ∃ s', insert_color_loop fuel x s = Some s' ∧ balanced_at (inorder (plug k (node d true l x r))) s'.
Proof.
  induction fuel as [|fuel IH]; intros s k d l x r n Hlen Hz Ht Hk; [lia|].
  pose proof (parent_ok _ _ _ _ _ _ _ Hz) as Hpar. pose proof (is_red_par _ _ _ Hz) as Hred.
  destruct (red_head k) eqn:Eh.
  2:{ exists s. split; [by eapply insert_loop_stop|]. exists k, (node d true l x r), n. rewrite Eh. by split_and!. }
  destruct k as [|[df [] p sf] [|[dg [] g u] k]]; try done; [by destruct Hk as (_ & _ & _ & ? & _)|by destruct Hk as (_ & _ & _ & _ & ?)|].
  destruct Hk as (Hsf & Hsfb & (Hu & Hk) & _ & _). simpl in Hlen.
  pose proof Hz as Hz1. apply zrep_up in Hz1. pose proof (parent_ok _ _ _ _ _ _ _ Hz1) as Hgp.
  destruct (side_ok _ _ _ _ _ _ _ Hz1) as (gl & Hgl & Hside); [left; by destruct df|]. rewrite root_node in Hside.
  rewrite (insert_loop_red _ _ _ _ _ _ Hpar Hred Hgp Hgl). cbn [par_ptr fr_addr]. rewrite Hside, negb_involutive.
  pose proof Hz1 as Hz2. apply zrep_up in Hz2. destruct (is_redt u) eqn:Eu.
  - unfold insert_case. rewrite (proj2 (child_ok _ _ _ _ _ _ _ Hz2)). cbn [mbind option_bind].
    pose proof (zrep_other _ _ _ _ _ _ _ Hz2) as Hzu. rewrite (is_red_ok _ _ _ Hzu), Eu. cbn [mbind option_bind].
    destruct u as [|[] ul ua ur]; try done. destruct (color_set_ok false _ _ false _ _ _ _ Hzu) as (s1 & E1 & H1).
    cbn [root_ptr]. change CYANFS_RB_BLACK with (code false). rewrite E1. cbn [mbind option_bind].
    apply zrep_up in H1. rewrite node_flip, negb_involutive in H1.
    destruct (blackred_ok _ _ _ _ _ _ _ _ _ _ _ H1) as (s2 & -> & H2). cbn [mbind option_bind].
    destruct Hu as (Hul & Hur & _). destruct (IH s2 k dg _ g _ (S n) ltac:(lia) H2) as (s' & -> & Hb); [|done|].
    + apply rbt_red. rewrite !is_redt_node. split_and!; [by apply rbt_black|by apply (rbt_black false)|done..].
    + exists s'. split; [done|]. cbn [plug]. erewrite inorder_plug; [exact Hb|]. simpl. by destruct dg, df.
  - destruct (insert_case_rotate dg df s k _ p sf g u d l x r (insert_color_loop fuel) eq_refl Hz2 Eu) as (s' & y & b & z & p' & q & -> & H' & Hio & Hrb).
    destruct (Hrb n Ht Hsf Hu Hsfb) as [R1 R2]. apply zrep_down in H'.
    edestruct (IH s') as (s2 & -> & Hb); [|exact H'|exact R1|by split|]; [simpl; lia|].
    exists s2. split; [done|]. cbn [plug]. erewrite inorder_plug; [exact Hb|]. exact Hio.
Qed.

(** ** Linking the new element *)
Definition link (elm parent comp : Z) (s : rb_state) : option rb_state :=
  s ← CYANFS_RB_SET elm parent s;
  if negb (parent =? 0) then if comp <? 0 then LEFT_SET parent elm s else RIGHT_SET parent elm s
  else Some (set_root elm s).

(** The last comparison of the search tells the side. *)
Definition agrees (comp : Z) (k : list frame) : Prop :=
  match k with [] => True | f :: _ => (comp <? 0) = negb (fr_side f) end.

Lemma link_ok s k elm comp e : zrep s k Leaf → agrees comp k → rb_mem s !! elm = Some e → good elm → elm ∈ A → elm ∉ caddrs k →
  ∃ s', link elm (par_ptr k) comp s = Some s' ∧ zrep s' k (Node true Leaf elm Leaf).
Proof.
  intros H Hc He Hg HA Hk. unfold link, CYANFS_RB_SET.
  destruct (store_ok elm (λ _, mk_rb 0 0 (pack (par_ptr k) true)) s e He) as (s1 & E1 & M1 & R1 & U1).
  unfold pack in E1. rewrite E1. cbn [mbind option_bind].
  pose proof (z_good _ _ _ H) as HG. pose proof (z_nodup _ _ _ H) as HN. pose proof (z_ctx _ _ _ H) as HC. simpl in HG, HN.
  assert (∃ s', (if negb (par_ptr k =? 0) then if comp <? 0 then LEFT_SET (par_ptr k) elm s1 else RIGHT_SET (par_ptr k) elm s1
                 else Some (set_root elm s1)) = Some s' ∧ crep (rb_mem s') k elm ∧ rbh_root s' = top_ptr k elm ∧ upd (caddrs k) s1 s')
    as (s2 & E2 & C2 & R2 & U2).
  { destruct k as [|[d red a sib] k]; [by eexists|]. cbn [par_ptr fr_addr].
    rewrite (proj2 (Z.eqb_neq a 0)) by (apply HG; simpl; set_solver). cbn [negb]. simpl in Hc. rewrite Hc.
    simpl in HC, Hk, HN. destruct HC as (Hm & Hs & Hk'). rewrite NoDup_cons, elem_of_app in HN. destruct HN as [HN _].
    rewrite <- (upd_mem _ _ _ U1) in Hm by set_solver. destruct (child_set_ok s1 a d _ _ _ elm Hm) as (s2 & E2 & M2 & R2 & U2).
    exists s2. split_and!; [by destruct d| | |].
    - pose proof (upd_trans _ _ _ _ _ U1 U2) as U. simpl. split_and!; [done|eapply rep_upd; [exact U|set_solver|done]|eapply crep_upd; [exact U|set_solver|done]].
    - rewrite R2, R1, (z_root _ _ _ H). done.
    - split; [|apply U2]. intros b Hb. apply U2. simpl in Hb. set_solver. }
  exists s2. split; [done|]. split.
  - simpl. by constructor.
  - intros a [->|Ha]%elem_of_cons; [done|]. by apply HG.
  - simpl. rewrite (upd_mem _ _ _ U2) by done. by split_and!.
  - done.
  - done.
  - intros a Ha. rewrite (upd_mem _ _ _ U2), (upd_mem _ _ _ U1); [by apply (z_frame _ _ _ H)|set_solver|]. intros ?%HG. tauto.
  - rewrite (upd_dom _ _ _ U2), (upd_dom _ _ _ U1). apply (z_dom _ _ _ H).
Qed.
End insert.

(** ** The search for the place *)
Section search.
Context (cmp : Z → Z → Z) `{!CmpOrder cmp}.
Context {m0 : gmap Z rb_entry} {A : list Z}.

Definition between (elm : Z) (k : list frame) : Prop :=
  (∀ y, y ∈ lefts k → 0 < cmp elm y) ∧ (∀ y, y ∈ rights k → cmp elm y < 0).

Lemma insert_search_ok elm s t : ∀ k fuel comp, (length (addrs t) ≤ fuel)%nat → zrep m0 A s k t → rb_sorted cmp (inorder t) →
  between elm k → agrees comp k →
  (∃ x, insert_search cmp fuel elm (root_ptr t) (par_ptr k) comp s = Some (inl x) ∧ x ∈ inorder t ∧ cmp elm x = 0) ∨
  ∃ k' comp', insert_search cmp fuel elm (root_ptr t) (par_ptr k) comp s = Some (inr (par_ptr k', comp')) ∧
    zrep m0 A s k' Leaf ∧ plug k' Leaf = plug k t ∧ between elm k' ∧ agrees comp' k'.
Proof.
  induction t as [|c l IHl a r IHr]; intros k fuel comp Hf H Hs Hb Ha.
  { right. exists k, comp. split; [by destruct fuel|done]. }
  destruct fuel as [|fuel]; simpl in Hf; [lia|]. rewrite length_app in Hf. cbn [insert_search root_ptr].
  rewrite (proj2 (Z.eqb_neq a 0)) by (by intros ?%(zrep_ptr_null _ _ _ H)).
  destruct (child_ok _ _ false _ _ _ _ H) as [C1 C2]. cbn [CHILD negb] in *.
  cbn [inorder] in Hs. apply sorted_app in Hs as (Hsl & (Hsr & Hra)%sorted_cons & Hlr). cbn [inorder].
  destruct Hb as [Hb1 Hb2].
  destruct (Z.ltb_spec (cmp elm a) 0) as [Hlt|Hge]; [|destruct (Z.ltb_spec 0 (cmp elm a)) as [Hgt|Hle]].
  - rewrite C1. cbn [mbind option_bind].
    destruct (IHl (Fr false c a r :: k) fuel (cmp elm a) ltac:(lia) (zrep_down _ false _ _ _ _ _ H) Hsl) as [(x & E & Hx & Ex)|Hr].
    + split; [done|]. simpl. intros y [->|[Hy|Hy]%elem_of_app]%elem_of_cons; [done| |by apply Hb2].
      apply (cmp_trans elm a y); [done|by apply Hra].
    + simpl. by apply Z.ltb_lt.
    + left. exists x. split_and!; [exact E|set_solver|done].
    + right. exact Hr.
  - rewrite C2. cbn [mbind option_bind].
    destruct (IHr (Fr true c a l :: k) fuel (cmp elm a) ltac:(lia) (zrep_other _ false _ _ _ _ _ H) Hsr) as [(x & E & Hx & Ex)|Hr].
    + split; [|done]. simpl. intros y [Hy|[Hy|Hy%list_elem_of_singleton]%elem_of_app]%elem_of_app; [by apply Hb1| |by subst].
      apply cmp_swap, (cmp_trans y a elm); [apply Hlr; set_solver|by apply cmp_swap].
    + simpl. apply Z.ltb_ge. lia.
    + left. exists x. split_and!; [exact E|set_solver|done].
    + right. exact Hr.
  - left. exists a. split_and!; [done|set_solver|lia].
Qed.
End search.

(** C31: inserting into a tree.  Let [elm] be an element in memory that is not
    in the tree.  When an equal element is in the tree, INSERT returns it and
    changes nothing.  Otherwise it returns null and the tree is again a
    red-black tree, with [elm] in its place among the same elements in the
    same order; only entries of the tree and of [elm] change.  The search and
    the rebalancing terminate and follow no bad pointer. *)
Theorem rb_insert_ok cmp `{!CmpOrder cmp} s l elm :
  represents s l → rb_sorted cmp l → good elm → elm ∉ l → elm ∈ dom (rb_mem s) →
  (∃ x, CYANFS_RB_INSERT cmp elm s = Some (x, s) ∧ x ∈ l ∧ cmp elm x = 0) ∨
  ∃ s' l1 l2, CYANFS_RB_INSERT cmp elm s = Some (0, s') ∧ l = l1 ++ l2 ∧
    represents s' (l1 ++ elm :: l2) ∧ rb_sorted cmp (l1 ++ elm :: l2) ∧ dom (rb_mem s') = dom (rb_mem s) ∧
    ∀ a, a ∉ elm :: l → rb_mem s' !! a = rb_mem s !! a.
Proof.
  intros (t & [Hb [n Hn]] & H & <-) Hs Hg Hni [e He]%elem_of_dom. unfold CYANFS_RB_INSERT.
  pose proof (zrep_fuel _ _ _ H) as Hf.
  assert (Hz : zrep (rb_mem s) (elm :: addrs t) s [] t) by (eapply zrep_weaken; [|exact H]; set_solver).
  rewrite (z_root _ _ _ Hz). cbn [top_ptr].
  destruct (insert_search_ok cmp elm s t [] (rb_fuel s) 0 ltac:(lia) Hz Hs) as [(x & E & Hx & Ex)|(k & comp & E & Hk & Hp & [B1 B2] & Ha)];
    [by split; intros y ?%elem_of_nil|done|cbn [par_ptr] in E; rewrite E..]; [by left; exists x|right]. cbn [mbind option_bind plug] in *.
  rewrite <- Hp in Hn, Hb, Hni. destruct (plug_cok k Leaf n Hn Hb) as (n' & Hl & Hc & _). simpl in Hl. subst n'.
  rewrite inorder_addrs, addrs_at in Hni.
  destruct (link_ok s k elm comp e Hk Ha He Hg ltac:(set_solver) Hni) as (s1 & E1 & H1).
  unfold link in E1. destruct (CYANFS_RB_SET elm (par_ptr k) s) as [s0|]; [|done]. cbn [mbind option_bind] in E1 |- *. rewrite E1. cbn [mbind option_bind].
  unfold CYANFS_RB_INSERT_COLOR. destruct (insert_loop_ok (rb_fuel s1) s1 k false Leaf elm Leaf 0 (zrep_depth _ _ _ H1) H1 ltac:(done) Hc) as (s2 & -> & H2).
  cbn [mbind option_bind]. rewrite inorder_at in H2. cbn [node inorder app] in H2.
  destruct (blacken_ok s2 _ H2) as (s3 & t' & -> & H3 & Ht' & Ei); [by destruct (lefts k)|]. cbn [mbind option_bind].
  assert (El : inorder t = lefts k ++ rights k) by (by rewrite <- Hp, inorder_at).
  exists s3, (lefts k), (rights k). split_and!; [done|done| | |apply (z_dom _ _ _ H3)|].
  - exists t'. split_and!; [done|exact (zrep_holds _ [] _ H3)|done].
  - rewrite El in Hs. apply sorted_app in Hs as (S1 & S2 & S3). apply sorted_app. split_and!; [done|apply sorted_cons; by split|].
    intros a b Ha' [->|Hb']%elem_of_cons; [|by apply S3]. apply cmp_swap. by apply B1.
  - intros a Hna. apply (z_frame _ _ _ H3). by rewrite inorder_addrs in Hna.
Qed.
