(* ===== verification/RbRemove.v ===== *)
(** * RbRemove: removal from a red-black tree *)
From Stdlib Require Import ZArith Lia.
From S2P Require Import Prelude RbTree RbTreeSpec RbSearch.

(** ** Rebalancing *)
Section color.
Context {m0 : gmap Z rb_entry} {A : list Z}.
Local Notation zrep := (zrep m0 A).
Local Notation balanced_at := (balanced_at m0 A).

(** The sibling of [elm], made black, with [elm] on side [d] of [parent]. *)
Definition remove_sibling (d : bool) (parent : Z) (s : rb_state) : option (Z * rb_state) :=
  tmp ← CHILD (negb d) parent s;
  c ← CYANFS_RB_COLOR_GET tmp s;
  if c =? CYANFS_RB_RED then
    s ← CYANFS_RB_SET_BLACKRED tmp parent s;
    s ← ROTATE d parent s;
    tmp ← CHILD (negb d) parent s;
    Some (tmp, s)
  else Some (tmp, s).

(** The far nephew made red, when it is black. *)
Definition remove_inner (d : bool) (parent tmp near : Z) (far_black : bool) (s : rb_state) : option (Z * rb_state) :=
  if far_black then
    s ← (if near =? 0 then Some s else CYANFS_RB_COLOR_SET near CYANFS_RB_BLACK s);
    s ← CYANFS_RB_COLOR_SET tmp CYANFS_RB_RED s;
    s ← ROTATE (negb d) tmp s;
    tmp ← CHILD (negb d) parent s;
    Some (tmp, s)
  else Some (tmp, s).

Definition remove_outer (d : bool) (parent tmp : Z) (s : rb_state) : option (Z * rb_state) :=
  c ← CYANFS_RB_COLOR_GET parent s;
  s ← CYANFS_RB_COLOR_SET tmp c s;
  s ← CYANFS_RB_COLOR_SET parent CYANFS_RB_BLACK s;
  far ← CHILD (negb d) tmp s;
  s ← (if far =? 0 then Some s else CYANFS_RB_COLOR_SET far CYANFS_RB_BLACK s);
  s ← ROTATE d parent s;
  Some (rbh_root s, s).

Definition remove_case (d : bool) (loop : Z → Z → rb_state → option (Z * rb_state)) (parent : Z) (s : rb_state)
    : option (Z * rb_state) :=
  '(tmp, s) ← remove_sibling d parent s;
  tl ← CYANFS_RB_LEFT tmp s; bl ← is_black tl s;
  tr ← CYANFS_RB_RIGHT tmp s; br ← is_black tr s;
  if (bl : bool) && (br : bool) then
    s ← CYANFS_RB_COLOR_SET tmp CYANFS_RB_RED s;
    p ← CYANFS_RB_PARENT_GET parent s;
    loop p parent s
  else
    '(tmp, s) ← remove_inner d parent tmp (if d then tr else tl) (if d then bl else br) s;
    remove_outer d parent tmp s.

Lemma remove_loop_step fuel parent elm s pl :
  is_black elm s = Some true → elm ≠ rbh_root s → CYANFS_RB_LEFT parent s = Some pl →
  remove_color_loop (S fuel) parent elm s = remove_case (negb (pl =? elm)) (remove_color_loop fuel) parent s.
Proof.
  intros H1 H2 H3. cbn [remove_color_loop]. rewrite H1. cbn [mbind option_bind negb orb]. rewrite (proj2 (Z.eqb_neq _ _) H2), H3.
  cbn [mbind option_bind]. unfold remove_case, remove_sibling, remove_inner, remove_outer, CHILD.
  destruct (pl =? elm); cbn [negb]; rewrite ?H3.
  - destruct (CYANFS_RB_RIGHT parent s) as [tmp|]; [|done]. cbn [mbind option_bind]. by destruct (CYANFS_RB_COLOR_GET tmp s).
  - cbn [mbind option_bind]. by destruct (CYANFS_RB_COLOR_GET pl s).
Qed.
Lemma remove_loop_stop fuel parent elm s b :
  is_black elm s = Some b → b = false ∨ elm = rbh_root s → remove_color_loop (S fuel) parent elm s = Some (elm, s).
Proof.
  intros H1 H2. cbn [remove_color_loop]. rewrite H1. cbn [mbind option_bind]. by destruct H2 as [->| ->]; [|rewrite Z.eqb_refl, orb_true_r].
Qed.

(** The place is one black node short: its subtree has black height [n] where
    the context expects [S n]; a red root stands for the missing node. *)
Definition short (t : tree) (n : nat) : Prop :=
  match t with Node true l _ r => rbt l n ∧ rbt r n | _ => rbt t n end.

Definition finished (l : list Z) (e : Z) (s : rb_state) : Prop :=
  ∃ s' T, (if e =? 0 then Some s else CYANFS_RB_COLOR_SET e CYANFS_RB_BLACK s) = Some s' ∧
    zrep s' [] T ∧ rb_tree T ∧ inorder T = l.

Lemma zrep_nonnull s k d c x a y : zrep s k (node d c x a y) → a ≠ 0.
Proof. intros H. apply (z_good _ _ _ H a). rewrite addrs_node. set_solver. Qed.

Lemma sibling_ok s k d c p W t n : zrep s (Fr d c p W :: k) t → cok (Fr d c p W :: k) (S n) →
  ∃ s' c' d' near w far k', remove_sibling d p s = Some (w, s') ∧ zrep s' (Fr d c' p (node d' false near w far) :: k') t ∧
    cok (Fr d c' p (node d' false near w far) :: k') (S n) ∧ (c' = true ∨ k' = k) ∧
    inorder (plug (Fr d c' p (node d' false near w far) :: k') t) = inorder (plug (Fr d c p W :: k) t).
Proof.
  intros H Hk. pose proof (zrep_up _ _ _ _ _ _ _ H) as Hp. unfold remove_sibling.
  rewrite (proj2 (child_ok _ _ _ _ _ _ _ Hp)). cbn [mbind option_bind].
  pose proof (zrep_other _ _ _ _ _ _ _ Hp) as HW. destruct W as [|cw wl w wr]; [by destruct c, Hk|].
  cbn [root_ptr]. rewrite (color_ok _ _ false _ _ _ _ HW). cbn [mbind option_bind]. destruct cw; cbn [code]; [rewrite Z.eqb_refl|].
  2:{ exists s, c, false, wl, w, wr, k. split_and!; [done..|by right|done]. }
  destruct c; [by destruct Hk as (_ & ? & _)|].
  change (Node true wl w wr) with (node false true wl w wr) in *. destruct (node_dir false d true wl w wr) as (near & far & Ew). rewrite Ew in *.
  pose proof Hp as Hp'. rewrite node_flip in Hp'. destruct (blackred_ok _ _ _ _ _ _ _ _ _ _ _ Hp') as (s1 & E1 & H1). rewrite E1. cbn [mbind option_bind].
  rewrite node_flip, negb_involutive in H1. destruct (rotate_ok _ _ _ _ _ _ _ _ _ _ H1) as (s2 & E2 & H2). rewrite E2. cbn [mbind option_bind].
  apply zrep_down in H2. rewrite (proj2 (child_ok _ _ _ _ _ _ _ H2)). cbn [mbind option_bind].
  destruct Hk as [(Hn & Hf & Bn & Bf)%rbt_red Hk]. destruct near as [|[] nl x nr]; [by simpl in Hn|done|].
  exists s2, true, false, nl, x, nr, (Fr d false w far :: k). split_and!; [done|by apply zrep_down| |by left|].
  - by split_and!.
  - cbn [plug fr_side fr_red fr_addr fr_sib]. apply inorder_plug. symmetry. apply inorder_rotate.
Qed.

Lemma inner_ok s k d c p near w far t n : zrep s (Fr d c p (node d false near w far) :: k) t →
  rbt near n → rbt far n → is_redt near = true → is_redt far = false →
  ∃ s' near' x far', remove_inner d p w (root_ptr near) true s = Some (x, s') ∧
    zrep s' (Fr d c p (node d false near' x far') :: k) t ∧ rbt near' n ∧ rbt far' n ∧ is_redt far' = true ∧
    inorder (node d false near' x far') = inorder (node d false near w far).
Proof.
  intros H Hn Hf Rn Rf. unfold remove_inner. pose proof (zrep_other _ _ _ _ _ _ _ (zrep_up _ _ _ _ _ _ _ H)) as HW.
  destruct near as [|[] l x r]; try done. change (Node true l x r) with (node false true l x r) in *.
  destruct (node_dir false d true l x r) as (nl & nr & En). rewrite En in *.
  pose proof (zrep_down _ _ _ _ _ _ _ HW) as HN. rewrite root_node.
  rewrite (proj2 (Z.eqb_neq x 0)) by (by eapply zrep_nonnull).
  change CYANFS_RB_BLACK with (code false). change CYANFS_RB_RED with (code true).
  destruct (color_set_ok false _ _ _ _ _ _ _ HN) as (s1 & -> & H1). cbn [mbind option_bind]. apply zrep_up in H1.
  destruct (color_set_ok true _ _ _ _ _ _ _ H1) as (s2 & -> & H2). cbn [mbind option_bind].
  rewrite node_flip, (node_flip d false nl) in H2. destruct (rotate_ok _ _ _ _ _ _ _ _ _ _ H2) as (s3 & -> & H3). cbn [mbind option_bind].
  rewrite node_flip, negb_involutive, (node_flip (negb d) true), negb_involutive in H3.
  apply zrep_up in H3. rewrite node_flip, negb_involutive in H3. rewrite (proj2 (child_ok _ _ _ _ _ _ _ H3)). cbn [mbind option_bind].
  apply rbt_red in Hn as (Hnl & Hnr & Bl & Br). exists s3, nl, x, (node d true nr w far). rewrite root_node, is_redt_node.
  split_and!; [done|by apply zrep_down|done|by apply rbt_red|done|]. destruct d; inord.
Qed.

Lemma outer_ok s k d c t p near w far : zrep s k (node d c t p (node d false near w far)) → is_redt far = true →
  ∃ s' far', remove_outer d p w s = Some (rbh_root s', s') ∧ zrep s' k (node d c (node d false t p near) w far') ∧
    (∀ n, rbt far n → rbt far' (S n)) ∧ is_redt far' = false ∧ inorder far' = inorder far.
Proof.
  intros H Rf. unfold remove_outer. rewrite (color_ok _ _ _ _ _ _ _ H). cbn [mbind option_bind].
  change CYANFS_RB_BLACK with (code false). apply zrep_other in H.
  destruct (color_set_ok c _ _ _ _ _ _ _ H) as (s1 & -> & H1). cbn [mbind option_bind].
  apply zrep_up in H1. rewrite node_flip, negb_involutive in H1. destruct (color_set_ok false _ _ _ _ _ _ _ H1) as (s2 & -> & H2). cbn [mbind option_bind].
  apply zrep_other in H2. rewrite (proj2 (child_ok _ _ _ _ _ _ _ H2)). cbn [mbind option_bind]. apply zrep_other in H2.
  destruct far as [|[] fl y fr]; try done. cbn [root_ptr].
  rewrite (proj2 (Z.eqb_neq y 0)) by (by intros ?%(zrep_ptr_null _ _ _ H2)).
  destruct (color_set_ok false _ _ false _ _ _ _ H2) as (s3 & -> & H3). cbn [mbind option_bind].
  apply zrep_up in H3. rewrite node_flip, negb_involutive in H3. apply zrep_up in H3. rewrite node_flip, negb_involutive in H3.
  destruct (rotate_ok _ _ _ _ _ _ _ _ _ _ H3) as (s4 & -> & H4). cbn [mbind option_bind].
  exists s4, (Node false fl y fr). split_and!; [done|done| |done|done]. intros n (Hl & Hr & _). by split.
Qed.

Lemma top_ptr_elem k : ∀ p, k ≠ [] → top_ptr k p ∈ caddrs k.
Proof.
  induction k as [|f k IH]; intros p H; [done|]. simpl. destruct k as [|g k]; [simpl; set_solver|].
  specialize (IH (fr_addr f) ltac:(done)). set_solver.
Qed.
Lemma not_root s k t : zrep s k t → k ≠ [] → root_ptr t ≠ rbh_root s.
Proof.
  intros H Hk. rewrite (z_root _ _ _ H). pose proof (top_ptr_elem k (root_ptr t) Hk) as Hin. intros E. rewrite <- E in Hin.
  destruct t as [|c l a r]; simpl in *.
  - by destruct (proj1 (z_good _ _ _ H 0 Hin)).
  - pose proof (z_nodup _ _ _ H) as Hn. simpl in Hn. apply NoDup_cons in Hn as [Hn _]. set_solver.
Qed.

(** The loop stops at a red element or at the root. *)
Lemma remove_stop fuel s k t n : zrep s k t → short t n → cok k (S n) → is_redt t = true ∨ k = [] →
  ∃ e s', remove_color_loop (S fuel) (par_ptr k) (root_ptr t) s = Some (e, s') ∧ finished (inorder (plug k t)) e s'.
Proof.
  intros H Ht Hk Hstop. exists (root_ptr t), s. split.
  - apply (remove_loop_stop _ _ _ _ _ (is_black_ok _ _ _ H)). destruct Hstop as [->| ->]; [by left|right]. by rewrite (z_root _ _ _ H).
  - unfold finished. destruct t as [|c l a r]; cbn [root_ptr].
    { destruct Hstop as [?| ->]; [done|]. exists s, Leaf. split_and!; [done|done| |done]. split; [done|]. by exists n. }
    rewrite (proj2 (Z.eqb_neq a 0)) by (by intros ?%(zrep_ptr_null _ _ _ H)).
    destruct (color_set_ok false _ _ false _ _ _ _ H) as (s' & E & H'). exists s', (plug k (Node false l a r)).
    split_and!; [done|exact (proj1 (zrep_plug _ _ _) H')| |by apply inorder_plug]. unfold rb_tree. destruct c.
    + destruct (plug_rb k (Node false l a r) (S n) Hk Ht) as (m & Hm & Hb); [done|]. split; [|by exists m]. destruct k; [done|by apply Hb].
    + destruct Hstop as [?| ->]; [done|]. split; [done|]. by exists n.
Qed.

(** What [remove_case] does once the sibling is black. *)
Lemma remove_case_eq d loop p s w s1 near far bn bf :
  remove_sibling d p s = Some (w, s1) → CHILD d w s1 = Some near → CHILD (negb d) w s1 = Some far →
  is_black near s1 = Some bn → is_black far s1 = Some bf →
  remove_case d loop p s =
  if bn && bf then s2 ← CYANFS_RB_COLOR_SET w CYANFS_RB_RED s1; q ← CYANFS_RB_PARENT_GET p s2; loop q p s2
  else '(tmp, s2) ← remove_inner d p w near bf s1; remove_outer d p tmp s2.
Proof.
  intros H1 H2 H3 H4 H5. unfold remove_case. rewrite H1. cbn [mbind option_bind].
  destruct d; cbn [CHILD negb] in *; [rewrite H3; cbn [mbind option_bind]; rewrite H5; cbn [mbind option_bind]; rewrite H2; cbn [mbind option_bind]; rewrite H4; cbn [mbind option_bind]; by rewrite andb_comm|].
  rewrite H2. cbn [mbind option_bind]. rewrite H4. cbn [mbind option_bind]. rewrite H3. cbn [mbind option_bind]. by rewrite H5.
Qed.

(** The rotation that restores the black height. *)
Lemma remove_outer_done s k d c t p near w far n : zrep s (Fr d c p (node d false near w far) :: k) t →
  rbt t n → rbt near n → rbt far n → is_redt far = true → cok k (if c then S n else S (S n)) → (c = true → red_head k = false) →
  ∃ e s', remove_outer d p w s = Some (e, s') ∧ finished (inorder (plug (Fr d c p (node d false near w far) :: k) t)) e s'.
Proof.
  intros H Ht Hn Hf Rf Hk Hh. apply zrep_up in H. destruct (outer_ok _ _ _ _ _ _ _ _ _ H Rf) as (s' & far' & E & H' & Hf' & Rf' & Ei).
  exists (rbh_root s'), s'. split; [done|]. unfold finished. specialize (Hf' n Hf).
  assert (Hb : balanced_at (inorder (plug (Fr d c p (node d false near w far) :: k) t)) s').
  { exists k, (node d c (node d false t p near) w far'), (if c then S n else S (S n)). split_and!; [done| |done|by rewrite is_redt_node|].
    - destruct c; [|apply rbt_black; split; [by apply rbt_black|done]].
      apply rbt_red. rewrite is_redt_node. split_and!; [by apply rbt_black|done..].
    - cbn [plug fr_side fr_red fr_addr fr_sib]. apply inorder_plug. rewrite (inorder_rotate d c t p false near w far c false). destruct d; simpl; by rewrite Ei. }
  destruct (blacken_ok _ _ Hb) as (s2 & T & E2 & H2 & HT & EI).
  { rewrite inorder_at. cbn [lefts rights]. by destruct d, (lefts k), (inorder (node _ false near w far)), (inorder t). }
  exists s2, T. split_and!; [|done..]. rewrite (proj2 (Z.eqb_neq _ _)); [done|].
  rewrite (z_root _ _ _ H'). destruct k as [|f k].
  - cbn [top_ptr]. rewrite root_node. by eapply zrep_nonnull.
  - pose proof (top_ptr_elem (f :: k) (root_ptr (node d c (node d false t p near) w far')) ltac:(done)) as Hin.
    apply (z_good _ _ _ H'). apply elem_of_app. by right.
Qed.

Lemma remove_loop_ok fuel : ∀ s k t n, ((if is_redt t then 0 else length k) < fuel)%nat → zrep s k t → short t n → cok k (S n) →
  ∃ e s', remove_color_loop fuel (par_ptr k) (root_ptr t) s = Some (e, s') ∧ finished (inorder (plug k t)) e s'.
Proof.
  induction fuel as [|fuel IH]; intros s k t n Hf H Ht Hk; [lia|].
  destruct (is_redt t) eqn:Et; [by eapply remove_stop; eauto|].
  destruct k as [|[d c p W] k]; [by eapply remove_stop; eauto|].
  assert (Htn : rbt t n) by (by destruct t as [|[]]).
  destruct (side_ok _ _ _ _ _ _ _ H) as (pl & El & Hside); [right; intros ->; by destruct c, Hk|].
  rewrite (remove_loop_step _ _ _ _ pl); [|by rewrite (is_black_ok _ _ _ H), Et|by eapply not_root|done].
  cbn [par_ptr fr_addr]. rewrite Hside, negb_involutive.
  destruct (sibling_ok _ _ _ _ _ _ _ _ H Hk) as (s1 & c1 & d' & near0 & w & far0 & k1 & E1 & H1 & Hk1 & Hc1 & Ei). rewrite <- Ei. clear Ei.
  destruct (node_dir d' d false near0 w far0) as (near & far & En). rewrite En in *. clear d' near0 far0 En.
  pose proof (zrep_other _ _ _ _ _ _ _ (zrep_up _ _ _ _ _ _ _ H1)) as HW. destruct (child_ok _ _ _ _ _ _ _ HW) as [C1 C2].
  rewrite (remove_case_eq _ _ _ _ _ _ _ _ _ _ E1 C1 C2 (is_black_ok _ _ _ (zrep_down _ _ _ _ _ _ _ HW)) (is_black_ok _ _ _ (zrep_other _ _ _ _ _ _ _ HW))).
  assert (Hnf : (rbt near n ∧ rbt far n) ∧ cok k1 (if c1 then S n else S (S n)) ∧ (c1 = true → red_head k1 = false)).
  { destruct c1; [destruct Hk1 as (HW' & _ & ? & _ & ?)|destruct Hk1 as (HW' & ?)]; by apply rbt_black in HW'. }
  destruct Hnf as ([Hn Hfr] & Hk' & Hh). destruct (is_redt near) eqn:Rn, (is_redt far) eqn:Rf; cbn [negb andb].
  1,3: cbn [remove_inner mbind option_bind]; by eapply remove_outer_done.
  - destruct (inner_ok _ _ _ _ _ _ _ _ _ _ H1 Hn Hfr Rn Rf) as (s2 & near' & x & far' & E2 & H2 & Hn' & Hf' & Rf' & Ei). rewrite E2. cbn [mbind option_bind].
    destruct (remove_outer_done _ _ _ _ _ _ _ _ _ n H2) as (e & s' & E & HF); try done. exists e, s'. split; [done|].
    cbn [plug fr_side fr_red fr_addr fr_sib] in *. erewrite inorder_plug; [exact HF|]. destruct d; simpl in *; by rewrite Ei.
  - change CYANFS_RB_RED with (code true). destruct (color_set_ok true _ _ _ _ _ _ _ HW) as (s2 & -> & H2). cbn [mbind option_bind].
    apply zrep_up in H2. rewrite node_flip, negb_involutive in H2. rewrite (parent_ok _ _ _ _ _ _ _ H2). cbn [mbind option_bind].
    rewrite <- (root_node d c1 t p (node d true near w far)). assert (Hr : rbt (node d true near w far) n) by (by apply rbt_red).
    destruct (IH s2 k1 (node d c1 t p (node d true near w far)) (if c1 then n else S n)) as (e & s' & E & HF); [|done| |by destruct c1|].
    + rewrite is_redt_node. destruct c1; simpl in Hf; [lia|]. destruct Hc1 as [?| ->]; [done|lia].
    + destruct c1; [destruct d; simpl; by split|]. destruct d; simpl; by split.
    + exists e, s'. split; [done|]. cbn [plug fr_side fr_red fr_addr fr_sib] in *. erewrite inorder_plug; [exact HF|]. by destruct d.
Qed.
End color.

(** ** Taking an element out *)
Section unlink.
Context {m0 : gmap Z rb_entry} {A : list Z}.
Local Notation zrep := (zrep m0 A).

Lemma unlink_ok s k c l a r child : zrep s k (Node c l a r) → (l = Leaf ∧ child = r) ∨ (r = Leaf ∧ child = l) →
  ∃ s', unlink a (root_ptr child) s = Some (par_ptr k, code c, s') ∧ zrep s' k child ∧ rb_mem s' !! a = rb_mem s !! a.
Proof.
  intros H Hc. assert (Hp : addrs (Node c l a r) ++ caddrs k ≡ₚ a :: addrs child ++ caddrs k).
  { destruct Hc as [[-> ->]|[-> ->]]; simpl; [done|by rewrite app_nil_r]. }
  pose proof (z_nodup _ _ _ H) as Hnd. rewrite Hp in Hnd. rewrite NoDup_cons, NoDup_app in Hnd. destruct Hnd as (Ha & HN1 & HN2 & HN3).
  rewrite not_elem_of_app in Ha. destruct Ha as [Ha1 Ha2].
  assert (Hg : ∀ b, b ∈ a :: addrs child ++ caddrs k → good b ∧ b ∈ A) by (intros b; rewrite <- Hp; apply (z_good _ _ _ H)).
  destruct (proj1 (Hg a ltac:(set_solver))) as [Ha0 Hae].
  assert (Hr : rep (rb_mem s) a child) by (pose proof (z_rep _ _ _ H) as (_ & HL & HR); destruct Hc as [[_ ->]|[_ ->]]; done).
  unfold unlink. rewrite (parent_ok _ _ false _ _ _ _ H). cbn [mbind option_bind].
  rewrite (color_ok _ _ false _ _ _ _ H). cbn [mbind option_bind].
  destruct (set_sub_parent s a child (par_ptr k) Hr HN1 Hae) as (s1 & -> & R1 & T1 & U1); [intros b Hb; apply Hg; set_solver|].
  cbn [mbind option_bind].
  assert (HC1 : crep (rb_mem s1) k a) by (eapply crep_upd; [exact U1|set_solver|exact (z_ctx _ _ _ H)]).
  destruct (set_ctx_child s1 k a (root_ptr child) HC1) as (s2 & -> & C2 & T2 & U2);
    [rewrite T1; apply (z_root _ _ _ H)|by constructor|done|intros b Hb; apply Hg; set_solver|].
  cbn [mbind option_bind]. exists s2. pose proof (upd_trans _ _ _ _ _ U1 U2) as U. split_and!; [done| |apply U; set_solver].
  split.
  - apply NoDup_app. by split_and!.
  - intros b Hb. apply Hg. set_solver.
  - eapply rep_upd; [exact U2|set_solver|done].
  - done.
  - done.
  - intros b Hb. rewrite (upd_mem _ _ _ U); [by apply (z_frame _ _ _ H)|]. intros Hin. apply Hb, Hg. set_solver.
  - rewrite (upd_dom _ _ _ U). apply (z_dom _ _ _ H).
Qed.

Lemma transplant_nodup (a b : Z) (X Y K : list Z) : NoDup (a :: X ++ Y ++ K) → b ∉ a :: X ++ Y ++ K →
  a ≠ b ∧ (a ∉ X ∧ a ∉ Y ∧ a ∉ K) ∧ (b ∉ X ∧ b ∉ Y ∧ b ∉ K) ∧ (∀ q, q ∈ X → q ∉ Y ∧ q ∉ K) ∧ (∀ q, q ∈ Y → q ∉ X ∧ q ∉ K) ∧
  (∀ q, q ∈ K → q ∉ X ∧ q ∉ Y) ∧ NoDup X ∧ NoDup Y ∧ NoDup K.
Proof.
  rewrite !NoDup_cons, !NoDup_app. rewrite !elem_of_cons, !elem_of_app. intros H H'. decompose [and] H. clear H. split_and!; set_solver.
Qed.

Lemma transplant_ok s k c l old r m e : zrep s k (Node c l old r) → l ≠ Leaf → rb_mem s !! m = Some e → good m → m ∈ A →
  m ∉ addrs (Node c l old r) ++ caddrs k →
  ∃ s', transplant old m s = Some s' ∧ zrep s' k (Node c l m r).
Proof.
  intros H Hl He Hgm HA Hm. pose proof (z_nodup _ _ _ H) as Hnd. pose proof (zrep_par_even _ _ _ H) as Hpe.
  simpl in Hnd, Hm. rewrite <- app_assoc in Hnd, Hm.
  pose proof (transplant_nodup _ _ _ _ _ Hnd Hm) as (Hom & (Ho1 & Ho2 & Ho3) & (Hm1 & Hm2 & Hm3) & HX & HY & HK & HN1 & HN2 & HN3).
  assert (Hg : ∀ b, b ∈ old :: addrs l ++ addrs r ++ caddrs k → good b ∧ b ∈ A).
  { intros b Hb. apply (z_good _ _ _ H). simpl. rewrite <- app_assoc. done. }
  destruct (proj1 (Hg old ltac:(set_solver))) as [Ho0 Hoe].
  pose proof (z_rep _ _ _ H) as (Hmo & HL & HR). unfold transplant. rewrite Hmo. cbn [mbind option_bind].
  destruct (store_ok m (λ _, mk_rb (root_ptr l) (root_ptr r) (pack (par_ptr k) c)) s e He) as (s1 & -> & M1 & R1 & U1). cbn [mbind option_bind].
  assert (Mo1 : rb_mem s1 !! old = Some (entry false (root_ptr l) (root_ptr r) (pack (par_ptr k) c))) by (rewrite (upd_mem _ _ _ U1); [done|set_solver]).
  rewrite (parent_get _ _ _ _ _ _ _ Mo1 Hpe). cbn [mbind option_bind].
  assert (HC1 : crep (rb_mem s1) k old) by (eapply crep_upd; [exact U1|set_solver|exact (z_ctx _ _ _ H)]).
  destruct (set_ctx_child s1 k old m HC1) as (s2 & -> & C2 & R2 & U2);
    [rewrite R1; apply (z_root _ _ _ H)|by constructor|done|intros b Hb; apply Hg; set_solver|]. cbn [mbind option_bind].
  assert (Mo2 : rb_mem s2 !! old = Some (entry false (root_ptr l) (root_ptr r) (pack (par_ptr k) c))) by (by rewrite (upd_mem _ _ _ U2)).
  change CYANFS_RB_LEFT with (CHILD false). change CYANFS_RB_RIGHT with (CHILD (negb false)).
  rewrite (proj1 (child_get _ _ _ _ _ _ Mo2)). cbn [mbind option_bind]. pose proof (upd_trans _ _ _ _ _ U1 U2) as U12.
  destruct (set_sub_parent s2 old l m) as (s3 & E3 & L3 & R3 & U3);
    [eapply rep_upd; [exact U12|set_solver|done]|done|done|intros b Hb; apply Hg; set_solver|].
  rewrite (proj2 (Z.eqb_neq (root_ptr l) 0)) in E3.
  2:{ destruct l as [|cl ll la lr]; [done|]. apply (Hg la). simpl. set_solver. }
  rewrite E3. cbn [mbind option_bind].
  assert (Mo3 : rb_mem s3 !! old = Some (entry false (root_ptr l) (root_ptr r) (pack (par_ptr k) c))) by (by rewrite (upd_mem _ _ _ U3)).
  rewrite (proj2 (child_get _ _ _ _ _ _ Mo3)). cbn [mbind option_bind]. pose proof (upd_trans _ _ _ _ _ U12 U3) as U13.
  destruct (set_sub_parent s3 old r m) as (s4 & -> & L4 & R4 & U4);
    [eapply rep_upd; [exact U13|set_solver|done]|done|done|intros b Hb; apply Hg; set_solver|].
  exists s4. split; [done|]. pose proof (upd_trans _ _ _ _ _ U13 U4) as U14. pose proof (upd_trans _ _ _ _ _ U3 U4) as U34. split.
  - simpl. rewrite <- app_assoc. apply NoDup_cons in Hnd as [_ Hnd]. constructor; [set_solver|done].
  - simpl. rewrite <- app_assoc. intros b [->|Hb]%elem_of_cons; [done|]. apply Hg. set_solver.
  - simpl. split_and!; [|eapply rep_upd; [exact U4|set_solver|done]|done].
    rewrite (upd_mem _ _ _ (upd_trans _ _ _ _ _ U2 U34)); [done|set_solver].
  - cbn [root_ptr]. eapply crep_upd; [exact U34|set_solver|done].
  - cbn [root_ptr]. congruence.
  - intros b Hb. rewrite (upd_mem _ _ _ U14); [by apply (z_frame _ _ _ H)|]. specialize (Hg b). set_solver.
  - rewrite (upd_dom _ _ _ U14). apply (z_dom _ _ _ H).
Qed.
End unlink.

Section remove.
Context {m0 : gmap Z rb_entry} {A : list Z}.
Local Notation zrep := (zrep m0 A).

(** Rebalancing at the place of the element that was unlinked. *)
Lemma remove_finish s k c l a r child n : zrep s k child → (l = Leaf ∧ child = r) ∨ (r = Leaf ∧ child = l) →
  rbt (Node c l a r) n → cok k n → (c = true → k ≠ []) →
  ∃ s' T, (if code c =? CYANFS_RB_BLACK then CYANFS_RB_REMOVE_COLOR (par_ptr k) (root_ptr child) s else Some s) = Some s' ∧
    zrep s' [] T ∧ rb_tree T ∧ inorder T = inorder (plug k child).
Proof.
  intros H Hc Hn Hk Hr. destruct c; cbn [code].
  - assert (rbt child n ∧ is_redt child = false) as [Hch Hb] by (destruct Hn as (? & ? & ? & ?); by destruct Hc as [[-> ->]|[-> ->]]).
    destruct (plug_rb k child n Hk Hch) as (m & Hm & Hb'); [by rewrite Hb|].
    exists s, (plug k child). split_and!; [done|exact (proj1 (zrep_plug _ _ _) H)| |done]. split; [by apply Hb', Hr|by exists m].
  - destruct n as [|n]; [done|]. assert (Hs : short child n).
    { assert (rbt child n) as Hch by (destruct Hn as [? ?]; by destruct Hc as [[-> ->]|[-> ->]]). destruct child as [|[]]; [done| |done]. simpl in *. tauto. }
    unfold CYANFS_RB_REMOVE_COLOR. pose proof (zrep_depth _ _ _ H) as Hd.
    destruct (remove_loop_ok (rb_fuel s) s k child n ltac:(destruct (is_redt child); lia) H Hs Hk) as (e & s1 & E & s' & T & E' & HT).
    rewrite Z.eqb_refl, E. cbn [mbind option_bind]. by exists s', T.
Qed.

Lemma cok_address ks : ∀ d c a b sib k n, cok (ks ++ Fr d c a sib :: k) n → cok (ks ++ Fr d c b sib :: k) n.
Proof.
  induction ks as [|[d' [] a' sib'] ks IH]; intros d c a b sib k n; simpl; [done| |].
  - intros (H1 & H2 & H3 & H4 & H5). split_and!; [done|done|by eapply IH|by destruct ks|]. by destruct ks as [|[] ks].
  - intros [H1 H2]. split; [done|]. by eapply IH.
Qed.

(** An element with two children: its successor takes its place. *)
Lemma remove_two s k c l x r n m : zrep s k (Node c l x r) → l ≠ Leaf → r ≠ Leaf → rbt (plug k (Node c l x r)) n →
  is_redt (plug k (Node c l x r)) = false → leftmost (rb_fuel s) (root_ptr r) s = Some m →
  ∃ s' T child parent color s1 s2, CYANFS_RB_RIGHT m s = Some child ∧ unlink m child s = Some (parent, color, s1) ∧
    (∃ q, CYANFS_RB_PARENT_GET m s1 = Some q ∧ transplant x m s1 = Some s2 ∧
     (if color =? CYANFS_RB_BLACK then CYANFS_RB_REMOVE_COLOR (if q =? x then m else parent) child s2 else Some s2) = Some s') ∧
    zrep s' [] T ∧ rb_tree T ∧ inorder T = lefts k ++ inorder l ++ inorder r ++ rights k.
Proof.
  intros H Hl Hr Hn Hb Em. pose proof (zrep_other _ false _ _ _ _ _ H) as HR. destruct r as [|cr rl a rr]; [done|].
  destruct (extreme_ok false s (rb_fuel s) _ cr rl a rr ltac:(pose proof (zrep_fuel _ _ _ HR); simpl in *; lia) HR)
    as (ks & cm & m' & rm & E & Ep & Hs & Hz).
  change (extreme false) with leftmost in E. cbn [root_ptr] in Em. rewrite Em in E. injection E as <-.
  set (K := ks ++ Fr (negb false) c x l :: k) in *. cbn [node] in Ep, Hz.
  assert (HP : plug k (Node c l x (Node cr rl a rr)) = plug K (Node cm Leaf m rm)) by (unfold K; by rewrite plug_app, <- Ep).
  rewrite HP in Hn, Hb. destruct (plug_cok K _ n Hn Hb) as (n' & Hn' & HK & Hh).
  destruct (unlink_ok _ _ _ _ _ _ rm Hz (or_introl (conj eq_refl eq_refl))) as (s1 & E1 & H1 & M1).
  pose proof (zrep_node _ _ false _ _ _ _ Hz) as Mm. cbn [entry root_ptr] in Mm. rewrite <- M1 in Mm.
  pose proof (z_nodup _ _ _ Hz) as Hnd. simpl in Hnd. apply NoDup_cons in Hnd as [Hnm _].
  destruct (z_good _ _ _ Hz m ltac:(simpl; set_solver)) as [Hgm HAm].
  assert (HX : zrep s1 k (Node c l x (plug ks rm))).
  { apply (zrep_plug s1 K) in H1. unfold K in H1. rewrite plug_app in H1. by apply (zrep_plug s1 k (Node c l x (plug ks rm))). }
  destruct (transplant_ok s1 k c l x (plug ks rm) m _ HX Hl Mm Hgm HAm) as (s2 & E2 & H2).
  { intros Hin. apply Hnm. unfold K. rewrite <- (addrs_at (ks ++ Fr (negb false) c x l :: k) rm), plug_app. cbn [plug negb node fr_side fr_red fr_addr fr_sib].
    rewrite addrs_at. done. }
  set (K' := ks ++ Fr true c m l :: k).
  assert (H2' : zrep s2 K' rm) by (apply (zrep_plug s2 K'); unfold K'; rewrite plug_app; by apply (zrep_plug s2 k (Node c l m (plug ks rm)))).
  destruct (remove_finish s2 K' cm Leaf m rm rm n' H2' (or_introl (conj eq_refl eq_refl)) Hn' (cok_address _ _ _ _ _ _ _ _ HK)) as (s' & T & E3 & H3 & HT & EI);
    [by unfold K'; destruct ks|].
  exists s', T, (root_ptr rm), (par_ptr K), (code cm), s1, s2.
  split_and!; [exact (proj2 (child_ok _ _ false _ _ _ _ Hz))|done| |done|done|].
  - exists (par_ptr K). split_and!; [exact (parent_get _ _ false _ _ _ _ Mm (zrep_par_even _ _ _ Hz))|done|]. rewrite <- E3. clear E3.
    enough (Hpp : (if par_ptr K =? x then m else par_ptr K) = par_ptr K') by (by rewrite Hpp). unfold K, K'.
    destruct ks as [|[d' c' b' sib'] ks]; cbn [par_ptr app fr_addr]; [by rewrite Z.eqb_refl|].
    rewrite (proj2 (Z.eqb_neq _ _)); [done|]. intros ->. pose proof (z_nodup _ _ _ H1) as Hnd'.
    apply NoDup_app in Hnd' as (_ & _ & Hnd'). unfold K in Hnd'. simpl in Hnd'. apply NoDup_cons in Hnd' as [Hnd' _]. apply Hnd'.
    apply elem_of_app. right. clear. induction ks as [|g ks IH]; simpl; set_solver.
  - rewrite EI. unfold K'. rewrite plug_app. cbn [plug node fr_side fr_red fr_addr fr_sib]. rewrite inorder_at. cbn [inorder].
    change (inorder rl ++ a :: inorder rr) with (inorder (Node cr rl a rr)). rewrite Ep, !inorder_at, !(sides_left _ Hs). inord.
Qed.
End remove.

(** C30: removing from a tree.  REMOVE of an element of the tree leaves a
    red-black tree with the other elements in the same order, and changes no
    entry outside the tree.  The search for the successor and the rebalancing
    terminate and follow no bad pointer. *)
Theorem rb_remove_ok s l1 x l2 :
  represents s (l1 ++ x :: l2) →
  ∃ s', CYANFS_RB_REMOVE x s = Some s' ∧ represents s' (l1 ++ l2) ∧ dom (rb_mem s') = dom (rb_mem s) ∧
    ∀ a, a ∉ l1 ++ x :: l2 → rb_mem s' !! a = rb_mem s !! a.
Proof.
  intros (t & [Hb [n Hn]] & Hh & Ei). destruct (holds_at s t Hh l1 x l2 Ei) as (k & c & l & r & H & Et & E1 & E2).
  assert (Hfin : ∀ s' T, zrep (rb_mem s) (addrs t) s' [] T → rb_tree T → inorder T = l1 ++ l2 →
    represents s' (l1 ++ l2) ∧ dom (rb_mem s') = dom (rb_mem s) ∧ ∀ a, a ∉ l1 ++ x :: l2 → rb_mem s' !! a = rb_mem s !! a).
  { intros s' T HT Hrb HI. split_and!; [exists T; split_and!; [done|exact (zrep_holds _ [] _ HT)|done]|apply (z_dom _ _ _ HT)|].
    intros a Ha. apply (z_frame _ _ _ HT). by rewrite <- inorder_addrs, Ei. }
  rewrite Et in Hn, Hb. unfold CYANFS_RB_REMOVE. destruct (child_ok _ _ false _ _ _ _ H) as [C1 C2]. cbn [CHILD negb] in *.
  rewrite C1. cbn [mbind option_bind]. rewrite C2. cbn [mbind option_bind].
  assert (Hcase : (l = Leaf ∨ r = Leaf) ∨ (l ≠ Leaf ∧ r ≠ Leaf)) by (destruct l, r; auto). destruct Hcase as [Hone|[Hl Hr]].
  - assert (∃ child, ((l = Leaf ∧ child = r) ∨ (r = Leaf ∧ child = l)) ∧ (if root_ptr l =? 0 then root_ptr r else root_ptr l) = root_ptr child ∧
      (root_ptr l =? 0) || (root_ptr r =? 0) = true ∧ inorder l ++ inorder r = inorder child) as (child & Hc & -> & -> & Hio).
    { pose proof (zrep_ptr_null _ _ _ (zrep_down _ false _ _ _ _ _ H)) as N1.
      destruct l as [|cl ll la lr]; [by exists r; auto|]. destruct Hone as [?| ->]; [done|]. exists (Node cl ll la lr).
      rewrite (proj2 (Z.eqb_neq _ _)) by (by intros ?%N1). split_and!; [by right|done|done|apply app_nil_r]. }
    destruct (unlink_ok _ _ _ _ _ _ child H Hc) as (s1 & -> & H1 & _). cbn [mbind option_bind].
    destruct (plug_cok k _ n Hn Hb) as (n' & Hn' & HK & _).
    destruct (remove_finish s1 k c l x r child n' H1 Hc Hn' HK) as (s' & T & -> & HT & Hrb & HI).
    { intros -> ->. done. }
    exists s'. split; [done|]. apply (Hfin s' T); [done|done|]. rewrite HI, inorder_at, <- Hio, E1, E2. by rewrite <- !app_assoc.
  - rewrite (proj2 (Z.eqb_neq (root_ptr l) 0)), (proj2 (Z.eqb_neq (root_ptr r) 0))
      by (first [by intros ?%(zrep_ptr_null _ _ _ (zrep_down _ false _ _ _ _ _ H))|by intros ?%(zrep_ptr_null _ _ _ (zrep_other _ false _ _ _ _ _ H))]).
    cbn [orb]. pose proof (zrep_other _ false _ _ _ _ _ H) as HR. destruct r as [|cr rl a rr]; [done|].
    pose proof (leftmost_first s _ cr rl a rr (rb_fuel s) ltac:(pose proof (zrep_fuel _ _ _ HR); lia) HR) as Em.
    destruct (remove_two s k c l x (Node cr rl a rr) n _ H Hl Hr Hn Hb Em) as (s' & T & child & parent & color & s1 & s2 & F1 & F2 & (q & F3 & F4 & F5) & HT & Hrb & HI).
    cbn [root_ptr]. rewrite Em. cbn [mbind option_bind]. rewrite F1. cbn [mbind option_bind]. rewrite F2. cbn [mbind option_bind].
    rewrite F3. cbn [mbind option_bind]. rewrite F4. cbn [mbind option_bind]. exists s'. split; [done|].
    apply (Hfin s' T); [done|done|]. rewrite HI, E1, E2. by rewrite <- !app_assoc.
Qed.
