(* ===== verification/Base.v ===== *)
(** * Base: bytes, checksums, constants and extent arithmetic

    Models [core/base.h] (the little-endian put/get helpers and the CRC-32),
    the constants of [core/core.h] and the pure helpers of
    [core/internal.h]: the arithmetic between file offsets, extent ids and
    disk offsets, the validation of file sizes and the normalisation of file
    names.  A byte is a [Z] in [0..255]. *)
From Stdlib Require Import ZArith Lia Btauto.
From S2P Require Import Prelude.

(** ** Status codes ([cyanfs_status], [CYANFS_ERR_x] of [core/platform]) *)
Inductive cyanfs_err :=
  | ERR_NOMEM | ERR_INVAL | ERR_BUSY | ERR_NOENT | ERR_EXIST | ERR_NOSPACE | ERR_IO
  | ERR_PLATFORM (code : Z).

Inductive cyanfs_status := ST_OK | ST_ERR (e : cyanfs_err).

#[export] Instance cyanfs_err_eq_dec : EqDecision cyanfs_err.
Proof. solve_decision. Defined.
#[export] Instance cyanfs_status_eq_dec : EqDecision cyanfs_status.
Proof. solve_decision. Defined.

(** [if (err)] *)
Definition failed (st : cyanfs_status) : bool :=
  match st with ST_OK => false | ST_ERR _ => true end.

(** ** Constants of [core/core.h] *)
Definition CYANFS_SUPER_HEADER_SIZE : Z := 4096.
Definition CYANFS_SUPER_MAGIC : Z := 0x23032420.
Definition CYANFS_SUPER_BLOCK_SIZE : Z := 2 * CYANFS_SUPER_HEADER_SIZE.
Definition CYANFS_EXTENT_SHIFT : Z := 20.
Definition CYANFS_EXTENT_SIZE : Z := Z.shiftl 1 CYANFS_EXTENT_SHIFT.
Definition CYANFS_EXTENT_MASK : Z := CYANFS_EXTENT_SIZE - 1.
Definition CYANFS_EXTENT_INDEX_BITS : Z := 30.
Definition CYANFS_EXTENT_COUNT_MAX : Z := Z.shiftl 1 CYANFS_EXTENT_INDEX_BITS.
Definition CYANFS_EXTENT_INDEX_MAX : Z := CYANFS_EXTENT_COUNT_MAX - 1.
Definition CYANFS_FILE_MAX_SIZE : Z := Z.shiftl CYANFS_EXTENT_COUNT_MAX CYANFS_EXTENT_SHIFT.
Definition CYANFS_FILE_ALIGN_SIZE : Z := Z.shiftl 1 12.
Definition CYANFS_FILE_ALIGN_MASK : Z := CYANFS_FILE_ALIGN_SIZE - 1.

(** [#define cyanfs_extent_id_invalid (~0)], as a [cyanfs_extent_id]. *)
Definition cyanfs_extent_id_invalid : Z := U32_MAX.

(** ** Constants of [core/internal.h] *)
Definition CYANFS_EXTENT_CONTINUOUS : Z := 16.
Definition CYANFS_EXTENT_MAX_INFLIGHT : Z := 256.
Definition CYANFS_SUPER_MAX_FILES : Z := 4096.
Definition CYANFS_SUPER_MAX_INFLIGHT_JOURNAL : Z := 10000.

(** ** Bytes *)
Definition is_byte (b : Z) : Prop := 0 ≤ b < 256.

(** [cyanfs_htoleN] followed by [cyanfs_put_generic]: [n] bytes, least
    significant first. *)
Fixpoint le_bytes (n : nat) (v : Z) : list Z :=
  match n with
  | O => []
  | S n' => v mod 256 :: le_bytes n' (v / 256)
  end.

Fixpoint le_val (l : list Z) : Z :=
  match l with
  | [] => 0
  | b :: l' => b + 256 * le_val l'
  end.

Definition cyanfs_put_generic (s : list Z) : list Z := s.
Definition cyanfs_put64 (v : Z) : list Z := le_bytes 8 v.
Definition cyanfs_put32 (v : Z) : list Z := le_bytes 4 v.
Definition cyanfs_put16 (v : Z) : list Z := le_bytes 2 v.
Definition cyanfs_put8 (v : Z) : list Z := [u8 v].

(** Reading [size] bytes at the cursor and advancing it; [None] is a read
    past the end of the buffer. *)
Definition cyanfs_get_generic (size : nat) (p : list Z) : option (list Z * list Z) :=
  if decide (size ≤ length p)%nat then Some (take size p, drop size p) else None.

Definition cyanfs_get64 (p : list Z) : option (Z * list Z) :=
  '(v, p') ← cyanfs_get_generic 8 p; Some (le_val v, p').
Definition cyanfs_get32 (p : list Z) : option (Z * list Z) :=
  '(v, p') ← cyanfs_get_generic 4 p; Some (le_val v, p').
Definition cyanfs_get16 (p : list Z) : option (Z * list Z) :=
  '(v, p') ← cyanfs_get_generic 2 p; Some (le_val v, p').
Definition cyanfs_get8 (p : list Z) : option (Z * list Z) :=
  match p with [] => None | b :: p' => Some (b, p') end.

(** ** CRC-32 ([cyanfs_crc32_simple]) *)
Definition crc_bit (crc : Z) : Z :=
  Z.lxor (Z.shiftr crc 1) (if Z.land crc 1 =? 0 then 0 else 0xEDB88320).

Definition crc_byte (crc b : Z) : Z := Nat.iter 8 crc_bit (Z.lxor crc b).

Definition cyanfs_crc32_simple (crc : Z) (data : list Z) : Z := foldl crc_byte crc data.

Definition cyanfs_crc32 := cyanfs_crc32_simple.

(** ** Extent arithmetic of [core/internal.h]

    Extent [id] of a file covers the bytes
    [[cyanfs_extent_begin id, cyanfs_extent_end id)]; extent [b_id] of the
    device starts at disk offset [cyanfs_map_extent_offset b_id 0], after the
    two super block copies. *)
Definition cyanfs_extent_begin (id : Z) : Z := u64 (Z.shiftl id CYANFS_EXTENT_SHIFT).

Definition cyanfs_extent_end (id : Z) : Z := u64 (cyanfs_extent_begin id + CYANFS_EXTENT_SIZE).

Definition cyanfs_extent_from (off : Z) : Z := u32 (Z.shiftr off CYANFS_EXTENT_SHIFT).

Definition __cyanfs_file_size_validate (size : Z) : cyanfs_status :=
  let extent_count := size / CYANFS_EXTENT_SIZE in
  let extent_count :=
    if negb (size mod CYANFS_EXTENT_SIZE =? 0) then u64 (extent_count + 1) else extent_count in
  if negb (Z.land size CYANFS_FILE_ALIGN_MASK =? 0) || (CYANFS_EXTENT_COUNT_MAX <? extent_count)
  then ST_ERR ERR_INVAL else ST_OK.

Definition cyanfs_map_extent_space (f_off len : Z) : Z :=
  let extent_space := u64 (cyanfs_extent_end (cyanfs_extent_from f_off) - f_off) in
  if len <? extent_space then len else extent_space.

Definition cyanfs_map_extent_offset (b_id f_off : Z) : Z :=
  u64 (CYANFS_SUPER_BLOCK_SIZE + cyanfs_extent_begin b_id + Z.land f_off CYANFS_EXTENT_MASK).

Definition cyanfs_extent_alloc_hash (file_id f_off : Z) : Z :=
  cyanfs_crc32 U32_MAX (cyanfs_put64 file_id ++ cyanfs_put64 f_off).

Definition cyanfs_map_extent_from (b_off : Z) : Z :=
  cyanfs_extent_from (u64 (b_off - CYANFS_SUPER_BLOCK_SIZE)).

(** ** File names ([cyanfs_file_name_t]): 127 data bytes and a final byte
    [zero]; a name is the list of its 128 bytes. *)
Notation cyanfs_file_name_t := (list Z) (only parsing).

Definition CYANFS_FILE_NAME_SIZE : nat := 128.
Definition name_data (name : cyanfs_file_name_t) : list Z := take 127 name.
Definition name_zero (name : cyanfs_file_name_t) : Z := nth 127 name 0.

(** The two loops of [__cyanfs_file_name_normalize]: skip to the first NUL,
    then clear the rest of [data]. *)
Fixpoint name_clear_tail (data : list Z) : list Z :=
  match data with
  | [] => []
  | b :: data' => if b =? 0 then replicate (length data) 0 else b :: name_clear_tail data'
  end.

Definition __cyanfs_file_name_normalize (name : cyanfs_file_name_t)
    : cyanfs_status * cyanfs_file_name_t :=
  match name_data name with
  | [] => (ST_ERR ERR_INVAL, name)
  | d0 :: rest =>
      if (d0 =? 0) || negb (name_zero name =? 0) then (ST_ERR ERR_INVAL, name)
      else (ST_OK, d0 :: name_clear_tail rest ++ [0])
  end.

(** ** Lemmas: bytes *)
Lemma length_le_bytes n v : length (le_bytes n v) = n.
Proof. revert v. induction n as [|n IH]; intros v; simpl; [done|]. by rewrite IH. Qed.

Lemma le_bytes_is_byte n v : Forall is_byte (le_bytes n v).
Proof.
  revert v. induction n as [|n IH]; intros v; simpl; constructor; auto.
  apply Z.mod_pos_bound. lia.
Qed.

Lemma le_val_le_bytes n v : le_val (le_bytes n v) = v mod 256 ^ Z.of_nat n.
Proof.
  revert v. induction n as [|n IH]; intros v.
  - change (256 ^ Z.of_nat 0) with 1. by rewrite Z.mod_1_r.
  - cbn [le_bytes le_val]. rewrite IH.
    rewrite Nat2Z.inj_succ, Z.pow_succ_r by lia.
    rewrite Z.rem_mul_r by lia. lia.
Qed.

Lemma le_val_range l : Forall is_byte l → 0 ≤ le_val l < 256 ^ Z.of_nat (length l).
Proof.
  induction 1 as [|b l [? ?] Hl IH]; simpl le_val; [done|].
  rewrite length_cons, Nat2Z.inj_succ, Z.pow_succ_r by lia. lia.
Qed.

Lemma le_bytes_le_val l : Forall is_byte l → le_bytes (length l) (le_val l) = l.
Proof.
  induction 1 as [|b l [? ?] Hl IH]; [done|]. simpl. f_equal.
  - rewrite Z.mul_comm, Z.mod_add, Z.mod_small by lia. done.
  - rewrite Z.mul_comm, Z.div_add, Z.div_small by lia. done.
Qed.

Lemma get_generic_app l r n :
  length l = n → cyanfs_get_generic n (l ++ r) = Some (l, r).
Proof.
  intros <-. unfold cyanfs_get_generic. rewrite length_app.
  rewrite decide_True by lia. by rewrite take_app_length, drop_app_length.
Qed.

Lemma get64_put64 v r : 0 ≤ v ≤ U64_MAX → cyanfs_get64 (cyanfs_put64 v ++ r) = Some (v, r).
Proof.
  intros Hv. unfold cyanfs_get64, cyanfs_put64.
  rewrite get_generic_app by apply length_le_bytes. cbn [mbind option_bind].
  rewrite le_val_le_bytes, Z.mod_small; [done|]. unfold U64_MAX in Hv.
  change (256 ^ Z.of_nat 8) with 18446744073709551616. lia.
Qed.

Lemma get32_put32 v r : 0 ≤ v ≤ U32_MAX → cyanfs_get32 (cyanfs_put32 v ++ r) = Some (v, r).
Proof.
  intros Hv. unfold cyanfs_get32, cyanfs_put32.
  rewrite get_generic_app by apply length_le_bytes. cbn [mbind option_bind].
  rewrite le_val_le_bytes, Z.mod_small; [done|]. unfold U32_MAX in Hv.
  change (256 ^ Z.of_nat 4) with 4294967296. lia.
Qed.

Lemma get16_put16 v r : 0 ≤ v < 65536 → cyanfs_get16 (cyanfs_put16 v ++ r) = Some (v, r).
Proof.
  intros Hv. unfold cyanfs_get16, cyanfs_put16.
  rewrite get_generic_app by apply length_le_bytes. cbn [mbind option_bind].
  rewrite le_val_le_bytes, Z.mod_small; [done|].
  change (256 ^ Z.of_nat 2) with 65536. lia.
Qed.

Lemma get8_put8 v r : 0 ≤ v < 256 → cyanfs_get8 (cyanfs_put8 v ++ r) = Some (v, r).
Proof. intros Hv. unfold cyanfs_put8. simpl. by rewrite u8_small. Qed.

#[export] Hint Rewrite get64_put64 get32_put32 get16_put16 get8_put8 using (unfold U64_MAX, U32_MAX in *; lia) : codec.

(** ** Lemmas: CRC-32 *)
Lemma testbit_high x n k : 0 ≤ x < 2 ^ n → 0 ≤ n ≤ k → Z.testbit x k = false.
Proof.
  intros Hx Hk. rewrite <- (Z.mod_small x (2 ^ n)) by lia.
  apply Z.mod_pow2_bits_high. lia.
Qed.

Lemma lxor_range a b n : 0 ≤ n → 0 ≤ a < 2 ^ n → 0 ≤ b < 2 ^ n → 0 ≤ Z.lxor a b < 2 ^ n.
Proof.
  intros Hn Ha Hb. assert (0 ≤ Z.lxor a b) by (apply Z.lxor_nonneg; lia).
  split; [done|]. destruct (Z.eq_dec (Z.lxor a b) 0) as [->|Hz]; [lia|].
  apply Z.log2_lt_pow2; [lia|].
  destruct (Z.lt_ge_cases (Z.log2 (Z.lxor a b)) n) as [|Hge]; [done|].
  pose proof (Z.bit_log2 (Z.lxor a b) ltac:(lia)) as Hbit.
  rewrite Z.lxor_spec in Hbit.
  rewrite (testbit_high a n), (testbit_high b n) in Hbit by lia. done.
Qed.

Lemma crc_bit_odd crc : crc_bit crc =
  Z.lxor (Z.shiftr crc 1) (if Z.testbit crc 0 then 0xEDB88320 else 0).
Proof.
  unfold crc_bit. f_equal.
  change 1 with (Z.ones 1). rewrite Z.land_ones by lia. change (2 ^ 1) with 2.
  rewrite Zmod_odd, Z.bit0_odd. by destruct (Z.odd crc).
Qed.

Lemma crc_bit_range crc : 0 ≤ crc < 2 ^ 32 → 0 ≤ crc_bit crc < 2 ^ 32.
Proof.
  intros H. rewrite crc_bit_odd. apply lxor_range; [lia| |by destruct (Z.testbit _ _)].
  rewrite Z.shiftr_div_pow2 by lia. change (2 ^ 1) with 2.
  split; [apply Z.div_pos; lia|]. apply Z.div_lt_upper_bound; lia.
Qed.

(** The generator polynomial has its top bit set, so the bit shifted out can
    be recovered: one step is invertible. *)
Lemma crc_bit_inj a b :
  0 ≤ a < 2 ^ 32 → 0 ≤ b < 2 ^ 32 → crc_bit a = crc_bit b → a = b.
Proof.
  intros Ha Hb E. rewrite !crc_bit_odd in E.
  assert (H31 : ∀ x, 0 ≤ x < 2 ^ 32 → Z.testbit (Z.shiftr x 1) 31 = false).
  { intros x Hx. rewrite Z.shiftr_spec by lia. apply (testbit_high x 32); lia. }
  assert (H0 : Z.testbit a 0 = Z.testbit b 0).
  { apply (f_equal (λ x, Z.testbit x 31)) in E. rewrite !Z.lxor_spec, !H31 in E by done.
    by destruct (Z.testbit a 0), (Z.testbit b 0). }
  rewrite H0 in E.
  assert (Hs : Z.shiftr a 1 = Z.shiftr b 1).
  { apply (f_equal (λ x, Z.lxor x (if Z.testbit b 0 then 0xEDB88320 else 0))) in E.
    by rewrite !Z.lxor_assoc, !Z.lxor_nilpotent, !Z.lxor_0_r in E. }
  apply Z.bits_inj'. intros n Hn. destruct (Z.eq_dec n 0) as [->|]; [done|].
  replace n with ((n - 1) + 1) by lia.
  rewrite <- !Z.shiftr_spec by lia. by rewrite Hs.
Qed.

Lemma iter_crc_bit n a b :
  0 ≤ a < 2 ^ 32 → 0 ≤ b < 2 ^ 32 →
  (0 ≤ Nat.iter n crc_bit a < 2 ^ 32) ∧
  (Nat.iter n crc_bit a = Nat.iter n crc_bit b → a = b).
Proof.
  intros Ha Hb.
  assert (Hr : ∀ x, 0 ≤ x < 2 ^ 32 → 0 ≤ Nat.iter n crc_bit x < 2 ^ 32).
  { intros x Hx. induction n as [|n IH]; simpl; [done|]. by apply crc_bit_range. }
  split; [by apply Hr|]. clear Hr. induction n as [|n IH]; simpl; [done|].
  intros E. apply IH, crc_bit_inj; [| |done].
  - clear -Ha. induction n as [|n IH]; simpl; [done|]. by apply crc_bit_range.
  - clear -Hb. induction n as [|n IH]; simpl; [done|]. by apply crc_bit_range.
Qed.

Lemma crc_byte_range crc b : 0 ≤ crc < 2 ^ 32 → is_byte b → 0 ≤ crc_byte crc b < 2 ^ 32.
Proof.
  intros Hc Hb. unfold crc_byte. assert (0 ≤ Z.lxor crc b < 2 ^ 32).
  { apply lxor_range; unfold is_byte in Hb; lia. }
  by apply (iter_crc_bit 8 (Z.lxor crc b) (Z.lxor crc b)).
Qed.

Lemma lxor_cancel_l x y z : Z.lxor x y = Z.lxor x z → y = z.
Proof.
  intros E. apply (f_equal (Z.lxor x)) in E.
  by rewrite <- !Z.lxor_assoc, !Z.lxor_nilpotent, !Z.lxor_0_l in E.
Qed.

Lemma crc_byte_inj_l c c' b :
  0 ≤ c < 2 ^ 32 → 0 ≤ c' < 2 ^ 32 → is_byte b → crc_byte c b = crc_byte c' b → c = c'.
Proof.
  unfold crc_byte, is_byte. intros Hc Hc' Hb E. apply iter_crc_bit in E.
  - rewrite !(Z.lxor_comm _ b) in E. by apply lxor_cancel_l in E.
  - apply lxor_range; lia.
  - apply lxor_range; lia.
Qed.

Lemma crc_byte_inj_r c b b' :
  0 ≤ c < 2 ^ 32 → is_byte b → is_byte b' → crc_byte c b = crc_byte c b' → b = b'.
Proof.
  unfold crc_byte, is_byte. intros Hc Hb Hb' E. apply iter_crc_bit in E.
  - by apply lxor_cancel_l in E.
  - apply lxor_range; lia.
  - apply lxor_range; lia.
Qed.

Lemma crc32_range crc data :
  0 ≤ crc < 2 ^ 32 → Forall is_byte data → 0 ≤ cyanfs_crc32 crc data < 2 ^ 32.
Proof.
  intros Hc Hd. unfold cyanfs_crc32, cyanfs_crc32_simple. revert crc Hc.
  induction Hd as [|b data Hb Hd IH]; intros crc Hc; simpl; [done|].
  by apply IH, crc_byte_range.
Qed.

Lemma crc32_inj_init c c' data :
  0 ≤ c < 2 ^ 32 → 0 ≤ c' < 2 ^ 32 → Forall is_byte data →
  cyanfs_crc32 c data = cyanfs_crc32 c' data → c = c'.
Proof.
  intros Hc Hc' Hd. unfold cyanfs_crc32, cyanfs_crc32_simple. revert c c' Hc Hc'.
  induction Hd as [|b data Hb Hd IH]; intros c c' Hc Hc' E; simpl in E; [done|].
  apply IH in E; [|by apply crc_byte_range..]. by apply crc_byte_inj_l in E.
Qed.

(** The checksum of a record distinguishes any two contents that differ in a
    single byte, whatever the byte and wherever it is. *)
Theorem crc32_detects_byte crc l1 l2 b b' :
  0 ≤ crc < 2 ^ 32 → Forall is_byte l1 → Forall is_byte l2 → is_byte b → is_byte b' → b ≠ b' →
  cyanfs_crc32 crc (l1 ++ b :: l2) ≠ cyanfs_crc32 crc (l1 ++ b' :: l2).
Proof.
  intros Hc H1 H2 Hb Hb' Hne E. unfold cyanfs_crc32, cyanfs_crc32_simple in E.
  rewrite !foldl_app in E. simpl in E.
  assert (0 ≤ foldl crc_byte crc l1 < 2 ^ 32) by by apply crc32_range.
  apply crc32_inj_init in E; [|by apply crc_byte_range..|done].
  by apply crc_byte_inj_r in E.
Qed.

(** ** Lemmas: extent arithmetic *)
Ltac extent_consts :=
  change CYANFS_SUPER_BLOCK_SIZE with 8192 in *;
  change CYANFS_SUPER_HEADER_SIZE with 4096 in *;
  change CYANFS_EXTENT_SIZE with 1048576 in *;
  change CYANFS_EXTENT_MASK with 1048575 in *;
  change CYANFS_EXTENT_SHIFT with 20 in *;
  change CYANFS_EXTENT_INDEX_MAX with 1073741823 in *;
  change CYANFS_EXTENT_COUNT_MAX with 1073741824 in *;
  change CYANFS_FILE_MAX_SIZE with 1125899906842624 in *;
  change CYANFS_FILE_ALIGN_MASK with 4095 in *;
  change CYANFS_FILE_ALIGN_SIZE with 4096 in *.

Lemma extent_begin_eq id : 0 ≤ id < 4294967296 → cyanfs_extent_begin id = 1048576 * id.
Proof.
  intros H. unfold cyanfs_extent_begin. extent_consts.
  rewrite Z.shiftl_mul_pow2 by lia. change (2 ^ 20) with 1048576.
  rewrite u64_small by lia. lia.
Qed.

Lemma extent_end_eq id : 0 ≤ id < 4294967296 → cyanfs_extent_end id = 1048576 * (id + 1).
Proof.
  intros H. unfold cyanfs_extent_end. rewrite extent_begin_eq by done. extent_consts.
  rewrite u64_small by lia. lia.
Qed.

Lemma extent_from_eq off : 0 ≤ off < 2 ^ 52 → cyanfs_extent_from off = off / 1048576.
Proof.
  intros H. unfold cyanfs_extent_from. extent_consts. rewrite Z.shiftr_div_pow2 by lia.
  change (2 ^ 20) with 1048576. apply u32_small.
  split; [apply Z.div_pos; lia|]. apply Z.div_lt_upper_bound; lia.
Qed.

Lemma extent_from_begin id : 0 ≤ id < 4294967296 → cyanfs_extent_from (cyanfs_extent_begin id) = id.
Proof.
  intros H. rewrite extent_begin_eq by done. rewrite extent_from_eq by lia.
  by rewrite Z.mul_comm, Z.div_mul by lia.
Qed.

Lemma land_mask x n : 0 ≤ n → Z.land x (2 ^ n - 1) = x mod 2 ^ n.
Proof. intros Hn. rewrite <- (Z.land_ones x n) by done. by rewrite Z.ones_equiv, <- Z.sub_1_r. Qed.

Lemma land_extent_mask x : Z.land x CYANFS_EXTENT_MASK = x mod 1048576.
Proof. apply (land_mask x 20). lia. Qed.

Lemma land_align_mask x : Z.land x CYANFS_FILE_ALIGN_MASK = x mod 4096.
Proof. apply (land_mask x 12). lia. Qed.

Lemma map_extent_offset_eq b f_off :
  0 ≤ b < 4294967296 →
  cyanfs_map_extent_offset b f_off = 8192 + 1048576 * b + f_off mod 1048576.
Proof.
  intros Hb. unfold cyanfs_map_extent_offset.
  rewrite land_extent_mask, extent_begin_eq by done. extent_consts.
  pose proof (Z.mod_pos_bound f_off 1048576). apply u64_small. lia.
Qed.

Lemma map_extent_space_eq f_off len :
  0 ≤ f_off < 2 ^ 52 → cyanfs_map_extent_space f_off len = Z.min len (1048576 - f_off mod 1048576).
Proof.
  intros Hf. unfold cyanfs_map_extent_space.
  pose proof (Z.div_mod f_off 1048576 ltac:(lia)).
  pose proof (Z.mod_pos_bound f_off 1048576 ltac:(lia)).
  assert (0 ≤ f_off / 1048576 < 4294967296).
  { split; [apply Z.div_pos; lia|]. apply Z.div_lt_upper_bound; lia. }
  rewrite extent_from_eq, extent_end_eq by done.
  rewrite u64_small by lia. case_bool; lia.
Qed.

(** Splitting an IO at extent boundaries.  The piece handled by one iteration
    is not empty, stays inside the extent of its first byte, and is the whole
    request only when that fits. *)
Theorem map_extent_space_spec f_off len :
  0 ≤ f_off < 2 ^ 52 → 0 < len →
  let l := cyanfs_map_extent_space f_off len in
  0 < l ≤ len ∧ l ≤ CYANFS_EXTENT_SIZE ∧
  (∀ o, f_off ≤ o < f_off + l → cyanfs_extent_from o = cyanfs_extent_from f_off) ∧
  (l = len ∨ f_off + l = cyanfs_extent_end (cyanfs_extent_from f_off)).
Proof.
  intros Hf Hlen l. subst l. rewrite map_extent_space_eq by done.
  pose proof (Z.div_mod f_off 1048576 ltac:(lia)).
  pose proof (Z.mod_pos_bound f_off 1048576 ltac:(lia)).
  assert (0 ≤ f_off / 1048576 < 4294967296).
  { split; [apply Z.div_pos; lia|]. apply Z.div_lt_upper_bound; lia. }
  assert (0 ≤ f_off / 1048576 < 4294967296) by done.
  rewrite (extent_from_eq f_off) by done. rewrite extent_end_eq by done. extent_consts.
  split_and!; [lia..| |lia].
  intros o Ho. assert (o < 2 ^ 52) by lia.
  rewrite extent_from_eq by lia. symmetry. apply (Z.div_unique_pos _ _ _ (o - 1048576 * (f_off / 1048576))); lia.
Qed.

(** C29: distinct device extents are disjoint byte ranges of the disk, they lie
    after the super block copies, and those below [total_extents] lie inside
    the device. *)
Theorem map_extent_offset_disjoint b b' o o' size :
  8192 ≤ size < 2 ^ 60 → 0 ≤ b < cyanfs_extent_from (size - CYANFS_SUPER_BLOCK_SIZE) →
  0 ≤ b' < cyanfs_extent_from (size - CYANFS_SUPER_BLOCK_SIZE) →
  let d := cyanfs_map_extent_offset b o in
  CYANFS_SUPER_BLOCK_SIZE ≤ d < size ∧
  (d = cyanfs_map_extent_offset b' o' → b = b' ∧ o mod CYANFS_EXTENT_SIZE = o' mod CYANFS_EXTENT_SIZE) ∧
  cyanfs_map_extent_from d = b.
Proof.
  intros Hs Hb Hb' d. subst d. extent_consts.
  pose proof (u32_range (Z.shiftr (size - 8192) 20)) as Hr. unfold cyanfs_extent_from in Hb, Hb'.
  extent_consts.
  assert (Hle : u32 (Z.shiftr (size - 8192) 20) ≤ (size - 8192) / 1048576).
  { rewrite Z.shiftr_div_pow2 by lia. change (2 ^ 20) with 1048576.
    apply Z.mod_le; [apply Z.div_pos; lia|lia]. }
  pose proof (Z.mul_div_le (size - 8192) 1048576 ltac:(lia)).
  rewrite !map_extent_offset_eq by lia.
  pose proof (Z.mod_pos_bound o 1048576 ltac:(lia)).
  pose proof (Z.mod_pos_bound o' 1048576 ltac:(lia)).
  split_and!; [lia|lia|intros; lia|].
  unfold cyanfs_map_extent_from. extent_consts. rewrite u64_small by lia.
  replace (8192 + 1048576 * b + o mod 1048576 - 8192) with (1048576 * b + o mod 1048576) by lia.
  rewrite extent_from_eq by lia. symmetry. apply (Z.div_unique_pos _ _ _ (o mod 1048576)); lia.
Qed.

Lemma map_extent_space_spec_witness :
  cyanfs_map_extent_space 1048570 100 = 6 ∧ 0 < cyanfs_map_extent_space 1048570 100 ≤ 100.
Proof. split; [reflexivity|]. apply (map_extent_space_spec 1048570 100); lia. Defined.

Lemma map_extent_offset_disjoint_witness :
  cyanfs_map_extent_offset 2 5 = 2105349 ∧ cyanfs_map_extent_from (cyanfs_map_extent_offset 2 5) = 2.
Proof. split; [reflexivity|]. apply (map_extent_offset_disjoint 2 3 5 5 104857600); split; vm_compute; congruence. Defined.

(** A file size is accepted exactly when it is a multiple of 4096 and needs at
    most [CYANFS_EXTENT_COUNT_MAX] extents. *)
Theorem file_size_validate_spec size :
  0 ≤ size ≤ U64_MAX →
  (__cyanfs_file_size_validate size = ST_OK ↔
   size mod CYANFS_FILE_ALIGN_SIZE = 0 ∧ size ≤ CYANFS_FILE_MAX_SIZE).
Proof.
  intros Hs. unfold U64_MAX in Hs. unfold __cyanfs_file_size_validate.
  rewrite land_align_mask. extent_consts.
  pose proof (Z.div_mod size 1048576 ltac:(lia)).
  pose proof (Z.mod_pos_bound size 1048576 ltac:(lia)).
  assert (0 ≤ size / 1048576 < 17592186044416).
  { split; [apply Z.div_pos; lia|]. apply Z.div_lt_upper_bound; lia. }
  rewrite u64_small by lia.
  destruct (Z.eqb_spec (size mod 1048576) 0); repeat case_bool; cbn [negb orb] in *;
    split; intros; first [done | lia].
Qed.

Lemma size_ok_range size :
  0 ≤ size ≤ U64_MAX → __cyanfs_file_size_validate size = ST_OK → 0 ≤ size ≤ 1125899906842624.
Proof. intros H1 H2. apply file_size_validate_spec in H2; [|done]. extent_consts. lia. Qed.

(** ** Lemmas: file names *)
Definition is_name (name : cyanfs_file_name_t) : Prop :=
  length name = CYANFS_FILE_NAME_SIZE ∧ Forall is_byte name.

(** A normalised name: its first byte is not NUL and nothing follows the
    first NUL, so two names are equal exactly when they are equal as C
    strings. *)
Definition name_normal (name : cyanfs_file_name_t) : Prop :=
  is_name name ∧ ∃ s k, name = s ++ replicate k 0 ∧ s ≠ [] ∧ (0 < k)%nat ∧ Forall (λ b, b ≠ 0) s.

Fixpoint c_string (l : list Z) : list Z :=
  match l with
  | [] => []
  | b :: l' => if b =? 0 then [] else b :: c_string l'
  end.

Lemma name_clear_tail_spec l :
  ∃ k, name_clear_tail l = c_string l ++ replicate k 0 ∧
       length (name_clear_tail l) = length l.
Proof.
  induction l as [|b l IH]; simpl; [by exists 0%nat|].
  destruct (Z.eqb_spec b 0) as [->|Hb].
  - exists (S (length l)). simpl. by rewrite length_replicate.
  - destruct IH as (k & E & Hl). exists k. simpl. by rewrite <- E, Hl.
Qed.

Lemma c_string_nonzero l : Forall (λ b, b ≠ 0) (c_string l).
Proof.
  induction l as [|b l IH]; simpl; [constructor|].
  destruct (Z.eqb_spec b 0); [constructor|]. by constructor.
Qed.

Lemma c_string_bytes l : Forall is_byte l → Forall is_byte (c_string l).
Proof.
  induction 1 as [|b l Hb Hl IH]; simpl; [constructor|].
  destruct (Z.eqb_spec b 0); [constructor|]. by constructor.
Qed.

Lemma c_string_app_zeros s k :
  Forall (λ b, b ≠ 0) s → (0 < k)%nat → c_string (s ++ replicate k 0) = s.
Proof.
  intros Hs Hk. induction Hs as [|b s Hb Hs IH]; simpl.
  - destruct k; [lia|]. done.
  - destruct (Z.eqb_spec b 0); [done|]. by rewrite IH.
Qed.

Lemma is_name_split name :
  is_name name → ∃ d0 rest z, name = d0 :: rest ++ [z] ∧ length rest = 126%nat ∧
    name_data name = d0 :: rest ∧ name_zero name = z.
Proof.
  intros [Hl _]. unfold CYANFS_FILE_NAME_SIZE in Hl.
  destruct name as [|d0 t]; [done|]. simpl in Hl.
  assert (t ≠ []) by (intros ->; done).
  destruct (exists_last H) as (rest & z & ->). rewrite length_app in Hl. simpl in Hl.
  assert (Hr : length rest = 126%nat) by lia. exists d0, rest, z. split_and!; [done|done| |].
  - unfold name_data. rewrite firstn_cons. f_equal. rewrite take_app_le by lia.
    apply take_ge. lia.
  - unfold name_zero. change (nth 127 (d0 :: rest ++ [z]) 0) with (nth 126 (rest ++ [z]) 0).
    rewrite app_nth2 by lia. by rewrite Hr.
Qed.

(** [__cyanfs_file_name_normalize] succeeds exactly on a non-empty name whose
    last byte is NUL; it then yields a normalised name that is the same C
    string, and it fails without touching the name. *)
Theorem name_normalize_spec name :
  is_name name →
  match __cyanfs_file_name_normalize name with
  | (ST_OK, name') =>
      name_normal name' ∧ c_string name' = c_string name ∧
      (name_normal name → name' = name)
  | (ST_ERR e, name') =>
      e = ERR_INVAL ∧ name' = name ∧ (c_string name = [] ∨ name_zero name ≠ 0)
  end.
Proof.
  intros Hn. destruct (is_name_split name Hn) as (d0 & rest & z & E & Hr & Hd & Hz).
  unfold __cyanfs_file_name_normalize. rewrite Hd, Hz.
  destruct (Z.eqb_spec d0 0) as [->|H0]; simpl.
  { split_and!; [done|done|]. left. by rewrite E. }
  destruct (Z.eqb_spec z 0) as [->|Hz0]; simpl; [|by auto].
  destruct (name_clear_tail_spec rest) as (k & Ek & Hk).
  destruct Hn as [Hlen Hb]. rewrite E in Hb. apply Forall_cons in Hb as [Hb0 Hb].
  apply Forall_app in Hb as [Hb _].
  assert (E' : d0 :: name_clear_tail rest ++ [0] = (d0 :: c_string rest) ++ replicate (k + 1) 0).
  { rewrite Ek, <- app_assoc. simpl. by rewrite replicate_add. }
  assert (Hc : c_string name = d0 :: c_string rest).
  { rewrite E. simpl. destruct (Z.eqb_spec d0 0); [done|]. f_equal. clear.
    induction rest as [|b rest IH]; simpl; [done|]. by rewrite IH. }
  assert (Hne : Forall (λ b, b ≠ 0) (d0 :: c_string rest)).
  { constructor; [done|]. apply c_string_nonzero. }
  split_and!.
  - split; [split|].
    + simpl. rewrite length_app, Hk, Hr. done.
    + rewrite E'. apply Forall_app. split; [constructor; auto using c_string_bytes|].
      apply Forall_replicate. unfold is_byte. lia.
    + exists (d0 :: c_string rest), (k + 1)%nat. split_and!; [done|done|lia|done].
  - change (c_string (d0 :: name_clear_tail rest ++ [0]) = c_string name).
    rewrite E', Hc. apply c_string_app_zeros; [done|lia].
  - intros [_ (s & k' & Es & Hs & Hk' & Hnz)].
    rewrite Es in Hc. rewrite c_string_app_zeros in Hc by done. subst s.
    rewrite E', Es. f_equal. f_equal.
    apply (f_equal length) in E', Es. rewrite Hlen in Es.
    rewrite !length_app, !length_replicate in *. simpl in *.
    rewrite length_app, Hk, Hr in E'. unfold CYANFS_FILE_NAME_SIZE in Es. simpl in E'. lia.
Qed.

(** Normalised names are equal exactly when they are the same C string, so
    the [memcmp] order of the name tree identifies names correctly. *)
Lemma name_normal_c_string name name' :
  name_normal name → name_normal name' → c_string name = c_string name' → name = name'.
Proof.
  intros [[Hl _] (s & k & -> & _ & Hk & Hs)] [[Hl' _] (s' & k' & -> & _ & Hk' & Hs')] E.
  rewrite !c_string_app_zeros in E by done. subst s'.
  rewrite length_app, length_replicate in *. f_equal. f_equal. lia.
Qed.

(** A name with the given characters, padded with NUL bytes: the names of the
    concrete examples. *)
Definition short_name (s : list Z) : cyanfs_file_name_t := s ++ replicate (128 - length s) 0.

Lemma short_name_normal s :
  (0 < length s < 128)%nat → Forall (λ b, 0 < b < 256) s → name_normal (short_name s).
Proof.
  intros Hl Hs. unfold short_name. split.
  - split; [rewrite length_app, length_replicate; unfold CYANFS_FILE_NAME_SIZE; lia|].
    apply Forall_app. split; [|by apply Forall_replicate].
    eapply Forall_impl; [done|]. unfold is_byte. simpl. lia.
  - exists s, (128 - length s)%nat. split_and!; [done| |lia|].
    + by intros ->; simpl in Hl; lia.
    + eapply Forall_impl; [done|]. simpl. lia.
Qed.
