(* ===== verification/Disk.v ===== *)
(** * Disk: the device

    The contents of a device as a function from offsets to bytes, with the
    I/O the executor carries out for the tasks of the instance. *)
From Stdlib Require Import ZArith Lia.
From S2P Require Import Prelude Base.

Definition disk := Z → Z.

(** The [n] offsets from [off] on. *)
Fixpoint offsets (n : nat) (off : Z) : list Z :=
  match n with
  | O => []
  | S n => off :: offsets n (off + 1)
  end.

Definition disk_read (d : disk) (off len : Z) : list Z := d <$> offsets (Z.to_nat len) off.

Definition overlay (off : Z) (data : list Z) : gmap Z Z :=
  list_to_map (zip (offsets (length data) off) data).

Definition disk_write (d : disk) (off : Z) (data : list Z) : disk :=
  let m := overlay off data in λ x, match m !! x with Some b => b | None => d x end.

Definition disk_copy (d : disk) (src dst len : Z) : disk :=
  λ x, if (dst <=? x) && (x <? dst + len) then d (x - dst + src) else d x.

(** ** Lemmas *)

(** Devices with the same bytes. *)
#[export] Instance disk_equiv : Equiv disk := λ d d', ∀ x, d x = d' x.

#[export] Instance disk_equivalence : Equivalence (≡@{disk}).
Proof. split; [by intros d x|by intros d d' H x|intros d1 d2 d3 H1 H2 x; by rewrite H1]. Qed.

(** Only the [len] bytes from [off] on may differ. *)
Definition same_outside (off len : Z) (d d' : disk) : Prop := ∀ x, x < off ∨ off + len ≤ x → d' x = d x.

#[export] Instance disk_read_proper : Proper ((≡@{disk}) ==> eq ==> eq ==> eq) disk_read.
Proof. intros d d' H off ? <- len ? <-. unfold disk_read. apply list_fmap_ext. intros i x _. apply H. Qed.

#[export] Instance disk_write_proper : Proper ((≡@{disk}) ==> eq ==> eq ==> (≡)) disk_write.
Proof. intros d d' H off ? <- data ? <- x. unfold disk_write. destruct (overlay off data !! x); [done|apply H]. Qed.

#[export] Instance disk_copy_proper : Proper ((≡@{disk}) ==> eq ==> eq ==> eq ==> (≡)) disk_copy.
Proof. intros d d' H src ? <- dst ? <- len ? <- x. unfold disk_copy. destruct (_ && _); apply H. Qed.

Definition disk_bytes (d : disk) : Prop := ∀ x, is_byte (d x).

Lemma length_offsets n off : length (offsets n off) = n.
Proof. revert off. induction n as [|n IH]; intros off; simpl; [done|]. by rewrite IH. Qed.

Lemma elem_of_offsets n off x : x ∈ offsets n off ↔ off ≤ x < off + Z.of_nat n.
Proof.
  revert off. induction n as [|n IH]; intros off; cbn [offsets].
  - rewrite elem_of_nil. lia.
  - rewrite elem_of_cons, IH. lia.
Qed.

Lemma offsets_app n m off : offsets (n + m) off = offsets n off ++ offsets m (off + Z.of_nat n).
Proof.
  revert off. induction n as [|n IH]; intros off; cbn [offsets Nat.add app]; [by rewrite Z.add_0_r|].
  rewrite IH. do 3 f_equal. lia.
Qed.

Lemma length_disk_read d off len : length (disk_read d off len) = Z.to_nat len.
Proof. unfold disk_read. by rewrite length_fmap, length_offsets. Qed.

Lemma disk_read_none d off len : len ≤ 0 → disk_read d off len = [].
Proof. intros Hl. unfold disk_read. by replace (Z.to_nat len) with 0%nat by lia. Qed.

Lemma disk_read_bytes d off len : disk_bytes d → Forall is_byte (disk_read d off len).
Proof. intros Hd. unfold disk_read. rewrite Forall_fmap. apply Forall_true. intros x. apply Hd. Qed.

Lemma disk_read_split d off n m :
  0 ≤ n → 0 ≤ m → disk_read d off (n + m) = disk_read d off n ++ disk_read d (off + n) m.
Proof.
  intros Hn Hm. unfold disk_read. rewrite Z2Nat.inj_add, offsets_app, fmap_app by done. by rewrite Z2Nat.id by done.
Qed.

(** Reading in the middle of a longer range. *)
Lemma disk_read_sub d off len o n :
  0 ≤ o → 0 ≤ n → o + n ≤ len → take (Z.to_nat n) (drop (Z.to_nat o) (disk_read d off len)) = disk_read d (off + o) n.
Proof.
  intros Ho Hn Hl. replace len with (o + (n + (len - o - n))) by lia. rewrite !disk_read_split by lia.
  rewrite drop_app_length' by (by rewrite length_disk_read). by rewrite take_app_length' by (by rewrite length_disk_read).
Qed.

(** The bytes of an extent. *)
Definition disk_extent (d : disk) (id : Z) : list Z := disk_read d (cyanfs_map_extent_offset id 0) CYANFS_EXTENT_SIZE.

Lemma disk_extent_ok d id :
  disk_bytes d → length (disk_extent d id) = Z.to_nat CYANFS_EXTENT_SIZE ∧ Forall is_byte (disk_extent d id).
Proof. intros Hd. split; [apply length_disk_read|by apply disk_read_bytes]. Qed.

Lemma disk_extent_read d id off n :
  0 ≤ id < CYANFS_EXTENT_COUNT_MAX → 0 ≤ off < CYANFS_EXTENT_SIZE → 0 ≤ n → off + n ≤ CYANFS_EXTENT_SIZE →
  disk_read d (cyanfs_map_extent_offset id off) n = take (Z.to_nat n) (drop (Z.to_nat off) (disk_extent d id)).
Proof.
  intros Hid Ho Hn Hl. unfold disk_extent. rewrite disk_read_sub by lia. f_equal.
  change CYANFS_EXTENT_COUNT_MAX with 1073741824 in *. change CYANFS_EXTENT_SIZE with 1048576 in *.
  rewrite !map_extent_offset_eq by lia. rewrite !Z.mod_small by lia. lia.
Qed.

(** ** Writing *)
Lemma disk_write_cons d off b data x :
  disk_write d off (b :: data) x = if decide (x = off) then b else disk_write d (off + 1) data x.
Proof.
  unfold disk_write, overlay. cbn [length offsets zip zip_with list_to_map foldr uncurry]. case_decide as E.
  - subst x. by rewrite lookup_insert_eq.
  - by rewrite lookup_insert_ne.
Qed.

(** A byte of the result depends on the same byte of the device. *)
Lemma disk_write_at_ext d d' off data x : d' x = d x → disk_write d' off data x = disk_write d off data x.
Proof. intros Hx. unfold disk_write. by destruct (overlay off data !! x). Qed.

Lemma disk_write_out d off data x : (x < off ∨ off + Z.of_nat (length data) ≤ x) → disk_write d off data x = d x.
Proof.
  revert off. induction data as [|b data IH]; intros off Hx; [done|]. cbn [length] in Hx.
  rewrite disk_write_cons, decide_False by lia. apply IH. lia.
Qed.

Lemma disk_write_app d off a b :
  disk_write (disk_write d off a) (off + Z.of_nat (length a)) b ≡ disk_write d off (a ++ b).
Proof.
  intros x. revert off. induction a as [|v a IH]; intros off; [cbn [length app]; f_equal; lia|]. cbn [length app].
  rewrite disk_write_cons. destruct (decide (x = off)) as [->|Hne].
  - rewrite disk_write_out by lia. by rewrite disk_write_cons, decide_True.
  - rewrite <- IH. rewrite <- (Z.add_assoc off 1). replace (1 + Z.of_nat (length a)) with (Z.of_nat (S (length a))) by lia.
    apply disk_write_at_ext. by rewrite disk_write_cons, decide_False.
Qed.

Lemma disk_read_ext d d' off n : (∀ x, off ≤ x < off + n → d' x = d x) → 0 ≤ n → disk_read d' off n = disk_read d off n.
Proof.
  intros He Hn. unfold disk_read. apply list_fmap_ext. intros i x Hx. apply list_elem_of_lookup_2, elem_of_offsets in Hx.
  apply He. lia.
Qed.

Lemma disk_write_in d off data : disk_read (disk_write d off data) off (Z.of_nat (length data)) = data.
Proof.
  unfold disk_read. rewrite Nat2Z.id. revert d off. induction data as [|b data IH]; intros d off; [done|].
  cbn [length offsets fmap list_fmap]. rewrite disk_write_cons, decide_True by done. f_equal.
  etransitivity; [|apply (IH d (off + 1))]. apply list_fmap_ext. intros i x Hx.
  apply list_elem_of_lookup_2, elem_of_offsets in Hx. by rewrite disk_write_cons, decide_False by lia.
Qed.

(** A copy reads the source and writes the destination. *)
Lemma disk_copy_write d src dst len : disk_write d dst (disk_read d src len) ≡ disk_copy d src dst len.
Proof.
  intros x. unfold disk_copy. destruct (Z.leb_spec dst x); [destruct (Z.ltb_spec x (dst + len))|]; cbn [andb];
    [|apply disk_write_out; rewrite length_disk_read; lia..].
  replace len with ((x - dst) + (1 + (len - (x - dst) - 1))) by lia. rewrite !disk_read_split by lia.
  rewrite <- !disk_write_app. rewrite disk_write_out by (rewrite !length_disk_read; lia).
  change (disk_read d (src + (x - dst)) 1) with [d (src + (x - dst))]. rewrite disk_write_cons, decide_True by (rewrite length_disk_read; lia).
  f_equal. lia.
Qed.

Lemma disk_write_bytes d off data : disk_bytes d → Forall is_byte data → disk_bytes (disk_write d off data).
Proof.
  intros Hd Hb. revert off. induction Hb as [|b data Hb Hbs IH]; intros off x; [apply Hd|].
  rewrite disk_write_cons. case_decide; [done|apply IH].
Qed.

(** Writing inside one extent. *)
Section write_extent.
Context (d : disk) (id off : Z) (data : list Z).
Context (Hid : 0 ≤ id < CYANFS_EXTENT_COUNT_MAX) (Hoff : 0 ≤ off) (Hend : off + Z.of_nat (length data) ≤ CYANFS_EXTENT_SIZE) (Hlt : off < CYANFS_EXTENT_SIZE).
Local Notation d' := (disk_write d (cyanfs_map_extent_offset id off) data).

Lemma write_extent_other id' : 0 ≤ id' < CYANFS_EXTENT_COUNT_MAX → id' ≠ id → disk_extent d' id' = disk_extent d id'.
Proof.
  intros Hid' Hne. change CYANFS_EXTENT_COUNT_MAX with 1073741824 in *. unfold disk_extent.
  change CYANFS_EXTENT_SIZE with 1048576 in *. apply disk_read_ext; [|lia]. intros x.
  rewrite !map_extent_offset_eq by lia. rewrite !Z.mod_small by lia. intros Hx. apply disk_write_out. lia.
Qed.

Lemma write_extent_before : take (Z.to_nat off) (disk_extent d' id) = take (Z.to_nat off) (disk_extent d id).
Proof.
  rewrite <- (drop_0 (disk_extent d' id)), <- (drop_0 (disk_extent d id)). change 0%nat with (Z.to_nat 0).
  rewrite <- !disk_extent_read by (change CYANFS_EXTENT_SIZE with 1048576 in *; lia).
  change CYANFS_EXTENT_COUNT_MAX with 1073741824 in *. change CYANFS_EXTENT_SIZE with 1048576 in *.
  apply disk_read_ext; [|lia]. intros x. rewrite !map_extent_offset_eq by lia. rewrite !Z.mod_small by lia.
  intros Hx. apply disk_write_out. lia.
Qed.

Lemma write_extent_at : take (length data) (drop (Z.to_nat off) (disk_extent d' id)) = data.
Proof.
  rewrite <- (Nat2Z.id (length data)) at 1. rewrite <- disk_extent_read by lia. apply disk_write_in.
Qed.
End write_extent.
