(* ===== verification/Journal.v ===== *)
(** * Journal: the on-disk formats

    Models the encoders and decoders of [core/journal.h] (journal entries,
    journal record headers, the super block header) and
    [cyanfs_super_make]/[cyanfs_super_parse] of [core/journal.c].

    A decoder works on the bytes from its cursor to the end of its window.
    Its result is [None] if it reads outside the window, [Some (inl e)] when
    it returns an error and [Some (inr r)] on success. *)
From Stdlib Require Import ZArith Lia.
From S2P Require Import Prelude Base.

(** ** Journal entries *)
Inductive cyanfs_journal_entry_type :=
  | CYANFS_JOURNAL_NEXT | CYANFS_JOURNAL_CREATE | CYANFS_JOURNAL_TRUNCATE | CYANFS_JOURNAL_FORK
  | CYANFS_JOURNAL_DELETE | CYANFS_JOURNAL_BIND | CYANFS_JOURNAL_UNBIND | CYANFS_JOURNAL_RENAME.

(** The union of [struct cyanfs_journal_entry]. *)
Inductive journal_body :=
  | J_NEXT (backend : Z)
  | J_CREATE (name : cyanfs_file_name_t) (id : Z)
  | J_TRUNCATE (id size : Z)
  | J_FORK (name : cyanfs_file_name_t) (id pid : Z)
  | J_DELETE (id : Z)
  | J_BIND (id backend file : Z)
  | J_UNBIND (id file : Z)
  | J_RENAME (name : cyanfs_file_name_t) (id : Z).

Record cyanfs_journal_entry := mk_entry { j_flush : bool; j_body : journal_body }.

#[export] Instance entry_type_eq_dec : EqDecision cyanfs_journal_entry_type.
Proof. solve_decision. Defined.
#[export] Instance journal_body_eq_dec : EqDecision journal_body.
Proof. solve_decision. Defined.
#[export] Instance journal_entry_eq_dec : EqDecision cyanfs_journal_entry.
Proof. solve_decision. Defined.

Definition j_type (j : journal_body) : cyanfs_journal_entry_type :=
  match j with
  | J_NEXT _ => CYANFS_JOURNAL_NEXT
  | J_CREATE _ _ => CYANFS_JOURNAL_CREATE
  | J_TRUNCATE _ _ => CYANFS_JOURNAL_TRUNCATE
  | J_FORK _ _ _ => CYANFS_JOURNAL_FORK
  | J_DELETE _ => CYANFS_JOURNAL_DELETE
  | J_BIND _ _ _ => CYANFS_JOURNAL_BIND
  | J_UNBIND _ _ => CYANFS_JOURNAL_UNBIND
  | J_RENAME _ _ => CYANFS_JOURNAL_RENAME
  end.

(** The value of the C enumerator, and the enumerator of a value read from
    the disk ([None] for a value outside the enumeration). *)
Definition type_code (t : cyanfs_journal_entry_type) : Z :=
  match t with
  | CYANFS_JOURNAL_NEXT => 0 | CYANFS_JOURNAL_CREATE => 1 | CYANFS_JOURNAL_TRUNCATE => 2
  | CYANFS_JOURNAL_FORK => 3 | CYANFS_JOURNAL_DELETE => 4 | CYANFS_JOURNAL_BIND => 5
  | CYANFS_JOURNAL_UNBIND => 6 | CYANFS_JOURNAL_RENAME => 7
  end.

Definition type_of_code (c : Z) : option cyanfs_journal_entry_type :=
  if c =? 0 then Some CYANFS_JOURNAL_NEXT else
  if c =? 1 then Some CYANFS_JOURNAL_CREATE else
  if c =? 2 then Some CYANFS_JOURNAL_TRUNCATE else
  if c =? 3 then Some CYANFS_JOURNAL_FORK else
  if c =? 4 then Some CYANFS_JOURNAL_DELETE else
  if c =? 5 then Some CYANFS_JOURNAL_BIND else
  if c =? 6 then Some CYANFS_JOURNAL_UNBIND else
  if c =? 7 then Some CYANFS_JOURNAL_RENAME else None.

(** The [default] branch of the C function is the [None] case of the caller. *)
Definition cyanfs_journal_entry_size (type : cyanfs_journal_entry_type) : Z :=
  match type with
  | CYANFS_JOURNAL_NEXT => 1 + 4
  | CYANFS_JOURNAL_CREATE => 1 + 8 + 128
  | CYANFS_JOURNAL_TRUNCATE => 1 + 8 + 8
  | CYANFS_JOURNAL_FORK => 1 + 8 + 8 + 128
  | CYANFS_JOURNAL_DELETE => 1 + 8
  | CYANFS_JOURNAL_BIND => 1 + 8 + 4 + 4
  | CYANFS_JOURNAL_UNBIND => 1 + 8 + 4
  | CYANFS_JOURNAL_RENAME => 1 + 8 + 128
  end.

Definition cyanfs_journal_encode_entry (j : journal_body) : list Z :=
  cyanfs_put8 (type_code (j_type j)) ++
  match j with
  | J_NEXT backend => cyanfs_put32 backend
  | J_CREATE name id => cyanfs_put64 id ++ cyanfs_put_generic name
  | J_TRUNCATE id size => cyanfs_put64 id ++ cyanfs_put64 size
  | J_FORK name id pid => cyanfs_put64 id ++ cyanfs_put64 pid ++ cyanfs_put_generic name
  | J_DELETE id => cyanfs_put64 id
  | J_BIND id backend file => cyanfs_put64 id ++ cyanfs_put32 file ++ cyanfs_put32 backend
  | J_UNBIND id file => cyanfs_put64 id ++ cyanfs_put32 file
  | J_RENAME name id => cyanfs_put64 id ++ cyanfs_put_generic name
  end.

(** The fields of an entry of the given type, read at the cursor. *)
Definition decode_fields (t : cyanfs_journal_entry_type) (cursor : list Z)
    : option (journal_body * list Z) :=
  match t with
  | CYANFS_JOURNAL_NEXT =>
      '(backend, c) ← cyanfs_get32 cursor; Some (J_NEXT backend, c)
  | CYANFS_JOURNAL_CREATE =>
      '(id, c) ← cyanfs_get64 cursor;
      '(name, c) ← cyanfs_get_generic CYANFS_FILE_NAME_SIZE c; Some (J_CREATE name id, c)
  | CYANFS_JOURNAL_TRUNCATE =>
      '(id, c) ← cyanfs_get64 cursor;
      '(size, c) ← cyanfs_get64 c; Some (J_TRUNCATE id size, c)
  | CYANFS_JOURNAL_FORK =>
      '(id, c) ← cyanfs_get64 cursor;
      '(pid, c) ← cyanfs_get64 c;
      '(name, c) ← cyanfs_get_generic CYANFS_FILE_NAME_SIZE c; Some (J_FORK name id pid, c)
  | CYANFS_JOURNAL_DELETE =>
      '(id, c) ← cyanfs_get64 cursor; Some (J_DELETE id, c)
  | CYANFS_JOURNAL_BIND =>
      '(id, c) ← cyanfs_get64 cursor;
      '(file, c) ← cyanfs_get32 c;
      '(backend, c) ← cyanfs_get32 c; Some (J_BIND id backend file, c)
  | CYANFS_JOURNAL_UNBIND =>
      '(id, c) ← cyanfs_get64 cursor;
      '(file, c) ← cyanfs_get32 c; Some (J_UNBIND id file, c)
  | CYANFS_JOURNAL_RENAME =>
      '(id, c) ← cyanfs_get64 cursor;
      '(name, c) ← cyanfs_get_generic CYANFS_FILE_NAME_SIZE c; Some (J_RENAME name id, c)
  end.

(** [p] is the window from [*p] to [end]. *)
Definition cyanfs_journal_decode_entry_checked (p : list Z)
    : option (cyanfs_err + journal_body * list Z) :=
  if bool_decide (p = []) then Some (inl ERR_INVAL) else
  '(code, cursor) ← cyanfs_get8 p;
  match type_of_code code with
  | None => Some (inl ERR_INVAL)
  | Some type =>
      if Z.of_nat (length p) <? cyanfs_journal_entry_size type then Some (inl ERR_INVAL)
      else r ← decode_fields type cursor; Some (inr r)
  end.

(** ** Journal record headers *)
Definition CYANFS_JOURNAL_BLOCK_SHIFT : Z := 9.
Definition CYANFS_JOURNAL_BLOCK_SIZE : Z := Z.shiftl 1 CYANFS_JOURNAL_BLOCK_SHIFT.
Definition CYANFS_JOURNAL_BLOCK_MASK : Z := CYANFS_JOURNAL_BLOCK_SIZE - 1.
Definition CYANFS_JOURNAL_MAX_BLOCK_COUNT : Z := 128.
Definition CYANFS_JOURNAL_PAGE_SIZE : Z := CYANFS_JOURNAL_BLOCK_SIZE * CYANFS_JOURNAL_MAX_BLOCK_COUNT.
Definition CYANFS_JOURNAL_TAIL_SIZE : Z := cyanfs_journal_entry_size CYANFS_JOURNAL_NEXT.
Definition CYANFS_JOURNAL_HEADER_SIZE : Z := 15.

Record cyanfs_journal_header := mk_jheader {
  jh_crc32 : Z; jh_seq : Z; jh_size : Z; jh_count : Z }.

Definition cyanfs_journal_encode_header (h : cyanfs_journal_header) : list Z :=
  cyanfs_put32 (jh_crc32 h) ++ cyanfs_put64 (jh_seq h) ++ cyanfs_put16 (jh_count h) ++
  cyanfs_put8 (Z.shiftr (jh_size h) CYANFS_JOURNAL_BLOCK_SHIFT).

(** [p] is the window of [available] bytes. *)
Definition cyanfs_journal_decode_header_checked (p : list Z)
    : option (cyanfs_err + cyanfs_journal_header) :=
  if Z.of_nat (length p) <? CYANFS_JOURNAL_HEADER_SIZE then Some (inl ERR_INVAL) else
  '(crc32, p) ← cyanfs_get32 p;
  '(seq, p) ← cyanfs_get64 p;
  '(count, p) ← cyanfs_get16 p;
  '(blocks, p) ← cyanfs_get8 p;
  Some (inr (mk_jheader crc32 seq (u64 (Z.shiftl blocks CYANFS_JOURNAL_BLOCK_SHIFT)) count)).

(** ** The super block header *)

(** [cyanfs_uuid_t], as its 16 bytes in memory. *)
Notation cyanfs_uuid_t := (list Z) (only parsing).

Record cyanfs_super_header := mk_sheader {
  sh_uuid : cyanfs_uuid_t; sh_magic : Z; sh_crc32 : Z; sh_version : Z;
  sh_journal_id : Z; sh_journal_seq : Z }.

(** [cyanfs_le32toh(uuid.data[0])], the seed of the journal checksums. *)
Definition uuid_seed (uuid : cyanfs_uuid_t) : Z := le_val (take 4 uuid).

Definition cyanfs_super_encode_header (h : cyanfs_super_header) : list Z :=
  cyanfs_put32 (sh_crc32 h) ++ cyanfs_put32 (sh_magic h) ++ cyanfs_put_generic (sh_uuid h) ++
  cyanfs_put64 (sh_version h) ++ cyanfs_put64 (sh_journal_id h) ++ cyanfs_put64 (sh_journal_seq h).

(** Encoding in place: the header overwrites the first bytes of the buffer. *)
Definition encode_at (h : cyanfs_super_header) (p : list Z) : list Z :=
  cyanfs_super_encode_header h ++ drop (length (cyanfs_super_encode_header h)) p.

(** Returns the header with [journal_id = 0] and the 64-bit id that was read. *)
Definition cyanfs_super_decode_header (p : list Z) : option (cyanfs_super_header * Z) :=
  '(crc32, p) ← cyanfs_get32 p;
  '(magic, p) ← cyanfs_get32 p;
  '(uuid, p) ← cyanfs_get_generic 16 p;
  '(version, p) ← cyanfs_get64 p;
  '(journal_id, p) ← cyanfs_get64 p;
  '(journal_seq, p) ← cyanfs_get64 p;
  Some (mk_sheader uuid magic crc32 version 0 journal_seq, journal_id).

Definition sh_set_crc (h : cyanfs_super_header) (c : Z) : cyanfs_super_header :=
  mk_sheader (sh_uuid h) (sh_magic h) c (sh_version h) (sh_journal_id h) (sh_journal_seq h).
Definition sh_set_journal_id (h : cyanfs_super_header) (id : Z) : cyanfs_super_header :=
  mk_sheader (sh_uuid h) (sh_magic h) (sh_crc32 h) (sh_version h) id (sh_journal_seq h).
Definition sh_set_version (h : cyanfs_super_header) (v : Z) : cyanfs_super_header :=
  mk_sheader (sh_uuid h) (sh_magic h) (sh_crc32 h) v (sh_journal_id h) (sh_journal_seq h).
Definition sh_set_journal_seq (h : cyanfs_super_header) (v : Z) : cyanfs_super_header :=
  mk_sheader (sh_uuid h) (sh_magic h) (sh_crc32 h) (sh_version h) (sh_journal_id h) v.

(** The checksum of a 4096-byte super block copy, over everything after the
    [crc32] field. *)
Definition super_crc (p : list Z) : Z := cyanfs_crc32 U32_MAX (drop 4 p).

(** The copy a header is written to: encode, checksum, encode again
    ([cyanfs_super_make], [cyanfs_journal_compact_write_super]). *)
Definition seal_super (h : cyanfs_super_header) (p : list Z) : list Z :=
  let p1 := encode_at h p in
  encode_at (sh_set_crc h (super_crc p1)) p1.

Definition cyanfs_super_make (uuid : cyanfs_uuid_t) : list Z :=
  let zero := replicate (Z.to_nat CYANFS_SUPER_HEADER_SIZE) 0 in
  let h := mk_sheader uuid CYANFS_SUPER_MAGIC 0 0 0 0 in
  seal_super h zero ++
  (* the second copy is encoded with the first one's checksum still in [h] *)
  seal_super (sh_set_version (sh_set_crc h (super_crc (encode_at h zero))) 1) zero.

Definition cyanfs_super_parse (super_block : list Z)
    : option (cyanfs_err + cyanfs_super_header) :=
  let p1 := take (Z.to_nat CYANFS_SUPER_HEADER_SIZE) super_block in
  let p2 := take (Z.to_nat CYANFS_SUPER_HEADER_SIZE)
                 (drop (Z.to_nat CYANFS_SUPER_HEADER_SIZE) super_block) in
  '(h1, journal_id1) ← cyanfs_super_decode_header p1;
  let s1 := super_crc p1 in
  '(h2, journal_id2) ← cyanfs_super_decode_header p2;
  let s2 := super_crc p2 in
  let ok1 := sh_crc32 h1 =? s1 in
  let ok2 := sh_crc32 h2 =? s2 in
  let sel :=
    if ok1 && ok2 then
      if sh_version h1 <? sh_version h2 then Some (h2, journal_id2) else Some (h1, journal_id1)
    else if ok1 then Some (h1, journal_id1)
    else if ok2 then Some (h2, journal_id2)
    else None in
  match sel with
  | None => Some (inl ERR_INVAL)
  | Some (h, journal_id) =>
      if negb (sh_magic h =? CYANFS_SUPER_MAGIC) || (cyanfs_extent_id_invalid <=? journal_id)
      then Some (inl ERR_INVAL)
      else Some (inr (sh_set_journal_id h (u32 journal_id)))
  end.

(** ** Well-formed entries and headers *)
Definition is_u64 (x : Z) : Prop := 0 ≤ x ≤ U64_MAX.
Definition is_u32 (x : Z) : Prop := 0 ≤ x ≤ U32_MAX.

Definition entry_ok (j : journal_body) : Prop :=
  match j with
  | J_NEXT backend => is_u32 backend
  | J_CREATE name id => is_name name ∧ is_u64 id
  | J_TRUNCATE id size => is_u64 id ∧ is_u64 size
  | J_FORK name id pid => is_name name ∧ is_u64 id ∧ is_u64 pid
  | J_DELETE id => is_u64 id
  | J_BIND id backend file => is_u64 id ∧ is_u32 backend ∧ is_u32 file
  | J_UNBIND id file => is_u64 id ∧ is_u32 file
  | J_RENAME name id => is_name name ∧ is_u64 id
  end.

Definition jheader_ok (h : cyanfs_journal_header) : Prop :=
  is_u32 (jh_crc32 h) ∧ is_u64 (jh_seq h) ∧ 0 ≤ jh_count h < 65536 ∧
  0 ≤ jh_size h < 256 * CYANFS_JOURNAL_BLOCK_SIZE ∧ jh_size h mod CYANFS_JOURNAL_BLOCK_SIZE = 0.

Definition sheader_ok (h : cyanfs_super_header) : Prop :=
  length (sh_uuid h) = 16%nat ∧ Forall is_byte (sh_uuid h) ∧ is_u32 (sh_magic h) ∧
  is_u32 (sh_crc32 h) ∧ is_u64 (sh_version h) ∧ is_u32 (sh_journal_id h) ∧ is_u64 (sh_journal_seq h).

(** ** Lemmas: entries *)
Lemma type_of_code_code t : type_of_code (type_code t) = Some t.
Proof. by destruct t. Qed.

Lemma type_code_of_code c t : type_of_code c = Some t → type_code t = c.
Proof. unfold type_of_code. intros. repeat case_bool; by simplify_eq. Qed.

Lemma type_code_byte t : 0 ≤ type_code t < 256.
Proof. by destruct t. Qed.

Lemma length_put64 v : length (cyanfs_put64 v) = 8%nat.
Proof. apply length_le_bytes. Qed.
Lemma length_put32 v : length (cyanfs_put32 v) = 4%nat.
Proof. apply length_le_bytes. Qed.
Lemma length_put16 v : length (cyanfs_put16 v) = 2%nat.
Proof. apply length_le_bytes. Qed.
Lemma length_put8 v : length (cyanfs_put8 v) = 1%nat.
Proof. done. Qed.
#[export] Hint Rewrite @length_app length_put64 length_put32 length_put16 length_put8 : lens.

Lemma length_encode_entry j :
  entry_ok j → Z.of_nat (length (cyanfs_journal_encode_entry j)) = cyanfs_journal_entry_size (j_type j).
Proof.
  unfold cyanfs_journal_encode_entry, cyanfs_put_generic, is_name, CYANFS_FILE_NAME_SIZE.
  intros H. destruct j; simpl in H |- *; autorewrite with lens;
    unfold is_name, CYANFS_FILE_NAME_SIZE in H; lia.
Qed.

Lemma encode_entry_bytes j : entry_ok j → Forall is_byte (cyanfs_journal_encode_entry j).
Proof.
  intros H. unfold cyanfs_journal_encode_entry, cyanfs_put_generic.
  apply Forall_app. split; [constructor; [apply u8_range|constructor]|].
  destruct j; simpl in H; rewrite ?Forall_app; unfold is_name in H;
    split_and?; try apply le_bytes_is_byte; tauto.
Qed.

(** Codec rewriting: reads of freshly written fields. *)
Ltac codec :=
  repeat first
    [ progress cbn [mbind option_bind]
    | rewrite get64_put64 by assumption
    | rewrite get32_put32 by assumption
    | rewrite get16_put16 by assumption
    | rewrite get_generic_app by assumption ].

(** Every entry the file system can log is decoded back to itself, whatever
    follows it in the buffer. *)
Theorem journal_entry_roundtrip j rest :
  entry_ok j →
  cyanfs_journal_decode_entry_checked (cyanfs_journal_encode_entry j ++ rest) = Some (inr (j, rest)).
Proof.
  intros H. pose proof (length_encode_entry j H) as Hlen.
  unfold cyanfs_journal_decode_entry_checked.
  rewrite bool_decide_eq_false_2
    by (unfold cyanfs_journal_encode_entry, cyanfs_put8; done).
  rewrite length_app. revert Hlen.
  unfold cyanfs_journal_encode_entry. rewrite <- app_assoc. intros Hlen.
  rewrite get8_put8 by apply type_code_byte. cbn [mbind option_bind].
  rewrite type_of_code_code. rewrite (proj2 (Z.ltb_ge _ _)) by lia. clear Hlen.
  destruct j; cbn [decode_fields j_type]; unfold cyanfs_put_generic; cbn [entry_ok] in H;
    unfold is_name in H; destruct_and?; rewrite <- ?app_assoc; codec; done.
Qed.

Lemma get_generic_Some n p l r :
  cyanfs_get_generic n p = Some (l, r) → p = l ++ r ∧ length l = n.
Proof.
  unfold cyanfs_get_generic. case_decide; [|done]. intros. simplify_eq.
  split; [by rewrite take_drop|]. rewrite length_take. lia.
Qed.

Lemma get64_Some p v r :
  Forall is_byte p → cyanfs_get64 p = Some (v, r) →
  p = cyanfs_put64 v ++ r ∧ is_u64 v ∧ Forall is_byte r.
Proof.
  intros Hb E. unfold cyanfs_get64 in E.
  destruct (cyanfs_get_generic 8 p) as [[l r']|] eqn:G; cbn [mbind option_bind] in E; simplify_eq.
  apply get_generic_Some in G as [-> Hl]. apply Forall_app in Hb as [Hb1 Hb2].
  unfold cyanfs_put64. rewrite <- Hl, le_bytes_le_val by done.
  split_and!; [done| |done]; apply le_val_range in Hb1; rewrite Hl in Hb1;
    change (256 ^ Z.of_nat 8) with 18446744073709551616 in Hb1; unfold is_u64, U64_MAX; lia.
Qed.

Lemma get32_Some p v r :
  Forall is_byte p → cyanfs_get32 p = Some (v, r) →
  p = cyanfs_put32 v ++ r ∧ is_u32 v ∧ Forall is_byte r.
Proof.
  intros Hb E. unfold cyanfs_get32 in E.
  destruct (cyanfs_get_generic 4 p) as [[l r']|] eqn:G; cbn [mbind option_bind] in E; simplify_eq.
  apply get_generic_Some in G as [-> Hl]. apply Forall_app in Hb as [Hb1 Hb2].
  unfold cyanfs_put32. rewrite <- Hl, le_bytes_le_val by done.
  split_and!; [done| |done]; apply le_val_range in Hb1; rewrite Hl in Hb1;
    change (256 ^ Z.of_nat 4) with 4294967296 in Hb1; unfold is_u32, U32_MAX; lia.
Qed.

Lemma get_name_Some p l r :
  Forall is_byte p → cyanfs_get_generic CYANFS_FILE_NAME_SIZE p = Some (l, r) →
  p = cyanfs_put_generic l ++ r ∧ is_name l ∧ Forall is_byte r.
Proof.
  intros Hb [-> Hl]%get_generic_Some. apply Forall_app in Hb as [Hb1 Hb2]. done.
Qed.

(** One step of a decoder: split the option bind and name the field read. *)
Ltac decode_step E :=
  match type of E with
  | (cyanfs_get64 ?p ≫= _) = Some _ =>
      let G := fresh "G" in
      destruct (cyanfs_get64 p) as [[??]|] eqn:G; cbn [mbind option_bind] in E; [|done];
      apply get64_Some in G; [|assumption]; destruct G as (-> & ? & ?)
  | (cyanfs_get32 ?p ≫= _) = Some _ =>
      let G := fresh "G" in
      destruct (cyanfs_get32 p) as [[??]|] eqn:G; cbn [mbind option_bind] in E; [|done];
      apply get32_Some in G; [|assumption]; destruct G as (-> & ? & ?)
  | (cyanfs_get_generic _ ?p ≫= _) = Some _ =>
      let G := fresh "G" in
      destruct (cyanfs_get_generic _ p) as [[??]|] eqn:G; cbn [mbind option_bind] in E; [|done];
      apply get_name_Some in G; [|assumption]; destruct G as (-> & ? & ?)
  end.

Lemma decode_fields_Some t p j r :
  Forall is_byte p → decode_fields t p = Some (j, r) →
  j_type j = t ∧ entry_ok j ∧ cyanfs_put8 (type_code t) ++ p = cyanfs_journal_encode_entry j ++ r.
Proof.
  intros Hb E. unfold cyanfs_journal_encode_entry.
  destruct t; cbn [decode_fields] in E; repeat decode_step E; simplify_eq;
    cbn [entry_ok j_type]; rewrite <- ?app_assoc; done.
Qed.

Lemma decode_fields_total t p :
  cyanfs_journal_entry_size t ≤ 1 + Z.of_nat (length p) → is_Some (decode_fields t p).
Proof.
  intros H. destruct t; cbn [cyanfs_journal_entry_size decode_fields] in *;
    unfold cyanfs_get64, cyanfs_get32, cyanfs_get_generic, CYANFS_FILE_NAME_SIZE;
    repeat (rewrite decide_True by (rewrite ?length_drop; lia); cbn [mbind option_bind]); eauto.
Qed.

(** Decoding reads inside its window, and accepts exactly the encodings. *)
Lemma decode_entry_sound p :
  Forall is_byte p →
  match cyanfs_journal_decode_entry_checked p with
  | None => False
  | Some (inl e) => e = ERR_INVAL ∧ ¬ ∃ j r, entry_ok j ∧ p = cyanfs_journal_encode_entry j ++ r
  | Some (inr (j, r)) => entry_ok j ∧ p = cyanfs_journal_encode_entry j ++ r
  end.
Proof.
  intros Hb.
  assert (Hno : ∀ e, cyanfs_journal_decode_entry_checked p = Some (inl e) →
     ¬ ∃ j r, entry_ok j ∧ p = cyanfs_journal_encode_entry j ++ r).
  { intros e E (j & r & Hj & ->). by rewrite journal_entry_roundtrip in E. }
  destruct (cyanfs_journal_decode_entry_checked p) as [[e|[j r]]|] eqn:E.
  - split; [|by eapply Hno]. unfold cyanfs_journal_decode_entry_checked in E.
    case_bool_decide; [by simplify_eq|]. destruct p as [|c p]; [done|]. cbn in E.
    destruct (type_of_code c); [|by simplify_eq]. case_bool; [by simplify_eq|].
    destruct (decode_fields _ _); by simplify_eq.
  - clear Hno. unfold cyanfs_journal_decode_entry_checked in E. case_bool_decide; [done|].
    destruct p as [|c p]; [done|]. cbn [cyanfs_get8 mbind option_bind] in E.
    destruct (type_of_code c) as [t|] eqn:Ht; [|done]. case_bool; [done|].
    destruct (decode_fields t p) as [[j' r']|] eqn:D; [|done]. cbn in E. simplify_eq.
    apply Forall_cons in Hb as [Hc Hb]. apply decode_fields_Some in D as (<- & Hok & Hp); [|done].
    split; [done|]. rewrite <- Hp. apply type_code_of_code in Ht. subst c.
    unfold cyanfs_put8. rewrite u8_small; [done|apply type_code_byte].
  - unfold cyanfs_journal_decode_entry_checked in E. case_bool_decide; [done|].
    destruct p as [|c p]; [done|]. cbn [cyanfs_get8 mbind option_bind] in E.
    destruct (type_of_code c) as [t|]; [|done]. destruct (Z.ltb_spec (Z.of_nat (length (c :: p))) (cyanfs_journal_entry_size t)); [done|].
    destruct (decode_fields_total t p) as [? D]; [simpl length in *; lia|].
    by rewrite D in E.
Qed.

(** C27: decoding an untrusted buffer never reads outside its window, and what it
    accepts is exactly the encoding of a well-formed entry. *)
Theorem journal_decode_sound p :
  Forall is_byte p →
  match cyanfs_journal_decode_entry_checked p with
  | None => False
  | Some (inl e) => e = ERR_INVAL ∧ ¬ ∃ j r, entry_ok j ∧ p = cyanfs_journal_encode_entry j ++ r
  | Some (inr (j, r)) => entry_ok j ∧ p = cyanfs_journal_encode_entry j ++ r
  end.
Proof. apply decode_entry_sound. Qed.

(** ** Lemmas: record headers *)
Lemma length_encode_jheader h : length (cyanfs_journal_encode_header h) = 15%nat.
Proof. unfold cyanfs_journal_encode_header. by autorewrite with lens. Qed.

Theorem journal_header_roundtrip h rest :
  jheader_ok h →
  cyanfs_journal_decode_header_checked (cyanfs_journal_encode_header h ++ rest) = Some (inr h).
Proof.
  intros (Hc & Hs & Hn & Hz & Hm). unfold cyanfs_journal_decode_header_checked.
  rewrite length_app, length_encode_jheader.
  rewrite (proj2 (Z.ltb_ge _ _)) by (unfold CYANFS_JOURNAL_HEADER_SIZE; lia).
  unfold cyanfs_journal_encode_header. rewrite <- !app_assoc. codec.
  change CYANFS_JOURNAL_BLOCK_SIZE with 512 in *. unfold CYANFS_JOURNAL_BLOCK_SHIFT.
  rewrite Z.shiftr_div_pow2 by lia. change (2 ^ 9) with 512.
  assert (0 ≤ jh_size h / 512 < 256).
  { split; [apply Z.div_pos; lia|]. apply Z.div_lt_upper_bound; lia. }
  rewrite get8_put8 by lia. cbn [mbind option_bind].
  rewrite Z.shiftl_mul_pow2 by lia. change (2 ^ 9) with 512.
  pose proof (Z.div_mod (jh_size h) 512 ltac:(lia)).
  rewrite u64_small by lia. destruct h; simpl in *. do 3 f_equal. lia.
Qed.

(** ** Lemmas: the super block *)
Lemma length_encode_sheader h :
  sheader_ok h → length (cyanfs_super_encode_header h) = 48%nat.
Proof.
  intros (Hl & _). unfold cyanfs_super_encode_header, cyanfs_put_generic.
  autorewrite with lens. lia.
Qed.

Lemma super_header_roundtrip h rest :
  sheader_ok h →
  cyanfs_super_decode_header (cyanfs_super_encode_header h ++ rest)
    = Some (sh_set_journal_id h 0, sh_journal_id h).
Proof.
  intros (Hl & Hb & Hm & Hc & Hv & Hj & Hs).
  assert (is_u64 (sh_journal_id h)).
  { revert Hj. unfold is_u64, is_u32, U64_MAX, U32_MAX. lia. }
  unfold cyanfs_super_decode_header, cyanfs_super_encode_header, cyanfs_put_generic.
  rewrite <- !app_assoc. by codec.
Qed.

Lemma sheader_ok_set_crc h c : sheader_ok h → is_u32 c → sheader_ok (sh_set_crc h c).
Proof. unfold sheader_ok. simpl. tauto. Qed.

Lemma encode_header_bytes h : sheader_ok h → Forall is_byte (cyanfs_super_encode_header h).
Proof.
  intros (_ & Hb & _). unfold cyanfs_super_encode_header, cyanfs_put_generic.
  rewrite !Forall_app. split_and!; try apply le_bytes_is_byte. done.
Qed.

Lemma super_crc_u32 p : Forall is_byte p → is_u32 (super_crc p).
Proof.
  intros Hb. unfold super_crc, is_u32, U32_MAX.
  pose proof (crc32_range 4294967295 (drop 4 p) ltac:(lia) (Forall_drop _ _ _ Hb)).
  change (2 ^ 32) with 4294967296 in *. lia.
Qed.

Definition is_copy (p : list Z) : Prop :=
  length p = Z.to_nat CYANFS_SUPER_HEADER_SIZE ∧ Forall is_byte p.

Lemma encode_at_copy h p : sheader_ok h → is_copy p → is_copy (encode_at h p).
Proof.
  intros Hh [Hl Hb]. unfold encode_at. rewrite length_encode_sheader by done. split.
  - rewrite length_app, length_drop, length_encode_sheader, Hl by done.
    unfold CYANFS_SUPER_HEADER_SIZE. lia.
  - apply Forall_app. split; [by apply encode_header_bytes|by apply Forall_drop].
Qed.

(** The checksum a sealed copy carries. *)
Definition seal_crc (h : cyanfs_super_header) (p : list Z) : Z := super_crc (encode_at h p).

Lemma seal_super_eq h p :
  sheader_ok h → is_copy p →
  seal_super h p = encode_at (sh_set_crc h (seal_crc h p)) p ∧
  super_crc (seal_super h p) = seal_crc h p ∧
  is_u32 (seal_crc h p).
Proof.
  intros Hh Hp. assert (Hc : is_u32 (seal_crc h p)).
  { apply super_crc_u32. by apply encode_at_copy. }
  pose proof (sheader_ok_set_crc _ _ Hh Hc) as Hh'.
  assert (E : seal_super h p = encode_at (sh_set_crc h (seal_crc h p)) p).
  { unfold seal_super. fold (seal_crc h p). unfold encode_at at 1 3.
    rewrite !(length_encode_sheader _ Hh'). f_equal. unfold encode_at.
    rewrite (length_encode_sheader _ Hh).
    rewrite drop_app_ge by (rewrite length_encode_sheader by done; lia).
    by rewrite (length_encode_sheader _ Hh). }
  split_and!; [done| |done]. rewrite E.
  (* the checksum skips its own four bytes *)
  reflexivity.
Qed.

Lemma seal_super_copy h p : sheader_ok h → is_copy p → is_copy (seal_super h p).
Proof.
  intros Hh Hp. destruct (seal_super_eq h p Hh Hp) as (-> & _ & Hc).
  apply encode_at_copy; [by apply sheader_ok_set_crc|done].
Qed.

(** A copy is valid when its stored checksum is right. *)
Definition copy_valid (p : list Z) (h : cyanfs_super_header) (id : Z) : Prop :=
  cyanfs_super_decode_header p = Some (h, id) ∧ sh_crc32 h = super_crc p.

Lemma seal_super_valid h p :
  sheader_ok h → is_copy p →
  copy_valid (seal_super h p) (sh_set_journal_id (sh_set_crc h (seal_crc h p)) 0) (sh_journal_id h).
Proof.
  intros Hh Hp. destruct (seal_super_eq h p Hh Hp) as (E & Hcrc & Hc). split.
  - rewrite E. unfold encode_at. by rewrite super_header_roundtrip by by apply sheader_ok_set_crc.
  - by rewrite Hcrc.
Qed.

Lemma decode_header_total p : is_copy p → ∃ h id, cyanfs_super_decode_header p = Some (h, id).
Proof.
  intros [Hl _]. unfold CYANFS_SUPER_HEADER_SIZE in Hl.
  unfold cyanfs_super_decode_header, cyanfs_get32, cyanfs_get64, cyanfs_get_generic.
  repeat (rewrite decide_True by (rewrite ?length_drop; lia); cbn [mbind option_bind]); eauto.
Qed.

(** What [cyanfs_super_parse] accepts from a copy. *)
Definition accept (h : cyanfs_super_header) (id : Z) : cyanfs_err + cyanfs_super_header :=
  if negb (sh_magic h =? CYANFS_SUPER_MAGIC) || (cyanfs_extent_id_invalid <=? id)
  then inl ERR_INVAL else inr (sh_set_journal_id h (u32 id)).

Lemma super_parse_app p1 p2 h1 id1 h2 id2 :
  is_copy p1 → is_copy p2 →
  cyanfs_super_decode_header p1 = Some (h1, id1) → cyanfs_super_decode_header p2 = Some (h2, id2) →
  cyanfs_super_parse (p1 ++ p2) = Some (
    match sh_crc32 h1 =? super_crc p1, sh_crc32 h2 =? super_crc p2 with
    | true, true => if sh_version h1 <? sh_version h2 then accept h2 id2 else accept h1 id1
    | true, false => accept h1 id1
    | false, true => accept h2 id2
    | false, false => inl ERR_INVAL
    end).
Proof.
  intros [Hl1 _] [Hl2 _] D1 D2. unfold cyanfs_super_parse.
  assert (E1 : take (Z.to_nat CYANFS_SUPER_HEADER_SIZE) (p1 ++ p2) = p1).
  { rewrite <- Hl1. apply take_app_length. }
  assert (E2 : take (Z.to_nat CYANFS_SUPER_HEADER_SIZE)
                 (drop (Z.to_nat CYANFS_SUPER_HEADER_SIZE) (p1 ++ p2)) = p2).
  { rewrite <- Hl1 at 2. rewrite drop_app_length, <- Hl2. apply firstn_all. }
  rewrite E1, E2.
  rewrite D1, D2. cbn [mbind option_bind]. unfold accept.
  destruct (sh_crc32 h1 =? _), (sh_crc32 h2 =? _), (sh_version h1 <? sh_version h2); cbn [andb];
    repeat case_match; done.
Qed.

(** Only the two copies matter. *)
Lemma super_parse_prefix p q :
  (2 * Z.to_nat CYANFS_SUPER_HEADER_SIZE ≤ length p)%nat → cyanfs_super_parse (p ++ q) = cyanfs_super_parse p.
Proof.
  intros Hl. unfold cyanfs_super_parse. rewrite take_app_le by lia. rewrite drop_app_le by lia.
  rewrite take_app_le by (rewrite length_drop; lia). done.
Qed.

Lemma super_decode_range p h id :
  Forall is_byte p → cyanfs_super_decode_header p = Some (h, id) → is_u64 id ∧ is_u64 (sh_journal_seq h).
Proof.
  intros Hb. unfold cyanfs_super_decode_header.
  destruct (cyanfs_get32 p) as [[crc p1]|] eqn:E1; [|done]. apply get32_Some in E1 as (_ & _ & Hb1); [|done].
  cbn [mbind option_bind]. destruct (cyanfs_get32 p1) as [[m p2]|] eqn:E2; [|done]. apply get32_Some in E2 as (_ & _ & Hb2); [|done].
  cbn [mbind option_bind]. destruct (cyanfs_get_generic 16 p2) as [[u p3]|] eqn:E3; [|done].
  apply get_generic_Some in E3 as [-> _]. apply Forall_app in Hb2 as [_ Hb3].
  cbn [mbind option_bind]. destruct (cyanfs_get64 p3) as [[v p4]|] eqn:E4; [|done]. apply get64_Some in E4 as (_ & _ & Hb4); [|done].
  cbn [mbind option_bind]. destruct (cyanfs_get64 p4) as [[i p5]|] eqn:E5; [|done]. apply get64_Some in E5 as (_ & Hi & Hb5); [|done].
  cbn [mbind option_bind]. destruct (cyanfs_get64 p5) as [[s p6]|] eqn:E6; [|done]. apply get64_Some in E6 as (_ & Hs & _); [|done].
  intros [= <- <-]. done.
Qed.

(** Parsing a super block of bytes never aborts, and what it accepts is in
    range. *)
Lemma super_parse_sound p1 p2 :
  is_copy p1 → is_copy p2 →
  ∃ r, cyanfs_super_parse (p1 ++ p2) = Some r ∧
    ∀ h, r = inr h → is_u32 (sh_journal_id h) ∧ is_u64 (sh_journal_seq h).
Proof.
  intros H1 H2. destruct (decode_header_total p1 H1) as (h1 & i1 & D1). destruct (decode_header_total p2 H2) as (h2 & i2 & D2).
  eexists. split; [by apply super_parse_app|]. intros h.
  apply super_decode_range in D1 as [_ Hs1]; [|apply H1]. apply super_decode_range in D2 as [_ Hs2]; [|apply H2].
  assert (Ha : ∀ h' i, is_u64 (sh_journal_seq h') → accept h' i = inr h → is_u32 (sh_journal_id h) ∧ is_u64 (sh_journal_seq h)).
  { intros h' i Hs. unfold accept. destruct (_ || _); [done|]. intros [= <-]. cbn. split; [|done].
    pose proof (u32_range i). unfold is_u32, U32_MAX. lia. }
  destruct (_ =? _), (_ =? _); [destruct (_ <? _)|..]; try done; by apply Ha.
Qed.

(** Formatting a device.  The fresh super block parses, to the header of the
    second copy (version 1), with an empty journal starting at extent 0. *)
Lemma super_make_parse uuid :
  length uuid = 16%nat → Forall is_byte uuid →
  length (cyanfs_super_make uuid) = Z.to_nat CYANFS_SUPER_BLOCK_SIZE ∧ Forall is_byte (cyanfs_super_make uuid) ∧
  ∃ crc, cyanfs_super_parse (cyanfs_super_make uuid)
    = Some (inr (mk_sheader uuid CYANFS_SUPER_MAGIC crc 1 0 0)).
Proof.
  intros Hl Hb. unfold cyanfs_super_make.
  set (zero := replicate (Z.to_nat CYANFS_SUPER_HEADER_SIZE) 0).
  set (h := mk_sheader uuid CYANFS_SUPER_MAGIC 0 0 0 0).
  assert (Hz : is_copy zero).
  { split; [apply length_replicate|]. apply Forall_replicate. unfold is_byte. lia. }
  assert (Hh : sheader_ok h).
  { unfold sheader_ok, is_u32, is_u64, U32_MAX, U64_MAX, CYANFS_SUPER_MAGIC. simpl. split_and!; done || lia. }
  set (h' := sh_set_version (sh_set_crc h (super_crc (encode_at h zero))) 1).
  assert (Hh' : sheader_ok h').
  { destruct (seal_super_eq h zero Hh Hz) as (_ & _ & Hc). revert Hh Hc.
    unfold sheader_ok, h', seal_crc, is_u64, U64_MAX. simpl. intros ??. split_and!; tauto || lia. }
  destruct (seal_super_valid h zero Hh Hz) as [D1 C1].
  destruct (seal_super_valid h' zero Hh' Hz) as [D2 C2].
  destruct (seal_super_copy _ _ Hh Hz) as [Hl1 Hb1]. destruct (seal_super_copy _ _ Hh' Hz) as [Hl2 Hb2]. fold h'.
  split_and!; [rewrite length_app, Hl1, Hl2; reflexivity|by apply Forall_app|].
  rewrite (super_parse_app _ _ _ _ _ _ (conj Hl1 Hb1) (conj Hl2 Hb2) D1 D2).
  rewrite C1, C2, !Z.eqb_refl. eexists. reflexivity.
Qed.

(** ** Updating the super block

    [cyanfs_journal_compact_write_super] writes the header of version [v] to
    the copy number [v & 1].  [super_block] is the pair of copies. *)
Definition super_block (p0 p1 : list Z) : list Z := p0 ++ p1.

(** The block after the copy of version [v] was overwritten with [data]. *)
Definition write_copy (p0 p1 : list Z) (v : Z) (data : list Z) : list Z :=
  if Z.land v 1 =? 0 then super_block data p1 else super_block p0 data.

(** A valid copy sits in the slot its version selects. *)
Definition slot_parity (p : list Z) (slot : Z) : Prop :=
  ∀ h id, copy_valid p h id → Z.land (sh_version h) 1 = slot.

Lemma land_1 v : Z.land v 1 = v mod 2.
Proof. apply (land_mask v 1). lia. Qed.

Lemma land_1_succ v : Z.land (v + 1) 1 = 1 - Z.land v 1.
Proof. rewrite !land_1. Z.div_mod_to_equations. lia. Qed.

Lemma super_parse_sym_new p q h id hq idq :
  is_copy p → is_copy q → copy_valid p h id → cyanfs_super_decode_header q = Some (hq, idq) →
  (sh_crc32 hq = super_crc q → sh_version hq < sh_version h) →
  cyanfs_super_parse (p ++ q) = Some (accept h id) ∧
  cyanfs_super_parse (q ++ p) = Some (accept h id).
Proof.
  intros Hp Hq [D C] Dq Hlt.
  rewrite (super_parse_app _ _ _ _ _ _ Hp Hq D Dq), (super_parse_app _ _ _ _ _ _ Hq Hp Dq D).
  rewrite C, Z.eqb_refl.
  destruct (Z.eqb_spec (sh_crc32 hq) (super_crc q)) as [Eq|]; [|done].
  specialize (Hlt Eq). split; repeat case_bool; done || lia.
Qed.

Lemma accept_version h id old : accept h id = inr old → sh_version h = sh_version old.
Proof. unfold accept. destruct (_ || _); intros E; [done|]. by injection E as <-. Qed.

(** Copy [p] is the one in use, [q] the other one. *)
Definition in_use (p q : list Z) (slot : Z) (old : cyanfs_super_header) : Prop :=
  ∃ h id hq idq, cyanfs_super_decode_header q = Some (hq, idq) ∧ Z.land (sh_version old) 1 = slot ∧ copy_valid p h id ∧
    accept h id = inr old ∧ (sh_crc32 hq = super_crc q → sh_version hq < sh_version h + 1).

Lemma super_parse_in_use p0 p1 old :
  is_copy p0 → is_copy p1 → slot_parity p0 0 → slot_parity p1 1 →
  cyanfs_super_parse (super_block p0 p1) = Some (inr old) → in_use p0 p1 0 old ∨ in_use p1 p0 1 old.
Proof.
  intros Hp0 Hp1 Hs0 Hs1 Hparse.
  destruct (decode_header_total _ Hp0) as (h0 & id0 & D0). destruct (decode_header_total _ Hp1) as (h1 & id1 & D1).
  unfold super_block in Hparse. rewrite (super_parse_app _ _ _ _ _ _ Hp0 Hp1 D0 D1) in Hparse.
  destruct (Z.eqb_spec (sh_crc32 h0) (super_crc p0)) as [E0|E0];
    destruct (Z.eqb_spec (sh_crc32 h1) (super_crc p1)) as [E1|E1]; simplify_eq.
  - pose proof (Hs0 h0 id0 (conj D0 E0)). pose proof (Hs1 h1 id1 (conj D1 E1)).
    destruct (Z.ltb_spec (sh_version h0) (sh_version h1));
      pose proof (accept_version _ _ _ Hparse) as Ho; rewrite Ho in *; [right|left];
      [exists h1, id1, h0, id0|exists h0, id0, h1, id1]; (split_and!; [done|done|done|done|lia]).
  - left. pose proof (accept_version _ _ _ Hparse) as Ho. pose proof (Hs0 h0 id0 (conj D0 E0)).
    exists h0, id0, h1, id1. rewrite <- Ho. by split_and!.
  - right. pose proof (accept_version _ _ _ Hparse) as Ho. pose proof (Hs1 h1 id1 (conj D1 E1)).
    exists h1, id1, h0, id0. rewrite <- Ho. by split_and!.
Qed.

(** Replacing the copy [q] that is not in use, completely or not. *)
Lemma super_replace p q slot old new buf torn :
  in_use p q slot old → is_copy p → is_copy buf → is_copy torn →
  sheader_ok new → sh_version new = sh_version old + 1 →
  sh_magic new = CYANFS_SUPER_MAGIC → sh_journal_id new < cyanfs_extent_id_invalid →
  (∀ h id, ¬ copy_valid torn h id) →
  let sealed := seal_super new buf in let h := Some (inr (sh_set_crc new (seal_crc new buf))) in
  cyanfs_super_parse (p ++ sealed) = h ∧ cyanfs_super_parse (sealed ++ p) = h ∧
  cyanfs_super_parse (p ++ torn) = Some (inr old) ∧ cyanfs_super_parse (torn ++ p) = Some (inr old).
Proof.
  intros (hp & idp & hq & idq & Dq & _ & [Dp Cp] & Hac & Hlt) Hp Hbuf Ht Hnew Hv Hm Hj Hbad sealed h.
  destruct (decode_header_total _ Ht) as (ht & idt & Dt).
  assert (Hct : sh_crc32 ht ≠ super_crc torn) by (intros E; by apply (Hbad ht idt)).
  assert (Hacc : accept (sh_set_journal_id (sh_set_crc new (seal_crc new buf)) 0) (sh_journal_id new)
    = inr (sh_set_crc new (seal_crc new buf))).
  { unfold accept. simpl. rewrite Hm, Z.eqb_refl. simpl.
    rewrite (proj2 (Z.leb_gt _ _)) by done. destruct Hnew as (_ & _ & _ & _ & _ & Hid & _).
    unfold is_u32, U32_MAX in Hid. rewrite u32_small by lia. by destruct new. }
  pose proof (accept_version _ _ _ Hac) as Ho.
  destruct (super_parse_sym_new sealed p _ _ hp idp (seal_super_copy _ _ Hnew Hbuf) Hp (seal_super_valid new buf Hnew Hbuf) Dp) as [E1 E2];
    [simpl; lia|].
  destruct (super_parse_sym_new p torn hp idp ht idt Hp Ht (conj Dp Cp) Dt) as [E3 E4]; [done|].
  rewrite E1, E2, E3, E4, Hacc, Hac. done.
Qed.

(** C18: the A/B update of the super block is atomic.  Writing the next
    version's header never touches the copy in use: if the write completes,
    the device parses to the new header; if it is torn (the copy it hit has a
    wrong checksum), the device still parses to the old one. *)
Theorem super_update_atomic p0 p1 old new buf torn :
  is_copy p0 → is_copy p1 → is_copy buf → is_copy torn →
  slot_parity p0 0 → slot_parity p1 1 →
  cyanfs_super_parse (super_block p0 p1) = Some (inr old) →
  sheader_ok new → sh_version new = sh_version old + 1 →
  sh_magic new = CYANFS_SUPER_MAGIC → sh_journal_id new < cyanfs_extent_id_invalid →
  (∀ h id, ¬ copy_valid torn h id) →
  cyanfs_super_parse (write_copy p0 p1 (sh_version new) (seal_super new buf))
    = Some (inr (sh_set_crc new (seal_crc new buf))) ∧
  cyanfs_super_parse (write_copy p0 p1 (sh_version new) torn) = Some (inr old).
Proof.
  intros Hp0 Hp1 Hbuf Ht Hs0 Hs1 Hparse Hnew Hv Hm Hj Hbad. unfold write_copy, super_block. rewrite Hv, land_1_succ.
  destruct (super_parse_in_use p0 p1 old) as [Hu|Hu]; try done.
  - destruct (super_replace p0 p1 0 old new buf torn Hu) as (? & ? & ? & ?); try done.
    by destruct Hu as (? & ? & ? & ? & _ & -> & _).
  - destruct (super_replace p1 p0 1 old new buf torn Hu) as (? & ? & ? & ?); try done.
    by destruct Hu as (? & ? & ? & ? & _ & -> & _).
Qed.

(** ** Examples: the super block of a formatted device *)
Definition ex_copy_uuid : list Z := replicate 16 7.
Definition ex_zero_copy : list Z := replicate 4096 0.
Definition ex_header (v : Z) : cyanfs_super_header := mk_sheader ex_copy_uuid CYANFS_SUPER_MAGIC 0 v 0 0.

Lemma ex_uuid_bytes : Forall is_byte ex_copy_uuid.
Proof. apply Forall_replicate. unfold is_byte. lia. Qed.

Lemma ex_zero_copy_ok : is_copy ex_zero_copy.
Proof. split; [reflexivity|]. apply Forall_replicate. unfold is_byte. lia. Qed.

Lemma ex_header_ok v : 0 ≤ v < 10 → sheader_ok (ex_header v).
Proof.
  intros Hv. unfold sheader_ok, ex_header, is_u32, is_u64, U32_MAX, U64_MAX, CYANFS_SUPER_MAGIC. simpl.
  split_and!; try lia; try reflexivity. apply ex_uuid_bytes.
Qed.

Lemma ex_slot v : 0 ≤ v < 10 → slot_parity (seal_super (ex_header v) ex_zero_copy) (Z.land v 1).
Proof.
  intros Hv h id [D _]. destruct (seal_super_valid (ex_header v) ex_zero_copy (ex_header_ok v Hv) ex_zero_copy_ok) as [D' _].
  rewrite D' in D. injection D as <- _. reflexivity.
Qed.

Lemma journal_decode_sound_witness :
  cyanfs_journal_decode_entry_checked [255; 0; 0; 0] = Some (inl ERR_INVAL) ∧
  ¬ ∃ j r, entry_ok j ∧ [255; 0; 0; 0] = cyanfs_journal_encode_entry j ++ r.
Proof.
  assert (Hb : Forall is_byte [255; 0; 0; 0]) by (repeat constructor; unfold is_byte; lia).
  pose proof (journal_decode_sound [255; 0; 0; 0] Hb) as H.
  assert (E : cyanfs_journal_decode_entry_checked [255; 0; 0; 0] = Some (inl ERR_INVAL)) by reflexivity.
  rewrite E in H. exact (conj E (proj2 H)).
Defined.

Lemma super_update_atomic_witness :
  let p0 := seal_super (ex_header 0) ex_zero_copy in let p1 := seal_super (ex_header 1) ex_zero_copy in
  ∃ old, cyanfs_super_parse (super_block p0 p1) = Some (inr old) ∧
    cyanfs_super_parse (write_copy p0 p1 2 ex_zero_copy) = Some (inr old).
Proof.
  intros p0 p1.
  assert (Hc : ∀ v, 0 ≤ v < 10 → is_copy (seal_super (ex_header v) ex_zero_copy))
    by (intros v Hv; apply seal_super_copy; [by apply ex_header_ok|apply ex_zero_copy_ok]).
  pose (old := sh_set_crc (ex_header 1) (seal_crc (ex_header 1) ex_zero_copy)).
  assert (Hp : cyanfs_super_parse (super_block p0 p1) = Some (inr old)) by (vm_compute; reflexivity).
  exists old. split; [exact Hp|].
  apply (super_update_atomic p0 p1 old (ex_header 2) ex_zero_copy ex_zero_copy).
  - apply Hc. lia.
  - apply Hc. lia.
  - apply ex_zero_copy_ok.
  - apply ex_zero_copy_ok.
  - apply (ex_slot 0). lia.
  - apply (ex_slot 1). lia.
  - exact Hp.
  - apply ex_header_ok. lia.
  - reflexivity.
  - reflexivity.
  - reflexivity.
  - intros h id [D C]. vm_compute in D. injection D as <- _. vm_compute in C. discriminate C.
Defined.
