(* ===== verification/Spec.v ===== *)
(** * Spec: what a journal means

    The abstract file system a journal describes: a finite map from file ids
    to files (name, parent, size and the map from file extents to device
    extents), the greatest id ever used and the device extents that hold the
    journal itself.  [spec_apply] is the effect of one journal entry; it is
    [None] on an entry the abstract state does not admit.  [Replay] proves
    that [__cyanfs_super_journal_replay] implements it. *)
From Stdlib Require Import ZArith Lia.
From S2P Require Import Prelude Base Journal.

Record afile := mk_afile {
  a_name : cyanfs_file_name_t; a_parent : option Z; a_size : Z; a_extents : gmap Z Z }.

Record astate := mk_astate {
  a_total : Z; a_files : gmap Z afile; a_max : Z; a_journal : gset Z }.

Definition a_init (total : Z) : astate := mk_astate total ∅ 0 ∅.

(** The device extents bound to files. *)
Definition a_used (a : astate) : gset Z :=
  ⋃ ((λ p, map_img (a_extents p.2)) <$> map_to_list (a_files a)).

Definition a_free (a : astate) (b : Z) : bool :=
  bool_decide (0 ≤ b < a_total a ∧ b ∉ a_journal a ∧ b ∉ a_used a).

Definition a_names (fs : gmap Z afile) : list (list Z) := (λ p, a_name p.2) <$> map_to_list fs.
Definition a_parents (fs : gmap Z afile) : list (option Z) := (λ p, a_parent p.2) <$> map_to_list fs.

Definition a_name_taken (a : astate) (name : cyanfs_file_name_t) : bool :=
  bool_decide (name ∈ a_names (a_files a)).
Definition a_has_child (a : astate) (id : Z) : bool :=
  bool_decide (Some id ∈ a_parents (a_files a)).

Definition a_set_files (fs : gmap Z afile) (a : astate) : astate :=
  mk_astate (a_total a) fs (a_max a) (a_journal a).

(** A new file, child of [parent] if there is one. *)
Definition a_add (name : cyanfs_file_name_t) (id : Z) (parent : option Z) (size : Z) (a : astate) : astate :=
  mk_astate (a_total a) (<[id := mk_afile name parent size ∅]> (a_files a)) (Z.max (a_max a) id) (a_journal a).

(** The extents that survive a truncation: those that start before the new
    end of the file. *)
Definition a_keep (size : Z) (m : gmap Z Z) : gmap Z Z :=
  filter (λ p, CYANFS_EXTENT_SIZE * p.1 < size) m.

Definition a_can_create (name : cyanfs_file_name_t) (id : Z) (a : astate) : bool :=
  negb (id =? 0) && bool_decide (a_files a !! id = None) && negb (a_name_taken a name) &&
  (Z.of_nat (size (a_files a)) <? CYANFS_SUPER_MAX_FILES).

(** An extent index of a file of the given size. *)
Definition a_index_ok (i size : Z) : bool :=
  (i <=? CYANFS_EXTENT_INDEX_MAX) && (CYANFS_EXTENT_SIZE * i <? size).

Definition spec_apply (j : journal_body) (a : astate) : option astate :=
  match j with
  | J_CREATE name id =>
      match __cyanfs_file_name_normalize name with
      | (ST_OK, name) => if a_can_create name id a then Some (a_add name id None 0 a) else None
      | _ => None
      end
  | J_FORK name id pid =>
      match __cyanfs_file_name_normalize name, a_files a !! pid with
      | (ST_OK, name), Some p =>
          if a_can_create name id a && (pid <? id) then Some (a_add name id (Some pid) (a_size p) a) else None
      | _, _ => None
      end
  | J_TRUNCATE id size =>
      f ← a_files a !! id;
      if bool_decide (__cyanfs_file_size_validate size = ST_OK) && negb (a_has_child a id)
      then Some (a_set_files (<[id := mk_afile (a_name f) (a_parent f) size (a_keep size (a_extents f))]> (a_files a)) a)
      else None
  | J_DELETE id =>
      f ← a_files a !! id;
      if a_has_child a id then None else Some (a_set_files (delete id (a_files a)) a)
  | J_BIND id backend file =>
      f ← a_files a !! id;
      if a_index_ok file (a_size f) && a_free a backend && bool_decide (a_extents f !! file = None)
      then Some (a_set_files (<[id := mk_afile (a_name f) (a_parent f) (a_size f) (<[file := backend]> (a_extents f))]> (a_files a)) a)
      else None
  | J_UNBIND id file =>
      f ← a_files a !! id;
      if a_index_ok file (a_size f) && bool_decide (is_Some (a_extents f !! file))
      then Some (a_set_files (<[id := mk_afile (a_name f) (a_parent f) (a_size f) (delete file (a_extents f))]> (a_files a)) a)
      else None
  | J_RENAME name id =>
      match __cyanfs_file_name_normalize name, a_files a !! id with
      | (ST_OK, name), Some f =>
          if bool_decide (name ∈ a_names (delete id (a_files a))) then None
          else Some (a_set_files (<[id := mk_afile name (a_parent f) (a_size f) (a_extents f)]> (a_files a)) a)
      | _, _ => None
      end
  | J_NEXT backend =>
      if a_free a backend
      then Some (mk_astate (a_total a) (a_files a) (a_max a) ({[backend]} ∪ a_journal a)) else None
  end.

Fixpoint spec_run (js : list journal_body) (a : astate) : option astate :=
  match js with
  | [] => Some a
  | j :: js => a ← spec_apply j a; spec_run js a
  end.

Lemma spec_run_app js1 js2 a :
  spec_run (js1 ++ js2) a = a' ← spec_run js1 a; spec_run js2 a'.
Proof.
  revert a. induction js1 as [|j js1 IH]; intros a; simpl; [done|].
  destruct (spec_apply j a); simpl; [apply IH|done].
Qed.

(** ** Well-formed abstract states *)
Record a_wf (a : astate) : Prop := {
  a_wf_total : 1 ≤ a_total a ≤ CYANFS_EXTENT_COUNT_MAX;
  a_wf_max : 0 ≤ a_max a ≤ U64_MAX;
  a_wf_count : Z.of_nat (size (a_files a)) ≤ CYANFS_SUPER_MAX_FILES;
  a_wf_id : ∀ id f, a_files a !! id = Some f → 0 < id ≤ a_max a;
  a_wf_name : ∀ id f, a_files a !! id = Some f → name_normal (a_name f);
  a_wf_name_inj : ∀ id id' f f', a_files a !! id = Some f → a_files a !! id' = Some f' →
    a_name f = a_name f' → id = id';
  a_wf_parent : ∀ id f p, a_files a !! id = Some f → a_parent f = Some p →
    p < id ∧ is_Some (a_files a !! p);
  a_wf_size : ∀ id f, a_files a !! id = Some f →
    0 ≤ a_size f ≤ U64_MAX ∧ __cyanfs_file_size_validate (a_size f) = ST_OK;
  a_wf_extents : ∀ id f i b, a_files a !! id = Some f → a_extents f !! i = Some b →
    0 ≤ i ∧ a_index_ok i (a_size f) = true ∧ 0 ≤ b < a_total a;
  a_wf_unique : ∀ id id' f f' i i' b, a_files a !! id = Some f → a_files a !! id' = Some f' →
    a_extents f !! i = Some b → a_extents f' !! i' = Some b → id = id' ∧ i = i';
  a_wf_journal : ∀ b, b ∈ a_journal a → 0 ≤ b < a_total a ∧ b ∉ a_used a }.

(** ** Lemmas: queries *)
Lemma elem_of_a_used a b :
  b ∈ a_used a ↔ ∃ id f i, a_files a !! id = Some f ∧ a_extents f !! i = Some b.
Proof.
  unfold a_used. rewrite elem_of_union_list. split.
  - intros (X & HX & Hb). apply list_elem_of_fmap in HX as ([id f] & -> & Hin).
    apply elem_of_map_to_list in Hin. apply elem_of_map_img in Hb as [i Hi]. eauto.
  - intros (id & f & i & Hf & Hi). exists (map_img (a_extents f)). split.
    + apply list_elem_of_fmap. exists (id, f). split; [done|]. by apply elem_of_map_to_list.
    + apply elem_of_map_img. eauto.
Qed.

Lemma elem_of_a_names fs name :
  name ∈ a_names fs ↔ ∃ id f, fs !! id = Some f ∧ a_name f = name.
Proof.
  unfold a_names. rewrite list_elem_of_fmap. split.
  - intros ([id f] & -> & Hin). apply elem_of_map_to_list in Hin. eauto.
  - intros (id & f & Hf & <-). exists (id, f). split; [done|]. by apply elem_of_map_to_list.
Qed.

Lemma elem_of_a_parents fs p :
  p ∈ a_parents fs ↔ ∃ id f, fs !! id = Some f ∧ a_parent f = p.
Proof.
  unfold a_parents. rewrite list_elem_of_fmap. split.
  - intros ([id f] & -> & Hin). apply elem_of_map_to_list in Hin. eauto.
  - intros (id & f & Hf & <-). exists (id, f). split; [done|]. by apply elem_of_map_to_list.
Qed.
