(* ===== verification/CompactSpec.v ===== *)
(** * CompactSpec: the journal that recreates a state

    [compact_list a] is the journal the compaction writes for the abstract
    state [a]: for each file, in the order of the ids, its creation (or its
    fork), a truncation when its size is not the one it was born with, and
    its bindings; then, when the greatest id ever used is not that of a live
    file, the creation and the deletion of a marker that carries it.

    Running it from the empty state gives [a] back ([compact_list_run]), and
    it is never longer than the journal that led to [a]
    ([compact_len_apply]). *)
From Stdlib Require Import ZArith Lia.
From S2P Require Import Prelude Base Journal Spec.

(** ** The compacted journal *)
Definition a_born_size (a : astate) (f : afile) : Z :=
  match a_parent f with
  | Some p => match a_files a !! p with Some g => a_size g | None => 0 end
  | None => 0
  end.

Definition compact_birth (id : Z) (f : afile) : journal_body :=
  match a_parent f with
  | Some p => J_FORK (a_name f) id p
  | None => J_CREATE (a_name f) id
  end.

Definition compact_truncate (a : astate) (id : Z) (f : afile) : list journal_body :=
  if a_born_size a f =? a_size f then [] else [J_TRUNCATE id (a_size f)].

Definition compact_binds (id : Z) (m : gmap Z Z) : list journal_body :=
  i ← set_ordered (dom m); match m !! i with Some b => [J_BIND id b i] | None => [] end.

Definition compact_afile (a : astate) (id : Z) (f : afile) : list journal_body :=
  compact_birth id f :: compact_truncate a id f ++ compact_binds id (a_extents f).

Definition a_ids (a : astate) : list Z := set_ordered (dom (a_files a)).

Definition compact_files (a : astate) (ids : list Z) : list journal_body :=
  id ← ids; match a_files a !! id with Some f => compact_afile a id f | None => [] end.

(** [cyanfs_journal_compact_marker_name]: the names tried for the marker. *)
Definition marker_candidate (i : Z) : cyanfs_file_name_t :=
  [0xff; u8 (i / 255 + 1); u8 (i mod 255 + 1)] ++ replicate 125 0.

Fixpoint marker_search (taken : cyanfs_file_name_t → bool) (n : nat) (i : Z) : option cyanfs_file_name_t :=
  match n with
  | O => None
  | S n => if taken (marker_candidate i) then marker_search taken n (i + 1) else Some (marker_candidate i)
  end.

Definition a_marker_name (a : astate) : option cyanfs_file_name_t :=
  marker_search (a_name_taken a) (Z.to_nat (CYANFS_SUPER_MAX_FILES + 1)) 0.

Definition max_live (a : astate) : Z := foldr Z.max 0 (a_ids a).

Definition compact_marker (a : astate) : list journal_body :=
  if a_max a <=? max_live a then []
  else match a_marker_name a with
       | Some name => [J_CREATE name (a_max a); J_DELETE (a_max a)]
       | None => []
       end.

Definition compact_list (a : astate) : list journal_body := compact_files a (a_ids a) ++ compact_marker a.

(** ** The marker *)
Lemma marker_candidate_normal i : 0 ≤ i ≤ CYANFS_SUPER_MAX_FILES → name_normal (marker_candidate i).
Proof.
  change CYANFS_SUPER_MAX_FILES with 4096. intros Hi.
  assert (0 ≤ i / 255 ≤ 16) by (split; [apply Z.div_pos; lia|apply Zlt_succ_le, Z.div_lt_upper_bound; lia]).
  pose proof (Z.mod_pos_bound i 255 ltac:(lia)).
  unfold marker_candidate. unwrap. split.
  - split; [done|]. unfold is_byte. apply Forall_app. split; [repeat constructor; lia|].
    apply Forall_replicate. lia.
  - exists [0xff; i / 255 + 1; i mod 255 + 1], 125%nat. split_and!; [done|done|lia|].
    repeat constructor; lia.
Qed.

Lemma marker_candidate_inj i j :
  0 ≤ i ≤ CYANFS_SUPER_MAX_FILES → 0 ≤ j ≤ CYANFS_SUPER_MAX_FILES →
  marker_candidate i = marker_candidate j → i = j.
Proof.
  change CYANFS_SUPER_MAX_FILES with 4096. intros Hi Hj E. unfold marker_candidate in E.
  injection E as E1 E2.
  assert (0 ≤ i / 255 ≤ 16) by (split; [apply Z.div_pos; lia|apply Zlt_succ_le, Z.div_lt_upper_bound; lia]).
  assert (0 ≤ j / 255 ≤ 16) by (split; [apply Z.div_pos; lia|apply Zlt_succ_le, Z.div_lt_upper_bound; lia]).
  pose proof (Z.mod_pos_bound i 255 ltac:(lia)). pose proof (Z.mod_pos_bound j 255 ltac:(lia)).
  rewrite !u8_small in E1, E2 by lia.
  rewrite (Z.div_mod i 255), (Z.div_mod j 255) by lia. lia.
Qed.

Lemma marker_search_Some taken n i name :
  marker_search taken n i = Some name →
  taken name = false ∧ ∃ k, i ≤ k < i + Z.of_nat n ∧ name = marker_candidate k.
Proof.
  revert i. induction n as [|n IH]; intros i; [done|]. cbn [marker_search].
  destruct (taken (marker_candidate i)) eqn:E.
  - intros (? & k & Hk & ->)%IH. split; [done|]. exists k. split; [lia|done].
  - intros [= <-]. split; [done|]. exists i. split; [lia|done].
Qed.

Lemma marker_search_None taken n i :
  marker_search taken n i = None → ∀ k, i ≤ k < i + Z.of_nat n → taken (marker_candidate k) = true.
Proof.
  revert i. induction n as [|n IH]; intros i; [lia|]. cbn [marker_search].
  destruct (taken (marker_candidate i)) eqn:E; [|done].
  intros H k Hk. destruct (Z.eq_dec k i) as [->|]; [done|]. apply (IH (i + 1)); [done|lia].
Qed.

(** One more name is tried than there can be files, so one is free. *)
Lemma marker_name_found a :
  a_wf a → ∃ name, a_marker_name a = Some name ∧ name_normal name ∧ a_name_taken a name = false.
Proof.
  intros Hwf. unfold a_marker_name. destruct (marker_search _ _ 0) as [name|] eqn:E.
  - exists name. apply marker_search_Some in E as (Ht & k & Hk & ->). split_and!; try done.
    apply marker_candidate_normal. rewrite Z2Nat.id in Hk by done. lia.
  - exfalso. set (names := marker_candidate <$> seqZ 0 4097).
    assert (Hnd : NoDup names).
    { apply NoDup_fmap_2_strong; [|apply NoDup_seqZ]. intros i j Hi Hj.
      apply elem_of_seqZ in Hi, Hj. apply marker_candidate_inj; change CYANFS_SUPER_MAX_FILES with 4096; lia. }
    assert (Hsub : names ⊆ a_names (a_files a)).
    { intros nm (k & -> & Hk%elem_of_seqZ)%list_elem_of_fmap.
      pose proof (marker_search_None _ _ _ E k) as Ht.
      rewrite Z2Nat.id in Ht by done. change (CYANFS_SUPER_MAX_FILES + 1) with 4097 in Ht.
      specialize (Ht ltac:(lia)). by apply bool_decide_eq_true in Ht. }
    apply (NoDup_submseteq _ _ Hnd) in Hsub. apply submseteq_length in Hsub.
    unfold names, a_names in Hsub. rewrite !length_fmap, length_seqZ, length_map_to_list in Hsub.
    pose proof (a_wf_count _ Hwf). change CYANFS_SUPER_MAX_FILES with 4096 in *. lia.
Qed.

(** ** Running the compacted journal *)
Lemma normalize_normal name : name_normal name → __cyanfs_file_name_normalize name = (ST_OK, name).
Proof.
  intros Hn. pose proof Hn as [Hi (s & k & E & Hs & Hk & Hnz)].
  pose proof (name_normalize_spec name Hi) as H.
  destruct (__cyanfs_file_name_normalize name) as [[|e] name'].
  - destruct H as (_ & _ & H). by rewrite H.
  - destruct H as (_ & _ & [H|H]).
    + rewrite E, c_string_app_zeros in H by done. done.
    + exfalso. apply H. unfold name_zero. rewrite E. destruct Hi as [Hl _]. rewrite E, length_app, length_replicate in Hl.
      unfold CYANFS_FILE_NAME_SIZE in Hl. rewrite app_nth2 by lia.
      apply nth_replicate_same.
Qed.

Lemma spec_create name id a :
  name_normal name →
  spec_apply (J_CREATE name id) a = if a_can_create name id a then Some (a_add name id None 0 a) else None.
Proof. intros Hn. unfold spec_apply. by rewrite normalize_normal. Qed.

(** The part of [a] made of the files of [ids]. *)
Definition a_prefix (a : astate) (ids : list Z) : astate :=
  mk_astate (a_total a) (filter (λ p, p.1 ∈ ids) (a_files a)) (foldr Z.max 0 ids) ∅.

Lemma prefix_lookup a ids j g :
  a_files (a_prefix a ids) !! j = Some g ↔ a_files a !! j = Some g ∧ j ∈ ids.
Proof. apply map_lookup_filter_Some. Qed.

Lemma foldr_max_app l x : foldr Z.max 0 (l ++ [x]) = Z.max (foldr Z.max 0 l) (Z.max x 0).
Proof. induction l as [|y l IH]; simpl; [lia|]. rewrite IH. lia. Qed.

Lemma foldr_max_le l x : x ∈ l → x ≤ foldr Z.max 0 l.
Proof. induction 1 as [x l|x y l _ IH]; simpl; lia. Qed.

Lemma foldr_max_in l : foldr Z.max 0 l = 0 ∨ foldr Z.max 0 l ∈ l.
Proof.
  induction l as [|y l IH]; simpl; [by left|].
  destruct (Z.max_spec y (foldr Z.max 0 l)) as [[? ->]|[? ->]]; [|set_solver].
  destruct IH as [->|]; [by left|set_solver].
Qed.

(** The state while file [id] is being recreated: the earlier files, and
    [id] with the extents [m]. *)
Definition a_growing (a : astate) (ids : list Z) (id : Z) (f : afile) (m : gmap Z Z) : astate :=
  mk_astate (a_total a)
    (<[id := mk_afile (a_name f) (a_parent f) (a_size f) m]> (a_files (a_prefix a ids)))
    (foldr Z.max 0 (ids ++ [id])) ∅.

Section run.
Context (a : astate) (Hwf : a_wf a).
Context (ids : list Z) (id : Z) (rest : list Z) (Hids : a_ids a = ids ++ id :: rest).
Context (f : afile) (Hf : a_files a !! id = Some f).

Lemma ids_before j : j ∈ ids → j < id.
Proof.
  intros Hj. pose proof (set_ordered_sorted (dom (a_files a))) as Hs.
  pose proof (NoDup_set_ordered (dom (a_files a))) as Hnd. fold (a_ids a) in *. rewrite Hids in *.
  assert (j ≤ id) by (apply (StronglySorted_app_1_elem_of Z.le ids (id :: rest)); set_solver).
  apply NoDup_app in Hnd as (_ & Hd & _). specialize (Hd j Hj).
  assert (j ≠ id) by set_solver. lia.
Qed.

Lemma id_pos : 0 < id ≤ a_max a.
Proof. by apply (a_wf_id _ Hwf id f). Qed.

Lemma parent_done p : a_parent f = Some p → p ∈ ids ∧ p < id ∧ is_Some (a_files a !! p).
Proof.
  intros Hp. destruct (a_wf_parent _ Hwf id f p Hf Hp) as [Hlt Hs]. split_and!; try done.
  assert (Hin : p ∈ a_ids a) by (apply elem_of_set_ordered, elem_of_dom; done).
  rewrite Hids in Hin. apply elem_of_app in Hin as [|[->|Hin]%elem_of_cons]; [done|lia|].
  pose proof (set_ordered_sorted (dom (a_files a))) as Hso. fold (a_ids a) in Hso. rewrite Hids in Hso.
  apply StronglySorted_app_1_r in Hso. apply StronglySorted_cons in Hso as [Hfa _].
  rewrite Forall_forall in Hfa. specialize (Hfa p Hin). lia.
Qed.

Lemma prefix_fresh : a_files (a_prefix a ids) !! id = None.
Proof.
  apply eq_None_not_Some. intros [g [_ Hin]%prefix_lookup]. by apply ids_before in Hin; lia.
Qed.

Lemma prefix_can_create : a_can_create (a_name f) id (a_prefix a ids) = true.
Proof.
  pose proof id_pos. unfold a_can_create. rewrite !andb_true_iff. split_and!.
  - destruct (Z.eqb_spec id 0); [lia|done].
  - apply bool_decide_eq_true, prefix_fresh.
  - apply negb_true_iff, bool_decide_eq_false. rewrite elem_of_a_names. intros (j & g & [Hg Hj]%prefix_lookup & E).
    pose proof (a_wf_name_inj _ Hwf j id g f Hg Hf E). apply ids_before in Hj. lia.
  - apply Z.ltb_lt. pose proof (a_wf_count _ Hwf).
    assert (size (a_files (a_prefix a ids)) < size (a_files a))%nat; [|lia].
    apply map_subset_size. split; [apply map_filter_subseteq|]. intros Hsub.
    pose proof (lookup_weaken _ _ _ _ Hf Hsub) as Hin. rewrite prefix_fresh in Hin. done.
Qed.

Lemma birth_run :
  spec_apply (compact_birth id f) (a_prefix a ids) =
  Some (a_add (a_name f) id (a_parent f) (a_born_size a f) (a_prefix a ids)).
Proof.
  pose proof (normalize_normal _ (a_wf_name _ Hwf id f Hf)) as Hn.
  unfold compact_birth, a_born_size. destruct (a_parent f) as [p|] eqn:Ep.
  - destruct (parent_done p Ep) as (Hin & Hlt & [g Hg]). unfold spec_apply. rewrite Hn, Hg.
    rewrite (proj2 (prefix_lookup a ids p g)) by done. rewrite prefix_can_create.
    by rewrite (proj2 (Z.ltb_lt p id)).
  - unfold spec_apply. by rewrite Hn, prefix_can_create.
Qed.

Lemma no_child_yet sz : a_has_child (a_add (a_name f) id (a_parent f) sz (a_prefix a ids)) id = false.
Proof.
  apply bool_decide_eq_false. rewrite elem_of_a_parents. cbn [a_add a_files].
  intros (j & g & [[<- <-]|[Hne Hg]]%lookup_insert_Some & Hp); simpl in Hp.
  - destruct (parent_done id Hp) as (_ & ? & _). lia.
  - apply prefix_lookup in Hg as [Hg Hj]. destruct (a_wf_parent _ Hwf j g id Hg Hp) as [? _].
    apply ids_before in Hj. lia.
Qed.

Lemma add_growing :
  a_add (a_name f) id (a_parent f) (a_size f) (a_prefix a ids) = a_growing a ids id f ∅.
Proof.
  pose proof id_pos. unfold a_add, a_growing. f_equal. cbn [a_max a_prefix]. rewrite foldr_max_app. lia.
Qed.

Lemma truncate_run :
  spec_run (compact_truncate a id f)
    (a_add (a_name f) id (a_parent f) (a_born_size a f) (a_prefix a ids)) = Some (a_growing a ids id f ∅).
Proof.
  rewrite <- add_growing. unfold compact_truncate.
  destruct (Z.eqb_spec (a_born_size a f) (a_size f)) as [->|Hne]; [done|].
  cbn [spec_run]. unfold spec_apply. cbn [a_files a_add]. rewrite lookup_insert_eq. cbn [mbind option_bind].
  rewrite no_child_yet. rewrite bool_decide_true by (by apply (a_wf_size _ Hwf id f)). cbn [andb negb].
  unfold a_set_files, a_add. cbn [a_files a_total a_max a_journal]. cbn [mbind option_bind].
  rewrite insert_insert_eq. done.
Qed.

Lemma bind_run m i b :
  m ⊆ a_extents f → m !! i = None → a_extents f !! i = Some b →
  spec_apply (J_BIND id b i) (a_growing a ids id f m) = Some (a_growing a ids id f (<[i := b]> m)).
Proof.
  intros Hm Hi Hb. destruct (a_wf_extents _ Hwf id f i b Hf Hb) as (_ & Hix & Hr).
  unfold spec_apply. cbn [a_files a_growing]. rewrite lookup_insert_eq. cbn [mbind option_bind a_size a_extents].
  rewrite Hix, (bool_decide_true (m !! i = None)) by done.
  assert (a_free (a_growing a ids id f m) b = true) as ->.
  { apply bool_decide_eq_true. split; [done|]. split; [set_solver|]. rewrite elem_of_a_used. cbn [a_growing a_files].
    intros (j & g & k & [[<- <-]|[Hne Hg]]%lookup_insert_Some & Hk).
    - simpl in Hk. pose proof (lookup_weaken _ _ _ _ Hk Hm) as Hk'.
      destruct (a_wf_unique _ Hwf id id f f k i b Hf Hf Hk' Hb) as [_ ->]. congruence.
    - apply prefix_lookup in Hg as [Hg Hj].
      destruct (a_wf_unique _ Hwf j id g f k i b Hg Hf Hk Hb) as [-> _]. done. }
  cbn [andb]. unfold a_set_files, a_growing. cbn [a_files a_total a_max a_journal a_name a_parent].
  by rewrite insert_insert_eq.
Qed.

Lemma binds_run ks m :
  NoDup ks → m ⊆ a_extents f → (∀ i, i ∈ ks → m !! i = None ∧ is_Some (a_extents f !! i)) →
  ∃ m', spec_run (i ← ks; match a_extents f !! i with Some b => [J_BIND id b i] | None => [] end)
          (a_growing a ids id f m) = Some (a_growing a ids id f m') ∧
        m' ⊆ a_extents f ∧ (∀ i, is_Some (m' !! i) ↔ i ∈ ks ∨ is_Some (m !! i)).
Proof.
  intros Hnd. revert m. induction Hnd as [|i ks Hni Hnd IH]; intros m Hm Hks.
  { exists m. split_and!; [done|done|]. intros i. set_solver. }
  destruct (Hks i) as [Hi [b Hb]]; [set_solver|].
  destruct (IH (<[i := b]> m)) as (m' & Hrun & Hsub & Hdom).
  - by apply insert_subseteq_l.
  - intros j Hj. rewrite lookup_insert_ne by set_solver. apply Hks. set_solver.
  - exists m'. split_and!; [|done|].
    + rewrite bind_cons, Hb. cbn [app spec_run]. rewrite bind_run by done. exact Hrun.
    + intros j. rewrite Hdom, elem_of_cons. destruct (decide (j = i)) as [->|].
      * rewrite lookup_insert_eq. naive_solver.
      * rewrite lookup_insert_ne by done. naive_solver.
Qed.

Lemma afile_run :
  spec_run (compact_afile a id f) (a_prefix a ids) = Some (a_prefix a (ids ++ [id])).
Proof.
  unfold compact_afile. cbn [spec_run]. rewrite birth_run. cbn [mbind option_bind].
  rewrite spec_run_app, truncate_run. cbn [mbind option_bind].
  destruct (binds_run (set_ordered (dom (a_extents f))) ∅) as (m & Hrun & Hsub & Hdom).
  - apply NoDup_set_ordered.
  - apply map_empty_subseteq.
  - intros i Hi. apply elem_of_set_ordered, elem_of_dom in Hi. by rewrite lookup_empty.
  - assert (m = a_extents f) as ->.
    { apply map_eq. intros i. destruct (a_extents f !! i) as [b|] eqn:Eb.
      - assert (is_Some (m !! i)) as [b' Hb'].
        { apply Hdom. left. apply elem_of_set_ordered, elem_of_dom. eauto. }
        pose proof (lookup_weaken _ _ _ _ Hb' Hsub). congruence.
      - apply eq_None_not_Some. intros [b' Hb']. pose proof (lookup_weaken _ _ _ _ Hb' Hsub). congruence. }
    unfold compact_binds. rewrite Hrun. f_equal. unfold a_growing, a_prefix. f_equal. cbn [a_files].
    assert (mk_afile (a_name f) (a_parent f) (a_size f) (a_extents f) = f) as -> by (by destruct f).
    apply map_eq. intros j. apply option_eq. intros g.
    rewrite lookup_insert_Some, !map_lookup_filter_Some, elem_of_app. simpl.
    rewrite list_elem_of_singleton. split.
    + intros [[<- <-]|(? & ? & ?)]; auto.
    + intros [Hg [Hj| ->]]; [|left; split; congruence]. right. split_and!; try done.
      apply ids_before in Hj. lia.
Qed.
End run.

Lemma files_run a ids rest :
  a_wf a → a_ids a = ids ++ rest → spec_run (compact_files a rest) (a_prefix a ids) = Some (a_prefix a (a_ids a)).
Proof.
  intros Hwf. revert ids. induction rest as [|id rest IH]; intros ids Hids.
  - rewrite app_nil_r in Hids. by rewrite Hids.
  - assert (is_Some (a_files a !! id)) as [f Hf].
    { apply elem_of_dom, elem_of_set_ordered. fold (a_ids a). rewrite Hids. set_solver. }
    unfold compact_files. rewrite bind_cons, Hf, spec_run_app.
    rewrite (afile_run a Hwf ids id rest Hids f Hf). cbn [mbind option_bind].
    apply IH. by rewrite Hids, <- app_assoc.
Qed.

Definition a_set_journal (X : gset Z) (a : astate) : astate :=
  mk_astate (a_total a) (a_files a) (a_max a) X.

(** There is room for the marker: the greatest id used is live or the table
    is not full.  New files get ids greater than every id used before, so the
    states a journal of such creations reaches satisfy it ([slot_apply]). *)
Definition a_slot (a : astate) : Prop :=
  is_Some (a_files a !! a_max a) ∨ Z.of_nat (size (a_files a)) < CYANFS_SUPER_MAX_FILES.

Lemma prefix_all a : a_files (a_prefix a (a_ids a)) = a_files a.
Proof.
  apply map_eq. intros j. apply option_eq. intros g. rewrite prefix_lookup. split; [by intros []|].
  intros Hg. split; [done|]. apply elem_of_set_ordered, elem_of_dom. eauto.
Qed.

Lemma max_live_le a : a_wf a → max_live a ≤ a_max a.
Proof.
  intros Hwf. unfold max_live. pose proof (a_wf_max _ Hwf). destruct (foldr_max_in (a_ids a)) as [->|Hin]; [lia|].
  apply elem_of_set_ordered, elem_of_dom in Hin as [f Hf]. apply (a_wf_id _ Hwf _ _ Hf).
Qed.

Lemma max_live_iff a : a_wf a → a_max a ≤ max_live a ↔ a_max a = 0 ∨ is_Some (a_files a !! a_max a).
Proof.
  intros Hwf. pose proof (max_live_le a Hwf). pose proof (a_wf_max _ Hwf). split.
  - intros Hle. assert (E : max_live a = a_max a) by lia. unfold max_live in E.
    destruct (foldr_max_in (a_ids a)) as [Hz|Hin]; rewrite E in *; [by left|].
    right. by apply elem_of_set_ordered, elem_of_dom in Hin.
  - intros [->|Hs].
    + unfold max_live. destruct (foldr_max_in (a_ids a)) as [->|Hin]; [done|].
      apply elem_of_set_ordered, elem_of_dom in Hin as [f Hf]. pose proof (a_wf_id _ Hwf _ _ Hf). lia.
    + apply foldr_max_le, elem_of_set_ordered, elem_of_dom. done.
Qed.

(** Running the compacted journal from the empty state gives the state back. *)
Lemma compact_list_run_lemma a :
  a_wf a → a_slot a →
  spec_run (compact_list a) (a_init (a_total a)) = Some (a_set_journal ∅ a).
Proof.
  intros Hwf Hslot. unfold compact_list. rewrite spec_run_app.
  assert (a_init (a_total a) = a_prefix a []) as ->.
  { unfold a_init, a_prefix. f_equal. symmetry. apply map_empty. intros j. apply eq_None_not_Some.
    intros [g [_ Hin]%map_lookup_filter_Some]. set_solver. }
  rewrite (files_run a [] (a_ids a)) by done. cbn [mbind option_bind].
  unfold compact_marker. destruct (Z.leb_spec (a_max a) (max_live a)) as [Hle|Hgt].
  - cbn [spec_run]. f_equal. unfold a_set_journal. pose proof (max_live_le a Hwf).
    replace (a_max a) with (max_live a) by lia. by rewrite <- prefix_all.
  - assert (Hnl : a_files a !! a_max a = None).
    { apply eq_None_not_Some. intros Hs. assert (a_max a ≤ max_live a) by (apply max_live_iff; auto). lia. }
    destruct (marker_name_found a Hwf) as (name & -> & Hnn & Hnt).
    assert (Hpos : a_max a ≠ 0) by (intros E; assert (a_max a ≤ max_live a) by (apply max_live_iff; auto); lia).
    cbn [spec_run]. rewrite spec_create by done.
    assert (a_can_create name (a_max a) (a_prefix a (a_ids a)) = true) as ->.
    { unfold a_can_create, a_name_taken. rewrite prefix_all. fold (a_name_taken a name).
      rewrite Hnt, (bool_decide_true _ Hnl). destruct (Z.eqb_spec (a_max a) 0); [done|]. simpl.
      apply Z.ltb_lt. destruct Hslot as [Hs|?]; [|done]. rewrite Hnl in Hs. by destruct Hs. }
    cbn [mbind option_bind]. unfold spec_apply, a_add. cbn [a_files]. rewrite lookup_insert_eq. cbn [mbind option_bind].
    rewrite prefix_all.
    assert (a_has_child (mk_astate (a_total (a_prefix a (a_ids a)))
       (<[a_max a := mk_afile name None 0 ∅]> (a_files a)) (Z.max (a_max (a_prefix a (a_ids a))) (a_max a))
       (a_journal (a_prefix a (a_ids a)))) (a_max a) = false) as ->.
    { apply bool_decide_eq_false. rewrite elem_of_a_parents. cbn [a_files].
      intros (j & g & [[<- <-]|[Hne Hg]]%lookup_insert_Some & Hp); [done|].
      destruct (a_wf_parent _ Hwf j g (a_max a) Hg Hp) as [_ Hs]. rewrite Hnl in Hs. by destruct Hs. }
    unfold a_set_files, a_set_journal. cbn [a_total a_files a_max a_journal a_prefix].
    rewrite delete_insert_id by done. fold (max_live a). cbn [mbind option_bind]. do 2 f_equal. lia.
Qed.

(** ** The length of the compacted journal *)
Definition total_weight (w : Z → afile → nat) (fs : gmap Z afile) : nat :=
  sum_list_with (λ p, w p.1 p.2) (map_to_list fs).

Lemma sum_list_with_perm {A} (g : A → nat) l l' : l ≡ₚ l' → sum_list_with g l = sum_list_with g l'.
Proof. induction 1; simpl; lia. Qed.

Lemma total_weight_delete w fs id f :
  fs !! id = Some f → total_weight w fs = (w id f + total_weight w (delete id fs))%nat.
Proof.
  intros Hf. unfold total_weight. rewrite <- (sum_list_with_perm _ _ _ (map_to_list_delete fs id f Hf)). done.
Qed.

Lemma total_weight_insert w fs id f :
  total_weight w (<[id := f]> fs) = (w id f + total_weight w (delete id fs))%nat.
Proof.
  rewrite (total_weight_delete w _ id f) by apply lookup_insert_eq. by rewrite delete_insert_eq.
Qed.

Lemma total_weight_ext w w' fs :
  (∀ j g, fs !! j = Some g → w j g = w' j g) → total_weight w fs = total_weight w' fs.
Proof.
  intros H. unfold total_weight.
  assert (Hl : ∀ p, p ∈ map_to_list fs → w p.1 p.2 = w' p.1 p.2).
  { intros [j g] Hp. by apply H, elem_of_map_to_list. }
  induction (map_to_list fs) as [|p l IH]; simpl; [done|]. rewrite Hl by set_solver. rewrite IH; [done|set_solver].
Qed.

Definition afile_weight (a : astate) (id : Z) (f : afile) : nat :=
  (1 + (if (a_born_size a f =? a_size f)%Z then 0 else 1) + size (a_extents f))%nat.

Lemma length_bind {A B} (g : A → list B) l : length (x ← l; g x) = sum_list_with (λ x, length (g x)) l.
Proof. induction l as [|x l IH]; [done|]. rewrite bind_cons, length_app, IH. done. Qed.

Lemma length_compact_binds id m : length (compact_binds id m) = size m.
Proof.
  unfold compact_binds. rewrite length_bind.
  assert (E : ∀ l, (∀ i, i ∈ l → is_Some (m !! i)) →
    sum_list_with (λ i, length match m !! i with Some b => [J_BIND id b i] | None => [] end) l = length l).
  { intros l. induction l as [|i l IH]; intros Hl; [done|]. simpl. destruct (Hl i) as [b ->]; [set_solver|].
    rewrite IH; [done|]. set_solver. }
  rewrite E.
  - rewrite (Permutation_length (set_ordered_Permutation _)). by rewrite <- size_dom.
  - intros i Hi. by apply elem_of_set_ordered, elem_of_dom in Hi.
Qed.

Lemma length_compact_afile a id f : length (compact_afile a id f) = afile_weight a id f.
Proof.
  unfold compact_afile, afile_weight, compact_truncate. simpl. rewrite length_app, length_compact_binds.
  by destruct (_ =? _).
Qed.

Definition marker_len (a : astate) : nat :=
  if decide (a_max a = 0 ∨ is_Some (a_files a !! a_max a)) then 0 else 2.

Lemma length_compact_marker a : a_wf a → length (compact_marker a) = marker_len a.
Proof.
  intros Hwf. unfold compact_marker, marker_len. pose proof (max_live_iff a Hwf) as Hm.
  destruct (marker_name_found a Hwf) as (name & -> & _).
  case_decide as Hd; destruct (Z.leb_spec (a_max a) (max_live a)) as [Hle|Hgt]; try done; exfalso.
  - apply Hm in Hd. lia.
  - tauto.
Qed.

Lemma length_compact_list a :
  a_wf a → length (compact_list a) = (total_weight (afile_weight a) (a_files a) + marker_len a)%nat.
Proof.
  intros Hwf. unfold compact_list. rewrite length_app, length_compact_marker by done. f_equal.
  unfold compact_files, total_weight. rewrite length_bind.
  rewrite (sum_list_with_perm _ (a_ids a) (map_to_list (a_files a)).*1).
  - assert (Hl : ∀ p, p ∈ map_to_list (a_files a) → a_files a !! p.1 = Some p.2).
    { intros [j g]. apply elem_of_map_to_list. }
    induction (map_to_list (a_files a)) as [|p l IH]; [done|]. rewrite fmap_cons. cbn [sum_list_with].
    rewrite Hl by set_solver. rewrite length_compact_afile, IH; [done|]. set_solver.
  - unfold a_ids. rewrite set_ordered_Permutation. apply NoDup_Permutation.
    + apply NoDup_elements.
    + apply NoDup_fst_map_to_list.
    + intros j. rewrite elem_of_elements, elem_of_dom, list_elem_of_fmap. split.
      * intros [g Hg]. exists (j, g). split; [done|]. by apply elem_of_map_to_list.
      * intros ([j' g] & -> & Hg%elem_of_map_to_list). eauto.
Qed.

(** The weight of the other files does not change when a file is replaced, if
    its size stays or it has no child. *)
Lemma weight_others a a' id :
  (∀ p, p ≠ id → a_files a' !! p = a_files a !! p) →
  (∀ j g, j ≠ id → a_files a !! j = Some g → a_parent g = Some id →
     (a_size <$> a_files a' !! id) = (a_size <$> a_files a !! id)) →
  total_weight (afile_weight a') (delete id (a_files a)) = total_weight (afile_weight a) (delete id (a_files a)).
Proof.
  intros Hsame Hsz. apply total_weight_ext. intros j g [Hne Hg]%lookup_delete_Some.
  unfold afile_weight. assert (a_born_size a' g = a_born_size a g) as ->; [|done].
  unfold a_born_size. destruct (a_parent g) as [p|] eqn:Ep; [|done].
  destruct (decide (p = id)) as [->|Hp]; [|by rewrite Hsame].
  specialize (Hsz j g (not_eq_sym Hne) Hg Ep).
  destruct (a_files a' !! id), (a_files a !! id); simplify_eq/=; done.
Qed.

(** A new file weighs one. *)
Lemma weight_add a name id parent size :
  a_wf a → a_files a !! id = None →
  (match parent with
   | Some p => p ≠ id ∧ ∃ g, a_files a !! p = Some g ∧ size = a_size g
   | None => size = 0 end) →
  let a' := a_add name id parent size a in
  a_wf a' → (length (compact_list a') ≤ length (compact_list a) + 1)%nat.
Proof.
  intros Hwf Hid Hpar a' Hwf'. rewrite !length_compact_list by done.
  assert (Hfs : a_files a' = <[id := mk_afile name parent size ∅]> (a_files a)) by done.
  assert (Hmk : (marker_len a' ≤ marker_len a)%nat).
  { unfold marker_len. rewrite Hfs. cbn [a_max a_add a']. unfold a'. cbn [a_add a_max].
    destruct (Z.max_spec (a_max a) id) as [[Hlt ->]|[Hge ->]].
    - rewrite decide_True; [lia|]. right. rewrite lookup_insert_eq. eauto.
    - destruct (decide (a_max a = 0 ∨ is_Some (a_files a !! a_max a))) as [Hd|Hd]; [|case_decide; lia].
      rewrite decide_True; [lia|]. destruct Hd as [?|Hd]; [by left|right].
      destruct (decide (id = a_max a)) as [<-|]; [by rewrite lookup_insert_eq|by rewrite lookup_insert_ne]. }
  assert (Hw : afile_weight a' id (mk_afile name parent size ∅) = 1%nat).
  { unfold afile_weight, a_born_size. cbn [a_parent a_size a_extents]. rewrite Hfs.
    destruct parent as [p|].
    - destruct Hpar as (Hne & g & Hg & ->). rewrite lookup_insert_ne, Hg, Z.eqb_refl by done. done.
    - by rewrite Hpar. }
  rewrite Hfs, total_weight_insert, Hw. fold a'.
  rewrite (weight_others a a' id).
  - rewrite delete_id by done. lia.
  - intros p Hp. rewrite Hfs. by rewrite lookup_insert_ne.
  - intros j g _ Hg Hp. destruct (a_wf_parent _ Hwf j g id Hg Hp) as [_ Hs]. rewrite Hid in Hs. by destruct Hs.
Qed.

(** Replacing a file by one that weighs at most one more. *)
Lemma weight_update a id f f' :
  a_wf a → a_files a !! id = Some f →
  let a' := a_set_files (<[id := f']> (a_files a)) a in
  a_wf a' → (afile_weight a' id f' ≤ afile_weight a id f + 1)%nat →
  (a_size f' = a_size f ∨ a_has_child a id = false) →
  (length (compact_list a') ≤ length (compact_list a) + 1)%nat.
Proof.
  intros Hwf Hf a' Hwf' Hw Hsz. rewrite !length_compact_list by done.
  assert (Hfs : a_files a' = <[id := f']> (a_files a)) by done.
  assert (Hmk : marker_len a' = marker_len a).
  { unfold marker_len. rewrite Hfs. change (a_max a') with (a_max a).
    destruct (decide (id = a_max a)) as [E|]; [|by rewrite lookup_insert_ne].
    rewrite !decide_True; [done| |]; right; rewrite <- E; [eauto|rewrite lookup_insert_eq; eauto]. }
  rewrite Hmk, Hfs, total_weight_insert, (total_weight_delete _ (a_files a) id f Hf). fold a'.
  rewrite (weight_others a a' id).
  - lia.
  - intros p Hp. rewrite Hfs. by rewrite lookup_insert_ne.
  - intros j g _ Hg Hp. rewrite Hfs, lookup_insert_eq, Hf. simpl. destruct Hsz as [->|Hc]; [done|].
    apply bool_decide_eq_false in Hc. exfalso. apply Hc, elem_of_a_parents. eauto.
Qed.

Lemma born_update a id f f' :
  a_wf a → a_files a !! id = Some f → a_parent f' = a_parent f →
  a_born_size (a_set_files (<[id := f']> (a_files a)) a) f' = a_born_size a f.
Proof.
  intros Hwf Hf Hp. unfold a_born_size. rewrite Hp. destruct (a_parent f) as [p|] eqn:Ep; [|done].
  destruct (a_wf_parent _ Hwf id f p Hf Ep) as [Hlt _]. cbn [a_files a_set_files].
  by rewrite lookup_insert_ne by lia.
Qed.

(** One journal entry lengthens the compacted journal by at most one. *)
Lemma compact_len_apply a j a' :
  a_wf a → spec_apply j a = Some a' → a_wf a' →
  (length (compact_list a') ≤ length (compact_list a) + 1)%nat.
Proof.
  intros Hwf Hj Hwf'. destruct j as [b|name id|id size|name id pid|id|id b i|id i|name id]; cbn [spec_apply] in Hj.
  - destruct (a_free a b); [|done]. injection Hj as <-.
    assert (compact_list (mk_astate (a_total a) (a_files a) (a_max a) ({[b]} ∪ a_journal a)) = compact_list a)
      as -> by done. lia.
  - destruct (__cyanfs_file_name_normalize name) as [[|] nm]; [|done].
    destruct (a_can_create nm id a) eqn:Hc; [|done]. injection Hj as <-. unfold a_can_create in Hc.
    rewrite !andb_true_iff, bool_decide_eq_true in Hc. apply weight_add; try done. apply Hc.
  - destruct (a_files a !! id) as [f|] eqn:Hf; [|done]. cbn [mbind option_bind] in Hj.
    destruct (_ && _) eqn:Hg; [|done]. injection Hj as <-. apply andb_true_iff in Hg as [_ Hc].
    apply negb_true_iff in Hc. apply (weight_update a id f); try done; [|by right].
    unfold afile_weight. cbn [a_extents a_size].
    assert (base.size (a_keep size (a_extents f)) ≤ base.size (a_extents f))%nat by apply map_subseteq_size, map_filter_subseteq.
    repeat case_bool; lia.
  - destruct (__cyanfs_file_name_normalize name) as [[|] nm]; [|done].
    destruct (a_files a !! pid) as [p|] eqn:Hp; [|done].
    destruct (a_can_create nm id a) eqn:Hc; [|done]. simpl in Hj. destruct (Z.ltb_spec pid id); [|done].
    injection Hj as <-. unfold a_can_create in Hc. rewrite !andb_true_iff, bool_decide_eq_true in Hc.
    apply weight_add; try done; [apply Hc|]. split; [lia|eauto].
  - destruct (a_files a !! id) as [f|] eqn:Hf; [|done]. cbn [mbind option_bind] in Hj.
    destruct (a_has_child a id) eqn:Hc; [done|]. injection Hj as <-. rewrite !length_compact_list by done.
    set (a' := a_set_files _ a) in *. change (a_files a') with (delete id (a_files a)).
    rewrite (total_weight_delete _ (a_files a) id f Hf), (weight_others a a' id).
    + assert (marker_len a' ≤ 2)%nat by (unfold marker_len; case_decide; lia). unfold afile_weight at 2. lia.
    + intros q Hq. simpl. by rewrite lookup_delete_ne.
    + intros j g _ Hg Hp. apply bool_decide_eq_false in Hc. exfalso. apply Hc, elem_of_a_parents. eauto.
  - destruct (a_files a !! id) as [f|] eqn:Hf; [|done]. cbn [mbind option_bind] in Hj.
    destruct (_ && _) eqn:Hg; [|done]. injection Hj as <-. apply andb_true_iff in Hg as [_ Hn].
    apply bool_decide_eq_true in Hn. apply (weight_update a id f); try done; [|by left].
    unfold afile_weight. rewrite (born_update a id f) by done. cbn [a_extents a_size].
    rewrite map_size_insert_None by done. lia.
  - destruct (a_files a !! id) as [f|] eqn:Hf; [|done]. cbn [mbind option_bind] in Hj.
    destruct (_ && _) eqn:Hg; [|done]. injection Hj as <-. apply (weight_update a id f); try done; [|by left].
    unfold afile_weight. rewrite (born_update a id f) by done. cbn [a_extents a_size].
    assert (base.size (delete i (a_extents f)) ≤ base.size (a_extents f))%nat by apply map_subseteq_size, delete_subseteq.
    lia.
  - destruct (__cyanfs_file_name_normalize name) as [[|] nm]; [|done].
    destruct (a_files a !! id) as [f|] eqn:Hf; [|done]. cbn [mbind option_bind] in Hj.
    case_bool_decide; [done|]. injection Hj as <-. apply (weight_update a id f); try done; [|by left].
    unfold afile_weight. rewrite (born_update a id f) by done. cbn [a_extents a_size]. lia.
Qed.

(** ** Room for the marker *)
Definition fresh_entry (a : astate) (j : journal_body) : Prop :=
  match j with
  | J_CREATE _ id => a_max a < id
  | J_FORK _ id _ => a_max a < id
  | _ => True
  end.

Lemma slot_update a id f f' :
  a_files a !! id = Some f → a_slot a → a_slot (a_set_files (<[id := f']> (a_files a)) a).
Proof.
  intros Hf [Hs|Hs].
  - left. cbn [a_files a_max a_set_files]. destruct (decide (id = a_max a)) as [<-|].
    + rewrite lookup_insert_eq. eauto.
    + by rewrite lookup_insert_ne.
  - right. cbn [a_files a_set_files]. rewrite map_size_insert_Some by eauto. done.
Qed.

Lemma slot_apply a j a' :
  a_wf a → a_slot a → fresh_entry a j → spec_apply j a = Some a' → a_slot a'.
Proof.
  intros Hwf Hs Hfr Hj.
  assert (Hadd : ∀ name id parent size, a_max a < id → a_slot (a_add name id parent size a)).
  { intros name id parent size Hlt. left. cbn [a_files a_max a_add]. rewrite Z.max_r by lia.
    rewrite lookup_insert_eq. eauto. }
  destruct j as [b|name id|id size|name id pid|id|id b i|id i|name id]; cbn [spec_apply fresh_entry] in *.
  - destruct (a_free a b); [|done]. by injection Hj as <-.
  - destruct (__cyanfs_file_name_normalize name) as [[|] nm]; [|done].
    destruct (a_can_create nm id a); [|done]. injection Hj as <-. by apply Hadd.
  - destruct (a_files a !! id) as [f|] eqn:Hf; [|done]. cbn [mbind option_bind] in Hj.
    destruct (_ && _); [|done]. injection Hj as <-. by eapply slot_update.
  - destruct (__cyanfs_file_name_normalize name) as [[|] nm]; [|done].
    destruct (a_files a !! pid); [|done]. destruct (_ && _); [|done]. injection Hj as <-. by apply Hadd.
  - destruct (a_files a !! id) as [f|] eqn:Hf; [|done]. cbn [mbind option_bind] in Hj.
    destruct (a_has_child a id); [done|]. injection Hj as <-. right. cbn [a_files a_set_files].
    rewrite map_size_delete_Some by eauto. pose proof (a_wf_count _ Hwf).
    assert (size (a_files a) ≠ 0%nat) by (apply map_size_ne_0_lookup; eauto). lia.
  - destruct (a_files a !! id) as [f|] eqn:Hf; [|done]. cbn [mbind option_bind] in Hj.
    destruct (_ && _); [|done]. injection Hj as <-. by eapply slot_update.
  - destruct (a_files a !! id) as [f|] eqn:Hf; [|done]. cbn [mbind option_bind] in Hj.
    destruct (_ && _); [|done]. injection Hj as <-. by eapply slot_update.
  - destruct (__cyanfs_file_name_normalize name) as [[|] nm]; [|done].
    destruct (a_files a !! id) as [f|] eqn:Hf; [|done]. cbn [mbind option_bind] in Hj.
    case_bool_decide; [done|]. injection Hj as <-. by eapply slot_update.
Qed.

(** The files of a journal get greater and greater ids. *)
Fixpoint fresh_run (js : list journal_body) (a : astate) : Prop :=
  match js with
  | [] => True
  | j :: js => fresh_entry a j ∧ match spec_apply j a with Some a => fresh_run js a | None => True end
  end.
