(* ===== verification/Types.v ===== *)
(** * Types: the in-memory state of a cyanfs instance

    Models the structures of [core/core.h] and [core/internal.h].

    An extent node is allocated once, by [cyanfs_super_open], for each extent
    of the device, and its [backend] field never changes: the address of a
    node is represented by that id, and [nodes] is the store of the nodes'
    contents.  A tree keyed by [backend] ([free_extents], [journal_extents],
    ...) is then the set of the nodes linked in it, and the tree of a file,
    keyed by the field [file], maps that key to the node.  Likewise the
    address of a [struct cyanfs_file] is represented by its id, which is set
    when the file is created and identifies it while it lives: [files_by_id]
    is the store of the files, [files_by_name] maps a name to the file. *)
From Stdlib Require Import ZArith Lia.
From S2P Require Import Prelude Base Journal.

(** ** [struct cyanfs_extent] *)
Record cyanfs_extent := mk_extent {
  ext_backend : Z;
  ext_map : bool;
  ext_pending : bool;
  ext_file : Z;
  ext_error : bool }.

Definition set_ext_backend (x : Z) (r : cyanfs_extent) : cyanfs_extent :=
  mk_extent x (ext_map r) (ext_pending r) (ext_file r) (ext_error r).
Definition set_ext_map (x : bool) (r : cyanfs_extent) : cyanfs_extent :=
  mk_extent (ext_backend r) x (ext_pending r) (ext_file r) (ext_error r).
Definition set_ext_pending (x : bool) (r : cyanfs_extent) : cyanfs_extent :=
  mk_extent (ext_backend r) (ext_map r) x (ext_file r) (ext_error r).
Definition set_ext_file (x : Z) (r : cyanfs_extent) : cyanfs_extent :=
  mk_extent (ext_backend r) (ext_map r) (ext_pending r) x (ext_error r).
Definition set_ext_error (x : bool) (r : cyanfs_extent) : cyanfs_extent :=
  mk_extent (ext_backend r) (ext_map r) (ext_pending r) (ext_file r) x.

(** ** [struct cyanfs_file_meta], [struct cyanfs_file] *)
Record cyanfs_file_meta := mk_fmeta {
  fm_id : Z;
  fm_parent_id : Z;
  fm_name : cyanfs_file_name_t;
  fm_size : Z;
  fm_extents : Z;
  fm_children : Z }.

Definition set_fm_id (x : Z) (r : cyanfs_file_meta) : cyanfs_file_meta :=
  mk_fmeta x (fm_parent_id r) (fm_name r) (fm_size r) (fm_extents r) (fm_children r).
Definition set_fm_parent_id (x : Z) (r : cyanfs_file_meta) : cyanfs_file_meta :=
  mk_fmeta (fm_id r) x (fm_name r) (fm_size r) (fm_extents r) (fm_children r).
Definition set_fm_name (x : cyanfs_file_name_t) (r : cyanfs_file_meta) : cyanfs_file_meta :=
  mk_fmeta (fm_id r) (fm_parent_id r) x (fm_size r) (fm_extents r) (fm_children r).
Definition set_fm_size (x : Z) (r : cyanfs_file_meta) : cyanfs_file_meta :=
  mk_fmeta (fm_id r) (fm_parent_id r) (fm_name r) x (fm_extents r) (fm_children r).
Definition set_fm_extents (x : Z) (r : cyanfs_file_meta) : cyanfs_file_meta :=
  mk_fmeta (fm_id r) (fm_parent_id r) (fm_name r) (fm_size r) x (fm_children r).
Definition set_fm_children (x : Z) (r : cyanfs_file_meta) : cyanfs_file_meta :=
  mk_fmeta (fm_id r) (fm_parent_id r) (fm_name r) (fm_size r) (fm_extents r) x.

Inductive cyanfs_open_type := CYANFS_FILE_CLOSED | CYANFS_FILE_READONLY | CYANFS_FILE_READWRITE.

#[export] Instance open_type_eq_dec : EqDecision cyanfs_open_type.
Proof. solve_decision. Defined.

Record cyanfs_file := mk_file {
  f_parent : option Z;
  f_meta : cyanfs_file_meta;
  f_extents : gmap Z Z;
  f_open_type : cyanfs_open_type;
  f_reader : Z }.

Definition set_f_parent (x : option Z) (r : cyanfs_file) : cyanfs_file :=
  mk_file x (f_meta r) (f_extents r) (f_open_type r) (f_reader r).
Definition set_f_meta (x : cyanfs_file_meta) (r : cyanfs_file) : cyanfs_file :=
  mk_file (f_parent r) x (f_extents r) (f_open_type r) (f_reader r).
Definition set_f_extents (x : gmap Z Z) (r : cyanfs_file) : cyanfs_file :=
  mk_file (f_parent r) (f_meta r) x (f_open_type r) (f_reader r).
Definition set_f_open_type (x : cyanfs_open_type) (r : cyanfs_file) : cyanfs_file :=
  mk_file (f_parent r) (f_meta r) (f_extents r) x (f_reader r).
Definition set_f_reader (x : Z) (r : cyanfs_file) : cyanfs_file :=
  mk_file (f_parent r) (f_meta r) (f_extents r) (f_open_type r) x.

(** ** [struct cyanfs_super_meta], [struct cyanfs_journal_cursor] *)
Record cyanfs_super_meta := mk_smeta {
  sm_uuid : cyanfs_uuid_t;
  sm_total_extents : Z;
  sm_free_extents : Z;
  sm_journal_extents : Z;
  sm_data_extents : Z;
  sm_reserved_extents : Z;
  sm_size : Z;
  sm_files : Z }.

Definition set_sm_uuid (x : cyanfs_uuid_t) (r : cyanfs_super_meta) : cyanfs_super_meta :=
  mk_smeta x (sm_total_extents r) (sm_free_extents r) (sm_journal_extents r) (sm_data_extents r) (sm_reserved_extents r) (sm_size r) (sm_files r).
Definition set_sm_total_extents (x : Z) (r : cyanfs_super_meta) : cyanfs_super_meta :=
  mk_smeta (sm_uuid r) x (sm_free_extents r) (sm_journal_extents r) (sm_data_extents r) (sm_reserved_extents r) (sm_size r) (sm_files r).
Definition set_sm_free_extents (x : Z) (r : cyanfs_super_meta) : cyanfs_super_meta :=
  mk_smeta (sm_uuid r) (sm_total_extents r) x (sm_journal_extents r) (sm_data_extents r) (sm_reserved_extents r) (sm_size r) (sm_files r).
Definition set_sm_journal_extents (x : Z) (r : cyanfs_super_meta) : cyanfs_super_meta :=
  mk_smeta (sm_uuid r) (sm_total_extents r) (sm_free_extents r) x (sm_data_extents r) (sm_reserved_extents r) (sm_size r) (sm_files r).
Definition set_sm_data_extents (x : Z) (r : cyanfs_super_meta) : cyanfs_super_meta :=
  mk_smeta (sm_uuid r) (sm_total_extents r) (sm_free_extents r) (sm_journal_extents r) x (sm_reserved_extents r) (sm_size r) (sm_files r).
Definition set_sm_reserved_extents (x : Z) (r : cyanfs_super_meta) : cyanfs_super_meta :=
  mk_smeta (sm_uuid r) (sm_total_extents r) (sm_free_extents r) (sm_journal_extents r) (sm_data_extents r) x (sm_size r) (sm_files r).
Definition set_sm_size (x : Z) (r : cyanfs_super_meta) : cyanfs_super_meta :=
  mk_smeta (sm_uuid r) (sm_total_extents r) (sm_free_extents r) (sm_journal_extents r) (sm_data_extents r) (sm_reserved_extents r) x (sm_files r).
Definition set_sm_files (x : Z) (r : cyanfs_super_meta) : cyanfs_super_meta :=
  mk_smeta (sm_uuid r) (sm_total_extents r) (sm_free_extents r) (sm_journal_extents r) (sm_data_extents r) (sm_reserved_extents r) (sm_size r) x.

Record cyanfs_journal_cursor := mk_cursor {
  cur_page : list Z;
  cur_extent_off : Z;
  cur_extent_id : Z;
  cur_extent_id_flush : Z;
  cur_extent_id_ondisk : Z;
  cur_seq : Z }.

Definition set_cur_page (x : list Z) (r : cyanfs_journal_cursor) : cyanfs_journal_cursor :=
  mk_cursor x (cur_extent_off r) (cur_extent_id r) (cur_extent_id_flush r) (cur_extent_id_ondisk r) (cur_seq r).
Definition set_cur_extent_off (x : Z) (r : cyanfs_journal_cursor) : cyanfs_journal_cursor :=
  mk_cursor (cur_page r) x (cur_extent_id r) (cur_extent_id_flush r) (cur_extent_id_ondisk r) (cur_seq r).
Definition set_cur_extent_id (x : Z) (r : cyanfs_journal_cursor) : cyanfs_journal_cursor :=
  mk_cursor (cur_page r) (cur_extent_off r) x (cur_extent_id_flush r) (cur_extent_id_ondisk r) (cur_seq r).
Definition set_cur_extent_id_flush (x : Z) (r : cyanfs_journal_cursor) : cyanfs_journal_cursor :=
  mk_cursor (cur_page r) (cur_extent_off r) (cur_extent_id r) x (cur_extent_id_ondisk r) (cur_seq r).
Definition set_cur_extent_id_ondisk (x : Z) (r : cyanfs_journal_cursor) : cyanfs_journal_cursor :=
  mk_cursor (cur_page r) (cur_extent_off r) (cur_extent_id r) (cur_extent_id_flush r) x (cur_seq r).
Definition set_cur_seq (x : Z) (r : cyanfs_journal_cursor) : cyanfs_journal_cursor :=
  mk_cursor (cur_page r) (cur_extent_off r) (cur_extent_id r) (cur_extent_id_flush r) (cur_extent_id_ondisk r) x.

(** ** Tasks

    A task asks the executor for one operation on the device and names the
    function to call when it is done.  The callbacks that the C code stores
    in [task->done] are the constructors of [task_done_fn]; their arguments
    identify the structure the task is embedded in ([container_of]). *)
Inductive cyanfs_map_type_t := CYANFS_MAP_NOP | CYANFS_MAP_SUBMIT | CYANFS_MAP_REQUEUE.

(** The journal page a READ or WRITE task uses as its buffer: the one of the
    super block's cursor or the one of the compaction's cursor. *)
Inductive page_ref := BUF_SUPER | BUF_COMPACT.

Inductive cyanfs_task_type_t :=
  | CYANFS_TASK_NOP
  | CYANFS_TASK_READ (b_off len : Z) (buf : page_ref)
  | CYANFS_TASK_WRITE (b_off len : Z) (buf : page_ref)
  | CYANFS_TASK_COPY (b_src_off b_dst_off len : Z)
  | CYANFS_TASK_FLUSH
  | CYANFS_TASK_DISCARD (b_off len : Z)
  | CYANFS_TASK_REQUEUE (file ctx : Z).

(** The loader or writer a journal task belongs to. *)
Inductive loader_ref := LOADER_OPEN | LOADER_COMPACT.
Inductive writer_ref := WRITER_FLUSHER (flusher : Z) | WRITER_COMPACT.

Inductive task_done_fn :=
  | cyanfs_journal_loader_parser_header (l : loader_ref)
  | cyanfs_journal_loader_parser_page (l : loader_ref)
  | cyanfs_journal_writer_encode (w : writer_ref)
  | cyanfs_task_copy_on_write_done (journal : cyanfs_journal_entry) (extent_node : Z)
  | cyanfs_super_discard_extents_begin
  | cyanfs_super_discard_extents_done
  | cyanfs_super_flusher_free (t : Z)
  | cyanfs_super_flusher_before_flush (t : Z)
  | cyanfs_super_flusher_after_flush (t : Z)
  | cyanfs_super_flusher_before_write_flush (t : Z)
  | cyanfs_super_flusher_before_write_flush_done (t : Z)
  | cyanfs_journal_compact_write_super
  | cyanfs_journal_compact_flush_super
  | cyanfs_journal_compact_finish
  | __cyanfs_task_free.

Record cyanfs_task := mk_task { t_type : cyanfs_task_type_t; t_done : task_done_fn }.

#[export] Instance map_type_eq_dec : EqDecision cyanfs_map_type_t.
Proof. solve_decision. Defined.
#[export] Instance page_ref_eq_dec : EqDecision page_ref.
Proof. solve_decision. Defined.
#[export] Instance task_type_eq_dec : EqDecision cyanfs_task_type_t.
Proof. solve_decision. Defined.
#[export] Instance writer_ref_eq_dec : EqDecision writer_ref.
Proof. solve_decision. Defined.
#[export] Instance loader_ref_eq_dec : EqDecision loader_ref.
Proof. solve_decision. Defined.

(** ** [struct cyanfs_super] *)
Record cyanfs_super := mk_super {
  files_by_id : gmap Z cyanfs_file;
  files_by_name : gmap cyanfs_file_name_t Z;
  s_meta : cyanfs_super_meta;
  nodes : gmap Z cyanfs_extent;
  free_extents : gset Z;
  discard_extents : gset Z;
  wait_discard_extents : gset Z;
  flush_extents : gset Z;
  unused_extents : gset Z;
  journal_extents : gset Z;
  journal_head : list cyanfs_journal_entry;
  journal_count : Z;
  max_file_id : Z;
  flags : Z;
  writers0 : Z;
  writers1 : Z;
  writer_current_id : bool;
  journal_cursor : cyanfs_journal_cursor;
  task_head : list cyanfs_task;
  active_tasks : Z;
  new_task : option Z }.

Definition set_files_by_id (x : gmap Z cyanfs_file) (r : cyanfs_super) : cyanfs_super :=
  mk_super x (files_by_name r) (s_meta r) (nodes r) (free_extents r) (discard_extents r) (wait_discard_extents r) (flush_extents r) (unused_extents r) (journal_extents r) (journal_head r) (journal_count r) (max_file_id r) (flags r) (writers0 r) (writers1 r) (writer_current_id r) (journal_cursor r) (task_head r) (active_tasks r) (new_task r).
Definition set_files_by_name (x : gmap cyanfs_file_name_t Z) (r : cyanfs_super) : cyanfs_super :=
  mk_super (files_by_id r) x (s_meta r) (nodes r) (free_extents r) (discard_extents r) (wait_discard_extents r) (flush_extents r) (unused_extents r) (journal_extents r) (journal_head r) (journal_count r) (max_file_id r) (flags r) (writers0 r) (writers1 r) (writer_current_id r) (journal_cursor r) (task_head r) (active_tasks r) (new_task r).
Definition set_s_meta (x : cyanfs_super_meta) (r : cyanfs_super) : cyanfs_super :=
  mk_super (files_by_id r) (files_by_name r) x (nodes r) (free_extents r) (discard_extents r) (wait_discard_extents r) (flush_extents r) (unused_extents r) (journal_extents r) (journal_head r) (journal_count r) (max_file_id r) (flags r) (writers0 r) (writers1 r) (writer_current_id r) (journal_cursor r) (task_head r) (active_tasks r) (new_task r).
Definition set_nodes (x : gmap Z cyanfs_extent) (r : cyanfs_super) : cyanfs_super :=
  mk_super (files_by_id r) (files_by_name r) (s_meta r) x (free_extents r) (discard_extents r) (wait_discard_extents r) (flush_extents r) (unused_extents r) (journal_extents r) (journal_head r) (journal_count r) (max_file_id r) (flags r) (writers0 r) (writers1 r) (writer_current_id r) (journal_cursor r) (task_head r) (active_tasks r) (new_task r).
Definition set_free_extents (x : gset Z) (r : cyanfs_super) : cyanfs_super :=
  mk_super (files_by_id r) (files_by_name r) (s_meta r) (nodes r) x (discard_extents r) (wait_discard_extents r) (flush_extents r) (unused_extents r) (journal_extents r) (journal_head r) (journal_count r) (max_file_id r) (flags r) (writers0 r) (writers1 r) (writer_current_id r) (journal_cursor r) (task_head r) (active_tasks r) (new_task r).
Definition set_discard_extents (x : gset Z) (r : cyanfs_super) : cyanfs_super :=
  mk_super (files_by_id r) (files_by_name r) (s_meta r) (nodes r) (free_extents r) x (wait_discard_extents r) (flush_extents r) (unused_extents r) (journal_extents r) (journal_head r) (journal_count r) (max_file_id r) (flags r) (writers0 r) (writers1 r) (writer_current_id r) (journal_cursor r) (task_head r) (active_tasks r) (new_task r).
Definition set_wait_discard_extents (x : gset Z) (r : cyanfs_super) : cyanfs_super :=
  mk_super (files_by_id r) (files_by_name r) (s_meta r) (nodes r) (free_extents r) (discard_extents r) x (flush_extents r) (unused_extents r) (journal_extents r) (journal_head r) (journal_count r) (max_file_id r) (flags r) (writers0 r) (writers1 r) (writer_current_id r) (journal_cursor r) (task_head r) (active_tasks r) (new_task r).
Definition set_flush_extents (x : gset Z) (r : cyanfs_super) : cyanfs_super :=
  mk_super (files_by_id r) (files_by_name r) (s_meta r) (nodes r) (free_extents r) (discard_extents r) (wait_discard_extents r) x (unused_extents r) (journal_extents r) (journal_head r) (journal_count r) (max_file_id r) (flags r) (writers0 r) (writers1 r) (writer_current_id r) (journal_cursor r) (task_head r) (active_tasks r) (new_task r).
Definition set_unused_extents (x : gset Z) (r : cyanfs_super) : cyanfs_super :=
  mk_super (files_by_id r) (files_by_name r) (s_meta r) (nodes r) (free_extents r) (discard_extents r) (wait_discard_extents r) (flush_extents r) x (journal_extents r) (journal_head r) (journal_count r) (max_file_id r) (flags r) (writers0 r) (writers1 r) (writer_current_id r) (journal_cursor r) (task_head r) (active_tasks r) (new_task r).
Definition set_journal_extents (x : gset Z) (r : cyanfs_super) : cyanfs_super :=
  mk_super (files_by_id r) (files_by_name r) (s_meta r) (nodes r) (free_extents r) (discard_extents r) (wait_discard_extents r) (flush_extents r) (unused_extents r) x (journal_head r) (journal_count r) (max_file_id r) (flags r) (writers0 r) (writers1 r) (writer_current_id r) (journal_cursor r) (task_head r) (active_tasks r) (new_task r).
Definition set_journal_head (x : list cyanfs_journal_entry) (r : cyanfs_super) : cyanfs_super :=
  mk_super (files_by_id r) (files_by_name r) (s_meta r) (nodes r) (free_extents r) (discard_extents r) (wait_discard_extents r) (flush_extents r) (unused_extents r) (journal_extents r) x (journal_count r) (max_file_id r) (flags r) (writers0 r) (writers1 r) (writer_current_id r) (journal_cursor r) (task_head r) (active_tasks r) (new_task r).
Definition set_journal_count (x : Z) (r : cyanfs_super) : cyanfs_super :=
  mk_super (files_by_id r) (files_by_name r) (s_meta r) (nodes r) (free_extents r) (discard_extents r) (wait_discard_extents r) (flush_extents r) (unused_extents r) (journal_extents r) (journal_head r) x (max_file_id r) (flags r) (writers0 r) (writers1 r) (writer_current_id r) (journal_cursor r) (task_head r) (active_tasks r) (new_task r).
Definition set_max_file_id (x : Z) (r : cyanfs_super) : cyanfs_super :=
  mk_super (files_by_id r) (files_by_name r) (s_meta r) (nodes r) (free_extents r) (discard_extents r) (wait_discard_extents r) (flush_extents r) (unused_extents r) (journal_extents r) (journal_head r) (journal_count r) x (flags r) (writers0 r) (writers1 r) (writer_current_id r) (journal_cursor r) (task_head r) (active_tasks r) (new_task r).
Definition set_flags (x : Z) (r : cyanfs_super) : cyanfs_super :=
  mk_super (files_by_id r) (files_by_name r) (s_meta r) (nodes r) (free_extents r) (discard_extents r) (wait_discard_extents r) (flush_extents r) (unused_extents r) (journal_extents r) (journal_head r) (journal_count r) (max_file_id r) x (writers0 r) (writers1 r) (writer_current_id r) (journal_cursor r) (task_head r) (active_tasks r) (new_task r).
Definition set_writers0 (x : Z) (r : cyanfs_super) : cyanfs_super :=
  mk_super (files_by_id r) (files_by_name r) (s_meta r) (nodes r) (free_extents r) (discard_extents r) (wait_discard_extents r) (flush_extents r) (unused_extents r) (journal_extents r) (journal_head r) (journal_count r) (max_file_id r) (flags r) x (writers1 r) (writer_current_id r) (journal_cursor r) (task_head r) (active_tasks r) (new_task r).
Definition set_writers1 (x : Z) (r : cyanfs_super) : cyanfs_super :=
  mk_super (files_by_id r) (files_by_name r) (s_meta r) (nodes r) (free_extents r) (discard_extents r) (wait_discard_extents r) (flush_extents r) (unused_extents r) (journal_extents r) (journal_head r) (journal_count r) (max_file_id r) (flags r) (writers0 r) x (writer_current_id r) (journal_cursor r) (task_head r) (active_tasks r) (new_task r).
Definition set_writer_current_id (x : bool) (r : cyanfs_super) : cyanfs_super :=
  mk_super (files_by_id r) (files_by_name r) (s_meta r) (nodes r) (free_extents r) (discard_extents r) (wait_discard_extents r) (flush_extents r) (unused_extents r) (journal_extents r) (journal_head r) (journal_count r) (max_file_id r) (flags r) (writers0 r) (writers1 r) x (journal_cursor r) (task_head r) (active_tasks r) (new_task r).
Definition set_journal_cursor (x : cyanfs_journal_cursor) (r : cyanfs_super) : cyanfs_super :=
  mk_super (files_by_id r) (files_by_name r) (s_meta r) (nodes r) (free_extents r) (discard_extents r) (wait_discard_extents r) (flush_extents r) (unused_extents r) (journal_extents r) (journal_head r) (journal_count r) (max_file_id r) (flags r) (writers0 r) (writers1 r) (writer_current_id r) x (task_head r) (active_tasks r) (new_task r).
Definition set_task_head (x : list cyanfs_task) (r : cyanfs_super) : cyanfs_super :=
  mk_super (files_by_id r) (files_by_name r) (s_meta r) (nodes r) (free_extents r) (discard_extents r) (wait_discard_extents r) (flush_extents r) (unused_extents r) (journal_extents r) (journal_head r) (journal_count r) (max_file_id r) (flags r) (writers0 r) (writers1 r) (writer_current_id r) (journal_cursor r) x (active_tasks r) (new_task r).
Definition set_active_tasks (x : Z) (r : cyanfs_super) : cyanfs_super :=
  mk_super (files_by_id r) (files_by_name r) (s_meta r) (nodes r) (free_extents r) (discard_extents r) (wait_discard_extents r) (flush_extents r) (unused_extents r) (journal_extents r) (journal_head r) (journal_count r) (max_file_id r) (flags r) (writers0 r) (writers1 r) (writer_current_id r) (journal_cursor r) (task_head r) x (new_task r).
Definition set_new_task (x : option Z) (r : cyanfs_super) : cyanfs_super :=
  mk_super (files_by_id r) (files_by_name r) (s_meta r) (nodes r) (free_extents r) (discard_extents r) (wait_discard_extents r) (flush_extents r) (unused_extents r) (journal_extents r) (journal_head r) (journal_count r) (max_file_id r) (flags r) (writers0 r) (writers1 r) (writer_current_id r) (journal_cursor r) (task_head r) (active_tasks r) x.

(** ** Flags *)
Definition CYANFS_SUPER_FLAG_READY : Z := Z.shiftl 1 0.
Definition CYANFS_SUPER_FLAG_FLUSH : Z := Z.shiftl 1 1.
Definition CYANFS_SUPER_FLAG_ERROR : Z := Z.shiftl 1 2.
Definition CYANFS_SUPER_FLAG_DISCARD_ENABLED : Z := Z.shiftl 1 3.
Definition CYANFS_SUPER_FLAG_DISCARD_WORKING : Z := Z.shiftl 1 4.
Definition CYANFS_SUPER_FLAG_COMPACT_ENABLED : Z := Z.shiftl 1 5.
Definition CYANFS_SUPER_FLAG_COMPACT_WORKING : Z := Z.shiftl 1 6.

(** [s->flags & f], [s->flags |= f], [s->flags &= ~f] *)
Definition has_flag (s : cyanfs_super) (f : Z) : bool := negb (Z.land (flags s) f =? 0).
Definition add_flag (f : Z) (s : cyanfs_super) : cyanfs_super := set_flags (Z.lor (flags s) f) s.
Definition clear_flag (f : Z) (s : cyanfs_super) : cyanfs_super := set_flags (Z.ldiff (flags s) f) s.

Definition __cyanfs_super_ensure_status (s : cyanfs_super) : cyanfs_status :=
  if has_flag s CYANFS_SUPER_FLAG_ERROR then ST_ERR ERR_IO
  else if negb (has_flag s CYANFS_SUPER_FLAG_READY) then ST_ERR ERR_BUSY
  else ST_OK.

Definition __cyanfs_super_mark_error (s : cyanfs_super) : cyanfs_super :=
  add_flag CYANFS_SUPER_FLAG_ERROR s.

(** The same under [files_lock]. *)
Definition cyanfs_super_mark_error (s : cyanfs_super) : cyanfs_super :=
  __cyanfs_super_mark_error s.

(** ** The task queue *)
Definition cyanfs_super_task_add_head (task : cyanfs_task) (s : cyanfs_super) : cyanfs_super :=
  set_task_head (task :: task_head s) s.

Definition cyanfs_super_task_add_tail (task : cyanfs_task) (s : cyanfs_super) : cyanfs_super :=
  set_task_head (task_head s ++ [task]) s.

(** ** Updates of one file or one node, in place *)
Definition upd_file (id : Z) (g : cyanfs_file → cyanfs_file) (s : cyanfs_super) : cyanfs_super :=
  set_files_by_id (alter g id (files_by_id s)) s.
Definition upd_node (n : Z) (g : cyanfs_extent → cyanfs_extent) (s : cyanfs_super) : cyanfs_super :=
  set_nodes (alter g n (nodes s)) s.
Definition upd_meta (g : cyanfs_super_meta → cyanfs_super_meta) (s : cyanfs_super) : cyanfs_super :=
  set_s_meta (g (s_meta s)) s.
Definition upd_fmeta (g : cyanfs_file_meta → cyanfs_file_meta) (f : cyanfs_file) : cyanfs_file :=
  set_f_meta (g (f_meta f)) f.
Definition upd_cursor (g : cyanfs_journal_cursor → cyanfs_journal_cursor) (s : cyanfs_super) : cyanfs_super :=
  set_journal_cursor (g (journal_cursor s)) s.

(** ** Lemmas: flags *)
Lemma has_flag_testbit s k : 0 ≤ k → has_flag s (Z.shiftl 1 k) = Z.testbit (flags s) k.
Proof.
  intros Hk. unfold has_flag. rewrite Z.shiftl_1_l.
  destruct (Z.testbit (flags s) k) eqn:E.
  - destruct (Z.eqb_spec (Z.land (flags s) (2 ^ k)) 0) as [H|]; [|done]. exfalso.
    apply (f_equal (λ x, Z.testbit x k)) in H.
    rewrite Z.land_spec, Z.pow2_bits_true, E, Z.bits_0 in H by lia. done.
  - destruct (Z.eqb_spec (Z.land (flags s) (2 ^ k)) 0) as [|H]; [done|]. exfalso. apply H.
    apply Z.bits_inj'. intros n Hn. rewrite Z.land_spec, Z.bits_0.
    destruct (Z.eq_dec n k) as [->|]; [by rewrite E|].
    rewrite Z.pow2_bits_false by lia. apply andb_false_r.
Qed.

Lemma has_add_flag s f g :
  0 ≤ f → 0 ≤ g →
  has_flag (add_flag (Z.shiftl 1 f) s) (Z.shiftl 1 g) = (f =? g) || has_flag s (Z.shiftl 1 g).
Proof.
  intros Hf Hg. rewrite !has_flag_testbit by done. unfold add_flag. simpl.
  rewrite Z.lor_spec, Z.shiftl_1_l, Z.pow2_bits_eqb by done. apply orb_comm.
Qed.

Lemma has_clear_flag s f g :
  0 ≤ f → 0 ≤ g →
  has_flag (clear_flag (Z.shiftl 1 f) s) (Z.shiftl 1 g) = negb (f =? g) && has_flag s (Z.shiftl 1 g).
Proof.
  intros Hf Hg. rewrite !has_flag_testbit by done. unfold clear_flag. simpl.
  rewrite Z.ldiff_spec, Z.shiftl_1_l, Z.pow2_bits_eqb by done. apply andb_comm.
Qed.

(** Evaluate flag tests after [add_flag]/[clear_flag]. *)
Ltac flag_simpl :=
  repeat first
    [ rewrite has_add_flag by lia | rewrite has_clear_flag by lia ];
  cbn [Z.eqb Pos.eqb orb andb negb].

Lemma ensure_status_ok s :
  __cyanfs_super_ensure_status s = ST_OK ↔
  has_flag s CYANFS_SUPER_FLAG_ERROR = false ∧ has_flag s CYANFS_SUPER_FLAG_READY = true.
Proof.
  unfold __cyanfs_super_ensure_status.
  destruct (has_flag s CYANFS_SUPER_FLAG_ERROR), (has_flag s CYANFS_SUPER_FLAG_READY);
    naive_solver.
Qed.
