(* ===== verification/RbSet.v ===== *)
(** * RbSet: the trees of the instance are the finite sets of the model

    The comparison functions of [core/internal.h] order the elements of a
    tree by a key, so the operations that read a tree compute the functions
    on finite sets of [Prelude] that the other files use. *)
From Stdlib Require Import ZArith Lia.
From S2P Require Import Prelude RbTree RbTreeSpec RbSearch RbInsert RbRemove Base Types.

(** ** Comparison functions

    [v] gives the contents of the element at an address. *)
Definition __cyanfs_extent_compare_file (v : Z → cyanfs_extent) (a b : Z) : Z :=
  if ext_file (v b) <? ext_file (v a) then 1 else if ext_file (v a) <? ext_file (v b) then -1 else 0.
Definition __cyanfs_extent_compare_backend (v : Z → cyanfs_extent) (a b : Z) : Z :=
  if ext_backend (v b) <? ext_backend (v a) then 1 else if ext_backend (v a) <? ext_backend (v b) then -1 else 0.
Definition __cyanfs_file_id_compare (v : Z → cyanfs_file_meta) (a b : Z) : Z :=
  if fm_id (v b) <? fm_id (v a) then 1 else if fm_id (v a) <? fm_id (v b) then -1 else 0.

(** [memcmp]: the difference of the first bytes that differ. *)
Fixpoint memcmp (p q : list Z) : Z :=
  match p, q with
  | x :: p, y :: q => if x =? y then memcmp p q else x - y
  | _, _ => 0
  end.
Definition __cyanfs_file_name_compare (v : Z → cyanfs_file_meta) (a b : Z) : Z :=
  memcmp (take 128 (fm_name (v a))) (take 128 (fm_name (v b))).

(** The three of them that compare a number. *)
Definition compare_key (key : Z → Z) (a b : Z) : Z :=
  if key b <? key a then 1 else if key a <? key b then -1 else 0.

Lemma compare_key_lt key a b : compare_key key a b < 0 ↔ key a < key b.
Proof. unfold compare_key. repeat case_bool; lia. Qed.
Lemma compare_key_gt key a b : 0 < compare_key key a b ↔ key b < key a.
Proof. unfold compare_key. repeat case_bool; lia. Qed.
Lemma compare_key_eq key a b : compare_key key a b = 0 ↔ key a = key b.
Proof. unfold compare_key. repeat case_bool; lia. Qed.

#[export] Instance compare_key_order key : CmpOrder (compare_key key).
Proof. split; intros *; rewrite ?compare_key_lt, ?compare_key_gt, ?compare_key_eq; lia. Qed.
#[export] Instance compare_file_order v : CmpOrder (__cyanfs_extent_compare_file v).
Proof. exact (compare_key_order (λ a, ext_file (v a))). Qed.
#[export] Instance compare_backend_order v : CmpOrder (__cyanfs_extent_compare_backend v).
Proof. exact (compare_key_order (λ a, ext_backend (v a))). Qed.
#[export] Instance compare_id_order v : CmpOrder (__cyanfs_file_id_compare v).
Proof. exact (compare_key_order (λ a, fm_id (v a))). Qed.

(** Names have the same length, so [memcmp] orders them. *)
Lemma memcmp_order (p q r : list Z) : length p = length q → length q = length r →
  (memcmp p q < 0 ↔ 0 < memcmp q p) ∧ (memcmp p q < 0 → memcmp q r < 0 → memcmp p r < 0) ∧
  (memcmp p q = 0 → p = q).
Proof.
  revert q r. induction p as [|x p IH]; intros [|y q] [|z r] H1 H2; simpl in *; try done.
  injection H1 as H1. injection H2 as H2. destruct (IH q r H1 H2) as (I1 & I2 & I3).
  split_and!; [repeat case_bool; lia|repeat case_bool; lia|].
  destruct (Z.eqb_spec x y) as [->|]; [intros ->%I3; done|lia].
Qed.
Lemma name_compare_order v : (∀ a, length (fm_name (v a)) = 128%nat) → CmpOrder (__cyanfs_file_name_compare v).
Proof.
  intros Hv. assert (Hl : ∀ a, length (take 128 (fm_name (v a))) = 128%nat) by (intros a; rewrite length_take, Hv; lia).
  unfold __cyanfs_file_name_compare. split.
  - intros a b. by apply (memcmp_order _ _ (take 128 (fm_name (v a)))); rewrite !Hl.
  - intros a b c. by apply memcmp_order; rewrite !Hl.
  - intros a b c H. apply (memcmp_order _ _ (take 128 (fm_name (v a)))) in H; [|by rewrite !Hl..]. by rewrite H.
Qed.

(** ** The set of the keys *)
Section keys.
Context (key : Z → Z).

Definition key_set (l : list Z) : gset Z := list_to_set (key <$> l).
(** The key of the element found, [None] for null. *)
Definition key_of (p : Z) : option Z := if p =? 0 then None else Some (key p).

Lemma sorted_keys l : rb_sorted (compare_key key) l → StronglySorted Z.lt (key <$> l).
Proof.
  unfold rb_sorted. induction 1 as [|a l _ IH Hf]; [constructor|]. simpl. constructor; [done|].
  apply Forall_fmap. eapply Forall_impl; [exact Hf|]. intros b Hb. by apply compare_key_lt in Hb.
Qed.

Lemma key_set_first l : rb_sorted (compare_key key) l → (∀ a, a ∈ l → a ≠ 0) → key_of (first l) = set_min (key_set l).
Proof.
  intros Hs H0. destruct l as [|a l]; [symmetry; by apply set_min_None|]. change (first (a :: l)) with a. unfold key_of.
  rewrite (proj2 (Z.eqb_neq a 0)) by (apply H0; set_solver). symmetry. apply set_min_Some. unfold key_set.
  apply sorted_cons in Hs as [_ Hs]. split; [set_solver|]. intros y (b & -> & Hb)%elem_of_list_to_set%list_elem_of_fmap.
  apply elem_of_cons in Hb as [->|Hb]; [lia|]. specialize (Hs b Hb). apply compare_key_lt in Hs. lia.
Qed.

Lemma key_set_nfind l1 l2 elm : rb_sorted (compare_key key) (l1 ++ l2) → (∀ a, a ∈ l2 → a ≠ 0) →
  (∀ y, y ∈ l1 → 0 < compare_key key elm y) → (∀ y, y ∈ l2 → compare_key key elm y ≤ 0) →
  key_of (first l2) = set_nfind (key_set (l1 ++ l2)) (key elm).
Proof.
  intros Hs H0 H1 H2. assert (Hlow : ∀ y, y ∈ l1 → key y < key elm) by (intros y ?%H1; by apply compare_key_gt).
  destruct l2 as [|a l2].
  - symmetry. apply set_nfind_None. unfold key_set. rewrite app_nil_r. intros y (b & -> & Hb)%elem_of_list_to_set%list_elem_of_fmap. by apply Hlow.
  - change (first (a :: l2)) with a. unfold key_of. rewrite (proj2 (Z.eqb_neq a 0)) by (apply H0; set_solver). symmetry. apply set_nfind_Some.
    apply sorted_app in Hs as (_ & [_ Hs]%sorted_cons & _). unfold key_set. split_and!; [set_solver| |].
    + destruct (Z.le_gt_cases (key elm) (key a)) as [|Hgt]; [done|]. specialize (H2 a ltac:(set_solver)). apply (compare_key_gt key elm a) in Hgt. lia.
    + intros y (b & -> & [Hb|[->|Hb]%elem_of_cons]%elem_of_app)%elem_of_list_to_set%list_elem_of_fmap Hk; [specialize (Hlow b Hb); lia|lia|].
      specialize (Hs b Hb). apply compare_key_lt in Hs. lia.
Qed.

Lemma key_set_ordered l : rb_sorted (compare_key key) l → key <$> l = set_ordered (key_set l).
Proof.
  intros Hs%sorted_keys. assert (Hn : NoDup (key <$> l)).
  { clear -Hs. induction Hs as [|k ks _ IH Hf]; [constructor|]. constructor; [|done]. intros Hin. rewrite Forall_forall in Hf. specialize (Hf k Hin). lia. }
  apply (StronglySorted_unique Z.le).
  - clear Hn. induction Hs as [|k ks _ IH Hf]; [constructor|]. constructor; [done|]. eapply Forall_impl; [exact Hf|]. simpl. lia.
  - apply set_ordered_sorted.
  - rewrite set_ordered_Permutation. unfold key_set. by rewrite elements_list_to_set.
Qed.
End keys.

(** C32: a tree is an ordered set.  On the tree of the extents of a super
    block, ordered by their backend ids, CYANFS_RB_MIN, CYANFS_RB_NFIND,
    CYANFS_RB_FIND and CYANFS_RB_FOREACH compute the least id, the least id
    that is not smaller than a given one, membership, and the ids in
    increasing order: the functions on finite sets the other components are
    modelled with. *)
Theorem rb_ordered_set v s l :
  let cmp := __cyanfs_extent_compare_backend v in let key a := ext_backend (v a) in
  represents s l → rb_sorted cmp l →
  (∃ p, CYANFS_RB_MIN s = Some p ∧ key_of key p = set_min (key_set key l)) ∧
  (∀ elm, ∃ p, CYANFS_RB_NFIND cmp elm s = Some p ∧ key_of key p = set_nfind (key_set key l) (key elm)) ∧
  (∀ elm, ∃ p, CYANFS_RB_FIND cmp elm s = Some p ∧
     if decide (key elm ∈ key_set key l) then p ∈ l ∧ key p = key elm else p = 0) ∧
  (CYANFS_RB_FOREACH s = Some l ∧ key <$> l = set_ordered (key_set key l)).
Proof.
  intros cmp key Hr Hs. pose proof Hr as (t & _ & Ht & Et). change cmp with (compare_key key) in *.
  assert (H0 : ∀ a, a ∈ l → a ≠ 0) by (intros a Ha; apply (elem_nonnull s t Ht); by rewrite Et).
  destruct (rb_walk s l Hr) as (W1 & _ & W3 & _). split_and!.
  - exists (first l). split; [done|]. by apply key_set_first.
  - intros elm. destruct (rb_search (compare_key key) s l elm Hr Hs) as [_ (l1 & l2 & -> & H1 & H2 & E)].
    exists (first l2). split; [done|]. apply key_set_nfind; try done. intros a Ha. apply H0. set_solver.
  - intros elm. destruct (rb_search (compare_key key) s l elm Hr Hs) as [(p & E & Hp) _]. exists p. split; [done|].
    case_decide as Hd; unfold key_set in Hd.
    + apply elem_of_list_to_set, list_elem_of_fmap in Hd as (b & Eb & Hb). destruct Hp as [[_ Hp]|[Hp Ep]].
      * specialize (Hp b Hb). by rewrite compare_key_eq in Hp.
      * split; [done|]. apply compare_key_eq in Ep. by symmetry.
    + destruct Hp as [[-> _]|[Hp Ep]]; [done|]. apply compare_key_eq in Ep. destruct Hd. rewrite Ep. set_solver.
  - done.
  - by apply key_set_ordered.
Qed.

(** Searching is logarithmic.  In a tree of [n] elements FIND returns
    after at most [2 * log2 (n + 1)] turns of its loop. *)
Theorem rb_find_logarithmic cmp `{!CmpOrder cmp} s l elm fuel :
  represents s l → rb_sorted cmp l → (2 * Nat.log2 (S (length l)) ≤ fuel)%nat →
  find_loop cmp fuel elm (rbh_root s) s = CYANFS_RB_FIND cmp elm s ∧ is_Some (CYANFS_RB_FIND cmp elm s).
Proof.
  intros (t & Hb & Ht & <-) Hs Hf. unfold CYANFS_RB_FIND. rewrite (z_root _ _ _ Ht). cbn [top_ptr].
  rewrite inorder_addrs in Hf. pose proof (rb_height t Hb) as Hh. pose proof (height_addrs t). pose proof (zrep_fuel _ _ _ Ht).
  split; [by apply (find_fuel cmp elm s t [] fuel (rb_fuel s) ltac:(lia) ltac:(lia) Ht)|].
  destruct (find_loop_ok cmp elm s t [] (rb_fuel s) ltac:(lia) Ht Hs) as (p & -> & _). done.
Qed.

(** ** Example: three extents in a tree, the fourth one in memory only *)
Definition ex_v (a : Z) : cyanfs_extent := mk_extent (a / 16) false false 0 true.
Definition ex_cmp : Z → Z → Z := __cyanfs_extent_compare_backend ex_v.
Definition ex_tree : tree := Node false (Node true Leaf 16 Leaf) 32 (Node true Leaf 48 Leaf).
Definition ex_rbs : rb_state :=
  mk_rbs (list_to_map [(16, mk_rb 0 0 33); (32, mk_rb 16 48 0); (48, mk_rb 0 0 33); (64, mk_rb 7 7 7)]) 32.

Lemma ex_represents : represents ex_rbs [16; 32; 48].
Proof.
  exists ex_tree. split_and!; [split; [done|by exists 1%nat]| |done]. split; try done.
  - apply (bool_decide_unpack _). by vm_compute.
  - intros a Ha. simpl in *. assert (a = 32 ∨ a = 16 ∨ a = 48) as [->|[->| ->]] by set_solver; (split; [done|set_solver]).
Qed.

Lemma ex_sorted : rb_sorted ex_cmp [16; 32; 48].
Proof. repeat constructor. Qed.

Lemma rb_insert_ok_witness : ∃ s' l1 l2, CYANFS_RB_INSERT ex_cmp 64 ex_rbs = Some (0, s') ∧ l1 ++ l2 = [16; 32; 48] ∧ represents s' (l1 ++ 64 :: l2).
Proof.
  destruct (rb_insert_ok ex_cmp ex_rbs [16; 32; 48] 64 ex_represents ex_sorted) as [(x & E & Hx & Ex)|(s' & l1 & l2 & E & El & Hr & _)].
  - done.
  - set_solver.
  - apply (bool_decide_unpack _). by vm_compute.
  - exfalso. assert (x = 16 ∨ x = 32 ∨ x = 48) as [->|[->| ->]] by set_solver; by vm_compute in Ex.
  - exists s', l1, l2. split; [exact E|]. split; [symmetry; exact El|exact Hr].
Defined.

Lemma rb_remove_ok_witness : ∃ s', CYANFS_RB_REMOVE 32 ex_rbs = Some s' ∧ represents s' [16; 48].
Proof.
  destruct (rb_remove_ok ex_rbs [16] 32 [48] ex_represents) as (s' & E & Hr & _). exists s'. split; [exact E|exact Hr].
Defined.

Lemma rb_ordered_set_witness : ∃ p, CYANFS_RB_MIN ex_rbs = Some p ∧ key_of (λ a, ext_backend (ex_v a)) p = Some 1.
Proof.
  destruct (rb_ordered_set ex_v ex_rbs [16; 32; 48] ex_represents ex_sorted) as [(p & E & Hp) _].
  exists p. split; [exact E|]. rewrite Hp. vm_compute. reflexivity.
Defined.

Lemma rb_find_logarithmic_witness : find_loop ex_cmp 4 48 32 ex_rbs = Some 48.
Proof.
  destruct (rb_find_logarithmic ex_cmp ex_rbs [16; 32; 48] 48 4 ex_represents ex_sorted) as [E _]; [simpl; lia|].
  change 32 with (rbh_root ex_rbs). rewrite E. vm_compute. reflexivity.
Defined.
