(* ===== verification/Super.v ===== *)
(** * Super: extents, files and journal replay

    Models the internals of [core/super.c] (lines 23 to 330) and the extent
    moving helpers of [core/internal.h]: finding, mapping and unmapping
    extents, the truncation, creation, renaming and deletion of files, and
    the replay of one journal entry.

    A file is designated by its id and an extent node by its backend id (see
    [Types]).  [None] is an abort ([CYANFS_BUG_ON]) or the use of a dangling
    pointer.  The flag [mem] of an operation says whether its [cyanfs_malloc]
    succeeds. *)
From Stdlib Require Import ZArith Lia.
From S2P Require Import Prelude Base Journal Types.

(** ** The extent trees of the super block *)
Inductive tree_ref := T_FREE | T_DISCARD | T_WAIT_DISCARD | T_FLUSH | T_UNUSED | T_JOURNAL.

#[export] Instance tree_ref_eq_dec : EqDecision tree_ref.
Proof. solve_decision. Defined.

Definition tree_get (r : tree_ref) (s : cyanfs_super) : gset Z :=
  match r with
  | T_FREE => free_extents s
  | T_DISCARD => discard_extents s
  | T_WAIT_DISCARD => wait_discard_extents s
  | T_FLUSH => flush_extents s
  | T_UNUSED => unused_extents s
  | T_JOURNAL => journal_extents s
  end.

Definition tree_set (r : tree_ref) (X : gset Z) (s : cyanfs_super) : cyanfs_super :=
  match r with
  | T_FREE => set_free_extents X s
  | T_DISCARD => set_discard_extents X s
  | T_WAIT_DISCARD => set_wait_discard_extents X s
  | T_FLUSH => set_flush_extents X s
  | T_UNUSED => set_unused_extents X s
  | T_JOURNAL => set_journal_extents X s
  end.

(** [CYANFS_RB_REMOVE] and [CYANFS_RB_INSERT] on a tree keyed by [backend]. *)
Definition rb_remove (n : Z) (X : gset Z) : option (gset Z) :=
  if decide (n ∈ X) then Some (X ∖ {[n]}) else None.
Definition rb_insert (n : Z) (X : gset Z) : gset Z := {[n]} ∪ X.

Definition __cyanfs_super_stat_add (r : tree_ref) (v : Z) (s : cyanfs_super) : cyanfs_super :=
  match r with
  | T_FREE => upd_meta (λ m, set_sm_free_extents (u32 (sm_free_extents m + v)) m) s
  | T_JOURNAL => upd_meta (λ m, set_sm_journal_extents (u32 (sm_journal_extents m + v)) m) s
  | _ => s
  end.

Definition __cyanfs_extent_super_to_super (n : Z) (from to : tree_ref) (s : cyanfs_super)
    : option cyanfs_super :=
  let s := __cyanfs_super_stat_add from (-1) s in
  X ← rb_remove n (tree_get from s);
  let s := tree_set from X s in
  let s := tree_set to (rb_insert n (tree_get to s)) s in
  Some (__cyanfs_super_stat_add to 1 s).

Definition __cyanfs_extent_file_to_super (fid n : Z) (to : tree_ref) (s : cyanfs_super)
    : option cyanfs_super :=
  let s := upd_file fid (upd_fmeta (λ m, set_fm_extents (u32 (fm_extents m - 1)) m)) s in
  let s := upd_meta (λ m, set_sm_data_extents (u32 (sm_data_extents m - 1)) m) s in
  f ← files_by_id s !! fid;
  e ← nodes s !! n;
  bug_on (bool_decide (f_extents f !! ext_file e ≠ Some n));;
  let s := upd_file fid (set_f_extents (delete (ext_file e) (f_extents f))) s in
  let s := tree_set to (rb_insert n (tree_get to s)) s in
  Some (__cyanfs_super_stat_add to 1 s).

Definition __cyanfs_extent_super_to_file (fid n : Z) (from : tree_ref) (s : cyanfs_super)
    : option cyanfs_super :=
  let s := __cyanfs_super_stat_add from (-1) s in
  X ← rb_remove n (tree_get from s);
  let s := tree_set from X s in
  f ← files_by_id s !! fid;
  e ← nodes s !! n;
  bug_on (bool_decide (is_Some (f_extents f !! ext_file e)));;
  let s := upd_file fid (set_f_extents (<[ext_file e := n]> (f_extents f))) s in
  let s := upd_meta (λ m, set_sm_data_extents (u32 (sm_data_extents m + 1)) m) s in
  Some (upd_file fid (upd_fmeta (λ m, set_fm_extents (u32 (fm_extents m + 1)) m)) s).

(** ** Finding extents *)
Definition __cyanfs_super_find_nearly_extent (s : cyanfs_super) (id_from : Z) : option Z :=
  match (if id_from <=? CYANFS_EXTENT_INDEX_MAX
         then set_nfind (free_extents s) (bf30 id_from) else None) with
  | Some n => Some n
  | None => set_min (free_extents s)
  end.

Definition __cyanfs_super_find_extent (s : cyanfs_super) (id : Z) : option Z :=
  if CYANFS_EXTENT_INDEX_MAX <? id then None
  else if decide (bf30 id ∈ free_extents s) then Some (bf30 id) else None.

Definition __cyanfs_file_find_extent (f : cyanfs_file) (f_off : Z) : option Z :=
  f_extents f !! bf30 (cyanfs_extent_from f_off).

(** The loop of [__cyanfs_file_find_extent_follow]; [None] when the fuel runs
    out.  The ancestors of a file have smaller and smaller ids, so the number
    of files bounds the iterations ([SuperOps.find_extent_follow_visible]). *)
Fixpoint follow_loop (fuel : nat) (s : cyanfs_super) (f : option Z) (f_off : Z) : option (option Z) :=
  match fuel with
  | O => None
  | S fuel =>
      match f with
      | None => Some None
      | Some fid =>
          file ← files_by_id s !! fid;
          if cyanfs_extent_begin (cyanfs_extent_from f_off) <? fm_size (f_meta file) then
            match __cyanfs_file_find_extent file f_off with
            | Some n => Some (Some n)
            | None => follow_loop fuel s (f_parent file) f_off
            end
          else Some None
      end
  end.

Definition __cyanfs_file_find_extent_follow (s : cyanfs_super) (f : option Z) (f_off : Z)
    : option (option Z) :=
  follow_loop (S (size (files_by_id s))) s f f_off.

(** ** Mapping and unmapping *)
Definition __cyanfs_file_map_extent (fid n f_id : Z) (s : cyanfs_super)
    : option (cyanfs_status * cyanfs_super) :=
  f ← files_by_id s !! fid;
  match __cyanfs_file_find_extent f (cyanfs_extent_begin f_id) with
  | Some _ => Some (ST_ERR ERR_INVAL, s)
  | None =>
      let s := upd_node n (set_ext_file (bf30 f_id)) s in
      s ← __cyanfs_extent_super_to_file fid n T_FREE s;
      Some (ST_OK, upd_node n (set_ext_map true) s)
  end.

Definition __cyanfs_file_unmap_extent (fid n : Z) (s : cyanfs_super) : option cyanfs_super :=
  e ← nodes s !! n;
  bug_on (ext_pending e);;
  let s := upd_node n (λ e, set_ext_map false (set_ext_pending false (set_ext_error false e))) s in
  if has_flag s CYANFS_SUPER_FLAG_READY
  then __cyanfs_extent_file_to_super fid n T_UNUSED s
  else __cyanfs_extent_file_to_super fid n T_FREE s.

(** The least key of a file's tree that is at least [k]. *)
Definition file_nfind (f : cyanfs_file) (k : Z) : option (Z * Z) :=
  i ← set_nfind (dom (f_extents f)) k;
  n ← f_extents f !! i;
  Some (i, n).

(** Where the search for a free extent starts: next to a neighbouring extent
    of the file when there is one within [CYANFS_EXTENT_CONTINUOUS], at a
    hash of the file and the offset otherwise. *)
Definition alloc_id_from (s : cyanfs_super) (f : cyanfs_file) (f_off : Z) : Z :=
  let id := cyanfs_extent_from f_off in
  let key := bf30 (if id <? CYANFS_EXTENT_CONTINUOUS then 0 else id - CYANFS_EXTENT_CONTINUOUS) in
  let hash := cyanfs_extent_alloc_hash (fm_id (f_meta f)) f_off mod sm_total_extents (s_meta s) in
  match file_nfind f key with
  | Some (n_file, n_backend) =>
      if n_file <=? u32 (id + CYANFS_EXTENT_CONTINUOUS) then u32 (n_backend + id - n_file) else hash
  | None => hash
  end.

Definition __cyanfs_file_alloc_extent (fid f_off : Z) (s : cyanfs_super)
    : option (option Z * cyanfs_super) :=
  if sm_free_extents (s_meta s) <=? sm_reserved_extents (s_meta s) then Some (None, s) else
  f ← files_by_id s !! fid;
  match __cyanfs_super_find_nearly_extent s (alloc_id_from s f f_off) with
  | None => Some (None, s)
  | Some n =>
      '(err, s) ← __cyanfs_file_map_extent fid n (cyanfs_extent_from f_off) s;
      Some (if failed err then None else Some n, s)
  end.

Definition __cyanfs_file_bind_extent (fid f_id b_id : Z) (s : cyanfs_super)
    : option (cyanfs_status * cyanfs_super) :=
  f ← files_by_id s !! fid;
  if (CYANFS_EXTENT_INDEX_MAX <? f_id) || (fm_size (f_meta f) <=? cyanfs_extent_begin f_id)
  then Some (ST_ERR ERR_INVAL, s) else
  match __cyanfs_super_find_extent s b_id with
  | None => Some (ST_ERR ERR_INVAL, s)
  | Some n => __cyanfs_file_map_extent fid n f_id s
  end.

Definition __cyanfs_file_unbind_extent (fid f_id : Z) (s : cyanfs_super)
    : option (cyanfs_status * cyanfs_super) :=
  f ← files_by_id s !! fid;
  if (CYANFS_EXTENT_INDEX_MAX <? f_id) || (fm_size (f_meta f) <=? cyanfs_extent_begin f_id)
  then Some (ST_ERR ERR_INVAL, s) else
  match __cyanfs_file_find_extent f (cyanfs_extent_begin f_id) with
  | None => Some (ST_ERR ERR_INVAL, s)
  | Some n => s ← __cyanfs_file_unmap_extent fid n s; Some (ST_OK, s)
  end.

(** ** Truncation

    The tree walk visits the keys of the file's tree in increasing order;
    removing the visited node does not change the rest of the walk. *)
Fixpoint unmap_keys (fid : Z) (keys : list Z) (s : cyanfs_super) : option cyanfs_super :=
  match keys with
  | [] => Some s
  | i :: keys =>
      f ← files_by_id s !! fid;
      n ← f_extents f !! i;
      s ← __cyanfs_file_unmap_extent fid n s;
      unmap_keys fid keys s
  end.

(** The keys [__cyanfs_file_truncate] unmaps: from the first key that is at
    least that of the last byte kept, those greater than it; all the keys
    when nothing is kept. *)
Definition truncate_keys (f : cyanfs_file) (size : Z) : list Z :=
  let keys := set_ordered (dom (f_extents f)) in
  if size =? 0 then keys
  else let last := bf30 (cyanfs_extent_from (u64 (size - 1))) in
       filter (λ i, last < i) (filter (λ i, last ≤ i) keys).

Definition __cyanfs_file_truncate (fid size : Z) (s : cyanfs_super) : option cyanfs_super :=
  f ← files_by_id s !! fid;
  s ← unmap_keys fid (truncate_keys f size) s;
  Some (upd_file fid (upd_fmeta (set_fm_size size)) s).

(** ** The file tables *)
Definition __cyanfs_lookup_file_by_name (s : cyanfs_super) (name : cyanfs_file_name_t) : option Z :=
  files_by_name s !! name.

Definition __cyanfs_lookup_file_by_id (s : cyanfs_super) (id : Z) : option cyanfs_file :=
  files_by_id s !! id.

Definition __cyanfs_init_file (name : cyanfs_file_name_t) (id : Z) (parent : option (Z * cyanfs_file))
    (s : cyanfs_super) : cyanfs_status * cyanfs_super :=
  let meta := mk_fmeta id
    (match parent with Some (pid, _) => pid | None => 0 end) name
    (match parent with Some (_, p) => fm_size (f_meta p) | None => 0 end) 0 0 in
  let file := mk_file (fst <$> parent) meta ∅ CYANFS_FILE_CLOSED 0 in
  match files_by_id s !! id with
  | Some _ => (ST_ERR ERR_INVAL, s)
  | None =>
      match files_by_name s !! name with
      | Some _ => (ST_ERR ERR_INVAL, s)
      | None =>
          let s := set_files_by_id (<[id := file]> (files_by_id s)) s in
          let s := set_files_by_name (<[name := id]> (files_by_name s)) s in
          let s := match parent with
                   | Some (pid, _) =>
                       upd_file pid (upd_fmeta (λ m, set_fm_children (u32 (fm_children m + 1)) m)) s
                   | None => s
                   end in
          let s := if max_file_id s <? id then set_max_file_id id s else s in
          (ST_OK, upd_meta (λ m, set_sm_files (u32 (sm_files m + 1)) m) s)
      end
  end.

Definition __cyanfs_rename_file (fid : Z) (name : cyanfs_file_name_t) (s : cyanfs_super)
    : option cyanfs_super :=
  f ← files_by_id s !! fid;
  bug_on (bool_decide (files_by_name s !! fm_name (f_meta f) ≠ Some fid));;
  let by_name := delete (fm_name (f_meta f)) (files_by_name s) in
  let s := upd_file fid (upd_fmeta (set_fm_name name)) s in
  let by_name := match by_name !! name with Some _ => by_name | None => <[name := fid]> by_name end in
  Some (set_files_by_name by_name s).

Definition __cyanfs_delete_file (fid : Z) (s : cyanfs_super) : option cyanfs_super :=
  s ← __cyanfs_file_truncate fid 0 s;
  f ← files_by_id s !! fid;
  let s := set_files_by_id (delete fid (files_by_id s)) s in
  bug_on (bool_decide (files_by_name s !! fm_name (f_meta f) ≠ Some fid));;
  let s := set_files_by_name (delete (fm_name (f_meta f)) (files_by_name s)) s in
  let s := upd_meta (λ m, set_sm_files (u32 (sm_files m - 1)) m) s in
  match f_parent f with
  | None => Some s
  | Some pid =>
      bug_on (bool_decide (files_by_id s !! pid = None));;
      Some (upd_file pid (upd_fmeta (λ m, set_fm_children (u32 (fm_children m - 1)) m)) s)
  end.

Definition __cyanfs_super_journal_append (j : cyanfs_journal_entry) (s : cyanfs_super) : cyanfs_super :=
  set_journal_count (u32 (journal_count s + 1)) (set_journal_head (journal_head s ++ [j]) s).

(** ** Replaying one journal entry *)
Definition replay_create (mem : bool) (name : cyanfs_file_name_t) (id : Z) (s : cyanfs_super)
    : cyanfs_status * cyanfs_super :=
  let '(err, name) := __cyanfs_file_name_normalize name in
  if failed err || (id =? 0) || bool_decide (is_Some (__cyanfs_lookup_file_by_id s id)) ||
     bool_decide (is_Some (__cyanfs_lookup_file_by_name s name))
  then (ST_ERR ERR_INVAL, s)
  else if CYANFS_SUPER_MAX_FILES <=? sm_files (s_meta s) then (ST_ERR ERR_NOSPACE, s)
  else if negb mem then (ST_ERR ERR_NOMEM, s)
  else __cyanfs_init_file name id None s.

Definition replay_fork (mem : bool) (name : cyanfs_file_name_t) (id pid : Z) (s : cyanfs_super)
    : cyanfs_status * cyanfs_super :=
  let '(err, name) := __cyanfs_file_name_normalize name in
  if failed err || (id =? 0) || (id <=? pid) ||
     bool_decide (is_Some (__cyanfs_lookup_file_by_id s id)) ||
     bool_decide (is_Some (__cyanfs_lookup_file_by_name s name))
  then (ST_ERR ERR_INVAL, s)
  else if CYANFS_SUPER_MAX_FILES <=? sm_files (s_meta s) then (ST_ERR ERR_NOSPACE, s)
  else match __cyanfs_lookup_file_by_id s pid with
       | None => (ST_ERR ERR_INVAL, s)
       | Some p =>
           if negb mem then (ST_ERR ERR_NOMEM, s)
           else __cyanfs_init_file name id (Some (pid, p)) s
       end.

Definition replay_truncate (id size : Z) (s : cyanfs_super) : option (cyanfs_status * cyanfs_super) :=
  let err := __cyanfs_file_size_validate size in
  if failed err then Some (err, s) else
  match __cyanfs_lookup_file_by_id s id with
  | None => Some (ST_ERR ERR_INVAL, s)
  | Some f =>
      if negb (fm_children (f_meta f) =? 0) then Some (ST_ERR ERR_INVAL, s)
      else s ← __cyanfs_file_truncate id size s; Some (ST_OK, s)
  end.

Definition replay_delete (id : Z) (s : cyanfs_super) : option (cyanfs_status * cyanfs_super) :=
  match __cyanfs_lookup_file_by_id s id with
  | None => Some (ST_ERR ERR_INVAL, s)
  | Some f =>
      if negb (fm_children (f_meta f) =? 0) then Some (ST_ERR ERR_INVAL, s)
      else s ← __cyanfs_delete_file id s; Some (ST_OK, s)
  end.

Definition replay_rename (name : cyanfs_file_name_t) (id : Z) (s : cyanfs_super)
    : option (cyanfs_status * cyanfs_super) :=
  let '(err, name) := __cyanfs_file_name_normalize name in
  if failed err then Some (err, s) else
  match __cyanfs_lookup_file_by_id s id with
  | None => Some (ST_ERR ERR_INVAL, s)
  | Some f =>
      match __cyanfs_lookup_file_by_name s name with
      | Some p => if p =? id then s ← __cyanfs_rename_file id name s; Some (ST_OK, s)
                  else Some (ST_ERR ERR_INVAL, s)
      | None => s ← __cyanfs_rename_file id name s; Some (ST_OK, s)
      end
  end.

Definition replay_next (backend : Z) (s : cyanfs_super) : option (cyanfs_status * cyanfs_super) :=
  match __cyanfs_super_find_extent s backend with
  | None => Some (ST_ERR ERR_INVAL, s)
  | Some n => s ← __cyanfs_extent_super_to_super n T_FREE T_JOURNAL s; Some (ST_OK, s)
  end.

Definition __cyanfs_super_journal_replay (mem : bool) (j : journal_body) (s : cyanfs_super)
    : option (cyanfs_status * cyanfs_super) :=
  match j with
  | J_CREATE name id => Some (replay_create mem name id s)
  | J_TRUNCATE id size => replay_truncate id size s
  | J_FORK name id pid => Some (replay_fork mem name id pid s)
  | J_DELETE id => replay_delete id s
  | J_BIND id backend file =>
      match __cyanfs_lookup_file_by_id s id with
      | None => Some (ST_ERR ERR_INVAL, s)
      | Some _ => __cyanfs_file_bind_extent id file backend s
      end
  | J_UNBIND id file =>
      match __cyanfs_lookup_file_by_id s id with
      | None => Some (ST_ERR ERR_INVAL, s)
      | Some _ => __cyanfs_file_unbind_extent id file s
      end
  | J_RENAME name id => replay_rename name id s
  | J_NEXT backend => replay_next backend s
  end.

(** A run of entries, stopping at the first error, as the loader's parser
    loop does. *)
Fixpoint replay_all (js : list journal_body) (s : cyanfs_super) : option (cyanfs_status * cyanfs_super) :=
  match js with
  | [] => Some (ST_OK, s)
  | j :: js =>
      '(err, s) ← __cyanfs_super_journal_replay true j s;
      if failed err then Some (err, s) else replay_all js s
  end.

(** ** A freshly opened super block ([cyanfs_super_open]) *)
Definition extent_init (i : Z) : cyanfs_extent := mk_extent (bf30 i) false false 0 false.

Definition all_extents (total : Z) : gset Z := list_to_set (seqZ 0 total).

Definition reserved_extents (total : Z) : Z :=
  let journal_size :=
    u64 (cyanfs_journal_entry_size CYANFS_JOURNAL_FORK * CYANFS_SUPER_MAX_FILES +
         cyanfs_journal_entry_size CYANFS_JOURNAL_BIND * total) in
  u32 ((journal_size / CYANFS_EXTENT_SIZE + 1) * 8).

Definition init_cursor : cyanfs_journal_cursor :=
  mk_cursor (replicate (Z.to_nat CYANFS_JOURNAL_PAGE_SIZE) 0) 0 0 0 0 0.

(** A super block with [total] free extents and no file. *)
Definition blank_super (total reserved size fl : Z) : cyanfs_super :=
  {| files_by_id := ∅; files_by_name := ∅;
     s_meta := mk_smeta [] total total 0 0 reserved size 0;
     nodes := list_to_map ((λ i, (i, extent_init i)) <$> seqZ 0 total);
     free_extents := all_extents total;
     discard_extents := ∅; wait_discard_extents := ∅; flush_extents := ∅; unused_extents := ∅;
     journal_extents := ∅; journal_head := []; journal_count := 0; max_file_id := 0; flags := fl;
     writers0 := 0; writers1 := 0; writer_current_id := false; journal_cursor := init_cursor;
     task_head := []; active_tasks := 0; new_task := None |}.

Definition init_super (size : Z) (discard compact : bool) : cyanfs_super :=
  let total := cyanfs_extent_from (u64 (size - CYANFS_SUPER_BLOCK_SIZE)) in
  blank_super total (reserved_extents total) size
    (Z.lor (if discard then CYANFS_SUPER_FLAG_DISCARD_ENABLED else 0)
           (if compact then CYANFS_SUPER_FLAG_COMPACT_ENABLED else 0)).
