(* ===== verification/SuperInv.v ===== *)
(** * SuperInv: the invariant of the in-memory state

    What every operation of [core/super.c] relies on and keeps.

    - [wf_ext]: each extent of the device is in exactly one place, one of the
      trees of the super block, the tree of one file at one index, or the set
      a flusher holds until the journal is on disk; the fields of the nodes
      agree with the place, and the counters of [struct cyanfs_super_meta] and
      [struct cyanfs_file_meta] are the sizes of the trees.
    - [wf_ns]: the two file tables describe the same files, names are normal
      and unique, a parent is an older live file, the counts of children and
      of files are right.
    - [wf_idx]: the extents of a file lie below its size.

    No operation aborts in such a state. *)
From Stdlib Require Import ZArith Lia.
From S2P Require Import Prelude Base Journal Spec Types Super.

(** ** Places *)
Inductive place := P_TREE (r : tree_ref) | P_FILE (id i : Z) | P_FLUSHER (k : Z).

#[export] Instance place_eq_dec : EqDecision place.
Proof. solve_decision. Defined.

(** Extent [b] is in place [p]; [fl] is what the flushers hold. *)
Definition owns (s : cyanfs_super) (fl : gmap Z (gset Z)) (p : place) (b : Z) : Prop :=
  match p with
  | P_TREE r => b ∈ tree_get r s
  | P_FILE id i => ∃ f, files_by_id s !! id = Some f ∧ f_extents f !! i = Some b
  | P_FLUSHER k => ∃ X, fl !! k = Some X ∧ b ∈ X
  end.

(** Every extent of the device is in exactly one place. *)
Record partition (own : place → Z → Prop) (total : Z) : Prop := {
  pt_cover : ∀ b, 0 ≤ b < total → ∃ p, own p b;
  pt_range : ∀ p b, own p b → 0 ≤ b < total;
  pt_unique : ∀ p p' b, own p b → own p' b → p = p' }.

(** Extent [b] moved to place [p]. *)
Definition moved (own own' : place → Z → Prop) (b : Z) (p : place) : Prop :=
  ∀ q c, own' q c ↔ (c = b ∧ q = p) ∨ (c ≠ b ∧ own q c).

Lemma partition_moved own own' total b p :
  partition own total → 0 ≤ b < total → moved own own' b p → partition own' total.
Proof.
  intros [Hc Hr Hu] Hb Hm. split.
  - intros c Hct. destruct (Z.eq_dec c b) as [->|Hne].
    + exists p. apply Hm. by left.
    + destruct (Hc c Hct) as [q Hq]. exists q. apply Hm. by right.
  - intros q c [[-> _]|[_ Hq]]%Hm; eauto.
  - intros q q' c [[-> ->]|[Hne Hq]]%Hm [[? ->]|[Hne' Hq']]%Hm; try done. eauto.
Qed.

(** The extents bound to files. *)
Definition data_set (fs : gmap Z cyanfs_file) : gset Z :=
  ⋃ ((λ p, map_img (f_extents p.2)) <$> map_to_list fs).

Lemma elem_of_data_set fs b :
  b ∈ data_set fs ↔ ∃ id f i, fs !! id = Some f ∧ f_extents f !! i = Some b.
Proof.
  unfold data_set. rewrite elem_of_union_list. split.
  - intros (X & HX & Hb). apply list_elem_of_fmap in HX as ([id f] & -> & Hin).
    apply elem_of_map_to_list in Hin. apply elem_of_map_img in Hb as [i Hi]. eauto.
  - intros (id & f & i & Hf & Hi). exists (map_img (f_extents f)). split.
    + apply list_elem_of_fmap. exists (id, f). split; [done|]. by apply elem_of_map_to_list.
    + apply elem_of_map_img. eauto.
Qed.

Lemma data_set_owns s fl b : b ∈ data_set (files_by_id s) ↔ ∃ id i, owns s fl (P_FILE id i) b.
Proof. rewrite elem_of_data_set. simpl. naive_solver. Qed.

(** ** Nodes *)

(** The fields of the node of extent [b], according to its place. *)
Definition node_ok (p : place) (b : Z) (e : cyanfs_extent) : Prop :=
  ext_backend e = b ∧
  match p with
  | P_FILE _ i => ext_map e = true ∧ ext_file e = i ∧ 0 ≤ i ≤ CYANFS_EXTENT_INDEX_MAX
  | _ => ext_map e = false ∧ ext_pending e = false ∧ ext_error e = false
  end.

Record wf_ext (s : cyanfs_super) (fl : gmap Z (gset Z)) : Prop := {
  we_total : 1 ≤ sm_total_extents (s_meta s) ≤ CYANFS_EXTENT_COUNT_MAX;
  we_part : partition (owns s fl) (sm_total_extents (s_meta s));
  we_node : ∀ p b, owns s fl p b → ∃ e, nodes s !! b = Some e ∧ node_ok p b e;
  we_free : sm_free_extents (s_meta s) = Z.of_nat (size (free_extents s));
  we_journal : sm_journal_extents (s_meta s) = Z.of_nat (size (journal_extents s));
  we_data : sm_data_extents (s_meta s) = Z.of_nat (size (data_set (files_by_id s)));
  we_fext : ∀ id f, files_by_id s !! id = Some f →
    fm_extents (f_meta f) = Z.of_nat (size (f_extents f)) }.

(** ** The name space *)

(** A file without its extents: what the extent operations do not change. *)
Definition strip (f : cyanfs_file) : cyanfs_file :=
  set_f_extents ∅ (upd_fmeta (set_fm_extents 0) f).

Definition children_of (fs : gmap Z cyanfs_file) (id : Z) : gset Z :=
  dom (filter (λ p, f_parent p.2 = Some id) fs).

Record wf_files (fs : gmap Z cyanfs_file) (by_name : gmap (list Z) Z) (max : Z) (n : Z) : Prop := {
  wn_max : 0 ≤ max ≤ U64_MAX;
  wn_count : n = Z.of_nat (size fs);
  wn_limit : n ≤ CYANFS_SUPER_MAX_FILES;
  wn_id : ∀ id f, fs !! id = Some f → fm_id (f_meta f) = id ∧ 0 < id ≤ max;
  wn_name : ∀ name id, by_name !! name = Some id ↔ ∃ f, fs !! id = Some f ∧ fm_name (f_meta f) = name;
  wn_normal : ∀ id f, fs !! id = Some f → name_normal (fm_name (f_meta f));
  wn_parent : ∀ id f p, fs !! id = Some f → f_parent f = Some p →
    p < id ∧ is_Some (fs !! p) ∧ fm_parent_id (f_meta f) = p;
  wn_children : ∀ id f, fs !! id = Some f →
    fm_children (f_meta f) = Z.of_nat (size (children_of fs id));
  wn_size : ∀ id f, fs !! id = Some f →
    0 ≤ fm_size (f_meta f) ≤ U64_MAX ∧ __cyanfs_file_size_validate (fm_size (f_meta f)) = ST_OK;
  wn_open : ∀ id f, fs !! id = Some f → f_open_type f = CYANFS_FILE_READWRITE →
    fm_children (f_meta f) = 0 }.

Definition ns_view (s : cyanfs_super) : gmap Z cyanfs_file * gmap (list Z) Z * Z * Z :=
  (strip <$> files_by_id s, files_by_name s, max_file_id s, sm_files (s_meta s)).

Definition wf_ns (s : cyanfs_super) : Prop :=
  wf_files (strip <$> files_by_id s) (files_by_name s) (max_file_id s) (sm_files (s_meta s)).

Definition wf_idx (s : cyanfs_super) : Prop :=
  ∀ id f i b, files_by_id s !! id = Some f → f_extents f !! i = Some b →
    CYANFS_EXTENT_SIZE * i < fm_size (f_meta f).

Record wf (s : cyanfs_super) (fl : gmap Z (gset Z)) : Prop := {
  wf_has_ext : wf_ext s fl; wf_has_ns : wf_ns s; wf_has_idx : wf_idx s }.

Lemma wf_ns_view s s' : ns_view s' = ns_view s → wf_ns s → wf_ns s'.
Proof. unfold ns_view, wf_ns. intros E. simplify_eq/=. congruence. Qed.

(** ** Counting *)
Lemma size_remove (X : gset Z) n : n ∈ X → Z.of_nat (size (X ∖ {[n]})) = Z.of_nat (size X) - 1.
Proof.
  intros Hn. assert (size X = size (X ∖ {[n]}) + 1)%nat as ->; [|lia].
  rewrite <- (size_singleton (C := gset Z) n), <- size_union by set_solver.
  f_equal. apply leibniz_equiv. intros x. destruct (decide (x = n)); set_solver.
Qed.

Lemma size_insert (X : gset Z) n : n ∉ X → Z.of_nat (size ({[n]} ∪ X)) = Z.of_nat (size X) + 1.
Proof. intros Hn. rewrite size_union by set_solver. rewrite size_singleton. lia. Qed.

Lemma elem_of_all_extents total b : b ∈ all_extents total ↔ 0 ≤ b < total.
Proof. unfold all_extents. rewrite elem_of_list_to_set, elem_of_seqZ. lia. Qed.

Lemma size_all_extents total : 0 ≤ total → Z.of_nat (size (all_extents total)) = total.
Proof.
  intros. unfold all_extents. rewrite size_list_to_set by apply NoDup_seqZ.
  rewrite length_seqZ. lia.
Qed.

Lemma size_in_range (X : gset Z) total :
  0 ≤ total → (∀ b, b ∈ X → 0 ≤ b < total) → Z.of_nat (size X) ≤ total.
Proof.
  intros Ht HX. rewrite <- (size_all_extents total) by done.
  apply inj_le, subseteq_size. intros b Hb. by apply elem_of_all_extents, HX.
Qed.

(** ** What the extent operations leave alone *)
Definition rest (s : cyanfs_super) :=
  (files_by_name s, max_file_id s, flags s, (journal_head s, journal_count s),
   (writers0 s, writers1 s, writer_current_id s), journal_cursor s,
   (task_head s, active_tasks s, new_task s),
   set_sm_free_extents 0 (set_sm_journal_extents 0 (set_sm_data_extents 0 (s_meta s)))).

Lemma rest_ns s s' :
  rest s' = rest s →
  files_by_name s' = files_by_name s ∧ max_file_id s' = max_file_id s ∧
  sm_files (s_meta s') = sm_files (s_meta s) ∧ flags s' = flags s ∧
  sm_total_extents (s_meta s') = sm_total_extents (s_meta s).
Proof. unfold rest. destruct s, s'. simpl. intros. by simplify_eq. Qed.

Definition ext_frame (s s' : cyanfs_super) : Prop :=
  rest s' = rest s ∧ strip <$> files_by_id s' = strip <$> files_by_id s.

#[export] Instance ext_frame_refl : Reflexive ext_frame.
Proof. by intros s. Qed.
#[export] Instance ext_frame_trans : Transitive ext_frame.
Proof. intros s1 s2 s3 [H1 H2] [H3 H4]. split; congruence. Qed.

Lemma ext_frame_ns s s' : ext_frame s s' → wf_ns s → wf_ns s'.
Proof.
  intros [Hr Hf]. apply wf_ns_view. unfold ns_view. rewrite Hf. unfold rest in Hr.
  destruct s, s'. simpl in *. simplify_eq. congruence.
Qed.

Lemma ext_frame_flag s s' f : ext_frame s s' → has_flag s' f = has_flag s f.
Proof. intros [Hr _]. unfold rest in Hr. unfold has_flag. destruct s, s'. simpl in *. by simplify_eq. Qed.

Lemma ext_frame_total s s' :
  ext_frame s s' → sm_total_extents (s_meta s') = sm_total_extents (s_meta s).
Proof. intros [Hr _]. unfold rest in Hr. destruct s, s'. simpl in *. by simplify_eq. Qed.

(** ** Trees *)
Lemma tree_get_set r r' X s : tree_get r (tree_set r' X s) = if decide (r = r') then X else tree_get r s.
Proof. by destruct r, r'. Qed.

Lemma tree_set_files r X s : files_by_id (tree_set r X s) = files_by_id s.
Proof. by destruct r. Qed.
Lemma tree_set_nodes r X s : nodes (tree_set r X s) = nodes s.
Proof. by destruct r. Qed.
Lemma tree_set_meta r X s : s_meta (tree_set r X s) = s_meta s.
Proof. by destruct r. Qed.
Lemma tree_set_rest r X s : rest (tree_set r X s) = rest s.
Proof. by destruct r. Qed.
Lemma stat_add_files r v s : files_by_id (__cyanfs_super_stat_add r v s) = files_by_id s.
Proof. by destruct r. Qed.
Lemma stat_add_nodes r v s : nodes (__cyanfs_super_stat_add r v s) = nodes s.
Proof. by destruct r. Qed.
Lemma stat_add_rest r v s : rest (__cyanfs_super_stat_add r v s) = rest s.
Proof. by destruct r. Qed.
Lemma stat_add_tree r' r v s : tree_get r' (__cyanfs_super_stat_add r v s) = tree_get r' s.
Proof. by destruct r, r'. Qed.
Lemma stat_add_total r v s :
  sm_total_extents (s_meta (__cyanfs_super_stat_add r v s)) = sm_total_extents (s_meta s).
Proof. by destruct r. Qed.
Lemma stat_add_data r v s :
  sm_data_extents (s_meta (__cyanfs_super_stat_add r v s)) = sm_data_extents (s_meta s).
Proof. by destruct r. Qed.

#[export] Hint Rewrite tree_get_set tree_set_files tree_set_nodes tree_set_meta tree_set_rest
  stat_add_files stat_add_nodes stat_add_rest stat_add_tree stat_add_total stat_add_data : ext.

(** The two counted trees: their counters are their sizes. *)
Definition counts_ok (s : cyanfs_super) : Prop :=
  sm_free_extents (s_meta s) = Z.of_nat (size (tree_get T_FREE s)) ∧
  sm_journal_extents (s_meta s) = Z.of_nat (size (tree_get T_JOURNAL s)).

Lemma counts_remove r n s :
  counts_ok s → n ∈ tree_get r s → Z.of_nat (size (tree_get r s)) < 4294967296 →
  counts_ok (tree_set r (tree_get r s ∖ {[n]}) (__cyanfs_super_stat_add r (-1) s)).
Proof.
  intros [Hf Hj] Hn Hlt. pose proof (size_remove _ _ Hn) as Hs.
  unfold counts_ok. destruct r; simpl in *; split; try done; rewrite Hs; unwrap; lia.
Qed.

Lemma counts_insert r n s :
  counts_ok s → n ∉ tree_get r s → Z.of_nat (size (tree_get r s)) + 1 < 4294967296 →
  counts_ok (__cyanfs_super_stat_add r 1 (tree_set r (rb_insert n (tree_get r s)) s)).
Proof.
  intros [Hf Hj] Hn Hlt. pose proof (size_insert _ _ Hn) as Hs.
  unfold counts_ok, rb_insert. destruct r; simpl in *; split; try done; rewrite Hs; unwrap; lia.
Qed.

(** ** Moving an extent *)
Section moves.
Context (s : cyanfs_super) (fl : gmap Z (gset Z)) (Hwf : wf_ext s fl).

Lemma owns_range p b : owns s fl p b → 0 ≤ b < sm_total_extents (s_meta s).
Proof. apply (pt_range _ _ (we_part _ _ Hwf)). Qed.

Lemma owns_unique p p' b : owns s fl p b → owns s fl p' b → p = p'.
Proof. apply (pt_unique _ _ (we_part _ _ Hwf)). Qed.

Lemma total_bound : sm_total_extents (s_meta s) ≤ 1073741824.
Proof. apply (we_total _ _ Hwf). Qed.

Lemma tree_size r : Z.of_nat (size (tree_get r s)) ≤ sm_total_extents (s_meta s).
Proof.
  apply size_in_range; [pose proof (we_total _ _ Hwf); lia|].
  intros b Hb. by apply (owns_range (P_TREE r)).
Qed.

Lemma data_size : Z.of_nat (size (data_set (files_by_id s))) ≤ sm_total_extents (s_meta s).
Proof.
  apply size_in_range; [pose proof (we_total _ _ Hwf); lia|].
  intros b (id & i & Hb)%(data_set_owns s fl). eauto using owns_range.
Qed.

(** The tree of a file has at most as many nodes as the device has extents. *)
Lemma file_size_extents id f :
  files_by_id s !! id = Some f → Z.of_nat (size (f_extents f)) ≤ sm_total_extents (s_meta s).
Proof.
  intros Hf. set (l := (map_to_list (f_extents f)).*2).
  assert (Hnd : NoDup l).
  { apply NoDup_fmap_2_strong; [|apply NoDup_map_to_list].
    intros [i b] [i' b'] Hi%elem_of_map_to_list Hi'%elem_of_map_to_list E. simpl in E. subst b'.
    assert (P_FILE id i = P_FILE id i') by (apply (owns_unique _ _ b); simpl; eauto). congruence. }
  replace (size (f_extents f)) with (size (list_to_set l : gset Z)).
  - apply size_in_range; [pose proof (we_total _ _ Hwf); lia|].
    intros b Hb. apply elem_of_list_to_set, list_elem_of_fmap in Hb as ([i b'] & -> & Hi%elem_of_map_to_list).
    apply (owns_range (P_FILE id i)). simpl. eauto.
  - rewrite size_list_to_set by done. unfold l. by rewrite length_fmap, length_map_to_list.
Qed.

Lemma wf_counts : counts_ok s.
Proof. split; [apply (we_free _ _ Hwf)|apply (we_journal _ _ Hwf)]. Qed.

Lemma not_elsewhere p r b : owns s fl p b → p ≠ P_TREE r → b ∉ tree_get r s.
Proof. intros Hp Hne Hb. apply Hne. by eapply owns_unique. Qed.

(** The invariant after a move, from what the operation did. *)
Lemma wf_ext_moved s' b p e :
  0 ≤ b < sm_total_extents (s_meta s) → ext_frame s s' →
  moved (owns s fl) (owns s' fl) b p →
  nodes s' !! b = Some e → node_ok p b e →
  (∀ c, c ≠ b → nodes s' !! c = nodes s !! c) →
  counts_ok s' →
  sm_data_extents (s_meta s') = Z.of_nat (size (data_set (files_by_id s'))) →
  (∀ id f, files_by_id s' !! id = Some f → fm_extents (f_meta f) = Z.of_nat (size (f_extents f))) →
  wf_ext s' fl.
Proof.
  intros Hb Hfr Hm Hn Hok Hns [Hcf Hcj] Hd Hfe. pose proof (ext_frame_total _ _ Hfr) as Ht.
  split; try done.
  - rewrite Ht. apply (we_total _ _ Hwf).
  - rewrite Ht. eapply partition_moved; eauto. apply (we_part _ _ Hwf).
  - intros q c [[-> ->]|[Hne Hq]]%Hm; [eauto|]. rewrite Hns by done. by apply (we_node _ _ Hwf).
Qed.
End moves.

Lemma super_to_super_ok s fl from to n :
  wf_ext s fl → n ∈ tree_get from s →
  ∃ s', __cyanfs_extent_super_to_super n from to s = Some s' ∧ wf_ext s' fl ∧
    moved (owns s fl) (owns s' fl) n (P_TREE to) ∧ ext_frame s s' ∧
    files_by_id s' = files_by_id s ∧ nodes s' = nodes s.
Proof.
  intros Hwf Hn. unfold __cyanfs_extent_super_to_super, rb_remove.
  autorewrite with ext. rewrite decide_True by done. cbn [mbind option_bind].
  eexists. split; [done|].
  set (s1 := tree_set from (tree_get from s ∖ {[n]}) (__cyanfs_super_stat_add from (-1) s)).
  assert (Hr1 : ∀ r, n ∉ tree_get r s1).
  { intros r. unfold s1. autorewrite with ext. destruct (decide (r = from)); [set_solver|].
    apply (not_elsewhere _ _ Hwf (P_TREE from)); [done|congruence]. }
  assert (Hc : counts_ok s1).
  { apply counts_remove; [by eapply wf_counts|done|].
    pose proof (tree_size _ _ Hwf from). pose proof (total_bound _ _ Hwf). lia. }
  set (s2 := __cyanfs_super_stat_add to 1 _).
  assert (Hf2 : files_by_id s2 = files_by_id s) by (unfold s2, s1; by autorewrite with ext).
  assert (Hn2 : nodes s2 = nodes s) by (unfold s2, s1; by autorewrite with ext).
  assert (Hfr : ext_frame s s2).
  { split; [unfold s2, s1; by autorewrite with ext|by rewrite Hf2]. }
  assert (Hm : moved (owns s fl) (owns s2 fl) n (P_TREE to)).
  { intros q c. destruct q as [r|id i|k]; simpl.
    - specialize (Hr1 r). unfold s2, s1, rb_insert in *. autorewrite with ext in *.
      destruct (decide (r = to)), (decide (to = from)), (decide (r = from));
        destruct (decide (c = n)); set_solver.
    - rewrite Hf2. split; [|naive_solver]. intros Ho. right. split; [|done]. intros ->.
      by pose proof (owns_unique _ _ Hwf (P_TREE from) (P_FILE id i) n Hn Ho).
    - split; [|naive_solver]. intros Ho. right. split; [|done]. intros ->.
      by pose proof (owns_unique _ _ Hwf (P_TREE from) (P_FLUSHER k) n Hn Ho). }
  split_and!; [|done..].
  destruct (we_node _ _ Hwf (P_TREE from) n Hn) as (e & He & Hok).
  eapply (wf_ext_moved s fl Hwf s2 n (P_TREE to) e); try done.
  - by eapply (owns_range _ _ Hwf (P_TREE from)).
  - by rewrite Hn2.
  - intros. by rewrite Hn2.
  - apply counts_insert; [done|by apply Hr1|].
    pose proof (tree_size _ _ Hwf to). pose proof (total_bound _ _ Hwf).
    unfold s1. autorewrite with ext. case_decide; [|lia]. subst.
    rewrite size_remove by done. lia.
  - rewrite Hf2. unfold s2, s1. autorewrite with ext. apply (we_data _ _ Hwf).
  - rewrite Hf2. apply (we_fext _ _ Hwf).
Qed.

(** ** Files *)

(** A file whose tree holds [X] (its counter follows). *)
Definition with_extents (X : gmap Z Z) (f : cyanfs_file) : cyanfs_file :=
  set_f_extents X (upd_fmeta (set_fm_extents (Z.of_nat (size X))) f).

Lemma alter_insert_eq {A} (g : A → A) (k : Z) (x : A) (m : gmap Z A) : m !! k = Some x → alter g k m = <[k := g x]> m.
Proof.
  intros Hx. apply map_eq. intros j. destruct (decide (j = k)) as [->|].
  - by rewrite lookup_alter_eq, Hx, lookup_insert_eq.
  - by rewrite lookup_alter_ne, lookup_insert_ne by done.
Qed.

Lemma upd_node_nodes n g s e : nodes s !! n = Some e → nodes (upd_node n g s) = <[n := g e]> (nodes s).
Proof. intros He. by apply alter_insert_eq. Qed.

Lemma upd_file_Some id g f s :
  files_by_id s !! id = Some f → upd_file id g s = set_files_by_id (<[id := g f]> (files_by_id s)) s.
Proof. intros Hf. unfold upd_file. by rewrite (alter_insert_eq g id f). Qed.

Lemma strip_insert (fs : gmap Z cyanfs_file) id f f' :
  fs !! id = Some f → strip f' = strip f → strip <$> <[id := f']> fs = strip <$> fs.
Proof.
  intros Hf E. rewrite fmap_insert, E, insert_id; [done|]. by rewrite lookup_fmap, Hf.
Qed.

Lemma with_extents_fext s s' fl id f X :
  wf_ext s fl → files_by_id s' = <[id := with_extents X f]> (files_by_id s) →
  ∀ id f, files_by_id s' !! id = Some f → fm_extents (f_meta f) = Z.of_nat (size (f_extents f)).
Proof.
  intros Hwf -> j g [[<- <-]|[Hne Hg]]%lookup_insert_Some; [done|]. by apply (we_fext _ _ Hwf j).
Qed.

Lemma data_set_moved s s' fl n p :
  moved (owns s fl) (owns s' fl) n p →
  (match p with P_FILE _ _ => n ∉ data_set (files_by_id s) | _ => n ∈ data_set (files_by_id s) end) →
  Z.of_nat (size (data_set (files_by_id s'))) =
  Z.of_nat (size (data_set (files_by_id s))) + match p with P_FILE _ _ => 1 | _ => -1 end.
Proof.
  intros Hm Hp.
  assert (Hin : ∀ c, c ∈ data_set (files_by_id s') ↔
            match p with P_FILE _ _ => c = n ∨ c ∈ data_set (files_by_id s)
                       | _ => c ≠ n ∧ c ∈ data_set (files_by_id s) end).
  { intros c. destruct p; rewrite (data_set_owns s' fl), (data_set_owns s fl).
    - split.
      + intros (a & i & [[-> Hd]|[Hne Ho]]%Hm); [done|]. eauto.
      + intros (Hne & a & i & Ho). exists a, i. apply Hm. by right.
    - split.
      + intros (a & j & [[-> Hd]|[Hne Ho]]%Hm); eauto.
      + intros [->|(a & j & Ho)].
        * exists id, i. apply Hm. by left.
        * destruct (decide (c = n)) as [->|]; [exists id, i; apply Hm; by left|].
          exists a, j. apply Hm. by right.
    - split.
      + intros (a & i & [[-> Hd]|[Hne Ho]]%Hm); [done|]. eauto.
      + intros (Hne & a & i & Ho). exists a, i. apply Hm. by right. }
  destruct p.
  - rewrite <- Z.sub_opp_r, <- (size_remove _ n) by done. do 2 f_equal. set_solver.
  - rewrite <- (size_insert _ n) by done. do 2 f_equal. set_solver.
  - rewrite <- Z.sub_opp_r, <- (size_remove _ n) by done. do 2 f_equal. set_solver.
Qed.

Definition node_clear (e : cyanfs_extent) : cyanfs_extent :=
  set_ext_map false (set_ext_pending false (set_ext_error false e)).

(** Where [__cyanfs_file_unmap_extent] puts an extent. *)
Definition unmap_dest (s : cyanfs_super) : tree_ref :=
  if has_flag s CYANFS_SUPER_FLAG_READY then T_UNUSED else T_FREE.

Lemma file_to_super_eq s id i n to f e :
  files_by_id s !! id = Some f → nodes s !! n = Some e → ext_file e = i →
  f_extents f !! i = Some n → fm_extents (f_meta f) = Z.of_nat (size (f_extents f)) →
  Z.of_nat (size (f_extents f)) < 4294967296 →
  __cyanfs_extent_file_to_super id n to s =
    Some (__cyanfs_super_stat_add to 1 (tree_set to (rb_insert n (tree_get to s))
      (upd_meta (λ m, set_sm_data_extents (u32 (sm_data_extents m - 1)) m)
        (set_files_by_id (<[id := with_extents (delete i (f_extents f)) f]> (files_by_id s)) s)))).
Proof.
  intros Hf He <- Hi Hc Hlt. unfold __cyanfs_extent_file_to_super.
  rewrite (upd_file_Some id _ f) by done. cbn [files_by_id upd_meta set_s_meta set_files_by_id].
  rewrite lookup_insert_eq. cbn [mbind option_bind].
  change (nodes (upd_meta _ _)) with (nodes s). rewrite He. cbn [mbind option_bind].
  rewrite bool_decide_false by (simpl; congruence). cbn [bug_on mbind option_bind].
  rewrite (upd_file_Some id _ (upd_fmeta (λ m, set_fm_extents (u32 (fm_extents m - 1)) m) f))
    by (simpl; by rewrite lookup_insert_eq).
  assert (Hs : size (f_extents f) ≠ 0%nat) by (apply map_size_ne_0_lookup; eauto).
  assert (E : set_f_extents (delete (ext_file e) (f_extents f))
    (upd_fmeta (λ m, set_fm_extents (u32 (fm_extents m - 1)) m) f) =
    with_extents (delete (ext_file e) (f_extents f)) f).
  { unfold with_extents, upd_fmeta. do 3 f_equal.
    rewrite Hc, u32_small, map_size_delete_Some by (eauto || lia). lia. }
  rewrite <- E. destruct to; cbn [files_by_id upd_meta set_s_meta set_files_by_id];
    by rewrite insert_insert_eq.
Qed.

Lemma moved_file_to_tree s s' fl id i n f to :
  wf_ext s fl → files_by_id s !! id = Some f → f_extents f !! i = Some n →
  files_by_id s' = <[id := with_extents (delete i (f_extents f)) f]> (files_by_id s) →
  (∀ r, tree_get r s' = if decide (r = to) then {[n]} ∪ tree_get r s else tree_get r s) →
  moved (owns s fl) (owns s' fl) n (P_TREE to).
Proof.
  intros Hwf Hf Hi Hfs Htr q c.
  assert (Ho : owns s fl (P_FILE id i) n) by (simpl; eauto).
  assert (Hu : ∀ q, owns s fl q n → q = P_FILE id i) by eauto using owns_unique.
  destruct q as [r|id' i'|k]; simpl.
  - rewrite Htr. specialize (Hu (P_TREE r)). simpl in Hu. case_decide; subst; set_solver.
  - specialize (Hu (P_FILE id' i')). simpl in Hu. rewrite Hfs. split.
    + intros (g & [[<- <-]|[Hne Hg]]%lookup_insert_Some & Hgi); simpl in Hgi.
      * apply lookup_delete_Some in Hgi as [Hne Hgi]. right. split; [|eauto].
        intros ->. assert (P_FILE id i' = P_FILE id i) by eauto. congruence.
      * right. split; [|eauto]. intros ->. assert (P_FILE id' i' = P_FILE id i) by eauto. congruence.
    + intros [[_ ?]|(Hne & g & Hg & Hgi)]; [done|]. destruct (decide (id' = id)) as [->|].
      * assert (g = f) as -> by congruence. exists (with_extents (delete i (f_extents f)) f).
        rewrite lookup_insert_eq. split; [done|]. simpl. rewrite lookup_delete_ne; congruence.
      * exists g. by rewrite lookup_insert_ne by done.
  - specialize (Hu (P_FLUSHER k)). simpl in Hu. split; [|naive_solver].
    intros Hk. right. split; [|done]. intros ->. by apply Hu in Hk.
Qed.

Lemma unmap_extent_ok s fl id i n f e :
  wf_ext s fl → files_by_id s !! id = Some f → f_extents f !! i = Some n →
  nodes s !! n = Some e → ext_pending e = false →
  ∃ s', __cyanfs_file_unmap_extent id n s = Some s' ∧ wf_ext s' fl ∧
    moved (owns s fl) (owns s' fl) n (P_TREE (unmap_dest s)) ∧ ext_frame s s' ∧
    files_by_id s' = <[id := with_extents (delete i (f_extents f)) f]> (files_by_id s) ∧
    nodes s' = <[n := node_clear e]> (nodes s).
Proof.
  intros Hwf Hf Hi He Hpend.
  assert (Ho : owns s fl (P_FILE id i) n) by (simpl; eauto).
  destruct (we_node _ _ Hwf _ _ Ho) as (e' & He' & Hb & Hmap & Hfile & Hi0).
  assert (e' = e) as -> by congruence.
  unfold __cyanfs_file_unmap_extent. rewrite He. cbn [mbind option_bind]. rewrite Hpend.
  cbn [bug_on mbind option_bind].
  set (s1 := upd_node n _ s).
  assert (Hn1 : nodes s1 = <[n := node_clear e]> (nodes s)) by (by apply upd_node_nodes).
  assert (Hto : (if has_flag s1 CYANFS_SUPER_FLAG_READY
     then __cyanfs_extent_file_to_super id n T_UNUSED s1
     else __cyanfs_extent_file_to_super id n T_FREE s1) =
     __cyanfs_extent_file_to_super id n (unmap_dest s) s1).
  { unfold unmap_dest. change (has_flag s1) with (has_flag s). by destruct (has_flag _ _). }
  rewrite Hto. clear Hto.
  pose proof (file_size_extents _ _ Hwf _ _ Hf) as Hfs. pose proof (total_bound _ _ Hwf).
  rewrite (file_to_super_eq s1 id i n _ f (node_clear e)); try done; [|by rewrite Hn1, lookup_insert_eq|
    by apply (we_fext _ _ Hwf id)|lia].
  eexists. split; [done|]. set (s2 := __cyanfs_super_stat_add _ 1 _).
  assert (Hf2 : files_by_id s2 = <[id := with_extents (delete i (f_extents f)) f]> (files_by_id s))
    by (unfold s2; by autorewrite with ext).
  assert (Hn2 : nodes s2 = <[n := node_clear e]> (nodes s)) by (unfold s2; by autorewrite with ext).
  assert (Hfr : ext_frame s s2).
  { split; [unfold s2; by autorewrite with ext|].
    rewrite Hf2. by apply (strip_insert _ _ f). }
  assert (Hm : moved (owns s fl) (owns s2 fl) n (P_TREE (unmap_dest s))).
  { eapply moved_file_to_tree; eauto. intros r. unfold s2, rb_insert. autorewrite with ext.
    case_decide; [by subst|by destruct r]. }
  split_and!; [|done..].
  eapply (wf_ext_moved s fl Hwf s2 n _ (node_clear e)); try done.
  - by eapply owns_range.
  - by rewrite Hn2, lookup_insert_eq.
  - intros c Hc. by rewrite Hn2, lookup_insert_ne.
  - unfold s2. set (s3 := upd_meta _ _).
    replace (tree_get (unmap_dest s) s1) with (tree_get (unmap_dest s) s3) by (by destruct (unmap_dest s)).
    apply counts_insert; [apply (wf_counts _ _ Hwf)| |].
    + intros Hin. eapply (not_elsewhere _ _ Hwf _ (unmap_dest s) n Ho); [done|].
      by destruct (unmap_dest s).
    + pose proof (tree_size _ _ Hwf (unmap_dest s)).
      destruct (unmap_dest s); simpl in *; lia.
  - assert (Hin : n ∈ data_set (files_by_id s)) by (eapply data_set_owns; eauto).
    rewrite (data_set_moved s s2 fl n _ Hm) by done.
    pose proof (size_remove _ _ Hin). pose proof (data_size _ _ Hwf).
    unfold s2. autorewrite with ext. simpl. rewrite (we_data _ _ Hwf), u32_small; lia.
  - by eapply with_extents_fext.
Qed.

(** ** Mapping *)
Lemma moved_tree_to_file s s' fl id i n f from :
  wf_ext s fl → files_by_id s !! id = Some f → f_extents f !! i = None → n ∈ tree_get from s →
  files_by_id s' = <[id := with_extents (<[i := n]> (f_extents f)) f]> (files_by_id s) →
  (∀ r, tree_get r s' = if decide (r = from) then tree_get r s ∖ {[n]} else tree_get r s) →
  moved (owns s fl) (owns s' fl) n (P_FILE id i).
Proof.
  intros Hwf Hf Hi Ho Hfs Htr q c.
  assert (Hu : ∀ q, owns s fl q n → q = P_TREE from) by (intros; by eapply (owns_unique _ _ Hwf)).
  destruct q as [r|id' i'|k]; simpl.
  - rewrite Htr. specialize (Hu (P_TREE r)). simpl in Hu. case_decide; subst; [set_solver|].
    split; [|naive_solver]. intros Hc. right. split; [|done]. intros ->. naive_solver.
  - specialize (Hu (P_FILE id' i')). simpl in Hu. rewrite Hfs. split.
    + intros (g & [[<- <-]|[Hne Hg]]%lookup_insert_Some & Hgi); simpl in Hgi.
      * apply lookup_insert_Some in Hgi as [[<- <-]|[Hne Hgi]]; [by left|]. right.
        split; [|eauto]. intros ->. discriminate Hu; eauto.
      * right. split; [|eauto]. intros ->. discriminate Hu; eauto.
    + intros [[-> [= -> ->]]|(Hne & g & Hg & Hgi)].
      * eexists. rewrite lookup_insert_eq. split; [done|]. simpl. by rewrite lookup_insert_eq.
      * destruct (decide (id' = id)) as [->|]; [|exists g; by rewrite lookup_insert_ne by done].
        assert (g = f) as -> by congruence. eexists. rewrite lookup_insert_eq. split; [done|]. simpl.
        rewrite lookup_insert_ne; congruence.
  - specialize (Hu (P_FLUSHER k)). simpl in Hu. split; [|naive_solver].
    intros Hk. right. split; [|done]. intros ->. by apply Hu in Hk.
Qed.

Lemma super_to_file_eq s id n from f e :
  n ∈ tree_get from s → files_by_id s !! id = Some f → nodes s !! n = Some e →
  f_extents f !! ext_file e = None → fm_extents (f_meta f) = Z.of_nat (size (f_extents f)) →
  Z.of_nat (size (f_extents f)) + 1 < 4294967296 →
  __cyanfs_extent_super_to_file id n from s =
    Some (set_files_by_id (<[id := with_extents (<[ext_file e := n]> (f_extents f)) f]> (files_by_id s))
      (upd_meta (λ m, set_sm_data_extents (u32 (sm_data_extents m + 1)) m)
        (tree_set from (tree_get from s ∖ {[n]}) (__cyanfs_super_stat_add from (-1) s)))).
Proof.
  intros Hn Hf He Hi Hc Hlt. unfold __cyanfs_extent_super_to_file, rb_remove.
  autorewrite with ext. rewrite decide_True by done. cbn [mbind option_bind].
  autorewrite with ext. rewrite Hf. cbn [mbind option_bind]. rewrite He. cbn [mbind option_bind].
  rewrite bool_decide_false by (rewrite Hi; by intros []). cbn [bug_on mbind option_bind].
  rewrite (upd_file_Some id (set_f_extents _) f) by (by autorewrite with ext).
  rewrite (upd_file_Some id _ (set_f_extents (<[ext_file e := n]> (f_extents f)) f))
    by (simpl; by rewrite lookup_insert_eq).
  assert (E : upd_fmeta (λ m, set_fm_extents (u32 (fm_extents m + 1)) m)
    (set_f_extents (<[ext_file e := n]> (f_extents f)) f) =
    with_extents (<[ext_file e := n]> (f_extents f)) f).
  { unfold with_extents, upd_fmeta, set_f_extents, set_f_meta. simpl. do 2 f_equal.
    rewrite Hc, u32_small, map_size_insert_None by (done || lia). lia. }
  rewrite E. f_equal. destruct from; simpl; unfold set_files_by_id, upd_meta, set_s_meta; simpl;
    by rewrite insert_insert_eq.
Qed.

Lemma find_extent_begin f i :
  0 ≤ i ≤ CYANFS_EXTENT_INDEX_MAX → __cyanfs_file_find_extent f (cyanfs_extent_begin i) = f_extents f !! i.
Proof.
  intros Hi. change CYANFS_EXTENT_INDEX_MAX with 1073741823 in Hi. unfold __cyanfs_file_find_extent.
  rewrite extent_from_begin by lia. by unwrap.
Qed.

Definition node_map (i : Z) (e : cyanfs_extent) : cyanfs_extent := set_ext_map true (set_ext_file i e).

Lemma map_extent_ok s fl id i n f :
  wf_ext s fl → files_by_id s !! id = Some f → f_extents f !! i = None →
  0 ≤ i ≤ CYANFS_EXTENT_INDEX_MAX → n ∈ free_extents s →
  ∃ e s', __cyanfs_file_map_extent id n i s = Some (ST_OK, s') ∧ wf_ext s' fl ∧
    moved (owns s fl) (owns s' fl) n (P_FILE id i) ∧ ext_frame s s' ∧
    files_by_id s' = <[id := with_extents (<[i := n]> (f_extents f)) f]> (files_by_id s) ∧
    nodes s !! n = Some e ∧ nodes s' = <[n := node_map i e]> (nodes s).
Proof.
  intros Hwf Hf Hi Hi0 Hn.
  assert (Ho : owns s fl (P_TREE T_FREE) n) by done.
  destruct (we_node _ _ Hwf _ _ Ho) as (e & He & Hb & Hok). exists e.
  unfold __cyanfs_file_map_extent. rewrite Hf. cbn [mbind option_bind].
  rewrite find_extent_begin, Hi by done. change CYANFS_EXTENT_INDEX_MAX with 1073741823 in Hi0.
  rewrite bf30_small by lia. set (s1 := upd_node n _ s).
  assert (Hn1 : nodes s1 = <[n := set_ext_file i e]> (nodes s)) by by apply upd_node_nodes.
  pose proof (file_size_extents _ _ Hwf _ _ Hf) as Hfs. pose proof (total_bound _ _ Hwf).
  pose proof (tree_size _ _ Hwf T_FREE).
  rewrite (super_to_file_eq s1 id n T_FREE f (set_ext_file i e)); try done;
    [|by rewrite Hn1, lookup_insert_eq|by apply (we_fext _ _ Hwf id)|lia].
  cbn [mbind option_bind]. eexists. split; [done|]. set (s2 := upd_node n _ _).
  assert (Hf2 : files_by_id s2 = <[id := with_extents (<[i := n]> (f_extents f)) f]> (files_by_id s)) by done.
  assert (Hn2 : nodes s2 = <[n := node_map i e]> (nodes s)).
  { unfold s2. erewrite upd_node_nodes by (simpl; by rewrite lookup_alter_eq, He).
    change (nodes (set_files_by_id _ _)) with (nodes s1). by rewrite Hn1, insert_insert_eq. }
  assert (Hfr : ext_frame s s2).
  { split; [done|]. rewrite Hf2. by apply (strip_insert _ _ f). }
  assert (Hm : moved (owns s fl) (owns s2 fl) n (P_FILE id i)).
  { eapply (moved_tree_to_file s s2 fl id i n f T_FREE); eauto. by intros []. }
  split_and!; try done.
  assert (Hnd : n ∉ data_set (files_by_id s)).
  { intros (a & j & Hj)%(data_set_owns s fl). by pose proof (owns_unique _ _ Hwf _ _ _ Ho Hj). }
  eapply (wf_ext_moved s fl Hwf s2 n _ (node_map i e)); try done.
  - by eapply owns_range.
  - by rewrite Hn2, lookup_insert_eq.
  - intros c Hc. by rewrite Hn2, lookup_insert_ne.
  - apply (counts_remove T_FREE n s); [by eapply wf_counts|done|lia].
  - rewrite (data_set_moved s s2 fl n _ Hm) by done. pose proof (data_size _ _ Hwf).
    unfold s2. simpl. rewrite (we_data _ _ Hwf), u32_small; lia.
  - by eapply with_extents_fext.
Qed.

(** ** Unmapping several extents *)
Definition drop_keys (keys : list Z) (m : gmap Z Z) : gmap Z Z := filter (λ p, p.1 ∉ keys) m.

(** No extent of the file is being copied. *)
Definition no_pending (s : cyanfs_super) (id : Z) : Prop :=
  ∀ f i n e, files_by_id s !! id = Some f → f_extents f !! i = Some n →
    nodes s !! n = Some e → ext_pending e = false.

Lemma drop_keys_cons i keys m : drop_keys keys (delete i m) = drop_keys (i :: keys) m.
Proof.
  unfold drop_keys. apply map_eq. intros j. apply option_eq. intros n.
  rewrite !map_lookup_filter_Some, lookup_delete_Some. simpl. set_solver.
Qed.

Lemma drop_keys_nil m : drop_keys [] m = m.
Proof.
  apply map_eq. intros j. apply option_eq. intros n. unfold drop_keys.
  rewrite map_lookup_filter_Some. set_solver.
Qed.

Lemma with_extents_id f :
  fm_extents (f_meta f) = Z.of_nat (size (f_extents f)) → with_extents (f_extents f) f = f.
Proof.
  intros H. unfold with_extents, upd_fmeta, set_fm_extents, set_f_meta, set_f_extents.
  destruct f as [? [] ? ? ?]. simpl in *. by rewrite H.
Qed.

Lemma unmap_keys_ok keys s fl id f :
  wf_ext s fl → files_by_id s !! id = Some f → NoDup keys →
  (∀ i, i ∈ keys → is_Some (f_extents f !! i)) → no_pending s id →
  ∃ s', unmap_keys id keys s = Some s' ∧ wf_ext s' fl ∧ ext_frame s s' ∧
    files_by_id s' = <[id := with_extents (drop_keys keys (f_extents f)) f]> (files_by_id s) ∧
    (∀ r, r ≠ unmap_dest s → tree_get r s' = tree_get r s) ∧
    (∀ c, (∀ i, i ∈ keys → f_extents f !! i ≠ Some c) → nodes s' !! c = nodes s !! c) ∧
    (∀ c e', nodes s' !! c = Some e' → ext_pending e' = true → nodes s !! c = Some e').
Proof.
  revert s f. induction keys as [|i keys IH]; intros s f Hwf Hf Hnd Hk Hp.
  - exists s. cbn [unmap_keys]. rewrite drop_keys_nil, with_extents_id, insert_id; try done.
    by apply (we_fext _ _ Hwf id).
  - apply NoDup_cons in Hnd as [Hni Hnd]. destruct (Hk i) as [n Hn]; [set_solver|].
    destruct (we_node _ _ Hwf (P_FILE id i) n) as (e & He & Hok); [simpl; eauto|].
    destruct (unmap_extent_ok s fl id i n f e) as (s1 & E1 & Hwf1 & Hm1 & Hfr1 & Hf1 & Hn1); eauto.
    set (f1 := with_extents (delete i (f_extents f)) f) in *.
    assert (Hd : unmap_dest s1 = unmap_dest s).
    { unfold unmap_dest. by rewrite (ext_frame_flag s s1). }
    destruct (IH s1 f1) as (s2 & E2 & Hwf2 & Hfr2 & Hf2 & Ht2 & Hn2 & Hp2); try done.
    + rewrite Hf1. by rewrite lookup_insert_eq.
    + intros j Hj. simpl. rewrite lookup_delete_ne by set_solver. apply Hk. set_solver.
    + intros g j c e' Hg Hj He'. rewrite Hf1, lookup_insert_eq in Hg. injection Hg as <-.
      simpl in Hj. apply lookup_delete_Some in Hj as [Hne Hj]. rewrite Hn1 in He'.
      apply lookup_insert_Some in He' as [[<- <-]|[Hnc He']]; [done|]. by eapply Hp.
    + exists s2. simpl. rewrite Hf. cbn [mbind option_bind]. rewrite Hn. cbn [mbind option_bind].
      rewrite E1. cbn [mbind option_bind]. split_and!; try done.
      * by transitivity s1.
      * rewrite Hf2, Hf1, insert_insert_eq. simpl. by rewrite drop_keys_cons.
      * intros r Hr. rewrite Ht2 by (by rewrite Hd). set_unfold. intros c.
        pose proof (Hm1 (P_TREE r) c) as Hc. simpl in Hc. rewrite Hc.
        split; [by intros [[_ [= ->]]|[_ ?]]|]. intros Hin. right. split; [|done]. intros ->.
        assert (P_TREE r = P_FILE id i) by (eapply (owns_unique _ _ Hwf); simpl; eauto). done.
      * intros c Hc. rewrite Hn2.
        -- rewrite Hn1. apply lookup_insert_ne. intros <-. apply (Hc i); [set_solver|done].
        -- intros j Hj. simpl. rewrite lookup_delete_Some. intros [_ Hjc]. apply (Hc j); [set_solver|done].
      * intros c e' He' Hpe. apply Hp2 in He'; [|done]. rewrite Hn1 in He'.
        by apply lookup_insert_Some in He' as [[<- <-]|[_ He']].
Qed.

(** ** The name space under the operations *)
Lemma elem_of_children fs id j :
  j ∈ children_of fs id ↔ ∃ f, fs !! j = Some f ∧ f_parent f = Some id.
Proof.
  unfold children_of. rewrite elem_of_dom. split.
  - intros [f Hf]. apply map_lookup_filter_Some in Hf as [Hf Hp]. eauto.
  - intros (f & Hf & Hp). exists f. by apply map_lookup_filter_Some.
Qed.

(** The fields of a file the name space is about, its size and open state
    apart. *)
Definition same_links (f f' : cyanfs_file) : Prop :=
  f_parent f' = f_parent f ∧ fm_id (f_meta f') = fm_id (f_meta f) ∧
  fm_parent_id (f_meta f') = fm_parent_id (f_meta f) ∧
  fm_name (f_meta f') = fm_name (f_meta f) ∧ fm_children (f_meta f') = fm_children (f_meta f).

Definition size_ok (size : Z) : Prop :=
  0 ≤ size ≤ U64_MAX ∧ __cyanfs_file_size_validate size = ST_OK.

Section names.
Context (fs : gmap Z cyanfs_file) (bn : gmap (list Z) Z) (mx n : Z).
Context (Hwf : wf_files fs bn mx n).

Lemma wf_files_update id f f' :
  fs !! id = Some f → same_links f f' → size_ok (fm_size (f_meta f')) →
  (f_open_type f' = CYANFS_FILE_READWRITE → fm_children (f_meta f) = 0) →
  wf_files (<[id := f']> fs) bn mx n.
Proof.
  intros Hf (Hp & Hid & Hpid & Hnm & Hch) Hs Ho. destruct Hwf as [Hmx Hcnt Hlim Hi Hn Hnn Hpa Hc Hsz Hop].
  assert (Hup : ∀ j g, <[id := f']> fs !! j = Some g → ∃ g0, fs !! j = Some g0 ∧ same_links g0 g).
  { intros j g [[<- <-]|[Hne Hg]]%lookup_insert_Some; [|by exists g]. exists f. by split. }
  assert (Hdn : ∀ j g0, fs !! j = Some g0 → ∃ g, <[id := f']> fs !! j = Some g ∧ same_links g0 g).
  { intros j g0 Hg. destruct (decide (j = id)) as [->|].
    - exists f'. rewrite lookup_insert_eq. split; [done|]. simplify_eq. done.
    - exists g0. by rewrite lookup_insert_ne. }
  split; try done.
  - rewrite map_size_insert_Some; [done|eauto].
  - intros j g (g0 & Hg & ? & -> & ?)%Hup. eauto.
  - intros name j. rewrite Hn. split.
    + intros (g0 & Hg & <-). destruct (Hdn _ _ Hg) as (g & Hg' & ? & ? & ? & ? & ?). eauto.
    + intros (g & Hg & <-). destruct (Hup _ _ Hg) as (g0 & Hg' & ? & ? & ? & ? & ?). eauto.
  - intros j g (g0 & Hg & ? & ? & ? & -> & ?)%Hup. eauto.
  - intros j g p (g0 & Hg & HP & ? & -> & ?)%Hup. rewrite HP. intros Hgp.
    destruct (Hpa _ _ _ Hg Hgp) as (? & [q Hq] & ?). split_and!; try done.
    destruct (Hdn _ _ Hq) as (? & ? & _). eauto.
  - intros j g (g0 & Hg & ? & ? & ? & ? & ->)%Hup. rewrite (Hc _ _ Hg). do 2 f_equal.
    apply leibniz_equiv. intros x. rewrite !elem_of_children. split.
    + intros (h & Hh & Hhp). destruct (Hdn _ _ Hh) as (h' & Hh' & E & _). exists h'. by rewrite E.
    + intros (h & Hh & Hhp). destruct (Hup _ _ Hh) as (h' & Hh' & E & _). exists h'. by rewrite <- E.
  - intros j g [[<- <-]|[Hne Hg]]%lookup_insert_Some; [done|eauto].
  - intros j g [[<- <-]|[Hne Hg]]%lookup_insert_Some; [by rewrite Hch|eauto].
Qed.

Lemma wf_files_children_bound id f : fs !! id = Some f → 0 ≤ fm_children (f_meta f) ≤ CYANFS_SUPER_MAX_FILES.
Proof.
  intros Hf. rewrite (wn_children _ _ _ _ Hwf _ _ Hf). split; [lia|].
  transitivity n; [|apply (wn_limit _ _ _ _ Hwf)]. rewrite (wn_count _ _ _ _ Hwf).
  rewrite <- (size_dom (D := gset Z) fs). apply inj_le, subseteq_size.
  intros x (g & Hg & _)%elem_of_children. apply elem_of_dom. eauto.
Qed.

(** A file has children exactly when its count is not zero. *)
Lemma wf_files_no_children id f :
  fs !! id = Some f → fm_children (f_meta f) = 0 ↔ ∀ j g, fs !! j = Some g → f_parent g ≠ Some id.
Proof.
  intros Hf. rewrite (wn_children _ _ _ _ Hwf _ _ Hf).
  change 0 with (Z.of_nat 0). rewrite Nat2Z.inj_iff, size_empty_iff. split.
  - intros He j g Hg Hp. assert (j ∈ children_of fs id) by (apply elem_of_children; eauto). set_solver.
  - intros H. intros x. split; [|set_solver]. intros (g & Hg & Hp)%elem_of_children. by destruct (H x g).
Qed.
End names.

(** The file table after a file was added or removed: the count of children
    of its parent changes by [d]. *)
Definition bump (d : Z) (parent : option Z) (j : Z) (g : cyanfs_file) : cyanfs_file :=
  if decide (parent = Some j) then upd_fmeta (λ m, set_fm_children (u32 (fm_children m + d)) m) g else g.

Definition bump_parent (d : Z) (parent : option Z) (fs : gmap Z cyanfs_file) : gmap Z cyanfs_file :=
  match parent with
  | Some p => alter (upd_fmeta (λ m, set_fm_children (u32 (fm_children m + d)) m)) p fs
  | None => fs
  end.

Lemma lookup_bump_parent d parent fs j : bump_parent d parent fs !! j = bump d parent j <$> fs !! j.
Proof.
  unfold bump_parent, bump. destruct parent as [p|].
  - destruct (decide (Some p = Some j)) as [[= ->]|Hne]; [by rewrite lookup_alter_eq|].
    rewrite lookup_alter_ne by congruence. by destruct (fs !! j).
  - by destruct (fs !! j).
Qed.

Lemma bump_parent_Some d parent fs j g' :
  bump_parent d parent fs !! j = Some g' ↔ ∃ g, fs !! j = Some g ∧ g' = bump d parent j g.
Proof. rewrite lookup_bump_parent, fmap_Some. done. Qed.

Lemma size_bump_parent d parent fs : size (bump_parent d parent fs) = size fs.
Proof.
  unfold bump_parent. destruct parent as [p|]; [|done].
  rewrite <- !(size_dom (D := gset Z)). f_equal. set_solver.
Qed.

Lemma bump_fields d parent j g :
  f_parent (bump d parent j g) = f_parent g ∧ fm_id (f_meta (bump d parent j g)) = fm_id (f_meta g) ∧
  fm_parent_id (f_meta (bump d parent j g)) = fm_parent_id (f_meta g) ∧
  fm_name (f_meta (bump d parent j g)) = fm_name (f_meta g) ∧
  fm_size (f_meta (bump d parent j g)) = fm_size (f_meta g) ∧
  f_open_type (bump d parent j g) = f_open_type g ∧ f_extents (bump d parent j g) = f_extents g ∧
  fm_extents (f_meta (bump d parent j g)) = fm_extents (f_meta g).
Proof. unfold bump. by case_decide. Qed.

Lemma bump_children d parent j g :
  fm_children (f_meta (bump d parent j g)) =
  if decide (parent = Some j) then u32 (fm_children (f_meta g) + d) else fm_children (f_meta g).
Proof. unfold bump. by case_decide. Qed.

Lemma children_bump d parent fs k : children_of (bump_parent d parent fs) k = children_of fs k.
Proof.
  apply leibniz_equiv. intros x. rewrite !elem_of_children. split.
  - intros (g' & (g & Hg & ->)%bump_parent_Some & Hp). exists g. split; [done|].
    by rewrite (proj1 (bump_fields d parent x g)) in Hp.
  - intros (g & Hg & Hp). exists (bump d parent x g). split; [apply bump_parent_Some; eauto|].
    by rewrite (proj1 (bump_fields d parent x g)).
Qed.

Lemma children_insert_new fs id f k :
  fs !! id = None →
  children_of (<[id := f]> fs) k =
  if decide (f_parent f = Some k) then {[id]} ∪ children_of fs k else children_of fs k.
Proof.
  intros Hid. apply leibniz_equiv. intros x. rewrite elem_of_children.
  transitivity ((x = id ∧ f_parent f = Some k) ∨ x ∈ children_of fs k).
  - rewrite elem_of_children. split.
    + intros (g & [[<- <-]|[Hne Hg]]%lookup_insert_Some & Hp); eauto.
    + intros [[-> Hp]|(g & Hg & Hp)].
      * exists f. by rewrite lookup_insert_eq.
      * exists g. rewrite lookup_insert_ne; [done|]. congruence.
  - case_decide; set_solver.
Qed.

Lemma children_delete fs id f k :
  fs !! id = Some f →
  children_of (delete id fs) k =
  if decide (f_parent f = Some k) then children_of fs k ∖ {[id]} else children_of fs k.
Proof.
  intros Hid. apply leibniz_equiv. intros x. rewrite elem_of_children.
  transitivity (x ≠ id ∧ x ∈ children_of fs k).
  - rewrite elem_of_children. split.
    + intros (g & [Hne Hg]%lookup_delete_Some & Hp); eauto.
    + intros (Hne & g & Hg & Hp). exists g. by rewrite lookup_delete_ne.
  - case_decide; [set_solver|]. split; [tauto|]. intros Hx. split; [|done]. intros ->.
    apply elem_of_children in Hx as (g & Hg & Hp). congruence.
Qed.

(** A file that can be added to the table under [id]. *)
Record addable (fs : gmap Z cyanfs_file) (id : Z) (f : cyanfs_file) : Prop := {
  ad_id : fm_id (f_meta f) = id;
  ad_range : 0 < id ≤ U64_MAX;
  ad_fresh : fs !! id = None;
  ad_limit : Z.of_nat (size fs) < CYANFS_SUPER_MAX_FILES;
  ad_name : name_normal (fm_name (f_meta f));
  ad_parent : ∀ p, f_parent f = Some p →
    p < id ∧ fm_parent_id (f_meta f) = p ∧ ∃ g, fs !! p = Some g ∧ f_open_type g ≠ CYANFS_FILE_READWRITE;
  ad_children : fm_children (f_meta f) = 0;
  ad_size : size_ok (fm_size (f_meta f)) }.

(** The counts of children after a file was added. *)
Lemma added_children fs bn mx n id f j g :
  wf_files fs bn mx n → addable fs id f → <[id := f]> fs !! j = Some g →
  fm_children (f_meta (bump 1 (f_parent f) j g)) = Z.of_nat (size (children_of (bump_parent 1 (f_parent f) (<[id := f]> fs)) j)).
Proof.
  intros Hwf [Hid Hr Hfr Hlim Hnn Hpar Hch Hsz] Hg. rewrite children_bump, children_insert_new by done. rewrite bump_children.
  apply lookup_insert_Some in Hg as [[<- <-]|[Hne Hg]].
  - rewrite decide_False by (intros E; destruct (Hpar id E); lia).
    rewrite decide_False by (intros E; destruct (Hpar id E); lia). rewrite Hch.
    assert (children_of fs id = ∅) as ->; [|done].
    apply leibniz_equiv. intros x. split; [|set_solver]. intros (g & Hg & Hp)%elem_of_children.
    destruct (wn_parent _ _ _ _ Hwf x g id Hg Hp) as (_ & [h Hh] & _). congruence.
  - rewrite (wn_children _ _ _ _ Hwf j g Hg).
    pose proof (wf_files_children_bound _ _ _ _ Hwf j g Hg) as Hb. rewrite (wn_children _ _ _ _ Hwf j g Hg) in Hb.
    change CYANFS_SUPER_MAX_FILES with 4096 in Hb.
    case_decide; [|done]. rewrite size_insert; [unwrap; lia|].
    intros (h & Hh & _)%elem_of_children. congruence.
Qed.

Lemma wf_files_add fs bn mx n id f :
  wf_files fs bn mx n → addable fs id f → bn !! fm_name (f_meta f) = None →
  wf_files (bump_parent 1 (f_parent f) (<[id := f]> fs)) (<[fm_name (f_meta f) := id]> bn) (Z.max mx id) (n + 1).
Proof.
  intros Hwf [Hid Hr Hfr Hlim Hnn Hpar Hch Hsz] Hbn. set (par := f_parent f) in *.
  assert (Hself : bump 1 par id f = f).
  { unfold bump. rewrite decide_False; [done|]. intros E. destruct (Hpar id E). lia. }
  assert (Hfids : ∀ j g, fs !! j = Some g → j ≠ id) by congruence.
  split.
  - pose proof (wn_max _ _ _ _ Hwf). lia.
  - rewrite size_bump_parent, map_size_insert_None by done. rewrite (wn_count _ _ _ _ Hwf). lia.
  - rewrite (wn_count _ _ _ _ Hwf). lia.
  - intros j g' (g & [[<- <-]|[Hne Hg]]%lookup_insert_Some & ->)%bump_parent_Some.
    + rewrite Hself. lia.
    + pose proof (bump_fields 1 par j g) as (_ & -> & _). pose proof (wn_id _ _ _ _ Hwf j g Hg). lia.
  - intros name j. rewrite lookup_insert_Some, (wn_name _ _ _ _ Hwf). split.
    + intros [[<- <-]|(Hne & g & Hg & <-)].
      * exists f. split; [|done]. apply bump_parent_Some. exists f. by rewrite lookup_insert_eq.
      * exists (bump 1 par j g). pose proof (bump_fields 1 par j g) as (_ & _ & _ & -> & _).
        split; [|done]. apply bump_parent_Some. exists g. rewrite lookup_insert_ne; [done|].
        intros <-. congruence.
    + intros (g' & (g & [[<- <-]|[Hne Hg]]%lookup_insert_Some & ->)%bump_parent_Some & <-).
      * left. by rewrite Hself.
      * right. pose proof (bump_fields 1 par j g) as (_ & _ & _ & -> & _). split; [|eauto].
        intros E. assert (bn !! fm_name (f_meta g) = Some j) by (apply (wn_name _ _ _ _ Hwf); eauto). congruence.
  - intros j g' (g & [[<- <-]|[Hne Hg]]%lookup_insert_Some & ->)%bump_parent_Some; [by rewrite Hself|].
    pose proof (bump_fields 1 par j g) as (_ & _ & _ & -> & _). by apply (wn_normal _ _ _ _ Hwf j).
  - intros j g' p (g & Hg & ->)%bump_parent_Some.
    pose proof (bump_fields 1 par j g) as (-> & _ & -> & _). intros Hp.
    assert (Hin : ∀ q, is_Some (fs !! q) → is_Some (bump_parent 1 par (<[id := f]> fs) !! q)).
    { intros q [h Hh]. rewrite lookup_bump_parent, lookup_insert_ne, Hh; [eauto|]. intros <-. congruence. }
    apply lookup_insert_Some in Hg as [[<- <-]|[Hne Hg]].
    + destruct (Hpar p Hp) as (? & ? & h & Hh & _). split_and!; try done. apply Hin. eauto.
    + destruct (wn_parent _ _ _ _ Hwf j g p Hg Hp) as (? & ? & ?). eauto.
  - intros j g' (g & Hg & ->)%bump_parent_Some. by apply (added_children fs bn mx n).
  - intros j g' (g & [[<- <-]|[Hne Hg]]%lookup_insert_Some & ->)%bump_parent_Some; [by rewrite Hself|].
    pose proof (bump_fields 1 par j g) as (_ & _ & _ & _ & -> & _). by apply (wn_size _ _ _ _ Hwf j).
  - intros j g' (g & [[<- <-]|[Hne Hg]]%lookup_insert_Some & ->)%bump_parent_Some; [by rewrite Hself|].
    pose proof (bump_fields 1 par j g) as (_ & _ & _ & _ & _ & -> & _). intros Ho.
    rewrite bump_children. case_decide as Hd; [|by apply (wn_open _ _ _ _ Hwf j)].
    destruct (Hpar j Hd) as (_ & _ & h & Hh & Hno). congruence.
Qed.

Lemma wf_files_remove fs bn mx n id f :
  wf_files fs bn mx n → fs !! id = Some f → fm_children (f_meta f) = 0 →
  wf_files (bump_parent (-1) (f_parent f) (delete id fs)) (delete (fm_name (f_meta f)) bn) mx (n - 1).
Proof.
  intros Hwf Hf Hch. set (par := f_parent f).
  pose proof (proj1 (wf_files_no_children _ _ _ _ Hwf id f Hf) Hch) as Hnoc.
  assert (Hget : ∀ j g', bump_parent (-1) par (delete id fs) !! j = Some g' →
            j ≠ id ∧ ∃ g, fs !! j = Some g ∧ g' = bump (-1) par j g).
  { intros j g' (g & [Hne Hg]%lookup_delete_Some & ->)%bump_parent_Some. eauto. }
  assert (Hput : ∀ j g, j ≠ id → fs !! j = Some g →
            bump_parent (-1) par (delete id fs) !! j = Some (bump (-1) par j g)).
  { intros j g Hne Hg. apply bump_parent_Some. exists g. by rewrite lookup_delete_ne. }
  assert (Hsz : size fs ≠ 0%nat) by (apply map_size_ne_0_lookup; eauto).
  split.
  - apply (wn_max _ _ _ _ Hwf).
  - rewrite size_bump_parent, map_size_delete_Some by eauto. rewrite (wn_count _ _ _ _ Hwf). lia.
  - pose proof (wn_limit _ _ _ _ Hwf). lia.
  - intros j g' (Hne & g & Hg & ->)%Hget. pose proof (bump_fields (-1) par j g) as (_ & -> & _).
    by apply (wn_id _ _ _ _ Hwf j g).
  - intros name j. rewrite lookup_delete_Some, (wn_name _ _ _ _ Hwf). split.
    + intros (Hnm & g & Hg & <-). exists (bump (-1) par j g).
      pose proof (bump_fields (-1) par j g) as (_ & _ & _ & -> & _). split; [|done].
      apply Hput; [|done]. intros ->. congruence.
    + intros (g' & (Hne & g & Hg & ->)%Hget & <-).
      pose proof (bump_fields (-1) par j g) as (_ & _ & _ & -> & _). split; [|eauto].
      intros E. assert (bn !! fm_name (f_meta f) = Some j) by (apply (wn_name _ _ _ _ Hwf); eauto).
      assert (bn !! fm_name (f_meta f) = Some id) by (apply (wn_name _ _ _ _ Hwf); eauto). congruence.
  - intros j g' (Hne & g & Hg & ->)%Hget. pose proof (bump_fields (-1) par j g) as (_ & _ & _ & -> & _).
    by apply (wn_normal _ _ _ _ Hwf j).
  - intros j g' p (Hne & g & Hg & ->)%Hget. pose proof (bump_fields (-1) par j g) as (-> & _ & -> & _).
    intros Hp. destruct (wn_parent _ _ _ _ Hwf j g p Hg Hp) as (? & [h Hh] & ?). split_and!; try done.
    exists (bump (-1) par p h). apply Hput; [|done]. intros ->. by apply (Hnoc j g).
  - intros j g' (Hne & g & Hg & ->)%Hget. rewrite children_bump, (children_delete _ _ f) by done.
    rewrite bump_children. fold par. rewrite (wn_children _ _ _ _ Hwf j g Hg). case_decide as Hd; [|done].
    assert (Hin : id ∈ children_of fs j) by (apply elem_of_children; eauto).
    pose proof (wf_files_children_bound _ _ _ _ Hwf j g Hg) as Hb. rewrite (wn_children _ _ _ _ Hwf j g Hg) in Hb.
    change CYANFS_SUPER_MAX_FILES with 4096 in Hb. pose proof (size_remove _ _ Hin). unwrap; lia.
  - intros j g' (Hne & g & Hg & ->)%Hget. pose proof (bump_fields (-1) par j g) as (_ & _ & _ & _ & -> & _).
    by apply (wn_size _ _ _ _ Hwf j).
  - intros j g' (Hne & g & Hg & ->)%Hget. pose proof (bump_fields (-1) par j g) as (_ & _ & _ & _ & _ & -> & _).
    intros Ho. rewrite bump_children. case_decide as Hd; [|by apply (wn_open _ _ _ _ Hwf j)].
    pose proof (wn_open _ _ _ _ Hwf j g Hg Ho) as H0.
    by destruct (proj1 (wf_files_no_children _ _ _ _ Hwf j g Hg) H0 id f Hf).
Qed.

Lemma wf_files_rename fs bn mx n id f name :
  wf_files fs bn mx n → fs !! id = Some f → name_normal name →
  (∀ j, bn !! name = Some j → j = id) →
  wf_files (<[id := upd_fmeta (set_fm_name name) f]> fs)
    (<[name := id]> (delete (fm_name (f_meta f)) bn)) mx n.
Proof.
  intros Hwf Hf Hnn Hfree. set (f' := upd_fmeta (set_fm_name name) f).
  assert (Hget : ∀ j g', <[id := f']> fs !! j = Some g' →
            ∃ g, fs !! j = Some g ∧ g' = if decide (j = id) then f' else g).
  { intros j g' [[<- <-]|[Hne Hg]]%lookup_insert_Some; [exists f; by rewrite decide_True|].
    exists g'. by rewrite decide_False. }
  assert (Hsome : ∀ j, is_Some (fs !! j) → is_Some (<[id := f']> fs !! j)).
  { intros j Hj. destruct (decide (j = id)) as [->|]; [by rewrite lookup_insert_eq|by rewrite lookup_insert_ne]. }
  split; try apply Hwf.
  - rewrite map_size_insert_Some by eauto. apply (wn_count _ _ _ _ Hwf).
  - intros j g' (g & Hg & ->)%Hget. case_decide; subst; [|by apply (wn_id _ _ _ _ Hwf j)].
    by apply (wn_id _ _ _ _ Hwf id f).
  - intros nm j. rewrite lookup_insert_Some, lookup_delete_Some, (wn_name _ _ _ _ Hwf). split.
    + intros [[<- <-]|(Hne & Hnm & g & Hg & <-)].
      * exists f'. by rewrite lookup_insert_eq.
      * exists g. rewrite lookup_insert_ne; [done|]. intros <-. congruence.
    + intros (g & [[<- <-]|[Hne Hg]]%lookup_insert_Some & <-); [by left|]. right. split_and!; [| |eauto].
      * intros ->. apply Hne. symmetry. apply Hfree, (wn_name _ _ _ _ Hwf). eauto.
      * intros E. assert (bn !! fm_name (f_meta f) = Some j) by (apply (wn_name _ _ _ _ Hwf); eauto).
        assert (bn !! fm_name (f_meta f) = Some id) by (apply (wn_name _ _ _ _ Hwf); eauto). congruence.
  - intros j g' (g & Hg & ->)%Hget. case_decide; [done|]. by apply (wn_normal _ _ _ _ Hwf j).
  - intros j g' p (g & Hg & ->)%Hget Hp.
    assert (f_parent g = Some p ∧ fm_parent_id (f_meta (if decide (j = id) then f' else g)) = fm_parent_id (f_meta g))
      as [Hp' ->].
    { case_decide; subst; simplify_eq; done. }
    destruct (wn_parent _ _ _ _ Hwf j g p Hg Hp') as (? & ? & ?). eauto.
  - intros j g' (g & Hg & ->)%Hget.
    assert (fm_children (f_meta (if decide (j = id) then f' else g)) = fm_children (f_meta g)) as ->.
    { case_decide; subst; simplify_eq; done. }
    rewrite (wn_children _ _ _ _ Hwf j g Hg). do 2 f_equal. apply leibniz_equiv. intros x.
    rewrite !elem_of_children. split.
    + intros (h & Hh & Hp). destruct (decide (x = id)) as [->|].
      * exists f'. rewrite lookup_insert_eq. by simplify_eq.
      * exists h. by rewrite lookup_insert_ne.
    + intros (h & (h0 & Hh & ->)%Hget & Hp). exists h0. split; [done|]. case_decide; subst; simplify_eq; done.
  - intros j g' (g & Hg & ->)%Hget. case_decide; subst; [|by apply (wn_size _ _ _ _ Hwf j)].
    by apply (wn_size _ _ _ _ Hwf id f).
  - intros j g' (g & Hg & ->)%Hget. case_decide; subst; [|by apply (wn_open _ _ _ _ Hwf j)].
    by apply (wn_open _ _ _ _ Hwf id f).
Qed.

(** ** Steps that move no extent *)
Definition ext_meta (m : cyanfs_super_meta) : Z * Z * Z * Z :=
  (sm_total_extents m, sm_free_extents m, sm_journal_extents m, sm_data_extents m).

Lemma wf_ext_same s s' fl fl' :
  wf_ext s fl → (∀ q c, owns s' fl' q c ↔ owns s fl q c) → nodes s' = nodes s →
  ext_meta (s_meta s') = ext_meta (s_meta s) →
  (∀ id f, files_by_id s' !! id = Some f → fm_extents (f_meta f) = Z.of_nat (size (f_extents f))) →
  wf_ext s' fl'.
Proof.
  intros [Ht [Hc Hr Hu] Hn Hf Hj Hd Hfe] Ho Hns Hm Hfe'. unfold ext_meta in Hm. simplify_eq.
  assert (Htr : ∀ r, tree_get r s' = tree_get r s).
  { intros r. apply leibniz_equiv. intros c. apply (Ho (P_TREE r)). }
  split; try congruence.
  - split.
    + intros b Hb. destruct (Hc b) as [p Hp]; [congruence|]. exists p. by apply Ho.
    + intros p b Hp%Ho. apply Hr in Hp. congruence.
    + intros p p' b ?%Ho ?%Ho. eauto.
  - intros p b Hp%Ho. rewrite Hns. eauto.
  - pose proof (Htr T_FREE). simpl in *. congruence.
  - pose proof (Htr T_JOURNAL). simpl in *. congruence.
  - assert (data_set (files_by_id s') = data_set (files_by_id s)) as ->; [|congruence].
    apply leibniz_equiv. intros b. rewrite (data_set_owns s' fl'), (data_set_owns s fl).
    by setoid_rewrite Ho.
  - done.
Qed.

(** The same when only the files changed, and not their trees. *)
Lemma wf_ext_files s s' fl :
  wf_ext s fl → (∀ r, tree_get r s' = tree_get r s) → nodes s' = nodes s →
  ext_meta (s_meta s') = ext_meta (s_meta s) →
  (∀ id f', files_by_id s' !! id = Some f' →
     (∃ f, files_by_id s !! id = Some f ∧ f_extents f' = f_extents f ∧ fm_extents (f_meta f') = fm_extents (f_meta f)) ∨
     (f_extents f' = ∅ ∧ fm_extents (f_meta f') = 0)) →
  (∀ id f, files_by_id s !! id = Some f →
     (∃ f', files_by_id s' !! id = Some f' ∧ f_extents f' = f_extents f) ∨ f_extents f = ∅) →
  wf_ext s' fl.
Proof.
  intros Hwf Ht Hn Hm Hup Hdn. apply (wf_ext_same s s' fl fl); try done.
  - intros [r|id i|k] c; simpl; [by rewrite Ht| |done]. split.
    + intros (f' & Hf' & Hi). destruct (Hup _ _ Hf') as [(f & Hf & E & _)|[E _]]; rewrite E in Hi; [eauto|done].
    + intros (f & Hf & Hi). destruct (Hdn _ _ Hf) as [(f' & Hf' & E)|E]; [exists f'; by rewrite E|].
      by rewrite E in Hi.
  - intros id f' Hf'. destruct (Hup _ _ Hf') as [(f & Hf & -> & ->)|[-> ->]]; [|done].
    by apply (we_fext _ _ Hwf id).
Qed.
