(* ===== verification/SuperOps.v ===== *)
(** * SuperOps: the operations on extents and files keep the invariant

    For each internal operation of [core/super.c], in a state that satisfies
    [wf]: it does not abort, the new state satisfies [wf], and what it did to
    the files, the trees and the nodes. *)
From Stdlib Require Import ZArith Lia.
From S2P Require Import Prelude Base Journal Spec Types Super SuperInv.

Lemma index_of_file s fl id f i n :
  wf_ext s fl → files_by_id s !! id = Some f → f_extents f !! i = Some n → 0 ≤ i ≤ 1073741823.
Proof.
  intros Hwf Hf Hi. destruct (we_node _ _ Hwf (P_FILE id i) n) as (e & _ & _ & _ & _ & Hr); [simpl; eauto|].
  done.
Qed.

(** ** Truncation *)
Lemma elem_of_truncate_keys f size i :
  size_ok size → (∀ j n, f_extents f !! j = Some n → 0 ≤ j ≤ 1073741823) →
  i ∈ truncate_keys f size ↔ is_Some (f_extents f !! i) ∧ size ≤ CYANFS_EXTENT_SIZE * i.
Proof.
  intros [Hs Hok] Hr. pose proof (size_ok_range _ Hs Hok). change CYANFS_EXTENT_SIZE with 1048576.
  unfold truncate_keys. destruct (Z.eqb_spec size 0) as [->|Hne].
  - rewrite elem_of_set_ordered, elem_of_dom. split; [|tauto]. intros [n Hn]. split; [eauto|].
    specialize (Hr _ _ Hn). lia.
  - rewrite u64_small, extent_from_eq by lia.
    assert (0 ≤ (size - 1) / 1048576 ≤ 1073741823).
    { split; [apply Z.div_pos; lia|]. apply Zlt_succ_le, Z.div_lt_upper_bound; lia. }
    rewrite bf30_small by lia. rewrite !list_elem_of_filter, elem_of_set_ordered, elem_of_dom.
    pose proof (Z.div_mod (size - 1) 1048576 ltac:(lia)).
    pose proof (Z.mod_pos_bound (size - 1) 1048576 ltac:(lia)). split.
    + intros (? & ? & ?). split; [done|]. lia.
    + intros (? & ?). split_and!; try done; lia.
Qed.

Lemma drop_truncate_keys f size :
  size_ok size → (∀ j n, f_extents f !! j = Some n → 0 ≤ j ≤ 1073741823) →
  drop_keys (truncate_keys f size) (f_extents f) = a_keep size (f_extents f).
Proof.
  intros Hs Hr. unfold drop_keys, a_keep. apply map_eq. intros i. apply option_eq. intros n.
  rewrite !map_lookup_filter_Some. simpl.
  split; intros [Hi Hk]; split; try done.
  - apply Z.nle_gt. intros Hle. apply Hk, elem_of_truncate_keys; eauto.
  - intros [_ ?]%elem_of_truncate_keys; [lia|done|done].
Qed.

Lemma NoDup_truncate_keys f size : NoDup (truncate_keys f size).
Proof.
  unfold truncate_keys. pose proof (NoDup_set_ordered (dom (f_extents f))).
  destruct (size =? 0); [done|]. by do 2 apply NoDup_filter.
Qed.

(** What an operation that empties part of a file's tree does to the trees
    and the nodes. *)
Record unmapped (s s' : cyanfs_super) : Prop := {
  um_tree : ∀ r, r ≠ unmap_dest s → tree_get r s' = tree_get r s;
  um_node : ∀ id f i c, files_by_id s' !! id = Some f → f_extents f !! i = Some c →
    nodes s' !! c = nodes s !! c;
  um_pending : ∀ c e, nodes s' !! c = Some e → ext_pending e = true → nodes s !! c = Some e }.

Definition truncated (size : Z) (f : cyanfs_file) : cyanfs_file :=
  upd_fmeta (set_fm_size size) (with_extents (a_keep size (f_extents f)) f).

Lemma file_truncate_ok s fl id size f :
  wf s fl → files_by_id s !! id = Some f → no_pending s id → size_ok size →
  ∃ s', __cyanfs_file_truncate id size s = Some s' ∧ wf s' fl ∧ rest s' = rest s ∧
    files_by_id s' = <[id := truncated size f]> (files_by_id s) ∧ unmapped s s'.
Proof.
  intros [Hwe Hwn Hwi] Hf Hp Hs.
  assert (Hr : ∀ j n, f_extents f !! j = Some n → 0 ≤ j ≤ 1073741823) by eauto using index_of_file.
  destruct (unmap_keys_ok (truncate_keys f size) s fl id f) as (s1 & E1 & Hwe1 & [Hr1 Hst1] & Hf1 & Ht1 & Hn1 & Hp1);
    try done.
  { apply NoDup_truncate_keys. }
  { intros i [Hi _]%elem_of_truncate_keys; done. }
  rewrite drop_truncate_keys in Hf1 by done.
  unfold __cyanfs_file_truncate. rewrite Hf. cbn [mbind option_bind]. rewrite E1. cbn [mbind option_bind].
  rewrite (upd_file_Some id _ (with_extents (a_keep size (f_extents f)) f)) by (by rewrite Hf1, lookup_insert_eq).
  eexists. split; [done|]. set (s2 := set_files_by_id _ _).
  assert (Hf2 : files_by_id s2 = <[id := truncated size f]> (files_by_id s)).
  { unfold s2. simpl. rewrite Hf1, insert_insert_eq. done. }
  assert (Hkeep : ∀ j g i c, files_by_id s2 !! j = Some g → f_extents g !! i = Some c →
     ∃ g0, files_by_id s !! j = Some g0 ∧ f_extents g0 !! i = Some c ∧
       (CYANFS_EXTENT_SIZE * i < fm_size (f_meta g))).
  { intros j g i c Hg Hi. rewrite Hf2 in Hg.
    apply lookup_insert_Some in Hg as [[<- <-]|[Hne Hg]]; [|exists g; eauto].
    exists f. simpl in *. apply map_lookup_filter_Some in Hi as [??]. eauto. }
  split_and!; [|done|done|].
  - split.
    + apply (wf_ext_files s1 s2 fl); try done.
      * intros j g. unfold s2. simpl. intros [[<- <-]|[Hne Hg]]%lookup_insert_Some; [|by left; exists g].
        left. exists (with_extents (a_keep size (f_extents f)) f). by rewrite Hf1, lookup_insert_eq.
      * intros j g Hg. left. unfold s2. simpl. destruct (decide (j = id)) as [->|].
        -- rewrite Hf1, lookup_insert_eq in Hg. injection Hg as <-. eexists. by rewrite lookup_insert_eq.
        -- exists g. by rewrite lookup_insert_ne.
    + unfold wf_ns. rewrite Hf2, fmap_insert.
      assert (strip (truncated size f) = upd_fmeta (set_fm_size size) (strip f)) as -> by done.
      assert (Hl : (strip <$> files_by_id s) !! id = Some (strip f)) by (by rewrite lookup_fmap, Hf).
      destruct (rest_ns s s2 Hr1) as (-> & -> & -> & _).
      eapply wf_files_update; try done. by apply (wn_open _ _ _ _ Hwn id (strip f)).
    + intros j g i c Hg Hi. by destruct (Hkeep j g i c Hg Hi) as (_ & _ & _ & ?).
  - split.
    + intros r Hne. change (tree_get r s2) with (tree_get r s1). by destruct r; apply Ht1.
    + intros j g i c Hg Hi. change (nodes s2) with (nodes s1). apply Hn1. intros k Hk Hkc.
      destruct (Hkeep j g i c Hg Hi) as (g0 & Hg0 & Hi0 & Hlt).
      assert (E : P_FILE id k = P_FILE j i) by (eapply (owns_unique _ _ Hwe); simpl; eauto).
      injection E as -> ->. apply elem_of_truncate_keys in Hk as [_ Hk]; [|done|done].
      rewrite Hf2, lookup_insert_eq in Hg. injection Hg as <-. simpl in *. lia.
    + intros c e. apply Hp1.
Qed.

(** ** Binding and unbinding one extent *)
Lemma moved_tree s s' fl n p r :
  moved (owns s fl) (owns s' fl) n p → p ≠ P_TREE r → tree_get r s' = tree_get r s ∖ {[n]}.
Proof.
  intros Hm Hp. apply leibniz_equiv. intros c. pose proof (Hm (P_TREE r) c) as H. simpl in H.
  rewrite H. set_solver.
Qed.

Lemma wf_idx_insert s s' id f f' :
  wf_idx s → files_by_id s !! id = Some f → files_by_id s' = <[id := f']> (files_by_id s) →
  (∀ i b, f_extents f' !! i = Some b → CYANFS_EXTENT_SIZE * i < fm_size (f_meta f')) → wf_idx s'.
Proof.
  intros Hwi Hf Hf' Hi j g i b. rewrite Hf'.
  intros [[<- <-]|[Hne Hg]]%lookup_insert_Some; [apply Hi|by eapply Hwi].
Qed.

Lemma map_wf s fl id i n f :
  wf s fl → files_by_id s !! id = Some f → f_extents f !! i = None →
  0 ≤ i ≤ CYANFS_EXTENT_INDEX_MAX → CYANFS_EXTENT_SIZE * i < fm_size (f_meta f) → n ∈ free_extents s →
  ∃ e s', __cyanfs_file_map_extent id n i s = Some (ST_OK, s') ∧ wf s' fl ∧ rest s' = rest s ∧
    files_by_id s' = <[id := with_extents (<[i := n]> (f_extents f)) f]> (files_by_id s) ∧
    (∀ r, tree_get r s' = tree_get r s ∖ {[n]}) ∧
    nodes s !! n = Some e ∧ nodes s' = <[n := node_map i e]> (nodes s).
Proof.
  intros [Hwe Hwn Hwi] Hf Hi Hi0 Hlt Hn.
  destruct (map_extent_ok s fl id i n f) as (e & s' & E & Hwe' & Hm & Hfr & Hf' & He & Hn'); try done.
  exists e, s'. split_and!; try done.
  - split; [done|by eapply ext_frame_ns|]. eapply wf_idx_insert; eauto.
    simpl. intros j b [[<- <-]|[Hne Hj]]%lookup_insert_Some; [done|]. by eapply (Hwi id f).
  - apply Hfr.
  - intros r. by eapply moved_tree.
Qed.

Lemma unmap_wf s fl id i n f e :
  wf s fl → files_by_id s !! id = Some f → f_extents f !! i = Some n →
  nodes s !! n = Some e → ext_pending e = false →
  ∃ s', __cyanfs_file_unmap_extent id n s = Some s' ∧ wf s' fl ∧ rest s' = rest s ∧
    files_by_id s' = <[id := with_extents (delete i (f_extents f)) f]> (files_by_id s) ∧ unmapped s s' ∧
    nodes s' = <[n := node_clear e]> (nodes s).
Proof.
  intros [Hwe Hwn Hwi] Hf Hi He Hp.
  assert (Ho : owns s fl (P_FILE id i) n) by (simpl; eauto).
  destruct (unmap_extent_ok s fl id i n f e) as (s' & E & Hwe' & Hm & Hfr & Hf' & Hn'); try done.
  exists s'. split_and!; try done.
  - split; [done|by eapply ext_frame_ns|]. eapply wf_idx_insert; eauto.
    simpl. intros j b [Hne Hj]%lookup_delete_Some. by eapply (Hwi id f).
  - apply Hfr.
  - split.
    + intros r Hr. rewrite (moved_tree _ _ _ _ _ r Hm) by congruence.
      pose proof (not_elsewhere _ _ Hwe (P_FILE id i) r n Ho). set_solver.
    + intros j g k c Hg Hk. rewrite Hn', lookup_insert_ne; [done|]. intros <-.
      assert (owns s' fl (P_FILE j k) n) as [[_ ?]|[? _]]%Hm by (simpl; eauto); done.
    + intros c e'. rewrite Hn'. by intros [[<- <-]|[_ He']]%lookup_insert_Some.
Qed.

Lemma super_find_extent_eq s fl b :
  wf_ext s fl → 0 ≤ b →
  __cyanfs_super_find_extent s b = if decide (b ∈ free_extents s) then Some b else None.
Proof.
  intros Hwf Hb. unfold __cyanfs_super_find_extent. change CYANFS_EXTENT_INDEX_MAX with 1073741823.
  destruct (Z.ltb_spec 1073741823 b).
  - rewrite decide_False; [done|]. intros Hin.
    pose proof (owns_range _ _ Hwf (P_TREE T_FREE) b Hin). pose proof (total_bound _ _ Hwf). lia.
  - by rewrite bf30_small by lia.
Qed.

(** The guard of [__cyanfs_file_bind_extent] and [__cyanfs_file_unbind_extent]
    is the abstract index check. *)
Lemma index_guard i size :
  0 ≤ i ≤ U32_MAX →
  (CYANFS_EXTENT_INDEX_MAX <? i) || (size <=? cyanfs_extent_begin i) = negb (a_index_ok i size).
Proof.
  intros Hi. unfold U32_MAX in Hi. rewrite extent_begin_eq by lia. unfold a_index_ok.
  change CYANFS_EXTENT_SIZE with 1048576.
  rewrite negb_andb, <- Z.ltb_antisym, <- Z.leb_antisym. done.
Qed.

Lemma a_index_ok_spec i size :
  a_index_ok i size = true ↔ i ≤ CYANFS_EXTENT_INDEX_MAX ∧ CYANFS_EXTENT_SIZE * i < size.
Proof. unfold a_index_ok. rewrite andb_true_iff, Z.leb_le, Z.ltb_lt. done. Qed.

(** ** Creating, renaming and deleting files *)

(** The parts of the state no file operation touches. *)
Definition side (s : cyanfs_super) :=
  (flags s, (journal_head s, journal_count s), (writers0 s, writers1 s, writer_current_id s),
   journal_cursor s, (task_head s, active_tasks s, new_task s)).

Lemma rest_side s s' : rest s' = rest s → side s' = side s.
Proof. unfold rest, side. destruct s, s'. simpl. intros. by simplify_eq. Qed.

(** The extents and their bookkeeping are the same. *)
Record same_ext (s s' : cyanfs_super) : Prop := {
  se_tree : ∀ r, tree_get r s' = tree_get r s;
  se_nodes : nodes s' = nodes s;
  se_meta : ext_meta (s_meta s') = ext_meta (s_meta s);
  se_reserved : sm_reserved_extents (s_meta s') = sm_reserved_extents (s_meta s);
  se_side : side s' = side s }.

Definition new_file (name : cyanfs_file_name_t) (id : Z) (parent : option (Z * cyanfs_file)) : cyanfs_file :=
  mk_file (fst <$> parent)
    (mk_fmeta id (match parent with Some (pid, _) => pid | None => 0 end) name
       (match parent with Some (_, p) => fm_size (f_meta p) | None => 0 end) 0 0)
    ∅ CYANFS_FILE_CLOSED 0.

Lemma strip_bump d par j g : strip (bump d par j g) = bump d par j (strip g).
Proof. unfold bump. by case_decide. Qed.

Lemma strip_bump_parent d par (fs : gmap Z cyanfs_file) :
  strip <$> bump_parent d par fs = bump_parent d par (strip <$> fs).
Proof.
  apply map_eq. intros j. rewrite lookup_fmap, !lookup_bump_parent, lookup_fmap.
  destruct (fs !! j); [|done]. simpl. by rewrite strip_bump.
Qed.

Lemma size_ok_0 : size_ok 0.
Proof. by split. Qed.

Lemma init_file_ok s fl name id parent :
  wf s fl → name_normal name → 0 < id ≤ U64_MAX → files_by_id s !! id = None →
  files_by_name s !! name = None → sm_files (s_meta s) < CYANFS_SUPER_MAX_FILES →
  (∀ p g, parent = Some (p, g) → p < id ∧ files_by_id s !! p = Some g ∧ f_open_type g ≠ CYANFS_FILE_READWRITE) →
  ∃ s', __cyanfs_init_file name id parent s = (ST_OK, s') ∧ wf s' fl ∧ same_ext s s' ∧
    files_by_id s' = bump_parent 1 (fst <$> parent) (<[id := new_file name id parent]> (files_by_id s)) ∧
    files_by_name s' = <[name := id]> (files_by_name s) ∧ max_file_id s' = Z.max (max_file_id s) id.
Proof.
  intros [Hwe Hwn Hwi] Hnn Hid Hfr Hbn Hlim Hpar. pose proof (wn_count _ _ _ _ Hwn) as Hcnt.
  rewrite map_size_fmap in Hcnt. change CYANFS_SUPER_MAX_FILES with 4096 in Hlim.
  unfold __cyanfs_init_file. rewrite Hfr, Hbn. eexists. split; [done|]. fold (new_file name id parent).
  set (f := new_file name id parent). set (s' := upd_meta _ _).
  assert (Hf' : files_by_id s' = bump_parent 1 (fst <$> parent) (<[id := f]> (files_by_id s))).
  { unfold s', bump_parent. destruct parent as [[p g]|]; simpl; by case_bool. }
  assert (Hbn' : files_by_name s' = <[name := id]> (files_by_name s)).
  { unfold s'. destruct parent as [[p g]|]; simpl; by case_bool. }
  assert (Hmx' : max_file_id s' = Z.max (max_file_id s) id).
  { unfold s'. destruct parent as [[p g]|]; simpl; case_bool; simpl; lia. }
  assert (Hsm : sm_files (s_meta s') = sm_files (s_meta s) + 1).
  { unfold s'. destruct parent as [[p g]|]; simpl; case_bool; simpl; unwrap; lia. }
  assert (Hse : same_ext s s').
  { unfold s'. destruct parent as [[p g]|]; simpl; case_bool; split; try done; by intros []. }
  split_and!; try done. split.
  - apply (wf_ext_files s s' fl); try apply Hse; try done.
    + rewrite Hf'. intros j g' (g & Hg & ->)%bump_parent_Some.
      pose proof (bump_fields 1 (fst <$> parent) j g) as (_ & _ & _ & _ & _ & _ & -> & ->).
      apply lookup_insert_Some in Hg as [[<- <-]|[Hne Hg]]; [by right|left; eauto].
    + intros j g Hg. left. rewrite Hf'. exists (bump 1 (fst <$> parent) j g).
      split; [apply bump_parent_Some; exists g; rewrite lookup_insert_ne; [done|congruence]|].
      apply bump_fields.
  - unfold wf_ns. rewrite Hf', Hbn', Hmx', Hsm, strip_bump_parent, fmap_insert.
    apply (wf_files_add _ _ _ _ id (strip f) Hwn); [|done].
    split; try done.
    + by rewrite lookup_fmap, Hfr.
    + rewrite map_size_fmap. change CYANFS_SUPER_MAX_FILES with 4096. lia.
    + destruct parent as [[p g]|]; simpl; [|done]. intros ? [= <-].
      destruct (Hpar p g eq_refl) as (? & Hg & ?). split_and!; try done.
      exists (strip g). by rewrite lookup_fmap, Hg.
    + destruct parent as [[p g]|]; simpl; [|apply size_ok_0].
      destruct (Hpar p g eq_refl) as (_ & Hg & _).
      apply (wn_size _ _ _ _ Hwn p (strip g)). by rewrite lookup_fmap, Hg.
  - intros j g' i b. rewrite Hf'. intros (g & Hg & ->)%bump_parent_Some.
    pose proof (bump_fields 1 (fst <$> parent) j g) as (_ & _ & _ & _ & -> & _ & -> & _).
    apply lookup_insert_Some in Hg as [[<- <-]|[Hne Hg]]; [done|by eapply Hwi].
Qed.

Lemma by_name_lookup s id f :
  wf_ns s → files_by_id s !! id = Some f → files_by_name s !! fm_name (f_meta f) = Some id.
Proof.
  intros Hwn Hf. apply (wn_name _ _ _ _ Hwn). exists (strip f). by rewrite lookup_fmap, Hf.
Qed.

Lemma rename_file_ok s fl id f name :
  wf s fl → files_by_id s !! id = Some f → name_normal name →
  (∀ j, files_by_name s !! name = Some j → j = id) →
  ∃ s', __cyanfs_rename_file id name s = Some s' ∧ wf s' fl ∧ same_ext s s' ∧
    files_by_id s' = <[id := upd_fmeta (set_fm_name name) f]> (files_by_id s) ∧
    max_file_id s' = max_file_id s.
Proof.
  intros [Hwe Hwn Hwi] Hf Hnn Hfree. unfold __cyanfs_rename_file. rewrite Hf. cbn [mbind option_bind].
  rewrite bool_decide_false by (rewrite (by_name_lookup s id f) by done; congruence).
  cbn [bug_on mbind option_bind]. rewrite (upd_file_Some id _ f) by done. eexists. split; [done|].
  set (f' := upd_fmeta (set_fm_name name) f). set (s' := set_files_by_name _ _).
  assert (Hf' : files_by_id s' = <[id := f']> (files_by_id s)) by done.
  assert (Hbn' : files_by_name s' = <[name := id]> (delete (fm_name (f_meta f)) (files_by_name s))).
  { unfold s'. cbn [set_files_by_name files_by_name]. destruct (delete _ _ !! name) as [j|] eqn:E; [|done].
    apply lookup_delete_Some in E as [Hne Hj]. pose proof (Hfree j Hj) as ->. exfalso. apply Hne.
    apply (wn_name _ _ _ _ Hwn) in Hj as (g & Hg & <-). rewrite lookup_fmap, Hf in Hg. by injection Hg as <-. }
  assert (Hse : same_ext s s') by (split; try done; by intros []).
  split_and!; try done. split.
  - apply (wf_ext_files s s' fl); try apply Hse; try done.
    + rewrite Hf'. intros j g [[<- <-]|[Hne Hg]]%lookup_insert_Some; left; [by exists f|by exists g].
    + intros j g Hg. left. rewrite Hf'. destruct (decide (j = id)) as [->|].
      * exists f'. rewrite lookup_insert_eq. by simplify_eq.
      * exists g. by rewrite lookup_insert_ne.
  - unfold wf_ns. rewrite Hf', Hbn', fmap_insert.
    apply (wf_files_rename _ _ _ _ id (strip f) name Hwn); [|done|done]. by rewrite lookup_fmap, Hf.
  - eapply wf_idx_insert; eauto. intros i b Hi. by eapply (Hwi id f).
Qed.

Lemma keep_0 s fl id f :
  wf_ext s fl → files_by_id s !! id = Some f → a_keep 0 (f_extents f) = ∅.
Proof.
  intros Hwf Hf. apply map_empty. intros i. apply eq_None_not_Some.
  intros [n [Hi Hlt]%map_lookup_filter_Some].
  pose proof (index_of_file _ _ _ _ _ _ Hwf Hf Hi). simpl in Hlt. change CYANFS_EXTENT_SIZE with 1048576 in Hlt. lia.
Qed.

(** The parent of a file that is taken out is another file. *)
Lemma parent_left s fl id f p : wf s fl → files_by_id s !! id = Some f → f_parent f = Some p → is_Some (delete id (files_by_id s) !! p).
Proof.
  intros Hwf Hf Hp. assert (Hlf : (strip <$> files_by_id s) !! id = Some (strip f)) by (by rewrite lookup_fmap, Hf).
  destruct (wn_parent _ _ _ _ (wf_has_ns _ _ Hwf) id (strip f) p Hlf Hp) as (Hlt & [g Hg] & _).
  rewrite lookup_fmap in Hg. apply fmap_Some in Hg as (g0 & Hg0 & _). exists g0. by rewrite lookup_delete_ne by lia.
Qed.

(** The extents of a file table from which an empty file was taken out. *)
Lemma files_left par id f1 (fs fs1 fs3 : gmap Z cyanfs_file) :
  fs1 = <[id := f1]> fs → fs3 = bump_parent (-1) par (delete id fs) → f_extents f1 = ∅ →
  (∀ j g', fs3 !! j = Some g' → ∃ g, fs1 !! j = Some g ∧ j ≠ id ∧ g' = bump (-1) par j g) ∧
  (∀ j g, fs1 !! j = Some g → f_extents g = ∅ ∨ fs3 !! j = Some (bump (-1) par j g)).
Proof.
  intros -> -> He. split.
  - intros j g' (g & [Hne Hg]%lookup_delete_Some & ->)%bump_parent_Some. exists g. by rewrite lookup_insert_ne.
  - intros j g [[<- <-]|[Hne Hg]]%lookup_insert_Some; [by left|]. right. apply bump_parent_Some. exists g. by rewrite lookup_delete_ne.
Qed.

Lemma delete_file_ok s fl id f :
  wf s fl → files_by_id s !! id = Some f → no_pending s id → fm_children (f_meta f) = 0 →
  ∃ s', __cyanfs_delete_file id s = Some s' ∧ wf s' fl ∧ side s' = side s ∧
    files_by_id s' = bump_parent (-1) (f_parent f) (delete id (files_by_id s)) ∧
    max_file_id s' = max_file_id s ∧ unmapped s s' ∧
    sm_total_extents (s_meta s') = sm_total_extents (s_meta s).
Proof.
  intros Hwf Hf Hp Hch.
  destruct (file_truncate_ok s fl id 0 f) as (s1 & E1 & [Hwe1 Hwn1 Hwi1] & Hr1 & Hf1 & [Hu1 Hu2 Hu3]);
    try done.
  unfold __cyanfs_delete_file. rewrite E1. cbn [mbind option_bind]. rewrite Hf1, lookup_insert_eq.
  cbn [mbind option_bind]. set (f1 := truncated 0 f) in *.
  assert (Hl : files_by_id s1 !! id = Some f1) by (by rewrite Hf1, lookup_insert_eq).
  pose proof (by_name_lookup s1 id f1 Hwn1 Hl) as Hbn.
  cbn [files_by_name set_files_by_id]. rewrite bool_decide_false by congruence. cbn [bug_on mbind option_bind].
  set (s2 := upd_meta _ _).
  assert (Hf2 : files_by_id s2 = delete id (files_by_id s)) by (unfold s2; simpl; by rewrite delete_insert_eq).
  set (s3 := set_files_by_id (bump_parent (-1) (f_parent f) (files_by_id s2)) s2).
  assert (E3 : match f_parent f1 with
    | Some pid => bug_on (bool_decide (files_by_id s2 !! pid = None));;
        Some (upd_file pid (upd_fmeta (λ m, set_fm_children (u32 (fm_children m - 1)) m)) s2)
    | None => Some s2 end = Some s3).
  { change (f_parent f1) with (f_parent f). unfold s3. destruct (f_parent f) as [p|] eqn:Ep; [|by destruct s2].
    destruct (parent_left s fl id f p Hwf Hf Ep) as [g Hg]. rewrite <- Hf2 in Hg. by rewrite bool_decide_false by (by rewrite Hg). }
  rewrite E3. eexists. split; [done|].
  assert (Hf3 : files_by_id s3 = bump_parent (-1) (f_parent f) (delete id (files_by_id s))).
  { unfold s3. cbn [files_by_id set_files_by_id]. by rewrite Hf2. }
  destruct (rest_ns s s1 Hr1) as (_ & Hmx & Hsf & _ & Htot).
  destruct (files_left (f_parent f) id f1 _ _ _ Hf1 Hf3) as [Hleft Hleft']; [by apply (keep_0 s fl id f (wf_has_ext _ _ Hwf))|].
  split_and!; try done; [|by apply (rest_side s s1)|].
  - split.
    + apply (wf_ext_files s1 s3 fl); try done.
      * intros j g' (g & Hg & _ & ->)%Hleft. left. exists g. split; [done|]. apply bump_fields.
      * intros j g [He|Hg]%Hleft'; [by right|]. left. eexists. split; [exact Hg|apply bump_fields].
    + unfold wf_ns. rewrite Hf3, strip_bump_parent, fmap_delete.
      assert (sm_files (s_meta s3) = sm_files (s_meta s1) - 1) as ->.
      { unfold s3, s2. simpl. rewrite u32_small; [done|].
        pose proof (wn_count _ _ _ _ Hwn1). pose proof (wn_limit _ _ _ _ Hwn1). rewrite map_size_fmap in *.
        assert (size (files_by_id s1) ≠ 0%nat) by (apply map_size_ne_0_lookup; eauto).
        change CYANFS_SUPER_MAX_FILES with 4096 in *. lia. }
      assert (delete id (strip <$> files_by_id s) = delete id (strip <$> files_by_id s1)) as ->.
      { by rewrite Hf1, fmap_insert, delete_insert_eq. }
      apply (wf_files_remove _ _ _ _ id (strip f1) Hwn1); [by rewrite lookup_fmap, Hl|done].
    + intros j g' i b. rewrite Hf3. intros (g & [Hne Hg]%lookup_delete_Some & ->)%bump_parent_Some.
      pose proof (bump_fields (-1) (f_parent f) j g) as (_ & _ & _ & _ & -> & _ & -> & _).
      by eapply (wf_has_idx _ _ Hwf).
  - split.
    + intros r Hr. change (tree_get r s3) with (tree_get r s1). by destruct r; apply Hu1.
    + intros j g' i c (g & Hg & _ & ->)%Hleft Hi.
      pose proof (bump_fields (-1) (f_parent f) j g) as (_ & _ & _ & _ & _ & _ & E & _). rewrite E in Hi. by apply (Hu2 j g i c).
    + intros c e. apply Hu3.
Qed.

(** ** Looking an extent up through the ancestors

    The extent a file shows at index [i]: its own, or that of the nearest
    ancestor that has one, as long as every file on the way reaches [i]. *)
Inductive visible (s : cyanfs_super) : Z → Z → option Z → Prop :=
  | vis_own id f i n :
      files_by_id s !! id = Some f → CYANFS_EXTENT_SIZE * i < fm_size (f_meta f) →
      f_extents f !! i = Some n → visible s id i (Some n)
  | vis_inherited id f p i r :
      files_by_id s !! id = Some f → CYANFS_EXTENT_SIZE * i < fm_size (f_meta f) →
      f_extents f !! i = None → f_parent f = Some p → visible s p i r → visible s id i r
  | vis_hole id f i :
      files_by_id s !! id = Some f → CYANFS_EXTENT_SIZE * i < fm_size (f_meta f) →
      f_extents f !! i = None → f_parent f = None → visible s id i None
  | vis_beyond id f i :
      files_by_id s !! id = Some f → fm_size (f_meta f) ≤ CYANFS_EXTENT_SIZE * i → visible s id i None.

Lemma visible_fun s id i r r' : visible s id i r → visible s id i r' → r = r'.
Proof.
  intros H. revert r'. induction H; intros r' H'; inversion H'; simplify_eq; try done; try lia. eauto.
Qed.

(** The files with ids up to [id]: a bound on the length of its ancestry. *)
Definition below (s : cyanfs_super) (id : Z) : gset Z := filter (λ j, j ≤ id) (dom (files_by_id s)).

Lemma below_parent s id f p :
  wf_ns s → files_by_id s !! id = Some f → f_parent f = Some p →
  is_Some (files_by_id s !! p) ∧ (size (below s p) < size (below s id))%nat.
Proof.
  intros Hwn Hf Hp. assert (Hl : (strip <$> files_by_id s) !! id = Some (strip f)) by (by rewrite lookup_fmap, Hf).
  destruct (wn_parent _ _ _ _ Hwn id (strip f) p Hl Hp) as (Hlt & Hg & _). split.
  - rewrite lookup_fmap in Hg. by apply fmap_is_Some in Hg.
  - apply subset_size. split.
    + intros j. unfold below. rewrite !elem_of_filter. intros [??]. split; [lia|done].
    + intros Hsub. assert (id ∈ below s p) as Hin.
      { apply Hsub. apply elem_of_filter. split; [lia|]. apply elem_of_dom. eauto. }
      apply elem_of_filter in Hin. lia.
Qed.

Lemma extent_index f_off : 0 ≤ f_off < 1125899906842624 → 0 ≤ f_off / 1048576 < 1073741824.
Proof. intros. split; [apply Z.div_pos; lia|]. apply Z.div_lt_upper_bound; lia. Qed.

Lemma follow_loop_visible fuel s id f_off :
  wf_ns s → is_Some (files_by_id s !! id) → 0 ≤ f_off < 1125899906842624 →
  (size (below s id) ≤ fuel)%nat →
  ∃ r, follow_loop (S fuel) s (Some id) f_off = Some r ∧ visible s id (f_off / 1048576) r.
Proof.
  intros Hwn Hid Hoff. revert id Hid. induction fuel as [|fuel IH]; intros id [f Hf] Hfuel.
  - assert (id ∈ below s id) as Hin by (apply elem_of_filter; split; [lia|]; apply elem_of_dom; eauto).
    apply non_empty_inhabited, size_non_empty_iff in Hin. lia.
  - pose proof (extent_index _ Hoff).
    cbn [follow_loop] in *. rewrite Hf in *. cbn [mbind option_bind] in *.
    unfold __cyanfs_file_find_extent in *. rewrite extent_from_eq, extent_begin_eq, bf30_small in * by lia.
    destruct (Z.ltb_spec (1048576 * (f_off / 1048576)) (fm_size (f_meta f))) as [Hlt|Hge].
    + destruct (f_extents f !! (f_off / 1048576)) as [n|] eqn:En.
      * exists (Some n). split; [done|]. by eapply vis_own.
      * destruct (f_parent f) as [p|] eqn:Ep.
        -- destruct (below_parent s id f p) as [Hp Hs]; try done.
           destruct (IH p Hp) as (r & Er & Hr); [lia|]. exists r. split; [exact Er|]. by eapply vis_inherited.
        -- exists None. split; [done|]. by eapply vis_hole.
    + exists None. split; [done|]. by eapply vis_beyond.
Qed.

(** [__cyanfs_file_find_extent_follow] terminates and finds the visible
    extent. *)
Lemma find_extent_follow_visible s id f_off :
  wf_ns s → is_Some (files_by_id s !! id) → 0 ≤ f_off < 1125899906842624 →
  ∃ r, __cyanfs_file_find_extent_follow s (Some id) f_off = Some r ∧ visible s id (f_off / 1048576) r.
Proof.
  intros Hwn Hid Hoff. apply follow_loop_visible; try done.
  rewrite <- (size_dom (D := gset Z) (files_by_id s)). apply subseteq_size.
  intros j Hj. unfold below in Hj. by apply elem_of_filter in Hj as [_ Hj].
Qed.

(** ** Allocation *)
Lemma find_nearly_in s from n : __cyanfs_super_find_nearly_extent s from = Some n → n ∈ free_extents s.
Proof.
  unfold __cyanfs_super_find_nearly_extent. intros H.
  destruct (if from <=? CYANFS_EXTENT_INDEX_MAX then _ else _) as [m|] eqn:E.
  - injection H as <-. destruct (from <=? CYANFS_EXTENT_INDEX_MAX); [|done]. by apply set_nfind_Some in E as [? _].
  - by apply set_min_Some in H as [? _].
Qed.

Lemma find_nearly_None s from : __cyanfs_super_find_nearly_extent s from = None ↔ free_extents s = ∅.
Proof.
  unfold __cyanfs_super_find_nearly_extent. split.
  - intros H. destruct (if from <=? CYANFS_EXTENT_INDEX_MAX then _ else _); [done|]. by apply set_min_None.
  - intros He. rewrite He. destruct (if from <=? _ then _ else _) as [m|] eqn:E; [|by apply set_min_None].
    destruct (from <=? CYANFS_EXTENT_INDEX_MAX); [|done]. apply set_nfind_Some in E. set_solver.
Qed.

(** Allocation fails only when the free extents are down to the reserve, and
    otherwise gives the file a free extent at the index of [f_off]. *)
Lemma alloc_extent_ok s fl id f f_off :
  wf s fl → files_by_id s !! id = Some f → 0 ≤ f_off < fm_size (f_meta f) →
  0 ≤ sm_reserved_extents (s_meta s) → f_extents f !! (f_off / 1048576) = None →
  if sm_free_extents (s_meta s) <=? sm_reserved_extents (s_meta s)
  then __cyanfs_file_alloc_extent id f_off s = Some (None, s)
  else ∃ n e s', __cyanfs_file_alloc_extent id f_off s = Some (Some n, s') ∧ wf s' fl ∧ rest s' = rest s ∧
    n ∈ free_extents s ∧
    files_by_id s' = <[id := with_extents (<[f_off / 1048576 := n]> (f_extents f)) f]> (files_by_id s) ∧
    (∀ r, tree_get r s' = tree_get r s ∖ {[n]}) ∧
    nodes s !! n = Some e ∧ nodes s' = <[n := node_map (f_off / 1048576) e]> (nodes s).
Proof.
  intros Hwf Hf Hoff Hres Hi. unfold __cyanfs_file_alloc_extent.
  destruct (Z.leb_spec (sm_free_extents (s_meta s)) (sm_reserved_extents (s_meta s))) as [Hle|Hgt]; [done|].
  rewrite Hf. cbn [mbind option_bind].
  destruct (__cyanfs_super_find_nearly_extent s _) as [n|] eqn:En.
  2:{ apply find_nearly_None in En. pose proof (we_free _ _ (wf_has_ext _ _ Hwf)) as Hc.
      rewrite En, size_empty in Hc. lia. }
  apply find_nearly_in in En.
  assert (Hs : size_ok (fm_size (f_meta f))).
  { apply (wn_size _ _ _ _ (wf_has_ns _ _ Hwf) id (strip f)). by rewrite lookup_fmap, Hf. }
  destruct Hs as [Hs1 Hs2]. pose proof (size_ok_range _ Hs1 Hs2).
  pose proof (extent_index f_off ltac:(lia)) as Hix. rewrite extent_from_eq by lia.
  destruct (map_wf s fl id (f_off / 1048576) n f) as (e & s' & E & Hrest); try done.
  - change CYANFS_EXTENT_INDEX_MAX with 1073741823. lia.
  - change CYANFS_EXTENT_SIZE with 1048576. pose proof (Z.mul_div_le f_off 1048576 ltac:(lia)). lia.
  - rewrite E. cbn [mbind option_bind failed]. exists n, e, s'. destruct Hrest as (? & ? & ? & ? & ? & ?). by split_and!.
Qed.

(** ** The initial state *)
Definition device_size_ok (size : Z) : Prop :=
  CYANFS_SUPER_BLOCK_SIZE + CYANFS_EXTENT_SIZE ≤ size ∧
  size - CYANFS_SUPER_BLOCK_SIZE ≤ CYANFS_FILE_MAX_SIZE.

Lemma device_total size :
  device_size_ok size →
  cyanfs_extent_from (u64 (size - CYANFS_SUPER_BLOCK_SIZE)) = (size - 8192) / 1048576 ∧
  1 ≤ (size - 8192) / 1048576 ≤ 1073741824.
Proof.
  intros [H1 H2]. change CYANFS_SUPER_BLOCK_SIZE with 8192 in *. change CYANFS_EXTENT_SIZE with 1048576 in *.
  change CYANFS_FILE_MAX_SIZE with 1125899906842624 in *. split.
  - rewrite u64_small by lia. by rewrite extent_from_eq by lia.
  - split; [apply Z.div_le_lower_bound; lia|]. apply Z.div_le_upper_bound; lia.
Qed.

Lemma blank_super_nodes total reserved size fl b :
  0 ≤ b < total → nodes (blank_super total reserved size fl) !! b = Some (extent_init b).
Proof.
  intros Hb. unfold blank_super. cbn [nodes]. apply elem_of_list_to_map_1.
  - rewrite <- list_fmap_compose. change (fst ∘ _) with (@id Z). rewrite list_fmap_id. apply NoDup_seqZ.
  - apply list_elem_of_fmap. exists b. split; [done|]. apply elem_of_seqZ. lia.
Qed.

Lemma blank_super_wf total reserved size fl :
  1 ≤ total ≤ CYANFS_EXTENT_COUNT_MAX → wf (blank_super total reserved size fl) ∅.
Proof.
  intros Hr. set (s := blank_super total reserved size fl). pose proof Hr as Hr'.
  change CYANFS_EXTENT_COUNT_MAX with 1073741824 in Hr'.
  assert (Hown : ∀ p b, owns s ∅ p b ↔ p = P_TREE T_FREE ∧ 0 ≤ b < total).
  { intros p b. destruct p as [[]|id i|k]; unfold owns, s, blank_super;
      cbn [tree_get free_extents discard_extents wait_discard_extents flush_extents unused_extents
           journal_extents files_by_id s_meta sm_total_extents]; set_solver. }
  split.
  - split; try done.
    + split; [|intros p b Hp; by apply Hown in Hp as [_ ?]|].
      * intros b Hb. exists (P_TREE T_FREE). by apply Hown.
      * intros p p' b [-> _]%Hown [-> _]%Hown. done.
    + intros p b [-> Hb]%Hown. exists (extent_init b). split; [by apply blank_super_nodes|].
      unfold node_ok, extent_init. rewrite bf30_small by lia. done.
    + change (total = Z.of_nat (base.size (all_extents total))). by rewrite size_all_extents by lia.
  - unfold wf_ns. change (files_by_id s) with (∅ : gmap Z cyanfs_file). rewrite fmap_empty.
    split; try done. by intros name id; rewrite lookup_empty; naive_solver.
  - intros id f i b. simpl. by rewrite lookup_empty.
Qed.

(** ** States that differ in their bookkeeping only *)
Record same_core (s s' : cyanfs_super) : Prop := {
  sc_files : files_by_id s' = files_by_id s;
  sc_names : files_by_name s' = files_by_name s;
  sc_meta : s_meta s' = s_meta s;
  sc_nodes : nodes s' = nodes s;
  sc_trees : ∀ r, tree_get r s' = tree_get r s;
  sc_max : max_file_id s' = max_file_id s }.

Lemma same_core_wf s s' fl : same_core s s' → wf s fl → wf s' fl.
Proof.
  intros [Hf Hn Hm Hnd Ht Hx] [Hwe Hwn Hwi]. split.
  - apply (wf_ext_files s s' fl Hwe); [done|done|by rewrite Hm|..]; intros id f; rewrite Hf; intros Hg; left; by exists f.
  - unfold wf_ns. by rewrite Hf, Hn, Hm, Hx.
  - unfold wf_idx. by rewrite Hf.
Qed.

Lemma append_core j s : same_core s (__cyanfs_super_journal_append j s).
Proof. done. Qed.
Lemma task_tail_core t s : same_core s (cyanfs_super_task_add_tail t s).
Proof. done. Qed.
Lemma add_flag_core x s : same_core s (add_flag x s).
Proof. done. Qed.
#[export] Instance same_core_trans : Transitive same_core.
Proof.
  intros s1 s2 s3 [? ? ? ? ? ?] [? ? ? ? Ht ?]. split; congruence.
Qed.

#[export] Instance same_core_refl : Reflexive same_core.
Proof. done. Qed.

Lemma has_flag_add s f g : has_flag (add_flag f s) g = has_flag s g || negb (Z.land f g =? 0).
Proof.
  unfold has_flag, add_flag. cbn [flags set_flags]. rewrite Z.land_lor_distr_l.
  destruct (Z.eqb_spec (Z.land (flags s) g) 0) as [->|Hne].
  - by rewrite Z.lor_0_l.
  - destruct (Z.eqb_spec (Z.lor (Z.land (flags s) g) (Z.land f g)) 0) as [E|]; [|done].
    apply Z.lor_eq_0_iff in E as [? _]. done.
Qed.

