(* ===== verification/Replay.v ===== *)
(** * Replay: the replay of a journal implements its meaning

    While a journal is being replayed (the super block is not ready yet) no
    extent is pending, no file is open and a freed extent is free at once.
    In such a state [__cyanfs_super_journal_replay] computes [spec_apply] on
    the abstract state, and an entry the abstract state does not admit is
    refused without any effect. *)
From Stdlib Require Import ZArith Lia.
From S2P Require Import Prelude Base Journal Spec Types Super SuperInv SuperOps.

(** ** The abstraction *)
Definition afile_of (f : cyanfs_file) : afile :=
  mk_afile (fm_name (f_meta f)) (f_parent f) (fm_size (f_meta f)) (f_extents f).

Definition abs (s : cyanfs_super) : astate :=
  mk_astate (sm_total_extents (s_meta s)) (afile_of <$> files_by_id s) (max_file_id s) (journal_extents s).

Record replaying (s : cyanfs_super) : Prop := {
  rp_wf : wf s ∅;
  rp_ready : has_flag s CYANFS_SUPER_FLAG_READY = false;
  rp_trees : ∀ r, r ≠ T_FREE → r ≠ T_JOURNAL → tree_get r s = ∅;
  rp_pending : ∀ c e, nodes s !! c = Some e → ext_pending e = false;
  rp_closed : ∀ id f, files_by_id s !! id = Some f → f_open_type f = CYANFS_FILE_CLOSED }.

Lemma abs_file s id : a_files (abs s) !! id = afile_of <$> files_by_id s !! id.
Proof. apply lookup_fmap. Qed.

Lemma abs_used s b : b ∈ a_used (abs s) ↔ ∃ id i, owns s ∅ (P_FILE id i) b.
Proof.
  rewrite elem_of_a_used. split.
  - intros (id & f & i & Hf & Hi). rewrite abs_file in Hf. apply fmap_Some in Hf as (g & Hg & ->).
    exists id, i. simpl. eauto.
  - intros (id & i & f & Hf & Hi). exists id, (afile_of f), i. rewrite abs_file, Hf. done.
Qed.

(** The extents the abstract state calls free are those of the free tree. *)
Lemma abs_free s b : replaying s → a_free (abs s) b = bool_decide (b ∈ free_extents s).
Proof.
  intros [Hwf _ Htr _ _]. pose proof (wf_has_ext _ _ Hwf) as Hwe. apply bool_decide_ext.
  rewrite abs_used. cbn [abs a_total a_journal]. split.
  - intros (Hr & Hj & Hd). destruct (pt_cover _ _ (we_part _ _ Hwe) b Hr) as [[r|id i|k] Hp].
    + destruct (decide (r = T_FREE)) as [->|]; [done|]. destruct (decide (r = T_JOURNAL)) as [->|]; [done|].
      simpl in Hp. rewrite Htr in Hp by done. set_solver.
    + naive_solver.
    + destruct Hp as (X & HX & _). done.
  - intros Hb. split; [|split].
    + by apply (owns_range _ _ Hwe (P_TREE T_FREE)).
    + by apply (not_elsewhere _ _ Hwe (P_TREE T_FREE) T_JOURNAL).
    + intros (id & i & Hp). by pose proof (owns_unique _ _ Hwe (P_TREE T_FREE) (P_FILE id i) b Hb Hp).
Qed.

Lemma abs_name_taken s name :
  wf_ns s → a_name_taken (abs s) name = bool_decide (is_Some (files_by_name s !! name)).
Proof.
  intros Hwn. apply bool_decide_ext. rewrite elem_of_a_names. split.
  - intros (id & f & Hf & <-). rewrite abs_file in Hf. apply fmap_Some in Hf as (g & Hg & ->).
    exists id. by apply by_name_lookup.
  - intros [id Hid]. apply (wn_name _ _ _ _ Hwn) in Hid as (g & Hg & <-).
    rewrite lookup_fmap in Hg. apply fmap_Some in Hg as (f & Hf & ->).
    exists id, (afile_of f). rewrite abs_file, Hf. done.
Qed.

Lemma abs_has_child s id f :
  wf_ns s → files_by_id s !! id = Some f → a_has_child (abs s) id = negb (fm_children (f_meta f) =? 0).
Proof.
  intros Hwn Hf. assert (Hl : (strip <$> files_by_id s) !! id = Some (strip f)) by (by rewrite lookup_fmap, Hf).
  pose proof (wf_files_no_children _ _ _ _ Hwn id (strip f) Hl) as Hc.
  change (fm_children (f_meta (strip f))) with (fm_children (f_meta f)) in Hc.
  unfold a_has_child. destruct (Z.eqb_spec (fm_children (f_meta f)) 0) as [H0|H0]; cbn [negb].
  - apply bool_decide_eq_false. rewrite elem_of_a_parents. intros (j & g & Hg & Hp).
    rewrite abs_file in Hg. apply fmap_Some in Hg as (h & Hh & ->).
    apply (proj1 Hc H0 j (strip h)); [|done]. by rewrite lookup_fmap, Hh.
  - apply bool_decide_eq_true. apply dec_stable. intros Hn. apply H0, Hc. intros j g Hg Hp. apply Hn.
    rewrite lookup_fmap in Hg. apply fmap_Some in Hg as (h & Hh & ->).
    apply elem_of_a_parents. exists j, (afile_of h). rewrite abs_file, Hh. done.
Qed.

Lemma abs_can_create s name id :
  wf_ns s →
  a_can_create name id (abs s) =
  negb ((id =? 0) || bool_decide (is_Some (files_by_id s !! id)) ||
        bool_decide (is_Some (files_by_name s !! name)) || (CYANFS_SUPER_MAX_FILES <=? sm_files (s_meta s))).
Proof.
  intros Hwn. unfold a_can_create. rewrite abs_name_taken by done.
  assert (bool_decide (a_files (abs s) !! id = None) = negb (bool_decide (is_Some (files_by_id s !! id)))) as ->.
  { rewrite abs_file. by destruct (files_by_id s !! id). }
  rewrite (wn_count _ _ _ _ Hwn). cbn [abs a_files]. rewrite !map_size_fmap.
  by rewrite !negb_orb, <- Z.ltb_antisym.
Qed.

(** ** One entry *)

(** The outcome of a replay [r] from [s], against the abstract outcome [a]. *)
Definition refines (r : option (cyanfs_status * cyanfs_super)) (s : cyanfs_super) (a : option astate) : Prop :=
  match a with
  | Some a' => ∃ s', r = Some (ST_OK, s') ∧ abs s' = a' ∧ replaying s'
  | None => ∃ err, r = Some (ST_ERR err, s)
  end.

Lemma afile_of_bump d par (fs : gmap Z cyanfs_file) :
  afile_of <$> bump_parent d par fs = afile_of <$> fs.
Proof.
  apply map_eq. intros j. rewrite !lookup_fmap, lookup_bump_parent. destruct (fs !! j) as [g|]; [|done].
  simpl. unfold afile_of. pose proof (bump_fields d par j g) as (-> & _ & _ & -> & -> & _ & -> & _). done.
Qed.

Lemma side_flag s s' f : side s' = side s → has_flag s' f = has_flag s f.
Proof. unfold side, has_flag. destruct s, s'. simpl. intros. by simplify_eq. Qed.

Lemma replaying_same_ext s s' :
  replaying s → same_ext s s' → wf s' ∅ →
  (∀ id f, files_by_id s' !! id = Some f → f_open_type f = CYANFS_FILE_CLOSED) → replaying s'.
Proof.
  intros [Hwf Hrd Htr Hpe Hcl] [Ht Hn Hm _ Hsd] Hwf' Hcl'. split; try done.
  - by rewrite (side_flag s s').
  - intros r. rewrite Ht. apply Htr.
  - rewrite Hn. apply Hpe.
Qed.

Lemma total_ext_meta s s' : ext_meta (s_meta s') = ext_meta (s_meta s) →
  sm_total_extents (s_meta s') = sm_total_extents (s_meta s).
Proof. unfold ext_meta. intros. by simplify_eq. Qed.

Lemma init_file_refines s name id parent :
  replaying s → name_normal name → 0 < id ≤ U64_MAX → a_can_create name id (abs s) = true →
  (∀ p g, parent = Some (p, g) → p < id ∧ files_by_id s !! p = Some g) →
  refines (Some (__cyanfs_init_file name id parent s)) s
    (Some (a_add name id (fst <$> parent) (match parent with Some (_, p) => fm_size (f_meta p) | None => 0 end) (abs s))).
Proof.
  intros Hrp Hnn Hid Hcan Hpar. pose proof (rp_wf _ Hrp) as Hwf.
  rewrite abs_can_create in Hcan by apply Hwf. apply negb_true_iff in Hcan. rewrite !orb_false_iff in Hcan.
  destruct Hcan as [[[_ Hi] Hn] Hl]. apply bool_decide_eq_false in Hi, Hn. apply Z.leb_gt in Hl.
  destruct (init_file_ok s ∅ name id parent) as (s' & E & Hwf' & Hse & Hf & _ & Hmx); try done.
  - by apply eq_None_not_Some.
  - by apply eq_None_not_Some.
  - intros p g ->. destruct (Hpar p g eq_refl) as [? Hg]. split_and!; try done.
    rewrite (rp_closed _ Hrp _ _ Hg). done.
  - simpl. exists s'. rewrite E. split_and!; [done| |].
    + unfold abs, a_add. cbn [a_total a_files a_max a_journal].
      rewrite (total_ext_meta s s') by apply Hse. rewrite Hf, afile_of_bump, fmap_insert, Hmx. f_equal.
      apply (se_tree _ _ Hse T_JOURNAL).
    + apply (replaying_same_ext s s'); try done. rewrite Hf. intros j g' (g & Hg & ->)%bump_parent_Some.
      pose proof (bump_fields 1 (fst <$> parent) j g) as (_ & _ & _ & _ & _ & -> & _).
      apply lookup_insert_Some in Hg as [[<- <-]|[Hne Hg]]; [done|]. by apply (rp_closed _ Hrp j).
Qed.

Lemma create_refines s name id :
  replaying s → is_name name → is_u64 id →
  refines (Some (replay_create true name id s)) s (spec_apply (J_CREATE name id) (abs s)).
Proof.
  intros Hrp Hn [Hid1 Hid2]. unfold replay_create, spec_apply. pose proof (name_normalize_spec name Hn) as Hnm.
  destruct (__cyanfs_file_name_normalize name) as [[|e] nm]; [|simpl; eauto].
  destruct Hnm as [Hnm _]. cbn [failed orb]. unfold __cyanfs_lookup_file_by_id, __cyanfs_lookup_file_by_name.
  destruct (a_can_create nm id (abs s)) eqn:Hcan.
  - pose proof (init_file_refines s nm id None Hrp Hnm) as H.
    pose proof Hcan as Hcan'. rewrite abs_can_create in Hcan' by apply Hrp.
    apply negb_true_iff in Hcan'. apply orb_false_iff in Hcan' as [-> ->]. cbn [negb].
    apply H; [|done|done]. unfold a_can_create in Hcan. destruct (Z.eqb_spec id 0); [done|]. lia.
  - rewrite abs_can_create in Hcan by apply Hrp. apply negb_false_iff in Hcan.
    destruct (_ || bool_decide (is_Some (files_by_name s !! nm))); simpl in *; [eauto|].
    rewrite Hcan. eauto.
Qed.

Lemma fork_refines s name id pid :
  replaying s → is_name name → is_u64 id → is_u64 pid →
  refines (Some (replay_fork true name id pid s)) s (spec_apply (J_FORK name id pid) (abs s)).
Proof.
  intros Hrp Hn [Hid1 Hid2] _. unfold replay_fork, spec_apply. pose proof (name_normalize_spec name Hn) as Hnm.
  destruct (__cyanfs_file_name_normalize name) as [[|e] nm]; [|simpl; eauto].
  destruct Hnm as [Hnm _]. cbn [failed orb]. unfold __cyanfs_lookup_file_by_id, __cyanfs_lookup_file_by_name.
  rewrite abs_file. destruct (files_by_id s !! pid) as [p|] eqn:Ep; simpl.
  2:{ destruct (_ || bool_decide (is_Some (files_by_name s !! nm))); simpl; [eauto|]. case_bool; simpl; eauto. }
  destruct (a_can_create nm id (abs s)) eqn:Hcan.
  - pose proof (init_file_refines s nm id (Some (pid, p)) Hrp Hnm) as H.
    pose proof Hcan as Hcan'. rewrite abs_can_create in Hcan' by apply Hrp.
    apply negb_true_iff in Hcan'. rewrite !orb_false_iff in Hcan'. destruct Hcan' as [[[H0 ->] ->] ->].
    rewrite H0. destruct (Z.ltb_spec pid id), (Z.leb_spec id pid); try lia; simpl; [|eauto].
    apply H; [|done|]. { apply Z.eqb_neq in H0. lia. } by intros ? ? [= <- <-].
  - rewrite abs_can_create in Hcan by apply Hrp. apply negb_false_iff in Hcan. simpl.
    rewrite !orb_true_iff in Hcan.
    destruct Hcan as [[[-> | ->]| ->]| ->]; simpl; rewrite ?orb_true_r; simpl; eauto.
    destruct (_ || bool_decide _); simpl; eauto.
Qed.

Lemma replaying_no_pending s id : replaying s → no_pending s id.
Proof. intros Hrp f i n e _ _. apply (rp_pending _ Hrp). Qed.

Lemma replaying_dest s : replaying s → unmap_dest s = T_FREE.
Proof. intros Hrp. unfold unmap_dest. by rewrite (rp_ready _ Hrp). Qed.

Lemma replaying_unmapped s s' :
  replaying s → unmapped s s' → wf s' ∅ → side s' = side s →
  (∀ id f, files_by_id s' !! id = Some f → f_open_type f = CYANFS_FILE_CLOSED) → replaying s'.
Proof.
  intros Hrp [Ht Hn Hp] Hwf' Hsd Hcl. split; try done.
  - rewrite (side_flag s s') by done. apply (rp_ready _ Hrp).
  - intros r Hf Hj. rewrite Ht by (by rewrite replaying_dest). by apply (rp_trees _ Hrp).
  - intros c e He. destruct (ext_pending e) eqn:E; [|done]. apply Hp in He; [|done].
    apply (rp_pending _ Hrp) in He. congruence.
Qed.

Lemma unmapped_journal s s' : replaying s → unmapped s s' → journal_extents s' = journal_extents s.
Proof. intros Hrp Hu. apply (um_tree _ _ Hu T_JOURNAL). by rewrite replaying_dest. Qed.

Lemma closed_insert s s' id f' :
  replaying s → files_by_id s' = <[id := f']> (files_by_id s) → f_open_type f' = CYANFS_FILE_CLOSED →
  ∀ id f, files_by_id s' !! id = Some f → f_open_type f = CYANFS_FILE_CLOSED.
Proof.
  intros Hrp -> Hc j g [[<- <-]|[Hne Hg]]%lookup_insert_Some; [done|]. by apply (rp_closed _ Hrp j).
Qed.

Lemma truncate_refines s id size :
  replaying s → is_u64 id → is_u64 size →
  refines (replay_truncate id size s) s (spec_apply (J_TRUNCATE id size) (abs s)).
Proof.
  intros Hrp _ Hs. pose proof (rp_wf _ Hrp) as Hwf. unfold replay_truncate, spec_apply. rewrite abs_file.
  unfold __cyanfs_lookup_file_by_id. destruct (__cyanfs_file_size_validate size) as [|e] eqn:Ev.
  2:{ simpl. destruct (files_by_id s !! id); simpl; eauto. }
  cbn [failed]. rewrite bool_decide_true by done. cbn [andb].
  destruct (files_by_id s !! id) as [f|] eqn:Ef; simpl; [|eauto].
  rewrite (abs_has_child s id f), negb_involutive by (done || apply Hwf).
  destruct (Z.eqb_spec (fm_children (f_meta f)) 0) as [H0|H0]; simpl; [|eauto].
  destruct (file_truncate_ok s ∅ id size f) as (s' & E & Hwf' & Hr & Hf & Hu); try done.
  { by apply replaying_no_pending. }
  rewrite E. exists s'. cbn [mbind option_bind]. split_and!; [done| |].
  - destruct (rest_ns s s' Hr) as (_ & Hmx & _ & _ & Ht). unfold abs, a_set_files.
    cbn [a_total a_files a_max a_journal]. rewrite Hf, fmap_insert, Hmx, Ht. f_equal.
    by apply unmapped_journal.
  - eapply replaying_unmapped; eauto; [by apply rest_side|]. eapply closed_insert; eauto.
    simpl. by apply (rp_closed _ Hrp id).
Qed.

Lemma delete_refines s id :
  replaying s → is_u64 id → refines (replay_delete id s) s (spec_apply (J_DELETE id) (abs s)).
Proof.
  intros Hrp _. pose proof (rp_wf _ Hrp) as Hwf. unfold replay_delete, spec_apply. rewrite abs_file.
  unfold __cyanfs_lookup_file_by_id. destruct (files_by_id s !! id) as [f|] eqn:Ef; simpl; [|eauto].
  rewrite (abs_has_child s id f) by (done || apply Hwf).
  destruct (Z.eqb_spec (fm_children (f_meta f)) 0) as [H0|H0]; simpl; [|eauto].
  destruct (delete_file_ok s ∅ id f) as (s' & E & Hwf' & Hsd & Hf & Hmx & Hu & Ht); try done.
  { by apply replaying_no_pending. }
  rewrite E. exists s'. cbn [mbind option_bind]. split_and!; [done| |].
  - unfold abs, a_set_files. cbn [a_total a_files a_max a_journal].
    rewrite Hf, afile_of_bump, fmap_delete, Hmx, Ht. f_equal. by apply unmapped_journal.
  - eapply replaying_unmapped; eauto. rewrite Hf.
    intros j g' (g & [Hne Hg]%lookup_delete_Some & ->)%bump_parent_Some.
    pose proof (bump_fields (-1) (f_parent f) j g) as (_ & _ & _ & _ & _ & -> & _).
    by apply (rp_closed _ Hrp j).
Qed.

Lemma bind_refines s id backend file :
  replaying s → is_u64 id → is_u32 backend → is_u32 file →
  refines (__cyanfs_super_journal_replay true (J_BIND id backend file) s) s
    (spec_apply (J_BIND id backend file) (abs s)).
Proof.
  intros Hrp _ Hb Hi. pose proof (rp_wf _ Hrp) as Hwf. unfold __cyanfs_super_journal_replay, spec_apply.
  rewrite abs_file. unfold __cyanfs_lookup_file_by_id.
  destruct (files_by_id s !! id) as [f|] eqn:Ef; simpl; [|eauto].
  unfold __cyanfs_file_bind_extent. rewrite Ef. cbn [mbind option_bind].
  rewrite index_guard by done. destruct (a_index_ok file (fm_size (f_meta f))) eqn:Hix; simpl; [|eauto].
  apply a_index_ok_spec in Hix as [Hix Hlt].
  rewrite (super_find_extent_eq s ∅), abs_free by (done || apply Hwf || apply Hb).
  case_decide as Hfr; [rewrite bool_decide_true by done|rewrite bool_decide_false by done; simpl; eauto]. simpl.
  assert (Hi' : 0 ≤ file ≤ CYANFS_EXTENT_INDEX_MAX) by (destruct Hi; done).
  destruct (f_extents f !! file) as [n|] eqn:En; simpl.
  - unfold __cyanfs_file_map_extent. rewrite Ef. cbn [mbind option_bind].
    rewrite find_extent_begin, En by done. eauto.
  - destruct (map_wf s ∅ id file backend f) as (e & s' & E & Hwf' & Hr & Hf & Htr & He & Hn); try done.
    rewrite E. exists s'. destruct (rest_ns s s' Hr) as (_ & Hmx & _ & Hfl & Ht). split_and!; [done| |].
    + unfold abs, a_set_files. cbn [a_total a_files a_max a_journal].
      rewrite Hf, fmap_insert, Hmx, Ht. f_equal. pose proof (Htr T_JOURNAL) as Hj. simpl in Hj. rewrite Hj.
      pose proof (not_elsewhere _ _ (wf_has_ext _ _ Hwf) (P_TREE T_FREE) T_JOURNAL backend Hfr). set_solver.
    + split; [done| | | |].
      * rewrite (side_flag s s') by (by apply rest_side). apply Hrp.
      * intros r ? ?. rewrite Htr, (rp_trees _ Hrp) by done. set_solver.
      * intros c e'. rewrite Hn. intros [[<- <-]|[Hne He']]%lookup_insert_Some; simpl; by eapply (rp_pending _ Hrp).
      * eapply closed_insert; eauto. simpl. by apply (rp_closed _ Hrp id).
Qed.

Lemma unbind_refines s id file :
  replaying s → is_u64 id → is_u32 file →
  refines (__cyanfs_super_journal_replay true (J_UNBIND id file) s) s (spec_apply (J_UNBIND id file) (abs s)).
Proof.
  intros Hrp _ Hi. pose proof (rp_wf _ Hrp) as Hwf. unfold __cyanfs_super_journal_replay, spec_apply.
  rewrite abs_file. unfold __cyanfs_lookup_file_by_id.
  destruct (files_by_id s !! id) as [f|] eqn:Ef; simpl; [|eauto].
  unfold __cyanfs_file_unbind_extent. rewrite Ef. cbn [mbind option_bind].
  rewrite index_guard by done. destruct (a_index_ok file (fm_size (f_meta f))) eqn:Hix; simpl; [|eauto].
  apply a_index_ok_spec in Hix as [Hix Hlt].
  assert (Hi' : 0 ≤ file ≤ CYANFS_EXTENT_INDEX_MAX) by (destruct Hi; done).
  rewrite find_extent_begin by done. destruct (f_extents f !! file) as [n|] eqn:En; simpl; [|eauto].
  destruct (we_node _ _ (wf_has_ext _ _ Hwf) (P_FILE id file) n) as (e & He & _); [simpl; eauto|].
  destruct (unmap_wf s ∅ id file n f e) as (s' & E & Hwf' & Hr & Hf & Hu & Hn); try done.
  { by apply (rp_pending _ Hrp n). }
  rewrite E. exists s'. cbn [mbind option_bind]. destruct (rest_ns s s' Hr) as (_ & Hmx & _ & Hfl & Ht).
  split_and!; [done| |].
  - unfold abs, a_set_files. cbn [a_total a_files a_max a_journal].
    rewrite Hf, fmap_insert, Hmx, Ht. f_equal. by apply unmapped_journal.
  - eapply replaying_unmapped; eauto; [by apply rest_side|]. eapply closed_insert; eauto.
    simpl. by apply (rp_closed _ Hrp id).
Qed.

Lemma abs_names_delete s id f name :
  wf_ns s → files_by_id s !! id = Some f →
  name ∈ a_names (delete id (a_files (abs s))) ↔ ∃ j, j ≠ id ∧ files_by_name s !! name = Some j.
Proof.
  intros Hwn Hf. rewrite elem_of_a_names. split.
  - intros (j & g & [Hne Hg]%lookup_delete_Some & <-). rewrite abs_file in Hg.
    apply fmap_Some in Hg as (h & Hh & ->). exists j. split; [done|]. by apply by_name_lookup.
  - intros (j & Hne & Hj). apply (wn_name _ _ _ _ Hwn) in Hj as (g & Hg & <-).
    rewrite lookup_fmap in Hg. apply fmap_Some in Hg as (h & Hh & ->).
    exists j, (afile_of h). rewrite lookup_delete_ne, abs_file, Hh by done. done.
Qed.

Lemma rename_refines s name id :
  replaying s → is_name name → is_u64 id →
  refines (replay_rename name id s) s (spec_apply (J_RENAME name id) (abs s)).
Proof.
  intros Hrp Hn _. pose proof (rp_wf _ Hrp) as Hwf. unfold replay_rename, spec_apply.
  pose proof (name_normalize_spec name Hn) as Hnm.
  destruct (__cyanfs_file_name_normalize name) as [[|e] nm]; [|simpl; eauto].
  destruct Hnm as [Hnm _]. cbn [failed]. unfold __cyanfs_lookup_file_by_id, __cyanfs_lookup_file_by_name.
  rewrite abs_file. destruct (files_by_id s !! id) as [f|] eqn:Ef; [|simpl; eauto]. cbn [fmap option_fmap option_map].
  assert (Hdel : nm ∈ a_names (delete id (a_files (abs s))) ↔ ∃ j, j ≠ id ∧ files_by_name s !! nm = Some j).
  { apply (abs_names_delete s id f); [apply Hwf|done]. }
  assert (Hren : (∀ j, files_by_name s !! nm = Some j → j = id) →
    refines (s ← __cyanfs_rename_file id nm s; Some (ST_OK, s)) s
      (Some (a_set_files (<[id := mk_afile nm (f_parent f) (fm_size (f_meta f)) (f_extents f)]> (a_files (abs s))) (abs s)))).
  { intros Hj. destruct (rename_file_ok s ∅ id f nm) as (s' & E & Hwf' & Hse & Hf & Hmx); try done.
    rewrite E. exists s'. cbn [mbind option_bind]. split_and!; [done| |].
    - unfold abs, a_set_files. cbn [a_total a_files a_max a_journal].
      rewrite (total_ext_meta s s') by apply Hse. rewrite Hf, fmap_insert, Hmx. f_equal.
      apply (se_tree _ _ Hse T_JOURNAL).
    - apply (replaying_same_ext s s'); try done. eapply closed_insert; eauto.
      simpl. by apply (rp_closed _ Hrp id). }
  destruct (files_by_name s !! nm) as [p|] eqn:Ep.
  - destruct (Z.eqb_spec p id) as [->|Hne].
    + rewrite bool_decide_false; [apply Hren; by intros ? [= ->]|].
      rewrite Hdel. intros (j & Hj & [= ->]). done.
    + rewrite bool_decide_true; [simpl; eauto|]. rewrite Hdel. eauto.
  - rewrite bool_decide_false; [by apply Hren|]. rewrite Hdel. by intros (j & _ & ?).
Qed.

Lemma next_refines s backend :
  replaying s → is_u32 backend →
  refines (replay_next backend s) s (spec_apply (J_NEXT backend) (abs s)).
Proof.
  intros Hrp [Hb _]. pose proof (rp_wf _ Hrp) as [Hwe Hwn Hwi]. unfold replay_next, spec_apply.
  rewrite (super_find_extent_eq s ∅), abs_free by done.
  case_decide as Hfr; [rewrite bool_decide_true by done|rewrite bool_decide_false by done; simpl; eauto].
  destruct (super_to_super_ok s ∅ T_FREE T_JOURNAL backend) as (s' & E & Hwe' & Hm & Hfr' & Hf & Hn); try done.
  rewrite E. cbn [mbind option_bind]. exists s'. destruct Hfr' as [Hr Hst].
  destruct (rest_ns s s' Hr) as (_ & Hmx & _ & Hfl & Ht). split_and!; [done| |].
  - unfold abs. cbn [a_total a_files a_max a_journal]. rewrite Hf, Hmx, Ht. f_equal.
    apply leibniz_equiv. intros c. pose proof (Hm (P_TREE T_JOURNAL) c) as Hc. simpl in Hc. rewrite Hc.
    destruct (decide (c = backend)); set_solver.
  - split.
    + split; [done|by apply (ext_frame_ns s s')|]. unfold wf_idx. rewrite Hf. apply Hwi.
    + rewrite (side_flag s s') by (by apply rest_side). apply Hrp.
    + intros r ? ?. rewrite (moved_tree _ _ _ _ _ r Hm) by congruence. rewrite (rp_trees _ Hrp) by done. set_solver.
    + rewrite Hn. apply Hrp.
    + rewrite Hf. apply Hrp.
Qed.

Lemma replay_step_refines s j :
  replaying s → entry_ok j →
  refines (__cyanfs_super_journal_replay true j s) s (spec_apply j (abs s)).
Proof.
  intros Hrp Hj. destruct j; simpl in Hj.
  - by apply next_refines.
  - destruct Hj. by apply create_refines.
  - destruct Hj. by apply truncate_refines.
  - destruct Hj as (? & ? & ?). by apply fork_refines.
  - by apply delete_refines.
  - destruct Hj as (? & ? & ?). by apply bind_refines.
  - destruct Hj. by apply unbind_refines.
  - destruct Hj. by apply rename_refines.
Qed.

(** ** A run of entries *)
Lemma replay_all_step js s :
  replaying s → Forall entry_ok js →
  match spec_run js (abs s) with
  | Some a => ∃ s', replay_all js s = Some (ST_OK, s') ∧ abs s' = a ∧ replaying s'
  | None => ∃ err s', replay_all js s = Some (ST_ERR err, s') ∧ replaying s'
  end.
Proof.
  intros Hrp Hjs. revert s Hrp. induction Hjs as [|j js Hj Hjs IH]; intros s Hrp; simpl; [eauto|].
  pose proof (replay_step_refines s j Hrp Hj) as H.
  destruct (spec_apply j (abs s)) as [a|]; simpl in *.
  - destruct H as (s' & -> & <- & Hrp'). simpl. by apply IH.
  - destruct H as (err & ->). simpl. eauto.
Qed.

Lemma blank_super_replaying total reserved size fl :
  1 ≤ total ≤ CYANFS_EXTENT_COUNT_MAX → Z.land fl CYANFS_SUPER_FLAG_READY = 0 →
  replaying (blank_super total reserved size fl).
Proof.
  intros Ht Hfl. split.
  - by apply blank_super_wf.
  - unfold has_flag, blank_super. cbn [flags]. by rewrite Hfl.
  - by intros [].
  - intros c e He. destruct (decide (0 ≤ c < total)) as [Hc|Hc].
    + rewrite blank_super_nodes in He by done. by injection He as <-.
    + exfalso. apply elem_of_list_to_map_2, list_elem_of_fmap in He as (i & [= -> ->] & Hi).
      apply elem_of_seqZ in Hi. apply Hc. lia.
  - intros id f Hf. unfold blank_super in Hf. cbn [files_by_id] in Hf. by apply lookup_empty_Some in Hf.
Qed.

Lemma init_super_replaying size discard compact :
  device_size_ok size → replaying (init_super size discard compact).
Proof.
  intros Hs. destruct (device_total size Hs) as [Ht Hr]. unfold init_super.
  apply blank_super_replaying.
  - rewrite Ht. change CYANFS_EXTENT_COUNT_MAX with 1073741824. lia.
  - by destruct discard, compact.
Qed.

Lemma abs_blank_super total reserved size fl : abs (blank_super total reserved size fl) = a_init total.
Proof. unfold abs, a_init. f_equal. Qed.

(** ** Well-formed abstract states *)
Lemma abs_wf s : replaying s → a_wf (abs s).
Proof.
  intros Hrp. destruct (rp_wf _ Hrp) as [Hwe Hwn Hwi].
  assert (Hf : ∀ id g, a_files (abs s) !! id = Some g → ∃ f, files_by_id s !! id = Some f ∧ g = afile_of f ∧
                 (strip <$> files_by_id s) !! id = Some (strip f)).
  { intros id g Hg. rewrite abs_file in Hg. apply fmap_Some in Hg as (f & Hf & ->). exists f.
    by rewrite lookup_fmap, Hf. }
  split.
  - apply (we_total _ _ Hwe).
  - apply (wn_max _ _ _ _ Hwn).
  - pose proof (wn_limit _ _ _ _ Hwn) as Hl. rewrite (wn_count _ _ _ _ Hwn), map_size_fmap in Hl.
    cbn [abs a_files]. by rewrite map_size_fmap.
  - intros id g (f & _ & -> & Hs)%Hf. by apply (wn_id _ _ _ _ Hwn id (strip f)).
  - intros id g (f & _ & -> & Hs)%Hf. by apply (wn_normal _ _ _ _ Hwn id (strip f)).
  - intros id id' g g' (f & Hi & -> & _)%Hf (f' & Hi' & -> & _)%Hf E. simpl in E.
    pose proof (by_name_lookup s id f Hwn Hi). pose proof (by_name_lookup s id' f' Hwn Hi'). congruence.
  - intros id g p (f & _ & -> & Hs)%Hf Hp.
    destruct (wn_parent _ _ _ _ Hwn id (strip f) p Hs Hp) as (? & Hg & _). split; [done|].
    rewrite abs_file. rewrite lookup_fmap in Hg. apply fmap_is_Some in Hg. by apply fmap_is_Some.
  - intros id g (f & _ & -> & Hs)%Hf. apply (wn_size _ _ _ _ Hwn id (strip f) Hs).
  - intros id g i b (f & Hi & -> & _)%Hf Hb. pose proof (index_of_file _ _ _ _ _ _ Hwe Hi Hb).
    split; [lia|]. split; [|apply (owns_range _ _ Hwe (P_FILE id i)); simpl; eauto].
    apply a_index_ok_spec. split; [change CYANFS_EXTENT_INDEX_MAX with 1073741823; lia|]. by eapply (Hwi id f).
  - intros id id' g g' i i' b (f & Hi & -> & _)%Hf (f' & Hi' & -> & _)%Hf Hb Hb'.
    assert (E : P_FILE id i = P_FILE id' i') by (eapply (owns_unique _ _ Hwe); simpl; eauto). by injection E.
  - intros b Hb. split; [by apply (owns_range _ _ Hwe (P_TREE T_JOURNAL))|]. rewrite abs_used.
    intros (id & i & Hp). by pose proof (owns_unique _ _ Hwe (P_TREE T_JOURNAL) (P_FILE id i) b Hb Hp).
Qed.

(** ** What a replay leaves alone: flags, journal, cursor and tasks *)
Lemma tree_set_side r X s : side (tree_set r X s) = side s.
Proof. by destruct r. Qed.
Lemma stat_add_side r v s : side (__cyanfs_super_stat_add r v s) = side s.
Proof. by destruct r. Qed.

Ltac bind_step H :=
  lazymatch type of H with
  | ?x ≫= _ = Some _ => let E := fresh "E" in destruct x eqn:E; [cbn [mbind option_bind] in H|done]
  | (if ?b then _ else _) = Some _ => destruct b; try done
  | (bug_on ?b;; _) = Some _ => unfold bug_on in H; destruct b; [done|cbn [mbind option_bind] in H]
  end.

Lemma super_to_super_side n from to s s' : __cyanfs_extent_super_to_super n from to s = Some s' → side s' = side s.
Proof.
  unfold __cyanfs_extent_super_to_super. intros H. bind_step H. injection H as <-.
  by rewrite stat_add_side, !tree_set_side, stat_add_side.
Qed.

Lemma file_to_super_side id n to s s' : __cyanfs_extent_file_to_super id n to s = Some s' → side s' = side s.
Proof.
  unfold __cyanfs_extent_file_to_super. intros H. bind_step H. bind_step H. bind_step H. injection H as <-.
  by rewrite stat_add_side, tree_set_side.
Qed.

Lemma super_to_file_side id n from s s' : __cyanfs_extent_super_to_file id n from s = Some s' → side s' = side s.
Proof.
  unfold __cyanfs_extent_super_to_file. intros H. bind_step H. bind_step H. bind_step H. bind_step H. injection H as <-.
  change (side (tree_set from g (__cyanfs_super_stat_add from (-1) s)) = side s). by rewrite tree_set_side, stat_add_side.
Qed.

Lemma map_side id n i s st s' : __cyanfs_file_map_extent id n i s = Some (st, s') → side s' = side s.
Proof.
  unfold __cyanfs_file_map_extent. intros H. bind_step H. destruct (__cyanfs_file_find_extent _ _); [by injection H as _ <-|].
  bind_step H. injection H as _ <-. by apply super_to_file_side in E0.
Qed.

Lemma unmap_side id n s s' : __cyanfs_file_unmap_extent id n s = Some s' → side s' = side s.
Proof.
  unfold __cyanfs_file_unmap_extent. intros H. bind_step H. bind_step H.
  destruct (has_flag _ _); by apply file_to_super_side in H.
Qed.

Lemma unmap_keys_side id ks s s' : unmap_keys id ks s = Some s' → side s' = side s.
Proof.
  revert s. induction ks as [|i ks IH]; intros s H; cbn [unmap_keys] in H; [by injection H as <-|].
  bind_step H. bind_step H. bind_step H. apply IH in H. by apply unmap_side in E1 as <-.
Qed.

Lemma truncate_side id size s s' : __cyanfs_file_truncate id size s = Some s' → side s' = side s.
Proof.
  unfold __cyanfs_file_truncate. intros H. bind_step H. bind_step H. injection H as <-. by apply unmap_keys_side in E0.
Qed.

Lemma init_file_side name id par s st s' : __cyanfs_init_file name id par s = (st, s') → side s' = side s.
Proof.
  unfold __cyanfs_init_file. intros H. destruct (files_by_id s !! id); [by injection H as _ <-|].
  destruct (files_by_name s !! name); [by injection H as _ <-|]. injection H as _ <-.
  destruct par as [[pid p]|]; by destruct (_ <? _).
Qed.

Lemma rename_side id name s s' : __cyanfs_rename_file id name s = Some s' → side s' = side s.
Proof. unfold __cyanfs_rename_file. intros H. bind_step H. bind_step H. by injection H as <-. Qed.

Lemma delete_side id s s' : __cyanfs_delete_file id s = Some s' → side s' = side s.
Proof.
  unfold __cyanfs_delete_file. intros H. bind_step H. bind_step H. bind_step H. apply truncate_side in E.
  destruct (f_parent _); [bind_step H|]; by injection H as <-.
Qed.

Lemma replay_side mem j s st s' : __cyanfs_super_journal_replay mem j s = Some (st, s') → side s' = side s.
Proof.
  destruct j as [b|name id|id size|name id pid|id|id b i|id i|name id]; cbn [__cyanfs_super_journal_replay].
  - unfold replay_next. intros H. destruct (__cyanfs_super_find_extent s b); [|by injection H as _ <-].
    bind_step H. injection H as _ <-. by eapply super_to_super_side.
  - unfold replay_create. destruct (__cyanfs_file_name_normalize name) as [e nm]. intros [= H].
    destruct (_ || _); [by injection H as _ <-|].
    destruct (_ <=? _); [by injection H as _ <-|]. destruct mem; cbn [negb] in H; [by eapply init_file_side|by injection H as _ <-].
  - unfold replay_truncate. intros H. destruct (failed _); [by injection H as _ <-|].
    destruct (__cyanfs_lookup_file_by_id s id); [|by injection H as _ <-]. destruct (negb _); [by injection H as _ <-|].
    bind_step H. injection H as _ <-. by eapply truncate_side.
  - unfold replay_fork. destruct (__cyanfs_file_name_normalize name) as [e nm]. intros [= H].
    destruct (_ || _); [by injection H as _ <-|]. destruct (_ <=? _); [by injection H as _ <-|].
    destruct (__cyanfs_lookup_file_by_id s pid); [|by injection H as _ <-].
    destruct mem; cbn [negb] in H; [by eapply init_file_side|by injection H as _ <-].
  - unfold replay_delete. intros H.
    destruct (__cyanfs_lookup_file_by_id s id); [|by injection H as _ <-]. destruct (negb _); [by injection H as _ <-|].
    bind_step H. injection H as _ <-. by eapply delete_side.
  - destruct (__cyanfs_lookup_file_by_id s id); [|by intros [= _ <-]]. unfold __cyanfs_file_bind_extent. intros H.
    bind_step H. destruct (_ || _); [by injection H as _ <-|].
    destruct (__cyanfs_super_find_extent s b); [by eapply map_side|by injection H as _ <-].
  - destruct (__cyanfs_lookup_file_by_id s id); [|by intros [= _ <-]]. unfold __cyanfs_file_unbind_extent. intros H.
    bind_step H. destruct (_ || _); [by injection H as _ <-|].
    destruct (__cyanfs_file_find_extent _ _); [|by injection H as _ <-]. bind_step H. injection H as _ <-. by eapply unmap_side.
  - unfold replay_rename. destruct (__cyanfs_file_name_normalize name) as [e nm]. intros H.
    destruct (failed e); [by injection H as _ <-|]. destruct (__cyanfs_lookup_file_by_id s id); [|by injection H as _ <-].
    destruct (__cyanfs_lookup_file_by_name s nm).
    + destruct (_ =? _); [|by injection H as _ <-]. bind_step H. injection H as _ <-. by eapply rename_side.
    + bind_step H. injection H as _ <-. by eapply rename_side.
Qed.

(** ** Properties *)
Lemma replay_out_of_memory j s :
  __cyanfs_super_journal_replay false j s = __cyanfs_super_journal_replay true j s ∨
  __cyanfs_super_journal_replay false j s = Some (ST_ERR ERR_NOMEM, s).
Proof.
  destruct j as [|name id| |name id pid| | | |]; try by left.
  - cbn [__cyanfs_super_journal_replay]. unfold replay_create.
    destruct (__cyanfs_file_name_normalize name) as [err nm]. destruct (_ || _); [by left|].
    destruct (_ <=? _); [by left|by right].
  - cbn [__cyanfs_super_journal_replay]. unfold replay_fork.
    destruct (__cyanfs_file_name_normalize name) as [err nm]. destruct (_ || _); [by left|].
    destruct (_ <=? _); [by left|]. destruct (__cyanfs_lookup_file_by_id s pid); [by right|by left].
Qed.

(** The extents of a replayed super block: free, journal and data. *)
Lemma replaying_count s :
  replaying s →
  sm_free_extents (s_meta s) + sm_journal_extents (s_meta s) + sm_data_extents (s_meta s) =
  sm_total_extents (s_meta s).
Proof.
  intros Hrp. destruct (rp_wf _ Hrp) as [Hwe Hwn Hwi]. pose proof (we_total _ _ Hwe) as Ht.
  rewrite (we_free _ _ Hwe), (we_journal _ _ Hwe), (we_data _ _ Hwe).
  rewrite <- (size_all_extents (sm_total_extents (s_meta s))) at 1 by lia.
  assert (all_extents (sm_total_extents (s_meta s)) =
          free_extents s ∪ journal_extents s ∪ data_set (files_by_id s)) as ->.
  { apply leibniz_equiv. intros b. rewrite elem_of_all_extents, !elem_of_union, (data_set_owns s ∅). split.
    - intros Hb. destruct (pt_cover _ _ (we_part _ _ Hwe) b Hb) as [[r|id i|k] Hp].
      + destruct (decide (r = T_FREE)) as [->|]; [by left; left|].
        destruct (decide (r = T_JOURNAL)) as [->|]; [by left; right|].
        simpl in Hp. rewrite (rp_trees _ Hrp) in Hp by done. set_solver.
      + right. eauto.
      + destruct Hp as (X & HX & _). done.
    - intros [[Hb|Hb]|(id & i & Hb)].
      + by apply (owns_range _ _ Hwe (P_TREE T_FREE)).
      + by apply (owns_range _ _ Hwe (P_TREE T_JOURNAL)).
      + by apply (owns_range _ _ Hwe (P_FILE id i)). }
  assert (Hj : free_extents s ## journal_extents s).
  { intros b Hb Hb'. by pose proof (owns_unique _ _ Hwe (P_TREE T_FREE) (P_TREE T_JOURNAL) b Hb Hb'). }
  assert (Hd : free_extents s ∪ journal_extents s ## data_set (files_by_id s)).
  { intros b Hb (id & i & Hb')%(data_set_owns s ∅). apply elem_of_union in Hb as [Hb|Hb].
    - by pose proof (owns_unique _ _ Hwe (P_TREE T_FREE) (P_FILE id i) b Hb Hb').
    - by pose proof (owns_unique _ _ Hwe (P_TREE T_JOURNAL) (P_FILE id i) b Hb Hb'). }
  rewrite !size_union by done. lia.
Qed.

(** What the extents of a super block belong to, after a replay. *)
Lemma replay_all_replaying js s st s' :
  replaying s → Forall entry_ok js → replay_all js s = Some (st, s') → replaying s'.
Proof.
  intros Hrp Hjs E. pose proof (replay_all_step js s Hrp Hjs) as H.
  destruct (spec_run js (abs s)).
  - destruct H as (s1 & E' & _ & Hrp'). congruence.
  - destruct H as (err & s1 & E' & Hrp'). congruence.
Qed.

(** The replay of one journal entry implements its meaning.  From a super
    block that is being loaded, an entry the abstract file system admits is
    applied with exactly its abstract effect and the invariant is kept; any
    other entry is refused without touching the state; nothing aborts.  When
    memory runs out the entry is refused, also without an effect. *)
Theorem replay_entry_refines mem s j :
  replaying s → entry_ok j →
  refines (__cyanfs_super_journal_replay mem j s) s (spec_apply j (abs s)) ∨
  mem = false ∧ __cyanfs_super_journal_replay mem j s = Some (ST_ERR ERR_NOMEM, s).
Proof.
  intros Hrp Hj. pose proof (replay_step_refines s j Hrp Hj) as H. destruct mem; [by left|].
  destruct (replay_out_of_memory j s) as [->| ->]; [by left|by right].
Qed.

(** C20: loading a journal from a device of any admissible size never aborts,
    and succeeds exactly when the abstract file system admits the entries one
    after the other; the state is then the abstract one. *)
Theorem replay_journal_refines size discard compact js :
  device_size_ok size → Forall entry_ok js →
  match spec_run js (a_init ((size - CYANFS_SUPER_BLOCK_SIZE) / CYANFS_EXTENT_SIZE)) with
  | Some a => ∃ s, replay_all js (init_super size discard compact) = Some (ST_OK, s) ∧ abs s = a ∧ wf s ∅
  | None => ∃ err s, replay_all js (init_super size discard compact) = Some (ST_ERR err, s) ∧ wf s ∅
  end.
Proof.
  intros Hs Hjs. pose proof (init_super_replaying size discard compact Hs) as Hrp.
  pose proof (replay_all_step js _ Hrp Hjs) as H. unfold init_super at 1 in H. rewrite abs_blank_super in H.
  destruct (device_total size Hs) as [Ht _]. rewrite Ht in H.
  change (CYANFS_SUPER_BLOCK_SIZE) with 8192. change CYANFS_EXTENT_SIZE with 1048576.
  destruct (spec_run js _).
  - destruct H as (s & E & Ha & Hrp'). exists s. split_and!; [done|done|apply Hrp'].
  - destruct H as (err & s & E & Hrp'). exists err, s. split; [done|apply Hrp'].
Qed.

(** C21: whatever journal is loaded, and whether or not the load succeeds, each
    extent of the device is free, in the journal, or bound to exactly one index
    of exactly one file, and the counters reported by [cyanfs_statfs] add up. *)
Theorem replay_extents_owned size discard compact js st s :
  device_size_ok size → Forall entry_ok js →
  replay_all js (init_super size discard compact) = Some (st, s) →
  (∀ b, 0 ≤ b < sm_total_extents (s_meta s) →
     ∃ p, owns s ∅ p b ∧ (∀ q, owns s ∅ q b → q = p) ∧
       (p = P_TREE T_FREE ∨ p = P_TREE T_JOURNAL ∨ ∃ id i, p = P_FILE id i)) ∧
  sm_free_extents (s_meta s) + sm_journal_extents (s_meta s) + sm_data_extents (s_meta s) =
  sm_total_extents (s_meta s).
Proof.
  intros Hs Hjs E. pose proof (init_super_replaying size discard compact Hs) as Hrp0.
  pose proof (replay_all_replaying js _ st s Hrp0 Hjs E) as Hrp. split; [|by apply replaying_count].
  intros b Hb. pose proof (wf_has_ext _ _ (rp_wf _ Hrp)) as Hwe.
  destruct (pt_cover _ _ (we_part _ _ Hwe) b Hb) as [p Hp]. exists p. split_and!; [done| |].
  { intros q Hq. by apply (owns_unique _ _ Hwe _ _ b). }
  destruct p as [r|id i|k].
  - destruct (decide (r = T_FREE)) as [->|]; [by left|].
    destruct (decide (r = T_JOURNAL)) as [->|]; [by right; left|].
    simpl in Hp. rewrite (rp_trees _ Hrp) in Hp by done. set_solver.
  - right. right. eauto.
  - by destruct Hp as (X & HX & _).
Qed.

(** ** Examples

    A device of four extents, a file of 1.5 MiB with one extent bound, a
    snapshot of it, and a journal that continues in extent 3. *)
Definition ex_size : Z := 8192 + 64 * 1048576.
Definition ex_journal : list journal_body :=
  [J_CREATE (short_name [97]) 1; J_TRUNCATE 1 1572864; J_BIND 1 2 0; J_FORK (short_name [98]) 2 1; J_NEXT 3].

Lemma ex_size_ok : device_size_ok ex_size.
Proof. unfold device_size_ok. vm_compute. by split. Qed.

Lemma ex_journal_ok : Forall entry_ok ex_journal.
Proof.
  assert (∀ c, 0 < c < 256 → is_name (short_name [c])) as Hn.
  { intros c Hc. apply short_name_normal; [simpl; lia|by apply Forall_singleton]. }
  repeat constructor; try (apply Hn; lia); vm_compute; done.
Qed.

Lemma replay_entry_refines_witness :
  refines (__cyanfs_super_journal_replay true (J_CREATE (short_name [97]) 1) (init_super ex_size false false))
    (init_super ex_size false false)
    (spec_apply (J_CREATE (short_name [97]) 1) (abs (init_super ex_size false false))).
Proof.
  destruct (replay_entry_refines true (init_super ex_size false false) (J_CREATE (short_name [97]) 1)) as [H|[H _]].
  - apply init_super_replaying, ex_size_ok.
  - pose proof ex_journal_ok as H. unfold ex_journal in H. by apply Forall_cons in H as [H _].
  - exact H.
  - discriminate H.
Defined.

Lemma replay_journal_refines_witness :
  device_size_ok ex_size ∧
  (∃ s, replay_all ex_journal (init_super ex_size false false) = Some (ST_OK, s) ∧ wf s ∅).
Proof.
  split; [exact ex_size_ok|].
  pose proof (replay_journal_refines ex_size false false ex_journal ex_size_ok ex_journal_ok) as H.
  destruct (spec_run ex_journal _) as [a|] eqn:E; [|vm_compute in E; discriminate E].
  destruct H as (s & Hs & _ & Hwf). by exists s.
Defined.

(** The state after that journal. *)
Definition ex_loaded : cyanfs_super :=
  match replay_all ex_journal (init_super ex_size false false) with
  | Some (_, s) => s
  | None => init_super ex_size false false
  end.

Lemma ex_loaded_eq : replay_all ex_journal (init_super ex_size false false) = Some (ST_OK, ex_loaded).
Proof.
  assert (H : fst <$> replay_all ex_journal (init_super ex_size false false) = Some ST_OK) by (vm_compute; reflexivity).
  unfold ex_loaded. destruct (replay_all _ _) as [[st s]|]; [|done]. by injection H as ->.
Qed.

Lemma replay_extents_owned_witness :
  sm_free_extents (s_meta ex_loaded) + sm_journal_extents (s_meta ex_loaded) +
  sm_data_extents (s_meta ex_loaded) = sm_total_extents (s_meta ex_loaded).
Proof.
  exact (proj2 (replay_extents_owned ex_size false false ex_journal ST_OK ex_loaded ex_size_ok ex_journal_ok ex_loaded_eq)).
Defined.
