(* ===== verification/World.v ===== *)
(** * World: the contexts of the asynchronous tasks

    A task is embedded in a context: a loader or a writer of the journal, a
    flusher, a compaction.  This file has their structures
    ([core/journal.h], [core/flusher.c], [core/compact.c]), the state made of
    the super block and of the live contexts, and the operations on the task
    queue that find a context from a task ([container_of]). *)
From Stdlib Require Import ZArith Lia.
From S2P Require Import Prelude Base Journal Types Super.

(** ** [struct cyanfs_task_journal_writer]: the entries still to write, and the
    extent the last record links to. *)
Record cyanfs_task_journal_writer := mk_writer {
  wr_head : list cyanfs_journal_entry;
  wr_next_id : Z }.

Definition set_wr_head (x : list cyanfs_journal_entry) (r : cyanfs_task_journal_writer) : cyanfs_task_journal_writer :=
  mk_writer x (wr_next_id r).
Definition set_wr_next_id (x : Z) (r : cyanfs_task_journal_writer) : cyanfs_task_journal_writer :=
  mk_writer (wr_head r) x.

(** ** [struct cyanfs_task_journal_loader]: [ld_journals] is the list of
    [struct cyanfs_extent_set]s, each as the ids it holds. *)
Record cyanfs_task_journal_loader := mk_loader {
  ld_header : cyanfs_super_header;
  ld_end_id : Z;
  ld_journals : list (list Z);
  ld_visited : gset Z }.

Definition set_ld_header (x : cyanfs_super_header) (r : cyanfs_task_journal_loader) : cyanfs_task_journal_loader :=
  mk_loader x (ld_end_id r) (ld_journals r) (ld_visited r).
Definition set_ld_end_id (x : Z) (r : cyanfs_task_journal_loader) : cyanfs_task_journal_loader :=
  mk_loader (ld_header r) x (ld_journals r) (ld_visited r).
Definition set_ld_journals (x : list (list Z)) (r : cyanfs_task_journal_loader) : cyanfs_task_journal_loader :=
  mk_loader (ld_header r) (ld_end_id r) x (ld_visited r).
Definition set_ld_visited (x : gset Z) (r : cyanfs_task_journal_loader) : cyanfs_task_journal_loader :=
  mk_loader (ld_header r) (ld_end_id r) (ld_journals r) x.

(** ** [struct cyanfs_task_super_flusher] *)
Record cyanfs_task_super_flusher := mk_flusher {
  fl_flush_before_write : bool;
  fl_ondisk : bool;
  fl_unused_extents : gset Z;
  fl_writer : cyanfs_task_journal_writer }.

Definition set_fl_flush_before_write (x : bool) (r : cyanfs_task_super_flusher) : cyanfs_task_super_flusher :=
  mk_flusher x (fl_ondisk r) (fl_unused_extents r) (fl_writer r).
Definition set_fl_ondisk (x : bool) (r : cyanfs_task_super_flusher) : cyanfs_task_super_flusher :=
  mk_flusher (fl_flush_before_write r) x (fl_unused_extents r) (fl_writer r).
Definition set_fl_unused_extents (x : gset Z) (r : cyanfs_task_super_flusher) : cyanfs_task_super_flusher :=
  mk_flusher (fl_flush_before_write r) (fl_ondisk r) x (fl_writer r).
Definition set_fl_writer (x : cyanfs_task_journal_writer) (r : cyanfs_task_super_flusher) : cyanfs_task_super_flusher :=
  mk_flusher (fl_flush_before_write r) (fl_ondisk r) (fl_unused_extents r) x.

(** ** [struct cyanfs_task_journal_compact] *)
Record cyanfs_task_journal_compact := mk_compact {
  cp_writer : cyanfs_task_journal_writer;
  cp_loader : cyanfs_task_journal_loader;
  cp_compact : cyanfs_super;
  cp_header : cyanfs_super_header }.

Definition set_cp_writer (x : cyanfs_task_journal_writer) (r : cyanfs_task_journal_compact) : cyanfs_task_journal_compact :=
  mk_compact x (cp_loader r) (cp_compact r) (cp_header r).
Definition set_cp_loader (x : cyanfs_task_journal_loader) (r : cyanfs_task_journal_compact) : cyanfs_task_journal_compact :=
  mk_compact (cp_writer r) x (cp_compact r) (cp_header r).
Definition set_cp_compact (x : cyanfs_super) (r : cyanfs_task_journal_compact) : cyanfs_task_journal_compact :=
  mk_compact (cp_writer r) (cp_loader r) x (cp_header r).
Definition set_cp_header (x : cyanfs_super_header) (r : cyanfs_task_journal_compact) : cyanfs_task_journal_compact :=
  mk_compact (cp_writer r) (cp_loader r) (cp_compact r) x.

(** ** The instance and the tasks' contexts

    [w_flushers] is the heap of the flushers, by address ([w_next] is the next
    address); [w_opener] is the loader [cyanfs_super_open] started and
    [w_compact] the compaction at work, while they are allocated.  [w_malloc]
    lists the outcomes of the next calls of [cyanfs_malloc]; when it is empty
    the calls succeed. *)
Record world := mk_world {
  w_super : cyanfs_super;
  w_flushers : gmap Z cyanfs_task_super_flusher;
  w_next : Z;
  w_opener : option cyanfs_task_journal_loader;
  w_compact : option cyanfs_task_journal_compact;
  w_malloc : list bool }.

Definition set_w_super (x : cyanfs_super) (r : world) : world :=
  mk_world x (w_flushers r) (w_next r) (w_opener r) (w_compact r) (w_malloc r).
Definition set_w_flushers (x : gmap Z cyanfs_task_super_flusher) (r : world) : world :=
  mk_world (w_super r) x (w_next r) (w_opener r) (w_compact r) (w_malloc r).
Definition set_w_next (x : Z) (r : world) : world :=
  mk_world (w_super r) (w_flushers r) x (w_opener r) (w_compact r) (w_malloc r).
Definition set_w_opener (x : option cyanfs_task_journal_loader) (r : world) : world :=
  mk_world (w_super r) (w_flushers r) (w_next r) x (w_compact r) (w_malloc r).
Definition set_w_compact (x : option cyanfs_task_journal_compact) (r : world) : world :=
  mk_world (w_super r) (w_flushers r) (w_next r) (w_opener r) x (w_malloc r).
Definition set_w_malloc (x : list bool) (r : world) : world :=
  mk_world (w_super r) (w_flushers r) (w_next r) (w_opener r) (w_compact r) x.

Definition upd_super (g : cyanfs_super → cyanfs_super) (w : world) : world := set_w_super (g (w_super w)) w.

(** [cyanfs_malloc] *)
Definition cyanfs_malloc (w : world) : bool * world :=
  match w_malloc w with
  | [] => (true, w)
  | b :: l => (b, set_w_malloc l w)
  end.

(** ** Contexts of a task *)
Definition get_flusher (t : Z) (w : world) : option cyanfs_task_super_flusher := w_flushers w !! t.
Definition upd_flusher (t : Z) (g : cyanfs_task_super_flusher → cyanfs_task_super_flusher) (w : world) : world :=
  set_w_flushers (alter g t (w_flushers w)) w.
Definition upd_compact (g : cyanfs_task_journal_compact → cyanfs_task_journal_compact) (w : world) : world :=
  set_w_compact (g <$> w_compact w) w.

Definition get_loader (l : loader_ref) (w : world) : option cyanfs_task_journal_loader :=
  match l with LOADER_OPEN => w_opener w | LOADER_COMPACT => cp_loader <$> w_compact w end.
Definition upd_loader (l : loader_ref) (g : cyanfs_task_journal_loader → cyanfs_task_journal_loader) (w : world) : world :=
  match l with
  | LOADER_OPEN => set_w_opener (g <$> w_opener w) w
  | LOADER_COMPACT => upd_compact (λ c, set_cp_loader (g (cp_loader c)) c) w
  end.

Definition get_writer (r : writer_ref) (w : world) : option cyanfs_task_journal_writer :=
  match r with
  | WRITER_FLUSHER t => fl_writer <$> w_flushers w !! t
  | WRITER_COMPACT => cp_writer <$> w_compact w
  end.
Definition upd_writer (r : writer_ref) (g : cyanfs_task_journal_writer → cyanfs_task_journal_writer) (w : world) : world :=
  match r with
  | WRITER_FLUSHER t => upd_flusher t (λ f, set_fl_writer (g (fl_writer f)) f) w
  | WRITER_COMPACT => upd_compact (λ c, set_cp_writer (g (cp_writer c)) c) w
  end.

(** The cursor a journal page belongs to: that of the super block or that of
    the compaction. *)
Definition get_cursor (b : page_ref) (w : world) : option cyanfs_journal_cursor :=
  match b with
  | BUF_SUPER => Some (journal_cursor (w_super w))
  | BUF_COMPACT => (λ c, journal_cursor (cp_compact c)) <$> w_compact w
  end.
Definition upd_cursor_of (b : page_ref) (g : cyanfs_journal_cursor → cyanfs_journal_cursor) (w : world) : world :=
  match b with
  | BUF_SUPER => upd_super (upd_cursor g) w
  | BUF_COMPACT => upd_compact (λ c, set_cp_compact (upd_cursor g (cp_compact c)) c) w
  end.
Definition loader_buf (l : loader_ref) : page_ref :=
  match l with LOADER_OPEN => BUF_SUPER | LOADER_COMPACT => BUF_COMPACT end.
Definition writer_buf (r : writer_ref) : page_ref :=
  match r with WRITER_FLUSHER _ => BUF_SUPER | WRITER_COMPACT => BUF_COMPACT end.

Definition task_add_head (t : cyanfs_task) : world → world := upd_super (cyanfs_super_task_add_head t).
Definition task_add_tail (t : cyanfs_task) : world → world := upd_super (cyanfs_super_task_add_tail t).

(** Overwriting the type of an embedded task that is in the queue. *)
Definition set_queued_type (r : writer_ref) (ty : cyanfs_task_type_t) (w : world) : world :=
  upd_super (λ s, set_task_head
    ((λ t, match t_done t with
           | cyanfs_journal_writer_encode r' => if decide (r' = r) then mk_task ty (t_done t) else t
           | _ => t
           end) <$> task_head s) s) w.
