(* ===== verification/JournalIO.v ===== *)
(** * JournalIO: reading and writing the journal

    Models the loader and the writer of [core/journal.c].  The callbacks of
    [struct cyanfs_task_journal_loader] and [struct
    cyanfs_task_journal_writer] are the fields of the records
    [loader_operations] and [writer_operations]; [Api], [Flusher] and
    [Compact] provide them.  The functions take the world and return the new
    one; [None] is an abort. *)
From Stdlib Require Import ZArith Lia.
From S2P Require Import Prelude Base Journal Types Super World.

(** ** The loader *)
Record loader_operations := {
  op_parser : journal_body → world → option (cyanfs_status * world);
  op_finish : world → option world;
  op_error : world → option world }.

Definition CYANFS_EXTENT_SET_LIIMT : Z := 200.

Definition zero_header : cyanfs_super_header := mk_sheader [] 0 0 0 0 0.

Definition cyanfs_journal_loader_init (end_id : Z) : cyanfs_task_journal_loader :=
  mk_loader zero_header end_id [[]] ∅.

Definition cyanfs_journal_loader_start (l : loader_ref) (w : world) : world :=
  task_add_tail (mk_task (CYANFS_TASK_READ 0 CYANFS_SUPER_BLOCK_SIZE (loader_buf l))
                         (cyanfs_journal_loader_parser_header l)) w.

Section loader.
Context (l : loader_ref) (ops : loader_operations).

(** One [struct cyanfs_extent_set]: its extents as NEXT entries, until the
    parser fails. *)
Fixpoint loader_end_set (ids : list Z) (w : world) : option (bool * world) :=
  match ids with
  | [] => Some (false, w)
  | id :: ids =>
      '(st, w) ← op_parser ops (J_NEXT id) w;
      if failed st then Some (true, w) else loader_end_set ids w
  end.

Fixpoint loader_end_sets (err : bool) (sets : list (list Z)) (w : world) : option (bool * world) :=
  match sets with
  | [] => Some (err, w)
  | ids :: sets =>
      if err then loader_end_sets err sets w
      else '(err, w) ← loader_end_set ids w; loader_end_sets err sets w
  end.

Definition cyanfs_journal_loader_end (err : bool) (w : world) : option world :=
  t ← get_loader l w;
  let w := upd_loader l (set_ld_visited ∅) w in
  '(err, w) ← loader_end_sets err (ld_journals t) w;
  let w := upd_loader l (set_ld_journals []) w in
  if (err : bool) then op_error ops w else op_finish ops w.

Definition cyanfs_journal_loader_read_page (w : world) : option world :=
  c ← get_cursor (loader_buf l) w;
  let b_off := cyanfs_map_extent_offset (cur_extent_id c) (cur_extent_off c) in
  let len := u64 (CYANFS_EXTENT_SIZE - cur_extent_off c) in
  let len := if CYANFS_JOURNAL_PAGE_SIZE <? len then CYANFS_JOURNAL_PAGE_SIZE else len in
  Some (task_add_tail (mk_task (CYANFS_TASK_READ b_off len (loader_buf l))
                               (cyanfs_journal_loader_parser_page l)) w).

(** [struct cyanfs_journal_loader_follow]: the extent to follow and whether
    a new extent set was allocated for it. *)
Definition cyanfs_journal_loader_prepare_extent (b_id : Z) (w : world)
    : option ((cyanfs_err + Z * bool) * world) :=
  t ← get_loader l w;
  if (b_id =? cyanfs_extent_id_invalid) || (sm_total_extents (s_meta (w_super w)) <=? b_id)
  then Some (inl ERR_INVAL, w)
  else if decide (b_id ∈ ld_visited t) then Some (inl ERR_INVAL, w)
  else
    let '(ok, w) := cyanfs_malloc w in
    if negb ok then Some (inl ERR_NOMEM, w) else
    n ← last (ld_journals t);
    if CYANFS_EXTENT_SET_LIIMT <=? Z.of_nat (length n) then
      let '(ok, w) := cyanfs_malloc w in
      if negb ok then Some (inl ERR_NOMEM, w) else Some (inr (b_id, true), w)
    else Some (inr (b_id, false), w).

(** Add [id] to the last extent set. *)
Fixpoint set_push (id : Z) (sets : list (list Z)) : list (list Z) :=
  match sets with
  | [] => []
  | [n] => [n ++ [id]]
  | n :: sets => n :: set_push id sets
  end.

Definition cyanfs_journal_loader_commit_extent (follow : Z * bool) (w : world) : option world :=
  t ← get_loader l w;
  let '(id, journals) := follow in
  bug_on (bool_decide (id ∈ ld_visited t));;
  let sets := if journals then ld_journals t ++ [[]] else ld_journals t in
  let w := upd_loader l (λ t, set_ld_journals (set_push id sets) (set_ld_visited ({[id]} ∪ ld_visited t) t)) w in
  let w := upd_cursor_of (loader_buf l) (λ c, set_cur_extent_id id (set_cur_extent_off 0 c)) w in
  cyanfs_journal_loader_read_page w.

(** [struct cyanfs_journal_record_info] *)
Record cyanfs_journal_record_info := mk_info {
  ri_regular_count : Z; ri_next : option Z }.

(** The loop of [cyanfs_journal_validate_record] from entry [i] on: [p] is
    the rest of the record; the bytes after the last entry are returned. *)
Fixpoint validate_loop (n : nat) (p : list Z) (info : cyanfs_journal_record_info)
    : option (cyanfs_err + cyanfs_journal_record_info * list Z) :=
  match n with
  | O => Some (inr (info, p))
  | S n' =>
      r ← cyanfs_journal_decode_entry_checked p;
      match r with
      | inl _ => Some (inl ERR_INVAL)
      | inr (J_NEXT backend, p) =>
          if (0 <? Z.of_nat n') then Some (inl ERR_INVAL)
          else validate_loop n' p (mk_info (ri_regular_count info) (Some backend))
      | inr (_, p) =>
          validate_loop n' p (mk_info (u16 (ri_regular_count info + 1)) (ri_next info))
      end
  end.

Definition cyanfs_journal_validate_record (p : list Z) (count : Z)
    : option (cyanfs_err + cyanfs_journal_record_info) :=
  if count =? 0 then Some (inl ERR_INVAL) else
  r ← validate_loop (Z.to_nat count) p (mk_info 0 None);
  match r with
  | inl e => Some (inl e)
  | inr (info, p) =>
      if CYANFS_JOURNAL_BLOCK_SIZE <=? Z.of_nat (length p) then Some (inl ERR_INVAL)
      else Some (inr info)
  end.

(** The second pass over the record: parse its entries, NEXT excepted. *)
Fixpoint parse_entries (n : nat) (p : list Z) (w : world) : option (bool * world) :=
  match n with
  | O => Some (true, w)
  | S n =>
      r ← cyanfs_journal_decode_entry_checked p;
      match r with
      | inl _ => Some (false, w)
      | inr (J_NEXT _, p) => parse_entries n p w
      | inr (j, p) =>
          '(st, w) ← op_parser ops j w;
          if failed st then Some (false, w) else parse_entries n p w
      end
  end.
End loader.

Section parser.
Context (l : loader_ref) (ops : loader_operations).

(** The label [done] of [cyanfs_journal_loader_parser_page]. *)
Definition parser_done (follow_end : bool) (w : world) : option world :=
  t ← get_loader l w;
  cyanfs_journal_loader_end l ops
    (negb (ld_end_id t =? cyanfs_extent_id_invalid) && negb follow_end) w.

(** A record that passed the checks of the header: validate its entries,
    parse them and go on.  [k] is the rest of the loop, after the cursor
    was moved past the record. *)
Definition parse_record (h : cyanfs_journal_header) (p : list Z) (k : world → option world) (w : world)
    : option world :=
  t ← get_loader l w;
  c ← get_cursor (loader_buf l) w;
  let entries := drop (Z.to_nat CYANFS_JOURNAL_HEADER_SIZE) (take (Z.to_nat (jh_size h)) p) in
  r ← cyanfs_journal_validate_record entries (jh_count h);
  match r with
  | inl _ => cyanfs_journal_loader_end l ops true w
  | inr info =>
      if bool_decide (ri_next info = None) && (jh_size h =? u64 (CYANFS_EXTENT_SIZE - cur_extent_off c))
      then cyanfs_journal_loader_end l ops true w
      else if U64_MAX - cur_seq c <? ri_regular_count info
      then cyanfs_journal_loader_end l ops true w
      else
        let follow_end :=
          match ri_next info with
          | Some next_id => negb (ld_end_id t =? cyanfs_extent_id_invalid) && (next_id =? ld_end_id t)
          | None => false
          end in
        '(follow, w) ←
          match ri_next info with
          | Some next_id =>
              if follow_end then Some (inr None, w)
              else '(r, w) ← cyanfs_journal_loader_prepare_extent l next_id w;
                   Some (match r with inl e => inl e | inr f => inr (Some f) end, w)
          | None => Some (inr None, w)
          end;
        match follow : cyanfs_err + option (Z * bool) with
        | inl _ => cyanfs_journal_loader_end l ops true w
        | inr follow =>
            '(ok, w) ← parse_entries ops (Z.to_nat (jh_count h)) entries w;
            if negb ok then cyanfs_journal_loader_end l ops true w else
            let w := upd_cursor_of (loader_buf l)
                       (λ c, set_cur_seq (u64 (cur_seq c + ri_regular_count info)) c) w in
            if follow_end then parser_done true w
            else match follow with
                 | Some f => cyanfs_journal_loader_commit_extent l f w
                 | None =>
                     k (upd_cursor_of (loader_buf l)
                          (λ c, set_cur_extent_off (u64 (cur_extent_off c + jh_size h)) c) w)
                 end
        end
  end.

(** The loop over the records of the page: [p] is the page from
    [offset_in_page] to its end. *)
Fixpoint page_loop (fuel : nat) (p : list Z) (offset_in_page : Z) (w : world) : option world :=
  match fuel with
  | O => None
  | S fuel =>
      t ← get_loader l w;
      c ← get_cursor (loader_buf l) w;
      if bool_decide (p = []) then parser_done false w else
      r ← cyanfs_journal_decode_header_checked p;
      match r with
      | inl _ => parser_done false w
      | inr h =>
          if (jh_size h <? CYANFS_JOURNAL_HEADER_SIZE) || (CYANFS_JOURNAL_PAGE_SIZE <? jh_size h) ||
             (CYANFS_EXTENT_SIZE <? u64 (cur_extent_off c + jh_size h))
          then parser_done false w
          else if Z.of_nat (length p) <? jh_size h then
            if offset_in_page =? 0 then parser_done false w
            else cyanfs_journal_loader_read_page l w
          else if negb (cyanfs_crc32 (uuid_seed (sh_uuid (ld_header t)))
                          (drop 4 (take (Z.to_nat (jh_size h)) p)) =? jh_crc32 h)
          then parser_done false w
          else if negb (jh_seq h =? cur_seq c) then parser_done false w
          else
            parse_record h p (λ w,
              let offset_in_page := u64 (offset_in_page + jh_size h) in
              if offset_in_page =? CYANFS_JOURNAL_PAGE_SIZE then cyanfs_journal_loader_read_page l w
              else page_loop fuel (drop (Z.to_nat (jh_size h)) p) offset_in_page w) w
      end
  end.

(** [len] is [base->read.len].  A record has at least one block, so the page
    has fewer than [length page] of them. *)
Definition cyanfs_journal_loader_parser_page_done (len : Z) (err : cyanfs_status) (w : world) : option world :=
  if failed err then cyanfs_journal_loader_end l ops true w else
  c ← get_cursor (loader_buf l) w;
  page_loop (S (length (cur_page c))) (take (Z.to_nat len) (cur_page c)) 0 w.

Definition cyanfs_journal_loader_parser_header_done (err : cyanfs_status) (w : world) : option world :=
  if failed err then cyanfs_journal_loader_end l ops true w else
  c ← get_cursor (loader_buf l) w;
  t ← get_loader l w;
  r ← cyanfs_super_parse (cur_page c);
  match r with
  | inl _ => cyanfs_journal_loader_end l ops true w
  | inr h =>
      let w := upd_loader l (set_ld_header h) w in
      let w := upd_cursor_of (loader_buf l) (set_cur_seq (sh_journal_seq h)) w in
      if negb (ld_end_id t =? cyanfs_extent_id_invalid) && (sh_journal_id h =? ld_end_id t)
      then cyanfs_journal_loader_end l ops false w
      else
        '(r, w) ← cyanfs_journal_loader_prepare_extent l (sh_journal_id h) w;
        match r with
        | inl _ => cyanfs_journal_loader_end l ops true w
        | inr follow => cyanfs_journal_loader_commit_extent l follow w
        end
  end.
End parser.

(** ** The writer *)
Record writer_operations := {
  wop_flush : option (world → option world);
  wop_finish : world → option world;
  wop_error : world → option world }.

Definition cyanfs_journal_writer_init : cyanfs_task_journal_writer := mk_writer [] cyanfs_extent_id_invalid.

Definition cyanfs_journal_writer_start (r : writer_ref) (w : world) : world :=
  task_add_tail (mk_task CYANFS_TASK_NOP (cyanfs_journal_writer_encode r)) w.

(** The loop that selects the entries of a record: the ones selected, the
    bytes used, the rest of the list and whether one of them asks for a flush.
    [None] for an invalid entry. *)
Fixpoint select_entries (payload_limit : Z) (head : list cyanfs_journal_entry) (used : Z) (flush : bool)
    : option (list cyanfs_journal_entry * Z * list cyanfs_journal_entry * bool) :=
  match head with
  | [] => Some ([], used, [], flush)
  | j :: head' =>
      let entry_size := cyanfs_journal_entry_size (j_type (j_body j)) in
      if bool_decide (j_type (j_body j) = CYANFS_JOURNAL_NEXT) then None
      else if (payload_limit <? used) || (u64 (payload_limit - used) <? entry_size)
      then Some ([], used, head, flush)
      else
        '(sel, used, rest, flush) ← select_entries payload_limit head' (used + entry_size) (flush || j_flush j);
        Some (j :: sel, used, rest, flush)
  end.

(** The padding up to the next block. *)
Definition block_padding (used : Z) : Z :=
  Z.land (u64 (CYANFS_JOURNAL_BLOCK_SIZE - Z.land used CYANFS_JOURNAL_BLOCK_MASK)) CYANFS_JOURNAL_BLOCK_MASK.

(** What one record holds: the selected entries and the rest, the number of
    bytes of the record before padding and its size, whether it ends with a
    NEXT entry and whether that is the final link of the writer. *)
Record record_plan := mk_plan {
  rp_sel : list cyanfs_journal_entry; rp_rest : list cyanfs_journal_entry;
  rp_used : Z; rp_size : Z; rp_need_next : bool; rp_final_link : bool; rp_flush : bool }.

(** The checks and the layout of [cyanfs_journal_writer_encode], up to the
    choice of the next extent; [None] is a [goto error]. *)
Definition plan_record (head : list cyanfs_journal_entry) (next_id extent_off seq : Z) : option record_plan :=
  if (CYANFS_EXTENT_SIZE <=? extent_off) || negb (Z.land extent_off CYANFS_JOURNAL_BLOCK_MASK =? 0) then None else
  let extent_remaining := CYANFS_EXTENT_SIZE - extent_off in
  let record_capacity :=
    if CYANFS_JOURNAL_PAGE_SIZE <? extent_remaining then CYANFS_JOURNAL_PAGE_SIZE else extent_remaining in
  if (record_capacity <? CYANFS_JOURNAL_BLOCK_SIZE) || (record_capacity <? CYANFS_JOURNAL_TAIL_SIZE) then None else
  let payload_limit := record_capacity - CYANFS_JOURNAL_TAIL_SIZE in
  '(sel, used, rest, flush) ← select_entries payload_limit head CYANFS_JOURNAL_HEADER_SIZE false;
  let regular_count := u16 (Z.of_nat (length sel)) in
  if regular_count =? 0 then None else
  if U64_MAX - seq <? regular_count then None else
  let padding := block_padding used in
  if (record_capacity <? used) || (record_capacity - used <? padding) then None else
  let at_extent_end := used + padding =? extent_remaining in
  let final_link := bool_decide (rest = []) && negb (next_id =? cyanfs_extent_id_invalid) in
  let need_next := at_extent_end || final_link in
  if need_next && (record_capacity - used <? CYANFS_JOURNAL_TAIL_SIZE) then None else
  let final_used := if need_next then used + CYANFS_JOURNAL_TAIL_SIZE else used in
  let padding := block_padding final_used in
  if record_capacity - final_used <? padding then None else
  Some (mk_plan sel rest final_used (final_used + padding) need_next final_link flush).

(** The entries and the header of a record, encoded over the old page. *)
Definition encode_record (seed : Z) (sel : list journal_body) (new_extent : option Z) (seq size : Z) (page : list Z)
    : list Z :=
  let bodies := sel ++ match new_extent with Some id => [J_NEXT id] | None => [] end in
  let payload := mjoin (cyanfs_journal_encode_entry <$> bodies) in
  let h := mk_jheader 0 seq size (u16 (Z.of_nat (length bodies))) in
  let p := cyanfs_journal_encode_header h ++ payload ++
           drop (Z.to_nat CYANFS_JOURNAL_HEADER_SIZE + length payload) page in
  let crc32 := cyanfs_crc32 seed (drop 4 (take (Z.to_nat size) p)) in
  cyanfs_journal_encode_header (mk_jheader crc32 seq size (u16 (Z.of_nat (length bodies)))) ++
  drop (Z.to_nat CYANFS_JOURNAL_HEADER_SIZE) p.

Section writer.
Context (r : writer_ref) (ops : writer_operations).

(** Where the next record goes when this one ends with a NEXT entry; [None]
    in the result when no extent is free. *)
Definition choose_next (plan : record_plan) (next_id : Z) (w : world) : option (option (option Z) * world) :=
  if rp_need_next plan then
    if rp_final_link plan then Some (Some (Some next_id), w)
    else
      match __cyanfs_super_find_nearly_extent (w_super w) 0 with
      | None => Some (None, upd_super __cyanfs_super_mark_error w)
      | Some n =>
          s ← __cyanfs_extent_super_to_super n T_FREE T_JOURNAL (w_super w);
          e ← nodes s !! n;
          Some (Some (Some (ext_backend e)), set_w_super s w)
      end
  else Some (Some None, w).

Definition cyanfs_journal_writer_encode_done (err : cyanfs_status) (w : world) : option world :=
  if failed err || has_flag (w_super w) CYANFS_SUPER_FLAG_ERROR then wop_error ops w else
  t ← get_writer r w;
  if bool_decide (wr_head t = []) then wop_finish ops w else
  c ← get_cursor (writer_buf r) w;
  match plan_record (wr_head t) (wr_next_id t) (cur_extent_off c) (cur_seq c) with
  | None => wop_error ops w
  | Some plan =>
      '(next, w) ← choose_next plan (wr_next_id t) w;
      match next with
      | None => wop_error ops w
      | Some new_extent =>
          let page := encode_record (uuid_seed (sm_uuid (s_meta (w_super w)))) (j_body <$> rp_sel plan)
                        new_extent (cur_seq c) (rp_size plan) (cur_page c) in
          let w := upd_writer r (set_wr_head (rp_rest plan)) w in
          let w := upd_cursor_of (writer_buf r)
                     (λ c, set_cur_seq (u64 (cur_seq c + u16 (Z.of_nat (length (rp_sel plan))))) (set_cur_page page c)) w in
          let task := mk_task
            (CYANFS_TASK_WRITE (cyanfs_map_extent_offset (cur_extent_id c) (cur_extent_off c))
               (rp_size plan) (writer_buf r)) (cyanfs_journal_writer_encode r) in
          w ← match wop_flush ops with
              | Some flush =>
                  let w := task_add_head task w in
                  if rp_flush plan then flush w else Some w
              | None => Some (task_add_tail task w)
              end;
          Some (upd_cursor_of (writer_buf r)
            (λ c, match new_extent with
                  | Some id =>
                      if id =? cyanfs_extent_id_invalid
                      then set_cur_extent_off (u64 (cur_extent_off c + rp_size plan)) c
                      else set_cur_extent_off 0 (set_cur_extent_id id c)
                  | None => set_cur_extent_off (u64 (cur_extent_off c + rp_size plan)) c
                  end) w)
      end
  end.
End writer.
