(* ===== verification/JournalRecord.v ===== *)
(** * JournalRecord: the records of the journal

    What [cyanfs_journal_writer_encode] writes, [cyanfs_journal_loader_parser_page]
    reads back: the layout of a record ([plan_record]) always fits, makes
    progress and stays inside its extent, and the bytes of the record pass
    every check of the loader and decode to the entries that were selected. *)
From Stdlib Require Import ZArith Lia.
From S2P Require Import Prelude Base Journal Types Super World JournalIO.

Ltac jconsts :=
  change CYANFS_EXTENT_SIZE with 1048576 in *; change CYANFS_JOURNAL_PAGE_SIZE with 65536 in *;
  change CYANFS_JOURNAL_BLOCK_SIZE with 512 in *; change CYANFS_JOURNAL_BLOCK_MASK with 511 in *;
  change CYANFS_JOURNAL_HEADER_SIZE with 15 in *; change CYANFS_JOURNAL_TAIL_SIZE with 5 in *;
  change U64_MAX with 18446744073709551615 in *.

(** ** Layout *)
Definition entries_size (js : list journal_body) : Z :=
  foldr (λ j n, cyanfs_journal_entry_size (j_type j) + n) 0 js.

Lemma entry_size_bounds t : 5 ≤ cyanfs_journal_entry_size t ≤ 145.
Proof. destruct t; simpl; lia. Qed.

Lemma entry_size_regular j : j_type j ≠ CYANFS_JOURNAL_NEXT → 9 ≤ cyanfs_journal_entry_size (j_type j).
Proof. destruct j; simpl; try done; lia. Qed.

Lemma entries_size_app js js' : entries_size (js ++ js') = entries_size js + entries_size js'.
Proof. unfold entries_size. induction js as [|j js IH]; simpl; [lia|]. rewrite IH. lia. Qed.

Definition regular (js : list cyanfs_journal_entry) : Prop :=
  Forall (λ j, j_type (j_body j) ≠ CYANFS_JOURNAL_NEXT) js.

(** The entries of a record never hold a NEXT, so each takes 9 bytes. *)
Lemma entries_size_length js :
  regular js → 9 * Z.of_nat (length js) ≤ entries_size (j_body <$> js).
Proof.
  induction 1 as [|j js Hj Hjs IH]; [simpl; lia|]. apply entry_size_regular in Hj.
  cbn [length fmap list_fmap]. unfold entries_size in *. cbn [foldr]. lia.
Qed.

Lemma block_padding_eq used : 0 ≤ used ≤ 65536 → block_padding used = (- used) mod 512.
Proof.
  intros Hu. unfold block_padding. jconsts.
  change 511 with (2 ^ 9 - 1). rewrite !land_mask by lia. change (2 ^ 9) with 512.
  pose proof (Z.mod_pos_bound used 512 ltac:(lia)). rewrite u64_small by lia.
  Z.div_mod_to_equations. lia.
Qed.

Lemma select_spec limit head used flush :
  regular head → 0 ≤ used ≤ limit → limit < 65536 →
  ∃ sel rest fl, select_entries limit head used flush =
      Some (sel, used + entries_size (j_body <$> sel), rest, fl) ∧
    head = sel ++ rest ∧ used + entries_size (j_body <$> sel) ≤ limit ∧
    fl = flush || existsb j_flush sel ∧
    (∀ j rest', rest = j :: rest' →
       limit < used + entries_size (j_body <$> sel) + cyanfs_journal_entry_size (j_type (j_body j))).
Proof.
  intros Hr. revert used flush. induction Hr as [|j head Hj Hr IH]; intros used flush Hu Hl.
  - exists [], [], flush. cbn. rewrite Z.add_0_r, orb_false_r. split_and!; try done. lia.
  - cbn [select_entries]. rewrite bool_decide_false by done.
    pose proof (entry_size_bounds (j_type (j_body j))) as Hb.
    destruct (Z.ltb_spec limit used); [lia|]. cbn [orb]. rewrite u64_small by lia.
    destruct (Z.ltb_spec (limit - used) (cyanfs_journal_entry_size (j_type (j_body j)))).
    + exists [], (j :: head), flush. cbn [fmap list_fmap entries_size foldr existsb]. rewrite Z.add_0_r, orb_false_r.
      split_and!; try done; try lia. intros ? ? [= -> ->]. lia.
    + destruct (IH (used + cyanfs_journal_entry_size (j_type (j_body j))) (flush || j_flush j))
        as (sel & rest & fl & E & -> & Hle & -> & Hn); [lia|done|].
      exists (j :: sel), rest, (flush || existsb j_flush (j :: sel)).
      rewrite E. cbn [mbind option_bind]. unfold entries_size in *. cbn [fmap list_fmap foldr existsb] in *.
      rewrite !Z.add_assoc, !orb_assoc in *. by split_and!.
Qed.

(** The layout of a record at [extent_off]. *)
Record plan_ok (head : list cyanfs_journal_entry) (next_id extent_off : Z) (p : record_plan) : Prop := {
  po_split : head = rp_sel p ++ rp_rest p;
  po_progress : rp_sel p ≠ [];
  po_used : rp_used p = CYANFS_JOURNAL_HEADER_SIZE + entries_size (j_body <$> rp_sel p) +
    (if rp_need_next p then CYANFS_JOURNAL_TAIL_SIZE else 0);
  po_pad : rp_used p ≤ rp_size p < rp_used p + CYANFS_JOURNAL_BLOCK_SIZE;
  po_block : rp_size p mod CYANFS_JOURNAL_BLOCK_SIZE = 0;
  po_page : rp_size p ≤ CYANFS_JOURNAL_PAGE_SIZE;
  po_extent : extent_off + rp_size p ≤ CYANFS_EXTENT_SIZE;
  po_inside : rp_need_next p = false → extent_off + rp_size p < CYANFS_EXTENT_SIZE;
  po_link : rp_final_link p = bool_decide (rp_rest p = []) && negb (next_id =? cyanfs_extent_id_invalid);
  po_next : rp_final_link p = true → rp_need_next p = true;
  po_flush : rp_flush p = existsb j_flush (rp_sel p) }.

(** The cursor is at a block of an extent. *)
Definition cursor_ok (extent_off : Z) : Prop :=
  0 ≤ extent_off < CYANFS_EXTENT_SIZE ∧ extent_off mod CYANFS_JOURNAL_BLOCK_SIZE = 0.

Lemma align_512 used : let pad := (- used) mod 512 in
  0 ≤ pad < 512 ∧ (used + pad) mod 512 = 0 ∧ (∀ c, c mod 512 = 0 → used ≤ c → used + pad ≤ c).
Proof.
  cbn zeta. split; [by apply Z.mod_pos_bound|]. split; [Z.div_mod_to_equations; lia|].
  intros c Hc Hle. Z.div_mod_to_equations. lia.
Qed.

Lemma plan_spec head next_id extent_off seq :
  regular head → head ≠ [] → cursor_ok extent_off → 0 ≤ seq ≤ U64_MAX - 65536 →
  ∃ p, plan_record head next_id extent_off seq = Some p ∧ plan_ok head next_id extent_off p.
Proof.
  intros Hr Hne [Ho Hal] Hseq. unfold plan_record. jconsts.
  destruct (Z.leb_spec 1048576 extent_off); [lia|]. cbn [orb].
  assert (Z.land extent_off 511 = 0) as -> by (change 511 with (2 ^ 9 - 1); by rewrite land_mask by lia). cbn [negb Z.eqb].
  set (rem := 1048576 - extent_off). set (cap := if 65536 <? rem then 65536 else rem).
  assert (Hcap : 512 ≤ cap ≤ 65536 ∧ cap ≤ rem ∧ cap mod 512 = 0).
  { assert (Hrem : 512 ≤ rem ∧ rem mod 512 = 0) by (unfold rem; Z.div_mod_to_equations; lia).
    unfold cap. destruct (Z.ltb_spec 65536 rem); split_and!; try lia; first [done|apply Hrem]. }
  destruct (Z.ltb_spec cap 512); [lia|]. destruct (Z.ltb_spec cap 5); [lia|]. cbn [orb].
  destruct (select_spec (cap - 5) head 15 false Hr) as (sel & rest & fl & E & Hsp & Hle & Hfl & Hn); [lia..|].
  assert (Hsel : sel ≠ []).
  { intros ->. destruct rest as [|j rest]; [by rewrite Hsp in Hne|]. specialize (Hn j rest eq_refl).
    pose proof (entry_size_bounds (j_type (j_body j))). cbn in Hn. lia. }
  assert (Hreg : regular sel) by (rewrite Hsp in Hr; by apply Forall_app in Hr as [? _]).
  pose proof (entries_size_length sel Hreg) as Hlen.
  assert (0 < Z.of_nat (length sel)) by (destruct sel; [done|simpl; lia]).
  rewrite E. cbn [mbind option_bind]. set (used := 15 + entries_size (j_body <$> sel)) in *.
  rewrite u16_small by lia. destruct (Z.eqb_spec (Z.of_nat (length sel)) 0); [lia|].
  destruct (Z.ltb_spec (18446744073709551615 - seq) (Z.of_nat (length sel))); [lia|].
  rewrite block_padding_eq by lia. destruct (align_512 used) as (Hp & Hm & Hc).
  destruct (Z.ltb_spec cap used); [lia|]. specialize (Hc cap) as Hc1.
  destruct (Z.ltb_spec (cap - used) ((- used) mod 512)); [lia|]. cbn [orb].
  set (final := bool_decide (rest = []) && negb (next_id =? cyanfs_extent_id_invalid)).
  set (need := (used + (- used) mod 512 =? rem) || final).
  destruct (Z.ltb_spec (cap - used) 5); [lia|]. rewrite andb_false_r.
  set (used' := if need then used + 5 else used).
  assert (Hu' : used ≤ used' ≤ cap) by (unfold used'; destruct need; lia).
  rewrite block_padding_eq by lia. destruct (align_512 used') as (Hp' & Hm' & Hc').
  specialize (Hc' cap). destruct (Z.ltb_spec (cap - used') ((- used') mod 512)); [lia|].
  eexists. split; [done|].
  split; cbn [rp_sel rp_rest rp_used rp_size rp_need_next rp_final_link rp_flush]; jconsts; try done; try lia.
  - unfold used', used. destruct need; lia.
  - intros Hneed. assert (used' = used) as -> by (unfold used'; by rewrite Hneed).
    apply orb_false_iff in Hneed as [Hend%Z.eqb_neq _]. unfold rem in *. lia.
  - unfold need. intros ->. by rewrite orb_true_r.
Qed.

(** ** The bytes of a record *)
Definition record_bodies (sel : list journal_body) (next : option Z) : list journal_body :=
  sel ++ match next with Some id => [J_NEXT id] | None => [] end.

Definition payload (js : list journal_body) : list Z := mjoin (cyanfs_journal_encode_entry <$> js).

Lemma payload_cons j js : payload (j :: js) = cyanfs_journal_encode_entry j ++ payload js.
Proof. done. Qed.

Lemma length_payload js : Forall entry_ok js → Z.of_nat (length (payload js)) = entries_size js.
Proof.
  induction 1 as [|j js Hj Hjs IH]; [done|]. rewrite payload_cons, length_app, Nat2Z.inj_add, IH, length_encode_entry by done.
  done.
Qed.

Lemma payload_bytes js : Forall entry_ok js → Forall is_byte (payload js).
Proof. induction 1; [constructor|]. rewrite payload_cons. apply Forall_app. auto using encode_entry_bytes. Qed.

(** The header of the record, with the checksum of what follows it. *)
Definition record_header (seed seq size : Z) (bodies : list journal_body) (pad : list Z) : cyanfs_journal_header :=
  let h := mk_jheader 0 seq size (u16 (Z.of_nat (length bodies))) in
  mk_jheader (cyanfs_crc32 seed (drop 4 (cyanfs_journal_encode_header h) ++ payload bodies ++ pad))
    seq size (u16 (Z.of_nat (length bodies))).

(** The first [size] bytes of the encoded page: header, entries, padding. *)
Lemma encode_record_take seed sel next seq size page pad :
  let bodies := record_bodies sel next in
  pad = take (Z.to_nat size - 15 - length (payload bodies)) (drop (15 + length (payload bodies)) page) →
  15 + Z.of_nat (length (payload bodies)) ≤ size →
  take (Z.to_nat size) (encode_record seed sel next seq size page) =
  cyanfs_journal_encode_header (record_header seed seq size bodies pad) ++ payload bodies ++ pad.
Proof.
  intros bodies -> Hsz. unfold encode_record. fold (record_bodies sel next). fold bodies. fold (payload bodies).
  set (h := mk_jheader 0 seq size (u16 (Z.of_nat (length bodies)))). jconsts.
  change (Z.to_nat 15) with 15%nat.
  rewrite (drop_app_length' (cyanfs_journal_encode_header h)) by (by rewrite length_encode_jheader).
  set (tail := drop (15 + length (payload bodies)) page).
  assert (Htake : ∀ h', take (Z.to_nat size) (cyanfs_journal_encode_header h' ++ payload bodies ++ tail) =
    cyanfs_journal_encode_header h' ++ payload bodies ++ take (Z.to_nat size - 15 - length (payload bodies)) tail).
  { intros h'. rewrite take_app, length_encode_jheader, take_ge by (rewrite length_encode_jheader; lia).
    f_equal. rewrite take_app, take_ge by lia. done. }
  rewrite !Htake. unfold record_header. fold h. rewrite drop_app, length_encode_jheader.
  change (4 - 15)%nat with 0%nat. by rewrite drop_0.
Qed.

Lemma crc_range_u32 seed l : is_u32 seed → Forall is_byte l → is_u32 (cyanfs_crc32 seed l).
Proof.
  unfold is_u32, U32_MAX. intros Hs Hl. pose proof (crc32_range seed l ltac:(lia) Hl). change (2 ^ 32) with 4294967296 in *. lia.
Qed.

Lemma encode_jheader_bytes h : Forall is_byte (cyanfs_journal_encode_header h).
Proof.
  unfold cyanfs_journal_encode_header. rewrite !Forall_app. split_and!; try apply le_bytes_is_byte.
  constructor; [apply u8_range|constructor].
Qed.

(** What the record is made from. *)
Record record_ok (seed seq size : Z) (sel : list journal_body) (next : option Z) (pad : list Z) : Prop := {
  ro_seed : is_u32 seed;
  ro_seq : 0 ≤ seq ≤ U64_MAX - 65536;
  ro_size : Z.of_nat (15 + length (payload (record_bodies sel next)) + length pad) = size;
  ro_block : size mod CYANFS_JOURNAL_BLOCK_SIZE = 0;
  ro_page : size ≤ CYANFS_JOURNAL_PAGE_SIZE;
  ro_pad : (length pad < 512)%nat;
  ro_pad_bytes : Forall is_byte pad;
  ro_entries : Forall entry_ok (record_bodies sel next);
  ro_regular : Forall (λ j, j_type j ≠ CYANFS_JOURNAL_NEXT) sel;
  ro_nonempty : sel ≠ [] }.

Definition record_bytes (seed seq size : Z) (sel : list journal_body) (next : option Z) (pad : list Z) : list Z :=
  let bodies := record_bodies sel next in
  cyanfs_journal_encode_header (record_header seed seq size bodies pad) ++ payload bodies ++ pad.

Section record.
Context (seed seq size : Z) (sel : list journal_body) (next : option Z) (pad : list Z).
Context (Hok : record_ok seed seq size sel next pad).
Let bodies := record_bodies sel next.
Let h := record_header seed seq size bodies pad.

Lemma record_count : 1 ≤ Z.of_nat (length bodies) ≤ 65536 / 9 + 1 ∧ 1 ≤ Z.of_nat (length sel) ≤ 65536 / 9.
Proof.
  destruct Hok as [_ _ Hsz _ Hpg _ _ He Hr Hne]. jconsts. fold bodies in Hsz, He.
  rewrite !Nat2Z.inj_add, length_payload in Hsz by done.
  assert (Hl : 9 * Z.of_nat (length sel) ≤ entries_size sel).
  { clear -Hr. induction Hr as [|j js Hj Hjs IH]; [simpl; lia|]. apply entry_size_regular in Hj.
    unfold entries_size in *. cbn [foldr length]. lia. }
  unfold bodies, record_bodies in *. rewrite entries_size_app in Hsz. rewrite length_app.
  assert (0 < length sel)%nat by (destruct sel; [done|simpl; lia]).
  change (65536 / 9) with 7281.
  destruct next; cbn [length] in *; [change (entries_size [J_NEXT z]) with 5 in Hsz|change (entries_size []) with 0 in Hsz]; lia.
Qed.

Lemma record_header_ok : jheader_ok h.
Proof.
  pose proof record_count as [Hc _]. change (65536 / 9) with 7281 in Hc.
  destruct Hok as [Hs Hq Hsz Hb Hpg _ Hpb He _ _]. jconsts. unfold jheader_ok, h, record_header. jconsts.
  cbn [jh_crc32 jh_seq jh_size jh_count]. fold bodies in He. split_and!.
  - apply crc_range_u32; [done|]. rewrite !Forall_app. split_and!; [|by apply payload_bytes|done].
    apply Forall_drop, encode_jheader_bytes.
  - unfold is_u64, U64_MAX. lia.
  - apply u16_range.
  - apply u16_range.
  - lia.
  - lia.
  - done.
Qed.

Lemma record_length : Z.of_nat (length (record_bytes seed seq size sel next pad)) = size.
Proof.
  unfold record_bytes. rewrite !length_app, length_encode_jheader. pose proof (ro_size _ _ _ _ _ _ Hok). lia.
Qed.

(** The loader's checks of the header and of the checksum. *)
Lemma record_decode tail :
  cyanfs_journal_decode_header_checked (record_bytes seed seq size sel next pad ++ tail) = Some (inr h).
Proof. unfold record_bytes. rewrite <- app_assoc. apply journal_header_roundtrip, record_header_ok. Qed.

Lemma record_take tail :
  take (Z.to_nat size) (record_bytes seed seq size sel next pad ++ tail) = record_bytes seed seq size sel next pad.
Proof. rewrite take_app_length'; [done|]. pose proof record_length. lia. Qed.

Lemma record_checksum :
  cyanfs_crc32 seed (drop 4 (record_bytes seed seq size sel next pad)) = jh_crc32 h.
Proof.
  unfold record_bytes. fold bodies. fold h. rewrite drop_app, length_encode_jheader.
  change (4 - 15)%nat with 0%nat. rewrite drop_0. done.
Qed.
End record.

(** ** What the writer writes *)
Definition next_of (p : record_plan) (next : option Z) : Prop :=
  match next with Some id => rp_need_next p = true ∧ is_u32 id | None => rp_need_next p = false end.

Lemma written_record seed head next_id off seq p next page :
  is_u32 seed → 0 ≤ seq ≤ U64_MAX - 65536 → plan_ok head next_id off p → next_of p next →
  regular head → Forall (λ j, entry_ok (j_body j)) head →
  length page = Z.to_nat CYANFS_JOURNAL_PAGE_SIZE → Forall is_byte page →
  ∃ pad, take (Z.to_nat (rp_size p)) (encode_record seed (j_body <$> rp_sel p) next seq (rp_size p) page) =
         record_bytes seed seq (rp_size p) (j_body <$> rp_sel p) next pad ∧
    record_ok seed seq (rp_size p) (j_body <$> rp_sel p) next pad.
Proof.
  intros Hs Hq Hp Hnx Hr He Hpl Hpb. destruct Hp as [Hsp Hne Hu Hpad Hb Hpg _ _ _ _ _]. jconsts.
  rewrite Hsp in Hr, He. apply Forall_app in Hr as [Hr _], He as [He _].
  set (bodies := record_bodies (j_body <$> rp_sel p) next).
  assert (Hbe : Forall entry_ok bodies).
  { apply Forall_app. split; [by apply Forall_fmap|]. destruct next; [|constructor]. constructor; [apply Hnx|constructor]. }
  assert (Hbs : 15 + entries_size bodies = rp_used p).
  { unfold bodies, record_bodies. rewrite entries_size_app, Hu. destruct next; simpl in Hnx.
    - destruct Hnx as [-> _]. change (entries_size [J_NEXT z]) with 5. lia.
    - rewrite Hnx. change (entries_size []) with 0. lia. }
  pose proof (length_payload bodies Hbe) as Hlp.
  set (pad := take (Z.to_nat (rp_size p) - 15 - length (payload bodies)) (drop (15 + length (payload bodies)) page)).
  assert (Hpd : length pad = (Z.to_nat (rp_size p) - 15 - length (payload bodies))%nat).
  { unfold pad. rewrite length_take, length_drop, Hpl. lia. }
  exists pad. split.
  - apply encode_record_take; [done|]. fold bodies. lia.
  - split; jconsts; try done; fold bodies; try lia.
    + by apply Forall_take, Forall_drop.
    + by apply Forall_fmap.
    + intros E. by apply fmap_nil_inv in E.
Qed.

Lemma plan_nil next_id off seq : plan_record [] next_id off seq = None.
Proof. unfold plan_record. repeat (case_match; try done). Qed.

Lemma plan_sound head next_id off seq p :
  regular head → cursor_ok off → 0 ≤ seq ≤ U64_MAX - 65536 →
  plan_record head next_id off seq = Some p → plan_ok head next_id off p.
Proof.
  intros Hr Ho Hq Hp. destruct (plan_spec head next_id off seq) as (p' & Hp' & Hok); try done.
  - intros ->. by rewrite plan_nil in Hp.
  - congruence.
Qed.

(** ** Example: a record with two entries, at the start of an extent. *)
Definition ex_uuid : cyanfs_uuid_t := seqZ 1 16.
Definition ex_entries : list cyanfs_journal_entry :=
  mk_entry false <$> [J_CREATE (short_name [97]) 1; J_TRUNCATE 1 1572864].
Definition ex_page : list Z := replicate (Z.to_nat CYANFS_JOURNAL_PAGE_SIZE) 0.
Definition ex_plan : record_plan := mk_plan ex_entries [] 169 512 false false false.

Lemma ex_entries_ok : regular ex_entries ∧ Forall (λ j, entry_ok (j_body j)) ex_entries.
Proof.
  assert (Hn : is_name (short_name [97])) by (apply short_name_normal; [simpl; lia|by apply Forall_singleton]). split.
  - by repeat (apply Forall_cons; split; [discriminate|]).
  - apply Forall_cons; split; [by split|]. apply Forall_cons; split; [by split|constructor].
Qed.

Lemma ex_seed : is_u32 (uuid_seed ex_uuid).
Proof. vm_compute. by split. Qed.

Lemma ex_cursor : cursor_ok 0.
Proof. done. Qed.

Lemma ex_seq : 0 ≤ 0 ≤ U64_MAX - 65536.
Proof. done. Qed.

Lemma ex_page_ok : length ex_page = Z.to_nat CYANFS_JOURNAL_PAGE_SIZE ∧ Forall is_byte ex_page.
Proof. split; [apply length_replicate|]. by apply Forall_replicate. Qed.
