(* ===== verification/JournalLoad.v ===== *)
(** * JournalLoad: the clients of the loader

    The contract between the loader of [JournalIO] and its clients (the
    opening of an instance and the compaction), as a type class: the parser
    implements the meaning of an entry on an abstract state the client keeps,
    and leaves the loader, its cursor and the task queue alone.  Against it,
    running a list of entries is running their meaning, and the end of a load
    claims the extents that were followed. *)
From Stdlib Require Import ZArith Lia.
From S2P Require Import Prelude Base Journal Spec Types Super World JournalIO JournalRecord.

(** What the parser leaves alone, besides the loader. *)
Definition kept (l : loader_ref) (w : world) : option cyanfs_journal_cursor * Z * list cyanfs_task * Z :=
  (get_cursor (loader_buf l) w, sm_total_extents (s_meta (w_super w)), task_head (w_super w), active_tasks (w_super w)).

(** [M w a]: the client of loader [l] has loaded the abstract state [a]. *)
Class LoaderModel (l : loader_ref) (ops : loader_operations) (M : world → astate → Prop) : Prop := {
  parser_frame j w a st w' : M w a → entry_ok j → op_parser ops j w = Some (st, w') →
    get_loader l w' = get_loader l w ∧ kept l w' = kept l w;
  parser_model j w a : M w a → entry_ok j →
    match spec_apply j a with
    | Some a' => ∃ w', op_parser ops j w = Some (ST_OK, w') ∧ M w' a'
    | None => ∃ e w', op_parser ops j w = Some (ST_ERR e, w')
    end;
  malloc_model w a : M w a → w_malloc w = [];
  cursor_model g w a : M w a → M (upd_cursor_of (loader_buf l) g w) a;
  loader_model g w a : M w a → M (upd_loader l g w) a }.

(** ** Updates of the loader and of its cursor *)
Lemma get_loader_upd_cursor l g w : get_loader l (upd_cursor_of (loader_buf l) g w) = get_loader l w.
Proof. destruct l; simpl; [done|]. by destruct (w_compact w). Qed.

Lemma get_loader_upd l g w t : get_loader l w = Some t → get_loader l (upd_loader l g w) = Some (g t).
Proof. destruct l; simpl; [by intros ->|]. by destruct (w_compact w); simpl; intros [= <-]. Qed.

Lemma kept_upd_loader l g w : kept l (upd_loader l g w) = kept l w.
Proof. unfold kept. destruct l; simpl; [done|]. by destruct (w_compact w). Qed.

Lemma kept_upd_cursor l g w c total q n :
  kept l w = (Some c, total, q, n) → kept l (upd_cursor_of (loader_buf l) g w) = (Some (g c), total, q, n).
Proof.
  unfold kept. destruct l; simpl; intros E; injection E as Hc <- <- <-; [by subst c|].
  destruct (w_compact w); simpl in *; [|done]. by injection Hc as <-.
Qed.

(** ** Running entries *)

(** The parser on a list of entries, until one is refused. *)
Fixpoint run_entries (ops : loader_operations) (js : list journal_body) (w : world) : option (bool * world) :=
  match js with
  | [] => Some (true, w)
  | j :: js =>
      '(st, w) ← op_parser ops j w;
      if failed st then Some (false, w) else run_entries ops js w
  end.

Section load.
Context (l : loader_ref) (ops : loader_operations) (M : world → astate → Prop) `{!LoaderModel l ops M}.

Lemma run_entries_model js w a :
  M w a → Forall entry_ok js →
  ∃ w', get_loader l w' = get_loader l w ∧ kept l w' = kept l w ∧
    match spec_run js a with
    | Some a' => run_entries ops js w = Some (true, w') ∧ M w' a'
    | None => run_entries ops js w = Some (false, w')
    end.
Proof.
  intros HM Hjs. revert w a HM. induction Hjs as [|j js Hj Hjs IH]; intros w a HM; cbn [spec_run run_entries].
  - by exists w.
  - pose proof (parser_model j w a HM Hj) as Hp. destruct (spec_apply j a) as [a1|]; cbn [mbind option_bind].
    + destruct Hp as (w1 & E & HM1). rewrite E. cbn [mbind option_bind failed].
      destruct (parser_frame j w a _ w1 HM Hj E) as [<- <-]. by apply IH.
    + destruct Hp as (e & w1 & E). rewrite E. cbn. exists w1. destruct (parser_frame j w a _ w1 HM Hj E) as [-> ->]. done.
Qed.

(** ** The end of a load

    The extents that were followed are claimed with NEXT entries, and the
    client is told. *)
Lemma end_set_run ids w :
  loader_end_set ops ids w = '(ok, w) ← run_entries ops (J_NEXT <$> ids) w; Some (negb ok, w).
Proof.
  revert w. induction ids as [|id ids IH]; intros w; [done|]. cbn [loader_end_set fmap list_fmap run_entries].
  destruct (op_parser ops (J_NEXT id) w) as [[st w1]|]; [|done]. cbn [mbind option_bind]. destruct (failed st); [done|apply IH].
Qed.

Lemma end_sets_true sets w : loader_end_sets ops true sets w = Some (true, w).
Proof. induction sets as [|ids sets IH]; [done|]. apply IH. Qed.

Lemma end_sets_model sets w a :
  M w a → Forall (Forall is_u32) sets →
  ∃ w', get_loader l w' = get_loader l w ∧ kept l w' = kept l w ∧
    match spec_run (J_NEXT <$> mjoin sets) a with
    | Some a' => loader_end_sets ops false sets w = Some (false, w') ∧ M w' a'
    | None => loader_end_sets ops false sets w = Some (true, w')
    end.
Proof.
  intros HM Hs. revert w a HM. induction Hs as [|ids sets Hi Hs IH]; intros w a HM; [by exists w|].
  cbn [loader_end_sets]. rewrite end_set_run. change (mjoin (ids :: sets)) with (ids ++ mjoin sets).
  rewrite fmap_app, spec_run_app. assert (Hok : Forall entry_ok (J_NEXT <$> ids)) by (by apply Forall_fmap).
  destruct (run_entries_model _ w a HM Hok) as (w1 & Hl & Hk & Hr).
  destruct (spec_run (J_NEXT <$> ids) a) as [a1|]; cbn [mbind option_bind].
  - destruct Hr as [-> HM1]. cbn [mbind option_bind negb]. rewrite <- Hl, <- Hk. by apply IH.
  - rewrite Hr. cbn [mbind option_bind negb]. rewrite end_sets_true. by exists w1.
Qed.

(** A failed load tells the client. *)
Lemma loader_end_error w :
  is_Some (get_loader l w) → ∃ w', cyanfs_journal_loader_end l ops true w = op_error ops w' ∧ kept l w' = kept l w.
Proof.
  intros [t Ht]. unfold cyanfs_journal_loader_end. rewrite Ht. cbn [mbind option_bind]. rewrite end_sets_true.
  cbn [mbind option_bind]. eexists. split; [done|]. by rewrite !kept_upd_loader.
Qed.

Lemma loader_end_model t w a :
  M w a → get_loader l w = Some t → Forall (Forall is_u32) (ld_journals t) →
  ∃ w', kept l w' = kept l w ∧
    match spec_run (J_NEXT <$> mjoin (ld_journals t)) a with
    | Some a' => cyanfs_journal_loader_end l ops false w = op_finish ops w' ∧ M w' a' ∧
        get_loader l w' = Some (set_ld_journals [] (set_ld_visited ∅ t))
    | None => cyanfs_journal_loader_end l ops false w = op_error ops w'
    end.
Proof.
  intros HM Ht Hs. unfold cyanfs_journal_loader_end. rewrite Ht. cbn [mbind option_bind].
  destruct (end_sets_model (ld_journals t) _ a (loader_model (set_ld_visited ∅) w a HM) Hs) as (w1 & Hl & Hk & He).
  exists (upd_loader l (set_ld_journals []) w1). rewrite kept_upd_loader, Hk, kept_upd_loader. split; [done|].
  destruct (spec_run _ a) as [a'|].
  - destruct He as [-> HM1]. cbn [mbind option_bind]. split_and!; [done|by apply loader_model|].
    rewrite (get_loader_upd _ _ w t) in Hl by done. by rewrite (get_loader_upd _ _ _ _ Hl).
  - rewrite He. done.
Qed.
End load.
