(* ===== verification/JournalScan.v ===== *)
(** * JournalScan: what is in the journal of a device

    A reference reader of the journal, on the contents of the extents: it
    reads the records one after the other, without pages, tasks or callbacks,
    and gives the entries of the journal and the place where it ends.  The
    loader of [JournalIO] implements it, whatever the device holds. *)
From Stdlib Require Import ZArith Lia.
From S2P Require Import Prelude Base Journal Spec Types Super World JournalIO JournalRecord JournalLoad.

(** ** The entries of a record *)
Fixpoint decode_entries (n : nat) (p : list Z) : option (list journal_body * list Z) :=
  match n with
  | O => Some ([], p)
  | S n =>
      match cyanfs_journal_decode_entry_checked p with
      | Some (inr (j, p)) => '(js, r) ← decode_entries n p; Some (j :: js, r)
      | _ => None
      end
  end.

(** The entries before the link to the next extent, which is the last. *)
Fixpoint split_next (js : list journal_body) : option (list journal_body * option Z) :=
  match js with
  | [] => Some ([], None)
  | [J_NEXT id] => Some ([], Some id)
  | J_NEXT _ :: _ => None
  | j :: js => '(sel, next) ← split_next js; Some (j :: sel, next)
  end.

Definition scan_entries (p : list Z) (count : Z) : option (list journal_body * option Z) :=
  if count =? 0 then None else
  '(js, r) ← decode_entries (Z.to_nat count) p;
  if CYANFS_JOURNAL_BLOCK_SIZE <=? Z.of_nat (length r) then None else split_next js.

Lemma split_next_cons j js : j_type j ≠ CYANFS_JOURNAL_NEXT →
  split_next (j :: js) = '(sel, next) ← split_next js; Some (j :: sel, next).
Proof. by destruct j. Qed.

Lemma split_next_link id js : split_next (J_NEXT id :: js) = if bool_decide (js = []) then Some ([], Some id) else None.
Proof. by destruct js. Qed.

Lemma decode_entries_length n p js r : decode_entries n p = Some (js, r) → length js = n.
Proof.
  revert p js. induction n as [|n IH]; intros p js; cbn [decode_entries]; [by intros [= <- <-]|].
  destruct (cyanfs_journal_decode_entry_checked p) as [[?|[j q]]|]; [done| |done].
  destruct (decode_entries n q) as [[js' r']|] eqn:E; [|done]. intros [= <- <-]. simpl. f_equal. by eapply IH.
Qed.

Lemma decode_entries_ok n p js r : Forall is_byte p → decode_entries n p = Some (js, r) → Forall entry_ok js.
Proof.
  revert p js. induction n as [|n IH]; intros p js Hb; cbn [decode_entries]; [intros [= <- _]; constructor|].
  pose proof (decode_entry_sound p Hb) as Hd.
  destruct (cyanfs_journal_decode_entry_checked p) as [[?|[j q]]|]; [done| |done]. destruct Hd as [Hj ->].
  apply Forall_app in Hb as [_ Hb]. destruct (decode_entries n q) as [[js' r']|] eqn:E; [|done]. intros [= <- <-].
  constructor; [done|]. by eapply IH.
Qed.

Lemma split_next_ok js sel next :
  Forall entry_ok js → split_next js = Some (sel, next) →
  Forall entry_ok sel ∧ (∀ id, next = Some id → is_u32 id) ∧ (length sel ≤ length js)%nat.
Proof.
  intros Hjs. revert sel. induction Hjs as [|j js Hj Hjs IH]; intros sel.
  - intros [= <- <-]. split_and!; [constructor|done|done].
  - destruct (decide (j_type j = CYANFS_JOURNAL_NEXT)) as [E|E].
    + destruct j; try done. rewrite split_next_link. case_bool_decide; [|done]. intros [= <- <-].
      split_and!; [constructor|by intros ? [= <-]|simpl; lia].
    + rewrite split_next_cons by done. destruct (split_next js) as [[sel' nx]|]; [|done]. intros [= <- <-].
      destruct (IH sel' eq_refl) as (Hs & Hn & Hl). split_and!; [by constructor|done|simpl; lia].
Qed.

(** [cyanfs_journal_validate_record] accepts the same records. *)
Lemma validate_loop_eq n p info :
  Forall is_byte p → 0 ≤ ri_regular_count info → ri_regular_count info + Z.of_nat n < 65536 →
  validate_loop n p info = Some
    match decode_entries n p with
    | None => inl ERR_INVAL
    | Some (js, r) =>
        match split_next js with
        | None => inl ERR_INVAL
        | Some (sel, next) =>
            inr (mk_info (ri_regular_count info + Z.of_nat (length sel))
                         (match next with Some _ => next | None => ri_next info end), r)
        end
    end.
Proof.
  revert p info. induction n as [|n IH]; intros p info Hb H0 Hlt; cbn [validate_loop decode_entries].
  { simpl. rewrite Z.add_0_r. by destruct info. }
  pose proof (decode_entry_sound p Hb) as Hd.
  destruct (cyanfs_journal_decode_entry_checked p) as [[?|[j q]]|]; [done| |done]. cbn [mbind option_bind].
  destruct Hd as [Hj ->]. apply Forall_app in Hb as [_ Hb].
  destruct (decide (j_type j = CYANFS_JOURNAL_NEXT)) as [E|E].
  - destruct j; try done. destruct n as [|n].
    + cbn. by rewrite Z.add_0_r.
    + replace (0 <? Z.of_nat (S n)) with true by (symmetry; apply Z.ltb_lt; lia).
      destruct (decode_entries (S n) q) as [[js r]|] eqn:Ed; [|done]. apply decode_entries_length in Ed.
      destruct js; [done|]. done.
  - assert (Hgo : validate_loop n q (mk_info (u16 (ri_regular_count info + 1)) (ri_next info)) = Some
        match '(js, r) ← decode_entries n q; Some (j :: js, r) with
        | None => inl ERR_INVAL
        | Some (js, r) => match split_next js with
            | None => inl ERR_INVAL
            | Some (sel, next) => inr (mk_info (ri_regular_count info + Z.of_nat (length sel))
                         (match next with Some _ => next | None => ri_next info end), r) end end); [|by destruct j].
    rewrite u16_small by lia. rewrite IH by (done || (simpl; lia)). cbn [ri_regular_count ri_next].
    destruct (decode_entries n q) as [[js r]|]; [|done]. cbn [mbind option_bind]. rewrite split_next_cons by done.
    destruct (split_next js) as [[sel nx]|]; [|done]. cbn. do 4 f_equal. lia.
Qed.

Lemma validate_record_eq p count :
  Forall is_byte p → 0 ≤ count < 65536 →
  cyanfs_journal_validate_record p count = Some
    match scan_entries p count with
    | None => inl ERR_INVAL
    | Some (sel, next) => inr (mk_info (Z.of_nat (length sel)) next)
    end.
Proof.
  intros Hb Hc. unfold cyanfs_journal_validate_record, scan_entries. destruct (Z.eqb_spec count 0); [done|].
  rewrite validate_loop_eq by (done || (simpl; lia)).
  destruct (decode_entries (Z.to_nat count) p) as [[js r]|]; [|done]. cbn [mbind option_bind].
  destruct (split_next js) as [[sel nx]|]; [|by destruct (_ <=? _)]. cbn [ri_regular_count ri_next]. rewrite Z.add_0_l.
  destruct (_ <=? _); [done|]. by destruct nx.
Qed.

(** The second pass parses the entries the first one accepted. *)
Lemma parse_entries_run ops n p js r sel next w :
  decode_entries n p = Some (js, r) → split_next js = Some (sel, next) → parse_entries ops n p w = run_entries ops sel w.
Proof.
  revert p js sel w. induction n as [|n IH]; intros p js sel w Hd Hs; cbn [decode_entries] in Hd.
  { injection Hd as <- <-. by injection Hs as <- <-. }
  cbn [parse_entries].
  destruct (cyanfs_journal_decode_entry_checked p) as [[?|[j q]]|]; [done| |done]. cbn [mbind option_bind].
  destruct (decode_entries n q) as [[js' r']|] eqn:Ed; [|done]. injection Hd as <- <-.
  destruct (decide (j_type j = CYANFS_JOURNAL_NEXT)) as [E|E].
  - destruct j; try done. rewrite split_next_link in Hs. case_bool_decide as Ejs; [|done]. injection Hs as <- <-.
    apply decode_entries_length in Ed. by subst js' n.
  - rewrite split_next_cons in Hs by done. destruct (split_next js') as [[sel' nx]|] eqn:Es; [|done]. injection Hs as <- <-.
    assert (Hgo : ('(st, w) ← op_parser ops j w; if failed st then Some (false, w) else parse_entries ops n q w) =
                  run_entries ops (j :: sel') w); [|by destruct j].
    cbn [run_entries]. destruct (op_parser ops j w) as [[st w']|]; [|done]. cbn [mbind option_bind].
    destruct (failed st); [done|]. by eapply IH.
Qed.

Lemma scan_entries_run ops p count sel next w :
  scan_entries p count = Some (sel, next) → parse_entries ops (Z.to_nat count) p w = run_entries ops sel w.
Proof.
  unfold scan_entries. destruct (count =? 0); [done|].
  destruct (decode_entries (Z.to_nat count) p) as [[js r]|] eqn:Ed; [|done]. cbn [mbind option_bind].
  destruct (_ <=? _); [done|]. intros Hs. by eapply parse_entries_run.
Qed.

Lemma scan_entries_ok p count sel next :
  Forall is_byte p → 0 ≤ count < 65536 → scan_entries p count = Some (sel, next) →
  Forall entry_ok sel ∧ (∀ id, next = Some id → is_u32 id) ∧ Z.of_nat (length sel) ≤ count.
Proof.
  intros Hb Hc. unfold scan_entries. destruct (count =? 0); [done|].
  destruct (decode_entries (Z.to_nat count) p) as [[js r]|] eqn:Ed; [|done]. cbn [mbind option_bind].
  destruct (_ <=? _); [done|]. intros Hs. pose proof (decode_entries_length _ _ _ _ Ed).
  apply decode_entries_ok in Ed; [|done]. destruct (split_next_ok _ _ _ Ed Hs) as (? & ? & ?). split_and!; try done. lia.
Qed.

(** ** The records of the extents *)

(** What is at a place of an extent: nothing that continues the journal, a
    record that is not well formed, or a record with its entries, the extent
    it links to and its size. *)
Inductive scan_item :=
  | SCAN_STOP
  | SCAN_BAD
  | SCAN_RECORD (sel : list journal_body) (next : option Z) (size : Z).

(** [p] is the rest of the extent from its offset [off] on. *)
Definition scan_record (seed off seq : Z) (p : list Z) : scan_item :=
  match cyanfs_journal_decode_header_checked p with
  | Some (inr h) =>
      let r := take (Z.to_nat (jh_size h)) p in
      if (jh_size h <? CYANFS_JOURNAL_HEADER_SIZE) || (CYANFS_JOURNAL_PAGE_SIZE <? jh_size h) ||
         (CYANFS_EXTENT_SIZE <? off + jh_size h) then SCAN_STOP
      else if negb (cyanfs_crc32 seed (drop 4 r) =? jh_crc32 h) || negb (jh_seq h =? seq) then SCAN_STOP
      else
        match scan_entries (drop (Z.to_nat CYANFS_JOURNAL_HEADER_SIZE) r) (jh_count h) with
        | None => SCAN_BAD
        | Some (sel, next) =>
            if bool_decide (next = None) && (off + jh_size h =? CYANFS_EXTENT_SIZE) then SCAN_BAD
            else if U64_MAX - seq <? Z.of_nat (length sel) then SCAN_BAD
            else SCAN_RECORD sel next (jh_size h)
        end
  | _ => SCAN_STOP
  end.

(** Where the reader is, and the extents it followed. *)
Record scan_state := mk_scan { sc_id : Z; sc_off : Z; sc_seq : Z; sc_ids : list Z }.

Inductive scan_out :=
  | OUT_BAD
  | OUT_END (js : list journal_body) (st : scan_state)
  | OUT_GO (js : list journal_body) (st : scan_state).

(** The contents of the extents; the number of extents; the extent to stop at
    ([cyanfs_extent_id_invalid]: read to the end). *)
Section scan.
Context (ext : Z → list Z) (seed total end_id : Z).

Definition rest_of (st : scan_state) : list Z := drop (Z.to_nat (sc_off st)) (ext (sc_id st)).

Definition is_end (id : Z) : bool := negb (end_id =? cyanfs_extent_id_invalid) && (id =? end_id).

Definition may_follow (id : Z) (ids : list Z) : bool :=
  negb ((id =? cyanfs_extent_id_invalid) || (total <=? id)) && negb (bool_decide (id ∈ ids)).

Definition scan_step (st : scan_state) : scan_out :=
  match scan_record seed (sc_off st) (sc_seq st) (rest_of st) with
  | SCAN_STOP => if end_id =? cyanfs_extent_id_invalid then OUT_END [] st else OUT_BAD
  | SCAN_BAD => OUT_BAD
  | SCAN_RECORD sel next size =>
      let seq := sc_seq st + Z.of_nat (length sel) in
      match next with
      | None => OUT_GO sel (mk_scan (sc_id st) (sc_off st + size) seq (sc_ids st))
      | Some id =>
          if is_end id then OUT_END sel (mk_scan (sc_id st) (sc_off st) seq (sc_ids st))
          else if may_follow id (sc_ids st) then OUT_GO sel (mk_scan id 0 seq (sc_ids st ++ [id]))
          else OUT_BAD
      end
  end.

(** The entries of the journal and its end; [Some None] when it is not well
    formed, [None] when the fuel is exhausted. *)
Fixpoint scan (fuel : nat) (st : scan_state) : option (option (list journal_body * scan_state)) :=
  match fuel with
  | O => None
  | S fuel =>
      match scan_step st with
      | OUT_BAD => Some None
      | OUT_END js st => Some (Some (js, st))
      | OUT_GO js st => r ← scan fuel st; Some ('(js', st) ← r; Some (js ++ js', st))
      end
  end.

(** Each record moves the place forward or follows a new extent. *)
Record scan_ok (st : scan_state) : Prop := {
  so_off : cursor_ok (sc_off st);
  so_seq : 0 ≤ sc_seq st ≤ U64_MAX;
  so_ids : NoDup (sc_ids st);
  so_total : ∀ id, id ∈ sc_ids st → 0 ≤ id < total;
  so_id : 0 ≤ sc_id st < total }.

(** A device: its extents are full of bytes. *)
Definition device_ok : Prop :=
  0 ≤ total ≤ CYANFS_EXTENT_COUNT_MAX ∧
  ∀ id, 0 ≤ id < total → length (ext id) = Z.to_nat CYANFS_EXTENT_SIZE ∧ Forall is_byte (ext id).

(** Two thousand and forty-eight blocks in an extent. *)
Definition scan_fuel (st : scan_state) : nat :=
  Z.to_nat (2049 * (total - Z.of_nat (length (sc_ids st))) + (2049 - sc_off st / 512)).
End scan.

Lemma decode_header_app p r :
  (15 ≤ length p)%nat → cyanfs_journal_decode_header_checked (p ++ r) = cyanfs_journal_decode_header_checked p.
Proof.
  intros Hl. do 15 (destruct p as [|? p]; [simpl in Hl; lia|]).
  unfold cyanfs_journal_decode_header_checked. rewrite !(proj2 (Z.ltb_ge _ _)); [done|..]; rewrite ?length_app; jconsts; simpl length; lia.
Qed.

Lemma decode_jheader_total p : ∃ r, cyanfs_journal_decode_header_checked p = Some r.
Proof.
  unfold cyanfs_journal_decode_header_checked. destruct (Z.ltb_spec (Z.of_nat (length p)) CYANFS_JOURNAL_HEADER_SIZE); [eauto|].
  jconsts. do 15 (destruct p as [|? p]; [simpl in *; lia|]). eexists. reflexivity.
Qed.

Lemma decode_header_range p h :
  Forall is_byte p → cyanfs_journal_decode_header_checked p = Some (inr h) →
  0 ≤ jh_count h < 65536 ∧ jh_size h mod 512 = 0 ∧ 0 ≤ jh_size h < 131072.
Proof.
  intros Hb. unfold cyanfs_journal_decode_header_checked. destruct (Z.ltb_spec (Z.of_nat (length p)) CYANFS_JOURNAL_HEADER_SIZE); [done|].
  jconsts. do 15 (destruct p as [|? p]; [simpl in *; lia|]). repeat (apply Forall_cons in Hb as [? Hb]).
  intros [= <-]. cbn [jh_count jh_size]. unfold is_byte in *. unfold CYANFS_JOURNAL_BLOCK_SHIFT.
  rewrite Z.shiftl_mul_pow2 by lia. change (2 ^ 9) with 512. rewrite u64_small by lia. split_and!; try lia.
  by apply Z.mod_mul.
Qed.

Lemma ids_bound total ids :
  NoDup ids → (∀ id, id ∈ ids → 0 ≤ id < total) → 0 ≤ total → Z.of_nat (length ids) ≤ total.
Proof.
  intros Hnd Ht Hp. assert (Hsub : ids ⊆ seqZ 0 total) by (intros id Hi; apply elem_of_seqZ; specialize (Ht id Hi); lia).
  apply (NoDup_submseteq _ _ Hnd) in Hsub. apply submseteq_length in Hsub. rewrite length_seqZ in Hsub. lia.
Qed.

Section scan_facts.
Context (ext : Z → list Z) (seed total end_id : Z).
Context (Hdev : device_ok ext total).
Local Notation scan := (scan ext seed total end_id).
Local Notation scan_step := (scan_step ext seed total end_id).
Local Notation rest_of := (rest_of ext).

Lemma rest_bytes st : scan_ok total st → Forall is_byte (rest_of st).
Proof. intros Hs. apply Forall_drop. by destruct (proj2 Hdev _ (so_id _ _ Hs)). Qed.

Lemma rest_length st : scan_ok total st → Z.of_nat (length (rest_of st)) = CYANFS_EXTENT_SIZE - sc_off st.
Proof.
  intros Hs. unfold rest_of, JournalScan.rest_of. rewrite length_drop, (proj1 (proj2 Hdev _ (so_id _ _ Hs))).
  destruct (so_off _ _ Hs). jconsts. lia.
Qed.

Lemma scan_record_ok off seq p sel next size :
  Forall is_byte p → 0 ≤ seq → scan_record seed off seq p = SCAN_RECORD sel next size →
  Forall entry_ok sel ∧ (∀ id, next = Some id → is_u32 id) ∧ Z.of_nat (length sel) < 65536 ∧
  seq + Z.of_nat (length sel) ≤ U64_MAX ∧ 512 ≤ size ≤ CYANFS_JOURNAL_PAGE_SIZE ∧ size mod 512 = 0 ∧
  off + size ≤ CYANFS_EXTENT_SIZE ∧ (next = None → off + size < CYANFS_EXTENT_SIZE).
Proof.
  intros Hb Hq. unfold scan_record. destruct (cyanfs_journal_decode_header_checked p) as [[?|h]|] eqn:Eh; [done| |done].
  destruct (decode_header_range p h Hb Eh) as (Hc & Hm & Hz). jconsts.
  destruct (Z.ltb_spec (jh_size h) 15); [done|]. destruct (Z.ltb_spec 65536 (jh_size h)); [done|].
  destruct (Z.ltb_spec 1048576 (off + jh_size h)); [done|]. cbn [orb].
  destruct (_ || _); [done|]. destruct (scan_entries _ _) as [[sel' nx]|] eqn:Es; [|done].
  apply scan_entries_ok in Es as (He & Hn & Hl); [|by apply Forall_drop, Forall_take|done].
  destruct (bool_decide (nx = None) && (off + jh_size h =? 1048576)) eqn:Ee; [done|].
  destruct (Z.ltb_spec (18446744073709551615 - seq) (Z.of_nat (length sel'))); [done|]. intros [= <- <- <-].
  assert (512 ≤ jh_size h) by (Z.div_mod_to_equations; lia).
  split_and!; try done; try lia. intros ->. rewrite bool_decide_true in Ee by done. apply Z.eqb_neq in Ee. lia.
Qed.

Lemma scan_step_ok st :
  scan_ok total st →
  match scan_step st with
  | OUT_BAD => True
  | OUT_END js st' => Forall entry_ok js ∧ scan_ok total st'
  | OUT_GO js st' => Forall entry_ok js ∧ scan_ok total st' ∧ (scan_fuel total st' < scan_fuel total st)%nat
  end.
Proof.
  intros Hs. pose proof (rest_bytes st Hs) as Hb. unfold scan_step, JournalScan.scan_step.
  destruct (scan_record _ _ _ _) as [| |sel next size] eqn:Er; [by destruct (_ =? _)|done|].
  destruct Hs as [[Ho Hal] Hq Hnd Ht Hid].
  destruct (scan_record_ok _ _ _ _ _ _ Hb (proj1 Hq) Er) as (He & Hn & Hl & Hsq & Hz & Hm & Hle & Hin).
  pose proof (ids_bound _ _ Hnd Ht (proj1 (proj1 Hdev))) as Hids.
  jconsts. destruct next as [id|].
  - destruct (is_end end_id id).
    + split; [done|]. split; cbn [sc_id sc_off sc_seq sc_ids]; try done; jconsts; lia.
    + unfold may_follow. destruct (Z.eqb_spec id cyanfs_extent_id_invalid); [done|].
      destruct (Z.leb_spec total id); [done|]. cbn [orb negb]. case_bool_decide as Hv; [done|]. cbn [negb andb].
      specialize (Hn id eq_refl). destruct Hn as [Hn _].
      assert (Hnd' : NoDup (sc_ids st ++ [id])).
      { apply NoDup_app. split_and!; [done| |by apply NoDup_singleton]. by intros x Hx ->%list_elem_of_singleton. }
      assert (Ht' : ∀ x, x ∈ sc_ids st ++ [id] → 0 ≤ x < total).
      { intros x [Hx| ->%list_elem_of_singleton]%elem_of_app; [by apply Ht|lia]. }
      split_and!; [done| |].
      * split; cbn [sc_id sc_off sc_seq sc_ids]; try done; jconsts; lia.
      * unfold scan_fuel. cbn [sc_ids sc_off]. rewrite length_app. simpl length.
        assert (0 ≤ sc_off st / 512 < 2048) by (split; [apply Z.div_pos|apply Z.div_lt_upper_bound]; lia).
        pose proof (ids_bound _ _ Hnd' Ht' (proj1 (proj1 Hdev))) as Hids'. rewrite length_app in Hids'. simpl length in Hids'.
        change (0 / 512) with 0. lia.
  - specialize (Hin eq_refl). split_and!; [done| |].
    + split; cbn [sc_id sc_off sc_seq sc_ids]; try done; [|jconsts; lia]. split; jconsts; [lia|].
      rewrite Z.add_mod, Hal, Hm by lia. done.
    + unfold scan_fuel. cbn [sc_ids sc_off].
      assert (sc_off st / 512 + 1 ≤ (sc_off st + size) / 512) by (Z.div_mod_to_equations; lia).
      assert ((sc_off st + size) / 512 < 2048) by (apply Z.div_lt_upper_bound; lia). lia.
Qed.

(** The reader terminates, whatever the extents hold. *)
Lemma scan_total fuel st : scan_ok total st → (scan_fuel total st ≤ fuel)%nat → fuel ≠ 0%nat → is_Some (scan fuel st).
Proof.
  revert st. induction fuel as [|fuel IH]; intros st Hs Hf H0; [done|]. cbn [JournalScan.scan].
  pose proof (scan_step_ok st Hs) as Hst. destruct (scan_step st) as [|js st'|js st']; [eauto..|].
  destruct Hst as (_ & Hs' & Hlt). destruct (decide (fuel = 0%nat)) as [->|Hne].
  - exfalso. assert (scan_fuel total st' ≠ 0%nat); [|lia]. destruct Hs' as [[Ho _] _ Hnd Ht _].
    pose proof (ids_bound _ _ Hnd Ht (proj1 (proj1 Hdev))).
    unfold scan_fuel. assert (sc_off st' / 512 < 2049) by (jconsts; apply Z.div_lt_upper_bound; lia). lia.
  - destruct (IH st' Hs' ltac:(lia) Hne) as [r ->]. cbn. eauto.
Qed.
End scan_facts.
