(* ===== verification/LoaderSpec.v ===== *)
(** * LoaderSpec: the loader reads the journal

    The state machine of the loader ([JournalIO]), which reads the journal by
    pages and parses the records of a page in a loop, follows the reference
    reader of [JournalScan] step by step, for any client that satisfies the
    contract of [JournalLoad] and whatever the device holds. *)
From Stdlib Require Import ZArith Lia.
From S2P Require Import Prelude Base Journal Spec Types Super World JournalIO JournalRecord JournalLoad JournalScan.

(** The state after the entries of a scan. *)
Definition scan_result (r : option (list journal_body * scan_state)) (a : astate) : option (astate * scan_state) :=
  '(js, st) ← r; a ← spec_run js a; Some (a, st).

Lemma scan_result_app js r a :
  scan_result ('(js', st) ← r; Some (js ++ js', st)) a = a ← spec_run js a; scan_result r a.
Proof.
  destruct r as [[js' st]|]; cbn [scan_result mbind option_bind]; [|by destruct (spec_run js a)].
  rewrite spec_run_app. by destruct (spec_run js a).
Qed.

Lemma join_set_push id sets : sets ≠ [] → mjoin (set_push id sets) = mjoin sets ++ [id].
Proof.
  induction sets as [|n sets IH]; [done|]. intros _. destruct sets as [|n' sets].
  - simpl. by rewrite !app_nil_r.
  - change (mjoin (n :: set_push id (n' :: sets)) = mjoin (n :: n' :: sets) ++ [id]).
    change (n ++ mjoin (set_push id (n' :: sets)) = (n ++ mjoin (n' :: sets)) ++ [id]). rewrite IH by done. by rewrite app_assoc.
Qed.

Lemma set_push_nonempty id sets : sets ≠ [] → set_push id sets ≠ [].
Proof. by destruct sets as [|n [|]]. Qed.

Section loader.
Context (l : loader_ref) (ops : loader_operations) (M : world → astate → Prop) `{!LoaderModel l ops M}.
Context (ext : Z → list Z) (hdr : cyanfs_super_header) (total end_id : Z) (q : list cyanfs_task) (n : Z).
Context (Hdev : device_ok ext total).
Local Notation seed := (uuid_seed (sh_uuid hdr)).
Local Notation scan := (scan ext seed total end_id).
Local Notation scan_step := (scan_step ext seed total end_id).
Local Notation rest_of := (rest_of ext).

(** The loader, between two records, at the place [st] of the scan. *)
Record at_scan (w : world) (st : scan_state) (a : astate) : Prop := {
  at_model : M w a;
  at_loader : ∃ t, get_loader l w = Some t ∧ ld_header t = hdr ∧ ld_end_id t = end_id ∧
    ld_visited t = list_to_set (sc_ids st) ∧ ld_journals t ≠ [] ∧ mjoin (ld_journals t) = sc_ids st;
  at_kept : ∃ c, kept l w = (Some c, total, q, n) ∧
    cur_extent_id c = sc_id st ∧ cur_extent_off c = sc_off st ∧ cur_seq c = sc_seq st;
  at_ok : scan_ok total st }.

(** The loader after a failure. *)
Definition at_error (w : world) : Prop := is_Some (get_loader l w) ∧ ∃ c, kept l w = (Some c, total, q, n).

Lemma at_scan_error w st a : at_scan w st a → at_error w.
Proof. intros [_ (t & Ht & _) (c & Hk & _) _]. split; eauto. Qed.

Lemma at_scan_move w st st' a g :
  at_scan w st a → scan_ok total st' → sc_ids st' = sc_ids st →
  (∀ c, cur_extent_id c = sc_id st → cur_extent_off c = sc_off st → cur_seq c = sc_seq st →
        cur_extent_id (g c) = sc_id st' ∧ cur_extent_off (g c) = sc_off st' ∧ cur_seq (g c) = sc_seq st') →
  at_scan (upd_cursor_of (loader_buf l) g w) st' a.
Proof.
  intros [HM Ht (c & Hk & Hi & Ho & Hs) _] Hok Hids Hg. split; [by apply cursor_model| | |done].
  - by rewrite get_loader_upd_cursor, Hids.
  - exists (g c). split; [by apply kept_upd_cursor|]. by apply Hg.
Qed.

Lemma kept_cursor w c : kept l w = (Some c, total, q, n) → get_cursor (loader_buf l) w = Some c.
Proof. unfold kept. by intros [= -> _ _ _]. Qed.

(** Parsing the entries of a record. *)
Lemma at_scan_entries w st a js :
  at_scan w st a → Forall entry_ok js →
  ∃ w', match spec_run js a with
    | Some a' => run_entries ops js w = Some (true, w') ∧ at_scan w' st a'
    | None => run_entries ops js w = Some (false, w') ∧ at_error w'
    end.
Proof.
  intros Ha Hjs. pose proof (at_scan_error w st a Ha) as He. destruct Ha as [HM Ht Hk Hok].
  destruct (run_entries_model l ops M js w a HM Hjs) as (w' & Hl & Hk' & Hr). exists w'.
  destruct (spec_run js a) as [a'|].
  - destruct Hr as [-> HM']. split; [done|]. split; [done|by rewrite Hl|by rewrite Hk'|done].
  - split; [done|]. unfold at_error in *. by rewrite Hl, Hk'.
Qed.

Lemma prepare_extent_scan w st a id :
  at_scan w st a →
  ∃ b, cyanfs_journal_loader_prepare_extent l id w =
    Some (if may_follow total id (sc_ids st) then inr (id, b) else inl ERR_INVAL, w).
Proof.
  intros [HM (t & Ht & _ & _ & Hv & Hj & _) (c & Hk & _) _]. unfold cyanfs_journal_loader_prepare_extent, may_follow.
  rewrite Ht. cbn [mbind option_bind]. unfold kept in Hk. injection Hk as _ -> _ _.
  destruct (_ || _); [by exists false|]. cbn [negb andb]. rewrite Hv. case_decide as Hin.
  - rewrite bool_decide_true by set_solver. by exists false.
  - rewrite bool_decide_false by set_solver. unfold cyanfs_malloc. rewrite (malloc_model w a HM). cbn [negb].
    destruct (last (ld_journals t)) as [s|] eqn:El; [|by apply last_None in El]. cbn [mbind option_bind].
    rewrite (malloc_model w a HM). destruct (_ <=? _); [by exists true|by exists false].
Qed.

Lemma commit_extent_scan w st a id b :
  at_scan w st a → may_follow total id (sc_ids st) = true →
  scan_ok total (mk_scan id 0 (sc_seq st) (sc_ids st ++ [id])) →
  ∃ w', cyanfs_journal_loader_commit_extent l (id, b) w = cyanfs_journal_loader_read_page l w' ∧
    at_scan w' (mk_scan id 0 (sc_seq st) (sc_ids st ++ [id])) a.
Proof.
  intros [HM (t & Ht & Hh & He & Hv & Hj & Hjn) (c & Hk & _ & _ & Hs) _] Hf Hok.
  unfold cyanfs_journal_loader_commit_extent. rewrite Ht. cbn [mbind option_bind].
  apply andb_true_iff in Hf as [_ Hf]. apply negb_true_iff, bool_decide_eq_false in Hf.
  rewrite bool_decide_false by set_solver. cbn [mbind option_bind bug_on].
  set (sets := if b then ld_journals t ++ [[]] else ld_journals t).
  assert (Hsn : sets ≠ []) by (unfold sets; destruct b; [by destruct (ld_journals t)|done]).
  assert (Hsj : mjoin sets = sc_ids st).
  { unfold sets. destruct b; [|done]. rewrite join_app. change (mjoin [[]]) with (@nil Z). by rewrite app_nil_r. }
  eexists. split; [done|]. split; [by apply cursor_model, loader_model| | |done].
  - rewrite get_loader_upd_cursor, (get_loader_upd _ _ _ _ Ht). eexists. split; [done|]. cbn.
    split_and!; try done; [|by apply set_push_nonempty|by rewrite join_set_push, Hsj].
    rewrite Hv, list_to_set_app_L. set_solver.
  - eexists. split; [apply kept_upd_cursor; by rewrite kept_upd_loader|]. by cbn.
Qed.

(** ** A record *)

(** What the loop does at the place of the scan: it ends with an error, ends
    the load, reads the next page, or goes on inside the page ([k]). *)
Inductive loader_goes (st : scan_state) (a : astate) (k : world → option world) : option world → Prop :=
  | goes_error w' js st' :
      at_error w' → (scan_step st = OUT_BAD ∨ ((scan_step st = OUT_END js st' ∨ scan_step st = OUT_GO js st') ∧ spec_run js a = None)) →
      loader_goes st a k (cyanfs_journal_loader_end l ops true w')
  | goes_end w' js st' a' :
      scan_step st = OUT_END js st' → spec_run js a = Some a' → at_scan w' st' a' →
      loader_goes st a k (cyanfs_journal_loader_end l ops false w')
  | goes_page w' js st' a' :
      scan_step st = OUT_GO js st' → spec_run js a = Some a' → at_scan w' st' a' →
      loader_goes st a k (cyanfs_journal_loader_read_page l w')
  | goes_on w' js st' a' size :
      scan_record seed (sc_off st) (sc_seq st) (rest_of st) = SCAN_RECORD js None size →
      scan_step st = OUT_GO js st' → st' = mk_scan (sc_id st) (sc_off st + size) (sc_seq st + Z.of_nat (length js)) (sc_ids st) →
      spec_run js a = Some a' → at_scan w' st' a' → loader_goes st a k (k w').

Lemma parser_done_eq w st a b :
  at_scan w st a → parser_done l ops b w = cyanfs_journal_loader_end l ops (negb (end_id =? cyanfs_extent_id_invalid) && negb b) w.
Proof. intros [_ (t & Ht & _ & He & _) _ _]. unfold parser_done. rewrite Ht. cbn [mbind option_bind]. by rewrite He. Qed.

Lemma goes_stop w st a k :
  at_scan w st a → scan_record seed (sc_off st) (sc_seq st) (rest_of st) = SCAN_STOP →
  loader_goes st a k (parser_done l ops false w).
Proof.
  intros Ha Hr. rewrite (parser_done_eq w st a) by done.
  assert (Hs : scan_step st = if end_id =? cyanfs_extent_id_invalid then OUT_END [] st else OUT_BAD).
  { unfold scan_step, JournalScan.scan_step. by rewrite Hr. }
  destruct (end_id =? cyanfs_extent_id_invalid); cbn [negb andb].
  - by apply (goes_end st a k w [] st a).
  - apply (goes_error st a k w [] st); [by eapply at_scan_error|by left].
Qed.

(** The header at the place of the scan passes the checks of the loop. *)
Record header_at (st : scan_state) (h : cyanfs_journal_header) : Prop := {
  ha_decode : cyanfs_journal_decode_header_checked (rest_of st) = Some (inr h);
  ha_size : CYANFS_JOURNAL_HEADER_SIZE ≤ jh_size h ≤ CYANFS_JOURNAL_PAGE_SIZE;
  ha_extent : sc_off st + jh_size h ≤ CYANFS_EXTENT_SIZE;
  ha_crc : cyanfs_crc32 seed (drop 4 (take (Z.to_nat (jh_size h)) (rest_of st))) = jh_crc32 h;
  ha_seq : jh_seq h = sc_seq st }.

Lemma scan_record_at st h :
  header_at st h →
  scan_record seed (sc_off st) (sc_seq st) (rest_of st) =
  match scan_entries (drop (Z.to_nat CYANFS_JOURNAL_HEADER_SIZE) (take (Z.to_nat (jh_size h)) (rest_of st))) (jh_count h) with
  | None => SCAN_BAD
  | Some (sel, next) =>
      if bool_decide (next = None) && (sc_off st + jh_size h =? CYANFS_EXTENT_SIZE) then SCAN_BAD
      else if U64_MAX - sc_seq st <? Z.of_nat (length sel) then SCAN_BAD
      else SCAN_RECORD sel next (jh_size h)
  end.
Proof.
  intros [Hd Hz He Hc Hq]. unfold scan_record. rewrite Hd, Hc, Hq, !Z.eqb_refl. jconsts.
  destruct (Z.ltb_spec (jh_size h) 15); [lia|]. destruct (Z.ltb_spec 65536 (jh_size h)); [lia|].
  destruct (Z.ltb_spec 1048576 (sc_off st + jh_size h)); [lia|]. done.
Qed.

(** The entries of a record are parsed, then the loader goes where its link
    says. *)
Lemma record_goes w st a k sel next size :
  at_scan w st a → scan_record seed (sc_off st) (sc_seq st) (rest_of st) = SCAN_RECORD sel next size →
  loader_goes st a k (
    '(follow, w) ←
      match next with
      | Some id => if is_end end_id id then Some (inr None, w)
          else '(r, w) ← cyanfs_journal_loader_prepare_extent l id w;
               Some (match r with inl e => inl e | inr f => inr (Some f) end, w)
      | None => Some (inr None, w)
      end;
    match follow : cyanfs_err + option (Z * bool) with
    | inl _ => cyanfs_journal_loader_end l ops true w
    | inr follow =>
        '(ok, w) ← run_entries ops sel w;
        if negb ok then cyanfs_journal_loader_end l ops true w else
        let w := upd_cursor_of (loader_buf l) (λ c, set_cur_seq (u64 (cur_seq c + Z.of_nat (length sel))) c) w in
        if (match next with Some id => is_end end_id id | None => false end) then parser_done l ops true w
        else match follow with
             | Some f => cyanfs_journal_loader_commit_extent l f w
             | None => k (upd_cursor_of (loader_buf l) (λ c, set_cur_extent_off (u64 (cur_extent_off c + size)) c) w)
             end
    end).
Proof.
  intros Ha Hr. pose proof (at_ok _ _ _ Ha) as Hok. pose proof (scan_step_ok ext seed total end_id Hdev st Hok) as Hso.
  pose proof (rest_bytes ext total Hdev st Hok) as Hb. destruct (so_seq _ _ Hok) as [Hq0 Hq1].
  destruct (scan_record_ok _ _ _ _ _ _ _ Hb Hq0 Hr) as (He & _ & _ & Hsq & Hz & _ & Hle & _).
  set (st1 := mk_scan (sc_id st) (sc_off st) (sc_seq st + Z.of_nat (length sel)) (sc_ids st)).
  assert (Hss : scan_step st = match next with
    | None => OUT_GO sel (mk_scan (sc_id st) (sc_off st + size) (sc_seq st1) (sc_ids st))
    | Some id => if is_end end_id id then OUT_END sel st1
        else if may_follow total id (sc_ids st) then OUT_GO sel (mk_scan id 0 (sc_seq st1) (sc_ids st ++ [id])) else OUT_BAD end).
  { unfold scan_step, JournalScan.scan_step. by rewrite Hr. }
  assert (Hok1 : scan_ok total st1).
  { destruct Hok as [? ? ? ? ?]. split; try done. cbn [st1 sc_seq]. lia. }
  destruct (at_scan_entries w st a sel Ha He) as (w1 & Hrun).
  assert (Hmove : ∀ a1, at_scan w1 st a1 →
    at_scan (upd_cursor_of (loader_buf l) (λ c, set_cur_seq (u64 (cur_seq c + Z.of_nat (length sel))) c) w1) st1 a1).
  { intros a1 Ha1. apply (at_scan_move _ st); try done. intros c Hi Ho Hs. cbn. rewrite Hs.
    split_and!; try done. apply u64_small. jconsts. lia. }
  destruct next as [id|].
  - destruct (is_end end_id id) eqn:Een; cbn [mbind option_bind].
    + destruct (spec_run sel a) as [a1|] eqn:Es.
      * destruct Hrun as [-> Ha1]. cbn [mbind option_bind negb]. apply Hmove in Ha1. rewrite (parser_done_eq _ st1 a1) by done.
        rewrite andb_false_r. by apply (goes_end st a k _ sel st1 a1).
      * destruct Hrun as [-> He1]. cbn. apply (goes_error st a k w1 sel st1); [done|]. right. by split; [left|].
    + destruct (prepare_extent_scan w st a id Ha) as (b & ->). cbn [mbind option_bind].
      destruct (may_follow total id (sc_ids st)) eqn:Ef.
      * rewrite Hss in Hso. destruct Hso as (_ & Hok2 & _). cbn [mbind option_bind].
        destruct (spec_run sel a) as [a1|] eqn:Es.
        -- destruct Hrun as [-> Ha1]. cbn [mbind option_bind negb]. apply Hmove in Ha1.
           destruct (commit_extent_scan _ st1 a1 id b Ha1 Ef Hok2) as (w2 & -> & Ha2).
           by eapply (goes_page st a k w2 sel _ a1).
        -- destruct Hrun as [-> He1]. cbn. eapply (goes_error st a k w1 sel); [done|]. right. by split; [right|].
      * cbn [mbind option_bind]. apply (goes_error st a k w sel st); [by eapply at_scan_error|by left].
  - cbn [mbind option_bind]. rewrite Hss in Hso. destruct Hso as (_ & Hok2 & _).
    destruct (spec_run sel a) as [a1|] eqn:Es.
    + destruct Hrun as [-> Ha1]. cbn [mbind option_bind negb]. apply Hmove in Ha1.
      eapply (goes_on st a k _ sel _ a1 size); try done. apply (at_scan_move _ st1); try done.
      intros c Hi Ho Hs. cbn. rewrite Ho. split_and!; try done. apply u64_small.
      destruct (so_off _ _ Hok). jconsts. cbn [st1 sc_off]. lia.
    + destruct Hrun as [-> He1]. cbn. eapply (goes_error st a k w1 sel); [done|]. right. by split; [right|].
Qed.

Lemma parse_record_goes w st a h p k :
  at_scan w st a → header_at st h → take (Z.to_nat (jh_size h)) p = take (Z.to_nat (jh_size h)) (rest_of st) →
  loader_goes st a k (parse_record l ops h p k w).
Proof.
  intros Ha Hh Hp. pose proof (scan_record_at st h Hh) as Hr. pose proof (at_ok _ _ _ Ha) as Hok.
  pose proof (rest_bytes ext total Hdev st Hok) as Hb.
  destruct (decode_header_range _ _ Hb (ha_decode _ _ Hh)) as (Hcnt & _ & _).
  destruct (so_off _ _ Hok) as [Ho _]. pose proof (ha_extent _ _ Hh) as Hext. pose proof (ha_size _ _ Hh) as Hsz.
  unfold parse_record. pose proof (at_scan_error _ _ _ Ha) as Her.
  destruct (at_loader _ _ _ Ha) as (t & Ht & _ & He & _). destruct (at_kept _ _ _ Ha) as (c & Hk & _ & Hco & Hcs).
  apply kept_cursor in Hk. rewrite Ht, Hk. cbn [mbind option_bind]. rewrite Hp.
  rewrite validate_record_eq by (done || by apply Forall_drop, Forall_take). cbn [mbind option_bind].
  assert (Hbad : scan_step st = OUT_BAD → loader_goes st a k (cyanfs_journal_loader_end l ops true w)).
  { intros Hs. apply (goes_error st a k w [] st); [done|by left]. }
  unfold scan_step, JournalScan.scan_step in Hbad.
  destruct (scan_entries _ _) as [[sel next]|] eqn:Es; [|apply Hbad; by rewrite Hr]. cbn [ri_next ri_regular_count].
  rewrite Hco, Hcs, He. jconsts. rewrite u64_small by lia.
  replace (jh_size h =? 1048576 - sc_off st) with (sc_off st + jh_size h =? 1048576)
    by (apply eq_true_iff_eq; rewrite !Z.eqb_eq; lia).
  destruct (bool_decide (next = None) && _); [apply Hbad; by rewrite Hr|].
  destruct (_ <? _); [apply Hbad; by rewrite Hr|].
  pose proof (record_goes w st a k sel next (jh_size h) Ha Hr) as Hg.
  refine (eq_ind _ (loader_goes st a k) Hg _ _). unfold is_end. cbn zeta.
  destruct next as [id|]; [|cbn [mbind option_bind]; by rewrite (scan_entries_run _ _ _ _ _ _ Es)].
  lazymatch goal with |- ?x ≫= _ = _ => destruct x as [[[e|fo] w1]|]; [done| |done] end. cbn [mbind option_bind].
  by rewrite (scan_entries_run _ _ _ _ _ _ Es).
Qed.

(** ** A page *)

(** [p] is what is left of the page: it starts at the place of the scan and
    ends with the page or with the extent. *)
Record window (st : scan_state) (p : list Z) (o : Z) : Prop := {
  wi_bytes : p = take (length p) (rest_of st);
  wi_off : 0 ≤ o;
  wi_page : o + Z.of_nat (length p) ≤ CYANFS_JOURNAL_PAGE_SIZE;
  wi_end : o + Z.of_nat (length p) = CYANFS_JOURNAL_PAGE_SIZE ∨ Z.of_nat (length p) = CYANFS_EXTENT_SIZE - sc_off st;
  wi_block : Z.of_nat (length p) mod 512 = 0;
  wi_some : p ≠ [] }.

Lemma window_length st p o : window st p o → 512 ≤ Z.of_nat (length p).
Proof.
  intros [_ _ _ _ Hb Hn]. assert (length p ≠ 0%nat) by (by destruct p). Z.div_mod_to_equations. lia.
Qed.

Lemma window_take st p o k : window st p o → (k ≤ length p)%nat → take k p = take k (rest_of st).
Proof. intros Hw Hk. rewrite (wi_bytes _ _ _ Hw), take_take. by rewrite Nat.min_l by done. Qed.

(** What the loop does after a record of [size] bytes inside the extent. *)
Definition page_next (fuel : nat) (p : list Z) (o size : Z) (w : world) : option world :=
  if o + size =? CYANFS_JOURNAL_PAGE_SIZE then cyanfs_journal_loader_read_page l w
  else page_loop l ops fuel (drop (Z.to_nat size) p) (o + size) w.

Definition page_goes (fuel : nat) (p : list Z) (o : Z) (st : scan_state) (a : astate) (r : option world) : Prop :=
  ∃ k, loader_goes st a k r ∧
    ∀ sel size, scan_record seed (sc_off st) (sc_seq st) (rest_of st) = SCAN_RECORD sel None size →
      size ≤ Z.of_nat (length p) ∧ k = page_next fuel p o size.

Lemma page_goes_stop fuel p o w st a :
  at_scan w st a → scan_record seed (sc_off st) (sc_seq st) (rest_of st) = SCAN_STOP →
  page_goes fuel p o st a (parser_done l ops false w).
Proof. intros Ha Hs. exists (λ _, None). split; [by apply goes_stop|]. by rewrite Hs. Qed.

(** A record is in the page, or the page is read again from its place on. *)
Lemma page_loop_step fuel p o w st a :
  at_scan w st a → window st p o →
  (page_loop l ops (S fuel) p o w = cyanfs_journal_loader_read_page l w ∧ o ≠ 0) ∨
  page_goes fuel p o st a (page_loop l ops (S fuel) p o w).
Proof.
  intros Ha Hw. pose proof (window_length _ _ _ Hw) as Hlen. pose proof (at_ok _ _ _ Ha) as Hok.
  pose proof (rest_bytes ext total Hdev st Hok) as Hb. destruct (so_off _ _ Hok) as [Ho _].
  cbn [page_loop]. destruct (at_loader _ _ _ Ha) as (t & Ht & Hh & _). destruct (at_kept _ _ _ Ha) as (c & Hk & _ & Hco & Hcs).
  apply kept_cursor in Hk. rewrite Ht, Hk. cbn [mbind option_bind]. rewrite Hh, Hco, Hcs.
  rewrite bool_decide_false by apply (wi_some _ _ _ Hw).
  assert (Hd : cyanfs_journal_decode_header_checked p = cyanfs_journal_decode_header_checked (rest_of st)).
  { rewrite <- (take_drop (length p) (rest_of st)), <- (wi_bytes _ _ _ Hw), decode_header_app; [done|lia]. }
  rewrite Hd. pose proof (page_goes_stop fuel p o w st a Ha) as Hstop. unfold scan_record in Hstop at 1.
  destruct (decode_jheader_total (rest_of st)) as (r & Eh). rewrite Eh in *. cbn [mbind option_bind].
  destruct r as [?|h]; [by right; apply Hstop|].
  destruct (decode_header_range _ _ Hb Eh) as (_ & _ & Hz). jconsts. rewrite u64_small by lia.
  destruct ((jh_size h <? 15) || _ || _) eqn:Ez; [by right; apply Hstop|].
  apply orb_false_iff in Ez as [[Ez1%Z.ltb_ge Ez2%Z.ltb_ge]%orb_false_iff Ez3%Z.ltb_ge].
  destruct (Z.ltb_spec (Z.of_nat (length p)) (jh_size h)) as [Hlt|Hge].
  { destruct (Z.eqb_spec o 0) as [->|]; [|by left]. exfalso. destruct (wi_end _ _ _ Hw); jconsts; lia. }
  right. rewrite (window_take _ _ _ _ Hw) by lia.
  destruct (cyanfs_crc32 _ _ =? jh_crc32 h) eqn:Ec; cbn [negb orb] in *; [|by apply Hstop].
  destruct (jh_seq h =? sc_seq st) eqn:Eq; cbn [negb orb] in *; [|by apply Hstop].
  apply Z.eqb_eq in Ec, Eq. assert (Hha : header_at st h) by (split; jconsts; done || lia).
  eexists. split; [apply parse_record_goes; [done|done|by apply (window_take _ _ _ _ Hw); lia]|].
  intros sel size Er. rewrite (scan_record_at st h Hha) in Er.
  destruct (scan_entries _ _) as [[sel' nx]|]; [|done]. destruct (_ && _); [done|]. destruct (_ <? _); [done|].
  injection Er as -> -> <-. split; [done|]. cbn zeta. pose proof (wi_off _ _ _ Hw). pose proof (wi_page _ _ _ Hw). jconsts.
  unfold page_next. by rewrite u64_small by lia.
Qed.

Lemma window_next st p o sel size st' :
  window st p o → scan_ok total st → scan_record seed (sc_off st) (sc_seq st) (rest_of st) = SCAN_RECORD sel None size →
  size ≤ Z.of_nat (length p) → o + size ≠ CYANFS_JOURNAL_PAGE_SIZE →
  st' = mk_scan (sc_id st) (sc_off st + size) (sc_seq st + Z.of_nat (length sel)) (sc_ids st) →
  window st' (drop (Z.to_nat size) p) (o + size) ∧ (length (drop (Z.to_nat size) p) < length p)%nat.
Proof.
  intros Hw Hok Hr Hle Hne ->. pose proof (rest_bytes ext total Hdev st Hok) as Hb.
  destruct (scan_record_ok _ _ _ _ _ _ _ Hb (proj1 (so_seq _ _ Hok)) Hr) as (_ & _ & _ & _ & Hz & Hm & _ & Hin).
  specialize (Hin eq_refl). destruct (so_off _ _ Hok) as [Ho _]. jconsts.
  assert (Hl : Z.of_nat (length (drop (Z.to_nat size) p)) = Z.of_nat (length p) - size) by (rewrite length_drop; lia).
  destruct Hw as [Hwb Hwo Hwp Hwe Hwk Hwn]. jconsts. split; [|lia]. split; jconsts; rewrite ?Hl; cbn [sc_off]; try lia.
  - rewrite Hwb at 1. rewrite skipn_firstn_comm. unfold rest_of, JournalScan.rest_of. cbn [sc_off sc_id]. rewrite drop_drop.
    f_equal; [rewrite length_drop; lia|]. f_equal. lia.
  - rewrite Zminus_mod, Hwk, Hm. done.
  - intros E. apply (f_equal length) in E. simpl in E. lia.
Qed.

(** How the parsing of a page ends, when [k] steps of the scan give [r]: with
    an error, with the end of the journal, or with a read of the next page, from
    where fewer steps than [k] remain. *)
Inductive page_outcome (k : nat) (r : option (list journal_body * scan_state)) (a : astate) : option world → Prop :=
  | po_error w' : at_error w' → scan_result r a = None → page_outcome k r a (cyanfs_journal_loader_end l ops true w')
  | po_end w' st' a' : at_scan w' st' a' → scan_result r a = Some (a', st') →
      page_outcome k r a (cyanfs_journal_loader_end l ops false w')
  | po_page w' st' a' k' r' : at_scan w' st' a' → scan k' st' = Some r' → (k' < k)%nat → scan_result r a = scan_result r' a' →
      page_outcome k r a (cyanfs_journal_loader_read_page l w').

Lemma page_outcome_later k k' r r' a a' x :
  (k' ≤ k)%nat → scan_result r a = scan_result r' a' → page_outcome k' r' a' x → page_outcome k r a x.
Proof.
  intros Hk Hr. destruct 1 as [w' He Hn|w' st' a1 Ha Hn|w' st' a1 k1 r1 Ha Hs Hl Hn].
  - apply po_error; congruence.
  - eapply po_end; [done|congruence].
  - eapply po_page; [done|done|lia|congruence].
Qed.

Lemma goes_outcome st a c x k r :
  loader_goes st a c x → scan k st = Some r →
  (∀ w' js st' a' size k' r', (k' < k)%nat → scan k' st' = Some r' → at_scan w' st' a' →
     scan_record seed (sc_off st) (sc_seq st) (rest_of st) = SCAN_RECORD js None size →
     st' = mk_scan (sc_id st) (sc_off st + size) (sc_seq st + Z.of_nat (length js)) (sc_ids st) →
     page_outcome k r' a' (c w')) →
  page_outcome k r a x.
Proof.
  intros Hg Hs Hc. destruct k as [|k]; [done|]. cbn [JournalScan.scan] in Hs.
  assert (Hgo : ∀ js st', scan_step st = OUT_GO js st' →
    ∃ r', scan k st' = Some r' ∧ scan_result r a = a ← spec_run js a; scan_result r' a).
  { intros js st' E. rewrite E in Hs. destruct (scan k st') as [r'|]; [|done]. injection Hs as <-.
    exists r'. split; [done|]. apply scan_result_app. }
  destruct Hg as [w' js st' He Hst|w' js st' a' Hst Hr Ha|w' js st' a' Hst Hr Ha|w' js st' a' size Hrec Hst Hst' Hr Ha].
  - apply po_error; [done|]. destruct Hst as [Hst|[[Hst|Hst] Hn]].
    + rewrite Hst in Hs. by injection Hs as <-.
    + rewrite Hst in Hs. injection Hs as <-. cbn. by rewrite Hn.
    + destruct (Hgo _ _ Hst) as (r' & _ & ->). by rewrite Hn.
  - rewrite Hst in Hs. injection Hs as <-. eapply po_end; [done|]. cbn. by rewrite Hr.
  - destruct (Hgo _ _ Hst) as (r' & Hs' & Hrr). eapply po_page; [done|done|lia|]. by rewrite Hrr, Hr.
  - destruct (Hgo _ _ Hst) as (r' & Hs' & Hrr). rewrite Hr in Hrr. cbn [mbind option_bind] in Hrr.
    apply (page_outcome_later (S k) (S k) r r' a a'); [lia|done|]. eapply Hc; try done. lia.
Qed.

Lemma page_loop_scan fuel p o w st a k r :
  at_scan w st a → window st p o → (length p < fuel)%nat → scan k st = Some r →
  page_outcome (if o =? 0 then k else S k) r a (page_loop l ops fuel p o w).
Proof.
  revert p o w st a k r. induction fuel as [|fuel IH]; intros p o w st a k r Ha Hw Hf Hs; [lia|].
  destruct (page_loop_step fuel p o w st a Ha Hw) as [[-> Ho]|(c & Hg & Hc)].
  - apply Z.eqb_neq in Ho. rewrite Ho. eapply po_page; [done|done|lia|done].
  - apply (page_outcome_later _ k r r a a); [destruct (o =? 0); lia|done|].
    apply (goes_outcome st a c _ k r Hg Hs). intros w' js st' a' size k' r' Hk Hs' Ha' Hrec Hst'.
    destruct (Hc js size Hrec) as [Hle ->]. unfold page_next. destruct (Z.eqb_spec (o + size) CYANFS_JOURNAL_PAGE_SIZE).
    + eapply po_page; [done|done|done|done].
    + destruct (window_next st p o js size st' Hw (at_ok _ _ _ Ha) Hrec) as [Hw' Hl]; [done..|].
      apply (page_outcome_later _ (S k') r' r' a' a'); [lia|done|].
      apply (page_outcome_later _ (if o + size =? 0 then k' else S k') r' r' a' a'); [by destruct (o + size =? 0); lia|done|].
      apply (IH _ _ _ st'); try done. lia.
Qed.

(** ** The completions *)

(** The length of the read that [cyanfs_journal_loader_read_page] asks for. *)
Definition page_len (st : scan_state) : Z := Z.min CYANFS_JOURNAL_PAGE_SIZE (CYANFS_EXTENT_SIZE - sc_off st).

Lemma page_done_scan w st a k r c :
  at_scan w st a → kept l w = (Some c, total, q, n) →
  take (Z.to_nat (page_len st)) (cur_page c) = take (Z.to_nat (page_len st)) (rest_of st) →
  scan k st = Some r →
  page_outcome k r a (cyanfs_journal_loader_parser_page_done l ops (page_len st) ST_OK w).
Proof.
  intros Ha Hk Hp Hs. pose proof (at_ok _ _ _ Ha) as Hok. destruct (so_off _ _ Hok) as [Ho Hal].
  pose proof (rest_length ext total Hdev st Hok) as Hrl. unfold cyanfs_journal_loader_parser_page_done. cbn [failed].
  apply kept_cursor in Hk. rewrite Hk. cbn [mbind option_bind].
  assert (Hlen : Z.of_nat (length (take (Z.to_nat (page_len st)) (cur_page c))) = page_len st).
  { rewrite Hp, length_take. unfold page_len. jconsts. lia. }
  apply (page_loop_scan _ _ 0 w st a k r Ha); [|rewrite length_take; lia|done].
  assert (Hb : page_len st mod 512 = 0).
  { unfold page_len. jconsts. destruct (Z.min_spec 65536 (1048576 - sc_off st)) as [[_ ->]|[_ ->]]; [done|].
    rewrite Zminus_mod, Hal. done. }
  split; rewrite ?Hlen; try done; try (unfold page_len; jconsts; lia).
  - rewrite Hp at 1. f_equal. lia.
  - intros E. rewrite E in Hlen. unfold page_len in Hlen. jconsts. simpl in Hlen. lia.
Qed.

(** The super block was read: the journal starts at the extent it names. *)
Lemma header_done_scan w a t c :
  M w a → get_loader l w = Some t → ld_end_id t = end_id → ld_journals t = [[]] → ld_visited t = ∅ →
  kept l w = (Some c, total, q, n) → cyanfs_super_parse (cur_page c) = Some (inr hdr) →
  scan_ok total (mk_scan (cur_extent_id c) (cur_extent_off c) (sh_journal_seq hdr) []) →
  0 ≤ sh_journal_id hdr → is_end end_id (sh_journal_id hdr) = false →
  ∃ w', if may_follow total (sh_journal_id hdr) [] then
      cyanfs_journal_loader_parser_header_done l ops ST_OK w = cyanfs_journal_loader_read_page l w' ∧
      at_scan w' (mk_scan (sh_journal_id hdr) 0 (sh_journal_seq hdr) [sh_journal_id hdr]) a
    else cyanfs_journal_loader_parser_header_done l ops ST_OK w = cyanfs_journal_loader_end l ops true w' ∧ at_error w'.
Proof.
  intros HM Ht He Hj Hv Hk Hp Hok Hid0 Hne. unfold cyanfs_journal_loader_parser_header_done. cbn [failed].
  rewrite (kept_cursor w c Hk), Ht. cbn [mbind option_bind]. rewrite Hp. cbn [mbind option_bind].
  unfold is_end in Hne. rewrite He, Hne.
  set (w1 := upd_cursor_of _ _ (upd_loader _ _ w)). set (st0 := mk_scan _ _ _ _) in Hok.
  assert (Ha : at_scan w1 st0 a).
  { split; [by apply cursor_model, loader_model| | |done].
    - unfold w1. rewrite get_loader_upd_cursor, (get_loader_upd _ _ _ _ Ht). eexists. split; [done|]. cbn. by rewrite Hj.
    - eexists. split; [apply kept_upd_cursor; by rewrite kept_upd_loader|]. done. }
  destruct (prepare_extent_scan w1 st0 a (sh_journal_id hdr) Ha) as (b & ->). cbn [mbind option_bind].
  change (sc_ids st0) with (@nil Z) in *. destruct (may_follow total (sh_journal_id hdr) []) eqn:Ef.
  - destruct (commit_extent_scan w1 st0 a (sh_journal_id hdr) b Ha Ef) as (w2 & -> & Ha2); [|by exists w2].
    apply andb_true_iff in Ef as [Ef _]. apply negb_true_iff, orb_false_iff in Ef as [_ Ef%Z.leb_gt].
    split; cbn [sc_id sc_off sc_seq sc_ids app]; [done|apply Hok|by apply NoDup_singleton| |lia].
    intros id ->%list_elem_of_singleton. lia.
  - exists w1. split; [done|]. by eapply at_scan_error.
Qed.

Lemma header_done_bad w c e :
  is_Some (get_loader l w) → kept l w = (Some c, total, q, n) → cyanfs_super_parse (cur_page c) = Some (inl e) →
  cyanfs_journal_loader_parser_header_done l ops ST_OK w = cyanfs_journal_loader_end l ops true w.
Proof.
  intros [t Ht] Hk Hp. unfold cyanfs_journal_loader_parser_header_done. cbn [failed].
  rewrite (kept_cursor w c Hk), Ht. cbn [mbind option_bind]. by rewrite Hp.
Qed.
End loader.
