(* ===== verification/JournalLog.v ===== *)
(** * JournalLog: the journal the writer leaves is the journal the loader finds

    What [cyanfs_journal_writer_encode] writes is a record for the reader of
    [JournalScan], with the same entries; a damaged record is not; and the
    records that runs of the writer leave on the extents, linked from extent
    to extent, are found again, in order and exactly once. *)
From Stdlib Require Import ZArith Lia.
From S2P Require Import Prelude Base Disk Journal Spec Types Super World JournalIO JournalRecord JournalLoad JournalScan.

(** ** A record *)
Lemma decode_entries_payload js pad : Forall entry_ok js → decode_entries (length js) (payload js ++ pad) = Some (js, pad).
Proof.
  induction 1 as [|j js Hj Hjs IH]; [done|]. cbn [length decode_entries]. rewrite payload_cons, <- app_assoc.
  rewrite journal_entry_roundtrip by done. by rewrite IH.
Qed.

Lemma split_next_bodies sel next :
  Forall (λ j, j_type j ≠ CYANFS_JOURNAL_NEXT) sel → split_next (record_bodies sel next) = Some (sel, next).
Proof.
  unfold record_bodies. induction 1 as [|j js Hj Hjs IH]; [by destruct next|]. cbn [app].
  rewrite split_next_cons by done. by rewrite IH.
Qed.

Lemma scan_entries_record seed seq size sel next pad :
  record_ok seed seq size sel next pad →
  scan_entries (payload (record_bodies sel next) ++ pad) (Z.of_nat (length (record_bodies sel next))) = Some (sel, next).
Proof.
  intros Hok. pose proof (record_count _ _ _ _ _ _ Hok) as [Hc _]. unfold scan_entries.
  destruct (Z.eqb_spec (Z.of_nat (length (record_bodies sel next))) 0); [lia|].
  rewrite Nat2Z.id, decode_entries_payload by apply (ro_entries _ _ _ _ _ _ Hok). cbn [mbind option_bind].
  pose proof (ro_pad _ _ _ _ _ _ Hok). jconsts. destruct (Z.leb_spec 512 (Z.of_nat (length pad))); [lia|].
  apply split_next_bodies, (ro_regular _ _ _ _ _ _ Hok).
Qed.

Lemma scan_record_written seed off seq size sel next pad tail :
  record_ok seed seq size sel next pad → off + size ≤ CYANFS_EXTENT_SIZE →
  (next = None → off + size < CYANFS_EXTENT_SIZE) →
  scan_record seed off seq (record_bytes seed seq size sel next pad ++ tail) = SCAN_RECORD sel next size.
Proof.
  intros Hok Hle Hin. pose proof (record_count _ _ _ _ _ _ Hok) as [Hc1 Hc2]. change (65536 / 9) with 7281 in *.
  unfold scan_record. rewrite (record_decode _ _ _ _ _ _ Hok). set (h := record_header _ _ _ _ _).
  change (jh_size h) with size. change (jh_seq h) with seq. rewrite (record_take _ _ _ _ _ _ Hok), record_checksum.
  fold h. rewrite !Z.eqb_refl. cbn [negb orb].
  pose proof (ro_size _ _ _ _ _ _ Hok). pose proof (ro_page _ _ _ _ _ _ Hok). pose proof (ro_seq _ _ _ _ _ _ Hok). jconsts.
  destruct (Z.ltb_spec size 15); [lia|]. destruct (Z.ltb_spec 65536 size); [lia|].
  destruct (Z.ltb_spec 1048576 (off + size)); [lia|]. cbn [orb].
  assert (drop (Z.to_nat 15) (record_bytes seed seq size sel next pad) = payload (record_bodies sel next) ++ pad) as ->.
  { unfold record_bytes. apply drop_app_length'. by rewrite length_encode_jheader. }
  assert (jh_count h = Z.of_nat (length (record_bodies sel next))) as ->.
  { unfold h, record_header. cbn [jh_count]. by rewrite u16_small by lia. }
  rewrite (scan_entries_record _ _ _ _ _ _ Hok).
  assert (bool_decide (next = None) && (off + size =? 1048576) = false) as ->.
  { case_bool_decide as E; [|done]. specialize (Hin E). apply Z.eqb_neq. lia. }
  destruct (Z.ltb_spec (18446744073709551615 - seq) (Z.of_nat (length sel))); [lia|done].
Qed.

(** ** The journal on the extents *)

(** The place after a record that was laid out as [p] and links to [new]. *)
Definition after (st : scan_state) (p : record_plan) (new : option Z) : scan_state :=
  let seq := sc_seq st + Z.of_nat (length (rp_sel p)) in
  match new with
  | None => mk_scan (sc_id st) (sc_off st + rp_size p) seq (sc_ids st)
  | Some id => mk_scan id 0 seq (sc_ids st ++ [id])
  end.

(** The bytes of the record. *)
Definition record_data (seed : Z) (st : scan_state) (p : record_plan) (new : option Z) (page : list Z) : list Z :=
  take (Z.to_nat (rp_size p)) (encode_record seed (j_body <$> rp_sel p) new (sc_seq st) (rp_size p) page).

(** A record the writer can write at [st]: the entries it starts from, its
    layout, the extent it links to and the old contents of the page. *)
Record writes (total : Z) (st : scan_state) (head : list cyanfs_journal_entry) (next_id : Z) (p : record_plan)
    (new : option Z) (page : list Z) : Prop := {
  ws_plan : plan_record head next_id (sc_off st) (sc_seq st) = Some p;
  ws_regular : regular head;
  ws_entries : Forall (λ j, entry_ok (j_body j)) head;
  ws_page : length page = Z.to_nat CYANFS_JOURNAL_PAGE_SIZE ∧ Forall is_byte page;
  ws_seq : sc_seq st ≤ U64_MAX - 65536;
  ws_next : next_of p new;
  ws_follow : ∀ id, new = Some id → may_follow total id (sc_ids st) = true }.

(** The extents hold, from [st] to [st'], the records of the entries [es]. *)
Inductive logged (ext : Z → list Z) (seed total : Z) : scan_state → list cyanfs_journal_entry → scan_state → Prop :=
  | lg_end st : logged ext seed total st [] st
  | lg_record st head next_id p new page es st' :
      writes total st head next_id p new page →
      take (Z.to_nat (rp_size p)) (rest_of ext st) = record_data seed st p new page →
      logged ext seed total (after st p new) es st' → logged ext seed total st (rp_sel p ++ es) st'.

Section logged.
Context (seed total : Z) (Hseed : is_u32 seed) (Htotal : 0 ≤ total ≤ CYANFS_EXTENT_COUNT_MAX).

Lemma writes_plan st head next_id p new page :
  scan_ok total st → writes total st head next_id p new page → plan_ok head next_id (sc_off st) p.
Proof.
  intros Hok [Hp Hr _ _ Hq _ _]. destruct (so_seq _ _ Hok). apply (plan_sound _ _ _ (sc_seq st)); [done|apply Hok|lia|done].
Qed.

Lemma writes_record st head next_id p new page :
  scan_ok total st → writes total st head next_id p new page →
  ∃ pad, record_data seed st p new page = record_bytes seed (sc_seq st) (rp_size p) (j_body <$> rp_sel p) new pad ∧
    record_ok seed (sc_seq st) (rp_size p) (j_body <$> rp_sel p) new pad.
Proof.
  intros Hok Hw. pose proof (writes_plan _ _ _ _ _ _ Hok Hw) as Hpo. destruct Hw as [Hp Hr He [Hl Hb] Hq Hn _].
  apply (written_record seed head next_id (sc_off st)); try done. destruct (so_seq _ _ Hok). lia.
Qed.

Lemma writes_after st head next_id p new page :
  scan_ok total st → writes total st head next_id p new page → scan_ok total (after st p new).
Proof.
  intros Hok Hw. pose proof (writes_plan _ _ _ _ _ _ Hok Hw) as Hpo.
  destruct (writes_record _ _ _ _ _ _ Hok Hw) as (pad & _ & Hrec).
  pose proof (record_count _ _ _ _ _ _ Hrec) as [_ Hc]. rewrite length_fmap in Hc. change (65536 / 9) with 7281 in Hc.
  destruct Hw as [_ _ _ _ Hq Hn Hf]. destruct Hok as [[Ho Hal] Hs Hnd Ht Hid]. jconsts.
  destruct new as [id|]; cbn [after].
  - specialize (Hf id eq_refl). apply andb_true_iff in Hf as [Hf1 Hf2].
    apply negb_true_iff, orb_false_iff in Hf1 as [_ Hf1%Z.leb_gt]. apply negb_true_iff, bool_decide_eq_false in Hf2.
    destruct Hn as [_ [Hn _]]. split; cbn [sc_id sc_off sc_seq sc_ids]; try done; jconsts; try lia.
    + apply NoDup_app. split_and!; [done| |by apply NoDup_singleton]. by intros x Hx ->%list_elem_of_singleton.
    + intros x [Hx| ->%list_elem_of_singleton]%elem_of_app; [by apply Ht|lia].
  - pose proof (po_inside _ _ _ _ Hpo Hn) as Hin. pose proof (po_block _ _ _ _ Hpo) as Hblk.
    pose proof (po_pad _ _ _ _ Hpo). pose proof (ro_size _ _ _ _ _ _ Hrec). jconsts.
    split; cbn [sc_id sc_off sc_seq sc_ids]; try done; jconsts; try lia. split; jconsts; [lia|].
    rewrite Z.add_mod, Hal, Hblk by lia. done.
Qed.

(** The reader finds the record at its place. *)
Lemma writes_scan ext st head next_id p new page :
  scan_ok total st → writes total st head next_id p new page →
  take (Z.to_nat (rp_size p)) (rest_of ext st) = record_data seed st p new page →
  scan_step ext seed total cyanfs_extent_id_invalid st = OUT_GO (j_body <$> rp_sel p) (after st p new).
Proof.
  intros Hok Hw Hd. destruct (writes_record _ _ _ _ _ _ Hok Hw) as (pad & E & Hrec).
  pose proof (writes_plan _ _ _ _ _ _ Hok Hw) as Hpo. unfold scan_step.
  rewrite <- (take_drop (Z.to_nat (rp_size p)) (rest_of ext st)), Hd, E.
  rewrite scan_record_written; [|done|apply Hpo|].
  - rewrite length_fmap. destruct new as [id|]; cbn [after]; [|done].
    change (is_end cyanfs_extent_id_invalid id) with false. by rewrite (ws_follow _ _ _ _ _ _ _ Hw id).
  - intros ->. apply (po_inside _ _ _ _ Hpo), (ws_next _ _ _ _ _ _ _ Hw).
Qed.

Lemma logged_ok ext st es st' : logged ext seed total st es st' → scan_ok total st → scan_ok total st'.
Proof. induction 1 as [|st head next_id p new page es st' Hw Hd Hl IH]; [done|]. intros Hok. eapply IH, writes_after; done. Qed.

Lemma logged_scan ext st es st' :
  logged ext seed total st es st' → scan_ok total st →
  scan_record seed (sc_off st') (sc_seq st') (rest_of ext st') = SCAN_STOP →
  ∀ fuel, (length es < fuel)%nat → scan ext seed total cyanfs_extent_id_invalid fuel st = Some (Some (j_body <$> es, st')).
Proof.
  induction 1 as [st|st head next_id p new page es st' Hw Hd Hl IH]; intros Hok Hend fuel Hf; (destruct fuel as [|fuel]; [lia|]); cbn [scan].
  - unfold scan_step. by rewrite Hend.
  - rewrite (writes_scan _ _ _ _ _ _ _ Hok Hw Hd). pose proof (po_progress _ _ _ _ (writes_plan _ _ _ _ _ _ Hok Hw)) as Hne.
    assert (length (rp_sel p) ≠ 0%nat) by (by destruct (rp_sel p)). rewrite length_app in Hf.
    rewrite IH by (done || lia || by eapply writes_after). cbn. by rewrite fmap_app.
Qed.

Lemma logged_app ext st es st1 es' st' :
  logged ext seed total st es st1 → logged ext seed total st1 es' st' → logged ext seed total st (es ++ es') st'.
Proof.
  induction 1 as [|st head next_id p new page es st1 Hw Hd Hl IH]; [done|]. intros Hl'. rewrite <- app_assoc.
  econstructor; eauto.
Qed.

(** The extents are followed one after the other. *)
Lemma logged_ids ext st es st' :
  logged ext seed total st es st' → scan_ok total st → last (sc_ids st) = Some (sc_id st) →
  ∃ more, sc_ids st' = sc_ids st ++ more ∧ last (sc_ids st') = Some (sc_id st') ∧
    (more = [] → sc_id st' = sc_id st ∧ sc_off st ≤ sc_off st').
Proof.
  induction 1 as [st|st head next_id p new page es st' Hw Hd Hl IH]; intros Hok Hla.
  { exists []. by rewrite app_nil_r. }
  pose proof (writes_after _ _ _ _ _ _ Hok Hw) as Hok'. destruct (writes_record _ _ _ _ _ _ Hok Hw) as (pad & _ & Hrec).
  pose proof (ro_size _ _ _ _ _ _ Hrec) as Hsz. destruct new as [id|]; cbn [after] in *.
  - destruct IH as (more & E & Hla' & _); [done|cbn [sc_ids sc_id]; by rewrite last_snoc|]. cbn [sc_ids] in E. exists ([id] ++ more).
    split_and!; [by rewrite E, <- app_assoc|done|done].
  - destruct IH as (more & E & Hla' & Hm); [done|done|]. exists more. split_and!; [done|done|].
    intros Em. destruct (Hm Em) as [-> Hle]. cbn [sc_id sc_off] in *. split; [done|lia].
Qed.

Lemma last_other (ids more : list Z) x y :
  NoDup (ids ++ more) → last (ids ++ more) = Some y → x ∈ ids → more ≠ [] → x ≠ y.
Proof.
  intros Hnd Hla Hx Hne ->. destruct (exists_last Hne) as (more' & z & ->). rewrite app_assoc, last_snoc in Hla. injection Hla as ->.
  apply NoDup_app in Hnd as (_ & Hd & _). apply (Hd y Hx). set_solver.
Qed.

(** Records stay when what is written lies after them. *)
Lemma logged_frame ext ext' st es st' :
  logged ext seed total st es st' → scan_ok total st → last (sc_ids st) = Some (sc_id st) →
  (∀ id, id ∈ sc_ids st' → id ≠ sc_id st' → ext' id = ext id) →
  take (Z.to_nat (sc_off st')) (ext' (sc_id st')) = take (Z.to_nat (sc_off st')) (ext (sc_id st')) →
  logged ext' seed total st es st'.
Proof.
  induction 1 as [st|st head next_id p new page es st' Hw Hd Hl IH]; intros Hok Hla Ho Hc; [constructor|].
  pose proof (writes_after _ _ _ _ _ _ Hok Hw) as Hok'. destruct (writes_record _ _ _ _ _ _ Hok Hw) as (pad & _ & Hrec).
  pose proof (ro_size _ _ _ _ _ _ Hrec) as Hsz. destruct (so_off _ _ Hok) as [Hoff _].
  assert (Hla' : last (sc_ids (after st p new)) = Some (sc_id (after st p new))).
  { destruct new; cbn [after sc_ids sc_id]; [by rewrite last_snoc|done]. }
  econstructor; [done| |by apply IH]. rewrite <- Hd. unfold rest_of.
  destruct (logged_ids _ _ _ _ Hl Hok' Hla') as (more & E & Hl' & Hm).
  pose proof (so_ids _ _ (logged_ok _ _ _ _ Hl Hok')) as Hnd.
  assert (Hin : sc_id st ∈ sc_ids st) by (by apply last_Some_elem_of).
  assert (Hdiff : ∀ rest, sc_ids st' = sc_ids st ++ rest → rest ≠ [] → ext' (sc_id st) = ext (sc_id st)).
  { intros rest Er Hne. apply Ho; [rewrite Er; set_solver|]. rewrite Er in Hnd, Hl'. by eapply last_other. }
  destruct new as [id|]; cbn [after sc_ids sc_id sc_off] in *.
  - rewrite (Hdiff ([id] ++ more)); [done|by rewrite E, <- app_assoc|done].
  - destruct (decide (more = [])) as [Em|Em]; [|by rewrite (Hdiff more)]. destruct (Hm Em) as [Ei Hle]. rewrite Ei in Hc.
    assert (Hpre : ∀ l : list Z, take (Z.to_nat (rp_size p)) (drop (Z.to_nat (sc_off st)) l) =
      drop (Z.to_nat (sc_off st)) (take (Z.to_nat (sc_off st + rp_size p)) (take (Z.to_nat (sc_off st')) l))).
    { intros l. rewrite take_take, Nat.min_l by lia. rewrite Z2Nat.inj_add by lia. by rewrite firstn_skipn_comm. }
    by rewrite !Hpre, Hc.
Qed.
End logged.

(** The journal of a device grows by the record that is written at its end. *)
Lemma logged_write seed total d st es st' head next_id p new page :
  is_u32 seed → 0 ≤ total ≤ CYANFS_EXTENT_COUNT_MAX →
  scan_ok total st → last (sc_ids st) = Some (sc_id st) → logged (disk_extent d) seed total st es st' →
  writes total st' head next_id p new page →
  logged (disk_extent (disk_write d (cyanfs_map_extent_offset (sc_id st') (sc_off st')) (record_data seed st' p new page)))
    seed total st (es ++ rp_sel p) (after st' p new).
Proof.
  intros Hs Ht Hok Hla Hl Hw. pose proof (logged_ok _ _ Hs _ _ _ _ Hl Hok) as Hok'.
  pose proof (writes_plan _ _ _ _ _ _ _ Hok' Hw) as Hpo. destruct (writes_record _ _ Hs _ _ _ _ _ _ Hok' Hw) as (pad & Er & Hrec).
  set (data := record_data seed st' p new page) in *.
  assert (Hlen : Z.of_nat (length data) = rp_size p) by (rewrite Er; by apply record_length).
  destruct (so_off _ _ Hok') as [Ho _]. pose proof (so_id _ _ Hok') as Hid. pose proof (po_extent _ _ _ _ Hpo) as Hend.
  apply (logged_app _ _ _ _ _ st').
  - apply (logged_frame seed total Hs Ht (disk_extent d) _ st es st' Hl Hok Hla).
    + intros id Hin Hne. apply write_extent_other; try lia. pose proof (so_total _ _ Hok' id Hin). lia.
    + apply write_extent_before; lia.
  - rewrite <- (app_nil_r (rp_sel p)). econstructor; [done| |constructor].
    fold data. replace (Z.to_nat (rp_size p)) with (length data) by lia. apply write_extent_at; lia.
Qed.

(** ** Properties *)

(** C17: what the journal writer writes, the loader reads.  For every non-empty
    list of entries and every block of an extent the cursor can be at, the
    writer lays out a record: it takes a non-empty prefix of the entries, fits
    in the journal page and in the extent, is a whole number of blocks, and
    leaves the extent full only with a link to the next one.  The bytes of the
    record then pass the loader's header, checksum, sequence and entry checks,
    and its parser sees exactly the entries that were selected. *)
Theorem record_roundtrip seed head next_id off seq page :
  is_u32 seed → 0 ≤ seq ≤ U64_MAX - 65536 → regular head → Forall (λ j, entry_ok (j_body j)) head → head ≠ [] →
  cursor_ok off → length page = Z.to_nat CYANFS_JOURNAL_PAGE_SIZE → Forall is_byte page →
  ∃ p, plan_record head next_id off seq = Some p ∧ plan_ok head next_id off p ∧
    ∀ next, next_of p next →
    let r := take (Z.to_nat (rp_size p)) (encode_record seed (j_body <$> rp_sel p) next seq (rp_size p) page) in
    ∃ h, cyanfs_journal_decode_header_checked r = Some (inr h) ∧
      jh_seq h = seq ∧ jh_size h = rp_size p ∧ Z.of_nat (length r) = rp_size p ∧
      cyanfs_crc32 seed (drop 4 r) = jh_crc32 h ∧
      cyanfs_journal_validate_record (drop 15 r) (jh_count h) =
        Some (inr (mk_info (Z.of_nat (length (rp_sel p))) next)) ∧
      ∀ ops w, parse_entries ops (Z.to_nat (jh_count h)) (drop 15 r) w = run_entries ops (j_body <$> rp_sel p) w.
Proof.
  intros Hs Hq Hr He Hne Hco Hpl Hpb. destruct (plan_spec head next_id off seq Hr Hne Hco Hq) as (p & Hp & Hpo).
  exists p. split_and!; [done|done|]. intros next Hnx.
  destruct (written_record seed head next_id off seq p next page) as (pad & E & Hok); try done. cbn zeta. rewrite E.
  pose proof (record_count _ _ _ _ _ _ Hok) as [Hc _]. change (65536 / 9) with 7281 in Hc.
  set (bodies := record_bodies (j_body <$> rp_sel p) next) in *.
  assert (Hd : drop 15 (record_bytes seed seq (rp_size p) (j_body <$> rp_sel p) next pad) = payload bodies ++ pad).
  { unfold record_bytes. apply drop_app_length'. by rewrite length_encode_jheader. }
  exists (record_header seed seq (rp_size p) bodies pad).
  assert (jh_count (record_header seed seq (rp_size p) bodies pad) = Z.of_nat (length bodies)) as Hcnt.
  { unfold record_header. cbn [jh_count]. by rewrite u16_small by lia. }
  pose proof (scan_entries_record _ _ _ _ _ _ Hok) as Hse. fold bodies in Hse.
  rewrite Hd, Hcnt. split_and!; try done.
  - rewrite <- (app_nil_r (record_bytes _ _ _ _ _ _)). by apply record_decode.
  - by apply record_length.
  - rewrite validate_record_eq, Hse, length_fmap; [done| |lia].
    apply Forall_app. split; [apply payload_bytes, (ro_entries _ _ _ _ _ _ Hok)|apply (ro_pad_bytes _ _ _ _ _ _ Hok)].
  - intros ops w. by eapply scan_entries_run.
Qed.


Lemma record_roundtrip_witness :
  ∃ p, plan_record ex_entries cyanfs_extent_id_invalid 0 0 = Some p ∧ plan_ok ex_entries cyanfs_extent_id_invalid 0 p.
Proof.
  destruct (record_roundtrip (uuid_seed ex_uuid) ex_entries cyanfs_extent_id_invalid 0 0 ex_page ex_seed ex_seq
    (proj1 ex_entries_ok) (proj2 ex_entries_ok) ltac:(discriminate) ex_cursor (proj1 ex_page_ok) (proj2 ex_page_ok))
    as (p & H1 & H2 & _).
  exists p. exact (conj H1 H2).
Defined.

(** The record that deletes file 1, and the padding of its block. *)
Definition ex_pad : list Z := replicate 488 0.

Lemma ex_record_ok : record_ok 7 0 512 [J_DELETE 1] None ex_pad.
Proof.
  split; try done; try (apply Forall_singleton; done).
  - unfold ex_pad. rewrite length_replicate. lia.
  - by apply Forall_replicate.
Qed.

