(* ===== verification/Discard.v ===== *)
(** * Discard: returning extents to the free tree

    Models [__cyanfs_super_discard_extent] and the discard task of
    [core/flusher.c]: an extent that is no longer used goes to the free tree,
    by way of a discard of its contents on the device when discards are
    enabled. *)
From Stdlib Require Import ZArith Lia.
From S2P Require Import Prelude Base Journal Types Super World.

Definition __cyanfs_super_discard_extent (n : Z) (root : tree_ref) (s : cyanfs_super) : option cyanfs_super :=
  if has_flag s CYANFS_SUPER_FLAG_DISCARD_ENABLED then
    s ← __cyanfs_extent_super_to_super n root T_WAIT_DISCARD s;
    Some (if negb (has_flag s CYANFS_SUPER_FLAG_DISCARD_WORKING) then
            let s := add_flag CYANFS_SUPER_FLAG_DISCARD_WORKING s in
            cyanfs_super_task_add_tail (mk_task CYANFS_TASK_NOP cyanfs_super_discard_extents_begin) s
          else s)
  else __cyanfs_extent_super_to_super n root T_FREE s.

(** The extents of a tree, in order, each through [__cyanfs_super_discard_extent]. *)
Fixpoint discard_list (l : list Z) (root : tree_ref) (s : cyanfs_super) : option cyanfs_super :=
  match l with
  | [] => Some s
  | n :: l => s ← __cyanfs_super_discard_extent n root s; discard_list l root s
  end.

Fixpoint move_list (l : list Z) (from to : tree_ref) (s : cyanfs_super) : option cyanfs_super :=
  match l with
  | [] => Some s
  | n :: l => s ← __cyanfs_extent_super_to_super n from to s; move_list l from to s
  end.

(** The loop of [cyanfs_super_discard_extents_begin]: the extents from [n] on
    that are consecutive move from one tree to the other; [len] is the length
    of the discard so far. *)
Fixpoint discard_run (fuel : nat) (n len : Z) (s : cyanfs_super) : option (Z * cyanfs_super) :=
  match fuel with
  | O => None
  | S fuel =>
      let next := set_nfind (wait_discard_extents s) (n + 1) in
      s ← __cyanfs_extent_super_to_super n T_WAIT_DISCARD T_DISCARD s;
      let len := u64 (len + CYANFS_EXTENT_SIZE) in
      match next with
      | Some m => if m =? n + 1 then discard_run fuel m len s else Some (len, s)
      | None => Some (len, s)
      end
  end.

Definition discard_extents_begin (s : cyanfs_super) : option cyanfs_super :=
  match set_min (wait_discard_extents s) with
  | None => Some (clear_flag CYANFS_SUPER_FLAG_DISCARD_WORKING s)
  | Some n =>
      let b_off := cyanfs_map_extent_offset n 0 in
      '(len, s) ← discard_run (S (size (wait_discard_extents s))) n 0 s;
      Some (cyanfs_super_task_add_tail
              (mk_task (CYANFS_TASK_DISCARD b_off len) cyanfs_super_discard_extents_done) s)
  end.

(** The result [err] of the discard is ignored, as in the code. *)
Definition discard_extents_done (s : cyanfs_super) : option cyanfs_super :=
  s ← move_list (set_ordered (discard_extents s)) T_DISCARD T_FREE s;
  discard_extents_begin s.
