(* ===== verification/DiscardSpec.v ===== *)
(** * DiscardSpec: the discard task frees extents

    The loops that move extents from one tree to another never abort and keep
    the partition of the extents; [moved_all] says what moved where. *)
From Stdlib Require Import ZArith Lia.
From S2P Require Import Prelude Base Journal Types Super SuperInv SuperOps World Discard.

(** The extents [X], a list or a set, moved to place [p]. *)
Definition moved_all `{ElemOf Z C} (own own' : place → Z → Prop) (X : C) (p : place) : Prop :=
  ∀ q c, own' q c ↔ (c ∈ X ∧ q = p) ∨ (c ∉ X ∧ own q c).

Lemma moved_all_nil own p : moved_all own own ([] : list Z) p.
Proof. intros q c. set_solver. Qed.

Lemma moved_all_cons own own1 own2 n l p :
  moved own own1 n p → moved_all own1 own2 l p → moved_all own own2 (n :: l) p.
Proof. intros H1 H2 q c. rewrite (H2 q c), (H1 q c), elem_of_cons. destruct (decide (c ∈ l)); naive_solver. Qed.

(** Where an extent is after a move from [src]. *)
Lemma moved_all_place `{ElemOf Z C} (own own' : place → Z → Prop) (X : C) src dst p p' c :
  moved_all own own' X dst → (∀ q q', own q c → own q' c → q = q') → (∀ m, m ∈ X → own src m) →
  own p c → own' p' c → p' = p ∨ (p = src ∧ p' = dst).
Proof.
  intros Hm Hu Hs Hp Hp'. apply (Hm p' c) in Hp' as [[Hx ->]|[_ Ho]]; [right|left]; eauto.
Qed.

(** What stays when extents move between trees. *)
Record tree_frame (s s' : cyanfs_super) : Prop := {
  tf_files : files_by_id s' = files_by_id s;
  tf_names : files_by_name s' = files_by_name s;
  tf_nodes : nodes s' = nodes s;
  tf_journal : journal_head s' = journal_head s;
  tf_cursor : journal_cursor s' = journal_cursor s }.

#[export] Instance tree_frame_refl : Reflexive tree_frame.
Proof. done. Qed.
#[export] Instance tree_frame_trans : Transitive tree_frame.
Proof. intros s1 s2 s3 [] []. split; congruence. Qed.

(** One extent moves between two trees of the super block. *)
Lemma tree_move_ok s fl from to n :
  wf s fl → n ∈ tree_get from s →
  ∃ s', __cyanfs_extent_super_to_super n from to s = Some s' ∧ wf s' fl ∧
    moved (owns s fl) (owns s' fl) n (P_TREE to) ∧ tree_frame s s' ∧ flags s' = flags s ∧ task_head s' = task_head s.
Proof.
  intros [Hwe Hns Hwi] Hn.
  destruct (super_to_super_ok s fl from to n Hwe Hn) as (s' & E & Hwe' & Hm & Hfr & Hf & Hnd).
  exists s'. split_and!; try done.
  - split; [done|by eapply ext_frame_ns|unfold wf_idx; by rewrite Hf].
  - destruct Hfr as [Hr _]. unfold rest in Hr. split; congruence.
  - destruct Hfr as [Hr _]. unfold rest in Hr. congruence.
  - destruct Hfr as [Hr _]. unfold rest in Hr. congruence.
Qed.

Lemma move_list_ok l : ∀ s fl from to,
  wf s fl → from ≠ to → NoDup l → (∀ n, n ∈ l → n ∈ tree_get from s) →
  ∃ s', move_list l from to s = Some s' ∧ wf s' fl ∧
    moved_all (owns s fl) (owns s' fl) l (P_TREE to) ∧ tree_frame s s' ∧ flags s' = flags s.
Proof.
  induction l as [|n l IH]; intros s fl from to Hwf Hne Hnd Hin.
  - exists s. split_and!; try done. apply moved_all_nil.
  - apply NoDup_cons in Hnd as [Hni Hnd]. cbn [move_list].
    destruct (tree_move_ok s fl from to n Hwf) as (s1 & -> & Hwf1 & Hm & Hfr & Hfl & Htk); [apply Hin; by left|].
    cbn [mbind option_bind].
    destruct (IH s1 fl from to Hwf1 Hne Hnd) as (s' & E & Hwf' & Hma & Hfr' & Hfl').
    { intros m Hm'. apply (Hm (P_TREE from) m). right. split; [congruence|]. apply Hin. by right. }
    exists s'. split_and!; [done|done|by eapply moved_all_cons|by etransitivity|congruence].
Qed.

(** Where [__cyanfs_super_discard_extent] puts an extent. *)
Definition discard_dest (s : cyanfs_super) : tree_ref :=
  if has_flag s CYANFS_SUPER_FLAG_DISCARD_ENABLED then T_WAIT_DISCARD else T_FREE.

Lemma discard_extent_ok s fl root n :
  wf s fl → n ∈ tree_get root s →
  ∃ s', __cyanfs_super_discard_extent n root s = Some s' ∧ wf s' fl ∧
    moved (owns s fl) (owns s' fl) n (P_TREE (discard_dest s)) ∧ tree_frame s s' ∧ discard_dest s' = discard_dest s.
Proof.
  intros Hwf Hn. unfold __cyanfs_super_discard_extent, discard_dest.
  destruct (has_flag s CYANFS_SUPER_FLAG_DISCARD_ENABLED) eqn:Hd.
  - destruct (tree_move_ok s fl root T_WAIT_DISCARD n Hwf Hn) as (s1 & -> & Hwf1 & Hm & Hfr & Hfl & Htk).
    cbn [mbind option_bind]. eexists. split; [done|].
    assert (Hd1 : has_flag s1 CYANFS_SUPER_FLAG_DISCARD_ENABLED = true) by (unfold has_flag; by rewrite Hfl).
    destruct (negb _); split_and!; try done; try (by destruct Hfr; split); try (by rewrite Hd1).
    + by apply (same_core_wf s1).
    + change (has_flag _ ?x) with (has_flag (add_flag CYANFS_SUPER_FLAG_DISCARD_WORKING s1) x) at 1.
      by rewrite has_flag_add, Hd1.
  - destruct (tree_move_ok s fl root T_FREE n Hwf Hn) as (s1 & -> & Hwf1 & Hm & Hfr & Hfl & Htk).
    exists s1. split_and!; try done. unfold has_flag in *. by rewrite Hfl, Hd.
Qed.

Lemma discard_list_ok l : ∀ s fl root,
  wf s fl → root ≠ discard_dest s → NoDup l → (∀ n, n ∈ l → n ∈ tree_get root s) →
  ∃ s', discard_list l root s = Some s' ∧ wf s' fl ∧
    moved_all (owns s fl) (owns s' fl) l (P_TREE (discard_dest s)) ∧ tree_frame s s'.
Proof.
  induction l as [|n l IH]; intros s fl root Hwf Hne Hnd Hin.
  - exists s. split_and!; try done. apply moved_all_nil.
  - apply NoDup_cons in Hnd as [Hni Hnd]. cbn [discard_list].
    destruct (discard_extent_ok s fl root n Hwf) as (s1 & -> & Hwf1 & Hm & Hfr & Hd); [apply Hin; by left|].
    cbn [mbind option_bind].
    destruct (IH s1 fl root Hwf1) as (s' & E & Hwf' & Hma & Hfr'); [by rewrite Hd|done| |].
    { intros m Hm'. apply (Hm (P_TREE root) m). right. split; [congruence|]. apply Hin. by right. }
    rewrite Hd in Hma. exists s'. split_and!; [done|done|by eapply moved_all_cons|by etransitivity].
Qed.

(** ** The discard task *)

(** The ids [n], [n + 1], ... of a run. *)
Lemma discard_run_ok fuel : ∀ n len s fl,
  wf s fl → n ∈ wait_discard_extents s → (size (wait_discard_extents s) ≤ fuel)%nat →
  ∃ k s', discard_run fuel n len s = Some (u64 (len + CYANFS_EXTENT_SIZE * Z.of_nat k), s') ∧ (1 ≤ k)%nat ∧ wf s' fl ∧
    (∀ m, m ∈ seqZ n (Z.of_nat k) → m ∈ wait_discard_extents s) ∧
    moved_all (owns s fl) (owns s' fl) (seqZ n (Z.of_nat k)) (P_TREE T_DISCARD) ∧ tree_frame s s' ∧ task_head s' = task_head s.
Proof.
  induction fuel as [|fuel IH]; intros n len s fl Hwf Hn Hsz.
  - apply Nat.le_0_r, size_empty_inv in Hsz. set_solver.
  - cbn [discard_run].
    destruct (tree_move_ok s fl T_WAIT_DISCARD T_DISCARD n Hwf Hn) as (s1 & -> & Hwf1 & Hm & Hfr & Hfl & Htk).
    cbn [mbind option_bind].
    assert (Hone : ∃ k s', Some (u64 (len + CYANFS_EXTENT_SIZE), s1) = Some (u64 (len + CYANFS_EXTENT_SIZE * Z.of_nat k), s') ∧
      (1 ≤ k)%nat ∧ wf s' fl ∧ (∀ m, m ∈ seqZ n (Z.of_nat k) → m ∈ wait_discard_extents s) ∧
      moved_all (owns s fl) (owns s' fl) (seqZ n (Z.of_nat k)) (P_TREE T_DISCARD) ∧ tree_frame s s' ∧ task_head s' = task_head s).
    { exists 1%nat, s1. split_and!; try done.
      - intros m. rewrite elem_of_seqZ. intros. by replace m with n by lia.
      - by apply (moved_all_cons _ (owns s1 fl) _ n []); [|apply moved_all_nil]. }
    destruct (set_nfind (wait_discard_extents s) (n + 1)) as [m|] eqn:Em; [|exact Hone].
    destruct (Z.eqb_spec m (n + 1)) as [->|_]; [|exact Hone]. clear Hone.
    apply set_nfind_Some in Em as (Hin & _ & _).
    assert (Hw : wait_discard_extents s1 = wait_discard_extents s ∖ {[n]})
      by (apply (moved_tree s s1 fl n (P_TREE T_DISCARD) T_WAIT_DISCARD Hm); done).
    destruct (IH (n + 1) (u64 (len + CYANFS_EXTENT_SIZE)) s1 fl Hwf1) as (k & s' & E & Hk & Hwf' & Hsub & Hma & Hfr' & Htk').
    { rewrite Hw. apply elem_of_difference. split; [done|]. rewrite elem_of_singleton. lia. }
    { rewrite Hw. pose proof (size_remove _ _ Hn). lia. }
    exists (S k), s'. rewrite E. split_and!; [|lia|done| | |by etransitivity|congruence].
    + f_equal. f_equal. unfold u64. rewrite Zplus_mod_idemp_l. f_equal. lia.
    + intros m. rewrite elem_of_seqZ. intros Hm'. destruct (decide (m = n)) as [->|]; [done|].
      assert (Hm2 : m ∈ wait_discard_extents s1) by (apply Hsub, elem_of_seqZ; lia). rewrite Hw in Hm2. set_solver.
    + rewrite seqZ_cons by lia. replace (Z.pred _) with (Z.of_nat k) by lia.
      by apply (moved_all_cons _ (owns s1 fl)).
Qed.

Lemma discard_begin_ok s fl :
  wf s fl →
  ∃ s', discard_extents_begin s = Some s' ∧ wf s' fl ∧ tree_frame s s' ∧
    (wait_discard_extents s = ∅ ∧ s' = clear_flag CYANFS_SUPER_FLAG_DISCARD_WORKING s ∨
     ∃ n k, (1 ≤ k)%nat ∧ (∀ m, m ∈ seqZ n (Z.of_nat k) → m ∈ wait_discard_extents s) ∧
       moved_all (owns s fl) (owns s' fl) (seqZ n (Z.of_nat k)) (P_TREE T_DISCARD) ∧
       task_head s' = task_head s ++ [mk_task (CYANFS_TASK_DISCARD (cyanfs_map_extent_offset n 0)
         (CYANFS_EXTENT_SIZE * Z.of_nat k)) cyanfs_super_discard_extents_done]).
Proof.
  intros Hwf. unfold discard_extents_begin. destruct (set_min (wait_discard_extents s)) as [n|] eqn:En.
  - apply set_min_Some in En as [Hn _].
    destruct (discard_run_ok (S (size (wait_discard_extents s))) n 0 s fl Hwf Hn) as
      (k & s1 & -> & Hk & Hwf1 & Hsub & Hma & Hfr & Htk); [lia|].
    cbn [mbind option_bind]. eexists. split; [done|]. split_and!; [by apply (same_core_wf s1)|by destruct Hfr; split|].
    right. exists n, k. split_and!; try done. cbn [task_head cyanfs_super_task_add_tail set_task_head].
    rewrite Htk. do 4 f_equal.
    assert (Hl : n + Z.of_nat k - 1 ∈ wait_discard_extents s) by (apply Hsub, elem_of_seqZ; lia).
    pose proof (owns_range s fl (wf_has_ext _ _ Hwf) (P_TREE T_WAIT_DISCARD) _ Hl).
    pose proof (owns_range s fl (wf_has_ext _ _ Hwf) (P_TREE T_WAIT_DISCARD) _ Hn).
    pose proof (total_bound _ _ (wf_has_ext _ _ Hwf)). unfold u64, CYANFS_EXTENT_SIZE.
    change (Z.shiftl 1 CYANFS_EXTENT_SHIFT) with 1048576. rewrite Z.mod_small; lia.
  - apply set_min_None in En. eexists. split; [done|]. split_and!; [by apply (same_core_wf s)|done|by left].
Qed.

Lemma discard_done_ok s fl :
  wf s fl →
  ∃ s1 s', move_list (set_ordered (discard_extents s)) T_DISCARD T_FREE s = Some s1 ∧
    discard_extents_done s = Some s' ∧ discard_extents_begin s1 = Some s' ∧ wf s1 fl ∧ tree_frame s s1 ∧
    moved_all (owns s fl) (owns s1 fl) (set_ordered (discard_extents s)) (P_TREE T_FREE).
Proof.
  intros Hwf. destruct (move_list_ok (set_ordered (discard_extents s)) s fl T_DISCARD T_FREE Hwf) as
    (s1 & E & Hwf1 & Hma & Hfr & _); [done|apply NoDup_set_ordered|by intros n Hn%elem_of_set_ordered|].
  destruct (discard_begin_ok s1 fl Hwf1) as (s' & E' & _).
  exists s1, s'. split_and!; try done. unfold discard_extents_done. rewrite E. exact E'.
Qed.

(** C25: the discard task never discards live data.  Beginning a discard never
    aborts and keeps the invariant; it queues nothing when no extent waits,
    and otherwise one discard of the device whose every byte lies in an
    extent that waited to be discarded, that no file owns, and that cannot be
    allocated until the discard is done. *)
Theorem discard_hits_waiting s fl :
  wf s fl →
  ∃ s', discard_extents_begin s = Some s' ∧ wf s' fl ∧
    (wait_discard_extents s = ∅ ∧ task_head s' = task_head s ∨
     ∃ off len, 0 < len ∧
       task_head s' = task_head s ++ [mk_task (CYANFS_TASK_DISCARD off len) cyanfs_super_discard_extents_done] ∧
       ∀ o, off ≤ o < off + len →
         ∃ m, CYANFS_SUPER_BLOCK_SIZE + CYANFS_EXTENT_SIZE * m ≤ o < CYANFS_SUPER_BLOCK_SIZE + CYANFS_EXTENT_SIZE * (m + 1) ∧
           m ∈ wait_discard_extents s ∧ m ∈ discard_extents s' ∧ m ∉ free_extents s' ∧
           ∀ id f i, files_by_id s' !! id = Some f → f_extents f !! i ≠ Some m).
Proof.
  intros Hwf. destruct (discard_begin_ok s fl Hwf) as (s' & E & Hwf' & _ & Hd). exists s'. split; [done|]. split; [done|].
  destruct Hd as [[He ->]|(n & k & Hk & Hsub & Hma & Ht)]; [by left|right].
  assert (Hr : ∀ m, m ∈ seqZ n (Z.of_nat k) → 0 ≤ m < 1073741824).
  { intros m Hm%Hsub. pose proof (owns_range s fl (wf_has_ext _ _ Hwf) (P_TREE T_WAIT_DISCARD) m Hm).
    pose proof (total_bound _ _ (wf_has_ext _ _ Hwf)). lia. }
  pose proof (Hr n ltac:(apply elem_of_seqZ; lia)) as Hn.
  exists (cyanfs_map_extent_offset n 0), (CYANFS_EXTENT_SIZE * Z.of_nat k). split_and!; [change CYANFS_EXTENT_SIZE with 1048576; lia|done|].
  rewrite map_extent_offset_eq by lia. rewrite Zmod_0_l. change CYANFS_EXTENT_SIZE with 1048576. change CYANFS_SUPER_BLOCK_SIZE with 8192.
  intros o Ho. set (m := (o - 8192) / 1048576).
  pose proof (Z.div_mod (o - 8192) 1048576 ltac:(lia)) as Hdm. pose proof (Z.mod_pos_bound (o - 8192) 1048576 ltac:(lia)). fold m in Hdm.
  assert (Hm : m ∈ seqZ n (Z.of_nat k)) by (apply elem_of_seqZ; nia).
  assert (Hd' : owns s' fl (P_TREE T_DISCARD) m) by (apply Hma; by left).
  pose proof (owns_unique _ _ (wf_has_ext _ _ Hwf')) as Hu. exists m. split_and!; [lia|lia|by apply Hsub|done| |].
  - intros Hfr. by specialize (Hu _ (P_TREE T_FREE) m Hd' Hfr).
  - intros id f i Hf Hi. assert (Ho' : owns s' fl (P_FILE id i) m) by (simpl; eauto). by specialize (Hu _ _ m Hd' Ho').
Qed.
