(* ===== verification/Compact.v ===== *)
(** * Compact: rewriting the journal

    Models [core/compact.c].  A compaction replays the journal that is on the
    disk into a super block of its own, writes the journal that recreates
    that state into new extents, links it to the part of the journal that is
    still being written, and switches the super block header to it. *)
From Stdlib Require Import ZArith Lia.
From S2P Require Import Prelude Base Journal Types Super World JournalIO Discard CompactSpec.

Definition cyanfs_journal_compact_free (w : world) : world := set_w_compact None w.

Definition cyanfs_super_compact_fail (s : cyanfs_super) : cyanfs_super :=
  __cyanfs_super_mark_error (clear_flag CYANFS_SUPER_FLAG_COMPACT_WORKING s).

Definition cyanfs_journal_compact_error (w : world) : world :=
  upd_super cyanfs_super_compact_fail (cyanfs_journal_compact_free w).

(** The old journal extents go back to the free tree; an extent that is not
    in the journal tree is an error. *)
Fixpoint compact_release (l : list Z) (s : cyanfs_super) : option (bool * cyanfs_super) :=
  match l with
  | [] => Some (true, s)
  | n :: l =>
      if decide (n ∈ journal_extents s) then
        s ← __cyanfs_super_discard_extent n T_JOURNAL s; compact_release l s
      else Some (false, s)
  end.

Definition compact_finish (err : cyanfs_status) (w : world) : option world :=
  if failed err then Some (cyanfs_journal_compact_error w) else
  t ← w_compact w;
  '(ok, s) ← compact_release (set_ordered (journal_extents (cp_compact t))) (w_super w);
  let w := set_w_super s w in
  if negb ok then Some (cyanfs_journal_compact_error w)
  else Some (cyanfs_journal_compact_free (upd_super (clear_flag CYANFS_SUPER_FLAG_COMPACT_WORKING) w)).

Definition compact_flush_super (err : cyanfs_status) (w : world) : option world :=
  if failed err then Some (cyanfs_journal_compact_error w)
  else Some (task_add_tail (mk_task CYANFS_TASK_FLUSH cyanfs_journal_compact_finish) w).

(** The new header, in the first 4096 bytes of the compaction's page. *)
Definition compact_write_super (err : cyanfs_status) (w : world) : option world :=
  if failed err then Some (cyanfs_journal_compact_error w) else
  t ← w_compact w;
  let h := cp_header t in
  let page := cur_page (journal_cursor (cp_compact t)) in
  let k := Z.to_nat CYANFS_SUPER_HEADER_SIZE in
  let copy := encode_at h (take k page) in
  let h' := sh_set_crc h (super_crc copy) in
  let page := encode_at h' copy ++ drop k page in
  let w := upd_compact (set_cp_header h') w in
  let w := upd_cursor_of BUF_COMPACT (set_cur_page page) w in
  Some (task_add_tail
    (mk_task (CYANFS_TASK_WRITE (Z.land (sh_version h') 1 * CYANFS_SUPER_HEADER_SIZE) CYANFS_SUPER_HEADER_SIZE BUF_COMPACT)
       cyanfs_journal_compact_flush_super) w).

Definition cyanfs_journal_compact_write_journal_finish (w : world) : option world :=
  Some (task_add_tail (mk_task CYANFS_TASK_FLUSH cyanfs_journal_compact_write_super) w).

Definition cyanfs_journal_compact_write_journal_error (w : world) : option world :=
  Some (cyanfs_journal_compact_error w).

(** Whether replaying an entry allocates memory. *)
Definition replay_allocates (j : journal_body) : bool :=
  match j with J_CREATE _ _ | J_FORK _ _ _ => true | _ => false end.

Definition cyanfs_journal_compact_loader_parser (j : journal_body) (w : world) : option (cyanfs_status * world) :=
  let '(mem, w) := if replay_allocates j then cyanfs_malloc w else (true, w) in
  t ← w_compact w;
  '(err, s) ← __cyanfs_super_journal_replay mem j (cp_compact t);
  Some (err, upd_compact (set_cp_compact s) w).

Definition cyanfs_journal_compact_loader_error (w : world) : option world :=
  Some (cyanfs_journal_compact_error w).

(** ** The entries of the new journal

    The list built so far, its length as counted and the coming outcomes of
    [cyanfs_malloc]; the inner [None] is a [goto err]. *)
Record compact_acc := mk_acc { ca_head : list cyanfs_journal_entry; ca_count : Z; ca_malloc : list bool }.

Definition acc_bind {A B} (m : option (option A)) (k : A → option (option B)) : option (option B) :=
  r ← m; match r with Some a => k a | None => Some None end.
Notation "x ⇐ y ; z" := (acc_bind y (λ x : _, z)) (at level 20, y at level 100, z at level 200).

Definition cyanfs_journal_compact_count_entry (count : Z) : option Z :=
  if count =? U64_MAX then None else Some (count + 1).

(** [cyanfs_journal_alloc], [cyanfs_list_add_tail] and the count. *)
Definition compact_emit (j : journal_body) (a : compact_acc) : option (option compact_acc) :=
  let '(ok, mem) := match ca_malloc a with [] => (true, []) | b :: l => (b, l) end in
  if negb ok then Some None else
  match cyanfs_journal_compact_count_entry (ca_count a) with
  | None => Some None
  | Some count => Some (Some (mk_acc (ca_head a ++ [mk_entry false j]) count mem))
  end.

Fixpoint compact_emit_binds (id : Z) (m : gmap Z Z) (keys : list Z) (a : compact_acc) : option (option compact_acc) :=
  match keys with
  | [] => Some (Some a)
  | i :: keys =>
      n ← m !! i;
      a ⇐ compact_emit (J_BIND id n i) a; compact_emit_binds id m keys a
  end.

Definition compact_emit_file (s : cyanfs_super) (f : cyanfs_file) (a : compact_acc) : option (option compact_acc) :=
  let m := f_meta f in
  r ← match f_parent f with
      | Some p =>
          g ← files_by_id s !! p;
          Some (compact_emit (J_FORK (fm_name m) (fm_id m) (fm_parent_id m)) a,
                negb (fm_size (f_meta g) =? fm_size m))
      | None => Some (compact_emit (J_CREATE (fm_name m) (fm_id m)) a, 0 <? fm_size m)
      end;
  let '(a, truncate) := r : option (option compact_acc) * bool in
  a ⇐ a;
  a ⇐ (if truncate then compact_emit (J_TRUNCATE (fm_id m) (fm_size m)) a else Some (Some a));
  compact_emit_binds (fm_id m) (f_extents f) (set_ordered (dom (f_extents f))) a.

(** The loop over the files; [max_live_id] is the id of the last one. *)
Fixpoint compact_emit_files (s : cyanfs_super) (ids : list Z) (max_live_id : Z) (a : compact_acc)
    : option (option (compact_acc * Z)) :=
  match ids with
  | [] => Some (Some (a, max_live_id))
  | id :: ids =>
      f ← files_by_id s !! id;
      a ⇐ compact_emit_file s f a; compact_emit_files s ids (fm_id (f_meta f)) a
  end.

Definition cyanfs_journal_compact_marker_name (s : cyanfs_super) : option cyanfs_file_name_t :=
  marker_search (λ name, bool_decide (is_Some (files_by_name s !! name)))
    (Z.to_nat (CYANFS_SUPER_MAX_FILES + 1)) 0.

Definition cyanfs_journal_compact_preserve_max_file_id (s : cyanfs_super) (max_live_id : Z) (a : compact_acc)
    : option (option compact_acc) :=
  if max_file_id s <=? max_live_id then Some (Some a) else
  match cyanfs_journal_compact_marker_name s with
  | None => Some None
  | Some name =>
      a ⇐ compact_emit (J_CREATE name (max_file_id s)) a;
      compact_emit (J_DELETE (max_file_id s)) a
  end.

Definition compact_collect (s : cyanfs_super) (mem : list bool) : option (option compact_acc) :=
  r ⇐ compact_emit_files s (set_ordered (dom (files_by_id s))) 0 (mk_acc [] 0 mem);
  cyanfs_journal_compact_preserve_max_file_id s r.2 r.1.

(** ** The steps of the compaction *)
Definition cyanfs_journal_compact_loader_finish (w : world) : option world :=
  t ← w_compact w;
  let c := cp_compact t in
  r ← compact_collect c (w_malloc w);
  match r with
  | None => Some (cyanfs_journal_compact_error w)
  | Some a =>
      let w := set_w_malloc (ca_malloc a) w in
      let count := ca_count a in
      let seq := cur_seq (journal_cursor c) in
      let header := ld_header (cp_loader t) in
      let end_id := ld_end_id (cp_loader t) in
      if seq <? count then Some (cyanfs_journal_compact_error w)
      else if sh_version header =? U64_MAX then Some (cyanfs_journal_compact_error w)
      else
        let header := sh_set_version (sh_set_journal_seq header (seq - count)) (sh_version header + 1) in
        if negb (count =? 0) then
          match __cyanfs_super_find_nearly_extent (w_super w) 0 with
          | None => cyanfs_journal_compact_loader_error w
          | Some n =>
              s ← __cyanfs_extent_super_to_super n T_FREE T_JOURNAL (w_super w);
              e ← nodes s !! n;
              let header := sh_set_journal_id header (ext_backend e) in
              let w := set_w_super s w in
              let w := upd_compact (λ t, set_cp_header header (set_cp_writer (mk_writer (ca_head a) end_id) t)) w in
              let w := upd_cursor_of BUF_COMPACT
                (λ c, set_cur_seq (sh_journal_seq header) (set_cur_extent_off 0 (set_cur_extent_id (sh_journal_id header) c))) w in
              Some (cyanfs_journal_writer_start WRITER_COMPACT w)
          end
        else
          let header := sh_set_journal_id header end_id in
          let w := upd_compact (λ t, set_cp_header header (set_cp_writer (mk_writer (ca_head a) cyanfs_extent_id_invalid) t)) w in
          Some (task_add_tail (mk_task CYANFS_TASK_NOP cyanfs_journal_compact_write_super) w)
  end.

Definition compact_loader_ops : loader_operations :=
  {| op_parser := cyanfs_journal_compact_loader_parser;
     op_finish := cyanfs_journal_compact_loader_finish;
     op_error := cyanfs_journal_compact_loader_error |}.

Definition compact_writer_ops : writer_operations :=
  {| wop_flush := None;
     wop_finish := cyanfs_journal_compact_write_journal_finish;
     wop_error := cyanfs_journal_compact_write_journal_error |}.

(** [n] calls of [cyanfs_malloc], stopping at the first that fails. *)
Fixpoint malloc_nodes (n : nat) (w : world) : bool * world :=
  match n with
  | O => (true, w)
  | S n => let '(ok, w) := cyanfs_malloc w in if ok then malloc_nodes n w else (false, w)
  end.

Definition cyanfs_super_compact (w : world) : option (cyanfs_status * world) :=
  let s := w_super w in
  let err := __cyanfs_super_ensure_status s in
  if failed err then Some (err, w)
  else if negb (has_flag s CYANFS_SUPER_FLAG_COMPACT_ENABLED) then Some (ST_OK, w)
  else if has_flag s CYANFS_SUPER_FLAG_COMPACT_WORKING then Some (ST_ERR ERR_BUSY, w)
  else
    let w := upd_super (add_flag CYANFS_SUPER_FLAG_COMPACT_WORKING) w in
    let end_id := cur_extent_id_ondisk (journal_cursor s) in
    let fail w := Some (ST_ERR ERR_NOMEM, upd_super cyanfs_super_compact_fail w) in
    let '(ok, w) := cyanfs_malloc w in
    if negb ok then fail w else
    let '(ok, w) := cyanfs_malloc w in
    if negb ok then fail w else
    let total := sm_total_extents (s_meta s) in
    let '(ok, w) := malloc_nodes (Z.to_nat total) w in
    if negb ok then fail (cyanfs_journal_compact_free w) else
    let t := mk_compact cyanfs_journal_writer_init (cyanfs_journal_loader_init end_id)
               (blank_super total 0 0 0) zero_header in
    Some (ST_OK, cyanfs_journal_loader_start LOADER_COMPACT (set_w_compact (Some t) w)).
