(* ===== verification/CompactOk.v ===== *)
(** * CompactOk: the compaction writes the journal of [CompactSpec]

    The entries [cyanfs_journal_compact_loader_finish] collects from the
    replayed super block are [compact_list] of its abstract state, so they
    recreate that state; and they are never more than the entries that were
    replayed, so the sequence number they start at does not underflow. *)
From Stdlib Require Import ZArith Lia.
From S2P Require Import Prelude Base Journal Spec CompactSpec Types Super SuperInv SuperOps Replay World JournalIO Discard Compact.

(** [a] with the entries [js] added. *)
Definition acc_ext (a : compact_acc) (js : list journal_body) : compact_acc :=
  mk_acc (ca_head a ++ (mk_entry false <$> js)) (ca_count a + Z.of_nat (length js)) [].

(** Enough memory and a count that cannot overflow. *)
Definition acc_ok (a : compact_acc) (n : nat) : Prop :=
  ca_malloc a = [] ∧ 0 ≤ ca_count a ∧ ca_count a + Z.of_nat n ≤ U64_MAX.

Lemma acc_ext_nil a : acc_ok a 0 → acc_ext a [] = a.
Proof.
  intros (Hm & _ & _). unfold acc_ext. destruct a as [h c m]. simpl in *. subst. by rewrite app_nil_r, Z.add_0_r.
Qed.

Lemma acc_ext_app a js js' : acc_ext (acc_ext a js) js' = acc_ext a (js ++ js').
Proof.
  unfold acc_ext. simpl. rewrite fmap_app, <- app_assoc, length_app. f_equal. lia.
Qed.

Lemma acc_ok_ext a js n : acc_ok a (length js + n) → acc_ok (acc_ext a js) n.
Proof. intros (Hm & H0 & Hc). unfold acc_ok, acc_ext. simpl. split_and!; [done|lia|lia]. Qed.

Lemma acc_ok_le a n m : acc_ok a n → (m ≤ n)%nat → acc_ok a m.
Proof. intros (Hm & H0 & Hc) Hle. unfold acc_ok. split_and!; [done|done|lia]. Qed.

Lemma emit_ok j a : acc_ok a 1 → compact_emit j a = Some (Some (acc_ext a [j])).
Proof.
  intros (Hm & H0 & Hc). unfold compact_emit, cyanfs_journal_compact_count_entry. rewrite Hm. simpl.
  destruct (Z.eqb_spec (ca_count a) U64_MAX); [lia|]. done.
Qed.

Lemma emit_binds_ok id m keys a :
  (∀ i, i ∈ keys → is_Some (m !! i)) → acc_ok a (length keys) →
  compact_emit_binds id m keys a =
  Some (Some (acc_ext a (i ← keys; match m !! i with Some b => [J_BIND id b i] | None => [] end))).
Proof.
  revert a. induction keys as [|i keys IH]; intros a Hk Hok.
  - simpl. by rewrite acc_ext_nil.
  - cbn [compact_emit_binds]. rewrite bind_cons. destruct (Hk i) as [b Hb]; [set_solver|]. rewrite Hb.
    cbn [mbind option_bind]. rewrite emit_ok by (eapply acc_ok_le; [done|simpl; lia]). simpl.
    rewrite IH; [|set_solver|by apply acc_ok_ext]. by rewrite acc_ext_app.
Qed.

Lemma born_size_abs s f :
  a_born_size (abs s) (afile_of f) =
  match f_parent f with
  | Some p => match files_by_id s !! p with Some g => fm_size (f_meta g) | None => 0 end
  | None => 0
  end.
Proof.
  unfold a_born_size. simpl. destruct (f_parent f) as [p|]; [|done]. rewrite lookup_fmap.
  by destruct (files_by_id s !! p).
Qed.

Lemma emit_file_ok s id f a :
  replaying s → files_by_id s !! id = Some f → acc_ok a (length (compact_afile (abs s) id (afile_of f))) →
  compact_emit_file s f a = Some (Some (acc_ext a (compact_afile (abs s) id (afile_of f)))).
Proof.
  intros Hrp Hf Hok. destruct (rp_wf _ Hrp) as [Hwe Hwn Hwi].
  assert (Hl : (strip <$> files_by_id s) !! id = Some (strip f)) by (by rewrite lookup_fmap, Hf).
  destruct (wn_id _ _ _ _ Hwn id _ Hl) as [Hid _]. change (fm_id (f_meta (strip f))) with (fm_id (f_meta f)) in Hid.
  destruct (wn_size _ _ _ _ Hwn id _ Hl) as [Hsz _]. change (fm_size (f_meta (strip f))) with (fm_size (f_meta f)) in Hsz.
  unfold compact_afile in *. set (binds := compact_binds id (a_extents (afile_of f))) in *.
  set (tr := compact_truncate (abs s) id (afile_of f)) in *.
  assert (Hb : ∀ a, acc_ok a (length binds) →
     compact_emit_binds id (f_extents f) (set_ordered (dom (f_extents f))) a = Some (Some (acc_ext a binds))).
  { intros a' Ha'. apply emit_binds_ok.
    - intros i Hi. by apply elem_of_set_ordered, elem_of_dom in Hi.
    - unfold binds in Ha'. rewrite length_compact_binds in Ha'.
      rewrite (Permutation_length (set_ordered_Permutation _)). by rewrite <- size_dom in Ha'. }
  cbn [length] in Hok. rewrite length_app in Hok.
  assert (Ht : ∀ a truncate, truncate = negb (a_born_size (abs s) (afile_of f) =? fm_size (f_meta f)) →
     acc_ok a (length tr) →
     (if truncate then compact_emit (J_TRUNCATE id (fm_size (f_meta f))) a else Some (Some a)) =
     Some (Some (acc_ext a tr))).
  { intros a' b -> Ha'. unfold tr, compact_truncate in *. cbn [afile_of a_size] in *.
    destruct (_ =? _); simpl; [by rewrite acc_ext_nil|by apply emit_ok]. }
  unfold compact_emit_file. rewrite Hid. unfold compact_birth. cbn [afile_of a_parent a_name] in *.
  rewrite born_size_abs in Ht.
  assert (Hfin : ∀ j, (a ⇐ Some (Some (acc_ext a [j]));
     a ⇐ (if negb (match f_parent f with
           | Some p => match files_by_id s !! p with Some g => fm_size (f_meta g) | None => 0 end
           | None => 0 end =? fm_size (f_meta f))
          then compact_emit (J_TRUNCATE id (fm_size (f_meta f))) a else Some (Some a));
     compact_emit_binds id (f_extents f) (set_ordered (dom (f_extents f))) a) =
     Some (Some (acc_ext a (j :: tr ++ binds)))).
  { intros j. cbn [acc_bind mbind option_bind]. rewrite Ht; [|done|].
    - cbn [acc_bind mbind option_bind]. rewrite Hb.
      + by rewrite !acc_ext_app.
      + apply acc_ok_ext, acc_ok_ext. simpl. eapply acc_ok_le; [done|lia].
    - apply acc_ok_ext. simpl. eapply acc_ok_le; [done|lia]. }
  destruct (f_parent f) as [p|] eqn:Ep.
  - destruct (wn_parent _ _ _ _ Hwn id _ p Hl Ep) as (_ & Hg & Hpid).
    change (fm_parent_id (f_meta (strip f))) with (fm_parent_id (f_meta f)) in Hpid. rewrite Hpid.
    rewrite lookup_fmap in Hg. apply fmap_is_Some in Hg as [g Hg]. rewrite Hg in *. cbn [mbind option_bind].
    rewrite emit_ok by (eapply acc_ok_le; [done|lia]). apply Hfin.
  - cbn [mbind option_bind]. rewrite emit_ok by (eapply acc_ok_le; [done|lia]).
    rewrite <- Hfin. cbn [acc_bind mbind option_bind].
    assert ((0 <? fm_size (f_meta f)) = negb (0 =? fm_size (f_meta f))) as ->; [|done].
    destruct (Z.ltb_spec 0 (fm_size (f_meta f))), (Z.eqb_spec 0 (fm_size (f_meta f))); simpl; lia || done.
Qed.

Lemma emit_files_ok s ids d a :
  replaying s → (∀ id, id ∈ ids → is_Some (files_by_id s !! id)) →
  acc_ok a (length (compact_files (abs s) ids)) →
  compact_emit_files s ids d a = Some (Some (acc_ext a (compact_files (abs s) ids), default d (last ids))).
Proof.
  intros Hrp. revert d a. induction ids as [|id ids IH]; intros d a Hids Hok.
  - simpl. by rewrite acc_ext_nil.
  - cbn [compact_emit_files]. destruct (Hids id) as [f Hf]; [set_solver|]. rewrite Hf. cbn [mbind option_bind].
    unfold compact_files in *. rewrite bind_cons in *. rewrite abs_file, Hf in *. cbn [fmap option_fmap option_map] in *.
    rewrite length_app in Hok.
    rewrite (emit_file_ok s id f) by first [done | (eapply acc_ok_le; [done|lia])]. cbn [acc_bind mbind option_bind].
    rewrite IH; [|set_solver|by apply acc_ok_ext]. rewrite acc_ext_app. do 3 f_equal.
    destruct (rp_wf _ Hrp) as [_ Hwn _].
    destruct (wn_id _ _ _ _ Hwn id (strip f)) as [Hid _]; [by rewrite lookup_fmap, Hf|].
    change (fm_id (f_meta (strip f))) with (fm_id (f_meta f)) in Hid. rewrite Hid.
    destruct ids as [|id' ids]; [done|]. rewrite last_cons_cons. destruct (last (id' :: ids)) eqn:El; [done|].
    by apply last_None in El.
Qed.

Lemma last_sorted_max l :
  StronglySorted Z.le l → (∀ x, x ∈ l → 0 ≤ x) → default 0 (last l) = foldr Z.max 0 l.
Proof.
  intros Hs. induction Hs as [|x l Hs IH Hx]; intros Hp; [done|].
  destruct l as [|y l].
  - simpl. specialize (Hp x ltac:(set_solver)). lia.
  - rewrite last_cons_cons, IH by set_solver. cbn [foldr].
    assert (x ≤ y) by (by apply Forall_cons in Hx as [? _]). lia.
Qed.

Lemma collect_ok s :
  replaying s → Z.of_nat (length (compact_list (abs s))) ≤ U64_MAX →
  compact_collect s [] = Some (Some (acc_ext (mk_acc [] 0 []) (compact_list (abs s)))).
Proof.
  intros Hrp Hlen. pose proof (abs_wf s Hrp) as Hawf.
  assert (Hids : set_ordered (dom (files_by_id s)) = a_ids (abs s)).
  { unfold a_ids. f_equal. cbn [abs a_files]. by rewrite dom_fmap_L. }
  unfold compact_collect. rewrite Hids. unfold compact_list in *. rewrite length_app in Hlen.
  rewrite emit_files_ok; try done.
  2:{ intros id Hid. apply elem_of_set_ordered, elem_of_dom in Hid. rewrite abs_file in Hid. by apply fmap_is_Some in Hid. }
  2:{ unfold acc_ok. simpl. split_and!; [done|lia|lia]. }
  cbn [acc_bind mbind option_bind fst snd]. unfold cyanfs_journal_compact_preserve_max_file_id.
  assert (default 0 (last (a_ids (abs s))) = max_live (abs s)) as ->.
  { apply last_sorted_max; [apply set_ordered_sorted|]. intros x Hx.
    apply elem_of_set_ordered, elem_of_dom in Hx as [f Hf]. pose proof (a_wf_id _ Hawf x f Hf). lia. }
  unfold compact_marker in *. change (max_file_id s) with (a_max (abs s)).
  destruct (Z.leb_spec (a_max (abs s)) (max_live (abs s))); [by rewrite app_nil_r|].
  assert (Hmk : cyanfs_journal_compact_marker_name s = a_marker_name (abs s)).
  { unfold cyanfs_journal_compact_marker_name, a_marker_name. 
    assert (Hext : ∀ n i, marker_search (λ name, bool_decide (is_Some (files_by_name s !! name))) n i =
                          marker_search (a_name_taken (abs s)) n i); [|apply Hext].
    intros n. induction n as [|n IH]; intros i; [done|]. cbn [marker_search].
    rewrite abs_name_taken by apply Hrp. by rewrite IH. }
  rewrite Hmk. destruct (marker_name_found (abs s) Hawf) as (name & Hname & _). rewrite Hname in *. cbn [length] in Hlen.
  rewrite emit_ok.
  - cbn [acc_bind mbind option_bind]. rewrite emit_ok.
    + by rewrite !acc_ext_app, <- ?app_assoc.
    + apply acc_ok_ext, acc_ok_ext. unfold acc_ok. simpl. split_and!; [done|lia|lia].
  - apply acc_ok_ext. unfold acc_ok. simpl. split_and!; [done|lia|lia].
Qed.

(** Replaying [n] entries into an empty super block gives a state whose
    compacted journal has at most [n] entries. *)
Lemma replay_compact_len js s s' :
  replaying s → Forall entry_ok js → replay_all js s = Some (ST_OK, s') →
  (length (compact_list (abs s')) ≤ length (compact_list (abs s)) + length js)%nat ∧ replaying s'.
Proof.
  intros Hrp Hjs. revert s Hrp. induction Hjs as [|j js Hj Hjs IH]; intros s Hrp Hrun.
  - injection Hrun as <-. split; [simpl; lia|done].
  - cbn [replay_all] in Hrun. pose proof (replay_step_refines s j Hrp Hj) as Hst.
    destruct (spec_apply j (abs s)) as [a1|] eqn:Ea; simpl in Hst.
    + destruct Hst as (s1 & E & <- & Hrp1). rewrite E in Hrun. simpl in Hrun.
      destruct (IH s1 Hrp1 Hrun) as [Hle Hrp']. split; [|done].
      pose proof (compact_len_apply (abs s) j (abs s1) (abs_wf s Hrp) Ea (abs_wf s1 Hrp1)). simpl. lia.
    + destruct Hst as (err & E). rewrite E in Hrun. done.
Qed.

Lemma replay_slot js s s' :
  replaying s → Forall entry_ok js → a_slot (abs s) → fresh_run js (abs s) →
  replay_all js s = Some (ST_OK, s') → a_slot (abs s').
Proof.
  intros Hrp Hjs. revert s Hrp. induction Hjs as [|j js Hj Hjs IH]; intros s Hrp Hs Hfr Hrun.
  - by injection Hrun as <-.
  - cbn [replay_all] in Hrun. destruct Hfr as [Hf Hfr]. pose proof (replay_step_refines s j Hrp Hj) as Hst.
    destruct (spec_apply j (abs s)) as [a1|] eqn:Ea; simpl in Hst.
    + destruct Hst as (s1 & E & <- & Hrp1). rewrite E in Hrun. simpl in Hrun.
      apply (IH s1); try done. by apply (slot_apply (abs s) j); [apply abs_wf|..].
    + destruct Hst as (err & E). by rewrite E in Hrun.
Qed.

(** The entries of a compacted journal are well formed. *)
Lemma compact_list_entries s : replaying s → Forall entry_ok (compact_list (abs s)).
Proof.
  intros Hrp. pose proof (abs_wf s Hrp) as Hwf. pose proof (a_wf_max _ Hwf) as Hmx.
  assert (Hid : ∀ id f, a_files (abs s) !! id = Some f → is_u64 id).
  { intros id f Hf. pose proof (a_wf_id _ Hwf id f Hf). unfold is_u64. lia. }
  unfold compact_list. apply Forall_app. split.
  - apply Forall_forall. intros j Hj. apply list_elem_of_bind in Hj as (id & Hj & _).
    destruct (a_files (abs s) !! id) as [f|] eqn:Hf; [|set_solver]. unfold compact_afile in Hj.
    pose proof (a_wf_name _ Hwf id f Hf) as [Hn _]. pose proof (Hid id f Hf) as Hu.
    apply elem_of_cons in Hj as [->|Hj].
    { unfold compact_birth. destruct (a_parent f) as [p|] eqn:Ep; [|done].
      destruct (a_wf_parent _ Hwf id f p Hf Ep) as [_ [g Hg]]. simpl. eauto. }
    apply elem_of_app in Hj as [Hj|Hj].
    { unfold compact_truncate in Hj. destruct (_ =? _); [set_solver|]. apply list_elem_of_singleton in Hj as ->.
      split; [done|]. apply (a_wf_size _ Hwf id f Hf). }
    apply list_elem_of_bind in Hj as (i & Hj & _). destruct (a_extents f !! i) as [b|] eqn:Hb; [|set_solver].
    apply list_elem_of_singleton in Hj as ->. destruct (a_wf_extents _ Hwf id f i b Hf Hb) as (Hi & Hix & Hr).
    apply a_index_ok_spec in Hix as [Hix _]. pose proof (a_wf_total _ Hwf) as Ht.
    change CYANFS_EXTENT_INDEX_MAX with 1073741823 in *. change CYANFS_EXTENT_COUNT_MAX with 1073741824 in *.
    simpl. unfold is_u32, U32_MAX. split_and!; [done|lia..].
  - unfold compact_marker. destruct (_ <=? _); [done|].
    destruct (marker_name_found (abs s) Hwf) as (name & -> & [Hn _] & _).
    apply Forall_cons. split; [by split|]. apply Forall_singleton. done.
Qed.

(** C3: a compaction preserves the file system and never makes the journal
    longer.  From the super block loaded from any journal [js] whose files
    were given fresh ids, the compaction collects a list of at most
    [length js] entries (so the sequence number it starts at, [seq - count],
    does not underflow), and loading that list into an empty super block
    succeeds and gives back the same files, sizes, parents, extents and
    greatest id. *)
Theorem compaction_preserves size discard compact js s :
  device_size_ok size → Forall entry_ok js → Z.of_nat (length js) ≤ U64_MAX →
  fresh_run js (a_init ((size - CYANFS_SUPER_BLOCK_SIZE) / CYANFS_EXTENT_SIZE)) →
  replay_all js (init_super size discard compact) = Some (ST_OK, s) →
  ∃ acc s', compact_collect s [] = Some (Some acc) ∧
    ca_count acc = Z.of_nat (length (ca_head acc)) ∧ ca_count acc ≤ Z.of_nat (length js) ∧
    replay_all (j_body <$> ca_head acc) (blank_super (sm_total_extents (s_meta s)) 0 0 0) = Some (ST_OK, s') ∧
    abs s' = a_set_journal ∅ (abs s).
Proof.
  intros Hs Hjs Hlen Hfr E. pose proof (init_super_replaying size discard compact Hs) as Hrp0.
  destruct (device_total size Hs) as [Ht Hr].
  assert (Ha0 : abs (init_super size discard compact) = a_init ((size - 8192) / 1048576)).
  { unfold init_super. rewrite abs_blank_super. by rewrite Ht. }
  destruct (replay_compact_len js _ s Hrp0 Hjs E) as [Hle Hrp]. rewrite Ha0 in Hle.
  change (length (compact_list (a_init ((size - 8192) / 1048576)))) with 0%nat in Hle.
  assert (Hslot : a_slot (abs s)).
  { apply (replay_slot js (init_super size discard compact)); try done; rewrite Ha0; [|done].
    right. cbn [a_init a_files]. by rewrite map_size_empty. }
  pose proof (we_total _ _ (wf_has_ext _ _ (rp_wf _ Hrp))) as Htot.
  pose proof (blank_super_replaying (sm_total_extents (s_meta s)) 0 0 0 Htot eq_refl) as Hrpb.
  pose proof (replay_all_step _ _ Hrpb (compact_list_entries s Hrp)) as Hrun. rewrite abs_blank_super in Hrun.
  pose proof (compact_list_run_lemma (abs s) (abs_wf s Hrp) Hslot) as Hl. cbn [a_total abs] in Hl. fold (abs s) in Hl.
  rewrite Hl in Hrun. destruct Hrun as (s' & Es & Ha & _).
  exists (acc_ext (mk_acc [] 0 []) (compact_list (abs s))), s'. split; [apply collect_ok; [done|lia]|].
  unfold acc_ext. cbn [ca_head ca_count app]. rewrite length_fmap, <- list_fmap_compose.
  split_and!; [lia|lia| |done].
  rewrite <- Es. f_equal. rewrite <- (list_fmap_id (compact_list (abs s))) at 2. done.
Qed.

Lemma compaction_preserves_witness :
  ∃ acc s', compact_collect ex_loaded [] = Some (Some acc) ∧
    replay_all (j_body <$> ca_head acc) (blank_super (sm_total_extents (s_meta ex_loaded)) 0 0 0) = Some (ST_OK, s') ∧
    abs s' = a_set_journal ∅ (abs ex_loaded).
Proof.
  destruct (compaction_preserves ex_size false false ex_journal ex_loaded) as (acc & s' & H1 & _ & _ & H2 & H3).
  - exact ex_size_ok.
  - exact ex_journal_ok.
  - vm_compute. discriminate.
  - vm_compute. repeat split.
  - exact ex_loaded_eq.
  - by exists acc, s'.
Defined.
