(* ===== verification/Flusher.v ===== *)
(** * Flusher: putting the journal on the disk

    Models [core/flusher.c] (the discard task is in [Discard]).  A flusher
    takes the entries of [journal_head] and the extents of [unused_extents]
    at the time it starts; the entries are written by a journal writer, and
    the extents become free only after a flush of the device that follows
    them. *)
From Stdlib Require Import ZArith Lia.
From S2P Require Import Prelude Base Journal Types Super World JournalIO Discard Compact.

(** [CYANFS_RB_FOREACH_SAFE] over the flusher's tree with
    [__cyanfs_extent_super_to_super] to [s->unused_extents]: neither tree is
    counted. *)
Definition cyanfs_super_flusher_free_done (t : Z) (w : world) : option world :=
  f ← get_flusher t w;
  let gone := set_w_flushers (delete t (w_flushers w)) in
  if set_empty (fl_unused_extents f) then Some (gone w) else
  let w := upd_super (add_flag CYANFS_SUPER_FLAG_FLUSH) w in
  let s := w_super w in
  let s := if set_empty (unused_extents s) then set_unused_extents (fl_unused_extents f) s
           else set_unused_extents (foldr rb_insert (unused_extents s) (set_ordered (fl_unused_extents f))) s in
  Some (gone (set_w_super s w)).

(** [s->writers[!s->writer_current_id]] *)
Definition other_writers (s : cyanfs_super) : Z := if writer_current_id s then writers0 s else writers1 s.

Definition cyanfs_super_flusher_after_flush_done (err : cyanfs_status) (w : world) : option world :=
  if failed err then Some (upd_super cyanfs_super_mark_error w) else
  let s := w_super w in
  if has_flag s CYANFS_SUPER_FLAG_ERROR then Some w else
  s ← (if negb (set_empty (flush_extents s)) then
         if negb (other_writers s =? 0) then Some (add_flag CYANFS_SUPER_FLAG_FLUSH s)
         else discard_list (set_ordered (flush_extents s)) T_FLUSH s
       else Some s);
  Some (set_w_super (upd_cursor (λ c, set_cur_extent_id_ondisk (cur_extent_id_flush c) c) s) w).

(** The extents of the flusher become the ones the next flush releases, when
    there are none yet, and the writers that start from now on are counted
    apart. *)
Definition take_flush_extents (t : Z) (f : cyanfs_task_super_flusher) (w : world) : world :=
  let s := w_super w in
  if set_empty (flush_extents s) && negb (set_empty (fl_unused_extents f)) then
    upd_flusher t (set_fl_unused_extents ∅)
      (set_w_super (set_writer_current_id (negb (writer_current_id s))
                      (set_flush_extents (fl_unused_extents f) s)) w)
  else w.

Definition cyanfs_super_flusher_before_flush_done (t : Z) (w : world) : option world :=
  f ← get_flusher t w;
  if has_flag (w_super w) CYANFS_SUPER_FLAG_ERROR then Some w else
  let w := take_flush_extents t f w in
  let w := upd_super (upd_cursor (λ c, set_cur_extent_id_flush (cur_extent_id c) c)) w in
  Some (task_add_head (mk_task CYANFS_TASK_FLUSH (cyanfs_super_flusher_after_flush t)) w).

Definition cyanfs_super_flusher_before_write_flush_done_fn (t : Z) (err : cyanfs_status) (w : world) : option world :=
  f ← get_flusher t w;
  let w := if failed err then upd_super __cyanfs_super_mark_error w else w in
  Some (if has_flag (w_super w) CYANFS_SUPER_FLAG_ERROR
        then set_queued_type (WRITER_FLUSHER t) CYANFS_TASK_NOP w else w).

Definition cyanfs_super_flusher_before_write_flush_fn (t : Z) (w : world) : option world :=
  f ← get_flusher t w;
  if has_flag (w_super w) CYANFS_SUPER_FLAG_ERROR
  then Some (set_queued_type (WRITER_FLUSHER t) CYANFS_TASK_NOP w) else
  let w := take_flush_extents t f w in
  Some (task_add_head (mk_task CYANFS_TASK_FLUSH (cyanfs_super_flusher_before_write_flush_done t)) w).

Definition cyanfs_super_flusher_write_error (t : Z) (w : world) : option world :=
  let w := upd_super cyanfs_super_mark_error w in
  Some (upd_flusher t (λ f, set_fl_writer (set_wr_head [] (fl_writer f)) f) w).

Definition cyanfs_super_flusher_flush_before_write (t : Z) (w : world) : option world :=
  f ← get_flusher t w;
  if fl_flush_before_write f then Some w else
  let w := upd_flusher t (set_fl_flush_before_write true) w in
  Some (task_add_head (mk_task CYANFS_TASK_NOP (cyanfs_super_flusher_before_write_flush t)) w).

Definition cyanfs_super_flusher_write_finish (t : Z) (w : world) : option world :=
  f ← get_flusher t w;
  let s := w_super w in
  let m := s_meta s in
  let c := journal_cursor s in
  let flush := negb (cur_extent_id c =? cur_extent_id_ondisk c) ||
               (fl_flush_before_write f && negb (fl_ondisk f)) in
  let limit := Z.shiftr (sm_free_extents m) 10 in
  let limit := if CYANFS_EXTENT_MAX_INFLIGHT <? limit then CYANFS_EXTENT_MAX_INFLIGHT else limit in
  let inflight := u32 (sm_total_extents m - sm_data_extents m - sm_journal_extents m - sm_free_extents m) in
  let flush := flush || (limit <? inflight) in
  let compact := (sm_reserved_extents m / 2 <=? sm_journal_extents m) &&
                 negb (has_flag s CYANFS_SUPER_FLAG_COMPACT_WORKING) in
  let w := if flush then upd_super (add_flag CYANFS_SUPER_FLAG_FLUSH) w else w in
  if compact then '(_, w) ← cyanfs_super_compact w; Some w else Some w.

Definition flusher_writer_ops (t : Z) : writer_operations :=
  {| wop_flush := Some (cyanfs_super_flusher_flush_before_write t);
     wop_finish := cyanfs_super_flusher_write_finish t;
     wop_error := cyanfs_super_flusher_write_error t |}.

Definition cyanfs_super_flusher_start (min_journal_count : Z) (ondisk : bool) (w : world) : cyanfs_status * world :=
  let s := w_super w in
  let err := __cyanfs_super_ensure_status s in
  let no_journal := journal_count s <=? min_journal_count in
  let ondisk := ondisk || has_flag s CYANFS_SUPER_FLAG_FLUSH in
  if failed err || (no_journal && negb ondisk) then (err, w) else
  let '(ok, w) := cyanfs_malloc w in
  if negb ok then (ST_ERR ERR_NOMEM, w) else
  let s := w_super w in
  let t := w_next w in
  let no_journal := bool_decide (journal_head s = []) in
  if negb (ondisk || negb no_journal) then (ST_OK, w) else
  let f := mk_flusher false ondisk (unused_extents s)
             (if no_journal then cyanfs_journal_writer_init else mk_writer (journal_head s) cyanfs_extent_id_invalid) in
  let s := set_unused_extents ∅ s in
  let s := if no_journal then s else set_journal_count 0 (set_journal_head [] s) in
  let w := set_w_next (t + 1) (set_w_flushers (<[t := f]> (w_flushers w)) (set_w_super s w)) in
  let w := if no_journal then w else cyanfs_journal_writer_start (WRITER_FLUSHER t) w in
  let w := if ondisk then
             task_add_tail (mk_task CYANFS_TASK_NOP (cyanfs_super_flusher_before_flush t))
               (upd_super (clear_flag CYANFS_SUPER_FLAG_FLUSH) w)
           else w in
  (ST_OK, task_add_tail (mk_task CYANFS_TASK_NOP (cyanfs_super_flusher_free t)) w).

Definition cyanfs_super_flush_new_journal (w : world) : world :=
  (cyanfs_super_flusher_start CYANFS_SUPER_MAX_INFLIGHT_JOURNAL false w).2.

Definition cyanfs_super_flush (ondisk : bool) (w : world) : cyanfs_status * world :=
  cyanfs_super_flusher_start 0 ondisk w.
