(* ===== verification/FlusherSpec.v ===== *)
(** * FlusherSpec: freed extents wait for a flush

    An extent that a file gives up is not reused before the journal entry that
    unbinds it is on the disk: it goes from [unused_extents] to a flusher, then to
    [flush_extents], and only the completion of a flush of the device moves it
    to the free tree.  The trees and the flushers together stay a partition of
    the extents. *)
From Stdlib Require Import ZArith Lia.
From S2P Require Import Prelude Base Journal Types Super SuperInv SuperOps World JournalIO Discard DiscardSpec Compact Flusher.

(** ** The invariant of the world *)
Definition fl_map (w : world) : gmap Z (gset Z) := fl_unused_extents <$> w_flushers w.

Record winv (w : world) : Prop := {
  wi_wf : wf (w_super w) (fl_map w);
  wi_next : ∀ t, w_next w ≤ t → w_flushers w !! t = None }.

Lemma winv_core w w' :
  winv w → same_core (w_super w) (w_super w') → fl_map w' = fl_map w → w_next w' = w_next w →
  (∀ t, w_flushers w' !! t = None ↔ w_flushers w !! t = None) → winv w'.
Proof.
  intros [Hwf Hn] Hc Hf Hx Hd. split.
  - rewrite Hf. by apply (same_core_wf (w_super w)).
  - intros t Ht. apply Hd, Hn. by rewrite <- Hx.
Qed.

(** ** Moving the extents of one place to another *)
Definition uncounted (p : place) : Prop :=
  match p with P_TREE T_FREE | P_TREE T_JOURNAL | P_FILE _ _ => False | _ => True end.

Lemma wf_moved_set s s' fl fl' (X : gset Z) src dst :
  wf s fl → uncounted src → uncounted dst → (∀ c, c ∈ X → owns s fl src c) →
  moved_all (owns s fl) (owns s' fl') X dst →
  files_by_id s' = files_by_id s → files_by_name s' = files_by_name s → s_meta s' = s_meta s → nodes s' = nodes s →
  max_file_id s' = max_file_id s → wf s' fl'.
Proof.
  intros [[Ht [Hcv Hrg Hun] Hnd Hfr Hj Hda Hfe] Hwn Hwi] Hs Hd HX Ho Hf Hn Hm Hns Hmx.
  assert (Htr : ∀ r, ¬ uncounted (P_TREE r) → tree_get r s' = tree_get r s).
  { intros r Hr. apply leibniz_equiv. intros c. pose proof (Ho (P_TREE r) c) as Hc. simpl in Hc. rewrite Hc. split.
    - intros [[_ <-]|[_ ?]]; [by destruct (Hr Hd)|done].
    - intros Hin. right. split; [|done]. intros Hx. apply Hr.
      assert (E : src = P_TREE r) by (by apply (Hun _ _ c (HX c Hx))). by rewrite <- E. }
  split; [|unfold wf_ns; by rewrite Hf, Hn, Hm, Hmx|unfold wf_idx; by rewrite Hf].
  split; try (rewrite Hm); try done.
  - split.
    + intros c Hc. destruct (decide (c ∈ X)) as [Hx|Hx]; [exists dst; apply Ho; by left|].
      destruct (Hcv c Hc) as [p Hp]. exists p. apply Ho. by right.
    + intros p c [[Hx _]|[_ Hp]]%Ho; [exact (Hrg src c (HX c Hx))|exact (Hrg p c Hp)].
    + intros p p' c [[Hx ->]|[Hx Hp]]%Ho [[Hx' ->]|[Hx' Hp']]%Ho; try done. by eapply Hun.
  - intros p c [[Hx ->]|[_ Hp]]%Ho; rewrite Hns; [|by apply Hnd].
    destruct (Hnd src c (HX c Hx)) as (e & He & Hok). exists e. split; [done|].
    destruct src as [[]| |], dst as [[]| |]; done.
  - rewrite Hfr. f_equal. f_equal. symmetry. apply (Htr T_FREE). by intros [].
  - rewrite Hj. f_equal. f_equal. symmetry. apply (Htr T_JOURNAL). by intros [].
  - by rewrite Hf.
  - by rewrite Hf.
Qed.

(** The same from what happens at the two places. *)
Lemma wf_shifted s s' fl fl' (X : gset Z) src dst :
  wf s fl → uncounted src → uncounted dst → src ≠ dst → (∀ c, c ∈ X → owns s fl src c) →
  (∀ c, owns s' fl' src c ↔ owns s fl src c ∧ c ∉ X) → (∀ c, owns s' fl' dst c ↔ owns s fl dst c ∨ c ∈ X) →
  (∀ q c, q ≠ src → q ≠ dst → owns s' fl' q c ↔ owns s fl q c) →
  files_by_id s' = files_by_id s → files_by_name s' = files_by_name s → s_meta s' = s_meta s → nodes s' = nodes s →
  max_file_id s' = max_file_id s → wf s' fl' ∧ moved_all (owns s fl) (owns s' fl') X dst.
Proof.
  intros Hwf Hs Hd Hne HX Hsrc Hdst Hq Hf Hn Hm Hns Hmx. pose proof (owns_unique _ _ (wf_has_ext _ _ Hwf)) as Hun.
  assert (Hma : moved_all (owns s fl) (owns s' fl') X dst); [|by split; [apply (wf_moved_set s s' fl fl' X src dst Hwf)|]].
  intros q c.
  destruct (decide (c ∈ X)) as [Hx|Hx].
  - specialize (HX c Hx). destruct (decide (q = dst)) as [->|Hqd]; [rewrite Hdst; naive_solver|].
    destruct (decide (q = src)) as [->|Hqs]; [rewrite Hsrc; naive_solver|]. rewrite Hq by done. split; [|naive_solver].
    intros Ho. by destruct Hqs; eapply Hun.
  - destruct (decide (q = dst)) as [->|Hqd]; [rewrite Hdst; naive_solver|].
    destruct (decide (q = src)) as [->|Hqs]; [rewrite Hsrc; naive_solver|]. rewrite Hq by done. naive_solver.
Qed.

(** ** The stages of an extent that is given up *)
Definition stage (p : place) : nat :=
  match p with P_TREE T_UNUSED => 0 | P_FLUSHER _ => 1 | P_TREE T_FLUSH => 2 | _ => 3 end.

(** What a step of the flush machinery is, in the life of an extent: a flusher
    starts, a flush of the device is submitted, one succeeds. *)
Inductive flusher_event := EV_START | EV_SUBMIT | EV_FLUSHED | EV_OTHER.

#[export] Instance flusher_event_eq_dec : EqDecision flusher_event.
Proof. solve_decision. Defined.

Definition event_stage (e : flusher_event) : option nat :=
  match e with EV_START => Some 0 | EV_SUBMIT => Some 1 | EV_FLUSHED => Some 2 | EV_OTHER => None end%nat.

Record climbs (e : flusher_event) (own own' : place → Z → Prop) : Prop := {
  cl_keeps : ∀ p c, own p c → ∃ q, own' q c;
  cl_stage : ∀ p p' c, own p c → own' p' c →
    (stage p' ≤ stage p)%nat ∨ (event_stage e = Some (stage p) ∧ stage p' = S (stage p)) }.

(** The outcome of a step from [w]. *)
Record flushed (e : flusher_event) (w w' : world) : Prop := {
  fd_inv : winv w';
  fd_climbs : climbs e (owns (w_super w) (fl_map w)) (owns (w_super w') (fl_map w')) }.

Lemma climbs_moved `{ElemOf Z C, !RelDecision (∈@{C})} e s fl s' fl' (X : C) src dst :
  wf s fl → moved_all (owns s fl) (owns s' fl') X dst → (∀ m, m ∈ X → owns s fl src m) →
  ((stage dst ≤ stage src)%nat ∨ (event_stage e = Some (stage src) ∧ stage dst = S (stage src))) →
  climbs e (owns s fl) (owns s' fl').
Proof.
  intros Hwf Hm Hs He. split.
  { intros p c Hp. destruct (decide (c ∈ X)); [exists dst|exists p]; apply Hm; [by left|by right]. }
  intros p p' c Hp Hp'. destruct (moved_all_place _ _ X src dst p p' c Hm) as [->|[-> ->]]; try done; [|by left].
  intros q q'. apply (owns_unique _ _ (wf_has_ext _ _ Hwf)).
Qed.

Lemma climbs_same e s fl s' fl' :
  wf s fl → (∀ q c, owns s' fl' q c ↔ owns s fl q c) → climbs e (owns s fl) (owns s' fl').
Proof.
  intros Hwf Ho. split; [intros p c Hp; exists p; by apply Ho|]. intros p p' c Hp Hp'%Ho. left. by rewrite (owns_unique _ _ (wf_has_ext _ _ Hwf) p p' c Hp Hp').
Qed.

Lemma same_core_owns s s' fl q c : same_core s s' → owns s' fl q c ↔ owns s fl q c.
Proof. intros [Hf _ _ _ Ht _]. destruct q; simpl; [by rewrite Ht|by rewrite Hf|done]. Qed.

Lemma climbs_core e own s s' fl : climbs e own (owns s fl) → same_core s s' → climbs e own (owns s' fl).
Proof.
  intros [Hk Hc] Hs. split.
  - intros p c Hp. destruct (Hk p c Hp) as [q Hq]. exists q. by apply (same_core_owns s).
  - intros p p' c Hp Hp'%(same_core_owns s); [|done]. by apply (Hc p p' c).
Qed.

(** A step that moves nothing. *)
Lemma flushed_same e w w' :
  winv w → same_core (w_super w) (w_super w') → fl_map w' = fl_map w → w_next w' = w_next w → flushed e w w'.
Proof.
  intros [Hwf Hn] Hc Hf Hx. split; [split|].
  - rewrite Hf. by apply (same_core_wf (w_super w)).
  - intros t Ht. apply fmap_None with (f := fl_unused_extents). rewrite <- lookup_fmap. fold (fl_map w').
    rewrite Hf. unfold fl_map. rewrite lookup_fmap, Hn by lia. done.
  - apply climbs_same; [done|]. intros q c. rewrite Hf. by rewrite same_core_owns.
Qed.

(** Starting a flusher: it takes the unused extents. *)
Lemma start_shift s fl t j n :
  wf s fl → fl !! t = None →
  let s' := set_journal_count n (set_journal_head j (set_unused_extents ∅ s)) in
  wf s' (<[t := unused_extents s]> fl) ∧ climbs EV_START (owns s fl) (owns s' (<[t := unused_extents s]> fl)).
Proof.
  intros Hwf Ht s'.
  destruct (wf_shifted s s' fl (<[t := unused_extents s]> fl) (unused_extents s) (P_TREE T_UNUSED) (P_FLUSHER t) Hwf) as [Hwf' Hm]; try done.
  - intros c. simpl. set_solver.
  - intros c. simpl. rewrite lookup_insert_eq. split.
    + intros (Y & [= <-] & Hc). by right.
    + intros [(Y & HY & _)|Hc]; [congruence|]. eauto.
  - intros [r|id i|k] c Hs Hd; [|done|].
    + by destruct r.
    + simpl. rewrite lookup_insert_ne by congruence. done.
  - split; [done|]. eapply (climbs_moved _ s fl s' _ (unused_extents s) (P_TREE T_UNUSED) (P_FLUSHER t)); try done. by right.
Qed.

(** The world with less memory. *)
Lemma malloc_same w : ∃ l, (cyanfs_malloc w).2 = set_w_malloc l w.
Proof. unfold cyanfs_malloc. destruct (w_malloc w) as [|b l] eqn:E; [exists []; rewrite <- E; by destruct w|by exists l]. Qed.

(** Steps that move nothing before or after. *)
Lemma flushed_after e w w1 w' :
  flushed e w w1 → same_core (w_super w1) (w_super w') → fl_map w' = fl_map w1 → w_next w' = w_next w1 → flushed e w w'.
Proof.
  intros [Hi Hc] Hs Hf Hn. destruct (flushed_same EV_OTHER w1 w' Hi Hs Hf Hn) as [Hi' _]. split; [done|].
  rewrite Hf. by apply (climbs_core _ _ (w_super w1)).
Qed.

Lemma flushed_before e w w1 w' :
  winv w → same_core (w_super w) (w_super w1) → fl_map w1 = fl_map w → w_next w1 = w_next w →
  (winv w1 → flushed e w1 w') → flushed e w w'.
Proof.
  intros Hi Hs Hf Hn Hk. destruct (flushed_same EV_OTHER w w1 Hi Hs Hf Hn) as [Hi1 _].
  destruct (Hk Hi1) as [Hi' [Hke Hc]]. split; [done|]. rewrite Hf in Hke, Hc.
  split; [intros p c Hp; apply (Hke p c)|intros p p' c Hp; apply (Hc p p' c)]; by apply (same_core_owns _ _ _ _ _ Hs).
Qed.


Lemma fl_map_upd t g w :
  (∀ f, fl_unused_extents (g f) = fl_unused_extents f) → fl_map (upd_flusher t g w) = fl_map w.
Proof.
  intros Hg. apply map_eq. intros k. unfold fl_map. cbn [w_flushers upd_flusher set_w_flushers]. rewrite !lookup_fmap.
  destruct (decide (k = t)) as [->|]; [|by rewrite lookup_alter_ne].
  rewrite lookup_alter_eq. destruct (w_flushers w !! t); [|done]. simpl. by rewrite Hg.
Qed.

(** ** The handlers *)

Lemma fl_map_insert t f w : fl_map (set_w_flushers (<[t := f]> (w_flushers w)) w) = <[t := fl_unused_extents f]> (fl_map w).
Proof. unfold fl_map. cbn [w_flushers set_w_flushers]. apply fmap_insert. Qed.

Lemma fl_map_None t w : w_flushers w !! t = None → fl_map w !! t = None.
Proof. intros H. unfold fl_map. by rewrite lookup_fmap, H. Qed.

Lemma flusher_start_ok n ondisk w : winv w → flushed EV_START w (cyanfs_super_flusher_start n ondisk w).2.
Proof.
  intros Hi. unfold cyanfs_super_flusher_start. generalize (ondisk || has_flag (w_super w) CYANFS_SUPER_FLAG_FLUSH). intros od. cbv zeta.
  destruct (failed _ || _); [by apply flushed_same|].
  destruct (malloc_same w) as [l El]. destruct (cyanfs_malloc w) as [ok w1]. cbn [snd] in El. subst w1.
  destruct ok; cbn [negb]; [|by apply flushed_same].
  apply (flushed_before _ w (set_w_malloc l w)); try done. intros Hi1. generalize dependent (set_w_malloc l w). clear w Hi.
  intros w Hi. set (s := w_super w). set (t := w_next w).
  destruct (negb (_ || _)); [by apply flushed_same|].
  set (nj := bool_decide _). set (s1 := if nj then set_unused_extents ∅ s else _).
  set (f := mk_flusher false od (unused_extents s) _). set (w1 := set_w_next (t + 1) _).
  assert (Hw1 : flushed EV_START w w1).
  { destruct Hi as [Hwf Hnx].
    destruct (start_shift s (fl_map w) t (journal_head s1) (journal_count s1) Hwf) as [Hwf1 Hcl].
    { apply fl_map_None, Hnx. subst t. lia. }
    assert (Hs1 : set_journal_count (journal_count s1) (set_journal_head (journal_head s1) (set_unused_extents ∅ s)) = s1)
      by (subst s1; by destruct nj).
    cbv zeta in Hwf1, Hcl. rewrite Hs1 in Hwf1, Hcl.
    assert (Hfl : fl_map w1 = <[t := unused_extents s]> (fl_map w)) by (exact (fl_map_insert t f w)).
    split; [split|].
    - rewrite Hfl. exact Hwf1.
    - intros k Hk. unfold w1 in *. cbn [w_flushers w_next set_w_flushers set_w_next set_w_super] in *.
      rewrite lookup_insert_ne by lia. apply Hnx. lia.
    - rewrite Hfl. exact Hcl. }
  apply (flushed_after _ w w1); [done|..]; destruct nj, od; done.
Qed.

(** The extents of a flusher go back to the unused ones. *)
Lemma free_shift s fl t X s' :
  wf s fl → fl !! t = Some X → same_core (set_unused_extents (X ∪ unused_extents s) s) s' →
  wf s' (delete t fl) ∧ climbs EV_OTHER (owns s fl) (owns s' (delete t fl)).
Proof.
  intros Hwf Ht Hc. set (s1 := set_unused_extents _ s) in *.
  destruct (wf_shifted s s1 fl (delete t fl) X (P_FLUSHER t) (P_TREE T_UNUSED) Hwf) as [Hwf1 Hma]; try done.
  - intros c Hc'. simpl. eauto.
  - intros c. simpl. rewrite lookup_delete_eq, Ht. naive_solver.
  - intros c. simpl. set_solver.
  - intros [r|id i|k] c Hs Hd; [by destruct r|done|]. simpl. rewrite lookup_delete_ne by congruence. done.
  - split; [by apply (same_core_wf s1)|]. apply (climbs_core _ _ s1 _ _); [|done].
    apply (climbs_moved EV_OTHER s fl s1 _ X (P_FLUSHER t) (P_TREE T_UNUSED) Hwf Hma); [simpl; eauto|left; simpl; lia].
Qed.

Lemma foldr_rb_insert l X : foldr rb_insert X l = list_to_set l ∪ X.
Proof. induction l as [|n l IH]; simpl; [by rewrite (left_id_L ∅ (∪))|]. rewrite IH. unfold rb_insert. set_solver. Qed.

Lemma list_to_set_ordered (X : gset Z) : list_to_set (set_ordered X) = X.
Proof. apply leibniz_equiv. intros c. by rewrite elem_of_list_to_set, elem_of_set_ordered. Qed.

Lemma set_w_super_id w : set_w_super (w_super w) w = w.
Proof. by destruct w. Qed.

Lemma flusher_free_ok t w :
  winv w → is_Some (w_flushers w !! t) →
  ∃ w', cyanfs_super_flusher_free_done t w = Some w' ∧ flushed EV_OTHER w w'.
Proof.
  intros [Hwf Hnx] [f Hf]. unfold cyanfs_super_flusher_free_done, get_flusher. rewrite Hf. cbn [mbind option_bind].
  assert (Hm : fl_map w !! t = Some (fl_unused_extents f)) by (unfold fl_map; by rewrite lookup_fmap, Hf).
  assert (Hend : ∀ s', same_core (set_unused_extents (fl_unused_extents f ∪ unused_extents (w_super w)) (w_super w)) s' →
    flushed EV_OTHER w (set_w_flushers (delete t (w_flushers w)) (set_w_super s' w))).
  { intros s' Hc. destruct (free_shift _ _ _ _ s' Hwf Hm Hc) as [Hwf' Hcl].
    assert (Hfl : fl_map (set_w_flushers (delete t (w_flushers w)) (set_w_super s' w)) = delete t (fl_map w)) by apply fmap_delete.
    split; [split|]; rewrite ?Hfl; try done. intros k Hk. apply lookup_delete_None. right. by apply Hnx. }
  destruct (set_empty (fl_unused_extents f)) eqn:Ee; (eexists; split; [done|]).
  - apply set_empty_true in Ee. specialize (Hend (w_super w)).
    rewrite set_w_super_id in Hend. apply Hend. split; try done.
    intros []; try done. cbn [tree_get set_unused_extents unused_extents]. rewrite Ee. symmetry. apply (left_id_L ∅ (∪)).
  - apply (Hend (if set_empty _ then _ else _)). destruct (set_empty (unused_extents _)) eqn:Eu.
    + apply set_empty_true in Eu. split; try done. intros []; try done.
      cbn [tree_get set_unused_extents unused_extents]. change (unused_extents (w_super w) = ∅) in Eu. rewrite Eu. by rewrite (right_id_L ∅ (∪)).
    + split; try done. intros []; try done.
      cbn [tree_get set_unused_extents unused_extents]. by rewrite foldr_rb_insert, list_to_set_ordered.
Qed.

(** The extents of a flusher are handed to the next flush. *)
Lemma take_shift s fl t X b :
  wf s fl → fl !! t = Some X → flush_extents s = ∅ →
  let s' := set_writer_current_id b (set_flush_extents X s) in
  wf s' (<[t := ∅]> fl) ∧ climbs EV_SUBMIT (owns s fl) (owns s' (<[t := ∅]> fl)).
Proof.
  intros Hwf Ht He s'.
  destruct (wf_shifted s s' fl (<[t := ∅]> fl) X (P_FLUSHER t) (P_TREE T_FLUSH) Hwf) as [Hwf1 Hma]; try done.
  - intros c Hc'. simpl. eauto.
  - intros c. simpl. rewrite lookup_insert_eq, Ht.
    split; [intros (Y & [= <-] & Hc); by apply elem_of_empty in Hc|by intros [(Y & [= <-] & Hc) Hn]].
  - intros c. simpl. set_solver.
  - intros [r|id i|k] c Hs Hd; [by destruct r|done|]. simpl. rewrite lookup_insert_ne by congruence. done.
  - split; [done|].
    apply (climbs_moved EV_SUBMIT s fl s' _ X (P_FLUSHER t) (P_TREE T_FLUSH) Hwf Hma); [simpl; eauto|by right].
Qed.

Lemma take_flush_extents_ok t f w :
  winv w → w_flushers w !! t = Some f → flushed EV_SUBMIT w (take_flush_extents t f w).
Proof.
  intros Hi Hf. unfold take_flush_extents. cbv zeta. destruct (set_empty _ && _) eqn:E; [|by apply flushed_same].
  apply andb_true_iff in E as [Ee%set_empty_true _]. destruct Hi as [Hwf Hnx].
  assert (Hm : fl_map w !! t = Some (fl_unused_extents f)) by (unfold fl_map; by rewrite lookup_fmap, Hf).
  destruct (take_shift _ _ t _ (negb (writer_current_id (w_super w))) Hwf Hm Ee) as [Hwf' Hcl]. cbv zeta in Hwf', Hcl.
  set (w' := upd_flusher _ _ _).
  assert (Hfl : fl_map w' = <[t := ∅]> (fl_map w)).
  { apply map_eq. intros k. unfold w', fl_map. cbn [w_flushers upd_flusher set_w_flushers set_w_super]. rewrite lookup_fmap.
    destruct (decide (k = t)) as [->|]; [by rewrite lookup_alter_eq, lookup_insert_eq, Hf|].
    by rewrite lookup_alter_ne, lookup_insert_ne, lookup_fmap. }
  split; [split|]; rewrite ?Hfl; try done. intros k Hk. unfold w'. cbn [w_flushers upd_flusher set_w_flushers set_w_super].
  rewrite lookup_alter_None. by apply Hnx.
Qed.

Lemma before_flush_ok t w :
  winv w → is_Some (w_flushers w !! t) →
  ∃ w', cyanfs_super_flusher_before_flush_done t w = Some w' ∧ flushed EV_SUBMIT w w'.
Proof.
  intros Hi [f Hf]. unfold cyanfs_super_flusher_before_flush_done, get_flusher. rewrite Hf. cbn [mbind option_bind].
  destruct (has_flag _ _); (eexists; split; [done|]); [by apply flushed_same|].
  by apply (flushed_after _ w (take_flush_extents t f w)); [apply take_flush_extents_ok|..].
Qed.

Lemma before_write_flush_ok t w :
  winv w → is_Some (w_flushers w !! t) →
  ∃ w', cyanfs_super_flusher_before_write_flush_fn t w = Some w' ∧ flushed EV_SUBMIT w w'.
Proof.
  intros Hi [f Hf]. unfold cyanfs_super_flusher_before_write_flush_fn, get_flusher. rewrite Hf. cbn [mbind option_bind].
  destruct (has_flag _ _); (eexists; split; [done|]); [by apply flushed_same|].
  by apply (flushed_after _ w (take_flush_extents t f w)); [apply take_flush_extents_ok|..].
Qed.

Lemma before_write_flush_done_ok t err w :
  winv w → is_Some (w_flushers w !! t) →
  ∃ w', cyanfs_super_flusher_before_write_flush_done_fn t err w = Some w' ∧ flushed EV_OTHER w w'.
Proof.
  intros Hi [f Hf]. unfold cyanfs_super_flusher_before_write_flush_done_fn, get_flusher. rewrite Hf. cbn [mbind option_bind].
  eexists. split; [done|]. destruct (failed err), (has_flag _ _); by apply flushed_same.
Qed.

Lemma write_error_ok t w : winv w → ∃ w', cyanfs_super_flusher_write_error t w = Some w' ∧ flushed EV_OTHER w w'.
Proof.
  intros Hi. eexists. split; [done|]. apply flushed_same; [done|done| |done].
  exact (fl_map_upd t (λ f, set_fl_writer (set_wr_head [] (fl_writer f)) f) (upd_super cyanfs_super_mark_error w) (λ f, eq_refl)).
Qed.

Lemma flush_before_write_ok t w :
  winv w → is_Some (w_flushers w !! t) →
  ∃ w', cyanfs_super_flusher_flush_before_write t w = Some w' ∧ flushed EV_OTHER w w'.
Proof.
  intros Hi [f Hf]. unfold cyanfs_super_flusher_flush_before_write, get_flusher. rewrite Hf. cbn [mbind option_bind].
  destruct (fl_flush_before_write f); (eexists; split; [done|]); [by apply flushed_same|].
  apply flushed_same; [done|done| |done]. by apply (fl_map_upd t (set_fl_flush_before_write true) w).
Qed.

(** A flush of the device succeeded, or failed. *)
Lemma after_flush_ok err w :
  winv w →
  ∃ w', cyanfs_super_flusher_after_flush_done err w = Some w' ∧ flushed (if failed err then EV_OTHER else EV_FLUSHED) w w'.
Proof.
  intros Hi. unfold cyanfs_super_flusher_after_flush_done.
  destruct (failed err); [eexists; split; [done|]; by apply flushed_same|].
  destruct (has_flag _ _); [eexists; split; [done|]; by apply flushed_same|].
  destruct (negb (set_empty _)); [|eexists; split; [done|]; by apply flushed_same].
  destruct (negb (_ =? 0)); [eexists; split; [done|]; by apply flushed_same|].
  set (s := w_super w). destruct Hi as [Hwf Hnx].
  destruct (discard_list_ok (set_ordered (flush_extents s)) s (fl_map w) T_FLUSH Hwf) as (s1 & -> & Hwf1 & Hma & _).
  { unfold discard_dest. by destruct (has_flag _ _). }
  { apply NoDup_set_ordered. }
  { by intros n Hn%elem_of_set_ordered. }
  cbn [mbind option_bind]. eexists. split; [done|].
  apply (flushed_after _ w (set_w_super s1 w)); [|done..]. split; [by split|].
  apply (climbs_moved _ _ _ _ _ (set_ordered (flush_extents s)) (P_TREE T_FLUSH) _ Hwf Hma).
  - by intros m Hm%elem_of_set_ordered.
  - right. unfold discard_dest. by destruct (has_flag _ _).
Qed.

(** ** The discard task *)
Lemma discard_begin_step w :
  winv w → ∃ s', discard_extents_begin (w_super w) = Some s' ∧ flushed EV_OTHER w (set_w_super s' w).
Proof.
  intros [Hwf Hnx]. destruct (discard_begin_ok (w_super w) (fl_map w) Hwf) as (s' & E & Hwf' & _ & Hd).
  exists s'. split; [done|]. split; [by split|]. destruct Hd as [[_ ->]|(n & k & _ & Hsub & Hma & _)].
  - by apply climbs_same.
  - by apply (climbs_moved _ _ _ _ _ _ (P_TREE T_WAIT_DISCARD) _ Hwf Hma); [|left].
Qed.

(** Two steps after which no extent is closer to being free. *)
Lemma flushed_trans e w w1 w' : flushed EV_OTHER w w1 → flushed e w1 w' → flushed e w w'.
Proof.
  intros [_ [Hk Hc]] [Hi' [Hk' Hc']]. split; [done|]. split.
  - intros p c Hp. destruct (Hk p c Hp) as [q Hq]. eauto.
  - intros p p' c Hp Hp'. destruct (Hk p c Hp) as [q Hq].
    destruct (Hc p q c Hp Hq) as [H1|[? _]]; [|done]. destruct (Hc' q p' c Hq Hp') as [H2|[H2 H3]]; [left; lia|].
    destruct (decide (stage p = stage q)) as [E|]; [right; by rewrite E|left; lia].
Qed.

Lemma flushed_weaken e w w' : flushed EV_OTHER w w' → flushed e w w'.
Proof.
  intros [Hi [Hk Hc]]. split; [done|]. split; [done|]. intros p p' c Hp Hp'. destruct (Hc p p' c Hp Hp') as [?|[? _]]; [by left|done].
Qed.

Lemma discard_done_step w :
  winv w → ∃ s', discard_extents_done (w_super w) = Some s' ∧ flushed EV_OTHER w (set_w_super s' w).
Proof.
  intros [Hwf Hnx]. destruct (discard_done_ok (w_super w) (fl_map w) Hwf) as (s1 & s' & _ & E & E' & Hwf1 & _ & Hma).
  exists s'. split; [done|]. apply (flushed_trans _ w (set_w_super s1 w)).
  - split; [by split|]. apply (climbs_moved _ _ _ _ _ _ (P_TREE T_DISCARD) _ Hwf Hma); [|by left].
    by intros m Hm%elem_of_set_ordered.
  - destruct (discard_begin_step (set_w_super s1 w)) as (s2 & E2 & Hs); [by split|].
    change (discard_extents_begin s1 = Some s2) in E2. rewrite E' in E2. injection E2 as <-. exact Hs.
Qed.

(** ** Starting a compaction *)
Lemma malloc_nodes_same n w : ∃ l, (malloc_nodes n w).2 = set_w_malloc l w.
Proof.
  revert w. induction n as [|n IH]; intros w; [exists (w_malloc w); by destruct w|]. cbn [malloc_nodes].
  destruct (malloc_same w) as [l El]. destruct (cyanfs_malloc w) as [ok w1]. cbn [snd] in El. subst w1.
  destruct ok; [|by exists l]. destruct (IH (set_w_malloc l w)) as [l' ->]. by exists l'.
Qed.

Lemma compact_start_same w :
  ∃ st w', cyanfs_super_compact w = Some (st, w') ∧ same_core (w_super w) (w_super w') ∧ w_flushers w' = w_flushers w ∧
    w_next w' = w_next w ∧ journal_head (w_super w') = journal_head (w_super w).
Proof.
  unfold cyanfs_super_compact. destruct (failed _); [by eexists _, _|]. destruct (negb _); [by eexists _, _|].
  destruct (has_flag _ _); [by eexists _, _|]. set (w0 := upd_super _ w).
  destruct (malloc_same w0) as [l El]. destruct (cyanfs_malloc w0) as [ok w1]. cbn [snd] in El. subst w1.
  destruct ok; cbn [negb]; [|by eexists _, _].
  destruct (malloc_same (set_w_malloc l w0)) as [l2 El]. destruct (cyanfs_malloc _) as [ok w1]. cbn [snd] in El. subst w1.
  destruct ok; cbn [negb]; [|by eexists _, _]. set (w2 := set_w_malloc l2 _). cbv zeta.
  destruct (malloc_nodes_same (Z.to_nat (sm_total_extents (s_meta (w_super w)))) w2) as [l3 El].
  destruct (malloc_nodes _ w2) as [ok w3]. cbn [snd] in El. subst w3.
  destruct ok; cbn [negb]; by eexists _, _.
Qed.

Lemma write_finish_ok t w :
  winv w → is_Some (w_flushers w !! t) →
  ∃ w', cyanfs_super_flusher_write_finish t w = Some w' ∧ flushed EV_OTHER w w'.
Proof.
  intros Hi [f Hf]. unfold cyanfs_super_flusher_write_finish, get_flusher. rewrite Hf. cbn [mbind option_bind]. cbv zeta.
  set (w1 := if _ : bool then upd_super (add_flag CYANFS_SUPER_FLAG_FLUSH) w else w).
  assert (H1 : flushed EV_OTHER w w1) by (subst w1; destruct (_ || _); by apply flushed_same).
  clearbody w1. destruct (_ && _); [|by exists w1].
  destruct (compact_start_same w1) as (st & w' & -> & Hc & Hfl & Hnx & _). cbn [mbind option_bind].
  exists w'. split; [done|]. apply (flushed_after _ w w1); try done. unfold fl_map. by rewrite Hfl.
Qed.
