(* ===== verification/WriterSpec.v ===== *)
(** * WriterSpec: a flusher's writer extends the journal of the device

    One turn of [cyanfs_journal_writer_encode] for a flusher: it takes a
    non-empty prefix of the entries, claims a free extent when the record ends
    with a link, queues the write of the record at the place where the journal
    of the device ends, and moves the cursor past it.  Once the write is done
    the journal of the device holds the entries. *)
From Stdlib Require Import ZArith Lia.
From S2P Require Import Prelude Base Disk Journal Spec Types Super SuperInv SuperOps World JournalIO JournalRecord JournalLoad JournalScan JournalLog Discard DiscardSpec Compact Flusher FlusherSpec.

(** The journal of device [d] holds the entries [es] from [st0] to [st], where
    the cursor of the instance stands. *)
Record journal_at (w : world) (d : disk) (st0 : scan_state) (es : list cyanfs_journal_entry) (st : scan_state) : Prop := {
  ja_seed : is_u32 (uuid_seed (sm_uuid (s_meta (w_super w))));
  ja_start : scan_ok (sm_total_extents (s_meta (w_super w))) st0 ∧ last (sc_ids st0) = Some (sc_id st0);
  ja_logged : logged (disk_extent d) (uuid_seed (sm_uuid (s_meta (w_super w)))) (sm_total_extents (s_meta (w_super w))) st0 es st;
  ja_cursor : let c := journal_cursor (w_super w) in
    cur_extent_id c = sc_id st ∧ cur_extent_off c = sc_off st ∧ cur_seq c = sc_seq st;
  ja_page : let c := journal_cursor (w_super w) in
    length (cur_page c) = Z.to_nat CYANFS_JOURNAL_PAGE_SIZE ∧ Forall is_byte (cur_page c);
  ja_ids : ∀ id, id ∈ sc_ids st → id ∈ journal_extents (w_super w) }.

(** The writer of flusher [t] has the entries [head] left. *)
Record writing (t : Z) (head : list cyanfs_journal_entry) (w : world) : Prop := {
  wg_inv : winv w;
  wg_error : has_flag (w_super w) CYANFS_SUPER_FLAG_ERROR = false;
  wg_flusher : ∃ f, w_flushers w !! t = Some f ∧ fl_writer f = mk_writer head cyanfs_extent_id_invalid;
  wg_regular : regular head;
  wg_entries : Forall (λ j, entry_ok (j_body j)) head }.

Definition jview_same (w w' : world) : Prop :=
  journal_cursor (w_super w') = journal_cursor (w_super w) ∧ journal_extents (w_super w') = journal_extents (w_super w) ∧
  sm_total_extents (s_meta (w_super w')) = sm_total_extents (s_meta (w_super w)) ∧
  sm_uuid (s_meta (w_super w')) = sm_uuid (s_meta (w_super w)).

(** The size and the identity of the file system. *)
Definition same_volume (w w' : world) : Prop :=
  sm_total_extents (s_meta (w_super w')) = sm_total_extents (s_meta (w_super w)) ∧
  sm_uuid (s_meta (w_super w')) = sm_uuid (s_meta (w_super w)).

Lemma journal_at_same w w' d st0 es st : jview_same w w' → journal_at w d st0 es st → journal_at w' d st0 es st.
Proof. intros (Hc & Hj & Ht & Hu) [Hs Hst Hl Hcu Hp Hi]. split; rewrite ?Hc, ?Hj, ?Ht, ?Hu; done. Qed.

(** ** The extent of the next record *)
Lemma choose_next_ok p w st :
  winv w → (∀ id, id ∈ sc_ids st → id ∈ journal_extents (w_super w)) → rp_final_link p = false →
  (rp_need_next p = true → free_extents (w_super w) ≠ ∅) →
  ∃ new s, choose_next p cyanfs_extent_id_invalid w = Some (Some new, set_w_super s w) ∧
    next_of p new ∧ (∀ id, new = Some id → may_follow (sm_total_extents (s_meta (w_super w))) id (sc_ids st) = true) ∧
    wf s (fl_map w) ∧ rest s = rest (w_super w) ∧
    (∀ id, id ∈ journal_extents (w_super w) ∨ new = Some id → id ∈ journal_extents s) ∧
    (size (free_extents (w_super w)) ≤ S (size (free_extents s)))%nat.
Proof.
  intros [Hwf _] Hids Hfl Hfree. unfold choose_next. rewrite Hfl. destruct (rp_need_next p) eqn:En.
  - destruct (__cyanfs_super_find_nearly_extent (w_super w) 0) as [n|] eqn:Ef; [|apply find_nearly_None in Ef; by destruct (Hfree eq_refl)].
    apply find_nearly_in in Ef.
    destruct (super_to_super_ok _ _ T_FREE T_JOURNAL n (wf_has_ext _ _ Hwf) Ef) as (s & E & Hwe & Hm & Hfr & Hf & Hn).
    rewrite E. cbn [mbind option_bind].
    destruct (we_node _ _ (wf_has_ext _ _ Hwf) (P_TREE T_FREE) n Ef) as (e & He & Hb & _).
    rewrite Hn, He. cbn [mbind option_bind]. rewrite Hb. exists (Some n), s.
    pose proof (owns_range _ _ (wf_has_ext _ _ Hwf) (P_TREE T_FREE) n Ef) as Hr.
    pose proof (we_total _ _ (wf_has_ext _ _ Hwf)) as Ht. change CYANFS_EXTENT_COUNT_MAX with 1073741824 in Ht.
    split_and!; [done| | | | | |].
    + split; [done|]. unfold is_u32, U32_MAX. lia.
    + intros id [= <-]. unfold may_follow. change cyanfs_extent_id_invalid with 4294967295.
      destruct (Z.eqb_spec n 4294967295); [lia|]. destruct (Z.leb_spec (sm_total_extents (s_meta (w_super w))) n); [lia|].
      cbn [orb negb andb]. rewrite bool_decide_false; [done|]. intros Hin%Hids.
      by pose proof (owns_unique _ _ (wf_has_ext _ _ Hwf) (P_TREE T_FREE) (P_TREE T_JOURNAL) n Ef Hin).
    + destruct Hwf as [_ Hns Hwi]. split; [done|by eapply ext_frame_ns|unfold wf_idx; by rewrite Hf].
    + apply Hfr.
    + intros id [Hid|[= <-]]; apply (Hm (P_TREE T_JOURNAL)); [|by left].
      destruct (decide (id = n)) as [->|Hne]; [by left|by right].
    + assert (free_extents s = free_extents (w_super w) ∖ {[n]}) as ->.
      { apply set_eq. intros c. pose proof (Hm (P_TREE T_FREE) c) as Hc. simpl in Hc. rewrite Hc. set_solver. }
      rewrite size_difference by set_solver. rewrite size_singleton. lia.
  - exists None, (w_super w). split_and!; try done.
    + by destruct w.
    + by intros id [|].
    + lia.
Qed.

(** ** The page *)
Lemma encode_record_page seed sel new seq size page :
  is_u32 seed → Forall entry_ok (record_bodies sel new) → Forall is_byte page →
  (15 + length (payload (record_bodies sel new)) ≤ length page)%nat →
  length (encode_record seed sel new seq size page) = length page ∧ Forall is_byte (encode_record seed sel new seq size page).
Proof.
  intros Hs He Hb Hl. unfold encode_record. fold (record_bodies sel new). fold (payload (record_bodies sel new)). jconsts.
  change (Z.to_nat 15) with 15%nat. split.
  - rewrite length_app, length_drop, !length_app, length_drop, !length_encode_jheader. lia.
  - apply Forall_app. split; [apply encode_jheader_bytes|]. apply Forall_drop. rewrite !Forall_app.
    split_and!; [apply encode_jheader_bytes|by apply payload_bytes|by apply Forall_drop].
Qed.

Lemma writes_page seed total st head next_id p new page :
  is_u32 seed → scan_ok total st → writes total st head next_id p new page →
  let page' := encode_record seed (j_body <$> rp_sel p) new (sc_seq st) (rp_size p) page in
  length page' = Z.to_nat CYANFS_JOURNAL_PAGE_SIZE ∧ Forall is_byte page'.
Proof.
  intros Hs Hok Hw. destruct (writes_record seed total Hs _ _ _ _ _ _ Hok Hw) as (pad & _ & Hrec).
  destruct (ws_page _ _ _ _ _ _ _ Hw) as [Hl Hb].
  assert (Hfit : (15 + length (payload (record_bodies (j_body <$> rp_sel p) new)) ≤ length page)%nat).
  { rewrite Hl. pose proof (ro_size _ _ _ _ _ _ Hrec). pose proof (ro_page _ _ _ _ _ _ Hrec). jconsts. lia. }
  cbn zeta. destruct (encode_record_page seed (j_body <$> rp_sel p) new (sc_seq st) (rp_size p) page Hs (ro_entries _ _ _ _ _ _ Hrec) Hb Hfit)
    as [-> Hb']. done.
Qed.

(** ** One turn of the writer *)
Definition write_task (t : Z) (st : scan_state) (p : record_plan) : cyanfs_task :=
  mk_task (CYANFS_TASK_WRITE (cyanfs_map_extent_offset (sc_id st) (sc_off st)) (rp_size p) BUF_SUPER)
          (cyanfs_journal_writer_encode (WRITER_FLUSHER t)).

(** The world after the record was encoded, before a flush is asked for. *)
Definition after_encode (t : Z) (st : scan_state) (p : record_plan) (new : option Z) (s : cyanfs_super) (w : world) : world :=
  let c := journal_cursor s in
  let page := encode_record (uuid_seed (sm_uuid (s_meta s))) (j_body <$> rp_sel p) new (sc_seq st) (rp_size p) (cur_page c) in
  let c := set_cur_extent_id (sc_id (after st p new)) (set_cur_extent_off (sc_off (after st p new))
             (set_cur_seq (sc_seq (after st p new)) (set_cur_page page c))) in
  upd_writer (WRITER_FLUSHER t) (set_wr_head (rp_rest p)) (set_w_super (cyanfs_super_task_add_head (write_task t st p) (upd_cursor (λ _, c) s)) w).

Lemma flusher_encode_eq t w f head st p new s :
  has_flag (w_super w) CYANFS_SUPER_FLAG_ERROR = false →
  w_flushers w !! t = Some f → fl_writer f = mk_writer head cyanfs_extent_id_invalid → head ≠ [] →
  (let c := journal_cursor (w_super w) in cur_extent_id c = sc_id st ∧ cur_extent_off c = sc_off st ∧ cur_seq c = sc_seq st) →
  plan_record head cyanfs_extent_id_invalid (sc_off st) (sc_seq st) = Some p →
  choose_next p cyanfs_extent_id_invalid w = Some (Some new, set_w_super s w) →
  journal_cursor s = journal_cursor (w_super w) → new ≠ Some cyanfs_extent_id_invalid →
  scan_ok (sm_total_extents (s_meta s)) (after st p new) → Z.of_nat (length (rp_sel p)) < 65536 →
  cyanfs_journal_writer_encode_done (WRITER_FLUSHER t) (flusher_writer_ops t) ST_OK w =
  let w' := after_encode t st p new s w in
  if rp_flush p && negb (fl_flush_before_write f) then
    Some (task_add_head (mk_task CYANFS_TASK_NOP (cyanfs_super_flusher_before_write_flush t)) (upd_flusher t (set_fl_flush_before_write true) w'))
  else Some w'.
Proof.
  intros Her Hf Hw Hne (Hi & Ho & Hq) Hp Hc Hcs Hnew Hok Hlen. unfold cyanfs_journal_writer_encode_done.
  rewrite Her. cbn [failed orb get_writer writer_buf get_cursor]. rewrite Hf. cbn [fmap option_fmap option_map mbind option_bind].
  rewrite Hw. cbn [wr_head wr_next_id]. rewrite bool_decide_false by done. cbn [mbind option_bind].
  rewrite Ho, Hq, Hp, Hc. cbn [mbind option_bind w_super set_w_super]. rewrite Hi, <- Hcs. fold (write_task t st p).
  set (page := encode_record _ _ _ _ _ _).
  assert (Hcur : (let c := set_cur_seq (u64 (cur_seq (journal_cursor s) + u16 (Z.of_nat (length (rp_sel p))))) (set_cur_page page (journal_cursor s)) in
      match new with
      | Some id => if id =? cyanfs_extent_id_invalid then set_cur_extent_off (u64 (cur_extent_off c + rp_size p)) c
                   else set_cur_extent_off 0 (set_cur_extent_id id c)
      | None => set_cur_extent_off (u64 (cur_extent_off c + rp_size p)) c
      end) = set_cur_extent_id (sc_id (after st p new)) (set_cur_extent_off (sc_off (after st p new))
             (set_cur_seq (sc_seq (after st p new)) (set_cur_page page (journal_cursor s))))).
  { cbn zeta. rewrite Hcs, Hq, u16_small by lia. destruct (so_seq _ _ Hok) as [Hs0 Hs1]. destruct (so_off _ _ Hok) as [Ho' _].
    unfold after in *. destruct new as [id|]; cbn [sc_seq sc_off sc_id] in *; jconsts.
    - destruct (Z.eqb_spec id cyanfs_extent_id_invalid); [congruence|]. rewrite u64_small by lia. by destruct (journal_cursor (w_super w)).
    - cbn [cur_extent_off set_cur_seq set_cur_page]. rewrite Ho, !u64_small by lia. destruct (journal_cursor (w_super w)); cbn in *. by subst. }
  cbn [flusher_writer_ops wop_flush]. destruct (rp_flush p); cbn [andb].
  - unfold cyanfs_super_flusher_flush_before_write, get_flusher.
    cbn [task_add_head upd_super upd_cursor_of upd_writer upd_flusher w_flushers set_w_super set_w_flushers].
    rewrite lookup_alter_eq, Hf. cbn [fmap option_fmap option_map mbind option_bind fl_flush_before_write set_fl_writer].
    destruct (fl_flush_before_write f); cbn [negb mbind option_bind]; f_equal; unfold after_encode; fold page; rewrite <- Hcur; reflexivity.
  - cbn [mbind option_bind]. f_equal. unfold after_encode. fold page. rewrite <- Hcur. reflexivity.
Qed.

(** The disk after the write of the record. *)
Definition disk_turn (w : world) (d : disk) (st : scan_state) (p : record_plan) : disk :=
  disk_write d (cyanfs_map_extent_offset (sc_id st) (sc_off st)) (take (Z.to_nat (rp_size p)) (cur_page (journal_cursor (w_super w)))).

Section turn.
Context (t : Z) (head : list cyanfs_journal_entry) (w : world) (d : disk) (st0 : scan_state) (es : list cyanfs_journal_entry) (st : scan_state).
Context (Hwr : writing t head w) (Hne : head ≠ []) (Hja : journal_at w d st0 es st).
Context (Hseq : sc_seq st ≤ U64_MAX - 65536) (Hfree : free_extents (w_super w) ≠ ∅).
Local Notation total := (sm_total_extents (s_meta (w_super w))).

Lemma turn_place : scan_ok total st.
Proof. eapply (logged_ok _ _ (ja_seed _ _ _ _ _ Hja)); [apply Hja|apply Hja]. Qed.

(** The record of the turn. *)
Lemma turn_record :
  ∃ p new s, plan_record head cyanfs_extent_id_invalid (sc_off st) (sc_seq st) = Some p ∧
    plan_ok head cyanfs_extent_id_invalid (sc_off st) p ∧
    choose_next p cyanfs_extent_id_invalid w = Some (Some new, set_w_super s w) ∧
    writes total st head cyanfs_extent_id_invalid p new (cur_page (journal_cursor (w_super w))) ∧
    wf s (fl_map w) ∧ rest s = rest (w_super w) ∧
    (∀ id, id ∈ journal_extents (w_super w) ∨ new = Some id → id ∈ journal_extents s) ∧
    (size (free_extents (w_super w)) ≤ S (size (free_extents s)))%nat.
Proof.
  pose proof turn_place as Hok. destruct Hwr as [Hinv Her Hfl Hreg Hent]. destruct (so_seq _ _ Hok) as [Hq0 _].
  destruct (plan_spec head cyanfs_extent_id_invalid (sc_off st) (sc_seq st) Hreg Hne (so_off _ _ Hok)) as (p & Hp & Hpo); [lia|].
  assert (Hfin : rp_final_link p = false) by (rewrite (po_link _ _ _ _ Hpo), Z.eqb_refl, andb_false_r; done).
  destruct (choose_next_ok p w st Hinv (ja_ids _ _ _ _ _ Hja) Hfin (λ _, Hfree)) as (new & s & Hc & Hn & Hmf & Hwf & Hr & Hj & Hsz).
  exists p, new, s. split_and!; try done. split; try done. apply Hja.
Qed.

(** What the turn leaves alone. *)
Record turned (w' : world) (p : record_plan) : Prop := {
  tn_writing : writing t (rp_rest p) w';
  tn_queue : task_head (w_super w') = write_task t st p :: task_head (w_super w) ∨
    task_head (w_super w') = mk_task CYANFS_TASK_NOP (cyanfs_super_flusher_before_write_flush t) :: write_task t st p :: task_head (w_super w);
  tn_active : active_tasks (w_super w') = active_tasks (w_super w);
  tn_malloc : w_malloc w' = w_malloc w;
  tn_volume : same_volume w w';
  tn_free : (size (free_extents (w_super w)) ≤ S (size (free_extents (w_super w'))))%nat;
  tn_journal : ∃ st', journal_at w' (disk_turn w' d st p) st0 (es ++ rp_sel p) st' ∧
    sc_seq st' = sc_seq st + Z.of_nat (length (rp_sel p)) }.

Lemma fl_map_alter (w1 : world) g :
  (∀ f, fl_unused_extents (g f) = fl_unused_extents f) → fl_map (upd_flusher t g w1) = fl_map w1.
Proof.
  intros Hg. apply map_eq. intros k. unfold fl_map, upd_flusher. cbn [w_flushers set_w_flushers]. rewrite !lookup_fmap.
  destruct (decide (k = t)) as [->|Hk]; [|by rewrite lookup_alter_ne].
  rewrite lookup_alter_eq. destruct (w_flushers w1 !! t); cbn; [by rewrite Hg|done].
Qed.

Lemma alter_None (w1 : world) g k : w_flushers (upd_flusher t g w1) !! k = None ↔ w_flushers w1 !! k = None.
Proof. unfold upd_flusher. cbn [w_flushers set_w_flushers]. apply lookup_alter_None. Qed.

Lemma after_encode_turned p new s :
  plan_ok head cyanfs_extent_id_invalid (sc_off st) p →
  writes total st head cyanfs_extent_id_invalid p new (cur_page (journal_cursor (w_super w))) →
  wf s (fl_map w) → rest s = rest (w_super w) →
  (∀ id, id ∈ journal_extents (w_super w) ∨ new = Some id → id ∈ journal_extents s) →
  (size (free_extents (w_super w)) ≤ S (size (free_extents s)))%nat → turned (after_encode t st p new s w) p.
Proof.
  intros Hpo Hws Hwf Hr Hj Hsz. set (w' := after_encode t st p new s w). pose proof turn_place as Hok.
  assert (Hrest : flags s = flags (w_super w) ∧ journal_cursor s = journal_cursor (w_super w) ∧ task_head s = task_head (w_super w) ∧
    active_tasks s = active_tasks (w_super w) ∧ sm_total_extents (s_meta s) = total ∧ sm_uuid (s_meta s) = sm_uuid (s_meta (w_super w))).
  { unfold rest in Hr. injection Hr. intros. by split_and!. }
  destruct Hrest as (Hfl & Hcu & Hth & Hac & Hto & Huu).
  assert (Hsc : same_core s (w_super w')) by (split; try done; by intros []).
  split.
  - destruct Hwr as [Hinv Her (f & Hf & Hfw) Hreg Hent]. rewrite (po_split _ _ _ _ Hpo) in Hreg, Hent.
    apply Forall_app in Hreg as [_ Hreg], Hent as [_ Hent]. split; try done.
    + apply (winv_core (set_w_super s w)); try done.
      * destruct Hinv as [_ Hn]. by split.
      * exact (fl_map_alter (set_w_super _ w) (λ f, set_fl_writer _ f) (λ _, eq_refl)).
      * intros k. exact (alter_None (set_w_super _ w) (λ f, set_fl_writer _ f) k).
    + cbn. unfold has_flag in *. cbn. by rewrite Hfl.
    + exists (set_fl_writer (set_wr_head (rp_rest p) (fl_writer f)) f). cbn. rewrite lookup_alter_eq, Hf. split; [done|]. by rewrite Hfw.
  - left. cbn. by rewrite Hth.
  - cbn. done.
  - done.
  - split; cbn; congruence.
  - exact Hsz.
  - exists (after st p new). split.
    + assert (Hpg : cur_page (journal_cursor (w_super w')) =
        encode_record (uuid_seed (sm_uuid (s_meta (w_super w)))) (j_body <$> rp_sel p) new (sc_seq st) (rp_size p) (cur_page (journal_cursor (w_super w)))).
      { cbn. by rewrite Huu, Hcu. }
      pose proof (we_total _ _ (wf_has_ext _ _ (wi_wf _ (wg_inv _ _ _ Hwr)))) as Htr.
      split; cbn zeta; rewrite ?Hpg; change (s_meta (w_super w')) with (s_meta s); rewrite ?Huu, ?Hto.
      * apply Hja.
      * apply Hja.
      * unfold disk_turn. rewrite Hpg. apply (logged_write _ _ _ _ _ _ head cyanfs_extent_id_invalid); [apply Hja|lia|apply Hja|apply Hja|apply Hja|done].
      * done.
      * by apply (writes_page _ total _ head cyanfs_extent_id_invalid); [apply Hja|..].
      * intros id Hin. cbn. apply Hj. destruct new as [n|]; cbn [after sc_ids] in Hin; [|left; by apply Hja].
        apply elem_of_app in Hin as [Hin| ->%list_elem_of_singleton]; [left; by apply Hja|by right].
    + by destruct new.
Qed.

(** A flush asked for before the write comes first in the queue. *)
Lemma turned_flush w1 p :
  turned w1 p → task_head (w_super w1) = write_task t st p :: task_head (w_super w) →
  turned (task_add_head (mk_task CYANFS_TASK_NOP (cyanfs_super_flusher_before_write_flush t))
            (upd_flusher t (set_fl_flush_before_write true) w1)) p.
Proof.
  intros [[Hinv Her (f & Hf & Hfw) Hreg Hent] _ Ha Hm Hv Hs (st' & Hj & Hq)] Hth. split; [|right|done|done|done|done|].
  - split; try done.
    + apply (winv_core w1); try done; 
        [exact (fl_map_alter w1 (set_fl_flush_before_write true) (λ _, eq_refl))|exact (alter_None w1 (set_fl_flush_before_write true))].
    + exists (set_fl_flush_before_write true f). cbn. by rewrite lookup_alter_eq, Hf.
  - cbn. by rewrite Hth.
  - exists st'. split; [|done]. apply (journal_at_same w1); [by split_and!|exact Hj].
Qed.

Lemma encode_turn :
  ∃ p w', cyanfs_journal_writer_encode_done (WRITER_FLUSHER t) (flusher_writer_ops t) ST_OK w = Some w' ∧
    head = rp_sel p ++ rp_rest p ∧ rp_sel p ≠ [] ∧ turned w' p.
Proof.
  destruct turn_record as (p & new & s & Hp & Hpo & Hc & Hws & Hwf & Hr & Hj & Hsz). pose proof turn_place as Hok.
  destruct Hwr as [Hinv Her (f & Hf & Hfw) Hreg Hent].
  assert (Hcu : journal_cursor s = journal_cursor (w_super w) ∧ sm_total_extents (s_meta s) = total).
  { unfold rest in Hr. injection Hr. intros. by split. }
  destruct Hcu as [Hcu Hto].
  destruct (writes_record _ _ (ja_seed _ _ _ _ _ Hja) _ _ _ _ _ _ Hok Hws) as (pad & _ & Hrec).
  pose proof (record_count _ _ _ _ _ _ Hrec) as [_ Hcnt]. rewrite length_fmap in Hcnt. change (65536 / 9) with 7281 in Hcnt.
  assert (Hnew : new ≠ Some cyanfs_extent_id_invalid).
  { intros ->. pose proof (ws_follow _ _ _ _ _ _ _ Hws _ eq_refl) as Hmf. unfold may_follow in Hmf. by rewrite Z.eqb_refl in Hmf. }
  assert (Hoka : scan_ok (sm_total_extents (s_meta s)) (after st p new)).
  { rewrite Hto. by eapply (writes_after _ _ (ja_seed _ _ _ _ _ Hja)). }
  pose proof (after_encode_turned p new s Hpo Hws Hwf Hr Hj Hsz) as Ht.
  pose proof (flusher_encode_eq t w f head st p new s Her Hf Hfw Hne (ja_cursor _ _ _ _ _ Hja) Hp Hc Hcu Hnew Hoka ltac:(lia)) as E.
  exists p. rewrite E. cbn zeta. destruct (rp_flush p && negb (fl_flush_before_write f)).
  - eexists. split_and!; [done|apply Hpo|apply Hpo|]. apply turned_flush; [done|]. unfold rest in Hr. cbn. congruence.
  - eexists. split_and!; [done|apply Hpo|apply Hpo|done].
Qed.
End turn.
