(* ===== verification/Api.v ===== *)
(** * Api: the operations of the instance

    Models the public functions of [core/super.c]: opening and closing an
    instance, the queries, and the operations on files.  A file handle is
    the id of the file it points to; [None] is an abort.  Each function takes
    [files_lock] once, so it is atomic up to the start of a flusher, which
    takes the lock again. *)
From Stdlib Require Import ZArith Lia.
From S2P Require Import Prelude Base Journal Types Super World JournalIO Discard Compact Flusher.

(** ** Opening *)
Definition cyanfs_super_open_parser (j : journal_body) (w : world) : option (cyanfs_status * world) :=
  let '(mem, w) := if replay_allocates j then cyanfs_malloc w else (true, w) in
  '(err, s) ← __cyanfs_super_journal_replay mem j (w_super w);
  Some (err, set_w_super s w).

Definition cyanfs_super_open_finish (w : world) : option world :=
  t ← w_opener w;
  let s := add_flag CYANFS_SUPER_FLAG_READY (w_super w) in
  let s := upd_cursor (λ c, set_cur_extent_id_ondisk (cur_extent_id c) c) s in
  let s := upd_meta (set_sm_uuid (sh_uuid (ld_header t))) s in
  Some (set_w_opener None (set_w_super s w)).

Definition cyanfs_super_open_error (w : world) : option world :=
  Some (set_w_opener None (upd_super cyanfs_super_mark_error w)).

Definition open_loader_ops : loader_operations :=
  {| op_parser := cyanfs_super_open_parser;
     op_finish := cyanfs_super_open_finish;
     op_error := cyanfs_super_open_error |}.

(** The instance, with the loader of its journal queued; [None] when the size
    is out of range or memory is short. [locks] says whether the locks can be
    initialised; [mallocs] are the outcomes of [cyanfs_malloc]. *)
Definition cyanfs_super_open (size : Z) (discard compact locks : bool) (mallocs : list bool) : option world :=
  if (size <? CYANFS_SUPER_BLOCK_SIZE + CYANFS_EXTENT_SIZE) ||
     (CYANFS_FILE_MAX_SIZE <? u64 (size - CYANFS_SUPER_BLOCK_SIZE)) then None else
  let w := mk_world (init_super size discard compact) ∅ 0 None None mallocs in
  let '(ok, w) := cyanfs_malloc w in
  if negb ok || negb locks then None else
  let '(ok, w) := malloc_nodes (Z.to_nat (sm_total_extents (s_meta (w_super w)))) w in
  if negb ok then None else
  let '(ok, w) := cyanfs_malloc w in
  if negb ok then None else
  let '(ok, w) := cyanfs_malloc w in
  if negb ok then None else
  let w := set_w_opener (Some (cyanfs_journal_loader_init cyanfs_extent_id_invalid)) w in
  Some (cyanfs_journal_loader_start LOADER_OPEN w).

(** ** Closing

    [f->parent = NULL] and [__cyanfs_delete_file] for each file; the trees
    are then emptied and everything is freed.  The result is the set of the
    extent nodes that were freed. *)
Fixpoint close_files (ids : list Z) (s : cyanfs_super) : option cyanfs_super :=
  match ids with
  | [] => Some s
  | id :: ids =>
      let s := upd_file id (set_f_parent None) s in
      s ← __cyanfs_delete_file id s; close_files ids s
  end.

Definition cyanfs_super_close (s : cyanfs_super) : option (gset Z) :=
  bug_on (negb (bool_decide (task_head s = [])) || negb (active_tasks s =? 0));;
  bug_on (negb (forallb (λ p, bool_decide (f_open_type p.2 = CYANFS_FILE_CLOSED)) (map_to_list (files_by_id s))));;
  s ← close_files (set_ordered (dom (files_by_id s))) s;
  Some (discard_extents s ∪ wait_discard_extents s ∪ unused_extents s ∪ flush_extents s ∪
        journal_extents s ∪ free_extents s).

(** ** Status and tasks *)
Definition cyanfs_super_set_new_task_callback (ctx : option Z) (s : cyanfs_super) : cyanfs_super := set_new_task ctx s.

Definition cyanfs_super_is_ready (s : cyanfs_super) : bool := has_flag s CYANFS_SUPER_FLAG_READY.

Definition cyanfs_super_status (s : cyanfs_super) : cyanfs_status := __cyanfs_super_ensure_status s.

Definition cyanfs_file_status (s : cyanfs_super) : cyanfs_status := cyanfs_super_status s.

Definition cyanfs_super_get_task (s : cyanfs_super) : option cyanfs_task * cyanfs_super :=
  match task_head s with
  | [] => (None, s)
  | t :: l => (Some t, set_active_tasks (u32 (active_tasks s + 1)) (set_task_head l s))
  end.

(** The end of [cyanfs_super_task_done], after [t->done(t, err)]. *)
Definition task_retire (s : cyanfs_super) : option cyanfs_super :=
  bug_on (active_tasks s =? 0);;
  Some (set_active_tasks (u32 (active_tasks s - 1)) s).

(** ** Queries *)
Definition cyanfs_statfs (s : cyanfs_super) : cyanfs_status * option cyanfs_super_meta :=
  let err := __cyanfs_super_ensure_status s in
  if failed err then (err, None) else (ST_OK, Some (s_meta s)).

Definition cyanfs_stat (id : Z) (s : cyanfs_super) : cyanfs_status * option cyanfs_file_meta :=
  let err := __cyanfs_super_ensure_status s in
  if failed err then (err, None) else
  match __cyanfs_lookup_file_by_id s id with
  | None => (ST_ERR ERR_NOENT, None)
  | Some f => (ST_OK, Some (f_meta f))
  end.

(** The next file after [iter_id], in the order of the ids. *)
Definition cyanfs_list (iter_id : Z) (s : cyanfs_super) : cyanfs_status * option cyanfs_file_meta :=
  let err := __cyanfs_super_ensure_status s in
  if failed err then (err, None)
  else if iter_id =? U64_MAX then (ST_ERR ERR_NOENT, None)
  else match set_nfind (dom (files_by_id s)) (u64 (iter_id + 1)) with
       | None => (ST_ERR ERR_NOENT, None)
       | Some id =>
           match files_by_id s !! id with
           | Some f => (ST_OK, Some (f_meta f))
           | None => (ST_ERR ERR_NOENT, None)
           end
       end.

Definition cyanfs_lookup (name : cyanfs_file_name_t) (s : cyanfs_super) : cyanfs_status * option cyanfs_file_meta :=
  let '(err, name) := __cyanfs_file_name_normalize name in
  if failed err then (err, None) else
  let err := __cyanfs_super_ensure_status s in
  if failed err then (err, None) else
  match __cyanfs_lookup_file_by_name s name with
  | None => (ST_ERR ERR_NOENT, None)
  | Some id =>
      match files_by_id s !! id with
      | Some f => (ST_OK, Some (f_meta f))
      | None => (ST_ERR ERR_NOENT, None)
      end
  end.

Definition cyanfs_size (id : Z) (s : cyanfs_super) : option Z :=
  f ← files_by_id s !! id; Some (fm_size (f_meta f)).

(** ** Opening and closing a file *)
Definition cyanfs_open (id : Z) (write : bool) (s : cyanfs_super) : cyanfs_status * cyanfs_super :=
  let err := __cyanfs_super_ensure_status s in
  if failed err then (err, s) else
  match __cyanfs_lookup_file_by_id s id with
  | None => (ST_ERR ERR_NOENT, s)
  | Some f =>
      if write then
        if negb (bool_decide (f_open_type f = CYANFS_FILE_CLOSED)) || negb (fm_children (f_meta f) =? 0)
        then (ST_ERR ERR_BUSY, s)
        else (ST_OK, upd_file id (set_f_open_type CYANFS_FILE_READWRITE) s)
      else
        if bool_decide (f_open_type f = CYANFS_FILE_READWRITE) then (ST_ERR ERR_BUSY, s)
        else (ST_OK, upd_file id (λ f, set_f_reader (f_reader f + 1) (set_f_open_type CYANFS_FILE_READONLY f)) s)
  end.

Definition cyanfs_close (id : Z) (s : cyanfs_super) : option cyanfs_super :=
  f ← files_by_id s !! id;
  match f_open_type f with
  | CYANFS_FILE_CLOSED => None
  | CYANFS_FILE_READWRITE => Some (upd_file id (set_f_open_type CYANFS_FILE_CLOSED) s)
  | CYANFS_FILE_READONLY =>
      let reader := f_reader f - 1 in
      let s := upd_file id (set_f_reader reader) s in
      Some (if reader =? 0 then upd_file id (set_f_open_type CYANFS_FILE_CLOSED) s else s)
  end.

(** ** Operations on files

    Each one changes the state under [files_lock], appends one journal entry
    when it succeeds, and then starts a flusher if enough entries wait
    ([cyanfs_super_flush_new_journal], whatever the outcome). *)
Definition append (flush : bool) (j : journal_body) (s : cyanfs_super) : cyanfs_super :=
  __cyanfs_super_journal_append (mk_entry flush j) s.

(** The section under the lock of [cyanfs_create]; the id of the new file. *)
Definition create_locked (name : cyanfs_file_name_t) (s : cyanfs_super) : cyanfs_status * option Z * cyanfs_super :=
  let err := __cyanfs_super_ensure_status s in
  if failed err then (err, None, s)
  else if (CYANFS_SUPER_MAX_FILES <=? sm_files (s_meta s)) || (max_file_id s =? U64_MAX)
  then (ST_ERR ERR_NOSPACE, None, s)
  else match __cyanfs_lookup_file_by_name s name with
       | Some _ => (ST_ERR ERR_EXIST, None, s)
       | None =>
           let id := u64 (max_file_id s + 1) in
           let '(err, s) := __cyanfs_init_file name id None s in
           if failed err then (err, None, s)
           else (ST_OK, Some id, append false (J_CREATE name id) s)
       end.

Definition cyanfs_create (name : cyanfs_file_name_t) (w : world) : cyanfs_status * option Z * world :=
  let '(err, name) := __cyanfs_file_name_normalize name in
  if failed err then (err, None, w) else
  let '(ok, w) := cyanfs_malloc w in
  if negb ok then (ST_ERR ERR_NOMEM, None, w) else
  let '(ok, w) := cyanfs_malloc w in
  if negb ok then (ST_ERR ERR_NOMEM, None, w) else
  let '(err, id, s) := create_locked name (w_super w) in
  (err, id, cyanfs_super_flush_new_journal (set_w_super s w)).

Definition fork_locked (from : Z) (name_to : cyanfs_file_name_t) (s : cyanfs_super)
    : cyanfs_status * option Z * cyanfs_super :=
  let err := __cyanfs_super_ensure_status s in
  if failed err then (err, None, s)
  else if (CYANFS_SUPER_MAX_FILES <=? sm_files (s_meta s)) || (max_file_id s =? U64_MAX)
  then (ST_ERR ERR_NOSPACE, None, s)
  else match __cyanfs_lookup_file_by_id s from with
       | None => (ST_ERR ERR_NOENT, None, s)
       | Some p =>
           if bool_decide (f_open_type p = CYANFS_FILE_READWRITE) then (ST_ERR ERR_BUSY, None, s)
           else match __cyanfs_lookup_file_by_name s name_to with
                | Some _ => (ST_ERR ERR_EXIST, None, s)
                | None =>
                    let id := u64 (max_file_id s + 1) in
                    let '(err, s) := __cyanfs_init_file name_to id (Some (from, p)) s in
                    if failed err then (err, None, s)
                    else (ST_OK, Some id, append false (J_FORK name_to id (fm_id (f_meta p))) s)
                end
       end.

Definition cyanfs_fork (from : Z) (name_to : cyanfs_file_name_t) (w : world) : cyanfs_status * option Z * world :=
  let '(err, name_to) := __cyanfs_file_name_normalize name_to in
  if failed err then (err, None, w) else
  let '(ok, w) := cyanfs_malloc w in
  if negb ok then (ST_ERR ERR_NOMEM, None, w) else
  let '(ok, w) := cyanfs_malloc w in
  if negb ok then (ST_ERR ERR_NOMEM, None, w) else
  let '(err, id, s) := fork_locked from name_to (w_super w) in
  (err, id, cyanfs_super_flush_new_journal (set_w_super s w)).

Definition rename_locked (id : Z) (name : cyanfs_file_name_t) (s : cyanfs_super) : option (cyanfs_status * cyanfs_super) :=
  let err := __cyanfs_super_ensure_status s in
  if failed err then Some (err, s)
  else match __cyanfs_lookup_file_by_name s name with
       | Some _ => Some (ST_ERR ERR_EXIST, s)
       | None =>
           match __cyanfs_lookup_file_by_id s id with
           | None => Some (ST_ERR ERR_NOENT, s)
           | Some f => s ← __cyanfs_rename_file id name s; Some (ST_OK, append false (J_RENAME name (fm_id (f_meta f))) s)
           end
       end.

Definition cyanfs_rename (id : Z) (name : cyanfs_file_name_t) (w : world) : option (cyanfs_status * world) :=
  let '(err, name) := __cyanfs_file_name_normalize name in
  if failed err then Some (err, w) else
  let '(ok, w) := cyanfs_malloc w in
  if negb ok then Some (ST_ERR ERR_NOMEM, w) else
  '(err, s) ← rename_locked id name (w_super w);
  Some (err, cyanfs_super_flush_new_journal (set_w_super s w)).

(** [f->open_type != CYANFS_FILE_CLOSED || f->meta.children] *)
Definition file_busy (f : cyanfs_file) : bool :=
  negb (bool_decide (f_open_type f = CYANFS_FILE_CLOSED)) || negb (fm_children (f_meta f) =? 0).

Definition truncate_locked (id size : Z) (s : cyanfs_super) : option (cyanfs_status * cyanfs_super) :=
  let err := __cyanfs_super_ensure_status s in
  if failed err then Some (err, s)
  else match __cyanfs_lookup_file_by_id s id with
       | None => Some (ST_ERR ERR_NOENT, s)
       | Some f =>
           if file_busy f then Some (ST_ERR ERR_BUSY, s)
           else s ← __cyanfs_file_truncate id size s; Some (ST_OK, append true (J_TRUNCATE (fm_id (f_meta f)) size) s)
       end.

Definition cyanfs_truncate (id size : Z) (w : world) : option (cyanfs_status * world) :=
  let err := __cyanfs_file_size_validate size in
  if failed err then Some (err, w) else
  let '(ok, w) := cyanfs_malloc w in
  if negb ok then Some (ST_ERR ERR_NOMEM, w) else
  '(err, s) ← truncate_locked id size (w_super w);
  Some (err, cyanfs_super_flush_new_journal (set_w_super s w)).

Definition delete_locked (id : Z) (s : cyanfs_super) : option (cyanfs_status * cyanfs_super) :=
  let err := __cyanfs_super_ensure_status s in
  if failed err then Some (err, s)
  else match __cyanfs_lookup_file_by_id s id with
       | None => Some (ST_ERR ERR_NOENT, s)
       | Some f =>
           if file_busy f then Some (ST_ERR ERR_BUSY, s)
           else s ← __cyanfs_delete_file id s; Some (ST_OK, append false (J_DELETE (fm_id (f_meta f))) s)
       end.

Definition cyanfs_delete (id : Z) (w : world) : option (cyanfs_status * world) :=
  let '(ok, w) := cyanfs_malloc w in
  if negb ok then Some (ST_ERR ERR_NOMEM, w) else
  '(err, s) ← delete_locked id (w_super w);
  Some (err, cyanfs_super_flush_new_journal (set_w_super s w)).
