(* ===== verification/ApiSpec.v ===== *)
(** * ApiSpec: every operation on files is in the journal

    [jview s] is the abstract state the journal of [s] describes: the files
    with the extents that are bound for good, those being copied or whose
    copy failed left out.  A successful operation of [Api] keeps the
    invariant and appends exactly one entry, whose meaning takes [jview] of
    the old state to [jview] of the new one; a refused operation changes
    nothing.  With [Replay], replaying the journal gives the state back. *)
From Stdlib Require Import ZArith Lia.
From S2P Require Import Prelude Base Journal Spec CompactSpec Types Super SuperInv SuperOps Replay World JournalIO Discard Compact Flusher Api.

(** ** The journalled state *)
Definition journaled (s : cyanfs_super) (n : Z) : bool :=
  match nodes s !! n with
  | Some e => negb (ext_pending e || ext_error e)
  | None => false
  end.

Definition jfile (s : cyanfs_super) (f : cyanfs_file) : afile :=
  mk_afile (fm_name (f_meta f)) (f_parent f) (fm_size (f_meta f))
    (filter (λ p, journaled s p.2 = true) (f_extents f)).

Definition jview (s : cyanfs_super) : astate :=
  mk_astate (sm_total_extents (s_meta s)) (jfile s <$> files_by_id s) (max_file_id s) ∅.

Lemma jview_file s id : a_files (jview s) !! id = jfile s <$> files_by_id s !! id.
Proof. apply lookup_fmap. Qed.

(** The nodes of the extents of [s']'s files are those of [s]. *)
Definition same_nodes (s s' : cyanfs_super) : Prop :=
  ∀ id f i c, files_by_id s' !! id = Some f → f_extents f !! i = Some c → nodes s' !! c = nodes s !! c.

Lemma jfile_same s s' id f :
  same_nodes s s' → files_by_id s' !! id = Some f → jfile s' f = jfile s f.
Proof.
  intros Hn Hf. unfold jfile. f_equal. apply map_filter_ext. intros i c Hi. simpl.
  unfold journaled. by rewrite (Hn id f i c Hf Hi).
Qed.

Lemma jview_files_same s s' :
  same_nodes s s' → a_files (jview s') = jfile s <$> files_by_id s'.
Proof.
  intros Hn. apply map_eq. intros j. rewrite jview_file, lookup_fmap.
  destruct (files_by_id s' !! j) as [f|] eqn:E; [|done]. simpl. f_equal. by eapply jfile_same.
Qed.

Lemma jfile_bump s d par (fs : gmap Z cyanfs_file) : jfile s <$> bump_parent d par fs = jfile s <$> fs.
Proof.
  apply map_eq. intros j. rewrite !lookup_fmap, lookup_bump_parent. destruct (fs !! j) as [g|]; [|done].
  simpl. unfold jfile. pose proof (bump_fields d par j g) as (-> & _ & _ & -> & -> & _ & -> & _). done.
Qed.

Lemma jview_name_taken s name :
  wf_ns s → a_name_taken (jview s) name = bool_decide (is_Some (files_by_name s !! name)).
Proof.
  intros Hwn. apply bool_decide_ext. rewrite elem_of_a_names. split.
  - intros (id & f & Hf & <-). rewrite jview_file in Hf. apply fmap_Some in Hf as (g & Hg & ->).
    exists id. by apply by_name_lookup.
  - intros [id Hid]. apply (wn_name _ _ _ _ Hwn) in Hid as (g & Hg & <-).
    rewrite lookup_fmap in Hg. apply fmap_Some in Hg as (f & Hf & ->).
    exists id, (jfile s f). rewrite jview_file, Hf. done.
Qed.

Lemma jview_no_child s id f :
  wf_ns s → files_by_id s !! id = Some f → fm_children (f_meta f) = 0 → a_has_child (jview s) id = false.
Proof.
  intros Hwn Hf H0. assert (Hl : (strip <$> files_by_id s) !! id = Some (strip f)) by (by rewrite lookup_fmap, Hf).
  pose proof (proj1 (wf_files_no_children _ _ _ _ Hwn id (strip f) Hl) H0) as Hc.
  apply bool_decide_eq_false. rewrite elem_of_a_parents. intros (j & g & Hg & Hp).
  rewrite jview_file in Hg. apply fmap_Some in Hg as (h & Hh & ->).
  apply (Hc j (strip h)); [|done]. by rewrite lookup_fmap, Hh.
Qed.

(** ** The outcome of an operation *)

(** No extent started to be copied. *)
Definition pending_mono (s s' : cyanfs_super) : Prop :=
  ∀ c e, nodes s' !! c = Some e → ext_pending e = true → nodes s !! c = Some e.

(** How a file is open. *)
Definition handle_view (f : cyanfs_file) : cyanfs_open_type * Z := (f_open_type f, f_reader f).

(** The files keep the way they are open, the new ones are closed and no open
    file disappears; no file gains an extent. *)
Record keeps (s s' : cyanfs_super) : Prop := {
  kp_old : ∀ id f', files_by_id s' !! id = Some f' →
    (∃ f, files_by_id s !! id = Some f ∧ handle_view f' = handle_view f) ∨
    (files_by_id s !! id = None ∧ handle_view f' = (CYANFS_FILE_CLOSED, 0));
  kp_live : ∀ id f, files_by_id s !! id = Some f → f_open_type f ≠ CYANFS_FILE_CLOSED →
    is_Some (files_by_id s' !! id);
  kp_ext : ∀ id f' i b, files_by_id s' !! id = Some f' → f_extents f' !! i = Some b →
    ∃ f, files_by_id s !! id = Some f ∧ f_extents f !! i = Some b }.

Lemma bump_extents d par j g : f_extents (bump d par j g) = f_extents g.
Proof. unfold bump. by case_decide. Qed.

Lemma bump_view d par j g : handle_view (bump d par j g) = handle_view g.
Proof. unfold bump. by case_decide. Qed.

Lemma keeps_update s s' id f f' :
  files_by_id s !! id = Some f → files_by_id s' = <[id := f']> (files_by_id s) →
  handle_view f' = handle_view f → f_extents f' ⊆ f_extents f → keeps s s'.
Proof.
  intros Hf Hf' Hv Hx. split.
  - intros j g. rewrite Hf'. intros [[<- <-]|[_ Hg]]%lookup_insert_Some; left; eauto.
  - intros j g Hg _. rewrite Hf'. destruct (decide (j = id)) as [->|]; simplify_map_eq; eauto.
  - intros j g i b. rewrite Hf'. intros [[<- <-]|[_ Hg]]%lookup_insert_Some Hb; [|eauto].
    exists f. split; [done|]. by eapply lookup_weaken.
Qed.

Lemma keeps_add s s' id f d par :
  files_by_id s !! id = None → files_by_id s' = bump_parent d par (<[id := f]> (files_by_id s)) →
  handle_view f = (CYANFS_FILE_CLOSED, 0) → f_extents f = ∅ → keeps s s'.
Proof.
  intros Hf Hf' Hv Hx. split.
  - intros j g. rewrite Hf', lookup_bump_parent. intros (h & Hh & ->)%fmap_Some. rewrite bump_view.
    apply lookup_insert_Some in Hh as [[<- <-]|[_ Hg]]; [by right|left; eauto].
  - intros j g Hg _. rewrite Hf', lookup_bump_parent. apply fmap_is_Some. apply lookup_insert_is_Some. 
    destruct (decide (id = j)) as [->|]; [by left|right; eauto].
  - intros j g i b. rewrite Hf', lookup_bump_parent. intros (h & Hh & ->)%fmap_Some. rewrite bump_extents.
    apply lookup_insert_Some in Hh as [[<- <-]|[_ Hg]]; [by rewrite Hx|eauto].
Qed.

Lemma keeps_delete s s' id f d par :
  files_by_id s !! id = Some f → files_by_id s' = bump_parent d par (delete id (files_by_id s)) →
  f_open_type f = CYANFS_FILE_CLOSED → keeps s s'.
Proof.
  intros Hf Hf' Ho. split.
  - intros j g. rewrite Hf', lookup_bump_parent. intros (h & [_ Hh]%lookup_delete_Some & ->)%fmap_Some.
    rewrite bump_view. left; eauto.
  - intros j g Hg Hne. rewrite Hf', lookup_bump_parent. apply fmap_is_Some.
    rewrite lookup_delete_ne by (intros ->; congruence). eauto.
  - intros j g i b. rewrite Hf', lookup_bump_parent. intros (h & [_ Hh]%lookup_delete_Some & ->)%fmap_Some.
    rewrite bump_extents. eauto.
Qed.

(** The entries of the operations on files: they do not allocate extents. *)
Definition meta_entry (j : journal_body) : bool :=
  match j with J_NEXT _ | J_BIND _ _ _ => false | _ => true end.

(** Such an entry does not depend on the extents of the journal. *)
Lemma meta_entry_journal j X a :
  meta_entry j = true → spec_apply j (a_set_journal X a) = a_set_journal X <$> spec_apply j a.
Proof.
  destruct j as [|name id|id size|name id pid|id| |id i|name id]; try done; intros _; unfold spec_apply;
    change (a_has_child (a_set_journal X a)) with (a_has_child a);
    cbn [a_files a_set_journal]; try destruct (__cyanfs_file_name_normalize name) as [[|] nm]; try done.
  - change (a_can_create nm id (a_set_journal X a)) with (a_can_create nm id a). by destruct (a_can_create nm id a).
  - destruct (a_files a !! id); [|done]. cbn [mbind option_bind]. by destruct (_ && _).
  - change (a_can_create nm id (a_set_journal X a)) with (a_can_create nm id a).
    destruct (a_files a !! pid); [|done]. by destruct (_ && _).
  - destruct (a_files a !! id); [|done]. cbn [mbind option_bind]. by destruct (a_has_child a id).
  - destruct (a_files a !! id); [|done]. cbn [mbind option_bind]. by destruct (_ && _).
  - destruct (a_files a !! id); [|done]. by case_bool_decide.
Qed.

Lemma meta_run_journal js X a :
  Forall (λ j, meta_entry j = true) js → spec_run js (a_set_journal X a) = a_set_journal X <$> spec_run js a.
Proof.
  intros Hjs. revert a. induction Hjs as [|j js Hj Hjs IH]; intros a; [done|]. cbn [spec_run].
  rewrite meta_entry_journal by done. destruct (spec_apply j a) as [a'|]; [apply IH|done].
Qed.

(** From [s] to [s'] the entry [j] was journalled. *)
Record journals (s s' : cyanfs_super) (j : journal_body) : Prop := {
  jn_head : ∃ flush, journal_head s' = journal_head s ++ [mk_entry flush j];
  jn_spec : spec_apply j (jview s) = Some (jview s');
  jn_entry : entry_ok j;
  jn_pending : pending_mono s s';
  jn_meta : meta_entry j = true;
  jn_keeps : keeps s s';
  jn_trees : ∀ r, r ≠ T_UNUSED → tree_get r s' = tree_get r s }.

Definition outcome_ok (fl : gmap Z (gset Z)) (s : cyanfs_super) (r : option (cyanfs_status * cyanfs_super)) : Prop :=
  (∃ err, r = Some (ST_ERR err, s)) ∨
  (∃ s' j, r = Some (ST_OK, s') ∧ wf s' fl ∧ journals s s' j).

Lemma append_wf flush j s fl : wf s fl → wf (append flush j s) fl.
Proof.
  intros [Hwe Hwn Hwi]. split; [|by apply Hwn|by apply Hwi].
  apply (wf_ext_files s (append flush j s) fl Hwe); try done; intros id f Hf; left; by exists f.
Qed.

Lemma append_jview flush j s : jview (append flush j s) = jview s.
Proof. done. Qed.

Lemma normalized_name name name' :
  is_name name → __cyanfs_file_name_normalize name = (ST_OK, name') → name_normal name'.
Proof. intros Hn E. pose proof (name_normalize_spec name Hn) as H. rewrite E in H. apply H. Qed.

Lemma same_ext_nodes s s' : same_ext s s' → same_nodes s s'.
Proof. intros Hse id f i c _ _. by rewrite (se_nodes _ _ Hse). Qed.

Lemma side_journal s s' : side s' = side s → journal_head s' = journal_head s.
Proof. unfold side. destruct s, s'. simpl. intros. by simplify_eq. Qed.

Lemma journals_append s s' flush j :
  journal_head s' = journal_head s → spec_apply j (jview s) = Some (jview s') → entry_ok j →
  pending_mono s s' → meta_entry j = true → keeps s s' → (∀ r, r ≠ T_UNUSED → tree_get r s' = tree_get r s) →
  journals s (append flush j s') j.
Proof.
  intros Hh Hsp Hok Hp Hm Hk Ht. split; [|by rewrite append_jview|done..|by split; apply Hk|done].
  exists flush. simpl. by rewrite Hh.
Qed.

Lemma status_unused s : __cyanfs_super_ensure_status s = ST_OK → unmap_dest s = T_UNUSED.
Proof.
  unfold __cyanfs_super_ensure_status, unmap_dest. destruct (has_flag s CYANFS_SUPER_FLAG_ERROR); [done|].
  by destruct (has_flag s CYANFS_SUPER_FLAG_READY).
Qed.

Lemma same_ext_pending s s' : same_ext s s' → pending_mono s s'.
Proof. intros Hse c e He _. by rewrite <- (se_nodes _ _ Hse). Qed.

Lemma status_cases s :
  (∃ e, __cyanfs_super_ensure_status s = ST_ERR e) ∨ __cyanfs_super_ensure_status s = ST_OK.
Proof. destruct (__cyanfs_super_ensure_status s); eauto. Qed.

Lemma jview_fresh s id : wf_ns s → max_file_id s < id → files_by_id s !! id = None.
Proof.
  intros Hwn Hlt. apply eq_None_not_Some. intros [f Hf].
  destruct (wn_id _ _ _ _ Hwn id (strip f)) as [_ ?]; [by rewrite lookup_fmap, Hf|lia].
Qed.

Lemma jview_can_create s name id :
  wf_ns s → 0 < id → files_by_id s !! id = None → files_by_name s !! name = None →
  sm_files (s_meta s) < CYANFS_SUPER_MAX_FILES → a_can_create name id (jview s) = true.
Proof.
  intros Hwn Hid Hi Hn Hl. unfold a_can_create. rewrite jview_name_taken, jview_file, Hi, Hn by done.
  pose proof (wn_count _ _ _ _ Hwn) as Hc. rewrite map_size_fmap in Hc.
  cbn [jview a_files]. rewrite map_size_fmap, <- Hc. destruct (Z.eqb_spec id 0); [lia|]. simpl.
  by apply Z.ltb_lt.
Qed.

Lemma init_file_jview s s' name id parent :
  same_ext s s' →
  files_by_id s' = bump_parent 1 (fst <$> parent) (<[id := new_file name id parent]> (files_by_id s)) →
  max_file_id s' = Z.max (max_file_id s) id →
  jview s' = a_add name id (fst <$> parent)
    (match parent with Some (_, p) => fm_size (f_meta p) | None => 0 end) (jview s).
Proof.
  intros Hse Hf Hmx.
  assert (a_files (jview s') = a_files (a_add name id (fst <$> parent)
    (match parent with Some (_, p) => fm_size (f_meta p) | None => 0 end) (jview s))) as E.
  { rewrite (jview_files_same s s') by (by apply same_ext_nodes). rewrite Hf, jfile_bump, fmap_insert. done. }
  unfold jview, a_add in *. cbn [a_files a_total a_max a_journal] in *. rewrite E, Hmx. f_equal.
  pose proof (se_meta _ _ Hse) as Hm. unfold ext_meta in Hm. by simplify_eq.
Qed.

Lemma create_locked_ok s fl name :
  wf s fl → name_normal name →
  let '(err, id, s') := create_locked name s in outcome_ok fl s (Some (err, s')) ∧ (err = ST_OK → id = Some (max_file_id s + 1)).
Proof.
  intros Hwf Hnn. unfold create_locked. pose proof (wf_has_ns _ _ Hwf) as Hwn.
  destruct (status_cases s) as [[e ->]| ->]; cbn [failed]; [split; [left; eauto|done]|].
  destruct (Z.leb_spec CYANFS_SUPER_MAX_FILES (sm_files (s_meta s))); [simpl; split; [left; eauto|done]|].
  destruct (Z.eqb_spec (max_file_id s) U64_MAX) as [|Hmx]; [simpl; split; [left; eauto|done]|]. cbn [orb].
  unfold __cyanfs_lookup_file_by_name. destruct (files_by_name s !! name) as [|] eqn:Hbn; [split; [left; eauto|done]|].
  pose proof (wn_max _ _ _ _ Hwn) as Hmax. unfold U64_MAX in *.
  rewrite u64_small by lia. pose proof (jview_fresh s (max_file_id s + 1) Hwn ltac:(lia)) as Hfr.
  destruct (init_file_ok s fl name (max_file_id s + 1) None) as (s' & E & Hwf' & Hse & Hf & Hn & Hm); try done.
  { unfold U64_MAX. lia. }
  rewrite E. cbn [failed]. split; [|done]. right. eexists _, _. split; [done|]. split; [by apply append_wf|].
  apply journals_append; [| | | |done| |].
  - apply side_journal, Hse.
  - rewrite (init_file_jview s s' name (max_file_id s + 1) None) by done.
    unfold spec_apply. rewrite normalize_normal by done.
    by rewrite jview_can_create by (done || lia).
  - split; [apply Hnn|]. unfold is_u64, U64_MAX. lia.
  - by apply same_ext_pending.
  - by eapply keeps_add.
  - intros r _. apply (se_tree _ _ Hse).
Qed.

Lemma fork_locked_ok s fl from name :
  wf s fl → name_normal name →
  let '(err, id, s') := fork_locked from name s in outcome_ok fl s (Some (err, s')) ∧ (err = ST_OK → id = Some (max_file_id s + 1)).
Proof.
  intros Hwf Hnn. unfold fork_locked. pose proof (wf_has_ns _ _ Hwf) as Hwn.
  destruct (status_cases s) as [[e ->]| ->]; cbn [failed]; [split; [left; eauto|done]|].
  destruct (Z.leb_spec CYANFS_SUPER_MAX_FILES (sm_files (s_meta s))); [simpl; split; [left; eauto|done]|].
  destruct (Z.eqb_spec (max_file_id s) U64_MAX) as [|Hmx]; [simpl; split; [left; eauto|done]|]. cbn [orb].
  unfold __cyanfs_lookup_file_by_id, __cyanfs_lookup_file_by_name.
  destruct (files_by_id s !! from) as [p|] eqn:Hp; [|split; [left; eauto|done]].
  case_bool_decide as Hrw; [split; [left; eauto|done]|].
  destruct (files_by_name s !! name) as [|] eqn:Hbn; [split; [left; eauto|done]|].
  pose proof (wn_max _ _ _ _ Hwn) as Hmax. unfold U64_MAX in *.
  rewrite u64_small by lia. pose proof (jview_fresh s (max_file_id s + 1) Hwn ltac:(lia)) as Hfr.
  destruct (wn_id _ _ _ _ Hwn from (strip p)) as [Hpid Hpr]; [by rewrite lookup_fmap, Hp|].
  change (fm_id (f_meta (strip p))) with (fm_id (f_meta p)) in Hpid. rewrite Hpid.
  destruct (init_file_ok s fl name (max_file_id s + 1) (Some (from, p))) as (s' & E & Hwf' & Hse & Hf & Hn & Hm); try done.
  { unfold U64_MAX. lia. }
  { intros ? ? [= <- <-]. split_and!; [lia|done|done]. }
  rewrite E. cbn [failed]. split; [|done]. right. eexists _, _. split; [done|]. split; [by apply append_wf|].
  apply journals_append; [| | | |done| |].
  - apply side_journal, Hse.
  - rewrite (init_file_jview s s' name (max_file_id s + 1) (Some (from, p))) by done.
    unfold spec_apply. rewrite normalize_normal, jview_file, Hp by done. cbn [fmap option_fmap option_map].
    rewrite jview_can_create by (done || lia). by rewrite (proj2 (Z.ltb_lt from (max_file_id s + 1))) by lia.
  - split_and!; [apply Hnn| |]; unfold is_u64, U64_MAX; lia.
  - by apply same_ext_pending.
  - by eapply keeps_add.
  - intros r _. apply (se_tree _ _ Hse).
Qed.

Lemma rename_locked_ok s fl id name :
  wf s fl → name_normal name → outcome_ok fl s (rename_locked id name s).
Proof.
  intros Hwf Hnn. unfold rename_locked. pose proof (wf_has_ns _ _ Hwf) as Hwn.
  destruct (status_cases s) as [[e ->]|Hst]; [left; eauto|]. rewrite Hst. cbn [failed].
  unfold __cyanfs_lookup_file_by_id, __cyanfs_lookup_file_by_name.
  destruct (files_by_name s !! name) as [|] eqn:Hbn; [left; eauto|].
  destruct (files_by_id s !! id) as [f|] eqn:Hf; [|left; eauto].
  destruct (wn_id _ _ _ _ Hwn id (strip f)) as [Hid Hr]; [by rewrite lookup_fmap, Hf|].
  change (fm_id (f_meta (strip f))) with (fm_id (f_meta f)) in Hid. rewrite Hid.
  destruct (rename_file_ok s fl id f name) as (s' & E & Hwf' & Hse & Hf' & Hm); try done.
  { by intros j Hj; congruence. }
  rewrite E. cbn [mbind option_bind]. right. eexists _, _. split; [done|]. split; [by apply append_wf|].
  apply journals_append; [| | | |done| |].
  - apply side_journal, Hse.
  - unfold spec_apply. rewrite normalize_normal, jview_file, Hf by done. cbn [fmap option_fmap option_map].
    rewrite bool_decide_false.
    + f_equal. assert (E' : a_files (jview s') = <[id := jfile s (upd_fmeta (set_fm_name name) f)]> (a_files (jview s))).
      { rewrite (jview_files_same s s') by (by apply same_ext_nodes). by rewrite Hf', fmap_insert. }
      pose proof (se_meta _ _ Hse) as Hme. unfold ext_meta in Hme. simplify_eq.
      unfold jview, a_set_files in *. cbn [a_files a_total a_max a_journal] in *. rewrite E'. by f_equal.
    + rewrite elem_of_a_names. intros (j & g & [Hne Hg]%lookup_delete_Some & Hnm).
      rewrite jview_file in Hg. apply fmap_Some in Hg as (h & Hh & ->).
      pose proof (by_name_lookup s j h Hwn Hh) as Hb. simpl in Hnm. congruence.
  - split; [apply Hnn|]. pose proof (wn_max _ _ _ _ Hwn). unfold is_u64. lia.
  - by apply same_ext_pending.
  - by eapply keeps_update.
  - intros r _. apply (se_tree _ _ Hse).
Qed.

Lemma unmapped_same_nodes s s' : unmapped s s' → same_nodes s s'.
Proof. intros Hu id f i c. apply (um_node _ _ Hu). Qed.

Lemma filter_keep_comm s size m :
  filter (λ p : Z * Z, journaled s p.2 = true) (a_keep size m) =
  a_keep size (filter (λ p : Z * Z, journaled s p.2 = true) m).
Proof. unfold a_keep. apply map_filter_comm. Qed.

Lemma truncate_locked_ok s fl id size :
  wf s fl → size_ok size →
  (∀ f, files_by_id s !! id = Some f → f_open_type f = CYANFS_FILE_CLOSED → no_pending s id) →
  outcome_ok fl s (truncate_locked id size s).
Proof.
  intros Hwf Hsz Hnp. unfold truncate_locked. pose proof (wf_has_ns _ _ Hwf) as Hwn. pose proof (status_unused s) as Hun.
  destruct (status_cases s) as [[e ->]|Hst]; [left; eauto|]. rewrite Hst. cbn [failed].
  unfold __cyanfs_lookup_file_by_id. destruct (files_by_id s !! id) as [f|] eqn:Hf; [|left; eauto].
  unfold file_busy. case_bool_decide as Ho; cbn [negb orb]; [|left; eauto].
  destruct (Z.eqb_spec (fm_children (f_meta f)) 0) as [H0|]; cbn [negb]; [|left; eauto].
  destruct (wn_id _ _ _ _ Hwn id (strip f)) as [Hid Hr]; [by rewrite lookup_fmap, Hf|].
  change (fm_id (f_meta (strip f))) with (fm_id (f_meta f)) in Hid. rewrite Hid.
  destruct (file_truncate_ok s fl id size f) as (s' & E & Hwf' & Hre & Hf' & Hu); try done; [by eapply Hnp|].
  rewrite E. cbn [mbind option_bind]. right. eexists _, _. split; [done|]. split; [by apply append_wf|].
  destruct (rest_ns s s' Hre) as (_ & Hm & _ & _ & Ht). apply journals_append; [| | | |done| |].
  - by apply side_journal, rest_side.
  - unfold spec_apply. rewrite jview_file, Hf. cbn [fmap option_fmap option_map mbind option_bind].
    rewrite (jview_no_child s id f) by done. rewrite bool_decide_true by apply Hsz. cbn [andb negb]. f_equal.
    assert (E' : a_files (jview s') = <[id := jfile s (truncated size f)]> (a_files (jview s))).
    { rewrite (jview_files_same s s') by (by apply unmapped_same_nodes). by rewrite Hf', fmap_insert. }
    unfold jview, a_set_files in *. cbn [a_files a_total a_max a_journal] in *. rewrite E', Ht, Hm. do 2 f_equal.
    unfold jfile. simpl. by rewrite filter_keep_comm.
  - split; [|apply Hsz]. pose proof (wn_max _ _ _ _ Hwn). unfold is_u64. lia.
  - intros c e. apply (um_pending _ _ Hu).
  - eapply keeps_update; [done..|]. apply map_filter_subseteq.
  - intros r Hne. apply (um_tree _ _ Hu). by rewrite (Hun Hst).
Qed.

Lemma delete_locked_ok s fl id :
  wf s fl →
  (∀ f, files_by_id s !! id = Some f → f_open_type f = CYANFS_FILE_CLOSED → no_pending s id) →
  outcome_ok fl s (delete_locked id s).
Proof.
  intros Hwf Hnp. unfold delete_locked. pose proof (wf_has_ns _ _ Hwf) as Hwn. pose proof (status_unused s) as Hun.
  destruct (status_cases s) as [[e ->]|Hst]; [left; eauto|]. rewrite Hst. cbn [failed].
  unfold __cyanfs_lookup_file_by_id. destruct (files_by_id s !! id) as [f|] eqn:Hf; [|left; eauto].
  unfold file_busy. case_bool_decide as Ho; cbn [negb orb]; [|left; eauto].
  destruct (Z.eqb_spec (fm_children (f_meta f)) 0) as [H0|]; cbn [negb]; [|left; eauto].
  destruct (wn_id _ _ _ _ Hwn id (strip f)) as [Hid Hr]; [by rewrite lookup_fmap, Hf|].
  change (fm_id (f_meta (strip f))) with (fm_id (f_meta f)) in Hid. rewrite Hid.
  destruct (delete_file_ok s fl id f) as (s' & E & Hwf' & Hsd & Hf' & Hm & Hu & Ht); try done; [by eapply Hnp|].
  rewrite E. cbn [mbind option_bind]. right. eexists _, _. split; [done|]. split; [by apply append_wf|].
  apply journals_append; [| | | |done| |].
  - by apply side_journal.
  - unfold spec_apply. rewrite jview_file, Hf. cbn [fmap option_fmap option_map mbind option_bind].
    rewrite (jview_no_child s id f) by done. f_equal.
    assert (E' : a_files (jview s') = delete id (a_files (jview s))).
    { rewrite (jview_files_same s s') by (by apply unmapped_same_nodes). by rewrite Hf', jfile_bump, fmap_delete. }
    unfold jview, a_set_files in *. cbn [a_files a_total a_max a_journal] in *. by rewrite E', Ht, Hm.
  - pose proof (wn_max _ _ _ _ Hwn). simpl. unfold is_u64. lia.
  - intros c e. apply (um_pending _ _ Hu).
  - by eapply keeps_delete.
  - intros r Hne. apply (um_tree _ _ Hu). by rewrite (Hun Hst).
Qed.

(** ** Sequences of operations *)
Inductive file_op :=
  | F_CREATE (name : cyanfs_file_name_t)
  | F_FORK (from : Z) (name : cyanfs_file_name_t)
  | F_RENAME (id : Z) (name : cyanfs_file_name_t)
  | F_TRUNCATE (id size : Z)
  | F_DELETE (id : Z).

Definition file_op_ok (o : file_op) : Prop :=
  match o with
  | F_CREATE name | F_FORK _ name | F_RENAME _ name => is_name name
  | F_TRUNCATE _ size => is_u64 size
  | F_DELETE _ => True
  end.

(** The effect of the operation on the super block: the checks made before
    the lock is taken, then the locked section. *)
Definition file_op_apply (o : file_op) (s : cyanfs_super) : option (cyanfs_status * cyanfs_super) :=
  match o with
  | F_CREATE name =>
      let '(err, name) := __cyanfs_file_name_normalize name in
      if failed err then Some (err, s) else
      let '(err, _, s) := create_locked name s in Some (err, s)
  | F_FORK from name =>
      let '(err, name) := __cyanfs_file_name_normalize name in
      if failed err then Some (err, s) else
      let '(err, _, s) := fork_locked from name s in Some (err, s)
  | F_RENAME id name =>
      let '(err, name) := __cyanfs_file_name_normalize name in
      if failed err then Some (err, s) else rename_locked id name s
  | F_TRUNCATE id size =>
      let err := __cyanfs_file_size_validate size in
      if failed err then Some (err, s) else truncate_locked id size s
  | F_DELETE id => delete_locked id s
  end.

Fixpoint file_ops_run (os : list file_op) (s : cyanfs_super) : option cyanfs_super :=
  match os with
  | [] => Some s
  | o :: os => '(_, s) ← file_op_apply o s; file_ops_run os s
  end.

(** No copy is in progress on a closed file: a client closes a file only
    after the requests it queued behind the copies are done (core.h). *)
Definition closed_quiet (s : cyanfs_super) : Prop :=
  ∀ id f, files_by_id s !! id = Some f → f_open_type f = CYANFS_FILE_CLOSED → no_pending s id.

Lemma file_op_apply_ok s fl o :
  wf s fl → file_op_ok o → closed_quiet s → outcome_ok fl s (file_op_apply o s).
Proof.
  intros Hwf Ho Hnp. destruct o as [name|from name|id name|id size|id]; simpl in *.
  - pose proof (normalized_name name) as Hn. destruct (__cyanfs_file_name_normalize name) as [[|e] nm]; [|left; eauto].
    simpl. pose proof (create_locked_ok s fl nm Hwf (Hn nm Ho eq_refl)) as H.
    destruct (create_locked nm s) as [[err id] s']. apply H.
  - pose proof (normalized_name name) as Hn. destruct (__cyanfs_file_name_normalize name) as [[|e] nm]; [|left; eauto].
    simpl. pose proof (fork_locked_ok s fl from nm Hwf (Hn nm Ho eq_refl)) as H.
    destruct (fork_locked from nm s) as [[err id] s']. apply H.
  - pose proof (normalized_name name) as Hn. destruct (__cyanfs_file_name_normalize name) as [[|e] nm]; [|left; eauto].
    simpl. apply rename_locked_ok; auto.
  - destruct (__cyanfs_file_size_validate size) as [|e] eqn:Ev; [|left; eauto]. simpl.
    apply truncate_locked_ok; [done|by split|]. intros f. apply Hnp.
  - apply delete_locked_ok; [done|]. intros f. apply Hnp.
Qed.

(** No node is pending. *)
Definition quiet (s : cyanfs_super) : Prop := ∀ c e, nodes s !! c = Some e → ext_pending e = false.

Lemma quiet_closed s : quiet s → closed_quiet s.
Proof. intros Hq id g _ _ f i n e _ _. apply Hq. Qed.

Lemma quiet_mono s s' : pending_mono s s' → quiet s → quiet s'.
Proof.
  intros Hp Hq c e He. destruct (ext_pending e) eqn:E; [|done]. pose proof (Hp c e He E) as He'.
  pose proof (Hq c e He'). congruence.
Qed.

Lemma file_ops_run_ok os s fl :
  wf s fl → quiet s → Forall file_op_ok os →
  ∃ s' js, file_ops_run os s = Some s' ∧ wf s' fl ∧ quiet s' ∧
    journal_head s' = journal_head s ++ js ∧ Forall entry_ok (j_body <$> js) ∧
    Forall (λ j, meta_entry j = true) (j_body <$> js) ∧
    spec_run (j_body <$> js) (jview s) = Some (jview s').
Proof.
  intros Hwf Hq Hos. revert s Hwf Hq. induction Hos as [|o os Ho Hos IH]; intros s Hwf Hq.
  - exists s, []. by rewrite app_nil_r.
  - cbn [file_ops_run].
    destruct (file_op_apply_ok s fl o) as [[err E]|(s1 & j & E & Hwf1 & [[fl' Hh] Hsp Hok Hp Hme _ _])]; auto using quiet_closed.
    + rewrite E. cbn [mbind option_bind]. by apply IH.
    + rewrite E. cbn [mbind option_bind].
      destruct (IH s1 Hwf1 (quiet_mono _ _ Hp Hq)) as (s' & js & E' & Hwf' & Hq' & Hh' & Hok' & Hme' & Hsp').
      exists s', (mk_entry fl' j :: js). split_and!; try done.
      * by rewrite Hh', Hh, <- app_assoc.
      * by constructor.
      * by constructor.
      * simpl. by rewrite Hsp.
Qed.

(** ** Properties: the operations *)
Lemma wf_flags x s fl : wf s fl → wf (add_flag x s) fl.
Proof.
  intros [Hwe Hwn Hwi]. split; [|by apply Hwn|by apply Hwi].
  apply (wf_ext_files s (add_flag x s) fl Hwe); try done; intros id f Hf; left; by exists f.
Qed.

(** The instance of an empty device, ready. *)
Definition ready_super (size : Z) (discard compact : bool) : cyanfs_super :=
  add_flag CYANFS_SUPER_FLAG_READY (init_super size discard compact).

Lemma ready_super_wf size discard compact :
  device_size_ok size → wf (ready_super size discard compact) ∅ ∧ quiet (ready_super size discard compact).
Proof.
  intros Hs. pose proof (init_super_replaying size discard compact Hs) as Hrp. split.
  - apply wf_flags, Hrp.
  - intros c e. apply (rp_pending _ Hrp).
Qed.

(** Creating, forking, renaming, truncating or deleting a file never
    aborts.  The operation is refused and the state is unchanged, or it keeps
    the invariant and appends exactly one well-formed journal entry, whose
    meaning takes the journalled state to the new journalled state. *)
Theorem file_op_journaled s fl o :
  wf s fl → file_op_ok o → closed_quiet s →
  (∃ err, file_op_apply o s = Some (ST_ERR err, s)) ∨
  (∃ s' flush j, file_op_apply o s = Some (ST_OK, s') ∧ wf s' fl ∧ entry_ok j ∧
     journal_head s' = journal_head s ++ [mk_entry flush j] ∧
     spec_apply j (jview s) = Some (jview s')).
Proof.
  intros Hwf Ho Hnp. destruct (file_op_apply_ok s fl o Hwf Ho Hnp) as [He|(s' & j & E & Hwf' & [[b Hh] Hsp Hok _ _ _ _])].
  - by left.
  - right. exists s', b, j. done.
Qed.

(** C2: the journal recovers every sequence of operations.  Take an instance
    [s] with no copy in progress and the super block [s0] loaded from its
    journal.  After any sequence of operations, successful or refused, loading
    the appended entries on top of [s0] succeeds and gives the files of the
    instance: names, parents, sizes, extents and the greatest id. *)
Theorem file_ops_recovered os s fl s0 X :
  wf s fl → quiet s → Forall file_op_ok os → replaying s0 → abs s0 = a_set_journal X (jview s) →
  ∃ s' js s1, file_ops_run os s = Some s' ∧ wf s' fl ∧ journal_head s' = journal_head s ++ js ∧
    replay_all (j_body <$> js) s0 = Some (ST_OK, s1) ∧ abs s1 = a_set_journal X (jview s').
Proof.
  intros Hwf Hq Hos Hrp Ha.
  destruct (file_ops_run_ok os s fl Hwf Hq Hos) as (s' & js & E & Hwf' & _ & Hh & Hok & Hme & Hsp).
  pose proof (replay_all_step _ s0 Hrp Hok) as Hr. rewrite Ha, meta_run_journal, Hsp in Hr by done.
  destruct Hr as (s1 & E1 & Ha1 & _). exists s', js, s1. done.
Qed.

Definition ex_ops : list file_op :=
  [F_CREATE (short_name [97]); F_TRUNCATE 1 1572864; F_FORK 1 (short_name [98]); F_DELETE 1; F_RENAME 2 (short_name [99])].

Lemma ex_ops_ok : Forall file_op_ok ex_ops.
Proof.
  assert (∀ c, 0 < c < 256 → is_name (short_name [c])) as Hn.
  { intros c Hc. apply short_name_normal; [simpl; lia|by apply Forall_singleton]. }
  repeat constructor; try (apply Hn; lia); vm_compute; done.
Qed.

Lemma file_op_journaled_witness :
  ∃ s' flush j, file_op_apply (F_CREATE (short_name [97])) (ready_super ex_size false false) = Some (ST_OK, s') ∧
    journal_head s' = [mk_entry flush j].
Proof.
  destruct (ready_super_wf ex_size false false ex_size_ok) as [Hwf Hq].
  assert (Hok : file_op_ok (F_CREATE (short_name [97]))).
  { pose proof ex_ops_ok as H. unfold ex_ops in H. by apply Forall_cons in H as [H _]. }
  destruct (file_op_journaled _ ∅ (F_CREATE (short_name [97])) Hwf Hok (quiet_closed _ Hq))
    as [[err E]|(s' & flush & j & E & _ & _ & Hh & _)].
  - exfalso. assert (H : fst <$> file_op_apply (F_CREATE (short_name [97])) (ready_super ex_size false false) = Some ST_OK)
      by (vm_compute; reflexivity). rewrite E in H. discriminate H.
  - by exists s', flush, j.
Defined.

Lemma file_ops_recovered_witness :
  ∃ s' js s1, file_ops_run ex_ops (ready_super ex_size false false) = Some s' ∧
    replay_all (j_body <$> js) (init_super ex_size false false) = Some (ST_OK, s1) ∧
    abs s1 = a_set_journal ∅ (jview s').
Proof.
  destruct (ready_super_wf ex_size false false ex_size_ok) as [Hwf Hq].
  destruct (file_ops_recovered ex_ops _ ∅ (init_super ex_size false false) ∅ Hwf Hq ex_ops_ok)
    as (s' & js & s1 & H1 & _ & _ & H2 & H3).
  - apply init_super_replaying, ex_size_ok.
  - reflexivity.
  - by exists s', js, s1.
Defined.
