(* ===== verification/LoaderClients.v ===== *)
(** * LoaderClients: who loads a journal

    The opening of an instance and the compaction are clients of the loader:
    their parsers implement the meaning of the entries ([Replay]), so they
    satisfy the contract of [JournalLoad]. *)
From Stdlib Require Import ZArith Lia.
From S2P Require Import Prelude Base Journal Spec CompactSpec Types Super SuperInv SuperOps Replay World JournalIO JournalRecord JournalLoad Discard Compact Flusher Api.

Lemma upd_cursor_replaying g s : replaying s → replaying (upd_cursor g s).
Proof.
  intros [[Hwe Hwn Hwi] Hr Ht Hp Hc]. split; try done. split; [|by apply Hwn|by apply Hwi].
  apply (wf_ext_files s (upd_cursor g s) ∅ Hwe); try done; intros id f Hf; left; by exists f.
Qed.

Definition open_model (w : world) (a : astate) : Prop :=
  w_malloc w = [] ∧ replaying (w_super w) ∧ has_flag (w_super w) CYANFS_SUPER_FLAG_ERROR = false ∧ abs (w_super w) = a.

Lemma malloc_ok (b : bool) w : w_malloc w = [] → (if b then cyanfs_malloc w else (true, w)) = (true, w).
Proof. intros Hm. unfold cyanfs_malloc. rewrite Hm. by destruct b. Qed.

Lemma spec_apply_total j a a' : spec_apply j a = Some a' → a_total a' = a_total a.
Proof.
  destruct j; cbn [spec_apply]; intros H;
    repeat first [progress simplify_option_eq|case_match; simplify_eq]; done.
Qed.

(** The replay of an entry keeps the cursor, the queue and the extent count. *)
Lemma replay_kept s j st s' :
  replaying s → entry_ok j → __cyanfs_super_journal_replay true j s = Some (st, s') →
  journal_cursor s' = journal_cursor s ∧ sm_total_extents (s_meta s') = sm_total_extents (s_meta s) ∧
  task_head s' = task_head s ∧ active_tasks s' = active_tasks s.
Proof.
  intros Hrp Hj E. pose proof (replay_side _ _ _ _ _ E) as Hs. unfold side in Hs.
  assert (sm_total_extents (s_meta s') = sm_total_extents (s_meta s)); [|split_and!; congruence].
  pose proof (replay_step_refines s j Hrp Hj) as Hr. destruct (spec_apply j (abs s)) as [a|] eqn:Ea; simpl in Hr.
  - destruct Hr as (s1 & E1 & Ha & _). rewrite E in E1. injection E1 as _ <-. apply spec_apply_total in Ea.
    rewrite <- Ha in Ea. exact Ea.
  - destruct Hr as (e & E1). rewrite E in E1. by injection E1 as _ ->.
Qed.

#[export] Instance open_loader_model : LoaderModel LOADER_OPEN open_loader_ops open_model.
Proof.
  split.
  - intros j w a st w' (Hm & Hrp & _) Hj E. cbn [op_parser open_loader_ops] in E. unfold cyanfs_super_open_parser in E.
    rewrite malloc_ok in E by done.
    destruct (__cyanfs_super_journal_replay true j (w_super w)) as [[err s]|] eqn:Er; [|done]. injection E as <- <-.
    destruct (replay_kept _ _ _ _ Hrp Hj Er) as (Hc & Ht & Hh & Hn). split; [done|]. unfold kept. simpl. congruence.
  - intros j w a (Hm & Hrp & Hfl & <-) Hj. cbn [op_parser open_loader_ops]. unfold cyanfs_super_open_parser. rewrite malloc_ok by done.
    pose proof (replay_step_refines (w_super w) j Hrp Hj) as Hr. destruct (spec_apply j (abs (w_super w))); simpl in Hr.
    + destruct Hr as (s' & Es & Ha & Hrp'). rewrite Es. eexists. split; [done|]. split_and!; try done. simpl.
      rewrite <- Hfl. apply side_flag. by eapply replay_side.
    + destruct Hr as (e & ->). cbn. eauto.
  - by intros w a (Hm & _).
  - intros g w a (Hm & Hrp & Hfl & <-). split_and!; [done|by apply upd_cursor_replaying|done..].
  - intros g w a (Hm & Hrp & Hfl & <-). by split_and!.
Qed.

Definition compact_model (w : world) (a : astate) : Prop :=
  w_malloc w = [] ∧ ∃ t, w_compact w = Some t ∧ replaying (cp_compact t) ∧ abs (cp_compact t) = a.

#[export] Instance compact_loader_model : LoaderModel LOADER_COMPACT compact_loader_ops compact_model.
Proof.
  split.
  - intros j w a st w' (Hm & t & Et & Hrp & _) Hj E. cbn [op_parser compact_loader_ops] in E.
    unfold cyanfs_journal_compact_loader_parser in E. rewrite malloc_ok, Et in E by done. cbn [mbind option_bind] in E.
    destruct (__cyanfs_super_journal_replay true j (cp_compact t)) as [[err s]|] eqn:Er; [|done]. injection E as <- <-.
    destruct (replay_kept _ _ _ _ Hrp Hj Er) as (Hc & _ & _ & _). unfold kept. simpl. rewrite Et. split; [done|]. simpl. congruence.
  - intros j w a (Hm & t & Et & Hrp & <-) Hj. cbn [op_parser compact_loader_ops].
    unfold cyanfs_journal_compact_loader_parser. rewrite malloc_ok by done. rewrite Et. cbn [mbind option_bind].
    pose proof (replay_step_refines (cp_compact t) j Hrp Hj) as Hr. destruct (spec_apply j (abs (cp_compact t))); simpl in Hr.
    + destruct Hr as (s' & -> & Ha & Hrp'). eexists. split; [done|]. split; [done|].
      exists (set_cp_compact s' t). simpl. rewrite Et. by split_and!.
    + destruct Hr as (e & ->). cbn. eauto.
  - by intros w a (Hm & _).
  - intros g w a (Hm & t & Et & Hrp & <-). split; [done|]. exists (set_cp_compact (upd_cursor g (cp_compact t)) t).
    simpl. rewrite Et. split_and!; [done|by apply upd_cursor_replaying|done].
  - intros g w a (Hm & t & Et & Hrp & <-). split; [done|]. exists (set_cp_loader (g (cp_loader t)) t).
    simpl. rewrite Et. by split_and!.
Qed.
