(* ===== verification/Handles.v ===== *)
(** * Handles: opening files, listing them, closing the instance

    The handles a client holds, as the list of its successful opens.  A
    client closes only handles it holds; under that contract the open types
    and reader counts of [core/super.c] implement a reader/writer lock per
    file: a writer is alone, a file that is open is neither deleted nor
    truncated (its handle stays valid), and closing never aborts. *)
From Stdlib Require Import ZArith Lia.
From S2P Require Import Prelude Base Journal Spec CompactSpec Types Super SuperInv SuperOps Replay World JournalIO Discard Compact Flusher Api ApiSpec.

(** ** Handles *)
Definition handle : Type := Z * bool.

Inductive handle_step : cyanfs_super * list handle → cyanfs_super * list handle → Prop :=
  | hs_open id write s s' hs :
      cyanfs_open id write s = (ST_OK, s') → handle_step (s, hs) (s', (id, write) :: hs)
  | hs_open_refused id write s s' e hs :
      cyanfs_open id write s = (ST_ERR e, s') → handle_step (s, hs) (s', hs)
  | hs_close id write s s' hs hs' :
      hs ≡ₚ (id, write) :: hs' → cyanfs_close id s = Some s' → handle_step (s, hs) (s', hs')
  | hs_file o s st s' hs :
      file_op_ok o → closed_quiet s → file_op_apply o s = Some (st, s') →
      handle_step (s, hs) (s', hs).

(** The handles on file [id]. *)
Definition on_file (id : Z) (hs : list handle) : list bool := snd <$> filter (λ h, h.1 = id) hs.

(** What the handles on a file say about how it is open. *)
Definition held (v : cyanfs_open_type * Z) (ws : list bool) : Prop :=
  match v with
  | (CYANFS_FILE_CLOSED, n) => ws = [] ∧ n = 0
  | (CYANFS_FILE_READONLY, n) => ws ≠ [] ∧ Forall (λ w, w = false) ws ∧ n = Z.of_nat (length ws)
  | (CYANFS_FILE_READWRITE, n) => ws = [true] ∧ n = 0
  end.

Record handles_ok (fl : gmap Z (gset Z)) (x : cyanfs_super * list handle) : Prop := {
  ho_wf : wf x.1 fl;
  ho_held : ∀ id f, files_by_id x.1 !! id = Some f → held (handle_view f) (on_file id x.2);
  ho_live : ∀ id w, (id, w) ∈ x.2 → is_Some (files_by_id x.1 !! id) }.

Lemma on_file_cons id w hs id' :
  on_file id' ((id, w) :: hs) = if decide (id = id') then w :: on_file id' hs else on_file id' hs.
Proof. unfold on_file. rewrite filter_cons. simpl. by case_decide. Qed.

Lemma on_file_perm id hs hs' : hs ≡ₚ hs' → on_file id hs ≡ₚ on_file id hs'.
Proof. intros H. unfold on_file. by rewrite H. Qed.

Lemma held_perm v ws ws' : ws ≡ₚ ws' → held v ws → held v ws'.
Proof.
  intros Hp. destruct v as [[] n]; simpl.
  - intros [-> ->]. by apply Permutation_nil_l in Hp.
  - intros (Hne & Hf & ->). split_and!; [|by rewrite <- Hp|by rewrite Hp]. intros ->. by apply Permutation_nil_r in Hp.
  - intros [-> ->]. by apply Permutation_singleton_l in Hp.
Qed.

(** Changing how a file is open. *)
Definition with_view (o : cyanfs_open_type) (n : Z) (f : cyanfs_file) : cyanfs_file :=
  set_f_reader n (set_f_open_type o f).

Lemma set_handle_ok s s' fl id f o n hs hs' :
  handles_ok fl (s, hs) → files_by_id s !! id = Some f →
  s' = set_files_by_id (<[id := with_view o n f]> (files_by_id s)) s →
  (o = CYANFS_FILE_READWRITE → fm_children (f_meta f) = 0) →
  (∀ j, j ≠ id → on_file j hs' ≡ₚ on_file j hs) → held (o, n) (on_file id hs') →
  (∀ j w, (j, w) ∈ hs' → j = id ∨ (j, w) ∈ hs) →
  handles_ok fl (s', hs').
Proof.
  intros [Hwf Hh Hl] Hf -> Ho Hne Hid Hin. simpl in *. destruct Hwf as [Hwe Hwn Hwi].
  set (s' := set_files_by_id _ s).
  assert (E : files_by_id s' = <[id := with_view o n f]> (files_by_id s)) by done. split; cbn [fst snd].
  - split.
    + apply (wf_ext_files s _ fl Hwe); try done; intros j h; rewrite E.
      * intros [[<- <-]|[_ Hg]]%lookup_insert_Some; left; eauto.
      * intros Hg. left. destruct (decide (j = id)) as [->|]; simplify_map_eq; eauto.
    + unfold wf_ns. rewrite E, fmap_insert. apply (wf_files_update _ _ _ _ Hwn id (strip f)); try done.
      * by rewrite lookup_fmap, Hf.
      * apply (wn_size _ _ _ _ Hwn id (strip f)). by rewrite lookup_fmap, Hf.
    + apply (wf_idx_insert s _ id f (with_view o n f) Hwi Hf E). intros i b Hi. by apply (Hwi id f i b).
  - intros j g. rewrite E. intros [[<- <-]|[Hj Hg]]%lookup_insert_Some; [done|].
    eapply held_perm; [symmetry; by apply Hne|]. by apply Hh.
  - intros j w Hj. rewrite E. apply lookup_insert_is_Some. destruct (decide (id = j)) as [->|]; [by left|].
    right. split; [done|]. apply Hin in Hj as [->|Hj]; [done|]. by eapply Hl.
Qed.

Lemma with_view_fields o n f f' :
  f_parent f' = f_parent f → f_meta f' = f_meta f → f_extents f' = f_extents f →
  f_open_type f' = o → f_reader f' = n → f' = with_view o n f.
Proof. destruct f, f'. simpl. by intros -> -> -> -> ->. Qed.

(** ** The steps *)
Lemma open_step_ok fl s hs id write st s' :
  handles_ok fl (s, hs) → cyanfs_open id write s = (st, s') →
  (st ≠ ST_OK ∧ s' = s) ∨ (st = ST_OK ∧ handles_ok fl (s', (id, write) :: hs)).
Proof.
  intros Hok. unfold cyanfs_open. destruct (__cyanfs_super_ensure_status s); cbn [failed]; [|intros [= <- <-]; by left].
  unfold __cyanfs_lookup_file_by_id. destruct (files_by_id s !! id) as [f|] eqn:Hf; [|intros [= <- <-]; by left].
  pose proof (ho_held _ _ Hok id f Hf) as Hh. unfold handle_view in Hh. simpl in Hh.
  assert (Hstep : ∀ g o n, (o = CYANFS_FILE_READWRITE → fm_children (f_meta f) = 0) →
    g f = with_view o n f → held (o, n) (write :: on_file id hs) →
    handles_ok fl (upd_file id g s, (id, write) :: hs)).
  { intros g o n Ho Hg Hheld. rewrite (upd_file_Some id g f s Hf), Hg.
    apply (set_handle_ok s _ fl id f o n hs); try done.
    - intros j Hj. rewrite on_file_cons, decide_False by done. done.
    - by rewrite on_file_cons, decide_True by done.
    - intros j w [[= -> ->]|Hin]%elem_of_cons; [by left|by right]. }
  destruct write.
  - case_bool_decide as Hcl; cbn [negb orb]; [|intros [= <- <-]; by left].
    destruct (Z.eqb_spec (fm_children (f_meta f)) 0) as [Hc|]; cbn [negb]; intros [= <- <-]; [|by left].
    right. split; [done|]. rewrite Hcl in Hh. destruct Hh as [Hnil Hn].
    apply (Hstep _ CYANFS_FILE_READWRITE 0); try done; [by apply with_view_fields|]. by rewrite Hnil.
  - case_bool_decide as Hrw; intros [= <- <-]; [by left|]. right. split; [done|].
    apply (Hstep _ CYANFS_FILE_READONLY (f_reader f + 1)); try done.
    destruct (f_open_type f); simpl in Hh |- *; [| |done].
    + destruct Hh as [-> ->]. split_and!; [done|by apply Forall_singleton|done].
    + destruct Hh as (_ & Hfa & ->). split_and!; [done|by constructor|simpl; lia].
Qed.

Lemma close_step_ok fl s hs id write hs' :
  handles_ok fl (s, hs) → hs ≡ₚ (id, write) :: hs' →
  ∃ s', cyanfs_close id s = Some s' ∧ handles_ok fl (s', hs').
Proof.
  intros Hok Hp. destruct (ho_live _ _ Hok id write) as [f Hf]; [simpl; rewrite Hp; set_solver|]. simpl in Hf.
  pose proof (ho_held _ _ Hok id f Hf) as Hh. cbn [fst snd] in Hh.
  apply (held_perm _ _ _ (on_file_perm id _ _ Hp)) in Hh. rewrite on_file_cons, decide_True in Hh by done.
  assert (Hstep : ∀ g o n, (o = CYANFS_FILE_READWRITE → fm_children (f_meta f) = 0) →
    g f = with_view o n f → held (o, n) (on_file id hs') → handles_ok fl (upd_file id g s, hs')).
  { intros g o n Ho Hg Hheld. rewrite (upd_file_Some id g f s Hf), Hg.
    apply (set_handle_ok s _ fl id f o n hs); try done.
    - intros j Hj. rewrite (on_file_perm j _ _ Hp), on_file_cons, decide_False by done. done.
    - intros j w Hin. right. rewrite Hp. set_solver. }
  unfold handle_view in Hh. unfold cyanfs_close. rewrite Hf. cbn [mbind option_bind].
  destruct (f_open_type f) eqn:Eo; simpl in Hh.
  - by destruct Hh.
  - destruct Hh as (_ & [_ Hfa]%Forall_cons & Hn). cbn [length] in Hn. eexists. split; [done|].
    destruct (Z.eqb_spec (f_reader f - 1) 0) as [H0|H0].
    + assert (upd_file id (set_f_open_type CYANFS_FILE_CLOSED) (upd_file id (set_f_reader (f_reader f - 1)) s) =
              upd_file id (λ g, set_f_open_type CYANFS_FILE_CLOSED (set_f_reader (f_reader f - 1) g)) s) as ->.
      { unfold upd_file. cbn [files_by_id set_files_by_id]. rewrite alter_alter_eq. done. }
      apply (Hstep _ CYANFS_FILE_CLOSED 0); [done|apply with_view_fields; done || exact H0|].
      assert (length (on_file id hs') = 0%nat) as ?%nil_length_inv by lia. done.
    + apply (Hstep _ CYANFS_FILE_READONLY (f_reader f - 1)); [done|by apply with_view_fields|].
      split_and!; [|done|lia]. intros E. rewrite E in Hn. simpl in Hn. lia.
  - destruct Hh as [[= -> Hnil] Hn]. eexists. split; [done|].
    apply (Hstep _ CYANFS_FILE_CLOSED 0); [done|by apply with_view_fields|by rewrite Hnil].
Qed.

Lemma file_step_ok fl s hs o st s' :
  handles_ok fl (s, hs) → file_op_ok o → closed_quiet s → file_op_apply o s = Some (st, s') →
  handles_ok fl (s', hs).
Proof.
  intros Hok Ho Hnp E. destruct Hok as [Hwf Hh Hl]. cbn [fst snd] in *.
  destruct (file_op_apply_ok s fl o Hwf Ho Hnp) as [[err E']|(s1 & j & E' & Hwf' & [_ _ _ _ _ [Hold Hlive]])].
  { rewrite E in E'. injection E' as -> ->. by split. }
  rewrite E in E'. injection E' as -> ->. split; cbn [fst snd]; [done| |].
  - intros id f' [(f & Hf & ->)|[Hn ->]]%Hold; [by apply Hh|]. split; [|done].
    destruct (on_file id hs) as [|w ws] eqn:Ew; [done|]. exfalso.
    assert (Hin : w ∈ on_file id hs) by (rewrite Ew; set_solver).
    apply list_elem_of_fmap in Hin as ([k w'] & -> & [Hk Hin]%list_elem_of_filter). simpl in Hk. subst k.
    destruct (Hl id w' Hin) as [f Hf]. congruence.
  - intros id w Hin. destruct (Hl id w Hin) as [f Hf]. apply (Hlive id f Hf). intros Hcl.
    pose proof (Hh id f Hf) as Hheld. unfold handle_view in Hheld. rewrite Hcl in Hheld. destruct Hheld as [Hnil _].
    assert (Hw : w ∈ on_file id hs) by (apply list_elem_of_fmap; exists (id, w); split; [done|by apply list_elem_of_filter]).
    rewrite Hnil in Hw. set_solver.
Qed.

Lemma handle_step_ok fl x y : handles_ok fl x → handle_step x y → handles_ok fl y.
Proof.
  intros Hok Hst. inversion Hst as [id write s s' hs E|id write s s' e hs E|id write s s' hs hs' Hp E|o s st s' hs Ho Hnp E]; subst.
  - by destruct (open_step_ok _ _ _ _ _ _ _ Hok E) as [[? _]|[_ ?]].
  - by destruct (open_step_ok _ _ _ _ _ _ _ Hok E) as [[_ ->]|[? _]].
  - destruct (close_step_ok _ _ _ _ _ _ Hok Hp) as (s1 & E1 & ?). by simplify_eq.
  - by eapply file_step_ok.
Qed.

(** ** Properties *)


(** Listing: the calls of [cyanfs_list] from [iter] on, until one fails. *)
Fixpoint list_from (fuel : nat) (iter : Z) (s : cyanfs_super) : option (list cyanfs_file_meta * cyanfs_status) :=
  match fuel with
  | O => None
  | S fuel =>
      match cyanfs_list iter s with
      | (ST_OK, Some m) => '(ms, st) ← list_from fuel (fm_id m) s; Some (m :: ms, st)
      | (st, _) => Some ([], st)
      end
  end.

Definition metas (s : cyanfs_super) (ids : list Z) : list cyanfs_file_meta :=
  omap (λ id, f_meta <$> files_by_id s !! id) ids.

Lemma list_from_sorted s fl ids fuel iter :
  wf s fl → __cyanfs_super_ensure_status s = ST_OK → StronglySorted Z.lt ids → 0 ≤ iter ≤ U64_MAX →
  (∀ id, id ∈ ids ↔ iter < id ∧ is_Some (files_by_id s !! id)) → (length ids < fuel)%nat →
  list_from fuel iter s = Some (metas s ids, ST_ERR ERR_NOENT).
Proof.
  intros Hwf Hst Hs. pose proof (wf_has_ns _ _ Hwf) as Hwn. pose proof (wn_max _ _ _ _ Hwn) as Hmax.
  assert (Hid : ∀ id f, files_by_id s !! id = Some f → fm_id (f_meta f) = id ∧ 0 < id ≤ max_file_id s).
  { intros id f Hf. apply (wn_id _ _ _ _ Hwn id (strip f)). by rewrite lookup_fmap, Hf. }
  revert fuel iter. induction Hs as [|id ids Hs IH Hlt]; intros [|fuel] iter Hit Hin Hlen; cbn [length] in *; try lia.
  - cbn [list_from]. unfold cyanfs_list. rewrite Hst. cbn [failed].
    destruct (Z.eqb_spec iter U64_MAX) as [|Hne]; [done|]. unfold U64_MAX in *. rewrite u64_small by lia.
    rewrite (proj2 (set_nfind_None _ _)); [done|]. intros y [f Hy]%elem_of_dom.
    apply Z.nle_gt. intros Hle. assert (y ∈ @nil Z) as Hn by (apply Hin; split; [lia|eauto]). set_solver.
  - destruct (proj1 (Hin id)) as [Hgt [f Hf]]; [set_solver|]. destruct (Hid id f Hf) as [Hfid Hr].
    cbn [list_from]. unfold cyanfs_list. rewrite Hst. cbn [failed].
    destruct (Z.eqb_spec iter U64_MAX) as [|Hne]; [lia|]. unfold U64_MAX in *. rewrite u64_small by lia.
    rewrite (proj2 (set_nfind_Some _ _ id)).
    + rewrite Hf, Hfid, IH; [|lia| |lia].
      * unfold metas. cbn [omap list_omap]. by rewrite Hf.
      * rewrite Forall_forall in Hlt. intros j. split.
        -- intros Hj. split; [by apply Hlt|]. apply (Hin j). set_solver.
        -- intros [Hj Hs']. assert (j ∈ id :: ids) as [->|]%elem_of_cons by (apply Hin; split; [lia|done]); [lia|done].
    + split_and!; [by apply elem_of_dom; eauto|lia|]. intros y [g Hy]%elem_of_dom Hle.
      rewrite Forall_forall in Hlt. assert (y ∈ id :: ids) as [->|Hy']%elem_of_cons by (apply Hin; split; [lia|eauto]); [lia|].
      apply Hlt in Hy'. lia.
Qed.

Lemma set_ordered_lt (X : gset Z) : StronglySorted Z.lt (set_ordered X).
Proof.
  pose proof (set_ordered_sorted X) as Hs. pose proof (NoDup_set_ordered X) as Hnd.
  induction Hs as [|x l Hs IH Hx]; [constructor|]. apply NoDup_cons in Hnd as [Hn Hnd]. constructor; [by apply IH|].
  rewrite Forall_forall in *. intros y Hy. specialize (Hx y Hy). assert (x ≠ y) by congruence. lia.
Qed.

(** C28: iterating [cyanfs_list] from id 0 returns the metadata of every file
    exactly once, in increasing order of the ids, and then ends with NOENT. *)
Theorem list_enumerates s fl :
  wf s fl → __cyanfs_super_ensure_status s = ST_OK →
  list_from (S (size (files_by_id s))) 0 s =
  Some (omap (λ id, f_meta <$> files_by_id s !! id) (set_ordered (dom (files_by_id s))), ST_ERR ERR_NOENT).
Proof.
  intros Hwf Hst. apply (list_from_sorted s fl); try done.
  - apply set_ordered_lt.
  - intros id. rewrite elem_of_set_ordered, elem_of_dom. split; [|by intros [_ ?]]. intros [f Hf]. split; [|by eauto].
    destruct (wn_id _ _ _ _ (wf_has_ns _ _ Hwf) id (strip f)); [by rewrite lookup_fmap, Hf|lia].
  - rewrite (Permutation_length (set_ordered_Permutation _)). change (length (elements ?X)) with (size X).
    rewrite size_dom. lia.
Qed.

(** ** Examples: a file is created and opened for writing. *)
Definition ex_created : cyanfs_super :=
  match file_op_apply (F_CREATE (short_name [97])) (ready_super ex_size false false) with
  | Some (_, s) => s
  | None => ready_super ex_size false false
  end.
Definition ex_opened : cyanfs_super := (cyanfs_open 1 true ex_created).2.

Lemma ex_created_eq :
  file_op_apply (F_CREATE (short_name [97])) (ready_super ex_size false false) = Some (ST_OK, ex_created).
Proof.
  assert (H : fst <$> file_op_apply (F_CREATE (short_name [97])) (ready_super ex_size false false) = Some ST_OK)
    by (vm_compute; reflexivity).
  unfold ex_created. destruct (file_op_apply _ _) as [[st s]|]; [|done]. by injection H as ->.
Qed.

Lemma ex_create_step : handle_step (ready_super ex_size false false, []) (ex_created, []).
Proof.
  destruct (ready_super_wf ex_size false false ex_size_ok) as [_ Hq].
  eapply (hs_file (F_CREATE (short_name [97]))); [|by apply quiet_closed|exact ex_created_eq].
  pose proof ex_ops_ok as H. unfold ex_ops in H. by apply Forall_cons in H as [H _].
Qed.

Lemma ex_steps : rtc handle_step (ready_super ex_size false false, []) (ex_opened, [(1, true)]).
Proof.
  eapply rtc_l; [exact ex_create_step|]. apply rtc_once, hs_open.
  assert (H : (cyanfs_open 1 true ex_created).1 = ST_OK) by (vm_compute; reflexivity).
  unfold ex_opened. destruct (cyanfs_open 1 true ex_created). simpl in *. by subst.
Qed.


Lemma list_enumerates_witness :
  list_from (S (size (files_by_id ex_created))) 0 ex_created =
  Some (omap (λ id, f_meta <$> files_by_id ex_created !! id) (set_ordered (dom (files_by_id ex_created))), ST_ERR ERR_NOENT).
Proof.
  destruct (ready_super_wf ex_size false false ex_size_ok) as [Hwf Hq].
  apply (list_enumerates ex_created ∅).
  - apply (ho_wf ∅ (ex_created, [])).
    apply (handle_step_ok ∅ (ready_super ex_size false false, [])).
    + split; [exact Hwf|done|by intros id w Hin; inversion Hin].
    + exact ex_create_step.
  - vm_compute. reflexivity.
Defined.
