(* ===== verification/ReadWrite.v ===== *)
(** * ReadWrite: file I/O

    Models [core/readwrite.c].  The handler of the caller
    ([cyanfs_io_spliter]) is a parameter, run on a state of its own and on the
    instance, which it may call.  The functions that release [files_lock]
    between two sections take the interference of the other threads there as a
    parameter [race]. *)
From Stdlib Require Import ZArith Lia.
From S2P Require Import Prelude Base Journal Types Super World JournalIO Discard Compact Flusher Api.

(** The type of the handler, [cyanfs_io_spliter]; it may abort. *)
Definition io_handler (C : Type) : Type := cyanfs_map_type_t → Z → Z → C → world → option (cyanfs_status * C * world).

Section io.
Context {C : Type} (handler : io_handler C) (race : world → world).

(** ** Reading *)
(** The file is out of range of [[f_off, f_off + len)]. *)
Definition range_invalid (size f_off len : Z) : bool :=
  (len =? 0) || (size <? f_off) || (size - f_off <? len).

(** The contents of the node found, or zeroes when there is none
    ([struct cyanfs_extent extent = { 0 }]). *)
Definition no_extent : cyanfs_extent := mk_extent 0 false false 0 false.
Definition extent_of (s : cyanfs_super) (n : option Z) : option cyanfs_extent :=
  match n with Some n => nodes s !! n | None => Some no_extent end.

Definition read_dispatch (extent : cyanfs_extent) (f_off l : Z) (ctx : C) (w : world) : option (cyanfs_status * C * world) :=
  if ext_error extent then Some (ST_ERR ERR_IO, ctx, w)
  else if negb (ext_map extent) then handler CYANFS_MAP_NOP 0 l ctx w
  else if ext_pending extent then handler CYANFS_MAP_REQUEUE 0 l ctx w
  else handler CYANFS_MAP_SUBMIT (cyanfs_map_extent_offset (ext_backend extent) f_off) l ctx w.

(** One iteration handles at least one byte, so [fuel] can be [len].  The
    lock is taken anew at each iteration. *)
Fixpoint read_loop (fuel : nat) (id f_off len : Z) (ctx : C) (w : world) : option (cyanfs_status * C * world) :=
  if len =? 0 then Some (ST_OK, ctx, w) else
  match fuel with
  | O => None
  | S fuel =>
      let l := cyanfs_map_extent_space f_off len in
      let w := race w in
      let s := w_super w in
      let err := __cyanfs_super_ensure_status s in
      if failed err then Some (err, ctx, w) else
      n ← __cyanfs_file_find_extent_follow s (Some id) f_off;
      extent ← extent_of s n;
      '(err, ctx, w) ← read_dispatch extent f_off l ctx w;
      if failed err then Some (err, ctx, w)
      else read_loop fuel id (u64 (f_off + l)) (u64 (len - l)) ctx w
  end.

Definition cyanfs_read (id : Z) (ctx : C) (f_off len : Z) (w : world) : option (cyanfs_status * C * world) :=
  f ← files_by_id (w_super w) !! id;
  if range_invalid (fm_size (f_meta f)) f_off len then Some (ST_ERR ERR_INVAL, ctx, w)
  else read_loop (Z.to_nat len) id f_off len ctx w.
End io.

(** ** Copy on write *)
Definition cyanfs_task_copy_on_write_finish (journal : cyanfs_journal_entry) (extent_node : Z) (err : cyanfs_status)
    (w : world) : world :=
  let s := upd_node extent_node (set_ext_pending false) (w_super w) in
  if failed err then set_w_super (upd_node extent_node (set_ext_error true) s) w
  else cyanfs_super_flush_new_journal (set_w_super (__cyanfs_super_journal_append journal s) w).

(** [&s->writers[s->writer_current_id]], incremented or decremented. *)
Definition writers_add (current : bool) (v : Z) (s : cyanfs_super) : cyanfs_super :=
  if current then set_writers1 (writers1 s + v) s else set_writers0 (writers0 s + v) s.

(** ** Writing

    What the locked sections of one iteration of [cyanfs_write] decide: the
    status, the contents of the extent (with [map] clear when there is
    nothing to map), the writer counter taken, and whether a journal entry
    was appended. *)
Record write_outcome := mk_wout {
  wo_err : cyanfs_status; wo_extent : cyanfs_extent; wo_writer : option bool; wo_journal : bool; wo_world : world }.

Definition write_stop (err : cyanfs_status) (w : world) : write_outcome := mk_wout err no_extent None false w.

(** The label [mapped]: count a writer and read the node. *)
Definition write_mapped (n : Z) (journal : bool) (w : world) : option write_outcome :=
  let current := writer_current_id (w_super w) in
  let w := upd_super (writers_add current 1) w in
  e ← nodes (w_super w) !! n;
  Some (mk_wout ST_OK e (Some current) journal w).

(** The section under the write lock; [parent] is the parent's extent to copy
    from, with its backend id. *)
Definition write_alloc (id f_off : Z) (parent : option Z) (w : world) : option write_outcome :=
  let s := w_super w in
  let err := __cyanfs_super_ensure_status s in
  if failed err then Some (write_stop err w) else
  f ← files_by_id s !! id;
  match __cyanfs_file_find_extent f f_off with
  | Some n => write_mapped n false w
  | None =>
      '(n, s) ← __cyanfs_file_alloc_extent id f_off s;
      match n with
      | None => Some (write_stop (ST_ERR ERR_NOSPACE) (set_w_super s w))
      | Some n =>
          e ← nodes s !! n;
          let j := J_BIND (fm_id (f_meta f)) (ext_backend e) (ext_file e) in
          match parent with
          | Some parent_b_id =>
              let s := upd_node n (set_ext_pending true) s in
              let task := mk_task
                (CYANFS_TASK_COPY (cyanfs_map_extent_offset parent_b_id 0) (cyanfs_map_extent_offset (ext_backend e) 0)
                   CYANFS_EXTENT_SIZE)
                (cyanfs_task_copy_on_write_done (mk_entry true j) n) in
              write_mapped n false (set_w_super (cyanfs_super_task_add_tail task s) w)
          | None => write_mapped n true (set_w_super (__cyanfs_super_journal_append (mk_entry false j) s) w)
          end
      end
  end.

Section write.
Context {C : Type} (handler : io_handler C) (race : world → world).

(** The locked sections of one iteration. *)
Definition write_extent (id f_off : Z) (w : world) : option write_outcome :=
  let w := race w in
  let s := w_super w in
  let err := __cyanfs_super_ensure_status s in
  if failed err then Some (write_stop err w) else
  f ← files_by_id s !! id;
  match __cyanfs_file_find_extent f f_off with
  | Some n => write_mapped n false w
  | None =>
      p ← __cyanfs_file_find_extent_follow s (f_parent f) f_off;
      match p with
      | None =>
          let '(ok, w) := cyanfs_malloc w in
          if negb ok then Some (write_stop (ST_ERR ERR_NOMEM) w) else write_alloc id f_off None (race w)
      | Some p =>
          e ← nodes s !! p;
          if ext_error e then Some (write_stop (ST_ERR ERR_IO) w)
          else if ext_pending e then Some (mk_wout ST_OK e None false w)
          else
            let '(ok, w) := cyanfs_malloc w in
            if negb ok then Some (write_stop (ST_ERR ERR_NOMEM) w) else
            let '(ok, w) := cyanfs_malloc w in
            if negb ok then Some (write_stop (ST_ERR ERR_NOMEM) w)
            else write_alloc id f_off (Some (ext_backend e)) (race w)
      end
  end.

Definition write_dispatch (err : cyanfs_status) (extent : cyanfs_extent) (f_off l : Z) (ctx : C) (w : world)
    : option (cyanfs_status * C * world) :=
  if ext_error extent then Some (ST_ERR ERR_IO, ctx, w)
  else if ext_map extent then
    if ext_pending extent then handler CYANFS_MAP_REQUEUE 0 l ctx w
    else handler CYANFS_MAP_SUBMIT (cyanfs_map_extent_offset (ext_backend extent) f_off) l ctx w
  else Some (err, ctx, w).

Fixpoint write_loop (fuel : nat) (id f_off len : Z) (new_journal : bool) (ctx : C) (w : world)
    : option (cyanfs_status * bool * C * world) :=
  if len =? 0 then Some (ST_OK, new_journal, ctx, w) else
  match fuel with
  | O => None
  | S fuel =>
      let l := cyanfs_map_extent_space f_off len in
      o ← write_extent id f_off w;
      let new_journal := new_journal || wo_journal o in
      '(err, ctx, w) ← write_dispatch (wo_err o) (wo_extent o) f_off l ctx (wo_world o);
      let w := match wo_writer o with
               | Some current => upd_super (writers_add current (-1)) (race w)
               | None => w
               end in
      if failed err then Some (err, new_journal, ctx, w)
      else write_loop fuel id (u64 (f_off + l)) (u64 (len - l)) new_journal ctx w
  end.

Definition cyanfs_write (id : Z) (ctx : C) (f_off len : Z) (w : world) : option (cyanfs_status * C * world) :=
  f ← files_by_id (w_super w) !! id;
  if (len =? 0) || negb (bool_decide (f_open_type f = CYANFS_FILE_READWRITE)) ||
     range_invalid (fm_size (f_meta f)) f_off len
  then Some (ST_ERR ERR_INVAL, ctx, w) else
  '(err, new_journal, ctx, w) ← write_loop (Z.to_nat len) id f_off len false ctx w;
  Some (err, ctx, if (new_journal : bool) then cyanfs_super_flush_new_journal w else w).

(** ** Discarding

    The checks of one iteration of [cyanfs_discard], made under the read
    lock and again under the write lock: what to tell the handler, or the
    extent to unmap. *)
Inductive discard_decision := DD_STOP (err : cyanfs_status) | DD_MAP (map : cyanfs_map_type_t) | DD_UNMAP (n : Z).

Definition discard_check (id f_off l : Z) (s : cyanfs_super) : option discard_decision :=
  let err := __cyanfs_super_ensure_status s in
  if failed err then Some (DD_STOP err)
  else if negb (cyanfs_extent_begin (cyanfs_extent_from f_off) =? f_off) || (l <? CYANFS_EXTENT_SIZE)
  then Some (DD_MAP CYANFS_MAP_NOP)
  else
    f ← files_by_id s !! id;
    p ← __cyanfs_file_find_extent_follow s (f_parent f) f_off;
    match p with
    | Some _ => Some (DD_MAP CYANFS_MAP_NOP)
    | None =>
        match __cyanfs_file_find_extent f f_off with
        | None => Some (DD_MAP CYANFS_MAP_NOP)
        | Some n =>
            e ← nodes s !! n;
            Some (if ext_error e then DD_STOP (ST_ERR ERR_IO)
                  else if ext_pending e then DD_MAP CYANFS_MAP_REQUEUE else DD_UNMAP n)
        end
    end.

(** One iteration up to the call of the handler. *)
Definition discard_extent (id f_off l : Z) (w : world) : option (cyanfs_status * cyanfs_map_type_t * bool * world) :=
  let w := race w in
  d ← discard_check id f_off l (w_super w);
  match d with
  | DD_STOP err => Some (err, CYANFS_MAP_NOP, false, w)
  | DD_MAP map => Some (ST_OK, map, false, w)
  | DD_UNMAP _ =>
      let '(ok, w) := cyanfs_malloc w in
      if negb ok then Some (ST_ERR ERR_NOMEM, CYANFS_MAP_NOP, false, w) else
      let w := race w in
      f ← files_by_id (w_super w) !! id;
      let j := mk_entry true (J_UNBIND (fm_id (f_meta f)) (cyanfs_extent_from f_off)) in
      d ← discard_check id f_off l (w_super w);
      match d with
      | DD_STOP err => Some (err, CYANFS_MAP_NOP, true, w)
      | DD_MAP map => Some (ST_OK, map, true, w)
      | DD_UNMAP n =>
          s ← __cyanfs_file_unmap_extent id n (w_super w);
          Some (ST_OK, CYANFS_MAP_NOP, true, set_w_super (__cyanfs_super_journal_append j s) w)
      end
  end.

Fixpoint discard_loop (fuel : nat) (id f_off len : Z) (new_journal : bool) (ctx : C) (w : world)
    : option (cyanfs_status * bool * C * world) :=
  if len =? 0 then Some (ST_OK, new_journal, ctx, w) else
  match fuel with
  | O => None
  | S fuel =>
      let l := cyanfs_map_extent_space f_off len in
      '(err, map, journal, w) ← discard_extent id f_off l w;
      let new_journal := new_journal || journal in
      if failed err then Some (err, new_journal, ctx, w) else
      '(err, ctx, w) ← handler map 0 l ctx w;
      if failed err then Some (err, new_journal, ctx, w)
      else discard_loop fuel id (u64 (f_off + l)) (u64 (len - l)) new_journal ctx w
  end.

Definition cyanfs_discard (id : Z) (ctx : C) (f_off len : Z) (w : world) : option (cyanfs_status * C * world) :=
  f ← files_by_id (w_super w) !! id;
  if (len =? 0) || negb (bool_decide (f_open_type f = CYANFS_FILE_READWRITE)) ||
     range_invalid (fm_size (f_meta f)) f_off len
  then Some (ST_ERR ERR_INVAL, ctx, w) else
  '(err, new_journal, ctx, w) ← discard_loop (Z.to_nat len) id f_off len false ctx w;
  Some (err, ctx, if (new_journal : bool) then cyanfs_super_flush_new_journal w else w).
End write.

(** ** Flush, requeue and seek *)
(** What to do with a flush, from the state of the queue. *)
Definition flush_map (s : cyanfs_super) : cyanfs_map_type_t :=
  if bool_decide (task_head s = []) && (active_tasks s =? 0) then CYANFS_MAP_SUBMIT else CYANFS_MAP_REQUEUE.

Definition cyanfs_flush (w : world) : cyanfs_status * option cyanfs_map_type_t * world :=
  let '(err, w) := cyanfs_super_flush false w in
  if failed err then (err, None, w) else (ST_OK, Some (flush_map (w_super w)), w).

Definition cyanfs_requeue (id ctx : Z) (w : world) : cyanfs_status * world :=
  let '(ok, w) := cyanfs_malloc w in
  if negb ok then (ST_ERR ERR_NOMEM, w)
  else (ST_OK, task_add_tail (mk_task (CYANFS_TASK_REQUEUE id ctx) __cyanfs_task_free) w).

Definition cyanfs_seek_extent (id f_off : Z) (s : cyanfs_super) : option (cyanfs_status * Z) :=
  f ← files_by_id s !! id;
  if negb (bool_decide (f_open_type f = CYANFS_FILE_READONLY)) then Some (ST_ERR ERR_INVAL, f_off)
  else if fm_size (f_meta f) <=? f_off then Some (ST_ERR ERR_NOENT, f_off)
  else match file_nfind f (bf30 (cyanfs_extent_from f_off)) with
       | Some (i, _) =>
           let begin := cyanfs_extent_begin i in
           Some (ST_OK, if f_off <? begin then begin else f_off)
       | None => Some (ST_ERR ERR_NOENT, f_off)
       end.

(** The loop of [cyanfs_seek_data] over the file and its ancestors. *)
Fixpoint seek_loop (fuel : nat) (s : cyanfs_super) (ancestor : option Z) (key visible_size first : Z) : option Z :=
  match fuel with
  | O => None
  | S fuel =>
      match ancestor with
      | None => Some first
      | Some id =>
          f ← files_by_id s !! id;
          let visible_size := if fm_size (f_meta f) <? visible_size then fm_size (f_meta f) else visible_size in
          if visible_size <=? cyanfs_extent_begin key then Some first
          else
            let first :=
              match file_nfind f key with
              | None => first
              | Some (i, _) =>
                  if (cyanfs_extent_begin i <? visible_size) &&
                     ((first =? cyanfs_extent_id_invalid) || (i <? first))
                  then i else first
              end in
            seek_loop fuel s (f_parent f) key visible_size first
      end
  end.

Definition cyanfs_seek_data (id f_off : Z) (s : cyanfs_super) : option (cyanfs_status * Z) :=
  f ← files_by_id s !! id;
  if negb (bool_decide (f_open_type f = CYANFS_FILE_READONLY)) then Some (ST_ERR ERR_INVAL, f_off)
  else if fm_size (f_meta f) <=? f_off then Some (ST_ERR ERR_NOENT, f_off)
  else
    let err := __cyanfs_super_ensure_status s in
    if failed err then Some (err, f_off) else
    first ← seek_loop (S (size (files_by_id s))) s (Some id) (bf30 (cyanfs_extent_from f_off))
              (fm_size (f_meta f)) cyanfs_extent_id_invalid;
    if first =? cyanfs_extent_id_invalid then Some (ST_ERR ERR_NOENT, f_off)
    else
      n ← __cyanfs_file_find_extent_follow s (Some id) (cyanfs_extent_begin first);
      n ← n;
      e ← nodes s !! n;
      if ext_error e then Some (ST_ERR ERR_IO, f_off)
      else let begin := cyanfs_extent_begin first in
           Some (ST_OK, if f_off <? begin then begin else f_off).
