(* ===== verification/ReadSpec.v ===== *)
(** * ReadSpec: what reading a file does

    [cyanfs_read] splits a range into pieces that each lie in one extent and
    asks the caller's handler for each: to submit it to the device at the
    place of the extent the file shows there ([SuperOps.visible]), to fill it
    with zeroes, or to queue it behind a copy in progress. *)
From Stdlib Require Import ZArith Lia.
From S2P Require Import Prelude Base Journal Spec Types Super SuperInv SuperOps Replay World JournalIO Discard Compact Flusher Api ApiSpec Handles ReadWrite.

(** A call of the handler: the kind of mapping, the device offset, the length. *)
Definition io_call : Type := cyanfs_map_type_t * Z * Z.

(** A handler that accepts every call and keeps a log. *)
Definition log_handler : io_handler (list io_call) := λ ty b_off len log w, Some (ST_OK, log ++ [(ty, b_off, len)], w).

(** The call for [l] bytes of file [id] at [off], inside one extent. *)
Definition read_piece (s : cyanfs_super) (id off l : Z) (c : io_call) : Prop :=
  ∃ r, visible s id (off / CYANFS_EXTENT_SIZE) r ∧
    match r with
    | None => c = (CYANFS_MAP_NOP, 0, l)
    | Some n => ∃ e, nodes s !! n = Some e ∧ ext_error e = false ∧
        c = (if ext_pending e then (CYANFS_MAP_REQUEUE, 0, l)
             else (CYANFS_MAP_SUBMIT, CYANFS_SUPER_BLOCK_SIZE + n * CYANFS_EXTENT_SIZE + off mod CYANFS_EXTENT_SIZE, l))
    end.

(** The calls for the bytes from [off] to [stop]: consecutive pieces, each
    inside one extent. *)
Inductive read_calls (s : cyanfs_super) (id : Z) : Z → Z → list io_call → Prop :=
  | rc_nil off : read_calls s id off off []
  | rc_cons off l stop c cs :
      0 < l → off / CYANFS_EXTENT_SIZE = (off + l - 1) / CYANFS_EXTENT_SIZE →
      read_piece s id off l c → read_calls s id (off + l) stop cs → read_calls s id off stop (c :: cs).

(** The extent shown at [off] failed to be copied. *)
Definition io_error (s : cyanfs_super) (id off : Z) : Prop :=
  ∃ n e, visible s id (off / CYANFS_EXTENT_SIZE) (Some n) ∧ nodes s !! n = Some e ∧ ext_error e = true.

(** The node of a visible extent. *)
Lemma visible_node s fl id i n :
  wf_ext s fl → visible s id i (Some n) → ∃ e, nodes s !! n = Some e ∧ ext_map e = true ∧ ext_backend e = n ∧
    0 ≤ n < sm_total_extents (s_meta s).
Proof.
  intros Hwf Hv. remember (Some n) as r eqn:Er. revert Er.
  induction Hv as [id f i m Hf Hlt Hm|id f p i r Hf Hlt Hi Hp Hv IH|id f i Hf|id f i Hf]; intros [= ->]; [|by apply IH].
  assert (Ho : owns s fl (P_FILE id i) n) by (simpl; eauto).
  destruct (we_node _ _ Hwf _ _ Ho) as (e & He & Hb & Hmap & _). exists e. split_and!; try done; by apply (owns_range _ _ Hwf _ _ Ho).
Qed.

Lemma space_piece off len :
  0 ≤ off < 2 ^ 52 → 0 < len →
  let l := cyanfs_map_extent_space off len in
  0 < l ≤ len ∧ off / CYANFS_EXTENT_SIZE = (off + l - 1) / CYANFS_EXTENT_SIZE.
Proof.
  intros Ho Hl. cbn zeta. rewrite map_extent_space_eq by done. change CYANFS_EXTENT_SIZE with 1048576.
  pose proof (Z.div_mod off 1048576 ltac:(lia)). pose proof (Z.mod_pos_bound off 1048576 ltac:(lia)).
  split; [lia|]. apply Z.div_unique with (off mod 1048576 + Z.min len (1048576 - off mod 1048576) - 1); lia.
Qed.

Lemma file_size_bound s fl id f : wf s fl → files_by_id s !! id = Some f → 0 ≤ fm_size (f_meta f) ≤ 2 ^ 50.
Proof.
  intros Hwf Hf. destruct (wn_size _ _ _ _ (wf_has_ns _ _ Hwf) id (strip f)) as [Hs1 Hs2]; [by rewrite lookup_fmap, Hf|].
  change (fm_size (f_meta (strip f))) with (fm_size (f_meta f)) in *.
  pose proof (size_ok_range _ Hs1 Hs2). change (2 ^ 50) with 1125899906842624. lia.
Qed.

Section read.
Context (w : world) (fl : gmap Z (gset Z)).
Local Notation s := (w_super w).
Context (Hwf : wf s fl) (Hst : __cyanfs_super_ensure_status s = ST_OK).
Context (id : Z) (f : cyanfs_file) (Hf : files_by_id s !! id = Some f).

(** One iteration: the extent found is the visible one. *)
Lemma read_lookup off :
  0 ≤ off < fm_size (f_meta f) →
  ∃ r e, __cyanfs_file_find_extent_follow s (Some id) off = Some r ∧ visible s id (off / CYANFS_EXTENT_SIZE) r ∧
    extent_of s r = Some e ∧
    match r with
    | None => ext_error e = false ∧ ext_map e = false
    | Some n => nodes s !! n = Some e ∧ ext_map e = true ∧ ext_backend e = n ∧ 0 ≤ n < 4294967296
    end.
Proof.
  intros Ho. pose proof (file_size_bound s fl id f Hwf Hf) as Hb. change (2 ^ 50) with 1125899906842624 in Hb.
  destruct (find_extent_follow_visible s id off (wf_has_ns _ _ Hwf)) as (r & Er & Hv); [eauto|lia|].
  change CYANFS_EXTENT_SIZE with 1048576. destruct r as [n|].
  - destruct (visible_node s fl _ _ _ (wf_has_ext _ _ Hwf) Hv) as (e & He & Hm & Hbk & Hr).
    pose proof (total_bound _ _ (wf_has_ext _ _ Hwf)). exists (Some n), e. split_and!; try done; lia.
  - exists None, no_extent. by split_and!.
Qed.

Lemma read_loop_spec fuel off len log :
  0 ≤ off → 0 ≤ len → off + len ≤ fm_size (f_meta f) → (Z.to_nat len ≤ fuel)%nat →
  ∃ st cs stop, read_loop log_handler (λ w, w) fuel id off len log w = Some (st, log ++ cs, w) ∧
    read_calls s id off stop cs ∧
    (st = ST_OK ∧ stop = off + len ∨ st = ST_ERR ERR_IO ∧ stop < off + len ∧ io_error s id stop).
Proof.
  revert off len log. induction fuel as [|fuel IH]; intros off len log Ho Hl Hsz Hfu.
  { assert (len = 0) as -> by lia. exists ST_OK, [], off. cbn. rewrite app_nil_r. split_and!; [done|constructor|]. left. split; [done|lia]. }
  cbn [read_loop]. destruct (Z.eqb_spec len 0) as [->|Hne].
  { exists ST_OK, [], off. rewrite app_nil_r. split_and!; [done|constructor|]. left. split; [done|lia]. }
  pose proof (file_size_bound s fl id f Hwf Hf) as Hb. change (2 ^ 50) with 1125899906842624 in Hb.
  rewrite Hst. cbn [failed].
  destruct (read_lookup off ltac:(lia)) as (r & e & Er & Hv & He & Hcase). rewrite Er. cbn [mbind option_bind].
  rewrite He. cbn [mbind option_bind].
  destruct (space_piece off len) as [Hlp Hone]; [change (2 ^ 52) with 4503599627370496; lia|lia|].
  set (l := cyanfs_map_extent_space off len) in *.
  assert (Hgo : ∀ c, read_piece s id off l c →
    ∃ st cs stop, read_loop log_handler (λ w, w) fuel id (u64 (off + l)) (u64 (len - l)) (log ++ [c]) w = Some (st, log ++ cs, w) ∧
      read_calls s id off stop cs ∧
      (st = ST_OK ∧ stop = off + len ∨ st = ST_ERR ERR_IO ∧ stop < off + len ∧ io_error s id stop)).
  { intros c Hc. rewrite !u64_small by lia.
    destruct (IH (off + l) (len - l) (log ++ [c])) as (st & cs & stop & E & Hcs & Hend); [lia..|].
    exists st, (c :: cs), stop. rewrite E, <- app_assoc. split_and!; [done|apply (rc_cons s id off l stop c cs); done || lia|].
    by replace (off + l + (len - l)) with (off + len) in Hend by lia. }
  unfold read_dispatch, log_handler at 1 2 3. cbn beta. destruct r as [n|].
  - destruct Hcase as (Hn & Hm & Hbk & Hr). rewrite Hm, Hbk. cbn [negb]. destruct (ext_error e) eqn:Ee.
    + cbn [failed]. exists (ST_ERR ERR_IO), [], off. rewrite app_nil_r. split_and!; [done|constructor|].
      right. split_and!; [done|lia|]. by exists n, e.
    + destruct (ext_pending e) eqn:Ep; cbn [failed]; apply Hgo; exists (Some n); (split; [done|]); exists e;
        (split_and!; [done|done|]); rewrite Ep; [done|].
      rewrite map_extent_offset_eq by lia. change CYANFS_EXTENT_SIZE with 1048576. change CYANFS_SUPER_BLOCK_SIZE with 8192.
      do 2 f_equal. lia.
  - destruct Hcase as [He0 Hm]. rewrite He0, Hm. cbn [negb failed]. apply Hgo. exists None. by split.
Qed.
End read.

(** C22: reading a range of a file covers exactly that range.  The handler is
    called for consecutive pieces, each inside one extent, from the start of
    the range: at the device position of the extent the file shows there (its
    own or the nearest ancestor's), for a hole as zeroes, and for an extent
    still being copied to be queued.  The read ends with OK after the last
    byte, or with an I/O error at the first extent whose copy failed; it
    always terminates, and a range outside the file is refused. *)
Theorem read_covers_range w fl id f off len :
  let s := w_super w in wf s fl → __cyanfs_super_ensure_status s = ST_OK → files_by_id s !! id = Some f → 0 ≤ off → 0 ≤ len →
  if decide (0 < len ∧ off + len ≤ fm_size (f_meta f)) then
    ∃ st cs stop, cyanfs_read log_handler (λ w, w) id [] off len w = Some (st, cs, w) ∧ read_calls s id off stop cs ∧
      (st = ST_OK ∧ stop = off + len ∨ st = ST_ERR ERR_IO ∧ stop < off + len ∧ io_error s id stop)
  else cyanfs_read log_handler (λ w, w) id [] off len w = Some (ST_ERR ERR_INVAL, [], w).
Proof.
  intros s Hwf Hst Hf Ho Hl. unfold s in *. unfold cyanfs_read, range_invalid. rewrite Hf. cbn [mbind option_bind]. case_decide as Hd.
  - destruct (Z.eqb_spec len 0); [lia|]. destruct (Z.ltb_spec (fm_size (f_meta f)) off); [lia|].
    destruct (Z.ltb_spec (fm_size (f_meta f) - off) len); [lia|]. cbn [orb].
    apply (read_loop_spec w fl Hwf Hst id f Hf); lia.
  - destruct (Z.eqb_spec len 0); [done|]. destruct (Z.ltb_spec (fm_size (f_meta f)) off); [done|].
    destruct (Z.ltb_spec (fm_size (f_meta f) - off) len); [done|]. lia.
Qed.

(** The snapshot of the example journal, read from 4096 to its end: its first
    extent is its parent's, the second is a hole. *)
Definition ex_ready : cyanfs_super := add_flag CYANFS_SUPER_FLAG_READY ex_loaded.

Definition ex_ready_world : world := mk_world ex_ready ∅ 0 None None [].

Lemma ex_ready_wf : wf ex_ready ∅.
Proof.
  apply wf_flags, (rp_wf _ (replay_all_replaying ex_journal _ ST_OK ex_loaded (init_super_replaying _ _ _ ex_size_ok) ex_journal_ok ex_loaded_eq)).
Qed.

Lemma ex_ready_handles : handles_ok ∅ (ex_ready, []).
Proof.
  split; cbn [fst snd]; [apply ex_ready_wf| |set_solver]. intros id f Hf.
  assert (H : map_Forall (λ _ v, v = (CYANFS_FILE_CLOSED, 0)) (handle_view <$> files_by_id ex_ready))
    by (apply (bool_decide_unpack _); vm_compute; reflexivity).
  assert (Hl : (handle_view <$> files_by_id ex_ready) !! id = Some (handle_view f)) by (by rewrite lookup_fmap, Hf).
  by rewrite (H id _ Hl).
Qed.

Lemma read_covers_range_witness :
  ∃ f st cs stop, files_by_id ex_ready !! 2 = Some f ∧
    cyanfs_read log_handler (λ w, w) 2 [] 4096 1568768 ex_ready_world = Some (st, cs, ex_ready_world) ∧ read_calls ex_ready 2 4096 stop cs.
Proof.
  destruct (files_by_id ex_ready !! 2) as [f|] eqn:Hf; [|vm_compute in Hf; discriminate Hf].
  pose proof (read_covers_range ex_ready_world ∅ 2 f 4096 1568768 ex_ready_wf ltac:(vm_compute; reflexivity) Hf
    ltac:(lia) ltac:(lia)) as H.
  assert (Hs : fm_size (f_meta f) = 1572864).
  { assert (E : (λ f, fm_size (f_meta f)) <$> files_by_id ex_ready !! 2 = Some 1572864) by (vm_compute; reflexivity).
    rewrite Hf in E. by injection E. }
  rewrite decide_True in H by (rewrite Hs; lia). destruct H as (st & cs & stop & H1 & H2 & _).
  exists f, st, cs, stop. split; [reflexivity|]. split; [exact H1|exact H2].
Defined.

Example read_example :
  fst <$> cyanfs_read log_handler (λ w, w) 2 [] 4096 1568768 ex_ready_world =
  Some (ST_OK, [(CYANFS_MAP_SUBMIT, 8192 + 2 * 1048576 + 4096, 1044480); (CYANFS_MAP_NOP, 0, 524288)]).
Proof. vm_compute. reflexivity. Qed.
