(* ===== verification/SeekSpec.v ===== *)
(** * SeekSpec: looking for data

    [cyanfs_seek_data] finds the first offset, from the one given on, where
    the file shows an extent, its own or an ancestor's. *)
From Stdlib Require Import ZArith Lia.
From S2P Require Import Prelude Base Journal Spec Types Super SuperInv SuperOps Replay World JournalIO Discard Compact Flusher Api ApiSpec Handles ReadWrite ReadSpec.

(** The file shows an extent at index [i]. *)
Definition shows (s : cyanfs_super) (id i : Z) : Prop := ∃ n, visible s id i (Some n).

(** [r] is the least index from [key] on with [P], or the invalid id when
    there is none. *)
Definition least (key : Z) (P : Z → Prop) (r : Z) : Prop :=
  (r = cyanfs_extent_id_invalid ∧ ∀ i, key ≤ i → ¬ P i) ∨
  (key ≤ r ∧ P r ∧ ∀ i, key ≤ i < r → ¬ P i).

Lemma least_ext key (P Q : Z → Prop) r : (∀ i, key ≤ i → P i ↔ Q i) → least key P r → least key Q r.
Proof.
  intros H [[-> Hn]|(Hk & Hp & Hl)].
  - left. split; [done|]. intros i Hi HQ. by apply (Hn i), H.
  - right. split_and!; [done|by apply H|]. intros i Hi HQ. apply (Hl i Hi), H; [lia|done].
Qed.

(** The least of two sets of indices. *)
Lemma least_or key (P Q : Z → Prop) a b :
  (∀ i, key ≤ i → P i ∨ Q i → i < cyanfs_extent_id_invalid) → least key P a → least key Q b →
  least key (λ i, P i ∨ Q i) (if (negb (b =? cyanfs_extent_id_invalid)) && ((a =? cyanfs_extent_id_invalid) || (b <? a)) then b else a).
Proof.
  intros Hr Ha Hb. destruct (Z.eqb_spec b cyanfs_extent_id_invalid) as [Eb|Eb]; cbn [negb andb].
  - destruct Hb as [[_ Hb]|(Hk & Hq & _)]; [|pose proof (Hr b Hk (or_intror Hq)); lia].
    apply (least_ext key P); [|done]. intros i Hi. split; [by left|]. intros [?|?]; [done|]. by destruct (Hb i Hi).
  - destruct Hb as [[Hx _]|(Hkb & Hqb & Hlb)]; [done|]. destruct (Z.eqb_spec a cyanfs_extent_id_invalid) as [Ea|Ea]; cbn [orb].
    + destruct Ha as [[_ Ha]|(Hk & Hp & _)]; [|pose proof (Hr a Hk (or_introl Hp)); lia].
      right. split_and!; [done|by right|]. intros i Hi [?|?]; [by destruct (Ha i ltac:(lia))|by destruct (Hlb i Hi)].
    + destruct Ha as [[Hx _]|(Hka & Hpa & Hla)]; [done|]. right. destruct (Z.ltb_spec b a) as [Hlt|Hge].
      * split_and!; [done|by right|]. intros i Hi [?|?]; [by destruct (Hla i ltac:(lia))|by destruct (Hlb i Hi)].
      * split_and!; [done|by left|]. intros i Hi [?|?]; [by destruct (Hla i Hi)|by destruct (Hlb i ltac:(lia))].
Qed.

(** The indices of the file's own extents. *)
Lemma file_nfind_spec f k :
  match file_nfind f k with
  | Some (i, n) => k ≤ i ∧ f_extents f !! i = Some n ∧ ∀ j, k ≤ j < i → f_extents f !! j = None
  | None => ∀ j, k ≤ j → f_extents f !! j = None
  end.
Proof.
  unfold file_nfind. destruct (set_nfind (dom (f_extents f)) k) as [i|] eqn:E; cbn [mbind option_bind].
  - apply set_nfind_Some in E as (Hi & Hk & Hl). apply elem_of_dom in Hi as [n Hn]. rewrite Hn. cbn [mbind option_bind].
    split_and!; [done|done|]. intros j Hj. apply eq_None_not_Some. intros Hs%elem_of_dom. specialize (Hl j Hs ltac:(lia)). lia.
  - intros j Hj. rewrite set_nfind_None in E. apply eq_None_not_Some. intros Hs%elem_of_dom. specialize (E j Hs). lia.
Qed.

Section seek.
Context (s : cyanfs_super) (fl : gmap Z (gset Z)) (Hwf : wf s fl).

(** One level of the ancestry. *)
Lemma shows_step id f i :
  files_by_id s !! id = Some f →
  shows s id i ↔ 1048576 * i < fm_size (f_meta f) ∧
    (is_Some (f_extents f !! i) ∨ f_extents f !! i = None ∧ ∃ p, f_parent f = Some p ∧ shows s p i).
Proof using.
  intros Hf. split.
  - intros [n Hv]. inversion Hv; simplify_eq/=; (split; [done|]).
    + left. eauto.
    + right. split; [done|]. eexists. split; [done|]. by exists n.
  - intros [Hlt [[n Hn]|(Hn & p & Hp & m & Hv)]].
    + exists n. by apply (vis_own s id f).
    + exists m. by apply (vis_inherited s id f p).
Qed.

(** The indices found at one level, up to [vs]. *)
Definition own_below (f : cyanfs_file) (vs i : Z) : Prop := is_Some (f_extents f !! i) ∧ 1048576 * i < vs.

Lemma index_small id f i n : files_by_id s !! id = Some f → f_extents f !! i = Some n → 0 ≤ i ≤ 1073741823.
Proof using Hwf. intros. by eapply (index_of_file s fl id f i n (wf_has_ext _ _ Hwf)). Qed.

Lemma level_least id f key vs :
  files_by_id s !! id = Some f →
  least key (own_below f vs)
    match file_nfind f key with
    | None => cyanfs_extent_id_invalid
    | Some (i, _) => if cyanfs_extent_begin i <? vs then i else cyanfs_extent_id_invalid
    end.
Proof using Hwf.
  intros Hf. pose proof (file_nfind_spec f key) as H. destruct (file_nfind f key) as [[i n]|].
  - destruct H as (Hk & Hn & Hl). pose proof (index_small id f i n Hf Hn). rewrite extent_begin_eq by lia.
    destruct (Z.ltb_spec (1048576 * i) vs) as [Hlt|Hge].
    + right. split_and!; [done|split; [eauto|done]|]. intros j Hj [[m Hm] _]. rewrite (Hl j Hj) in Hm. done.
    + left. split; [done|]. intros j Hj [[m Hm] Hlt]. destruct (decide (j < i)) as [Hji|]; [|lia].
      rewrite (Hl j ltac:(lia)) in Hm. done.
  - left. split; [done|]. intros j Hj [[m Hm] _]. rewrite (H j Hj) in Hm. done.
Qed.

(** What a level with the levels above it shows, up to [vs]. *)
Definition shown_below (anc : option Z) (vs i : Z) : Prop :=
  match anc with Some a => shows s a i ∧ 1048576 * i < vs | None => False end.

Lemma shown_below_step a f vs i :
  files_by_id s !! a = Some f →
  let vs' := if fm_size (f_meta f) <? vs then fm_size (f_meta f) else vs in
  shown_below (Some a) vs i ↔ own_below f vs' i ∨ shown_below (f_parent f) vs' i ∧ 1048576 * i < vs'.
Proof using.
  intros Hf vs'. assert (Hvs : 1048576 * i < vs' ↔ 1048576 * i < fm_size (f_meta f) ∧ 1048576 * i < vs).
  { unfold vs'. destruct (Z.ltb_spec (fm_size (f_meta f)) vs); lia. }
  unfold shown_below at 1. rewrite (shows_step a f i Hf). unfold own_below. rewrite Hvs. split.
  - intros [[H1 [Ho|(Hn & p & Hp & Hsp)]] H2]; [by left|right]. rewrite Hp. simpl. rewrite Hvs. done.
  - intros [[Ho [H1 H2]]|[Hsb [H1 H2]]]; [by split; [split; [|left]|]|]. split; [|done]. split; [done|].
    destruct (f_parent f) as [p|] eqn:Ep; [|done]. destruct Hsb as [Hsp _].
    destruct (f_extents f !! i) as [n|] eqn:En; [left; eauto|right]. split; [done|]. by exists p.
Qed.

Lemma shows_small id i : shows s id i → i < cyanfs_extent_id_invalid.
Proof using Hwf.
  intros [n Hv]. remember (Some n) as r eqn:Er. revert Er.
  induction Hv as [id f i m Hf Hlt Hm|id f p i r Hf Hlt Hi Hp Hv IH|id f i Hf|id f i Hf]; intros [= ->]; [|by apply IH].
  pose proof (index_small id f i n Hf Hm). change cyanfs_extent_id_invalid with 4294967295. lia.
Qed.

(** The loop over the ancestry adds what the levels from [anc] on show. *)
Lemma seek_loop_least fuel key P : 0 ≤ key < 4294967296 → ∀ anc vs first,
  match anc with Some a => is_Some (files_by_id s !! a) ∧ (size (below s a) ≤ fuel)%nat | None => True end →
  (∀ i, P i → i < cyanfs_extent_id_invalid) → least key P first →
  ∃ r, seek_loop (S fuel) s anc key vs first = Some r ∧ least key (λ i, P i ∨ shown_below anc vs i) r.
Proof using Hwf.
  intros Hkey. revert P. induction fuel as [|fuel IH]; intros P anc vs first Hanc HP Hfirst.
  all: destruct anc as [a|]; [|exists first; split; [done|]; eapply (least_ext key P); [|done]; intros i _; simpl; tauto].
  - destruct Hanc as [Hs Hf]. assert (a ∈ below s a) as Hin by (apply elem_of_filter; split; [lia|]; by apply elem_of_dom).
    apply non_empty_inhabited, size_non_empty_iff in Hin. lia.
  - destruct Hanc as [[f Hf] Hfu]. remember (S fuel) as k eqn:Ek. cbn [seek_loop]. rewrite Hf. cbn [mbind option_bind].
    set (vs' := if fm_size (f_meta f) <? vs then fm_size (f_meta f) else vs).
    assert (Hst : ∀ i, shown_below (Some a) vs i ↔ own_below f vs' i ∨ shown_below (f_parent f) vs' i ∧ 1048576 * i < vs')
      by (intros i; by apply shown_below_step).
    rewrite extent_begin_eq by done. destruct (Z.leb_spec vs' (1048576 * key)) as [Hstop|Hgo].
    + exists first. split; [done|]. apply (least_ext key P); [|done]. intros i Hi. split; [by left|].
      intros [?|H]; [done|]. apply Hst in H as [[_ ?]|[_ ?]]; lia.
    + set (P' := λ i, P i ∨ own_below f vs' i).
      assert (HP' : ∀ i, P' i → i < cyanfs_extent_id_invalid).
      { intros i [?|[[m Hm] Hlt]]; [by apply HP|]. pose proof (index_small a f i m Hf Hm). change cyanfs_extent_id_invalid with 4294967295. lia. }
      set (first' := match file_nfind f key with Some _ => _ | None => _ end).
      assert (Hf' : least key P' first').
      { pose proof (least_or key P (own_below f vs') first _ (λ i _, HP' i) Hfirst (level_least a f key vs' Hf)) as H.
        revert H. subst first'. pose proof (file_nfind_spec f key) as Hnf. destruct (file_nfind f key) as [[i n]|]; [|by rewrite Z.eqb_refl].
        destruct Hnf as (_ & Hn & _). pose proof (index_small a f i n Hf Hn).
        destruct (cyanfs_extent_begin i <? vs'); cbn [andb]; [|by rewrite Z.eqb_refl].
        destruct (Z.eqb_spec i cyanfs_extent_id_invalid) as [->|_]; [change cyanfs_extent_id_invalid with 4294967295 in *; lia|]. done. }
      destruct (IH P' (f_parent f) vs' first') as (r & E & Hr); [|done|done|].
      { destruct (f_parent f) as [p|] eqn:Ep; [|done]. destruct (below_parent s a f p (wf_has_ns _ _ Hwf) Hf Ep). split; [done|lia]. }
      exists r. split; [exact E|]. refine (least_ext key _ _ _ _ Hr). intros i _. rewrite Hst. unfold P'.
      assert (Hb : shown_below (f_parent f) vs' i → 1048576 * i < vs') by (destruct (f_parent f); [by intros [_ ?]|done]). tauto.
Qed.
End seek.

(** C23: seeking data.  For a file open for reading and an offset inside it,
    [cyanfs_seek_data] terminates and answers with the first offset from the
    one given on where the file shows an extent, its own or that of an
    ancestor; with NOENT exactly when it shows none from there on; and with an
    I/O error when the first extent failed to be copied. *)
Theorem seek_data_first s fl id f off :
  wf s fl → __cyanfs_super_ensure_status s = ST_OK → files_by_id s !! id = Some f →
  f_open_type f = CYANFS_FILE_READONLY → 0 ≤ off < fm_size (f_meta f) →
  let key := off / CYANFS_EXTENT_SIZE in
  ∃ st off', cyanfs_seek_data id off s = Some (st, off') ∧
    ((st = ST_ERR ERR_NOENT ∧ ∀ i, key ≤ i → ¬ shows s id i) ∨
     ∃ i n e, key ≤ i ∧ visible s id i (Some n) ∧ nodes s !! n = Some e ∧ (∀ j, key ≤ j < i → ¬ shows s id j) ∧
       (if ext_error e then st = ST_ERR ERR_IO ∧ off' = off
        else st = ST_OK ∧ off' = Z.max off (CYANFS_EXTENT_SIZE * i))).
Proof.
  intros Hwf Hst Hf Hro Hoff key. change CYANFS_EXTENT_SIZE with 1048576 in *.
  pose proof (file_size_bound s fl id f Hwf Hf) as Hb. change (2 ^ 50) with 1125899906842624 in Hb.
  pose proof (extent_index off ltac:(lia)) as Hix. fold key in Hix.
  unfold cyanfs_seek_data. rewrite Hf. cbn [mbind option_bind]. rewrite bool_decide_true by done. cbn [negb].
  destruct (Z.leb_spec (fm_size (f_meta f)) off); [lia|]. rewrite Hst. cbn [failed].
  rewrite extent_from_eq, bf30_small by lia. fold key.
  destruct (seek_loop_least s fl Hwf (size (files_by_id s)) key (λ _, False) ltac:(lia) (Some id) (fm_size (f_meta f)) cyanfs_extent_id_invalid)
    as (r & -> & Hr); [|by intros i []|left; split; [done|by intros i _ []]|].
  { split; [eauto|]. rewrite <- (size_dom (D := gset Z) (files_by_id s)). apply subseteq_size. intros j Hj.
    unfold below in Hj. by apply elem_of_filter in Hj as [_ Hj]. }
  assert (Hl : least key (shows s id) r).
  { refine (least_ext key _ _ _ _ Hr). intros i _. simpl. split; [by intros [?|[? _]]|]. intros Hs. right. split; [done|].
    by apply (shows_step s id f i Hf) in Hs as [? _]. }
  cbn [mbind option_bind]. destruct (Z.eqb_spec r cyanfs_extent_id_invalid) as [Er|Er].
  - eexists _, _. split; [done|]. left. split; [done|]. destruct Hl as [[_ Hl]|(_ & Hs & _)]; [done|].
    pose proof (shows_small s fl Hwf id r Hs). lia.
  - destruct Hl as [[? _]|(Hk & [n Hv] & Hlow)]; [done|].
    pose proof (shows_small s fl Hwf id r (ex_intro _ n Hv)) as Hsm. change cyanfs_extent_id_invalid with 4294967295 in Hsm.
    assert (Hlt : 1048576 * r < fm_size (f_meta f)).
    { apply (shows_step s id f r Hf). by exists n. }
    rewrite extent_begin_eq by lia.
    destruct (find_extent_follow_visible s id (1048576 * r) (wf_has_ns _ _ Hwf)) as (r' & -> & Hv'); [eauto|lia|].
    rewrite (Z.mul_comm 1048576 r), Z.div_mul in Hv' by lia. rewrite (visible_fun _ _ _ _ _ Hv' Hv). cbn [mbind option_bind].
    destruct (visible_node s fl _ _ _ (wf_has_ext _ _ Hwf) Hv) as (e & He & _). rewrite He. cbn [mbind option_bind].
    destruct (ext_error e) eqn:Ee; eexists _, _; (split; [done|]); right; exists r, n, e; rewrite Ee; split_and!; try done.
    destruct (Z.ltb_spec off (1048576 * r)); lia.
Qed.

(** The snapshot of the example, open for reading: it shows its parent's
    extent at the start, and nothing from the second megabyte on. *)
Definition ex_reading : cyanfs_super := (cyanfs_open 2 false ex_ready).2.

Example seek_example :
  cyanfs_seek_data 2 4096 ex_reading = Some (ST_OK, 4096) ∧ cyanfs_seek_data 2 1048576 ex_reading = Some (ST_ERR ERR_NOENT, 1048576).
Proof. vm_compute. done. Qed.

Lemma seek_data_first_witness :
  ∃ st off', cyanfs_seek_data 2 4096 ex_reading = Some (st, off') ∧ st = ST_OK.
Proof.
  assert (Hok : handles_ok ∅ (ex_ready, [])) by apply ex_ready_handles.
  destruct (cyanfs_open 2 false ex_ready) as [st s'] eqn:E.
  assert (Hs' : ex_reading = s') by (unfold ex_reading; by rewrite E).
  assert (Hst : (cyanfs_open 2 false ex_ready).1 = ST_OK) by (vm_compute; reflexivity). rewrite E in Hst. cbn [fst] in Hst.
  destruct (open_step_ok ∅ ex_ready [] 2 false st s' Hok E) as [[Hne _]|[_ Hok']]; [by destruct Hne|]. rewrite <- Hs' in Hok'.
  assert (Hv : (λ f, (f_open_type f, fm_size (f_meta f))) <$> files_by_id ex_reading !! 2 = Some (CYANFS_FILE_READONLY, 1572864))
    by (vm_compute; reflexivity).
  destruct (files_by_id ex_reading !! 2) as [f|] eqn:Hf; [|discriminate Hv]. injection Hv as Ho Hsz.
  destruct (seek_data_first ex_reading ∅ 2 f 4096 (ho_wf _ _ Hok') ltac:(vm_compute; reflexivity) Hf Ho ltac:(rewrite Hsz; lia))
    as (st1 & off' & E1 & _).
  exists st1, off'. split; [exact E1|]. rewrite (proj1 seek_example) in E1. by injection E1.
Defined.
