(* ===== verification/WriteSpec.v ===== *)
(** * WriteSpec: writing, copying and discarding

    A write goes to an extent of the file itself, never to one that a
    snapshot shares: the first write to a hole binds a free extent, and the
    first write over an ancestor's extent binds a free extent that is pending
    until the ancestor's contents are copied into it.  What is journalled is
    the binding, once the extent holds the right contents; the journalled
    state ([ApiSpec.jview]) changes by exactly the meaning of the entry. *)
From Stdlib Require Import ZArith Lia.
From S2P Require Import Prelude Base Journal Spec CompactSpec Types Super SuperInv SuperOps Replay World JournalIO Discard Compact Flusher FlusherSpec Api ApiSpec Handles ReadWrite ReadSpec.

(** ** The journalled state after a binding *)
Definition a_bind (id n i : Z) (g : afile) (a : astate) : astate :=
  a_set_files (<[id := mk_afile (a_name g) (a_parent g) (a_size g) (<[i := n]> (a_extents g))]> (a_files a)) a.

(** From [s] to [s'], file [id] got extent [n] at index [i]; the nodes of the
    other extents of files are the same. *)
Record bound (s s' : cyanfs_super) (id n i : Z) (f : cyanfs_file) : Prop := {
  bd_file : files_by_id s !! id = Some f;
  bd_hole : f_extents f !! i = None;
  bd_files : files_by_id s' = <[id := with_extents (<[i := n]> (f_extents f)) f]> (files_by_id s);
  bd_nodes : ∀ j g k c, files_by_id s !! j = Some g → f_extents g !! k = Some c → nodes s' !! c = nodes s !! c;
  bd_total : sm_total_extents (s_meta s') = sm_total_extents (s_meta s);
  bd_max : max_file_id s' = max_file_id s }.

Lemma jfile_frame s s' f :
  (∀ k c, f_extents f !! k = Some c → nodes s' !! c = nodes s !! c) → jfile s' f = jfile s f.
Proof.
  intros Hn. unfold jfile. f_equal. apply map_filter_ext. intros k c Hk. simpl. unfold journaled. by rewrite (Hn k c Hk).
Qed.

Lemma jview_bound s s' id n i f :
  bound s s' id n i f → jview s' = if journaled s' n then a_bind id n i (jfile s f) (jview s) else jview s.
Proof.
  intros [Hf Hh Hf' Hn Ht Hm].
  assert (Hjf : jfile s' (with_extents (<[i := n]> (f_extents f)) f) =
    mk_afile (fm_name (f_meta f)) (f_parent f) (fm_size (f_meta f))
      (if journaled s' n then <[i := n]> (a_extents (jfile s f)) else a_extents (jfile s f))).
  { unfold jfile at 1. cbn [with_extents f_extents set_f_extents upd_fmeta set_f_meta f_meta set_fm_extents fm_name fm_size f_parent].
    rewrite map_filter_insert. cbn [snd].
    assert (Hfl : filter (λ p : Z * Z, journaled s' p.2 = true) (f_extents f) = a_extents (jfile s f)).
    { rewrite <- (jfile_frame s s' f); [done|]. intros k c Hk. by apply (Hn id f k c). }
    rewrite delete_id by done. rewrite Hfl. destruct (journaled s' n); [by rewrite decide_True|by rewrite decide_False]. }
  assert (Hfs : a_files (jview s') = <[id := jfile s' (with_extents (<[i := n]> (f_extents f)) f)]> (a_files (jview s))).
  { apply map_eq. intros j. rewrite jview_file, Hf'. destruct (decide (j = id)) as [->|Hne].
    - by rewrite !lookup_insert_eq.
    - rewrite !lookup_insert_ne, jview_file by done. destruct (files_by_id s !! j) as [g|] eqn:Hg; [|done]. simpl.
      f_equal. apply jfile_frame. intros k c Hk. by apply (Hn j g k c). }
  unfold jview, a_bind, a_set_files in *. cbn [a_files a_total a_max a_journal] in *. rewrite Hfs, Hjf, Ht, Hm.
  destruct (journaled s' n); [done|]. f_equal. apply insert_id. rewrite lookup_fmap, Hf. done.
Qed.

(** The meaning of the entry of a binding, when the extent is not journalled
    yet. *)
Lemma bind_meaning s fl id n i f :
  wf s fl → files_by_id s !! id = Some f → a_extents (jfile s f) !! i = None →
  0 ≤ i ≤ CYANFS_EXTENT_INDEX_MAX → CYANFS_EXTENT_SIZE * i < fm_size (f_meta f) →
  0 ≤ n < sm_total_extents (s_meta s) → (∀ j g k, files_by_id s !! j = Some g → f_extents g !! k = Some n → journaled s n = false) →
  spec_apply (J_BIND id n i) (jview s) = Some (a_bind id n i (jfile s f) (jview s)).
Proof.
  intros Hwf Hf Hh Hi Hlt Hn Hfree. unfold spec_apply. rewrite jview_file, Hf. cbn [fmap option_fmap option_map mbind option_bind].
  rewrite (proj2 (a_index_ok_spec i (a_size (jfile s f)))) by (split; [lia|done]).
  rewrite (bool_decide_true (a_extents (jfile s f) !! i = None)) by done.
  assert (a_free (jview s) n = true) as ->; [|done].
  apply bool_decide_eq_true. split_and!; [apply Hn|apply Hn|set_solver|].
  rewrite elem_of_a_used. intros (j & g & k & Hg & Hk). rewrite jview_file in Hg. apply fmap_Some in Hg as (h & Hh' & ->).
  apply map_lookup_filter_Some in Hk as [Hk Hj]. simpl in Hj. rewrite (Hfree j h k) in Hj by done. done.
Qed.

Lemma same_core_jview s s' : same_core s s' → jview s' = jview s.
Proof.
  intros [Hf _ Hm Hnd _ Hx]. unfold jview. rewrite Hf, Hm, Hx. f_equal. apply map_fmap_ext. intros j g _.
  apply jfile_frame. intros k c _. by rewrite Hnd.
Qed.

Lemma writers_core b v s : same_core s (writers_add b v s).
Proof. by destruct b. Qed.

(** ** Setting the flags of a node that a file owns *)
Lemma node_flags_wf s fl id i n f e g :
  wf s fl → files_by_id s !! id = Some f → f_extents f !! i = Some n → nodes s !! n = Some e →
  ext_backend (g e) = ext_backend e → ext_map (g e) = ext_map e → ext_file (g e) = ext_file e →
  wf (upd_node n g s) fl.
Proof.
  intros [Hwe Hwn Hwi] Hf Hi He Hb Hm Hfi. split; [|by apply Hwn|by apply Hwi].
  destruct Hwe as [Ht Hp Hn Hfr Hj Hd Hfe]. split; try done.
  assert (Ho : owns s fl (P_FILE id i) n) by (simpl; eauto).
  intros p c Hpc. change (owns s fl p c) in Hpc. destruct (Hn p c Hpc) as (e' & He' & Hok).
  rewrite (upd_node_nodes n g s e He). destruct (decide (c = n)) as [->|Hne]; [|exists e'; by rewrite lookup_insert_ne].
  exists (g e). rewrite lookup_insert_eq. split; [done|].
  assert (p = P_FILE id i) as -> by (by apply (pt_unique _ _ Hp _ _ n)).
  rewrite He in He'. injection He' as <-. destruct Hok as (? & ? & ? & ?). split; [congruence|]. split; [congruence|]. split; [congruence|done].
Qed.

Lemma free_node s fl n :
  wf_ext s fl → n ∈ free_extents s → ∃ e, nodes s !! n = Some e ∧ ext_backend e = n ∧ ext_pending e = false ∧ ext_error e = false.
Proof.
  intros Hwe Hn. destruct (we_node _ _ Hwe (P_TREE T_FREE) n Hn) as (e & He & Hb & _ & Hp & Hr). by exists e.
Qed.

(** ** Allocating in a write *)

(** Removing an extent of one tree from another changes nothing. *)
Lemma not_in_tree s fl n r r' : wf_ext s fl → n ∈ tree_get r s → r ≠ r' → tree_get r' s ∖ {[n]} = tree_get r' s.
Proof.
  intros Hwe Hn Hne. assert (n ∉ tree_get r' s); [|set_solver].
  intros Hn'. apply Hne. by injection (owns_unique _ _ Hwe (P_TREE r) (P_TREE r') n Hn Hn').
Qed.

Lemma alloc_bound s fl id f i n s' :
  wf s fl → files_by_id s !! id = Some f → n ∈ free_extents s → f_extents f !! i = None →
  files_by_id s' = <[id := with_extents (<[i := n]> (f_extents f)) f]> (files_by_id s) →
  (∀ c, c ≠ n → nodes s' !! c = nodes s !! c) →
  sm_total_extents (s_meta s') = sm_total_extents (s_meta s) → max_file_id s' = max_file_id s →
  bound s s' id n i f.
Proof.
  intros Hwf Hf Hn Hh Hfs Hns Ht Hm. split; try done. intros j g k c Hg Hk. apply Hns. intros ->.
  pose proof (wf_has_ext _ _ Hwf) as Hwe. assert (Ho : owns s fl (P_FILE j k) n) by (simpl; eauto).
  by pose proof (owns_unique _ _ Hwe (P_TREE T_FREE) (P_FILE j k) n Hn Ho).
Qed.

(** The copy of extent [p] into extent [n]. *)
Definition copy_task (p n id i : Z) : cyanfs_task :=
  mk_task (CYANFS_TASK_COPY (cyanfs_map_extent_offset p 0) (cyanfs_map_extent_offset n 0) CYANFS_EXTENT_SIZE)
    (cyanfs_task_copy_on_write_done (mk_entry true (J_BIND id n i)) n).

(** What is queued and journalled, from [s] to [s']. *)
Definition write_kind (id i n : Z) (parent : option Z) (s : cyanfs_super) (e : cyanfs_extent) (s' : cyanfs_super) : Prop :=
  match parent with
  | None =>
      ext_pending e = false ∧ task_head s' = task_head s ∧
      journal_head s' = journal_head s ++ [mk_entry false (J_BIND id n i)] ∧
      spec_apply (J_BIND id n i) (jview s) = Some (jview s')
  | Some p =>
      ext_pending e = true ∧ journal_head s' = journal_head s ∧ jview s' = jview s ∧
      task_head s' = task_head s ++ [copy_task p n id i]
  end.

(** What allocating extent [n] for a write did: from [s] to the
    outcome [o], with the contents of [parent] to copy first, if any. *)
Record write_bound (fl : gmap Z (gset Z)) (id i n : Z) (f : cyanfs_file) (parent : option Z) (s : cyanfs_super) (o : write_outcome) : Prop := {
  wb_err : wo_err o = ST_OK;
  wb_wf : wf (w_super (wo_world o)) fl;
  wb_free : n ∈ free_extents s;
  wb_hole : f_extents f !! i = None;
  wb_files : files_by_id (w_super (wo_world o)) =
    <[id := with_extents (<[i := n]> (f_extents f)) f]> (files_by_id s);
  wb_node : nodes (w_super (wo_world o)) !! n = Some (wo_extent o);
  wb_extent : ext_backend (wo_extent o) = n ∧ ext_map (wo_extent o) = true ∧ ext_error (wo_extent o) = false;
  wb_trees : ∀ r, r ≠ T_FREE → tree_get r (w_super (wo_world o)) = tree_get r s;
  wb_total : sm_total_extents (s_meta (w_super (wo_world o))) = sm_total_extents (s_meta s);
  wb_flags : flags (w_super (wo_world o)) = flags s ∧ active_tasks (w_super (wo_world o)) = active_tasks s;
  wb_kind : write_kind id i n parent s (wo_extent o) (w_super (wo_world o)) }.

(** The extent [n] was taken from the free ones and mapped at index [i]. *)
Record allocated (fl : gmap Z (gset Z)) (id i n : Z) (e : cyanfs_extent) (f : cyanfs_file) (s s1 : cyanfs_super) : Prop := {
  al_before : wf s fl;
  al_file : files_by_id s !! id = Some f;
  al_hole : f_extents f !! i = None;
  al_index : 0 ≤ i ≤ CYANFS_EXTENT_INDEX_MAX ∧ CYANFS_EXTENT_SIZE * i < fm_size (f_meta f);
  al_free : n ∈ free_extents s;
  al_node : nodes s !! n = Some e ∧ ext_backend e = n ∧ ext_pending e = false ∧ ext_error e = false;
  al_wf : wf s1 fl;
  al_rest : rest s1 = rest s;
  al_files : files_by_id s1 = <[id := with_extents (<[i := n]> (f_extents f)) f]> (files_by_id s);
  al_trees : ∀ r, tree_get r s1 = tree_get r s ∖ {[n]};
  al_nodes : nodes s1 = <[n := node_map i e]> (nodes s) }.

Section allocated.
Context (fl : gmap Z (gset Z)) (id i n : Z) (e : cyanfs_extent) (f : cyanfs_file) (s s1 : cyanfs_super).
Context (Hal : allocated fl id i n e f s s1).

Lemma allocated_own :
  files_by_id s1 !! id = Some (with_extents (<[i := n]> (f_extents f)) f) ∧
  f_extents (with_extents (<[i := n]> (f_extents f)) f) !! i = Some n ∧ nodes s1 !! n = Some (node_map i e).
Proof using Hal.
  rewrite (al_files _ _ _ _ _ _ _ _ Hal), (al_nodes _ _ _ _ _ _ _ _ Hal), !lookup_insert_eq. split_and!; [done|simpl; apply lookup_insert_eq|done].
Qed.

(** The outcome of the write, from what is left to show. *)
Lemma allocated_outcome parent s2 e2 o :
  let s' := w_super (wo_world o) in
  wo_err o = ST_OK → wo_extent o = e2 → same_core s2 s' → wf s2 fl → files_by_id s2 = files_by_id s1 → nodes s2 = <[n := e2]> (nodes s1) →
  (∀ r, tree_get r s2 = tree_get r s1) → s_meta s2 = s_meta s1 → max_file_id s2 = max_file_id s1 →
  flags s' = flags s1 ∧ active_tasks s' = active_tasks s1 →
  ext_backend e2 = n ∧ ext_map e2 = true ∧ ext_error e2 = false →
  (bound s s' id n i f → nodes s' !! n = Some e2 → write_kind id i n parent s e2 s') → write_bound fl id i n f parent s o.
Proof using Hal.
  intros s' Herr Hx Hc Hwf2 Hf2 Hn2 Ht2 Hm2 Hx2 Hfl He2 Hk. destruct (rest_ns s s1 (al_rest _ _ _ _ _ _ _ _ Hal)) as (_ & Hmx & _ & _ & Htot).
  pose proof (rest_side s s1 (al_rest _ _ _ _ _ _ _ _ Hal)) as Hsd.
  assert (Hnn : nodes s' !! n = Some e2) by (rewrite (sc_nodes _ _ Hc), Hn2; apply lookup_insert_eq).
  assert (Hff : files_by_id s' = <[id := with_extents (<[i := n]> (f_extents f)) f]> (files_by_id s))
    by (rewrite (sc_files _ _ Hc), Hf2; apply Hal).
  assert (Htt : sm_total_extents (s_meta s') = sm_total_extents (s_meta s)) by (by rewrite (sc_meta _ _ Hc), Hm2).
  split; rewrite ?Hx; try done.
  - by apply (same_core_wf s2).
  - apply Hal.
  - apply Hal.
  - intros r Hr. rewrite (sc_trees _ _ Hc), Ht2, (al_trees _ _ _ _ _ _ _ _ Hal).
    apply (not_in_tree s fl n T_FREE r (wf_has_ext _ _ (al_before _ _ _ _ _ _ _ _ Hal))); [apply Hal|congruence].
  - destruct Hfl as [Hfl1 Hfl2]. unfold side in Hsd. injection Hsd. intros. fold s'. split; congruence.
  - apply Hk; [|done]. apply (alloc_bound s fl); try done; try apply Hal.
    + intros c Hcn. by rewrite (sc_nodes _ _ Hc), Hn2, (al_nodes _ _ _ _ _ _ _ _ Hal), !lookup_insert_ne.
    + by rewrite (sc_max _ _ Hc), Hx2.
Qed.

(** Over an extent of an ancestor: the copy is queued. *)
Lemma allocated_copy p w :
  w_super w = cyanfs_super_task_add_tail (copy_task p n id i) (upd_node n (set_ext_pending true) s1) →
  ∃ o, write_mapped n false w = Some o ∧ write_bound fl id i n f (Some p) s o.
Proof using Hal.
  intros Hw. destruct allocated_own as (Hf1 & Hi1 & Hn1). destruct (al_node _ _ _ _ _ _ _ _ Hal) as (He & Hbk & Hp & Her).
  set (s2 := upd_node n (set_ext_pending true) s1) in *. set (e2 := set_ext_pending true (node_map i e)).
  assert (Hn2 : nodes s2 = <[n := e2]> (nodes s1)) by (by apply upd_node_nodes).
  assert (Hwf2 : wf s2 fl) by (by eapply (node_flags_wf s1 fl id i n); [apply Hal|..]).
  unfold write_mapped. set (cur := writer_current_id _). set (w' := upd_super (writers_add cur 1) w).
  assert (Hc : same_core s2 (w_super w')).
  { cbn. rewrite Hw. etransitivity; [apply (task_tail_core (copy_task p n id i))|apply writers_core]. }
  assert (Hnn : nodes (w_super w') !! n = Some e2) by (rewrite (sc_nodes _ _ Hc), Hn2; apply lookup_insert_eq).
  rewrite Hnn. cbn [mbind option_bind]. eexists. split; [done|].
  pose proof (rest_side s s1 (al_rest _ _ _ _ _ _ _ _ Hal)) as Hsd. unfold side in Hsd. injection Hsd. intros.
  apply (allocated_outcome _ s2 e2); cbn [wo_err wo_extent wo_world]; try done.
  - cbn. rewrite Hw. by destruct cur.
  - intros Hbd Hn'. split_and!; [done| | |]; cbn [wo_world].
    + cbn. rewrite Hw. destruct cur; cbn; congruence.
    + rewrite (jview_bound _ _ _ _ _ _ Hbd). unfold journaled. by rewrite Hn'.
    + cbn. rewrite Hw. destruct cur; cbn; congruence.
Qed.

(** Over a hole: the binding is journalled. *)
Lemma allocated_fresh w :
  w_super w = __cyanfs_super_journal_append (mk_entry false (J_BIND id n i)) s1 →
  ∃ o, write_mapped n true w = Some o ∧ write_bound fl id i n f None s o.
Proof using Hal.
  intros Hw. destruct allocated_own as (Hf1 & Hi1 & Hn1). destruct (al_node _ _ _ _ _ _ _ _ Hal) as (He & Hbk & Hp & Her).
  pose proof (al_before _ _ _ _ _ _ _ _ Hal) as Hwf. pose proof (al_free _ _ _ _ _ _ _ _ Hal) as Hn.
  unfold write_mapped. set (cur := writer_current_id _). set (w' := upd_super (writers_add cur 1) w).
  assert (Hc : same_core s1 (w_super w')).
  { cbn. rewrite Hw. etransitivity; [apply (append_core (mk_entry false (J_BIND id n i)))|apply writers_core]. }
  assert (Hnn : nodes (w_super w') !! n = Some (node_map i e)) by (by rewrite (sc_nodes _ _ Hc)).
  rewrite Hnn. cbn [mbind option_bind]. eexists. split; [done|].
  pose proof (rest_side s s1 (al_rest _ _ _ _ _ _ _ _ Hal)) as Hsd. unfold side in Hsd. injection Hsd. intros.
  apply (allocated_outcome _ s1 (node_map i e)); cbn [wo_err wo_extent wo_world]; try done; [apply Hal|by rewrite insert_id|cbn; rewrite Hw; by destruct cur|].
  intros Hbd Hn'. split_and!; [done| | |]; cbn [wo_world].
  - cbn. rewrite Hw. destruct cur; cbn; congruence.
  - cbn. rewrite Hw. destruct cur; cbn; congruence.
  - rewrite (jview_bound _ _ _ _ _ _ Hbd). unfold journaled at 1. rewrite Hn'. cbn [node_map ext_pending ext_error set_ext_map set_ext_file].
    rewrite Hp, Her. cbn [negb orb]. apply (bind_meaning s fl); try done; try apply Hal.
    + unfold jfile. cbn [a_extents]. apply map_lookup_filter_None. left. apply Hal.
    + by apply (owns_range _ _ (wf_has_ext _ _ Hwf) (P_TREE T_FREE)).
    + intros k g m Hg Hm. assert (Hoo : owns s fl (P_FILE k m) n) by (simpl; eauto).
      by pose proof (owns_unique _ _ (wf_has_ext _ _ Hwf) (P_TREE T_FREE) (P_FILE k m) n Hn Hoo).
Qed.
End allocated.

Lemma write_alloc_ok fl id off f parent w :
  wf (w_super w) fl → __cyanfs_super_ensure_status (w_super w) = ST_OK →
  files_by_id (w_super w) !! id = Some f → 0 ≤ off < fm_size (f_meta f) →
  0 ≤ sm_reserved_extents (s_meta (w_super w)) → f_extents f !! (off / 1048576) = None →
  if sm_free_extents (s_meta (w_super w)) <=? sm_reserved_extents (s_meta (w_super w))
  then write_alloc id off parent w = Some (write_stop (ST_ERR ERR_NOSPACE) w)
  else ∃ n o, write_alloc id off parent w = Some o ∧ write_bound fl id (off / 1048576) n f parent (w_super w) o.
Proof.
  intros Hwf Hst Hf Ho Hres Hh. set (s := w_super w) in *. set (i := off / 1048576) in *.
  pose proof (file_size_bound s fl id f Hwf Hf) as Hb. change (2 ^ 50) with 1125899906842624 in Hb.
  pose proof (extent_index off ltac:(lia)) as Hix. fold i in Hix.
  unfold write_alloc. fold s. rewrite Hst. cbn [failed]. rewrite Hf. cbn [mbind option_bind].
  unfold __cyanfs_file_find_extent. rewrite extent_from_eq, bf30_small by lia. fold i. rewrite Hh.
  pose proof (alloc_extent_ok s fl id f off Hwf Hf Ho Hres Hh) as Ha.
  destruct (_ <=? _); [rewrite Ha; cbn; unfold s; by destruct w|].
  destruct Ha as (n & e & s1 & -> & Hwf1 & Hr1 & Hn & Hf1 & Ht1 & He & Hn1). cbn [mbind option_bind]. fold i in Hf1, Hn1.
  destruct (free_node s fl n (wf_has_ext _ _ Hwf) Hn) as (e0 & He0 & Hbk & Hp & Her). rewrite He in He0. injection He0 as <-.
  assert (Hal : allocated fl id i n e f s s1).
  { split; try done. change CYANFS_EXTENT_SIZE with 1048576. change CYANFS_EXTENT_INDEX_MAX with 1073741823.
    pose proof (Z.mul_div_le off 1048576 ltac:(lia)). unfold i in *. lia. }
  rewrite Hn1, lookup_insert_eq. cbn [mbind option_bind].
  change (ext_backend (node_map i e)) with (ext_backend e). change (ext_file (node_map i e)) with i. rewrite Hbk.
  destruct (wn_id _ _ _ _ (wf_has_ns _ _ Hwf) id (strip f)) as [Hid _]; [by rewrite lookup_fmap, Hf|].
  change (fm_id (f_meta (strip f))) with (fm_id (f_meta f)) in Hid. rewrite Hid. exists n.
  destruct parent as [p|]; [by apply (allocated_copy fl id i n e f s s1)|by apply (allocated_fresh fl id i n e f s s1)].
Qed.

(** ** Isolation *)

(** The owner of a visible extent is the file itself or has a fork. *)
Lemma visible_owner s id i n :
  visible s id i (Some n) →
  ∃ a f, files_by_id s !! a = Some f ∧ f_extents f !! i = Some n ∧
    (a = id ∨ ∃ j g, files_by_id s !! j = Some g ∧ f_parent g = Some a).
Proof.
  intros Hv. remember (Some n) as r eqn:Er. revert Er.
  induction Hv as [id f i m Hf Hlt Hm|id f p i r Hf Hlt Hi Hp Hv IH|id f i Hf|id f i Hf]; intros [= ->].
  - exists id, f. by split_and!; [..|left].
  - destruct (IH eq_refl) as (a & g & Ha & Hn & Hc). exists a, g. split_and!; try done. right.
    destruct Hc as [->|Hc]; [|done]. by exists id, f.
Qed.

Lemma no_forks s id f j g :
  wf_ns s → files_by_id s !! id = Some f → fm_children (f_meta f) = 0 → files_by_id s !! j = Some g → f_parent g ≠ Some id.
Proof.
  intros Hwn Hf H0 Hg. assert (Hl : (strip <$> files_by_id s) !! id = Some (strip f)) by (by rewrite lookup_fmap, Hf).
  pose proof (proj1 (wf_files_no_children _ _ _ _ Hwn id (strip f) Hl) H0) as Hc.
  apply (Hc j (strip g)). by rewrite lookup_fmap, Hg.
Qed.

(** No other file shows an extent of a file without forks. *)
Lemma own_hidden s fl id f i n j k :
  wf s fl → files_by_id s !! id = Some f → fm_children (f_meta f) = 0 → f_extents f !! i = Some n →
  visible s j k (Some n) → j = id.
Proof.
  intros Hwf Hf H0 Hn Hv. destruct (visible_owner s j k n Hv) as (a & g & Ha & Hk & Hc).
  assert (E : P_FILE a k = P_FILE id i) by (apply (owns_unique _ _ (wf_has_ext _ _ Hwf) _ _ n); simpl; eauto).
  injection E as -> ->. destruct Hc as [->|(c & h & Hh & Hp)]; [done|].
  by destruct (no_forks s id f c h (wf_has_ns _ _ Hwf) Hf H0 Hh).
Qed.

(** What the other files show does not depend on a file without forks. *)
Lemma visible_frame s s' id j k r :
  (∀ c g, files_by_id s !! c = Some g → f_parent g ≠ Some id) →
  (∀ c g, c ≠ id → files_by_id s !! c = Some g →
     ∃ g', files_by_id s' !! c = Some g' ∧ f_extents g' = f_extents g ∧ f_parent g' = f_parent g ∧ fm_size (f_meta g') = fm_size (f_meta g)) →
  j ≠ id → visible s j k r → visible s' j k r.
Proof.
  intros Hnf Hs Hj Hv. induction Hv as [j g k m Hg Hlt Hm|j g p k r Hg Hlt Hk Hp Hv IH|j g k Hg Hlt Hk Hp|j g k Hg Hge];
    destruct (Hs j g Hj Hg) as (g' & Hg' & Hx & Hpa & Hsz).
  - apply (vis_own s' j g'); [done|by rewrite Hsz|by rewrite Hx].
  - apply (vis_inherited s' j g' p); [done|by rewrite Hsz|by rewrite Hx|by rewrite Hpa|]. apply IH. intros ->. by apply (Hnf j g Hg).
  - apply (vis_hole s' j g'); [done|by rewrite Hsz|by rewrite Hx|by rewrite Hpa].
  - apply (vis_beyond s' j g'); [done|by rewrite Hsz].
Qed.

(** ** One iteration of a write, without interference *)
Inductive write_case (fl : gmap Z (gset Z)) (id i : Z) (f : cyanfs_file) (w : world) (o : write_outcome) : Prop :=
  | wc_refused err :
      wo_err o = ST_ERR err → wo_extent o = no_extent → w_super (wo_world o) = w_super w → write_case fl id i f w o
  | wc_own n e :
      wo_err o = ST_OK → f_extents f !! i = Some n → nodes (w_super w) !! n = Some e → wo_extent o = e →
      same_core (w_super w) (w_super (wo_world o)) → journal_head (w_super (wo_world o)) = journal_head (w_super w) →
      write_case fl id i f w o
  | wc_wait p n e :
      wo_err o = ST_OK → f_parent f = Some p → visible (w_super w) p i (Some n) → nodes (w_super w) !! n = Some e → ext_pending e = true →
      wo_extent o = e → w_super (wo_world o) = w_super w → f_extents f !! i = None → write_case fl id i f w o
  | wc_bound n r :
      match f_parent f with Some p => visible (w_super w) p i r | None => r = None end →
      write_bound fl id i n f r (w_super w) o → write_case fl id i f w o.

Section write_case.
Context (fl : gmap Z (gset Z)) (id off : Z) (f : cyanfs_file) (w : world).
Context (Hwf : wf (w_super w) fl) (Hst : __cyanfs_super_ensure_status (w_super w) = ST_OK).
Context (Hf : files_by_id (w_super w) !! id = Some f) (Hoff : 0 ≤ off < fm_size (f_meta f)).
Context (Hres : 0 ≤ sm_reserved_extents (s_meta (w_super w))).

(** The section under the write lock, after some allocations of memory. *)
Lemma write_alloc_case l r :
  f_extents f !! (off / 1048576) = None →
  match f_parent f with Some p => visible (w_super w) p (off / 1048576) r | None => r = None end →
  ∃ o, write_alloc id off r (set_w_malloc l w) = Some o ∧ write_case fl id (off / 1048576) f w o.
Proof using Hwf Hst Hf Hoff Hres.
  intros Hh Hv. pose proof (write_alloc_ok fl id off f r (set_w_malloc l w) Hwf Hst Hf Hoff Hres Hh) as H.
  change (w_super (set_w_malloc l w)) with (w_super w) in H. destruct (_ <=? _).
  - rewrite H. eexists. split; [done|]. by apply (wc_refused _ _ _ _ _ _ ERR_NOSPACE).
  - destruct H as (n & o & -> & Hb). exists o. split; [done|]. by apply (wc_bound _ _ _ _ _ _ n r).
Qed.

Lemma off_range : 0 ≤ off < 1125899906842624.
Proof using Hwf Hf Hoff. pose proof (file_size_bound (w_super w) fl id f Hwf Hf) as Hb. change (2 ^ 50) with 1125899906842624 in Hb. lia. Qed.

(** What is above the file. *)
Lemma follow_parent :
  ∃ r, __cyanfs_file_find_extent_follow (w_super w) (f_parent f) off = Some r ∧
    match f_parent f with Some p => visible (w_super w) p (off / 1048576) r | None => r = None end.
Proof using Hwf Hf Hoff.
  destruct (f_parent f) as [p|] eqn:Ep; [|by exists None]. destruct (below_parent (w_super w) id f p (wf_has_ns _ _ Hwf) Hf Ep) as [Hp _].
  apply (find_extent_follow_visible (w_super w) p off (wf_has_ns _ _ Hwf) Hp off_range).
Qed.

Lemma write_extent_case :
  ∃ o, write_extent (λ w, w) id off w = Some o ∧ write_case fl id (off / 1048576) f w o.
Proof using Hwf Hst Hf Hoff Hres.
  pose proof off_range as Hr. pose proof (extent_index off Hr) as Hix.
  unfold write_extent. rewrite Hst. cbn [failed]. rewrite Hf. cbn [mbind option_bind].
  unfold __cyanfs_file_find_extent. rewrite extent_from_eq, bf30_small by lia.
  destruct (f_extents f !! (off / 1048576)) as [n|] eqn:Hn.
  - assert (Ho : owns (w_super w) fl (P_FILE id (off / 1048576)) n) by (simpl; eauto).
    destruct (we_node _ _ (wf_has_ext _ _ Hwf) _ _ Ho) as (e & He & _). unfold write_mapped. set (cur := writer_current_id _).
    assert (Hns : nodes (w_super (upd_super (writers_add cur 1) w)) !! n = Some e) by (by destruct cur).
    rewrite Hns. cbn [mbind option_bind]. eexists. split; [done|].
    apply (wc_own _ _ _ _ _ _ n e); try done; [apply writers_core|by destruct cur].
  - destruct follow_parent as (r & -> & Hv). cbn [mbind option_bind]. destruct r as [n|].
    + destruct (f_parent f) as [p|] eqn:Ep; [|done].
      destruct (visible_node _ fl _ _ _ (wf_has_ext _ _ Hwf) Hv) as (e & He & _ & Hb & _). rewrite He. cbn [mbind option_bind].
      destruct (ext_error e) eqn:Ee; [eexists; split; [done|]; by apply (wc_refused _ _ _ _ _ _ ERR_IO)|].
      destruct (ext_pending e) eqn:Epd; [eexists; split; [done|]; by apply (wc_wait _ _ _ _ _ _ p n e)|].
      destruct (malloc_same w) as [l El]. destruct (cyanfs_malloc w) as [ok w1]. cbn [snd] in El. subst w1.
      destruct ok; cbn [negb]; [|eexists; split; [done|]; by apply (wc_refused _ _ _ _ _ _ ERR_NOMEM)].
      destruct (malloc_same (set_w_malloc l w)) as [l2 El]. destruct (cyanfs_malloc _) as [ok w1]. cbn [snd] in El. subst w1.
      destruct ok; cbn [negb]; [|eexists; split; [done|]; by apply (wc_refused _ _ _ _ _ _ ERR_NOMEM)].
      rewrite Hb. apply (write_alloc_case l2 (Some n) Hn). by rewrite Ep.
    + destruct (malloc_same w) as [l El]. destruct (cyanfs_malloc w) as [ok w1]. cbn [snd] in El. subst w1.
      destruct ok; cbn [negb]; [|eexists; split; [done|]; by apply (wc_refused _ _ _ _ _ _ ERR_NOMEM)].
      apply (write_alloc_case l None Hn). done.
Qed.
End write_case.

(** The other files of a binding. *)
Lemma bound_others s s' id n i f c g :
  files_by_id s' = <[id := with_extents (<[i := n]> (f_extents f)) f]> (files_by_id s) → c ≠ id → files_by_id s !! c = Some g →
  ∃ g', files_by_id s' !! c = Some g' ∧ f_extents g' = f_extents g ∧ f_parent g' = f_parent g ∧ fm_size (f_meta g') = fm_size (f_meta g).
Proof. intros Hf Hc Hg. exists g. by rewrite Hf, lookup_insert_ne. Qed.

Lemma same_core_others s s' c g :
  same_core s s' → files_by_id s !! c = Some g →
  ∃ g', files_by_id s' !! c = Some g' ∧ f_extents g' = f_extents g ∧ f_parent g' = f_parent g ∧ fm_size (f_meta g') = fm_size (f_meta g).
Proof. intros Hc Hg. exists g. by rewrite (sc_files _ _ Hc). Qed.

(** C4: copy on write isolates the files.  One iteration of a write to an open
    file, at any offset inside it, never aborts and keeps the invariant.  When
    it lets the caller write to an extent of the device, that extent belongs
    to the file itself at the index of the offset, and no other file (no
    snapshot, no fork) shows it anywhere; and every other file shows the same
    extents as before. *)
Theorem write_isolated fl id off f w :
  wf (w_super w) fl → __cyanfs_super_ensure_status (w_super w) = ST_OK →
  files_by_id (w_super w) !! id = Some f → f_open_type f = CYANFS_FILE_READWRITE → 0 ≤ off < fm_size (f_meta f) →
  0 ≤ sm_reserved_extents (s_meta (w_super w)) →
  ∃ o, write_extent (λ w, w) id off w = Some o ∧ wf (w_super (wo_world o)) fl ∧
    (ext_map (wo_extent o) = true → ext_error (wo_extent o) = false → ext_pending (wo_extent o) = false →
       ∃ f', files_by_id (w_super (wo_world o)) !! id = Some f' ∧
         f_extents f' !! (off / CYANFS_EXTENT_SIZE) = Some (ext_backend (wo_extent o)) ∧
         ∀ j k, j ≠ id → ¬ visible (w_super (wo_world o)) j k (Some (ext_backend (wo_extent o)))) ∧
    (∀ j k r, j ≠ id → visible (w_super w) j k r → visible (w_super (wo_world o)) j k r).
Proof.
  intros Hwf Hst Hf Hrw Hoff Hres. change CYANFS_EXTENT_SIZE with 1048576.
  assert (H0 : fm_children (f_meta f) = 0).
  { apply (wn_open _ _ _ _ (wf_has_ns _ _ Hwf) id (strip f)); [by rewrite lookup_fmap, Hf|done]. }
  assert (Hnf : ∀ c g, files_by_id (w_super w) !! c = Some g → f_parent g ≠ Some id)
    by (intros c g; by apply (no_forks (w_super w) id f c g (wf_has_ns _ _ Hwf))).
  destruct (write_extent_case fl id off f w) as (o & E & Hc); try done. exists o. split; [done|].
  destruct Hc as [err He Hx Hs|n e He Hn Hnd Hx Hc _|p n e He Hp Hv Hnd Hpd Hx Hs|n r Hv Hb].
  - rewrite Hs, Hx. by split_and!.
  - assert (Hwf' : wf (w_super (wo_world o)) fl) by (by apply (same_core_wf (w_super w))).
    assert (Ho : owns (w_super w) fl (P_FILE id (off / 1048576)) n) by (simpl; eauto).
    destruct (we_node _ _ (wf_has_ext _ _ Hwf) _ _ Ho) as (e' & He' & Hbk & _). rewrite Hnd in He'. injection He' as <-.
    split_and!; [done| |].
    + intros _ _ _. exists f. rewrite Hx, Hbk, (sc_files _ _ Hc). split_and!; try done. intros j k Hj Hvis. apply Hj.
      eapply (own_hidden _ fl id f); try done. by rewrite (sc_files _ _ Hc).
    + intros j k r Hj. apply (visible_frame _ _ id); eauto using same_core_others.
  - rewrite Hs, Hx, Hpd. by split_and!.
  - pose proof (wb_files _ _ _ _ _ _ _ _ Hb) as Hfs. destruct (wb_extent _ _ _ _ _ _ _ _ Hb) as [Hbk _].
    split_and!; [apply Hb| |].
    + intros _ _ _. eexists. rewrite Hfs, lookup_insert_eq, Hbk. split_and!; [done|simpl; apply lookup_insert_eq|].
      intros j k Hj Hvis. apply Hj. eapply (own_hidden _ fl id); [apply Hb|by rewrite Hfs, lookup_insert_eq|done| |done].
      simpl. apply lookup_insert_eq.
    + intros j k r' Hj. apply (visible_frame _ _ id); eauto using bound_others.
Qed.


(** ** Example: the snapshot of [Replay.ex_journal], open for writing *)
Definition ex_opened : cyanfs_super := (cyanfs_open 2 true ex_ready).2.
Definition ex_world : world := mk_world ex_opened ∅ 0 None None [].

Lemma ex_opened_wf : wf ex_opened ∅.
Proof.
  pose proof ex_ready_handles as Hok.
  destruct (cyanfs_open 2 true ex_ready) as [st s'] eqn:E.
  destruct (open_step_ok ∅ ex_ready [] 2 true st s' Hok E) as [[Hne _]|[_ Hok']].
  - assert (Hst : (cyanfs_open 2 true ex_ready).1 = ST_OK) by (vm_compute; reflexivity). rewrite E in Hst. by destruct Hne.
  - unfold ex_opened. rewrite E. apply Hok'.
Qed.

Lemma ex_opened_facts :
  __cyanfs_super_ensure_status ex_opened = ST_OK ∧
  (λ f, (f_open_type f, fm_size (f_meta f), f_parent f, f_extents f !! 0)) <$> files_by_id ex_opened !! 2 =
    Some (CYANFS_FILE_READWRITE, 1572864, Some 1, None) ∧
  0 <= sm_reserved_extents (s_meta ex_opened) < sm_free_extents (s_meta ex_opened).
Proof. split_and!; vm_compute; reflexivity || discriminate. Qed.

Lemma write_isolated_witness :
  ∃ o, write_extent (λ w, w) 2 4096 ex_world = Some o ∧ wf (w_super (wo_world o)) ∅.
Proof.
  destruct ex_opened_facts as (Hst & Hv & Hr). destruct (files_by_id ex_opened !! 2) as [f|] eqn:Hf; [|discriminate Hv].
  injection Hv as Ho Hs _ _.
  destruct (write_isolated ∅ 2 4096 f ex_world ex_opened_wf Hst Hf Ho) as (o & E & Hwf & _);
    [rewrite Hs; lia|cbn [ex_world w_super]; lia|].
  exists o. exact (conj E Hwf).
Defined.


(** Writing to the snapshot copies its parent's extent first. *)
Example write_example :
  (λ o, (wo_err o, ext_pending (wo_extent o), t_type <$> task_head (w_super (wo_world o)))) <$> write_extent (λ w, w) 2 4096 ex_world =
  Some (ST_OK, true, [CYANFS_TASK_COPY (8192 + 2 * 1048576) (8192 + 7 * 1048576) 1048576]).
Proof. vm_compute. reflexivity. Qed.
