(* ===== verification/CopySpec.v ===== *)
(** * CopySpec: the end of a copy, and discarding

    What happens to the journalled state when the copy behind a pending extent
    ends, and when a client discards a range of a file. *)
From Stdlib Require Import ZArith Lia.
From S2P Require Import Prelude Base Journal Spec CompactSpec Types Super SuperInv SuperOps Replay World JournalIO Discard Compact Flusher FlusherSpec Api ApiSpec Handles ReadWrite ReadSpec WriteSpec.

(** ** The end of a copy *)

(** An entry waits to be written: in the journal list or at a flusher. *)
Definition queued (w : world) (j : cyanfs_journal_entry) : Prop :=
  j ∈ journal_head (w_super w) ∨ ∃ t f, w_flushers w !! t = Some f ∧ j ∈ wr_head (fl_writer f).

Record jview_frame (s s' : cyanfs_super) : Prop := {
  jf_files : files_by_id s' = files_by_id s; jf_nodes : nodes s' = nodes s;
  jf_meta : s_meta s' = s_meta s; jf_max : max_file_id s' = max_file_id s }.

Lemma jview_framed s s' : jview_frame s s' → jview s' = jview s.
Proof.
  intros [Hf Hn Hm Hx]. unfold jview. rewrite Hf, Hm, Hx. f_equal. apply map_fmap_ext. intros j g _.
  apply jfile_frame. intros k c _. by rewrite Hn.
Qed.

(** Starting a flusher loses no entry. *)
Lemma flusher_start_queued n ondisk w j :
  winv w → queued w j →
  let w' := (cyanfs_super_flusher_start n ondisk w).2 in queued w' j ∧ jview_frame (w_super w) (w_super w').
Proof.
  intros [_ Hnx] Hq. unfold cyanfs_super_flusher_start.
  generalize (ondisk || has_flag (w_super w) CYANFS_SUPER_FLAG_FLUSH). intros od. cbv zeta.
  destruct (failed _ || _); [done|]. destruct (malloc_same w) as [l El]. destruct (cyanfs_malloc w) as [ok w1]. cbn [snd] in El. subst w1.
  destruct ok; cbn [negb]; [|done]. destruct (negb (_ || _)); [done|]. set (nj := bool_decide _).
  set (fr := mk_flusher false od _ _). split; [|by destruct nj, od].
  assert (Hw : ∀ t f, w_flushers w !! t = Some f → t ≠ w_next w).
  { intros t f Hf ->. rewrite Hnx in Hf by lia. done. }
  destruct Hq as [Hj|(t & f & Hf & Hj)].
  - right. exists (w_next w), fr. split.
    + clearbody nj fr. destruct nj, od; apply lookup_insert_eq.
    + subst fr. cbn [fl_writer wr_head]. subst nj. case_bool_decide as Hnil; [|done].
      change (journal_head (w_super w) = []) in Hnil. rewrite Hnil in Hj. set_solver.
  - right. exists t, f. split; [|done]. pose proof (Hw t f Hf). by destruct nj, od; (etrans; [apply lookup_insert_ne|]).
Qed.

(** The filter of a map when the test changes at one entry only. *)
Lemma filter_flip (p q : Z → bool) (m : gmap Z Z) i n :
  m !! i = Some n → p n = false → (∀ k c, k ≠ i → m !! k = Some c → q c = p c) →
  filter (λ x : Z * Z, q x.2 = true) m =
  if q n then <[i := n]> (filter (λ x : Z * Z, p x.2 = true) m) else filter (λ x : Z * Z, p x.2 = true) m.
Proof.
  intros Hi Hp Hq. apply map_eq. intros k. destruct (decide (k = i)) as [->|Hne].
  - assert (filter (λ x : Z * Z, p x.2 = true) m !! i = None) as Hno.
    { apply map_lookup_filter_None. right. intros x Hx. simpl. congruence. }
    destruct (q n) eqn:E; rewrite ?lookup_insert_eq, ?Hno.
    + by apply map_lookup_filter_Some.
    + apply map_lookup_filter_None. right. intros x Hx. simpl. congruence.
  - transitivity (filter (λ x : Z * Z, p x.2 = true) m !! k); [|by destruct (q n); rewrite ?lookup_insert_ne].
    rewrite !map_lookup_filter. destruct (m !! k) as [c|] eqn:Hc; [|done]. simpl. by rewrite (Hq k c Hne Hc).
Qed.

Section copied.
Context (fl : gmap Z (gset Z)) (id i n : Z) (f : cyanfs_file) (e : cyanfs_extent) (s : cyanfs_super).
Context (Hwf : wf s fl) (Hf : files_by_id s !! id = Some f) (Hi : f_extents f !! i = Some n).
Context (Hn : nodes s !! n = Some e) (Hp : ext_pending e = true).

(** The node of a file, its flags changed by [g]. *)
Lemma copied_frame g s' :
  s' = upd_node n g s → ext_backend (g e) = ext_backend e → ext_map (g e) = ext_map e → ext_file (g e) = ext_file e →
  wf s' fl ∧ files_by_id s' = files_by_id s ∧ nodes s' = <[n := g e]> (nodes s).
Proof using Hwf Hf Hi Hn.
  intros -> Hb Hm Hfi. split_and!; [by apply (node_flags_wf s fl id i n f e)|done|by apply upd_node_nodes].
Qed.

(** What the journalled state becomes. *)
Lemma copied_jview s' e' :
  files_by_id s' = files_by_id s → nodes s' = <[n := e']> (nodes s) → s_meta s' = s_meta s → max_file_id s' = max_file_id s →
  jview s' = if negb (ext_pending e' || ext_error e') then a_bind id n i (jfile s f) (jview s) else jview s.
Proof using Hwf Hf Hi Hn Hp.
  intros Hf' Hn' Hm Hx.
  assert (Hun : ∀ j g k, files_by_id s !! j = Some g → f_extents g !! k = Some n → j = id ∧ k = i).
  { intros j g k Hg Hk. assert (E : P_FILE j k = P_FILE id i) by (apply (owns_unique _ _ (wf_has_ext _ _ Hwf) _ _ n); simpl; eauto).
    by injection E. }
  assert (Hj : ∀ c, c ≠ n → journaled s' c = journaled s c) by (intros c Hc; unfold journaled; by rewrite Hn', lookup_insert_ne).
  assert (Hjn : journaled s' n = negb (ext_pending e' || ext_error e')) by (unfold journaled; by rewrite Hn', lookup_insert_eq).
  assert (Hj0 : journaled s n = false) by (unfold journaled; by rewrite Hn, Hp).
  assert (Ho : ∀ j g, files_by_id s !! j = Some g → j ≠ id → jfile s' g = jfile s g).
  { intros j g Hg Hne. unfold jfile. f_equal. apply map_filter_ext. intros k c Hk. simpl. rewrite Hj; [done|].
    intros ->. by destruct (Hun j g k Hg Hk). }
  assert (Hown : a_extents (jfile s' f) = if negb (ext_pending e' || ext_error e') then <[i := n]> (a_extents (jfile s f)) else a_extents (jfile s f)).
  { rewrite <- Hjn. apply (filter_flip (journaled s) (journaled s')); [done..|]. intros k c Hk Hc. apply Hj.
    intros ->. by destruct (Hun id f k Hf Hc). }
  unfold jview at 1. rewrite Hf', Hm, Hx. unfold a_bind, a_set_files, jview.
  destruct (negb (_ || _)); cbn [a_total a_files a_max a_journal]; f_equal; apply map_eq; intros j;
    rewrite ?lookup_insert, !lookup_fmap; (destruct (decide (j = id)) as [->|Hne];
      [rewrite Hf; rewrite ?decide_True by done; cbn [fmap option_fmap option_map]; f_equal;
       unfold jfile at 1; unfold jfile in Hown; cbn [a_extents] in Hown; by rewrite Hown
      |rewrite ?decide_False by done; destruct (files_by_id s !! j) as [g|] eqn:Hg; [|done]; cbn; f_equal; by apply (Ho j g)]).
Qed.
End copied.

Lemma pending_bind s fl id i n f e :
  wf s fl → files_by_id s !! id = Some f → f_extents f !! i = Some n → nodes s !! n = Some e → ext_pending e = true →
  spec_apply (J_BIND id n i) (jview s) = Some (a_bind id n i (jfile s f) (jview s)).
Proof.
  intros Hwf Hf Hi Hn Hp. assert (Hj : journaled s n = false) by (unfold journaled; by rewrite Hn, Hp).
  assert (Ho : owns s fl (P_FILE id i) n) by (simpl; eauto).
  destruct (we_node _ _ (wf_has_ext _ _ Hwf) _ _ Ho) as (e' & _ & _ & _ & _ & Hr).
  apply (bind_meaning s fl); try done.
  - unfold jfile. cbn [a_extents]. apply map_lookup_filter_None. right. intros x Hx. simpl. congruence.
  - by apply (wf_has_idx _ _ Hwf id f i n).
  - by apply (owns_range _ _ (wf_has_ext _ _ Hwf) _ _ Ho).
Qed.

Lemma winv_super w s' : winv w → wf s' (fl_map w) → winv (set_w_super s' w).
Proof. intros [_ Hn] Hwf. by split. Qed.

(** C16: the end of a copy.  When the copy of an ancestor's extent into a
    pending extent of a file succeeds, the binding is queued for the journal
    and the journalled state changes by its meaning, so the extent is shown
    and recovered from then on; when it fails, nothing is journalled and the
    extent is marked in error.  Either way the extent is no longer pending
    and the invariant is kept. *)
Theorem copy_finished id i n f e err w :
  winv w → files_by_id (w_super w) !! id = Some f → f_extents f !! i = Some n → nodes (w_super w) !! n = Some e →
  ext_pending e = true → ext_error e = false →
  let j := mk_entry true (J_BIND id n i) in let w' := cyanfs_task_copy_on_write_finish j n err w in
  winv w' ∧ nodes (w_super w') !! n = Some (set_ext_error (failed err) (set_ext_pending false e)) ∧
  if failed err then jview (w_super w') = jview (w_super w) ∧ journal_head (w_super w') = journal_head (w_super w)
  else queued w' j ∧ spec_apply (J_BIND id n i) (jview (w_super w)) = Some (jview (w_super w')).
Proof.
  intros Hi Hf Hx Hn Hp He j w'. unfold w', cyanfs_task_copy_on_write_finish. pose proof (wi_wf _ Hi) as Hwf.
  destruct (copied_frame (fl_map w) id i n f e (w_super w) Hwf Hf Hx Hn (set_ext_pending false) _ eq_refl) as (Hwf1 & Hf1 & Hn1); try done.
  set (s1 := upd_node n (set_ext_pending false) (w_super w)) in *. destruct (failed err) eqn:Eerr.
  - assert (Hnn : nodes s1 !! n = Some (set_ext_pending false e)) by (by rewrite Hn1, lookup_insert_eq).
    assert (Hf1' : files_by_id s1 !! id = Some f) by (by rewrite Hf1).
    destruct (copied_frame (fl_map w) id i n f _ s1 Hwf1 Hf1' Hx Hnn (set_ext_error true) _ eq_refl) as (Hwf2 & Hf2 & Hn2); try done.
    split_and!; [by apply winv_super|cbn [w_super set_w_super]; by rewrite Hn2, lookup_insert_eq| |done].
    cbn [w_super set_w_super]. rewrite (copied_jview (fl_map w) id i n f e (w_super w) Hwf Hf Hx Hn Hp _ (set_ext_error true (set_ext_pending false e))); try done.
    by rewrite Hn2, Hn1, insert_insert_eq.
  - set (w1 := set_w_super _ w). unfold cyanfs_super_flush_new_journal.
    assert (Hi1 : winv w1) by (by apply winv_super, (same_core_wf s1)).
    pose proof (flusher_start_ok CYANFS_SUPER_MAX_INFLIGHT_JOURNAL false w1 Hi1) as [Hi2 _].
    destruct (flusher_start_queued CYANFS_SUPER_MAX_INFLIGHT_JOURNAL false w1 j Hi1) as [Hq Hfr].
    { left. cbn. apply elem_of_app. right. by apply list_elem_of_singleton. }
    assert (Hn1n : nodes (w_super w1) !! n = Some (set_ext_pending false e)) by (change (nodes s1 !! n = Some (set_ext_pending false e)); by rewrite Hn1, lookup_insert_eq).
    assert (Hjv : jview (w_super w1) = a_bind id n i (jfile (w_super w) f) (jview (w_super w))).
    { rewrite (copied_jview (fl_map w) id i n f e (w_super w) Hwf Hf Hx Hn Hp _ (set_ext_pending false e)); try done. simpl. by rewrite He. }
    split_and!; [done| |done|].
    + rewrite (jf_nodes _ _ Hfr), Hn1n. f_equal. destruct e. cbn in *. by subst.
    + rewrite (jview_framed _ _ Hfr), Hjv. by apply (pending_bind _ (fl_map w) id i n f e).
Qed.

Lemma write_case_wf fl id i f w o : wf (w_super w) fl → write_case fl id i f w o → wf (w_super (wo_world o)) fl.
Proof.
  intros Hwf [err He Hx Hs|n e He Hn Hnd Hx Hc _|p n e He Hp Hv Hnd Hpd Hx Hs|n r Hv Hb]; [by rewrite Hs|..|by apply Hb].
  - by apply (same_core_wf (w_super w)).
  - by rewrite Hs.
Qed.

(** The world after a write to the snapshot; at 4096 a copy is pending. *)
Definition ex_write (off : Z) : world := from_option wo_world ex_world (write_extent (λ w, w) 2 off ex_world).
Definition ex_written : world := ex_write 4096.

Lemma ex_write_wf off : 0 ≤ off < 1572864 → wf (w_super (ex_write off)) ∅.
Proof.
  intros Hoff. destruct ex_opened_facts as (Hst & Hv & Hr). destruct (files_by_id ex_opened !! 2) as [f|] eqn:Hf; [|discriminate Hv].
  injection Hv as Ho Hs _ _.
  destruct (write_extent_case ∅ 2 off f ex_world ex_opened_wf Hst Hf) as (o & E & Hc); [rewrite Hs; lia|cbn [ex_world w_super]; lia|].
  unfold ex_write. rewrite E. exact (write_case_wf ∅ 2 _ f ex_world o ex_opened_wf Hc).
Qed.

Lemma ex_written_winv : winv ex_written.
Proof.
  assert (Hfl : w_flushers ex_written = ∅) by (vm_compute; reflexivity). split.
  - unfold fl_map. rewrite Hfl, fmap_empty. apply ex_write_wf. lia.
  - intros t _. by rewrite Hfl.
Qed.

Lemma copy_finished_witness :
  let w' := cyanfs_task_copy_on_write_finish (mk_entry true (J_BIND 2 7 0)) 7 ST_OK ex_written in
  queued w' (mk_entry true (J_BIND 2 7 0)) ∧ spec_apply (J_BIND 2 7 0) (jview (w_super ex_written)) = Some (jview (w_super w')).
Proof.
  assert (Hx : (λ f, f_extents f !! 0) <$> files_by_id (w_super ex_written) !! 2 = Some (Some 7)) by (vm_compute; reflexivity).
  assert (He : (λ e, (ext_pending e, ext_error e)) <$> nodes (w_super ex_written) !! 7 = Some (true, false)) by (vm_compute; reflexivity).
  destruct (files_by_id (w_super ex_written) !! 2) as [f|] eqn:Hf; [|discriminate Hx]. injection Hx as Hx.
  destruct (nodes (w_super ex_written) !! 7) as [e|] eqn:Hn; [|discriminate He]. injection He as Hp He.
  exact (proj2 (proj2 (copy_finished 2 0 7 f e ST_OK ex_written ex_written_winv Hf Hx Hn Hp He))).
Defined.

(** ** Discarding *)

(** The journalled state after extent [n] at index [i] of file [id] is gone. *)
Lemma jview_unmapped s s' fl id i n f e :
  wf s fl → files_by_id s !! id = Some f → f_extents f !! i = Some n → nodes s !! n = Some e →
  ext_pending e = false → ext_error e = false → rest s' = rest s → unmapped s s' →
  files_by_id s' = <[id := with_extents (delete i (f_extents f)) f]> (files_by_id s) →
  spec_apply (J_UNBIND id i) (jview s) = Some (jview s').
Proof.
  intros Hwf Hf Hi Hn Hp He Hr Hu Hf'. destruct (rest_ns s s' Hr) as (_ & Hm & _ & _ & Ht).
  assert (Ho : owns s fl (P_FILE id i) n) by (simpl; eauto).
  destruct (we_node _ _ (wf_has_ext _ _ Hwf) _ _ Ho) as (e' & _ & _ & _ & _ & Hir).
  unfold spec_apply. rewrite jview_file, Hf. cbn [fmap option_fmap option_map mbind option_bind].
  rewrite (proj2 (a_index_ok_spec i (a_size (jfile s f)))) by (split; [lia|by apply (wf_has_idx _ _ Hwf id f i n)]).
  rewrite bool_decide_true.
  2:{ exists n. apply map_lookup_filter_Some. split; [done|]. simpl. unfold journaled. by rewrite Hn, Hp, He. }
  cbn [andb]. f_equal.
  assert (E' : a_files (jview s') = <[id := jfile s (with_extents (delete i (f_extents f)) f)]> (a_files (jview s))).
  { rewrite (jview_files_same s s') by (by apply unmapped_same_nodes). by rewrite Hf', fmap_insert. }
  unfold jview, a_set_files in *. cbn [a_files a_total a_max a_journal] in *. rewrite E', Ht, Hm. do 2 f_equal.
  unfold jfile. simpl. by rewrite map_filter_delete.
Qed.

Section discard.
Context (fl : gmap Z (gset Z)) (id off l : Z) (f : cyanfs_file) (w : world).
Context (Hwf : wf (w_super w) fl) (Hst : __cyanfs_super_ensure_status (w_super w) = ST_OK).
Context (Hf : files_by_id (w_super w) !! id = Some f) (Hoff : 0 ≤ off < fm_size (f_meta f)).

(** The decision to unmap, for a whole extent that no ancestor shows. *)
Lemma discard_check_ok :
  ∃ d, discard_check id off l (w_super w) = Some d ∧
    match d with
    | DD_UNMAP n => off mod CYANFS_EXTENT_SIZE = 0 ∧ CYANFS_EXTENT_SIZE ≤ l ∧ f_extents f !! (off / CYANFS_EXTENT_SIZE) = Some n ∧
        (∀ p, f_parent f = Some p → visible (w_super w) p (off / CYANFS_EXTENT_SIZE) None) ∧
        ∃ e, nodes (w_super w) !! n = Some e ∧ ext_pending e = false ∧ ext_error e = false
    | _ => True
    end.
Proof using Hwf Hst Hf Hoff.
  pose proof (off_range fl id off f w Hwf Hf Hoff) as Hr. pose proof (extent_index off Hr) as Hix.
  change CYANFS_EXTENT_SIZE with 1048576.
  unfold discard_check. rewrite Hst. cbn [failed]. rewrite extent_from_eq, extent_begin_eq by lia.
  change CYANFS_EXTENT_SIZE with 1048576.
  destruct (Z.eqb_spec (1048576 * (off / 1048576)) off) as [Ha|]; cbn [negb orb]; [|by eexists].
  destruct (Z.ltb_spec l 1048576) as [|Hl]; [by eexists|]. rewrite Hf. cbn [mbind option_bind].
  destruct (follow_parent fl id off f w Hwf Hf Hoff) as (r & -> & Hv). cbn [mbind option_bind]. destruct r as [m|]; [by eexists|].
  unfold __cyanfs_file_find_extent. rewrite extent_from_eq, bf30_small by lia.
  destruct (f_extents f !! (off / 1048576)) as [n|] eqn:Hn; [|by eexists].
  assert (Ho : owns (w_super w) fl (P_FILE id (off / 1048576)) n) by (simpl; eauto).
  destruct (we_node _ _ (wf_has_ext _ _ Hwf) _ _ Ho) as (e & He & _). rewrite He. cbn [mbind option_bind].
  eexists. split; [done|]. destruct (ext_error e) eqn:Ee; [done|]. destruct (ext_pending e) eqn:Ep; [done|].
  split_and!; try done.
  - pose proof (Z.div_mod off 1048576 ltac:(lia)). lia.
  - intros p Hp. by rewrite Hp in Hv.
  - by exists e.
Qed.
(** An iteration that unmapped extent [n] and journalled it. *)
Record discarded (n : Z) (s s' : cyanfs_super) : Prop := {
  dc_aligned : off mod CYANFS_EXTENT_SIZE = 0;
  dc_whole : CYANFS_EXTENT_SIZE ≤ l;
  dc_own : f_extents f !! (off / CYANFS_EXTENT_SIZE) = Some n;
  dc_above : ∀ p, f_parent f = Some p → visible s p (off / CYANFS_EXTENT_SIZE) None;
  dc_files : files_by_id s' = <[id := with_extents (delete (off / CYANFS_EXTENT_SIZE) (f_extents f)) f]> (files_by_id s);
  dc_trees : ∀ r, r ≠ T_UNUSED → tree_get r s' = tree_get r s;
  dc_total : sm_total_extents (s_meta s') = sm_total_extents (s_meta s);
  dc_journal : journal_head s' = journal_head s ++ [mk_entry true (J_UNBIND id (off / CYANFS_EXTENT_SIZE))];
  dc_spec : spec_apply (J_UNBIND id (off / CYANFS_EXTENT_SIZE)) (jview s) = Some (jview s') }.

Lemma discard_extent_case :
  ∃ err map journal w', discard_extent (λ w, w) id off l w = Some (err, map, journal, w') ∧ wf (w_super w') fl ∧
    w_flushers w' = w_flushers w ∧ w_next w' = w_next w ∧
    (w_super w' = w_super w ∨ ∃ n, discarded n (w_super w) (w_super w')).
Proof using Hwf Hst Hf Hoff.
  unfold discard_extent. destruct discard_check_ok as (d & Ed & Hd). rewrite Ed. cbn [mbind option_bind].
  destruct d as [err|map|n]; [by eexists _, _, _, _; split_and!; [..|left]|by eexists _, _, _, _; split_and!; [..|left]|].
  destruct (malloc_same w) as [m El]. destruct (cyanfs_malloc w) as [ok w1]. cbn [snd] in El. subst w1.
  destruct ok; cbn [negb]; [|by eexists _, _, _, _; split_and!; [..|left]].
  change (w_super (set_w_malloc m w)) with (w_super w). rewrite Hf. cbn [mbind option_bind]. rewrite Ed. cbn [mbind option_bind].
  destruct Hd as (Ha & Hl & Hn & Hpv & e & He & Hp & Her).
  destruct (unmap_wf (w_super w) fl id (off / CYANFS_EXTENT_SIZE) n f e) as (s' & -> & Hwf' & Hr & Hf' & Hu & _); try done.
  cbn [mbind option_bind]. eexists _, _, _, _. split; [done|]. cbn [w_super set_w_super]. split_and!; [by apply (same_core_wf s')|done|done|].
  right. exists n. pose proof (off_range fl id off f w Hwf Hf Hoff) as Hrg. pose proof (extent_index off Hrg) as Hix.
  destruct (wn_id _ _ _ _ (wf_has_ns _ _ Hwf) id (strip f)) as [Hid _]; [by rewrite lookup_fmap, Hf|].
  change (fm_id (f_meta (strip f))) with (fm_id (f_meta f)) in Hid. rewrite Hid, extent_from_eq by lia.
  destruct (rest_ns _ _ Hr) as (_ & _ & _ & _ & Ht).
  change (off / CYANFS_EXTENT_SIZE) with (off / 1048576) in *. split; try done.
  - intros r Hne. apply (um_tree _ _ Hu). by rewrite (status_unused _ Hst).
  - cbn. by rewrite (side_journal _ _ (rest_side _ _ Hr)).
  - transitivity (Some (jview s')); [by apply (jview_unmapped (w_super w) s' fl id (off / 1048576) n f e)|]. reflexivity.
Qed.

End discard.

(** C24: discarding a range of a file.  One iteration never aborts and keeps
    the invariant.  Nothing changes in the journalled state, or the iteration
    was for a whole extent that the file owns and that no ancestor shows: then
    the file has a hole there that reads as zeroes, the other files show what
    they did, an UNBIND entry whose
    meaning is the change of the journalled state was appended, and the extent
    did not become free (it waits for a flush). *)
Theorem discard_unbinds fl id off l f w :
  wf (w_super w) fl → __cyanfs_super_ensure_status (w_super w) = ST_OK →
  files_by_id (w_super w) !! id = Some f → f_open_type f = CYANFS_FILE_READWRITE → 0 ≤ off < fm_size (f_meta f) →
  ∃ err map journal w', discard_extent (λ w, w) id off l w = Some (err, map, journal, w') ∧ wf (w_super w') fl ∧
    (w_super w' = w_super w ∨
     ∃ n, let i := off / CYANFS_EXTENT_SIZE in
       off mod CYANFS_EXTENT_SIZE = 0 ∧ CYANFS_EXTENT_SIZE ≤ l ∧ f_extents f !! i = Some n ∧
       visible (w_super w') id i None ∧ (∀ j k r, j ≠ id → visible (w_super w) j k r → visible (w_super w') j k r) ∧
       free_extents (w_super w') = free_extents (w_super w) ∧
       journal_head (w_super w') = journal_head (w_super w) ++ [mk_entry true (J_UNBIND id i)] ∧
       spec_apply (J_UNBIND id i) (jview (w_super w)) = Some (jview (w_super w'))).
Proof.
  intros Hwf Hst Hf Hrw Hoff.
  destruct (discard_extent_case fl id off l f w Hwf Hst Hf Hoff) as (err & map & journal & w' & E & Hwf' & _ & _ & Hc).
  exists err, map, journal, w'. split; [done|]. split; [done|]. destruct Hc as [Hs|[n [Ha Hl Hn Hpv Hfs Ht _ Hh Hsp]]]; [by left|right].
  exists n. cbv zeta. change (off / CYANFS_EXTENT_SIZE) with (off / 1048576) in *.
  assert (Hvis : ∀ j k r, j ≠ id → visible (w_super w) j k r → visible (w_super w') j k r).
  { intros j k r Hj. apply (visible_frame _ _ id); [|intros c g Hc Hg; exists g; by rewrite Hfs, lookup_insert_ne|done].
    intros c g. apply (no_forks (w_super w) id f c g (wf_has_ns _ _ Hwf) Hf).
    apply (wn_open _ _ _ _ (wf_has_ns _ _ Hwf) id (strip f)); [by rewrite lookup_fmap, Hf|done]. }
  split_and!; try done; [|by apply (Ht T_FREE)].
  set (f' := with_extents (delete (off / 1048576) (f_extents f)) f) in *.
  assert (Hl' : files_by_id (w_super w') !! id = Some f') by (by rewrite Hfs, lookup_insert_eq).
  assert (Hh' : f_extents f' !! (off / 1048576) = None) by apply lookup_delete_eq.
  assert (Hsz : CYANFS_EXTENT_SIZE * (off / 1048576) < fm_size (f_meta f')) by (by apply (wf_has_idx _ _ Hwf id f _ n)).
  destruct (f_parent f) as [p|] eqn:Ep; [|by apply (vis_hole (w_super w') id f')].
  apply (vis_inherited (w_super w') id f' p); try done. apply Hvis; [|by apply Hpv].
  destruct (below_parent (w_super w) id f p (wf_has_ns _ _ Hwf) Hf Ep) as [_ Hlt]. intros ->. lia.
Qed.

(** Discarding the extent that a write to the second megabyte allocated. *)
Lemma discard_unbinds_witness :
  ∃ err map journal w', discard_extent (λ w, w) 2 1048576 1048576 (ex_write 1048576) = Some (err, map, journal, w') ∧
    wf (w_super w') ∅.
Proof.
  assert (Hv : (λ f, (f_open_type f, fm_size (f_meta f))) <$> files_by_id (w_super (ex_write 1048576)) !! 2 =
    Some (CYANFS_FILE_READWRITE, 1572864)) by (vm_compute; reflexivity).
  destruct (files_by_id (w_super (ex_write 1048576)) !! 2) as [f|] eqn:Hf; [|discriminate Hv]. injection Hv as Ho Hs.
  destruct (discard_unbinds ∅ 2 1048576 1048576 f (ex_write 1048576)) as (err & map & journal & w' & E & Hwf & _).
  - apply ex_write_wf. lia.
  - vm_compute. reflexivity.
  - exact Hf.
  - exact Ho.
  - rewrite Hs. lia.
  - exists err, map, journal, w'. exact (conj E Hwf).
Defined.

Example discard_example :
  (λ r : cyanfs_status * cyanfs_map_type_t * bool * world, (r.1, journal_head (w_super r.2))) <$>
    discard_extent (λ w, w) 2 1048576 1048576 (ex_write 1048576) =
  Some (ST_OK, CYANFS_MAP_NOP, true, [mk_entry false (J_BIND 2 18 1); mk_entry true (J_UNBIND 2 1)]).
Proof. vm_compute. reflexivity. Qed.
