(* ===== verification/ReuseSpec.v ===== *)
(** * ReuseSpec: a freed extent is not reused before a flush

    The operations of the clients and of the flush machinery as a labelled
    step relation.  An extent that a file gives up becomes free only after a
    flusher started, a flush of the device was submitted and a flush
    succeeded, in this order, so the entry that unbinds it is on the disk
    before the extent can hold other data. *)
From Stdlib Require Import ZArith Lia.
From S2P Require Import Prelude Base Journal Spec CompactSpec Types Super SuperInv SuperOps Replay World JournalIO Discard DiscardSpec Compact Flusher FlusherSpec Api ApiSpec Handles ReadWrite ReadSpec WriteSpec CopySpec.

Inductive reuse_step : flusher_event → world → world → Prop :=
  | rs_start n ondisk w : reuse_step EV_START w (cyanfs_super_flusher_start n ondisk w).2
  | rs_free t w w' : cyanfs_super_flusher_free_done t w = Some w' → reuse_step EV_OTHER w w'
  | rs_before_flush t w w' : cyanfs_super_flusher_before_flush_done t w = Some w' → reuse_step EV_SUBMIT w w'
  | rs_before_write t w w' : cyanfs_super_flusher_before_write_flush_fn t w = Some w' → reuse_step EV_SUBMIT w w'
  | rs_before_write_done t err w w' :
      cyanfs_super_flusher_before_write_flush_done_fn t err w = Some w' → reuse_step EV_OTHER w w'
  | rs_after_flush err w w' :
      cyanfs_super_flusher_after_flush_done err w = Some w' →
      reuse_step (if failed err then EV_OTHER else EV_FLUSHED) w w'
  | rs_write_error t w w' : cyanfs_super_flusher_write_error t w = Some w' → reuse_step EV_OTHER w w'
  | rs_flush_before_write t w w' : cyanfs_super_flusher_flush_before_write t w = Some w' → reuse_step EV_OTHER w w'
  | rs_write_finish t w w' : cyanfs_super_flusher_write_finish t w = Some w' → reuse_step EV_OTHER w w'
  | rs_discard_begin w s' : discard_extents_begin (w_super w) = Some s' → reuse_step EV_OTHER w (set_w_super s' w)
  | rs_discard_done w s' : discard_extents_done (w_super w) = Some s' → reuse_step EV_OTHER w (set_w_super s' w)
  | rs_file o w st s' :
      file_op_ok o → closed_quiet (w_super w) → file_op_apply o (w_super w) = Some (st, s') →
      reuse_step EV_OTHER w (set_w_super s' w)
  | rs_write id off f w o :
      __cyanfs_super_ensure_status (w_super w) = ST_OK → files_by_id (w_super w) !! id = Some f →
      0 ≤ off < fm_size (f_meta f) → 0 ≤ sm_reserved_extents (s_meta (w_super w)) →
      write_extent (λ w, w) id off w = Some o → reuse_step EV_OTHER w (wo_world o)
  | rs_discard id off l f w err map journal w' :
      __cyanfs_super_ensure_status (w_super w) = ST_OK → files_by_id (w_super w) !! id = Some f →
      0 ≤ off < fm_size (f_meta f) → discard_extent (λ w, w) id off l w = Some (err, map, journal, w') →
      reuse_step EV_OTHER w w'
  | rs_copied id i n f e err w :
      files_by_id (w_super w) !! id = Some f → f_extents f !! i = Some n → nodes (w_super w) !! n = Some e →
      reuse_step EV_START w (cyanfs_task_copy_on_write_finish (mk_entry true (J_BIND id n i)) n err w).

(** Extents that wait stay where they are. *)
Lemma climbs_low s fl s' fl' :
  wf s' fl' → (∀ p c, owns s fl p c → ∃ q, owns s' fl' q c) →
  (∀ p p' c, (stage p < 3)%nat → owns s fl p c → owns s' fl' p' c → stage p' ≤ stage p)%nat →
  climbs EV_OTHER (owns s fl) (owns s' fl').
Proof.
  intros Hwf' Hk Hlow. split; [done|]. intros p p' c Hp Hp'. left.
  destruct (decide (stage p < 3)%nat) as [Hlt|]; [by apply (Hlow p p' c)|].
  assert (stage p' ≤ 3)%nat by (destruct p' as [[]| |]; simpl; lia). lia.
Qed.

(** Every extent of the device is somewhere. *)
Lemma still_owned s fl s' fl' p c :
  wf s fl → wf s' fl' → sm_total_extents (s_meta s') = sm_total_extents (s_meta s) → owns s fl p c → ∃ q, owns s' fl' q c.
Proof.
  intros Hwf Hwf' Ht Hp. apply (pt_cover _ _ (we_part _ _ (wf_has_ext _ _ Hwf'))). rewrite Ht.
  by apply (owns_range _ _ (wf_has_ext _ _ Hwf) p).
Qed.

(** The files only give extents up, to the unused ones. *)
Lemma climbs_gives_up s s' fl :
  wf s fl → wf s' fl → sm_total_extents (s_meta s') = sm_total_extents (s_meta s) →
  (∀ r, r ≠ T_UNUSED → tree_get r s' = tree_get r s) →
  (∀ id g i c, files_by_id s' !! id = Some g → f_extents g !! i = Some c →
     ∃ f, files_by_id s !! id = Some f ∧ f_extents f !! i = Some c) →
  climbs EV_OTHER (owns s fl) (owns s' fl).
Proof.
  intros Hwf Hwf' Ht Htr Hx. apply climbs_low; [done|intros p c; by apply still_owned|]. intros p p' c _ Hp Hp'.
  assert (Hp2 : p' = P_TREE T_UNUSED ∨ owns s fl p' c).
  { destruct p' as [r|id i|k]; [|right|by right].
    - destruct (decide (r = T_UNUSED)) as [->|Hne]; [by left|right]. simpl. by rewrite <- (Htr r Hne).
    - destruct Hp' as (g & Hg & Hgi). by apply (Hx id g i c). }
  destruct Hp2 as [->|Ho2]; [simpl; lia|]. by rewrite (owns_unique _ _ (wf_has_ext _ _ Hwf) p p' c Hp Ho2).
Qed.

Lemma journals_total s s' j : journals s s' j → sm_total_extents (s_meta s') = sm_total_extents (s_meta s).
Proof.
  intros Hj. assert (E : ∀ a a', spec_apply j a = Some a' → a_total a' = a_total a).
  { intros a a' E. destruct j; cbn [spec_apply] in E; repeat case_match; simplify_option_eq; repeat case_match; simplify_eq; done. }
  apply (E (jview s) (jview s')), (jn_spec _ _ _ Hj).
Qed.

Lemma file_op_flushed o w st s' :
  winv w → file_op_ok o → closed_quiet (w_super w) → file_op_apply o (w_super w) = Some (st, s') →
  flushed EV_OTHER w (set_w_super s' w).
Proof.
  intros Hi Ho Hq E. pose proof (wi_wf _ Hi) as Hwf.
  destruct (file_op_apply_ok (w_super w) (fl_map w) o Hwf Ho Hq) as [[err E']|(s1 & j & E' & Hwf' & Hj)];
    rewrite E' in E; simplify_eq.
  - rewrite set_w_super_id. by apply flushed_same.
  - split; [by apply winv_super|].
    apply climbs_gives_up; [done|done|by apply (journals_total _ _ j)|apply Hj|apply (kp_ext _ _ (jn_keeps _ _ _ Hj))].
Qed.

(** A write does not touch the flushers. *)
Definition same_flushers (w w' : world) : Prop := w_flushers w' = w_flushers w ∧ w_next w' = w_next w.

Lemma write_mapped_flushers n j w o : write_mapped n j w = Some o → same_flushers w (wo_world o).
Proof. unfold write_mapped. intros E. destruct (nodes _ !! n); [|done]. by injection E as <-. Qed.

Lemma write_alloc_flushers id off parent w o : write_alloc id off parent w = Some o → same_flushers w (wo_world o).
Proof.
  unfold write_alloc. intros E. destruct (failed _); [by injection E as <-|].
  destruct (files_by_id _ !! id) as [f|]; [|done]. cbn [mbind option_bind] in E.
  destruct (__cyanfs_file_find_extent f off); [by apply write_mapped_flushers in E|].
  destruct (__cyanfs_file_alloc_extent _ _ _) as [[[n|] s]|]; [|by injection E as <-|done]. cbn [mbind option_bind] in E.
  destruct (nodes s !! n); [|done]. cbn [mbind option_bind] in E. destruct parent; exact (write_mapped_flushers _ _ _ _ E).
Qed.

Lemma write_extent_flushers id off w o : write_extent (λ w, w) id off w = Some o → same_flushers w (wo_world o).
Proof.
  unfold write_extent. intros E. destruct (failed _); [by injection E as <-|].
  destruct (files_by_id _ !! id) as [f|]; [|done]. cbn [mbind option_bind] in E.
  destruct (__cyanfs_file_find_extent f off); [by apply write_mapped_flushers in E|].
  destruct (__cyanfs_file_find_extent_follow _ _ _) as [[p|]|]; [| |done]; cbn [mbind option_bind] in E.
  - destruct (nodes _ !! p) as [e|]; [|done]. cbn [mbind option_bind] in E.
    destruct (ext_error e); [by injection E as <-|]. destruct (ext_pending e); [by injection E as <-|].
    destruct (malloc_same w) as [l El]. destruct (cyanfs_malloc w) as [ok w1]. cbn [snd] in El. subst w1.
    destruct ok; cbn [negb] in E; [|by injection E as <-].
    destruct (malloc_same (set_w_malloc l w)) as [l2 El]. destruct (cyanfs_malloc _) as [ok w1]. cbn [snd] in El. subst w1.
    destruct ok; cbn [negb] in E; [|by injection E as <-]. exact (write_alloc_flushers _ _ _ _ _ E).
  - destruct (malloc_same w) as [l El]. destruct (cyanfs_malloc w) as [ok w1]. cbn [snd] in El. subst w1.
    destruct ok; cbn [negb] in E; [|by injection E as <-]. exact (write_alloc_flushers _ _ _ _ _ E).
Qed.

Lemma write_flushed id off f w o :
  winv w → __cyanfs_super_ensure_status (w_super w) = ST_OK → files_by_id (w_super w) !! id = Some f →
  0 ≤ off < fm_size (f_meta f) → 0 ≤ sm_reserved_extents (s_meta (w_super w)) →
  write_extent (λ w, w) id off w = Some o → flushed EV_OTHER w (wo_world o).
Proof.
  intros Hi Hst Hf Hoff Hres E. pose proof (wi_wf _ Hi) as Hwf. destruct (write_extent_flushers _ _ _ _ E) as [Hfl Hnx].
  destruct (write_extent_case (fl_map w) id off f w Hwf Hst Hf Hoff Hres) as (o' & E' & Hc). rewrite E in E'. injection E' as <-.
  assert (Hm : fl_map (wo_world o) = fl_map w) by (unfold fl_map; by rewrite Hfl).
  pose proof (write_case_wf _ _ _ _ _ _ Hwf Hc) as Hwf'.
  destruct Hc as [err He Hx Hs|n e He Hn Hnd Hx Hc _|p n e He Hp Hv Hnd Hpd Hx Hs|n r Hv Hb];
    [apply flushed_same; try done; by rewrite Hs|by apply flushed_same|apply flushed_same; try done; by rewrite Hs|].
  split; [split; [by rewrite Hm|intros t Ht; rewrite Hfl; apply (wi_next _ Hi); by rewrite <- Hnx]|]. rewrite Hm.
  apply climbs_low; [done|intros q c; apply still_owned; [done|done|apply Hb]|].
  intros q q' c Hlt Hq Hq'. assert (Ho : owns (w_super (wo_world o)) (fl_map w) q c).
  { destruct q as [r'|id' i'|k]; [|simpl in Hlt; lia|done]. simpl. rewrite (wb_trees _ _ _ _ _ _ _ _ Hb); [done|].
    intros ->. simpl in Hlt. lia. }
  by rewrite (owns_unique _ _ (wf_has_ext _ _ Hwf') q q' c Ho Hq').
Qed.

Lemma discard_flushed id off l f w err map journal w' :
  winv w → __cyanfs_super_ensure_status (w_super w) = ST_OK → files_by_id (w_super w) !! id = Some f →
  0 ≤ off < fm_size (f_meta f) → discard_extent (λ w, w) id off l w = Some (err, map, journal, w') → flushed EV_OTHER w w'.
Proof.
  intros Hi Hst Hf Hoff E. pose proof (wi_wf _ Hi) as Hwf.
  destruct (discard_extent_case (fl_map w) id off l f w Hwf Hst Hf Hoff) as (? & ? & ? & w1 & E' & Hwf' & Hfl & Hnx & Hc).
  rewrite E in E'. simplify_eq. assert (Hm : fl_map w1 = fl_map w) by (unfold fl_map; by rewrite Hfl).
  destruct Hc as [Hs|[n Hd]]; [apply flushed_same; try done; by rewrite Hs|].
  split; [split; [by rewrite Hm|intros t Ht; rewrite Hfl; apply (wi_next _ Hi); by rewrite <- Hnx]|]. rewrite Hm.
  apply climbs_gives_up; [done|done|apply Hd|apply Hd|]. intros j g k c. rewrite (dc_files _ _ _ _ _ _ _ Hd).
  intros [[<- <-]|[_ Hg]]%lookup_insert_Some Hk; [|eauto]. exists f. split; [done|]. simpl in Hk. by apply lookup_delete_Some in Hk as [_ Hk].
Qed.

Lemma node_step id i n f e g j w :
  winv w → files_by_id (w_super w) !! id = Some f → f_extents f !! i = Some n → nodes (w_super w) !! n = Some e →
  ext_backend (g e) = ext_backend e → ext_map (g e) = ext_map e → ext_file (g e) = ext_file e →
  let s' := upd_node n g (w_super w) in
  flushed EV_OTHER w (set_w_super (if (j : option cyanfs_journal_entry) is Some j then __cyanfs_super_journal_append j s' else s') w).
Proof.
  intros Hi Hf Hx Hn Hb Hm Hfi s'.
  destruct (copied_frame (fl_map w) id i n f e (w_super w) (wi_wf _ Hi) Hf Hx Hn g s' eq_refl Hb Hm Hfi) as (Hwf & _ & _).
  assert (H1 : flushed EV_OTHER w (set_w_super s' w)).
  { split; [by apply winv_super|]. apply climbs_same; [apply Hi|]. intros q c. by destruct q as [[]| |]. }
  destruct j as [j|]; [|done]. by apply (flushed_after _ w (set_w_super s' w)).
Qed.

Lemma copied_flushed id i n f e err w :
  winv w → files_by_id (w_super w) !! id = Some f → f_extents f !! i = Some n → nodes (w_super w) !! n = Some e →
  flushed EV_START w (cyanfs_task_copy_on_write_finish (mk_entry true (J_BIND id n i)) n err w).
Proof.
  intros Hi Hf Hx Hn. unfold cyanfs_task_copy_on_write_finish. destruct (failed err).
  - set (w1 := set_w_super (upd_node n (set_ext_pending false) (w_super w)) w).
    assert (H1 : flushed EV_OTHER w w1) by (by apply (node_step id i n f e (set_ext_pending false) None w)).
    apply (flushed_trans _ w w1 _ H1). apply flushed_weaken.
    apply (node_step id i n f (set_ext_pending false e) (set_ext_error true) None w1); try done; [apply H1|].
    change (nodes (w_super w1)) with (nodes (upd_node n (set_ext_pending false) (w_super w))).
    by rewrite (upd_node_nodes _ _ _ _ Hn), lookup_insert_eq.
  - set (w1 := set_w_super _ w).
    assert (H1 : flushed EV_OTHER w w1) by (by apply (node_step id i n f e (set_ext_pending false) (Some (mk_entry true (J_BIND id n i))) w)).
    apply (flushed_trans _ w w1 _ H1). apply flusher_start_ok, H1.
Qed.

(** ** Every step keeps the invariant and moves extents one stage at most *)
Ltac head_of t := lazymatch t with ?f _ => head_of f | _ => t end.

(** A handler that returned found its flusher. *)
Ltac flusher_live E :=
  apply not_eq_None_Some; intros Hnone; revert E;
  lazymatch goal with |- ?g = _ → _ => let h := head_of g in unfold h, get_flusher; rewrite Hnone; discriminate end.

Lemma reuse_step_flushed e w w' : winv w → reuse_step e w w' → flushed e w w'.
Proof.
  intros Hi Hst.
  destruct Hst as [n od w|t w w' E|t w w' E|t w w' E|t err w w' E|err w w' E|t w w' E|t w w' E|t w w' E|w s' E|w s' E
    |o w st s' Ho Hq E|id off f w o Hst Hf Hoff Hres E|id off l f w err map journal w' Hst Hf Hoff E|id i n f e err w Hf Hx Hn].
  - by apply flusher_start_ok.
  - destruct (flusher_free_ok t w Hi) as (w1 & E1 & H); [flusher_live E|congruence].
  - destruct (before_flush_ok t w Hi) as (w1 & E1 & H); [flusher_live E|congruence].
  - destruct (before_write_flush_ok t w Hi) as (w1 & E1 & H); [flusher_live E|congruence].
  - destruct (before_write_flush_done_ok t err w Hi) as (w1 & E1 & H); [flusher_live E|congruence].
  - destruct (after_flush_ok err w Hi) as (w1 & E1 & H). congruence.
  - destruct (write_error_ok t w Hi) as (w1 & E1 & H). congruence.
  - destruct (flush_before_write_ok t w Hi) as (w1 & E1 & H); [flusher_live E|congruence].
  - destruct (write_finish_ok t w Hi) as (w1 & E1 & H); [flusher_live E|congruence].
  - destruct (discard_begin_step w Hi) as (w1 & E1 & H). congruence.
  - destruct (discard_done_step w Hi) as (w1 & E1 & H). congruence.
  - by apply (file_op_flushed o w st s').
  - by apply (write_flushed id off f w o).
  - by apply (discard_flushed id off l f w err map journal).
  - by apply (copied_flushed id i n f e).
Qed.

(** Sequences of steps, with their events. *)
Inductive reuse_run : list flusher_event → world → world → Prop :=
  | rr_nil w : reuse_run [] w w
  | rr_cons e l w w1 w' : reuse_step e w w1 → reuse_run l w1 w' → reuse_run (e :: l) w w'.

(** What an extent has to go through from stage [k] on. *)
Definition stages_from (k : nat) : list flusher_event := drop k [EV_START; EV_SUBMIT; EV_FLUSHED].

Lemma stages_from_step e k :
  event_stage e = Some k → stages_from k = e :: stages_from (S k).
Proof. intros H. by destruct e; simplify_eq/=. Qed.

Lemma stages_from_le k k' : (k ≤ k')%nat → stages_from k' `sublist_of` stages_from k.
Proof.
  intros Hle. unfold stages_from. replace k' with (k + (k' - k))%nat by lia. rewrite <- drop_drop. apply sublist_drop.
Qed.

Lemma reuse_run_stages l w w' p p' c :
  reuse_run l w w' → winv w → owns (w_super w) (fl_map w) p c → owns (w_super w') (fl_map w') p' c → stage p' = 3%nat →
  winv w' ∧ stages_from (stage p) `sublist_of` l.
Proof.
  intros Hr. revert p. induction Hr as [w|e l w w1 w' Hst Hr IH]; intros p Hi Hp Hp' H3.
  - split; [done|]. assert (p = p') as -> by (by apply (owns_unique _ _ (wf_has_ext _ _ (wi_wf _ Hi)) _ _ c)).
    by rewrite H3.
  - destruct (reuse_step_flushed e w w1 Hi Hst) as [Hi1 [Hk Hc]]. destruct (Hk p c Hp) as [q Hq].
    destruct (IH q Hi1 Hq Hp' H3) as [Hi' Hsub]. split; [done|]. destruct (Hc p q c Hp Hq) as [Hle|[He Hs]].
    + apply sublist_cons. etrans; [by apply stages_from_le|done].
    + rewrite (stages_from_step e _ He), <- Hs. by apply sublist_skip.
Qed.



(** ** Example: the snapshot is deleted and its parent truncated; extent 2 is
    free again after a flush *)
Definition ex_gone : cyanfs_super := default ex_ready (file_ops_run [F_DELETE 2; F_TRUNCATE 1 0] ex_ready).
Definition ex_gone0 : world := mk_world ex_gone ∅ 0 None None [].
Definition ex_gone1 : world := (cyanfs_super_flusher_start 0 true ex_gone0).2.
Definition ex_gone2 : world := default ex_gone1 (cyanfs_super_flusher_before_flush_done 0 ex_gone1).
Definition ex_gone3 : world := default ex_gone2 (cyanfs_super_flusher_after_flush_done ST_OK ex_gone2).

Lemma default_Some {A} (d : A) (o : option A) : is_Some o → o = Some (default d o).
Proof. by intros [x ->]. Qed.

Lemma ex_ready_quiet : quiet ex_ready.
Proof.
  intros c e He. assert (H : map_Forall (λ _ p, p = false) (ext_pending <$> nodes ex_ready))
    by (apply (bool_decide_unpack _); vm_compute; reflexivity).
  apply (H c). by rewrite lookup_fmap, He.
Qed.

Lemma ex_gone_wf : wf ex_gone ∅.
Proof.
  destruct (file_ops_run_ok [F_DELETE 2; F_TRUNCATE 1 0] ex_ready ∅ ex_ready_wf ex_ready_quiet) as (s' & js & E & Hwf & _).
  { repeat constructor; vm_compute; done. }
  unfold ex_gone. rewrite E. exact Hwf.
Qed.

Lemma ex_gone_winv : winv ex_gone0.
Proof. split; [exact ex_gone_wf|done]. Qed.

Lemma ex_gone_run : reuse_run [EV_START; EV_SUBMIT; EV_FLUSHED] ex_gone0 ex_gone3.
Proof.
  assert (Hi1 : winv ex_gone1) by apply (flusher_start_ok 0 true ex_gone0 ex_gone_winv).
  destruct (before_flush_ok 0 ex_gone1 Hi1) as (w2 & E2 & Hf2).
  { assert (H : bool_decide (is_Some (w_flushers ex_gone1 !! 0)) = true) by (vm_compute; reflexivity).
    exact (bool_decide_eq_true_1 _ H). }
  assert (Hw2 : ex_gone2 = w2) by (unfold ex_gone2; by rewrite E2).
  destruct (after_flush_ok ST_OK ex_gone2) as (w3 & E3 & _); [rewrite Hw2; apply Hf2|].
  apply (rr_cons _ _ _ ex_gone1); [apply rs_start|].
  apply (rr_cons _ _ _ ex_gone2); [apply (rs_before_flush 0); by rewrite Hw2|].
  apply (rr_cons _ _ _ ex_gone3); [|constructor]. apply (rs_after_flush ST_OK).
  unfold ex_gone3. apply default_Some. by exists w3.
Qed.



(** The same with discards enabled: extent 2 waits to be discarded. *)
Definition ex_wait : cyanfs_super :=
  default ex_gone (discard_list [2] T_UNUSED (add_flag CYANFS_SUPER_FLAG_DISCARD_ENABLED ex_gone)).

Lemma ex_wait_wf : wf ex_wait ∅.
Proof.
  set (s := add_flag CYANFS_SUPER_FLAG_DISCARD_ENABLED ex_gone).
  assert (Hwf : wf s ∅) by exact (same_core_wf ex_gone s ∅ (add_flag_core _ ex_gone) ex_gone_wf).
  destruct (discard_list_ok [2] s ∅ T_UNUSED Hwf) as (s' & E & Hwf' & _).
  - unfold discard_dest. by destruct (has_flag _ _).
  - apply NoDup_singleton.
  - intros n ->%list_elem_of_singleton. apply (bool_decide_unpack _). vm_compute. exact I.
  - unfold ex_wait. fold s. rewrite E. exact Hwf'.
Qed.

Lemma discard_hits_waiting_witness :
  2 ∈ wait_discard_extents ex_wait ∧ ∃ s', discard_extents_begin ex_wait = Some s' ∧ wf s' ∅.
Proof.
  split; [apply (bool_decide_unpack _); vm_compute; exact I|].
  pose proof (discard_hits_waiting ex_wait ∅ ex_wait_wf) as [s' H]. exists s'. exact (conj (proj1 H) (proj1 (proj2 H))).
Defined.
