(* ===== verification/System.v ===== *)
(** * System: the executor

    Ties the components together: [task_done] calls the completion function a
    task names, and [sys_step] is one step of the serial executor that
    [core/core.h] asks for, on a device modelled as its bytes: take a task,
    do its I/O, call [cyanfs_super_task_done]. *)
From Stdlib Require Import ZArith Lia.
From S2P Require Import Prelude Disk Base Journal Types Super World JournalIO Discard Compact Flusher Api ReadWrite.

Definition loader_ops (l : loader_ref) : loader_operations :=
  match l with LOADER_OPEN => open_loader_ops | LOADER_COMPACT => compact_loader_ops end.

Definition writer_ops (r : writer_ref) : writer_operations :=
  match r with WRITER_FLUSHER t => flusher_writer_ops t | WRITER_COMPACT => compact_writer_ops end.

Definition read_len (ty : cyanfs_task_type_t) : Z :=
  match ty with CYANFS_TASK_READ _ len _ => len | _ => 0 end.

Definition on_super (g : cyanfs_super → option cyanfs_super) (w : world) : option world :=
  s ← g (w_super w); Some (set_w_super s w).

(** [t->done(t, err)] *)
Definition task_done (t : cyanfs_task) (err : cyanfs_status) (w : world) : option world :=
  match t_done t with
  | cyanfs_journal_loader_parser_header l => cyanfs_journal_loader_parser_header_done l (loader_ops l) err w
  | cyanfs_journal_loader_parser_page l =>
      cyanfs_journal_loader_parser_page_done l (loader_ops l) (read_len (t_type t)) err w
  | cyanfs_journal_writer_encode r => cyanfs_journal_writer_encode_done r (writer_ops r) err w
  | cyanfs_task_copy_on_write_done journal n => Some (cyanfs_task_copy_on_write_finish journal n err w)
  | cyanfs_super_discard_extents_begin => on_super discard_extents_begin w
  | cyanfs_super_discard_extents_done => on_super discard_extents_done w
  | cyanfs_super_flusher_free t => cyanfs_super_flusher_free_done t w
  | cyanfs_super_flusher_before_flush t => cyanfs_super_flusher_before_flush_done t w
  | cyanfs_super_flusher_after_flush t => cyanfs_super_flusher_after_flush_done err w
  | cyanfs_super_flusher_before_write_flush t => cyanfs_super_flusher_before_write_flush_fn t w
  | cyanfs_super_flusher_before_write_flush_done t => cyanfs_super_flusher_before_write_flush_done_fn t err w
  | cyanfs_journal_compact_write_super => compact_write_super err w
  | cyanfs_journal_compact_flush_super => compact_flush_super err w
  | cyanfs_journal_compact_finish => compact_finish err w
  | __cyanfs_task_free => Some w
  end.

Definition cyanfs_super_task_done (t : cyanfs_task) (err : cyanfs_status) (w : world) : option world :=
  w ← task_done t err w; on_super task_retire w.

(** ** The executor *)

(** The I/O of a task that the device carries out. *)
Definition device_io (ty : cyanfs_task_type_t) (d : disk) (w : world) : option (disk * world) :=
  match ty with
  | CYANFS_TASK_READ off len buf =>
      c ← get_cursor buf w;
      Some (d, upd_cursor_of buf (set_cur_page (disk_read d off len ++ drop (Z.to_nat len) (cur_page c))) w)
  | CYANFS_TASK_WRITE off len buf =>
      c ← get_cursor buf w;
      Some (disk_write d off (take (Z.to_nat len) (cur_page c)), w)
  | CYANFS_TASK_COPY src dst len => Some (disk_copy d src dst len, w)
  | _ => Some (d, w)
  end.

Record system := mk_system { sys_world : world; sys_disk : disk }.

(** One step of the executor; [err] is the outcome of the I/O, which has no
    effect when it fails. *)
Definition sys_step (err : cyanfs_status) (y : system) : option system :=
  let '(t, s) := cyanfs_super_get_task (w_super (sys_world y)) in
  match t with
  | None => Some y
  | Some t =>
      let w := set_w_super s (sys_world y) in
      '(d, w) ← (if failed err then Some (sys_disk y, w) else device_io (t_type t) (sys_disk y) w);
      w ← cyanfs_super_task_done t err w;
      Some (mk_system w d)
  end.

Fixpoint sys_run (n : nat) (y : system) : option system :=
  match n with
  | O => Some y
  | S n => y ← sys_step ST_OK y; sys_run n y
  end.

(** The same, for a run in which every task reads from the start of a sector. *)
Definition takes_read (y : system) : bool :=
  match task_head (w_super (sys_world y)) with mk_task (CYANFS_TASK_READ off _ _) _ :: _ => off mod 512 =? 0 | _ => false end.

Fixpoint sys_reads (n : nat) (y : system) : option system :=
  match n with
  | O => Some y
  | S n => bug_on (negb (takes_read y));; y ← sys_step ST_OK y; sys_reads n y
  end.

Lemma sys_reads_run n y y' : sys_reads n y = Some y' → sys_run n y = Some y'.
Proof.
  revert y. induction n as [|n IH]; intros y; [done|]. cbn [sys_reads sys_run]. destruct (takes_read y); [|done]. cbn [negb bug_on mbind option_bind].
  destruct (sys_step ST_OK y) as [y1|]; [|done]. apply IH.
Qed.

Lemma sys_reads_S n y y1 : takes_read y = true → sys_step ST_OK y = Some y1 → sys_reads (S n) y = sys_reads n y1.
Proof. intros Hr Hs. cbn [sys_reads]. by rewrite Hr, Hs. Qed.

(** A device formatted by [mkfs]: the super block, and zeroes. *)
Definition formatted (uuid : cyanfs_uuid_t) : disk := disk_write (λ _, 0) 0 (cyanfs_super_make uuid).

Definition boot (size : Z) (discard compact : bool) (d : disk) : option system :=
  w ← cyanfs_super_open size discard compact true []; Some (mk_system w d).
