(* ===== verification/Recovery.v ===== *)
(** * Recovery: opening an instance loads the journal of its device

    The serial executor of [System], run on an instance that was just opened,
    reads the super block and the pages of the journal, extent after extent,
    and stops with the instance ready in the state the journal describes, or
    marked failed when the device does not hold a journal. *)
From Stdlib Require Import ZArith Lia.
From S2P Require Import Prelude Disk Base Journal Spec Types Super SuperInv SuperOps Replay World JournalIO JournalRecord JournalLoad JournalScan LoaderSpec Discard Compact Flusher Api ApiSpec LoaderClients ReadWrite System.

(** ** The task queue of the load *)
Definition with_queue (q : list cyanfs_task) (n : Z) (w : world) : world :=
  upd_super (λ s, set_active_tasks n (set_task_head q s)) w.

Lemma with_queue_model q n w a : open_model w a → open_model (with_queue q n w) a.
Proof.
  intros (Hm & [[Hwe Hwn Hwi] Hr Ht Hp Hc] & Hfl & <-). split_and!; try done. split; try done. split; [|by apply Hwn|by apply Hwi].
  apply (wf_ext_files (w_super w) _ ∅ Hwe); try done; intros id f Hf; left; by exists f.
Qed.

(** What the device holds: the entries of its journal, the extents it fills
    and the place where it ends. *)
Definition disk_journal (size : Z) (d : disk) : option (cyanfs_super_header * list journal_body * scan_state) :=
  match cyanfs_super_parse (disk_read d 0 CYANFS_SUPER_BLOCK_SIZE) with
  | Some (inr h) =>
      let total := cyanfs_extent_from (u64 (size - CYANFS_SUPER_BLOCK_SIZE)) in
      let id := sh_journal_id h in
      let st := mk_scan id 0 (sh_journal_seq h) [id] in
      if may_follow total id [] then
        match scan (disk_extent d) (uuid_seed (sh_uuid h)) total cyanfs_extent_id_invalid (scan_fuel total st) st with
        | Some (Some (js, st)) => Some (h, js, st)
        | _ => None
        end
      else None
  | _ => None
  end.

(** The state it describes: that of the entries, with the extents of the
    journal claimed. *)
Definition disk_state (size : Z) (d : disk) : option (cyanfs_super_header * astate * scan_state) :=
  '(h, js, st) ← disk_journal size d;
  a ← spec_run (js ++ (J_NEXT <$> sc_ids st)) (a_init (cyanfs_extent_from (u64 (size - CYANFS_SUPER_BLOCK_SIZE))));
  Some (h, a, st).

(** An instance that finished loading. *)
Definition recovered (d : disk) (y : system) (r : option (cyanfs_super_header * astate * scan_state)) : Prop :=
  let s := w_super (sys_world y) in
  sys_disk y = d ∧ task_head s = [] ∧ active_tasks s = 0 ∧ w_opener (sys_world y) = None ∧
  match r with
  | Some (h, a, st) =>
      cyanfs_super_status s = ST_OK ∧ abs s = a ∧ wf s ∅ ∧ sm_uuid (s_meta s) = sh_uuid h ∧
      cur_extent_id (journal_cursor s) = sc_id st ∧ cur_extent_id_ondisk (journal_cursor s) = sc_id st ∧
      cur_extent_off (journal_cursor s) = sc_off st ∧ cur_seq (journal_cursor s) = sc_seq st
  | None => cyanfs_super_status s = ST_ERR ERR_IO
  end.

Section boot.
Context (size : Z) (d : disk) (Hsize : device_size_ok size) (Hd : disk_bytes d).
Local Notation total := (cyanfs_extent_from (u64 (size - CYANFS_SUPER_BLOCK_SIZE))).

Lemma total_range : 1 ≤ total ≤ CYANFS_EXTENT_COUNT_MAX.
Proof. destruct (device_total size Hsize) as [-> Hr]. change CYANFS_EXTENT_COUNT_MAX with 1073741824. lia. Qed.

Lemma disk_device : device_ok (disk_extent d) total.
Proof. pose proof total_range. split; [lia|]. intros id _. by apply disk_extent_ok. Qed.

(** A read of the journal page is the only task. *)
Definition page_task (st : scan_state) : cyanfs_task :=
  mk_task (CYANFS_TASK_READ (cyanfs_map_extent_offset (sc_id st) (sc_off st)) (page_len st) BUF_SUPER)
          (cyanfs_journal_loader_parser_page LOADER_OPEN).

Section load.
Context (hdr : cyanfs_super_header).
Local Notation at_scan := (at_scan LOADER_OPEN open_model hdr total cyanfs_extent_id_invalid).
Local Notation at_error := (at_error LOADER_OPEN total).
Local Notation scan := (scan (disk_extent d) (uuid_seed (sh_uuid hdr)) total cyanfs_extent_id_invalid).

Lemma at_scan_queue q n q' n' w st a : at_scan q n w st a → at_scan q' n' (with_queue q' n' w) st a.
Proof.
  intros [HM Hl (c & Hk & Hc) Hok]. split; [by apply with_queue_model|done| |done].
  exists c. split; [|done]. unfold kept in *. injection Hk as Hc' Ht' _ _. cbn in Hc' |- *. by rewrite Hc', Ht'.
Qed.

(** [cyanfs_journal_loader_read_page], then the end of [cyanfs_super_task_done]. *)
Lemma read_page_pending w st a :
  at_scan [] 1 w st a →
  ∃ w', (w ← cyanfs_journal_loader_read_page LOADER_OPEN w; on_super task_retire w) = Some w' ∧ at_scan [page_task st] 0 w' st a.
Proof.
  intros Ha. destruct (at_kept _ _ _ _ _ _ _ _ _ _ Ha) as (c & Hk & Hi & Ho & _).
  destruct (so_off _ _ (at_ok _ _ _ _ _ _ _ _ _ _ Ha)) as [Hr _]. unfold cyanfs_journal_loader_read_page.
  rewrite (kept_cursor _ _ _ _ _ _ Hk). cbn [mbind option_bind]. rewrite Hi, Ho.
  set (t := mk_task _ _). assert (t = page_task st) as ->.
  { unfold t, page_task. do 2 f_equal. unfold page_len. jconsts. rewrite u64_small by lia. case_bool; lia. }
  eexists. split; [|exact (at_scan_queue [] 1 [page_task st] 0 w st a Ha)].
  unfold kept in Hk. injection Hk as _ _ Hq Hn. unfold on_super, task_retire, task_add_tail, upd_super, cyanfs_super_task_add_tail.
  cbn [w_super set_w_super active_tasks set_task_head]. rewrite Hn, Hq. reflexivity.
Qed.

Lemma offset_sector b off :
  0 ≤ b < CYANFS_EXTENT_COUNT_MAX → off mod CYANFS_JOURNAL_BLOCK_SIZE = 0 → cyanfs_map_extent_offset b off mod 512 = 0.
Proof using Type.
  change CYANFS_EXTENT_COUNT_MAX with 1073741824. change CYANFS_JOURNAL_BLOCK_SIZE with 512. intros Hb Ho. rewrite map_extent_offset_eq by lia.
  assert (Hm : (off mod 1048576) mod 512 = 0) by (rewrite <- Znumtheory.Zmod_div_mod; [done|lia|lia|by exists 2048]).
  rewrite (Zplus_mod (8192 + 1048576 * b)), Hm. rewrite (Zplus_mod 8192), (Zmult_mod 1048576). done.
Qed.

(** The executor takes the read, and its completion finds the page. *)
Lemma step_read w b_off len dn q :
  task_head (w_super w) = mk_task (CYANFS_TASK_READ b_off len BUF_SUPER) dn :: q → active_tasks (w_super w) = 0 →
  sys_step ST_OK (mk_system w d) =
  w' ← cyanfs_super_task_done (mk_task (CYANFS_TASK_READ b_off len BUF_SUPER) dn) ST_OK
         (upd_cursor_of BUF_SUPER (λ c, set_cur_page (disk_read d b_off len ++ drop (Z.to_nat len) (cur_page c)) c) (with_queue q 1 w));
  Some (mk_system w' d).
Proof.
  intros Hq Hn. unfold sys_step, cyanfs_super_get_task. cbn [sys_world sys_disk]. rewrite Hq, Hn. reflexivity.
Qed.

(** The result of a load, from what is left of the journal. *)
Definition claimed (r : option (astate * scan_state)) : option (cyanfs_super_header * astate * scan_state) :=
  '(a, st) ← r; a ← spec_run (J_NEXT <$> sc_ids st) a; Some (hdr, a, st).

Lemma open_error_end w c :
  kept LOADER_OPEN w = (Some c, total, [], 1) →
  ∃ w', (w ← cyanfs_super_open_error w; on_super task_retire w) = Some w' ∧ recovered d (mk_system w' d) None.
Proof.
  intros Hk. unfold kept in Hk. injection Hk as _ _ Hq Hn. cbn [cyanfs_super_open_error mbind option_bind].
  unfold on_super, task_retire, upd_super. cbn. rewrite Hn. eexists. split; [done|]. unfold recovered. cbn. split_and!; try done.
  unfold cyanfs_super_status, __cyanfs_super_ensure_status.
  assert (∀ n, has_flag (set_active_tasks n (cyanfs_super_mark_error (w_super w))) CYANFS_SUPER_FLAG_ERROR = true) as ->; [|done].
  intros n'. change (has_flag (cyanfs_super_mark_error (w_super w)) CYANFS_SUPER_FLAG_ERROR = true).
  unfold cyanfs_super_mark_error, __cyanfs_super_mark_error. rewrite has_flag_add. by rewrite orb_true_r.
Qed.

Lemma open_error_retire w :
  at_error [] 1 w →
  ∃ w', (w ← cyanfs_journal_loader_end LOADER_OPEN open_loader_ops true w; on_super task_retire w) = Some w' ∧
    recovered d (mk_system w' d) None.
Proof.
  intros [Hl (c & Hk)]. destruct (loader_end_error LOADER_OPEN open_loader_ops w Hl) as (w1 & -> & Hk1).
  rewrite Hk in Hk1. by eapply open_error_end.
Qed.

Lemma open_finish_end w c a t st :
  open_model w a → w_opener w = Some t → ld_header t = hdr → kept LOADER_OPEN w = (Some c, total, [], 1) →
  cur_extent_id c = sc_id st ∧ cur_extent_off c = sc_off st ∧ cur_seq c = sc_seq st →
  ∃ w', (w ← cyanfs_super_open_finish w; on_super task_retire w) = Some w' ∧ recovered d (mk_system w' d) (Some (hdr, a, st)).
Proof.
  intros (Hm & Hrp & Hfl & <-) Ht Hh Hk (Hi & Ho & Hs). unfold kept in Hk. injection Hk as Hc _ Hq Hn.
  unfold cyanfs_super_open_finish. rewrite Ht. cbn [mbind option_bind]. rewrite Hh.
  set (s := upd_meta _ (upd_cursor _ (add_flag CYANFS_SUPER_FLAG_READY (w_super w)))).
  exists (set_w_opener None (set_w_super (set_active_tasks 0 s) w)). split.
  { unfold on_super, task_retire. cbn [w_super set_w_opener set_w_super]. change (active_tasks s) with (active_tasks (w_super w)).
    rewrite Hn. reflexivity. }
  unfold recovered. cbn [sys_disk sys_world w_super w_opener set_w_opener set_w_super]. split_and!; try done.
  - apply ensure_status_ok. split.
    + change (has_flag (set_active_tasks 0 s) ?f) with (has_flag (add_flag CYANFS_SUPER_FLAG_READY (w_super w)) f). by rewrite has_flag_add, Hfl.
    + change (has_flag (set_active_tasks 0 s) ?f) with (has_flag (add_flag CYANFS_SUPER_FLAG_READY (w_super w)) f).
      rewrite has_flag_add. by rewrite orb_true_r.
  - destruct (rp_wf _ Hrp) as [Hwe Hwn Hwi]. split; [|by apply Hwn|by apply Hwi].
    apply (wf_ext_files (w_super w) _ ∅ Hwe); try done; intros id f Hf; left; by exists f.
  - cbn in Hc |- *. by rewrite Hc.
  - cbn in Hc |- *. by rewrite Hc.
  - cbn in Hc |- *. by rewrite Hc.
  - cbn in Hc |- *. by rewrite Hc.
Qed.

Lemma open_finish_retire w st a :
  at_scan [] 1 w st a →
  ∃ w', (w ← cyanfs_journal_loader_end LOADER_OPEN open_loader_ops false w; on_super task_retire w) = Some w' ∧
    recovered d (mk_system w' d) (claimed (Some (a, st))).
Proof.
  intros [HM (t & Ht & Hh & _ & _ & _ & Hj) (c & Hk & Hc) Hok].
  assert (Hsets : Forall (Forall is_u32) (ld_journals t)).
  { apply Forall_forall. intros ids Hin. apply Forall_forall. intros id Hid.
    assert (Hi : id ∈ sc_ids st) by (rewrite <- Hj; apply list_elem_of_join; eauto).
    pose proof (so_total _ _ Hok id Hi). pose proof total_range. change CYANFS_EXTENT_COUNT_MAX with 1073741824 in *.
    unfold is_u32, U32_MAX. lia. }
  destruct (loader_end_model LOADER_OPEN open_loader_ops open_model t w a HM Ht Hsets) as (w1 & Hk1 & He).
  rewrite Hj in He. rewrite Hk in Hk1. unfold claimed. cbn [mbind option_bind].
  destruct (spec_run (J_NEXT <$> sc_ids st) a) as [a'|]; cbn [mbind option_bind].
  - destruct He as (-> & HM1 & Hl1). by apply (open_finish_end w1 c a' _ st HM1 Hl1).
  - rewrite He. by apply (open_error_end w1 c).
Qed.

(** The pages are read until the journal ends. *)
Lemma load_pages k w st a r :
  at_scan [page_task st] 0 w st a → scan k st = Some r →
  ∃ m y, sys_reads m (mk_system w d) = Some y ∧ recovered d y (claimed (scan_result r a)).
Proof.
  revert w st a r. induction (lt_wf k) as [k _ IH]. intros w st a r Ha Hs.
  destruct (at_kept _ _ _ _ _ _ _ _ _ _ Ha) as (c & Hk & _). pose proof (at_ok _ _ _ _ _ _ _ _ _ _ Ha) as Hok.
  unfold kept in Hk. injection Hk as Hc _ Hq Hn.
  set (len := page_len st). set (b_off := cyanfs_map_extent_offset (sc_id st) (sc_off st)).
  set (g := λ c, set_cur_page (disk_read d b_off len ++ drop (Z.to_nat len) (cur_page c)) c).
  set (w1 := upd_cursor_of BUF_SUPER g (with_queue [] 1 w)).
  assert (Ha1 : at_scan [] 1 w1 st a).
  { apply (at_scan_move LOADER_OPEN open_loader_ops _ _ _ _ _ _ _ st st); try done. by eapply at_scan_queue. }
  pose proof (so_id _ _ Hok) as Hid. destruct (so_off _ _ Hok) as [Ho _]. pose proof total_range as Htr.
  assert (Hlen : 0 ≤ len ∧ sc_off st + len ≤ CYANFS_EXTENT_SIZE) by (unfold len, page_len; jconsts; lia).
  assert (Hpg : take (Z.to_nat len) (cur_page (g c)) = take (Z.to_nat len) (rest_of (disk_extent d) st)).
  { cbn. rewrite take_app_length' by (by rewrite length_disk_read). apply disk_extent_read; lia. }
  assert (Hk1 : kept LOADER_OPEN w1 = (Some (g c), total, [], 1)).
  { apply (kept_upd_cursor LOADER_OPEN g (with_queue [] 1 w) c). destruct (at_kept _ _ _ _ _ _ _ _ _ _ Ha) as (c' & Hk' & _).
    unfold kept in *. injection Hk' as Hc' Ht' _ _. cbn in *. by rewrite Hc, Ht'. }
  pose proof (page_done_scan LOADER_OPEN open_loader_ops open_model (disk_extent d) hdr total _ [] 1
    disk_device w1 st a k r (g c) Ha1 Hk1 Hpg Hs) as Hout. fold len in Hout.
  pose proof (step_read w b_off len _ [] Hq Hn) as Hstep. fold g in Hstep. fold w1 in Hstep.
  unfold cyanfs_super_task_done, task_done in Hstep. cbn [t_done t_type loader_ops read_len] in Hstep.
  assert (Hrd : takes_read (mk_system w d) = true).
  { unfold takes_read. cbn [sys_world]. rewrite Hq. apply Z.eqb_eq. fold b_off. unfold b_off. destruct (so_off _ _ Hok) as [_ Hal].
    apply offset_sector; [|exact Hal]. split; [apply Hid|]. eapply Z.lt_le_trans; [apply Hid|apply Htr]. }
  inversion Hout as [w2 He Hr Hx|w2 st' a' Ha' Hr Hx|w2 st' a' k' r' Ha' Hs' Hlt Hr Hx].
  - destruct (open_error_retire w2 He) as (w3 & E & Hrec). exists 1%nat, (mk_system w3 d). cbn [sys_reads].
    rewrite Hrd. cbn [negb bug_on mbind option_bind]. rewrite Hstep, Hr. rewrite <- Hx, E. done.
  - destruct (open_finish_retire w2 st' a' Ha') as (w3 & E & Hrec). exists 1%nat, (mk_system w3 d). cbn [sys_reads].
    rewrite Hrd. cbn [negb bug_on mbind option_bind]. rewrite Hstep, Hr. rewrite <- Hx, E. done.
  - destruct (read_page_pending w2 st' a' Ha') as (w3 & E & Ha3).
    destruct (IH k' Hlt w3 st' a' r' Ha3 Hs') as (m & y & Hm & Hrec). exists (S m), y. cbn [sys_reads].
    rewrite Hrd. cbn [negb bug_on mbind option_bind]. rewrite Hstep, Hr. rewrite <- Hx, E. done.
Qed.
End load.

Lemma malloc_nodes_ok n w : w_malloc w = [] → malloc_nodes n w = (true, w).
Proof. intros Hm. induction n as [|n IH]; [done|]. cbn [malloc_nodes]. unfold cyanfs_malloc. by rewrite Hm. Qed.

(** The instance that [cyanfs_super_open] returns: the super block is to be
    read. *)
Definition opened (discard compact : bool) : world :=
  cyanfs_journal_loader_start LOADER_OPEN
    (mk_world (init_super size discard compact) ∅ 0 (Some (cyanfs_journal_loader_init cyanfs_extent_id_invalid)) None []).

Lemma boot_opened discard compact : boot size discard compact d = Some (mk_system (opened discard compact) d).
Proof.
  unfold boot, cyanfs_super_open. destruct Hsize as [H1 H2].
  change CYANFS_SUPER_BLOCK_SIZE with 8192 in *. change CYANFS_EXTENT_SIZE with 1048576 in *.
  change CYANFS_FILE_MAX_SIZE with 1125899906842624 in *.
  destruct (Z.ltb_spec size (8192 + 1048576)); [lia|]. rewrite u64_small by lia.
  destruct (Z.ltb_spec 1125899906842624 (size - 8192)); [lia|]. cbn [orb cyanfs_malloc w_malloc negb].
  rewrite malloc_nodes_ok by done. reflexivity.
Qed.

Lemma opened_model discard compact q n : open_model (with_queue q n (opened discard compact)) (a_init total).
Proof.
  apply with_queue_model. change (opened discard compact) with (with_queue
    [mk_task (CYANFS_TASK_READ 0 CYANFS_SUPER_BLOCK_SIZE BUF_SUPER) (cyanfs_journal_loader_parser_header LOADER_OPEN)] 0
    (mk_world (init_super size discard compact) ∅ 0 (Some (cyanfs_journal_loader_init cyanfs_extent_id_invalid)) None [])).
  apply with_queue_model. split_and!; [done|by apply init_super_replaying| |].
  - by destruct discard, compact.
  - unfold init_super. apply abs_blank_super.
Qed.

(** The executor reads the super block. *)
Lemma first_step discard compact :
  let w1 := upd_cursor_of BUF_SUPER
    (λ c, set_cur_page (disk_read d 0 CYANFS_SUPER_BLOCK_SIZE ++ drop (Z.to_nat CYANFS_SUPER_BLOCK_SIZE) (cur_page c)) c)
    (with_queue [] 1 (opened discard compact)) in
  ∃ c, sys_step ST_OK (mk_system (opened discard compact) d) =
    (w' ← (w ← cyanfs_journal_loader_parser_header_done LOADER_OPEN open_loader_ops ST_OK w1; on_super task_retire w);
     Some (mk_system w' d)) ∧
  open_model w1 (a_init total) ∧ get_loader LOADER_OPEN w1 = Some (cyanfs_journal_loader_init cyanfs_extent_id_invalid) ∧
  kept LOADER_OPEN w1 = (Some c, total, [], 1) ∧ cur_extent_id c = 0 ∧ cur_extent_off c = 0 ∧
  cyanfs_super_parse (cur_page c) = cyanfs_super_parse (disk_read d 0 CYANFS_SUPER_BLOCK_SIZE).
Proof.
  cbn zeta. eexists. split_and!.
  - rewrite (step_read _ 0 CYANFS_SUPER_BLOCK_SIZE (cyanfs_journal_loader_parser_header LOADER_OPEN) []).
    + unfold cyanfs_super_task_done, task_done. cbn [t_done loader_ops]. reflexivity.
    + unfold opened. cbn [cyanfs_journal_loader_start task_add_tail upd_super cyanfs_super_task_add_tail w_super set_w_super task_head set_task_head].
      unfold init_super, blank_super. cbn [task_head]. reflexivity.
    + unfold opened. cbn [cyanfs_journal_loader_start task_add_tail upd_super cyanfs_super_task_add_tail w_super set_w_super active_tasks set_task_head].
      unfold init_super, blank_super. cbn [active_tasks]. reflexivity.
  - apply (cursor_model (l := LOADER_OPEN)), opened_model.
  - done.
  - by apply (kept_upd_cursor LOADER_OPEN _ _ init_cursor).
  - done.
  - done.
  - cbn [cur_page set_cur_page]. apply super_parse_prefix. rewrite length_disk_read. done.
Qed.

Lemma opened_reads discard compact : takes_read (mk_system (opened discard compact) d) = true.
Proof.
  unfold takes_read, opened.
  cbn [sys_world cyanfs_journal_loader_start task_add_tail upd_super cyanfs_super_task_add_tail w_super set_w_super task_head set_task_head].
  unfold init_super, blank_super. cbn [task_head]. reflexivity.
Qed.

Lemma boot_disk discard compact :
  ∃ m y, (y ← boot size discard compact d; sys_reads m y) = Some y ∧ recovered d y (disk_state size d).
Proof.
  rewrite boot_opened. cbn [mbind option_bind].
  destruct (first_step discard compact) as (c & Hstep & HM & Hl & Hk & Hi & Ho & Hp).
  set (w1 := upd_cursor_of _ _ _) in *. clearbody w1. set (y0 := mk_system (opened discard compact) d) in *.
  pose proof (opened_reads discard compact : takes_read y0 = true) as Hrd. clearbody y0.
  assert (Hpr : ∃ r, cyanfs_super_parse (cur_page c) = Some r ∧
    ∀ h, r = inr h → is_u32 (sh_journal_id h) ∧ is_u64 (sh_journal_seq h)).
  { rewrite Hp. change CYANFS_SUPER_BLOCK_SIZE with (4096 + 4096). rewrite disk_read_split by done.
    apply super_parse_sound; (split; [apply length_disk_read|by apply disk_read_bytes]). }
  destruct Hpr as (r & Er & Hr). unfold disk_state, disk_journal. rewrite <- Hp, Er. clear Hp.
  destruct r as [e|h].
  - pose proof (header_done_bad LOADER_OPEN open_loader_ops total [] 1 w1 c e ltac:(eauto) Hk Er) as Hh.
    destruct (open_error_retire w1) as (w2 & E & Hrec); [split; eauto|].
    exists 1%nat, (mk_system w2 d). rewrite (sys_reads_S 0 y0 (mk_system w2 d) Hrd); [done|]. rewrite Hstep, Hh, E. done.
  - destruct (Hr h eq_refl) as [[Hid0 _] Hsq]. pose proof total_range as Htr.
    assert (Hok : scan_ok total (mk_scan (cur_extent_id c) (cur_extent_off c) (sh_journal_seq h) [])).
    { rewrite Hi, Ho. split; cbn [sc_id sc_off sc_seq sc_ids]; [by apply ex_cursor|exact Hsq|constructor|intros id Hin; by apply elem_of_nil in Hin|lia]. }
    destruct (header_done_scan LOADER_OPEN open_loader_ops open_model (disk_extent d) h total cyanfs_extent_id_invalid [] 1
      disk_device w1 (a_init total) _ c HM Hl eq_refl eq_refl eq_refl Hk Er Hok Hid0 eq_refl) as (w2 & Hw2). cbn zeta.
    destruct (may_follow total (sh_journal_id h) []).
    + destruct Hw2 as [Hh Ha]. destruct (read_page_pending h w2 _ _ Ha) as (w3 & E & Ha3).
      set (st := mk_scan (sh_journal_id h) 0 (sh_journal_seq h) [sh_journal_id h]) in *.
      pose proof (at_ok _ _ _ _ _ _ _ _ _ _ Ha) as Hst.
      destruct (scan_total (disk_extent d) (uuid_seed (sh_uuid h)) total cyanfs_extent_id_invalid disk_device (scan_fuel total st) st Hst)
        as [r Hscan]; [done| |].
      { unfold scan_fuel, st. cbn [sc_ids sc_off length]. change (0 / 512) with 0. lia. }
      destruct (load_pages h (scan_fuel total st) w3 st _ r Ha3 Hscan) as (m & y & Hm & Hrec).
      exists (S m), y. rewrite (sys_reads_S m y0 (mk_system w3 d) Hrd) by (rewrite Hstep, Hh, E; done). split; [done|]. rewrite Hscan.
      unfold claimed, scan_result in Hrec. destruct r as [[js st']|]; cbn [mbind option_bind] in *; [|done].
      rewrite spec_run_app. destruct (spec_run js (a_init total)) as [a1|]; cbn [mbind option_bind] in *; [|done].
      by destruct (spec_run (J_NEXT <$> sc_ids st') a1).
    + destruct Hw2 as [Hh Hae]. destruct (open_error_retire w2 Hae) as (w3 & E & Hrec).
      exists 1%nat, (mk_system w3 d). rewrite (sys_reads_S 0 y0 (mk_system w3 d) Hrd); [done|]. rewrite Hstep, Hh, E. done.
Qed.

(** The instance and its run. *)
Lemma open_reads discard compact :
  ∃ w m y, cyanfs_super_open size discard compact true [] = Some w ∧ sys_reads m (mk_system w d) = Some y ∧ recovered d y (disk_state size d).
Proof.
  destruct (boot_disk discard compact) as (m & y & Hy & Hrec). revert Hy. unfold boot.
  generalize (cyanfs_super_open size discard compact true []). intros [w|] Hy; [|discriminate Hy].
  exists w, m, y. split; [reflexivity|]. split; [exact Hy|exact Hrec].
Qed.
End boot.

(** C1: opening an instance recovers its journal, whatever the device holds.
    For every device of an admissible size, the executor run on an instance
    that was just opened stops after finitely many tasks, without aborting.
    If the device holds a super block and a journal (records that follow each
    other, page after page and extent after extent, and end at the first thing
    that is not the next record) whose entries describe a file system, then the
    instance is ready with exactly that state, the extents that were followed
    belong to the journal, and the cursor stands where the journal ends;
    otherwise the instance is marked failed. *)
Theorem open_recovers_journal size discard compact d :
  device_size_ok size → disk_bytes d →
  ∃ m y, (y ← boot size discard compact d; sys_run m y) = Some y ∧ recovered d y (disk_state size d).
Proof.
  intros Hs Hd. destruct (boot_disk size d Hs Hd discard compact) as (m & y & Hy & Hrec). exists m, y. split; [|exact Hrec].
  destruct (boot size discard compact d); [|discriminate Hy]. exact (sys_reads_run _ _ _ Hy).
Qed.

Lemma formatted_bytes uuid : Forall is_byte (cyanfs_super_make uuid) → disk_bytes (formatted uuid).
Proof. intros Hb. by apply disk_write_bytes. Qed.

Lemma open_recovers_journal_witness :
  ∃ m y, (y ← boot ex_size true true (formatted ex_uuid); sys_run m y) = Some y ∧
    recovered (formatted ex_uuid) y (disk_state ex_size (formatted ex_uuid)).
Proof.
  apply (open_recovers_journal ex_size true true (formatted ex_uuid)); [exact ex_size_ok|].
  apply formatted_bytes, (bool_decide_unpack _). vm_compute. exact I.
Defined.
