(* ===== verification/FlushLive.v ===== *)
(** * FlushLive: a flush puts the journal on the device

    The serial executor of [System], run after [cyanfs_super_flush] on an
    instance with entries in [journal_head], writes all of them, record after
    record, at the place where the journal of the device ends; an instance
    opened on the device from then on reads them back. *)
From Stdlib Require Import ZArith Lia.
From S2P Require Import Prelude Disk Base Journal Spec Types Super SuperInv SuperOps Replay World JournalIO JournalRecord JournalLoad JournalScan JournalLog Discard DiscardSpec Compact Flusher FlusherSpec WriterSpec Api ApiSpec ReadWrite System Recovery.

(** ** Steps that leave the journal alone *)

(** What the writer of flusher [t] relies on, and the memory. *)
Record journal_idle (t : Z) (w w' : world) : Prop := {
  ji_view : jview_same w w';
  ji_error : has_flag (w_super w') CYANFS_SUPER_FLAG_ERROR = has_flag (w_super w) CYANFS_SUPER_FLAG_ERROR;
  ji_free : free_extents (w_super w') = free_extents (w_super w);
  ji_malloc : w_malloc w' = w_malloc w;
  ji_writer : fl_writer <$> w_flushers w' !! t = fl_writer <$> w_flushers w !! t }.

Lemma idle_refl t w : journal_idle t w w.
Proof. done. Qed.

Lemma idle_trans t w1 w2 w3 : journal_idle t w1 w2 → journal_idle t w2 w3 → journal_idle t w1 w3.
Proof.
  intros [(? & ? & ? & ?) ? ? ? ?] [(? & ? & ? & ?) ? ? ? ?]. split; [split_and!|..]; congruence.
Qed.

Lemma idle_flag t f w : Z.land f CYANFS_SUPER_FLAG_ERROR = 0 → journal_idle t w (upd_super (add_flag f) w).
Proof.
  intros Hf. split; try done. cbn [w_super upd_super set_w_super]. rewrite has_flag_add, Hf. by rewrite orb_false_r.
Qed.

Lemma writing_idle t head w w' : writing t head w → winv w' → journal_idle t w w' → writing t head w'.
Proof.
  intros [_ He (f & Hf & Hw) Hr Hen] Hi [_ Her _ _ Hwr]. split; [done|by rewrite Her| |done|done].
  rewrite Hf in Hwr. destruct (w_flushers w' !! t) as [f'|]; [|done]. injection Hwr as Hwr. exists f'. by rewrite Hwr.
Qed.

(** While there is memory, [cyanfs_super_compact] only marks the instance and
    queues the read of the super block. *)
Lemma compact_start_idle t w :
  w_malloc w = [] → ∃ st w', cyanfs_super_compact w = Some (st, w') ∧ journal_idle t w w' ∧
    active_tasks (w_super w') = active_tasks (w_super w) ∧ task_head (w_super w) `prefix_of` task_head (w_super w').
Proof.
  intros Hm. unfold cyanfs_super_compact. destruct (failed _); [by eexists _, _|]. destruct (negb _); [by eexists _, _|].
  destruct (has_flag _ _); [by eexists _, _|]. set (w0 := upd_super _ w). assert (Hm0 : w_malloc w0 = []) by done.
  unfold cyanfs_malloc. rewrite Hm0. cbn [negb]. rewrite Hm0. cbn [negb]. cbv zeta. rewrite malloc_nodes_ok by done. cbn [negb].
  eexists _, _. split; [done|]. split_and!; [|done|by exists [mk_task (CYANFS_TASK_READ 0 CYANFS_SUPER_BLOCK_SIZE BUF_COMPACT) (cyanfs_journal_loader_parser_header LOADER_COMPACT)]].
  apply (idle_trans _ _ w0); [by apply idle_flag|done].
Qed.

Lemma write_finish_idle t w :
  w_malloc w = [] → is_Some (w_flushers w !! t) →
  ∃ w', cyanfs_super_flusher_write_finish t w = Some w' ∧ journal_idle t w w' ∧
    active_tasks (w_super w') = active_tasks (w_super w) ∧ task_head (w_super w) `prefix_of` task_head (w_super w').
Proof.
  intros Hm [f Hf]. unfold cyanfs_super_flusher_write_finish, get_flusher. rewrite Hf. cbn [mbind option_bind]. cbv zeta.
  set (w1 := if _ : bool then upd_super (add_flag CYANFS_SUPER_FLAG_FLUSH) w else w).
  assert (H1 : journal_idle t w w1 ∧ active_tasks (w_super w1) = active_tasks (w_super w) ∧ task_head (w_super w1) = task_head (w_super w)).
  { subst w1. destruct (_ || _); (split_and!; [|done|done]); [by apply idle_flag|apply idle_refl]. }
  destruct H1 as (H1 & Ha & Hq). clearbody w1. destruct (_ && _); [|by exists w1; rewrite Hq].
  destruct (compact_start_idle t w1) as (st & w' & -> & Hi & Ha' & Hp); [by rewrite (ji_malloc _ _ _ H1)|]. cbn [mbind option_bind].
  exists w'. rewrite Hq in Hp. split_and!; [done|by apply (idle_trans _ _ w1)|congruence|done].
Qed.

(** ** The tasks of a turn *)

(** The executor takes the first task of an otherwise idle instance. *)
Lemma step_take ty dn q w d :
  task_head (w_super w) = mk_task ty dn :: q → active_tasks (w_super w) = 0 →
  sys_step ST_OK (mk_system w d) =
  ('(d, w) ← device_io ty d (with_queue q 1 w); w ← cyanfs_super_task_done (mk_task ty dn) ST_OK w; Some (mk_system w d)).
Proof. intros Hq Hn. unfold sys_step, cyanfs_super_get_task. cbn [sys_world sys_disk]. rewrite Hq, Hn. reflexivity. Qed.

Lemma with_queue_winv q n w : winv w → winv (with_queue q n w).
Proof. intros Hi. by apply (winv_core w). Qed.

Lemma retire_queue w : active_tasks (w_super w) = 1 → on_super task_retire w = Some (with_queue (task_head (w_super w)) 0 w).
Proof. intros Hn. unfold on_super, task_retire. rewrite Hn. cbn. by destruct w as [[] ? ? ? ? ?]. Qed.

Lemma take_flush_idle t f w : w_flushers w !! t = Some f → journal_idle t w (take_flush_extents t f w).
Proof.
  intros Hf. unfold take_flush_extents. destruct (_ && _); [|done]. split; try done.
  cbn. rewrite lookup_alter_eq, Hf. done.
Qed.

Definition flush_task (t : Z) : cyanfs_task := mk_task CYANFS_TASK_FLUSH (cyanfs_super_flusher_before_write_flush_done t).

Lemma before_write_flush_idle t head w :
  writing t head w → ∃ w', cyanfs_super_flusher_before_write_flush_fn t w = Some w' ∧ writing t head w' ∧ journal_idle t w w' ∧
    active_tasks (w_super w') = active_tasks (w_super w) ∧ task_head (w_super w') = flush_task t :: task_head (w_super w).
Proof.
  intros Hw. destruct (wg_flusher _ _ _ Hw) as (f & Hf & _).
  destruct (before_write_flush_ok t w (wg_inv _ _ _ Hw) ltac:(eauto)) as (w1 & E & Hfd). exists w1. split; [done|].
  unfold cyanfs_super_flusher_before_write_flush_fn, get_flusher in E. rewrite Hf, (wg_error _ _ _ Hw) in E. cbn [mbind option_bind] in E.
  assert (H1 : journal_idle t w w1 ∧ active_tasks (w_super w1) = active_tasks (w_super w) ∧ task_head (w_super w1) = flush_task t :: task_head (w_super w)).
  { injection E as <-. split; [destruct (take_flush_idle t f w Hf); by split|]. unfold take_flush_extents. by destruct (_ && _). }
  destruct H1 as (Hi & Ha & Hq). split_and!; [|done..]. by apply (writing_idle t head w); [|apply Hfd|].
Qed.

Lemma take_writing t head q n w : writing t head w → writing t head (with_queue q n w).
Proof. intros Hw. by apply (writing_idle t head w); [|apply with_queue_winv, Hw|]. Qed.

(** The flush asked for before a write: two tasks, and the write is next. *)
Lemma flush_steps t tk q head w d :
  writing t head w → active_tasks (w_super w) = 0 →
  task_head (w_super w) = mk_task CYANFS_TASK_NOP (cyanfs_super_flusher_before_write_flush t) :: tk :: q →
  ∃ w', sys_run 2 (mk_system w d) = Some (mk_system w' d) ∧ writing t head w' ∧ journal_idle t w w' ∧
    active_tasks (w_super w') = 0 ∧ task_head (w_super w') = tk :: q.
Proof.
  intros Hw Ha Hq. cbn [sys_run]. rewrite (step_take _ _ _ _ _ Hq Ha). cbn [device_io mbind option_bind].
  destruct (before_write_flush_idle t head _ (take_writing t head (tk :: q) 1 w Hw)) as (w1 & E & Hw1 & Hi1 & Ha1 & Hq1).
  unfold cyanfs_super_task_done at 1, task_done. cbn [t_done]. rewrite E. cbn [mbind option_bind]. rewrite retire_queue by done.
  cbn [mbind option_bind]. rewrite Hq1. set (w2 := with_queue _ 0 w1).
  assert (Hw2 : writing t head w2) by (by apply take_writing).
  rewrite (step_take CYANFS_TASK_FLUSH _ (tk :: q) w2) by done. cbn [device_io mbind option_bind].
  set (w3 := with_queue (tk :: q) 1 w2). assert (Hw3 : writing t head w3) by (by apply take_writing).
  destruct (wg_flusher _ _ _ Hw3) as (f & Hf & _).
  unfold cyanfs_super_task_done, task_done. cbn [t_done]. unfold cyanfs_super_flusher_before_write_flush_done_fn, get_flusher.
  rewrite Hf. cbn [mbind option_bind failed]. rewrite (wg_error _ _ _ Hw3), retire_queue by done. cbn [mbind option_bind].
  eexists. split; [done|]. split_and!; [by apply take_writing|by destruct Hi1|done|done].
Qed.

(** ** The writes *)

(** What the turns of the writer keep of the device. *)
Record same_device (d d' : disk) : Prop := {
  sd_super : disk_read d' 0 CYANFS_SUPER_BLOCK_SIZE = disk_read d 0 CYANFS_SUPER_BLOCK_SIZE;
  sd_bytes : disk_bytes d → disk_bytes d' }.

Lemma disk_turn_device w d st p :
  0 ≤ sc_id st < CYANFS_EXTENT_COUNT_MAX → Forall is_byte (cur_page (journal_cursor (w_super w))) → same_device d (disk_turn w d st p).
Proof.
  change CYANFS_EXTENT_COUNT_MAX with 1073741824. intros Hi Hb. split.
  - apply disk_read_ext; [|done]. intros x Hx. apply disk_write_out. left. rewrite map_extent_offset_eq by lia.
    pose proof (Z.mod_pos_bound (sc_off st) 1048576). change CYANFS_SUPER_BLOCK_SIZE with 8192 in Hx. lia.
  - intros Hd. apply disk_write_bytes; [done|]. by apply Forall_take.
Qed.

Lemma write_step t st p q w d :
  task_head (w_super w) = write_task t st p :: q → active_tasks (w_super w) = 0 →
  sys_step ST_OK (mk_system w d) =
  w' ← cyanfs_journal_writer_encode_done (WRITER_FLUSHER t) (flusher_writer_ops t) ST_OK (with_queue q 1 w);
  w' ← on_super task_retire w'; Some (mk_system w' (disk_turn w d st p)).
Proof.
  intros Hq Ha. rewrite (step_take _ _ _ _ _ Hq Ha). cbn [device_io get_cursor mbind option_bind].
  unfold cyanfs_super_task_done, task_done. cbn [t_done writer_ops]. by destruct (cyanfs_journal_writer_encode_done _ _ _ _).
Qed.

Lemma sys_run_app n m y : sys_run (n + m) y = y' ← sys_run n y; sys_run m y'.
Proof.
  revert y. induction n as [|n IH]; intros y; [done|]. cbn [sys_run Nat.add]. destruct (sys_step ST_OK y) as [y1|]; [|done]. apply IH.
Qed.

(** The completion function of the writer is about to run; [q] is queued. *)
Record at_turn (t : Z) (q : list cyanfs_task) (head : list cyanfs_journal_entry) (w : world) (d : disk)
    (st0 : scan_state) (es : list cyanfs_journal_entry) (st : scan_state) : Prop := {
  att_writing : writing t head w;
  att_active : active_tasks (w_super w) = 1;
  att_queue : task_head (w_super w) = q;
  att_malloc : w_malloc w = [];
  att_free : (length head ≤ size (free_extents (w_super w)))%nat;
  att_seq : sc_seq st + Z.of_nat (length head) ≤ U64_MAX - 65536;
  att_journal : journal_at w d st0 es st }.

(** The completion function of the writer and what follows it. *)
Definition turn_run (t : Z) (m : nat) (w : world) (d : disk) : option system :=
  w ← cyanfs_journal_writer_encode_done (WRITER_FLUSHER t) (flusher_writer_ops t) ST_OK w;
  w ← on_super task_retire w; sys_run m (mk_system w d).

(** The write of a record is the first task: its completion is the next turn. *)
Lemma write_turn t q p head w d st0 es st st' :
  writing t head w → active_tasks (w_super w) = 0 → task_head (w_super w) = write_task t st p :: q → w_malloc w = [] →
  (length head ≤ size (free_extents (w_super w)))%nat → sc_seq st' + Z.of_nat (length head) ≤ U64_MAX - 65536 →
  journal_at w (disk_turn w d st p) st0 es st' →
  ∃ w', at_turn t q head w' (disk_turn w d st p) st0 es st' ∧ same_volume w w' ∧
    ∀ m, sys_run (S m) (mk_system w d) = turn_run t m w' (disk_turn w d st p).
Proof.
  intros Hw Ha Hq Hm Hf Hs Hj. exists (with_queue q 1 w). split_and!; [|done|].
  - split; try done; [by apply take_writing|by apply (journal_at_same w)].
  - intros m. cbn [sys_run]. rewrite (write_step _ _ _ _ _ _ Hq Ha). unfold turn_run.
    destruct (cyanfs_journal_writer_encode_done _ _ _ _) as [w1|]; [|done]. cbn [mbind option_bind]. by destruct (on_super _ w1).
Qed.

(** One turn. *)
Lemma turn_next t q head w d st0 es st :
  at_turn t q head w d st0 es st → head ≠ [] →
  ∃ sel rest n w' d' st', head = sel ++ rest ∧ sel ≠ [] ∧ same_device d d' ∧ same_volume w w' ∧ at_turn t q rest w' d' st0 (es ++ sel) st' ∧
    ∀ m, turn_run t (n + m) w d = turn_run t m w' d'.
Proof.
  intros [Hw Ha Hq Hm Hf Hs Hj] Hne.
  assert (Hfree : free_extents (w_super w) ≠ ∅).
  { intros E. rewrite E, size_empty in Hf. destruct head; [done|simpl in Hf; lia]. }
  pose proof (turn_place _ _ _ _ _ Hj) as Hok.
  destruct (encode_turn t head w d st0 es st Hw Hne Hj ltac:(lia) Hfree) as (p & w1 & E & Hsp & Hsel & Ht).
  destruct Ht as [Hw1 Hq1 Ha1 Hm1 Hv1 Hf1 (st' & Hj1 & Hs1)]. rewrite Hq in Hq1.
  assert (Hlen : (length (rp_rest p) < length head)%nat ∧ length head = (length (rp_sel p) + length (rp_rest p))%nat).
  { rewrite Hsp, length_app. destruct (rp_sel p); [done|cbn]. lia. }
  set (w2 := with_queue (task_head (w_super w1)) 0 w1).
  assert (Hr : ∀ m, turn_run t m w d = sys_run m (mk_system w2 d)).
  { intros m. unfold turn_run. rewrite E. cbn [mbind option_bind]. rewrite retire_queue by congruence. done. }
  assert (Hreach : ∃ n w3, (∀ m, sys_run (n + m) (mk_system w2 d) = sys_run m (mk_system w3 d)) ∧ writing t (rp_rest p) w3 ∧
      journal_idle t w1 w3 ∧ active_tasks (w_super w3) = 0 ∧ task_head (w_super w3) = write_task t st p :: q).
  { destruct Hq1 as [Hq1|Hq1].
    - exists 0%nat, w2. split_and!; [done|by apply take_writing|done..].
    - destruct (flush_steps t (write_task t st p) q (rp_rest p) w2 d) as (w3 & Hrun & Hw3 & Hi3 & Ha3 & Hq3); [by apply take_writing|done|done|].
      exists 2%nat, w3. split_and!; [|done|by destruct Hi3|done|done]. intros m. rewrite sys_run_app, Hrun. done. }
  destruct Hreach as (n & w3 & Hn & Hw3 & [Hv3 _ Hf3 Hm3 _] & Ha3 & Hq3).
  assert (Hd3 : disk_turn w3 d st p = disk_turn w1 d st p) by (unfold disk_turn; by destruct Hv3 as (-> & _)).
  destruct (write_turn t q p (rp_rest p) w3 d st0 (es ++ rp_sel p) st st') as (w4 & Hat & Hv4 & Hrun); try done.
  - congruence.
  - rewrite Hf3. lia.
  - lia.
  - rewrite Hd3. by apply (journal_at_same w1).
  - exists (rp_sel p), (rp_rest p), (n + 1)%nat, w4, (disk_turn w3 d st p), st'. split_and!; try done.
    + rewrite Hd3. apply disk_turn_device; [|apply Hj1]. pose proof (so_id _ _ Hok).
      pose proof (we_total _ _ (wf_has_ext _ _ (wi_wf _ (wg_inv _ _ _ Hw)))). lia.
    + destruct Hv1, Hv3 as (_ & _ & ? & ?), Hv4. split; congruence.
    + intros m. rewrite Hr, <- Nat.add_assoc, Hn. apply Hrun.
Qed.

(** The entries are on the device; the tasks [q] are still queued. *)
Record landed (w : world) (d : disk) (q : list cyanfs_task) (st0 : scan_state) (es : list cyanfs_journal_entry) (st : scan_state) (y : system) : Prop := {
  ln_journal : journal_at (sys_world y) (sys_disk y) st0 es st;
  ln_device : same_device d (sys_disk y);
  ln_volume : same_volume w (sys_world y);
  ln_error : has_flag (w_super (sys_world y)) CYANFS_SUPER_FLAG_ERROR = false;
  ln_active : active_tasks (w_super (sys_world y)) = 0;
  ln_queue : q `prefix_of` task_head (w_super (sys_world y)) }.

Lemma same_device_trans d1 d2 d3 : same_device d1 d2 → same_device d2 d3 → same_device d1 d3.
Proof. intros [H1 H2] [H3 H4]. split; [congruence|auto]. Qed.

Lemma last_turn t q w d st0 es st : at_turn t q [] w d st0 es st → ∃ y, turn_run t 0 w d = Some y ∧ landed w d q st0 es st y.
Proof.
  intros [Hw Ha Hq Hm _ _ Hj]. destruct (wg_flusher _ _ _ Hw) as (f & Hf & Hfw).
  destruct (write_finish_idle t w Hm ltac:(eauto)) as (w1 & E & Hi & Ha1 & Hp).
  unfold turn_run, cyanfs_journal_writer_encode_done. rewrite (wg_error _ _ _ Hw). cbn [failed orb get_writer]. rewrite Hf.
  cbn [fmap option_fmap option_map mbind option_bind]. rewrite Hfw. cbn [wr_head]. rewrite bool_decide_true by done.
  cbn [flusher_writer_ops wop_finish]. rewrite E. cbn [mbind option_bind]. rewrite retire_queue by congruence. cbn [mbind option_bind sys_run].
  eexists. split; [done|]. rewrite Hq in Hp. split; cbn [sys_world sys_disk]; try done.
  - apply (journal_at_same w); [apply Hi|done].
  - apply Hi.
  - rewrite <- (wg_error _ _ _ Hw). apply Hi.
Qed.

(** The turns of the writer come to an end, with all the entries written. *)
Lemma drain t q n head w d st0 es st :
  (length head ≤ n)%nat → at_turn t q head w d st0 es st →
  ∃ m y st', turn_run t m w d = Some y ∧ landed w d q st0 (es ++ head) st' y.
Proof.
  revert head w d es st. induction n as [|n IH]; intros head w d es st Hn Hat.
  - destruct head; [|simpl in Hn; lia]. rewrite app_nil_r. destruct (last_turn t q w d st0 es st Hat) as (y & Hy & Hl). eauto.
  - destruct (decide (head = [])) as [->|Hne].
    { rewrite app_nil_r. destruct (last_turn t q w d st0 es st Hat) as (y & Hy & Hl). eauto. }
    destruct (turn_next t q head w d st0 es st Hat Hne) as (sel & rest & k & w' & d' & st' & -> & Hsel & Hd & Hv & Hat' & Hrun).
    rewrite length_app in Hn. assert (length sel ≠ 0%nat) by (by destruct sel).
    destruct (IH rest w' d' (es ++ sel) st' ltac:(lia) Hat') as (m & y & st2 & Hy & [H1 H2 H3 H4 H5 H6]).
    exists (k + m)%nat, y, st2. rewrite Hrun. split; [done|]. rewrite app_assoc. split; try done; [by apply (same_device_trans _ d')|]. destruct Hv, H3. split; congruence.
Qed.

(** ** The flush *)

(** An idle instance with the entries [head] to write, on a device whose
    journal holds [es]. *)
Record to_flush (w : world) (d : disk) (st0 : scan_state) (es : list cyanfs_journal_entry) (st : scan_state) (head : list cyanfs_journal_entry) : Prop := {
  tf_inv : winv w;
  tf_status : __cyanfs_super_ensure_status (w_super w) = ST_OK;
  tf_malloc : w_malloc w = [];
  tf_queue : task_head (w_super w) = [];
  tf_active : active_tasks (w_super w) = 0;
  tf_head : journal_head (w_super w) = head;
  tf_some : head ≠ [];
  tf_count : 0 < journal_count (w_super w);
  tf_regular : regular head;
  tf_entries : Forall (λ j, entry_ok (j_body j)) head;
  tf_free : (length head ≤ size (free_extents (w_super w)))%nat;
  tf_seq : sc_seq st + Z.of_nat (length head) ≤ U64_MAX - 65536;
  tf_journal : journal_at w d st0 es st }.

Definition flush_tail (t : Z) (ondisk : bool) : list cyanfs_task :=
  (if ondisk then [mk_task CYANFS_TASK_NOP (cyanfs_super_flusher_before_flush t)] else []) ++
  [mk_task CYANFS_TASK_NOP (cyanfs_super_flusher_free t)].

(** What [cyanfs_super_flush] starts. *)
Lemma flush_started ondisk w d st0 es st head :
  to_flush w d st0 es st head →
  ∃ w1 q, cyanfs_super_flush ondisk w = (ST_OK, w1) ∧ active_tasks (w_super w1) = 0 ∧
    task_head (w_super w1) = mk_task CYANFS_TASK_NOP (cyanfs_journal_writer_encode (WRITER_FLUSHER (w_next w))) :: q ∧
    same_volume w w1 ∧ at_turn (w_next w) q head (with_queue q 1 w1) d st0 es st.
Proof.
  intros [Hi Hst Hm Hq Ha Hh Hne Hc Hr He Hf Hs Hj].
  pose proof (fd_inv _ _ _ (flusher_start_ok 0 ondisk w Hi)) as Hi1.
  unfold cyanfs_super_flush. destruct (cyanfs_super_flusher_start 0 ondisk w) as [e w1] eqn:E. cbn [snd] in Hi1.
  unfold cyanfs_super_flusher_start in E. rewrite Hst in E. cbn [failed orb] in E. destruct (Z.leb_spec (journal_count (w_super w)) 0); [lia|].
  cbn [andb] in E. unfold cyanfs_malloc in E. rewrite Hm in E. cbn [negb] in E. rewrite Hh in E. rewrite bool_decide_false in E by done.
  cbn [negb] in E. rewrite orb_true_r in E. cbn [negb] in E. injection E as <- E.
  set (od := ondisk || _) in E.
  assert (H1 : active_tasks (w_super w1) = 0 ∧ w_malloc w1 = [] ∧ jview_same w w1 ∧ free_extents (w_super w1) = free_extents (w_super w) ∧
    has_flag (w_super w1) CYANFS_SUPER_FLAG_ERROR = has_flag (w_super w) CYANFS_SUPER_FLAG_ERROR ∧
    w_flushers w1 !! w_next w = Some (mk_flusher false od (unused_extents (w_super w)) (mk_writer head cyanfs_extent_id_invalid)) ∧
    task_head (w_super w1) = mk_task CYANFS_TASK_NOP (cyanfs_journal_writer_encode (WRITER_FLUSHER (w_next w))) :: flush_tail (w_next w) od).
  { subst w1. destruct od; cbn; rewrite ?lookup_insert_eq, ?Hq; split_and!; try done. exact (has_clear_flag (w_super w) 1 2 ltac:(lia) ltac:(lia)). }
  destruct H1 as (Ha1 & Hm1 & Hv1 & Hf1 & Her1 & Hfl1 & Hq1). clear E.
  exists w1, (flush_tail (w_next w) od). split_and!; [done..|apply Hv1|]. apply ensure_status_ok in Hst as [Her _].
  split; try done.
  - apply take_writing. split; [done|congruence|eauto|done|done].
  - cbn. by rewrite Hf1.
  - by apply (journal_at_same w).
Qed.

(** ** Reading the journal back *)
Lemma scan_mono ext seed total end_id k k' st r :
  scan ext seed total end_id k st = Some r → (k ≤ k')%nat → scan ext seed total end_id k' st = Some r.
Proof.
  revert k' st r. induction k as [|k IH]; intros k' st r; [done|]. destruct k' as [|k']; [lia|]. cbn [scan].
  destruct (scan_step _ _ _ _ st) as [|js st'|js st']; [done..|]. intros Hs Hk.
  destruct (scan ext seed total end_id k st') as [r'|] eqn:E; [|done]. by rewrite (IH k' st' r' E ltac:(lia)).
Qed.

(** The instance [w] was opened on a device of [size] bytes with the super
    block [h]: its journal starts at [st0]. *)
Record device_of (size : Z) (h : cyanfs_super_header) (w : world) (d : disk) (st0 : scan_state) : Prop := {
  dv_size : device_size_ok size;
  dv_bytes : disk_bytes d;
  dv_header : cyanfs_super_parse (disk_read d 0 CYANFS_SUPER_BLOCK_SIZE) = Some (inr h);
  dv_uuid : sm_uuid (s_meta (w_super w)) = sh_uuid h;
  dv_total : sm_total_extents (s_meta (w_super w)) = cyanfs_extent_from (u64 (size - CYANFS_SUPER_BLOCK_SIZE));
  dv_start : st0 = mk_scan (sh_journal_id h) 0 (sh_journal_seq h) [sh_journal_id h] }.

Lemma device_of_same size h w w' d d' st0 :
  device_of size h w d st0 → same_volume w w' → same_device d d' → device_of size h w' d' st0.
Proof. intros [H1 H2 H3 H4 H5 H6] [Ht Hu] [Hs Hb]. split; [done|by apply Hb|by rewrite Hs|congruence|congruence|done]. Qed.

Lemma journal_read_back size h w d st0 es st :
  device_of size h w d st0 → journal_at w d st0 es st →
  scan_record (uuid_seed (sh_uuid h)) (sc_off st) (sc_seq st) (rest_of (disk_extent d) st) = SCAN_STOP →
  disk_journal size d = Some (h, j_body <$> es, st).
Proof.
  intros [Hsz Hb Hh Hu Ht ->] [Hs [Hok _] Hl _ _ _] Hend. unfold disk_journal. rewrite Hh.
  rewrite Ht, Hu in *. set (total := cyanfs_extent_from _) in *. set (st0 := mk_scan _ _ _ _) in *.
  assert (Hmf : may_follow total (sh_journal_id h) [] = true).
  { unfold may_follow. pose proof (so_id _ _ Hok) as Hi. pose proof (total_range size Hsz) as Htr. fold total in Htr.
    change CYANFS_EXTENT_COUNT_MAX with 1073741824 in Htr. change cyanfs_extent_id_invalid with 4294967295. cbn [st0 sc_id] in Hi.
    destruct (Z.eqb_spec (sh_journal_id h) 4294967295); [lia|]. destruct (Z.leb_spec total (sh_journal_id h)); [lia|].
    by rewrite bool_decide_false by (apply not_elem_of_nil). }
  rewrite Hmf.
  destruct (scan_total (disk_extent d) (uuid_seed (sh_uuid h)) total cyanfs_extent_id_invalid (disk_device size d Hsz Hb) (scan_fuel total st0) st0 Hok)
    as [r Hr]; [done| |].
  { unfold scan_fuel, st0. cbn [sc_ids sc_off length]. pose proof (total_range size Hsz). fold total in H. change (0 / 512) with 0. lia. }
  pose proof (logged_scan _ _ Hs _ _ _ _ Hl Hok Hend (S (length es)) ltac:(lia)) as Hsc.
  set (k := Nat.max (scan_fuel total st0) (S (length es))).
  apply (scan_mono _ _ _ _ _ k) in Hsc; [|lia]. pose proof (scan_mono _ _ _ _ _ k _ _ Hr ltac:(lia)) as Hr'.
  rewrite Hr. rewrite Hsc in Hr'. by injection Hr' as <-.
Qed.


(** ** An example: the first flush of a formatted device *)
Definition ex_header_of : cyanfs_super_header :=
  match cyanfs_super_parse (disk_read (formatted ex_uuid) 0 CYANFS_SUPER_BLOCK_SIZE) with Some (inr h) => h | _ => zero_header end.

Definition ex_volume : cyanfs_super :=
  match __cyanfs_extent_super_to_super 0 T_FREE T_JOURNAL (ready_super ex_size false false) with
  | Some s =>
      set_journal_head ex_entries (set_journal_count 2 (upd_meta (set_sm_uuid ex_uuid) (upd_cursor (set_cur_page ex_page) s)))
  | None => ready_super ex_size false false
  end.

Definition ex_start : scan_state := mk_scan 0 0 0 [0].
Definition ex_idle : world := mk_world ex_volume ∅ 0 None None [].

Lemma ex_idle_inv : winv ex_idle.
Proof.
  destruct (ready_super_wf ex_size false false ex_size_ok) as [Hwf _].
  destruct (super_to_super_ok _ ∅ T_FREE T_JOURNAL 0 (wf_has_ext _ _ Hwf)) as (s & E & Hwe & _ & Hfr & Hf & _).
  { apply (bool_decide_unpack _). by vm_compute. }
  split; [|done]. change (fl_map ex_idle) with (fl_unused_extents <$> (∅ : gmap Z cyanfs_task_super_flusher)). rewrite fmap_empty.
  cbn [ex_idle w_super]. unfold ex_volume. rewrite E. destruct Hwf as [_ Hns Hwi]. split.
  - apply (wf_ext_files s _ ∅ Hwe); try done; intros id f Hg; left; by exists f.
  - apply (ext_frame_ns _ _ Hfr Hns).
  - unfold wf_idx in *. cbn. by rewrite Hf.
Qed.

Lemma ex_volume_parts :
  __cyanfs_super_ensure_status ex_volume = ST_OK ∧ task_head ex_volume = [] ∧ active_tasks ex_volume = 0 ∧ journal_count ex_volume = 2 ∧
  sm_uuid (s_meta ex_volume) = ex_uuid ∧ sm_total_extents (s_meta ex_volume) = 64 ∧ journal_extents ex_volume = {[0]} ∧
  size (free_extents ex_volume) = 63%nat.
Proof. split_and!; vm_compute; reflexivity. Qed.

Lemma ex_volume_some : is_Some (__cyanfs_extent_super_to_super 0 T_FREE T_JOURNAL (ready_super ex_size false false)).
Proof.
  assert (H : from_option (λ _, true) false (__cyanfs_extent_super_to_super 0 T_FREE T_JOURNAL (ready_super ex_size false false)) = true)
    by (vm_compute; reflexivity).
  destruct (__cyanfs_extent_super_to_super _ _ _ _); [eauto|discriminate H].
Qed.

Lemma ex_volume_head : journal_head ex_volume = ex_entries.
Proof. unfold ex_volume. by destruct ex_volume_some as [s ->]. Qed.

Lemma ex_volume_cursor :
  cur_extent_id (journal_cursor ex_volume) = 0 ∧ cur_extent_off (journal_cursor ex_volume) = 0 ∧
  cur_seq (journal_cursor ex_volume) = 0 ∧ cur_page (journal_cursor ex_volume) = ex_page.
Proof.
  split_and!; [by vm_compute..|]. unfold ex_volume. by destruct ex_volume_some as [s ->].
Qed.

Lemma ex_to_flush : to_flush ex_idle (formatted ex_uuid) ex_start [] ex_start ex_entries.
Proof.
  destruct ex_volume_parts as (H1 & H2 & H3 & H4 & H5 & H6 & H7 & H8). destruct ex_volume_cursor as (Hc1 & Hc2 & Hc3 & Hc4).
  destruct ex_entries_ok as [Hr He]. pose proof ex_volume_head as Hh. pose proof ex_idle_inv as Hi.
  unfold ex_idle in *. generalize dependent ex_volume. intros v. intros. generalize (formatted ex_uuid). intros d.
  split; cbn [w_super w_malloc]; try done.
  - rewrite H4. lia.
  - rewrite H8. unfold ex_entries. cbn [length fmap list_fmap]. lia.
  - split; cbn [w_super]; rewrite ?H5, ?H6, ?H7, ?Hc4; [exact ex_seed| |constructor|done|exact ex_page_ok|].
    + split; [|done]. split; [exact ex_cursor|done|apply NoDup_singleton| |cbn; lia].
      intros id ->%list_elem_of_singleton. lia.
    + intros id ->%list_elem_of_singleton. set_solver.
Qed.

Lemma ex_device : device_of ex_size ex_header_of ex_idle (formatted ex_uuid) ex_start.
Proof.
  destruct ex_volume_parts as (_ & _ & _ & _ & H5 & H6 & _).
  split; [exact ex_size_ok| | | | |].
  - apply formatted_bytes, (bool_decide_unpack _). vm_compute. exact I.
  - vm_compute. reflexivity.
  - cbn [ex_idle w_super]. rewrite H5. vm_compute. reflexivity.
  - cbn [ex_idle w_super]. rewrite H6. vm_compute. reflexivity.
  - vm_compute. reflexivity.
Qed.

