(* ===== verification/Errno.v ===== *)
(** * Errno: the error numbers

    The numbers the C library and the Linux kernel give to errors, and what
    [core/platform/pthread.h] and [core/platform/linux.h] make of them: the
    errors the core has a name for, and the rest. *)
From Stdlib Require Import ZArith Lia.
From S2P Require Import Prelude Base.

Definition ENOENT : Z := 2.
Definition EINTR : Z := 4.
Definition EIO : Z := 5.
Definition ENXIO : Z := 6.
Definition E2BIG : Z := 7.
Definition ENOMEM : Z := 12.
Definition EFAULT : Z := 14.
Definition EBUSY : Z := 16.
Definition EEXIST : Z := 17.
Definition ENODEV : Z := 19.
Definition EINVAL : Z := 22.
Definition ENOSPC : Z := 28.
Definition EDEADLK : Z := 35.
Definition ENAMETOOLONG : Z := 36.
Definition ENOSYS : Z := 38.
Definition ESTALE : Z := 116.
Definition EMEDIUMTYPE : Z := 124.

Definition err_of_errno (e : Z) : cyanfs_err :=
  if e =? ENOMEM then ERR_NOMEM else if e =? EINVAL then ERR_INVAL else if e =? EBUSY then ERR_BUSY
  else if e =? ENOENT then ERR_NOENT else if e =? EEXIST then ERR_EXIST else if e =? ENOSPC then ERR_NOSPACE
  else if e =? EIO then ERR_IO else ERR_PLATFORM e.

(** An [int] that is 0 or [-errno]. *)
Definition status_of (r : Z) : cyanfs_status := if r =? 0 then ST_OK else ST_ERR (err_of_errno (- r)).

(** The other errors have a number of their own, which is not 0. *)
Definition errno_of_err (e : cyanfs_err) : Z :=
  match e with
  | ERR_NOMEM => ENOMEM
  | ERR_INVAL => EINVAL
  | ERR_BUSY => EBUSY
  | ERR_NOENT => ENOENT
  | ERR_EXIST => EEXIST
  | ERR_NOSPACE => ENOSPC
  | ERR_IO => EIO
  | ERR_PLATFORM c => if c =? 0 then EIO else c
  end.

(** A status of the core as an [int]. *)
Definition errno_of (st : cyanfs_status) : Z := match st with ST_OK => 0 | ST_ERR e => - errno_of_err e end.

Lemma errno_of_failed st : failed st = true → errno_of st ≠ 0.
Proof. destruct st as [|[| | | | | | |c]]; try done. cbn. intros _. destruct (Z.eqb_spec c 0) as [->|]; [done|lia]. Qed.
