(* ===== verification/Posix.v ===== *)
(** * Posix: the I/O helpers of the command line tools

    Models [utils/utils.c].  The system calls are not code of this repository: a type
    class has them as operations on a state of the system, with what the tools
    rely on as its laws (a transfer may be short, a call may be interrupted,
    but a process is interrupted only a finite number of times). *)
From Stdlib Require Import ZArith Lia.
From S2P Require Import Prelude Disk Base Journal Errno.

(** ** The system calls *)

(** A call returns [-1] with [errno], or a count of bytes. *)
Notation sys_result A := (Z + A)%type.

(** The streams the tools read. *)
Inductive stream := URANDOM | STDIN.

(** The file descriptor of the device, the streams, the standard output, and
    the creation of the objects of the thread library, and the memory. *)
Class PosixFile (K : Type) := {
  pf_bytes : K → disk;
  pf_signals : K → nat;
  pread : Z → Z → K → sys_result (list Z) * K;
  pwrite : list Z → Z → K → sys_result Z * K;
  fsync : K → sys_result () * K;
  read : stream → Z → K → sys_result (list Z) * K;
  write_stdout : list Z → K → sys_result Z * K;
  pthread_new : K → Z * K;
  malloc : Z → K → bool * K;
  pread_law count off k r k' :
    0 < count → pread count off k = (r, k') → pf_bytes k' ≡ pf_bytes k ∧
    match r with
    | inl e => 0 < e ∧ (e = EINTR → pf_signals k' < pf_signals k)%nat
    | inr bs => (∃ n, 0 ≤ n ≤ count ∧ bs = disk_read (pf_bytes k) off n) ∧ (pf_signals k' ≤ pf_signals k)%nat
    end;
  pwrite_law data off k r k' :
    data ≠ [] → pwrite data off k = (r, k') →
    match r with
    | inl e => 0 < e ∧ (e = EINTR → pf_bytes k' ≡ pf_bytes k ∧ (pf_signals k' < pf_signals k)%nat) ∧
        same_outside off (Z.of_nat (length data)) (pf_bytes k) (pf_bytes k')
    | inr n => 0 ≤ n ≤ Z.of_nat (length data) ∧ pf_bytes k' ≡ disk_write (pf_bytes k) off (take (Z.to_nat n) data) ∧
        (pf_signals k' ≤ pf_signals k)%nat
    end;
  fsync_law k r k' : fsync k = (r, k') → pf_bytes k' ≡ pf_bytes k ∧ (∀ e, r = inl e → 0 < e);
  read_law st count k r k' :
    0 < count → read st count k = (r, k') → pf_bytes k' ≡ pf_bytes k ∧
    match r with
    | inl e => 0 < e ∧ (e = EINTR → pf_signals k' < pf_signals k)%nat
    | inr bs => Z.of_nat (length bs) ≤ count ∧ Forall is_byte bs ∧ (pf_signals k' ≤ pf_signals k)%nat
    end;
  write_stdout_law data k r k' :
    data ≠ [] → write_stdout data k = (r, k') → pf_bytes k' ≡ pf_bytes k ∧
    match r with
    | inl e => 0 < e ∧ (e = EINTR → pf_signals k' < pf_signals k)%nat
    | inr n => 0 ≤ n ≤ Z.of_nat (length data) ∧ (pf_signals k' ≤ pf_signals k)%nat
    end;
  pthread_new_law k r k' : pthread_new k = (r, k') → 0 ≤ r ∧ pf_bytes k' ≡ pf_bytes k;
  malloc_law n k r k' : malloc n k = (r, k') → pf_bytes k' ≡ pf_bytes k }.

(** ** [utils.c] *)
Section utils.
Context {K : Type} `{!PosixFile K}.

(** [safe_pread]: the loop, with the bytes read so far; [c] is unsigned. *)
Fixpoint safe_pread_loop (fuel : nat) (buf : list Z) (offset c : Z) (k : K) : option (Z * list Z * K) :=
  if c <=? 0 then Some (0, buf, k) else
  match fuel with
  | O => None
  | S fuel =>
      match pread c offset k with
      | (inl e, k) => if e =? EINTR then safe_pread_loop fuel buf offset c k else Some (- e, buf, k)
      | (inr bs, k) =>
          let n := Z.of_nat (length bs) in
          if n =? 0 then Some (- EIO, buf, k) else safe_pread_loop fuel (buf ++ bs) (offset + n) (c - n) k
      end
  end.

(** [safe_read] *)
Fixpoint safe_read_loop (st : stream) (fuel : nat) (buf : list Z) (c : Z) (k : K) : option (Z * list Z * K) :=
  if c <=? 0 then Some (0, buf, k) else
  match fuel with
  | O => None
  | S fuel =>
      match read st c k with
      | (inl e, k) => if e =? EINTR then safe_read_loop st fuel buf c k else Some (- e, buf, k)
      | (inr bs, k) =>
          let n := Z.of_nat (length bs) in
          if n =? 0 then Some (- EIO, buf, k) else safe_read_loop st fuel (buf ++ bs) (c - n) k
      end
  end.

(** [safe_pwrite]: [buf] is what is left to write, of length [c]. *)
Fixpoint safe_pwrite_loop (fuel : nat) (buf : list Z) (offset : Z) (k : K) : option (Z * K) :=
  if bool_decide (buf = []) then Some (0, k) else
  match fuel with
  | O => None
  | S fuel =>
      match pwrite buf offset k with
      | (inl e, k) => if e =? EINTR then safe_pwrite_loop fuel buf offset k else Some (- e, k)
      | (inr n, k) => if n =? 0 then Some (- EIO, k) else safe_pwrite_loop fuel (drop (Z.to_nat n) buf) (offset + n) k
      end
  end.

(** [safe_write], on the standard output. *)
Fixpoint safe_write_loop (fuel : nat) (buf : list Z) (k : K) : option (Z * K) :=
  if bool_decide (buf = []) then Some (0, k) else
  match fuel with
  | O => None
  | S fuel =>
      match write_stdout buf k with
      | (inl e, k) => if e =? EINTR then safe_write_loop fuel buf k else Some (- e, k)
      | (inr n, k) => if n =? 0 then Some (- EIO, k) else safe_write_loop fuel (drop (Z.to_nat n) buf) k
      end
  end.

(** [stat_device_size]: [fstat] tells a regular file with its size, a block
    device, or something else; [blksize] is the outcome of the [ioctl]. *)
Inductive file_mode := S_ISREG (st_size : Z) | S_ISBLK | S_OTHER.

Definition stat_device_size (fstat : sys_result file_mode) (blksize : sys_result Z) : sys_result Z :=
  match fstat with
  | inl e => inl (- e)
  | inr (S_ISREG st_size) => inr st_size
  | inr S_ISBLK => match blksize with inl e => inl (- e) | inr size => inr size end
  | inr S_OTHER => inl (- EINVAL)
  end.

(** Each call transfers a byte or is interrupted. *)
Definition io_fuel (count : Z) (k : K) : nat := (pf_signals k + Z.to_nat count)%nat.

Definition safe_pread (offset count : Z) (k : K) : option (Z * list Z * K) := safe_pread_loop (io_fuel count k) [] offset count k.
Definition safe_read (st : stream) (count : Z) (k : K) : option (Z * list Z * K) := safe_read_loop st (io_fuel count k) [] count k.
Definition safe_pwrite (buf : list Z) (offset : Z) (k : K) : option (Z * K) :=
  safe_pwrite_loop (io_fuel (Z.of_nat (length buf)) k) buf offset k.
Definition safe_write (buf : list Z) (k : K) : option (Z * K) := safe_write_loop (io_fuel (Z.of_nat (length buf)) k) buf k.

(** ** Lemmas *)
Lemma safe_pread_loop_spec fuel buf offset c k :
  (io_fuel c k ≤ fuel)%nat →
  ∃ r bs k', safe_pread_loop fuel buf offset c k = Some (r, buf ++ bs, k') ∧ pf_bytes k' ≡ pf_bytes k ∧ r ≤ 0 ∧
    (r = 0 → bs = disk_read (pf_bytes k) offset c).
Proof.
  unfold io_fuel. revert buf offset c k. induction fuel as [|fuel IH]; intros buf offset c k Hf; cbn [safe_pread_loop];
    (destruct (Z.leb_spec c 0) as [Hle|Hlt]; [exists 0, [], k; rewrite app_nil_r; by rewrite disk_read_none|]); [lia|].
  destruct (pread c offset k) as [r k1] eqn:E. destruct (pread_law c offset k r k1 ltac:(lia) E) as [Hb Hr].
  destruct r as [e|bs].
  - destruct Hr as [He Hs]. destruct (Z.eqb_spec e EINTR) as [->|].
    + destruct (IH buf offset c k1) as (r & bs & k' & Hl & Hb' & Hr0 & Hr); [specialize (Hs eq_refl); lia|].
      exists r, bs, k'. split_and!; [done|by rewrite Hb'|done|]. intros Hz. rewrite Hr by done. by rewrite Hb.
    + exists (- e), [], k1. rewrite app_nil_r. split_and!; [done|done|lia|lia].
  - destruct Hr as [(n & Hn & ->) Hs]. rewrite length_disk_read, Z2Nat.id by lia. destruct (Z.eqb_spec n 0).
    + exists (- EIO), [], k1. rewrite app_nil_r. by split_and!.
    + destruct (IH (buf ++ disk_read (pf_bytes k) offset n) (offset + n) (c - n) k1) as (r & bs & k' & Hl & Hb' & Hr0 & Hr); [lia|].
      exists r, (disk_read (pf_bytes k) offset n ++ bs), k'. rewrite app_assoc. split_and!; [done|by rewrite Hb'|done|].
      intros ->. rewrite Hr, Hb by done. rewrite <- disk_read_split by lia. f_equal. lia.
Qed.

Lemma safe_read_loop_spec st fuel buf c k :
  0 ≤ c → (io_fuel c k ≤ fuel)%nat →
  ∃ r bs k', safe_read_loop st fuel buf c k = Some (r, buf ++ bs, k') ∧ pf_bytes k' ≡ pf_bytes k ∧ r ≤ 0 ∧
    (r = 0 → Z.of_nat (length bs) = c ∧ Forall is_byte bs).
Proof.
  unfold io_fuel. revert buf c k. induction fuel as [|fuel IH]; intros buf c k Hc Hf; cbn [safe_read_loop];
    (destruct (Z.leb_spec c 0) as [Hle|Hlt]; [exists 0, [], k; rewrite app_nil_r; by assert (c = 0) as -> by lia|]); [lia|].
  destruct (read st c k) as [r k1] eqn:E. destruct (read_law st c k r k1 ltac:(lia) E) as [Hb Hr].
  destruct r as [e|bs].
  - destruct Hr as [He Hs]. destruct (Z.eqb_spec e EINTR) as [->|].
    + destruct (IH buf c k1 Hc) as (r & bs & k' & Hl & Hb' & Hr); [specialize (Hs eq_refl); lia|].
      exists r, bs, k'. split_and!; [done|by rewrite Hb'|apply Hr..].
    + exists (- e), [], k1. rewrite app_nil_r. split_and!; [done|done|lia|lia].
  - destruct Hr as (Hn & Hy & Hs). destruct (Z.eqb_spec (Z.of_nat (length bs)) 0).
    + exists (- EIO), [], k1. rewrite app_nil_r. by split_and!.
    + destruct (IH (buf ++ bs) (c - Z.of_nat (length bs)) k1) as (r & bs' & k' & Hl & Hb' & Hr0 & Hr); [lia|lia|].
      exists r, (bs ++ bs'), k'. rewrite app_assoc. split_and!; [done|by rewrite Hb'|done|].
      intros Hz. destruct (Hr Hz) as [Hl' Hy']. rewrite length_app. split; [lia|by apply Forall_app].
Qed.

Lemma safe_pwrite_loop_spec fuel buf offset k :
  (io_fuel (Z.of_nat (length buf)) k ≤ fuel)%nat →
  ∃ r k', safe_pwrite_loop fuel buf offset k = Some (r, k') ∧ r ≤ 0 ∧ same_outside offset (Z.of_nat (length buf)) (pf_bytes k) (pf_bytes k') ∧
    (r = 0 → pf_bytes k' ≡ disk_write (pf_bytes k) offset buf).
Proof.
  unfold io_fuel. rewrite Nat2Z.id. revert buf offset k. induction fuel as [|fuel IH]; intros buf offset k Hf; cbn [safe_pwrite_loop];
    (destruct (decide (buf = [])) as [->|Hne]; [by exists 0, k|]); [by destruct buf; [|simpl in Hf; lia]|]. rewrite bool_decide_false by done.
  destruct (pwrite buf offset k) as [r k1] eqn:E. pose proof (pwrite_law buf offset k r k1 Hne E) as Hr.
  destruct r as [e|n].
  - destruct Hr as (He & Hs & Ho). destruct (Z.eqb_spec e EINTR) as [->|].
    + destruct (Hs eq_refl) as [Hb Hlt]. destruct (IH buf offset k1 ltac:(lia)) as (r & k' & Hl & Hr0 & Ho' & Hr).
      exists r, k'. split_and!; [done|done| |].
      * intros x Hx. rewrite Ho' by done. apply Hb.
      * intros Hz. rewrite Hr by done. by rewrite Hb.
    + exists (- e), k1. split_and!; [done|lia|done|lia].
  - destruct Hr as (Hn & Hb & Hs). destruct (Z.eqb_spec n 0) as [->|Hn0].
    + exists (- EIO), k1. split_and!; [done|done| |done]. intros x _. apply Hb.
    + destruct (IH (drop (Z.to_nat n) buf) (offset + n) k1) as (r & k' & Hl & Hr0 & Ho & Hr); [rewrite length_drop; lia|].
      assert (Hlen : Z.of_nat (length (take (Z.to_nat n) buf)) = n) by (rewrite length_take; lia).
      rewrite length_drop in Ho. exists r, k'. split_and!; [done|done| |].
      * intros x Hx. rewrite Ho by lia. rewrite (Hb x). apply disk_write_out. rewrite Hlen. lia.
      * intros Hz. rewrite Hr, Hb by done. rewrite <- Hlen at 2. rewrite disk_write_app. by rewrite take_drop.
Qed.
End utils.

(** C37: the I/O helpers of the tools transfer everything.  However the system
    cuts a transfer and interrupts the calls, [safe_pread] and [safe_pwrite]
    return; when [safe_pread] returns 0 the buffer holds the [count] bytes of
    the device from the offset on, and the device is as it was; when
    [safe_pwrite] returns 0 the device is as it was with the buffer written at
    the offset, and when it returns an error no byte outside of the range has
    changed. *)
Theorem safe_io_complete {K} `{!PosixFile K} (offset count : Z) (buf : list Z) (k : K) :
  (∃ r bs k', safe_pread offset count k = Some (r, bs, k') ∧ pf_bytes k' ≡ pf_bytes k ∧ r ≤ 0 ∧
     (r = 0 → bs = disk_read (pf_bytes k) offset count)) ∧
  (∃ r k', safe_pwrite buf offset k = Some (r, k') ∧ r ≤ 0 ∧
     same_outside offset (Z.of_nat (length buf)) (pf_bytes k) (pf_bytes k') ∧
     (r = 0 → pf_bytes k' ≡ disk_write (pf_bytes k) offset buf)).
Proof.
  split.
  - destruct (safe_pread_loop_spec (io_fuel count k) [] offset count k) as (r & bs & k' & Hl & H); [lia|]. by exists r, bs, k'.
  - by apply safe_pwrite_loop_spec.
Qed.

(** ** A system with a schedule

    The calls are answered in the order of a list: [0] interrupts the call,
    [n] cuts the transfer after [n] bytes; when the list is empty the transfer
    is complete. *)
Record scheduled := mk_scheduled { sf_disk : disk; sf_calls : list nat; sf_random : Z }.

Definition scheduled_count (n : nat) (count : Z) : Z := Z.min (Z.of_nat n) count.

Definition scheduled_call {A} (count : Z) (f : Z → A) (k : scheduled) : sys_result A * list nat :=
  match sf_calls k with
  | [] => (inr (f count), [])
  | O :: l => (inl EINTR, l)
  | n :: l => (inr (f (scheduled_count n count)), l)
  end.

#[export, program] Instance scheduled_file : PosixFile scheduled := {
  pf_bytes := sf_disk;
  pf_signals k := length (sf_calls k);
  pread count off k :=
    let '(r, l) := scheduled_call count (disk_read (sf_disk k) off) k in (r, mk_scheduled (sf_disk k) l (sf_random k));
  pwrite data off k :=
    let '(r, l) := scheduled_call (Z.of_nat (length data)) id k in
    (r, mk_scheduled (match r with inr n => disk_write (sf_disk k) off (take (Z.to_nat n) data) | inl _ => sf_disk k end) l (sf_random k));
  fsync k := (inr (), k);
  read _ count k :=
    let '(r, l) := scheduled_call count (λ n, replicate (Z.to_nat n) (sf_random k mod 256)) k in
    (r, mk_scheduled (sf_disk k) l (sf_random k));
  write_stdout data k := (inr (Z.of_nat (length data)), k);
  pthread_new k := (0, k);
  malloc _ k := (true, k) }.
Next Obligation.
  intros count off k r k' Hc. unfold scheduled_call. destruct k as [d [|[|n] l] rnd]; cbn; intros [= <- <-]; cbn; (split; [done|]).
  - split; [exists count; split; [lia|done]|lia].
  - split; [done|lia].
  - split; [exists (scheduled_count (S n) count); split; [unfold scheduled_count; lia|done]|lia].
Qed.
Next Obligation.
  intros data off k r k' Hc. unfold scheduled_call. destruct k as [d [|[|n] l] rnd]; cbn; intros [= <- <-]; cbn.
  - split_and!; [lia|lia|done|lia].
  - split_and!; [done|intros _; split; [done|lia]|done].
  - unfold scheduled_count. split_and!; [lia|lia|done|lia].
Qed.
Next Obligation. intros k r k' [= <- <-]. done. Qed.
Next Obligation.
  intros st count k r k' Hc. assert (Hb : is_byte (sf_random k mod 256)) by (unfold is_byte; pose proof (Z.mod_pos_bound (sf_random k) 256); lia).
  unfold scheduled_call. destruct k as [d [|[|n] l] rnd]; cbn in *; intros [= <- <-]; cbn [length sf_disk sf_calls]; (split; [done|]).
  - rewrite length_replicate. split_and!; [lia|by apply Forall_replicate|lia].
  - split; [done|lia].
  - rewrite length_replicate. unfold scheduled_count. split_and!; [lia|by apply Forall_replicate|lia].
Qed.
Next Obligation. intros data k r k' _ [= <- <-]. split; [done|lia]. Qed.
Next Obligation. intros k r k' [= <- <-]. done. Qed.
Next Obligation. intros n k r k' [= <- <-]. done. Qed.

Example safe_pread_example :
  safe_pread 5 4 (mk_scheduled (λ x, x mod 256) [2%nat; 0%nat; 1%nat; 0%nat; 7%nat] 0) =
  Some (0, [5; 6; 7; 8], mk_scheduled (λ x, x mod 256) [] 0).
Proof. vm_compute. reflexivity. Qed.

Lemma safe_io_complete_witness :
  ∃ r bs k', safe_pread 5 4 (mk_scheduled (λ x, x mod 256) [2%nat; 0%nat] 0) = Some (r, bs, k') ∧
    (r = 0 → bs = disk_read (λ x, x mod 256) 5 4).
Proof.
  destruct (safe_io_complete 5 4 [1; 2] (mk_scheduled (λ x, x mod 256) [2%nat; 0%nat] 0)) as [(r & bs & k' & H1 & _ & _ & H2) _].
  exists r, bs, k'. split; [exact H1|exact H2].
Defined.
