(* ===== verification/Edit.v ===== *)
(** * Edit: the offline editor

    Models [utils/edit.c]: the executor of the tasks on a file descriptor, the
    I/O of a file through the handler [do_io_partial], the commands, and the
    batch interpreter.  The main thread and the worker thread take turns: the
    worker runs while the main thread waits for it ([wait_requeue], [closefs])
    and, between two commands, for as many tasks as the scheduler grants. *)
From Stdlib Require Import ZArith Lia String Ascii.
From S2P Require Import Prelude Disk Base Journal Types Super World JournalIO Discard Compact Flusher Api ReadWrite System Errno Posix.

Section edit.
Context {K : Type} `{!PosixFile K}.

(** ** The executor *)

(** The outcome of a task: its status, and the [ctx] of a requeue whose
    callback ran. *)
Definition task_io (ty : cyanfs_task_type_t) (k : K) (w : world) : option (cyanfs_status * option Z * K * world) :=
  match ty with
  | CYANFS_TASK_NOP => Some (ST_OK, None, k, w)
  | CYANFS_TASK_READ off len buf =>
      c ← get_cursor buf w;
      '(err, bs, k) ← safe_pread off len k;
      Some (status_of err, None, k, upd_cursor_of buf (set_cur_page (bs ++ drop (length bs) (cur_page c))) w)
  | CYANFS_TASK_WRITE off len buf =>
      c ← get_cursor buf w;
      '(err, k) ← safe_pwrite (take (Z.to_nat len) (cur_page c)) off k;
      Some (status_of err, None, k, w)
  | CYANFS_TASK_COPY src dst len =>
      let '(ok, k) := malloc len k in
      if negb ok then Some (status_of (- ENOMEM), None, k, w) else
      '(err, buf, k) ← safe_pread src len k;
      if negb (err =? 0) then Some (status_of err, None, k, w) else
      '(err, k) ← safe_pwrite buf dst k;
      Some (status_of err, None, k, w)
  | CYANFS_TASK_FLUSH =>
      match fsync k with
      | (inl e, k) => Some (status_of (- e), None, k, w)
      | (inr _, k) => Some (ST_OK, None, k, w)
      end
  | CYANFS_TASK_DISCARD _ _ => Some (ST_OK, None, k, w)
  | CYANFS_TASK_REQUEUE _ ctx => Some (ST_OK, Some ctx, k, w)
  end.

(** One iteration of [do_loop]; [None] as the first component when there is no
    task. *)
Definition loop_step (k : K) (w : world) : option (option (option Z) * K * world) :=
  let '(t, s) := cyanfs_super_get_task (w_super w) in
  match t with
  | None => Some (None, k, w)
  | Some t =>
      '(err, called, k, w) ← task_io (t_type t) k (set_w_super s w);
      w ← cyanfs_super_task_done t err w;
      Some (Some called, k, w)
  end.

(** At most [n] tasks. *)
Fixpoint loop_run (n : nat) (k : K) (w : world) : option (K * world) :=
  match n with
  | O => Some (k, w)
  | S n => '(_, k, w) ← loop_step k w; loop_run n k w
  end.

(** [do_loop]; [None] also when [fuel] is used up. *)
Fixpoint do_loop (fuel : nat) (k : K) (w : world) : option (K * world) :=
  match fuel with
  | O => None
  | S fuel =>
      '(r, k, w) ← loop_step k w;
      match r with None => Some (k, w) | Some _ => do_loop fuel k w end
  end.

(** ** Waiting for the queue

    The worker runs up to the callback of [ctx]; it cannot run dry before. *)
Fixpoint wait_called (fuel : nat) (ctx : Z) (k : K) (w : world) : option (K * world) :=
  match fuel with
  | O => None
  | S fuel =>
      '(r, k, w) ← loop_step k w;
      match r with
      | None => None
      | Some called => if bool_decide (called = Some ctx) then Some (k, w) else wait_called fuel ctx k w
      end
  end.

(** The address of the context on the stack of [wait_requeue]. *)
Definition requeue_ctx : Z := 1.

Definition wait_requeue (fuel : nat) (file : Z) (k : K) (w : world) : option (cyanfs_status * K * world) :=
  let '(err, k) := pthread_new k in
  if negb (err =? 0) then Some (status_of (- err), k, w) else
  let '(err, k) := pthread_new k in
  if negb (err =? 0) then Some (status_of (- err), k, w) else
  let '(err, w) := cyanfs_requeue file requeue_ctx w in
  if failed err then Some (err, k, w) else
  '(k, w) ← wait_called fuel requeue_ctx k w;
  Some (ST_OK, k, w).

(** ** I/O of a file *)
Inductive io_op := io_op_read | io_op_write | io_op_discard.

#[export] Instance io_op_eq_dec : EqDecision io_op.
Proof. solve_decision. Defined.

(** [struct ioctx]: the buffer in two parts, before and after the pointer. *)
Record ioctx := mk_ioctx { io_k : K; io_passed : list Z; io_buffer : list Z; io_offset : Z }.

(** [memcpy] to the pointer. *)
Definition buffer_put (data buf : list Z) : list Z := data ++ drop (length data) buf.

(** The pointer moves on. *)
Definition ioctx_advance (len : Z) (ctx : ioctx) : ioctx :=
  mk_ioctx (io_k ctx) (io_passed ctx ++ take (Z.to_nat len) (io_buffer ctx)) (drop (Z.to_nat len) (io_buffer ctx))
    (u64 (io_offset ctx + len)).

Definition set_io (k : K) (buf : list Z) (ctx : ioctx) : ioctx := mk_ioctx k (io_passed ctx) buf (io_offset ctx).

(** [do_io_partial]; [again] is [do_io]. *)
Definition do_io_partial (wait : nat)
    (again : Z → Z → list Z → K → world → option (cyanfs_status * list Z * K * world))
    (file : Z) (op : io_op) : io_handler ioctx :=
  λ type offset len ctx w,
  '(err, ctx, w) ←
    match type with
    | CYANFS_MAP_NOP =>
        let buf := if bool_decide (op = io_op_read) then buffer_put (replicate (Z.to_nat len) 0) (io_buffer ctx) else io_buffer ctx in
        Some (ST_OK, set_io (io_k ctx) buf ctx, w)
    | CYANFS_MAP_SUBMIT =>
        match op with
        | io_op_write =>
            '(err, k) ← safe_pwrite (take (Z.to_nat len) (io_buffer ctx)) offset (io_k ctx);
            Some (status_of err, set_io k (io_buffer ctx) ctx, w)
        | io_op_read =>
            '(err, bs, k) ← safe_pread offset len (io_k ctx);
            Some (status_of err, set_io k (buffer_put bs (io_buffer ctx)) ctx, w)
        | io_op_discard => None
        end
    | CYANFS_MAP_REQUEUE =>
        '(err, k, w) ← wait_requeue wait file (io_k ctx) w;
        if failed err then Some (err, set_io k (io_buffer ctx) ctx, w) else
        '(err, buf, k, w) ← again (io_offset ctx) len (io_buffer ctx) k w;
        Some (err, set_io k buf ctx, w)
    end;
  Some (err, if failed err then ctx else ioctx_advance len ctx, w).

(** [do_io]: the status and the buffer.  A piece is tried again after it was
    queued; [fuel] bounds how often, [wait] how many tasks each wait takes. *)
Fixpoint do_io (wait fuel : nat) (file : Z) (op : io_op) (offset len : Z) (buffer : list Z) (k : K) (w : world)
    : option (cyanfs_status * list Z * K * world) :=
  match fuel with
  | O => None
  | S fuel =>
      if len =? 0 then Some (ST_OK, buffer, k, w) else
      let handler := do_io_partial wait (do_io wait fuel file op) file op in
      let ctx := mk_ioctx k [] buffer offset in
      '(err, ctx, w) ←
        match op with
        | io_op_write => cyanfs_write handler (λ w, w) file ctx offset len w
        | io_op_read => cyanfs_read handler (λ w, w) file ctx offset len w
        | io_op_discard => cyanfs_discard handler (λ w, w) file ctx offset len w
        end;
      Some (err, io_passed ctx ++ io_buffer ctx, io_k ctx, w)
  end.

(** ** The state of the editor

    [struct disk]: the file descriptor, the size of the device, and the
    instance when it is mounted. *)
Record edit_disk := mk_edit { ed_fd : K; ed_size : Z; ed_super : option world; ed_debug : bool }.

Definition set_mounted (k : K) (w : option world) (d : edit_disk) : edit_disk := mk_edit k (ed_size d) w (ed_debug d).

(** What a command prints. *)
Inductive edit_output :=
  | PRINT_FILE (meta : cyanfs_file_meta)
  | PRINT_STATFS (meta : cyanfs_super_meta)
  | PRINT_EXTENT (offset : Z)
  | PRINT_DATA (bytes : list Z).

(** A command returns its status, what it printed, and the new state. *)
Definition edit_result : Type := option (cyanfs_status * list edit_output * edit_disk).

(** Arguments are C strings. *)
Notation argv := (list (list Z)).

Definition inval : cyanfs_status := ST_ERR ERR_INVAL.

Definition stop (r : cyanfs_status) (d : edit_disk) : edit_result := Some (r, [], d).

(** [cyanfs_file_name_copy] of [linux/include/cyanfs.h]: the name padded with
    zeroes to 127 bytes and the final zero. *)
Definition cyanfs_file_name_copy (src : list Z) : cyanfs_status * cyanfs_file_name_t :=
  if 127 <? Z.of_nat (length src) then (status_of (- ENAMETOOLONG), replicate 128 0)
  else (ST_OK, src ++ replicate (128 - length src) 0).

(** [sscanf(s, "%" PRIu64, &v)] *)
Definition is_digit (c : Z) : bool := (48 <=? c) && (c <=? 57).
Definition scan_space (c : Z) : bool := (c =? 32) || ((9 <=? c) && (c <=? 13)).

Fixpoint skip_while (p : Z → bool) (s : list Z) : list Z :=
  match s with
  | c :: s' => if p c then skip_while p s' else s
  | [] => []
  end.

Fixpoint scan_digits (acc : Z) (s : list Z) : Z :=
  match s with
  | c :: s => if is_digit c then scan_digits (Z.min U64_MAX (10 * acc + (c - 48))) s else acc
  | [] => acc
  end.

Definition scan_u64 (s : list Z) : option Z :=
  let s := skip_while scan_space s in
  let '(neg, s) := match s with
                   | c :: s' => if c =? 45 then (true, s') else if c =? 43 then (false, s') else (false, s)
                   | [] => (false, s)
                   end in
  match s with
  | c :: _ => if is_digit c then Some (let v := scan_digits 0 s in if (neg : bool) then u64 (- v) else v) else None
  | [] => None
  end.

(** ** The commands *)
Definition do_enable_debug (d : edit_disk) (args : argv) : edit_result := Some (ST_OK, [], mk_edit (ed_fd d) (ed_size d) (ed_super d) true).
Definition do_disable_debug (d : edit_disk) (args : argv) : edit_result := Some (ST_OK, [], mk_edit (ed_fd d) (ed_size d) (ed_super d) false).

(** [open_urandom] is the outcome of [open]. *)
Definition do_mkfs (open_urandom : sys_result ()) (d : edit_disk) (args : argv) : edit_result :=
  match open_urandom with
  | inl e => stop (status_of (- e)) d
  | inr _ =>
      '(r, uuid, k) ← safe_read URANDOM 16 (ed_fd d);
      let d := set_mounted k (ed_super d) d in
      if r <? 0 then stop (status_of r) d else
      '(r, k) ← safe_pwrite (cyanfs_super_make uuid) 0 (ed_fd d);
      stop (status_of r) (set_mounted k (ed_super d) d)
  end.

(** The files in the order of their ids; one more call than there are files. *)
Fixpoint list_loop (fuel : nat) (iter : Z) (s : cyanfs_super) : option (list edit_output) :=
  match fuel with
  | O => None
  | S fuel =>
      match cyanfs_list iter s with
      | (ST_OK, Some m) => out ← list_loop fuel (fm_id m) s; Some (PRINT_FILE m :: out)
      | _ => Some []
      end
  end.

Definition do_list (d : edit_disk) (args : argv) : edit_result :=
  w ← ed_super d;
  out ← list_loop (S (size (files_by_id (w_super w)))) 0 (w_super w);
  Some (ST_OK, out, d).

Definition do_statfs (d : edit_disk) (args : argv) : edit_result :=
  w ← ed_super d;
  match cyanfs_statfs (w_super w) with
  | (ST_OK, Some m) => Some (ST_OK, [PRINT_STATFS m], d)
  | (err, _) => stop err d
  end.

Definition do_compact (d : edit_disk) (args : argv) : edit_result :=
  w ← ed_super d;
  '(err, w) ← cyanfs_super_compact w;
  stop err (set_mounted (ed_fd d) (Some w) d).

Definition do_create (d : edit_disk) (args : argv) : edit_result :=
  w ← ed_super d;
  match args with
  | name :: _ =>
      let '(r, name) := cyanfs_file_name_copy name in
      if failed r then stop r d else
      let '(r, _, w) := cyanfs_create name w in
      stop r (set_mounted (ed_fd d) (Some w) d)
  | _ => stop inval d
  end.

(** [cyanfs_file_name_copy] and [cyanfs_lookup] of a command's first argument. *)
Definition find_file (name : list Z) (w : world) : cyanfs_status + cyanfs_file_meta :=
  let '(r, name) := cyanfs_file_name_copy name in
  if failed r then inl r else
  match cyanfs_lookup name (w_super w) with
  | (ST_OK, Some m) => inr m
  | (err, _) => inl err
  end.

(** [do_fork] and [do_rename] copy both names before they look up the first. *)
Definition find_pair (from to : list Z) (w : world) : cyanfs_status + (cyanfs_file_meta * cyanfs_file_name_t) :=
  let '(r, _) := cyanfs_file_name_copy from in
  if failed r then inl r else
  let '(r, to) := cyanfs_file_name_copy to in
  if failed r then inl r else
  match find_file from w with
  | inl r => inl r
  | inr m => inr (m, to)
  end.

Definition do_fork (d : edit_disk) (args : argv) : edit_result :=
  w ← ed_super d;
  match args with
  | from :: to :: _ =>
      match find_pair from to w with
      | inl r => stop r d
      | inr (m, to) => let '(r, _, w) := cyanfs_fork (fm_id m) to w in stop r (set_mounted (ed_fd d) (Some w) d)
      end
  | _ => stop inval d
  end.

Definition do_rename (d : edit_disk) (args : argv) : edit_result :=
  w ← ed_super d;
  match args with
  | from :: to :: _ =>
      match find_pair from to w with
      | inl r => stop r d
      | inr (m, to) => '(r, w) ← cyanfs_rename (fm_id m) to w; stop r (set_mounted (ed_fd d) (Some w) d)
      end
  | _ => stop inval d
  end.

Definition do_truncate (d : edit_disk) (args : argv) : edit_result :=
  w ← ed_super d;
  match args with
  | name :: size :: _ =>
      match find_file name w with
      | inl r => stop r d
      | inr m =>
          match scan_u64 size with
          | None => stop inval d
          | Some size =>
              if CYANFS_FILE_MAX_SIZE <? size then stop inval d else
              let size := Z.land (u64 (size + CYANFS_FILE_ALIGN_MASK)) (u64 (Z.lnot CYANFS_FILE_ALIGN_MASK)) in
              '(r, w) ← cyanfs_truncate (fm_id m) size w; stop r (set_mounted (ed_fd d) (Some w) d)
          end
      end
  | _ => stop inval d
  end.

Definition do_delete (d : edit_disk) (args : argv) : edit_result :=
  w ← ed_super d;
  match args with
  | name :: _ =>
      match find_file name w with
      | inl r => stop r d
      | inr m => '(r, w) ← cyanfs_delete (fm_id m) w; stop r (set_mounted (ed_fd d) (Some w) d)
      end
  | _ => stop inval d
  end.

(** Each extent is printed once. *)
Fixpoint extents_loop (fuel : nat) (file offset : Z) (s : cyanfs_super) : option (list edit_output) :=
  match fuel with
  | O => None
  | S fuel =>
      '(err, offset) ← cyanfs_seek_extent file offset s;
      if failed err then Some [] else
      out ← extents_loop fuel file (u64 (offset + CYANFS_EXTENT_SIZE)) s;
      Some (PRINT_EXTENT offset :: out)
  end.

Definition do_extents (d : edit_disk) (args : argv) : edit_result :=
  w ← ed_super d;
  match args with
  | name :: _ =>
      match find_file name w with
      | inl r => stop r d
      | inr m =>
          let '(r, s) := cyanfs_open (fm_id m) false (w_super w) in
          if failed r then stop r d else
          f ← files_by_id s !! fm_id m;
          out ← extents_loop (S (size (f_extents f))) (fm_id m) 0 s;
          s ← cyanfs_close (fm_id m) s;
          Some (ST_OK, out, set_mounted (ed_fd d) (Some (set_w_super s w)) d)
      end
  | _ => stop inval d
  end.

(** ** The commands that move data

    [wait] and [tries] are the bounds of [do_io]. *)
Section data.
Context (wait tries : nat).

(** [count]: what is left, at most an extent and at most [limit]. *)
Definition chunk (size offset limit : Z) : Z :=
  let count := u64 (size - offset) in
  let count := if CYANFS_EXTENT_SIZE <? count then CYANFS_EXTENT_SIZE else count in
  if limit <? count then limit else count.

(** An iteration handles an extent's worth of bytes or all that is left. *)
Definition chunk_fuel (length : Z) : nat := S (Z.to_nat (length / CYANFS_EXTENT_SIZE + 1)).

Fixpoint cat_loop (fuel : nat) (file size offset length : Z) (k : K) (w : world)
    : option (cyanfs_status * list edit_output * K * world) :=
  match fuel with
  | O => None
  | S fuel =>
      if negb ((offset <? size) && negb (length =? 0)) then Some (ST_OK, [], k, w) else
      let count := chunk size offset length in
      '(r, buffer, k, w) ← do_io wait tries file io_op_read offset count (replicate (Z.to_nat count) 0) k w;
      if failed r then Some (r, [], k, w) else
      '(r, k) ← safe_write buffer k;
      if r <? 0 then Some (status_of r, [], k, w) else
      '(r, out, k, w) ← cat_loop fuel file size (u64 (offset + count)) (u64 (length - count)) k w;
      Some (r, PRINT_DATA buffer :: out, k, w)
  end.

(** Opens the file, runs [body] on it, and closes it. *)
Definition with_file {A} (m : cyanfs_file_meta) (write : bool) (d : edit_disk) (w : world)
    (body : K → world → option (cyanfs_status * list A * K * world)) : option (cyanfs_status * list A * edit_disk) :=
  let '(r, s) := cyanfs_open (fm_id m) write (w_super w) in
  if failed r then Some (r, [], d) else
  '(r, out, k, w) ← body (ed_fd d) (set_w_super s w);
  s ← cyanfs_close (fm_id m) (w_super w);
  Some (r, out, set_mounted k (Some (set_w_super s w)) d).

Definition do_read (d : edit_disk) (args : argv) : edit_result :=
  w ← ed_super d;
  match args with
  | name :: off :: rest =>
      match find_file name w with
      | inl r => stop r d
      | inr m =>
          match scan_u64 off, match rest with l :: _ => scan_u64 l | [] => Some (u64 (fm_size m - default 0 (scan_u64 off))) end with
          | Some offset, Some length =>
              with_file m false d w (cat_loop (chunk_fuel length) (fm_id m) (fm_size m) offset length)
          | _, _ => stop inval d
          end
      end
  | _ => stop inval d
  end.

(** [read] may be interrupted or short. *)
Fixpoint put_loop (fuel : nat) (file size offset : Z) (k : K) (w : world)
    : option (cyanfs_status * list edit_output * K * world) :=
  match fuel with
  | O => None
  | S fuel =>
      if negb (offset <? size) then Some (ST_OK, [], k, w) else
      match read STDIN (chunk size offset CYANFS_EXTENT_SIZE) k with
      | (inl e, k) => if e =? EINTR then put_loop fuel file size offset k w else Some (status_of (- e), [], k, w)
      | (inr bs, k) =>
          let count := Z.of_nat (length bs) in
          if count =? 0 then Some (ST_OK, [], k, w) else
          '(r, _, k, w) ← do_io wait tries file io_op_write offset count bs k w;
          if failed r then Some (r, [], k, w) else put_loop fuel file size (u64 (offset + count)) k w
      end
  end.

Definition do_write (fuel : nat) (d : edit_disk) (args : argv) : edit_result :=
  w ← ed_super d;
  match args with
  | name :: off :: _ =>
      match find_file name w with
      | inl r => stop r d
      | inr m =>
          match scan_u64 off with
          | Some offset => with_file m true d w (put_loop fuel (fm_id m) (fm_size m) offset)
          | None => stop inval d
          end
      end
  | _ => stop inval d
  end.

Definition valid_file_range (offset length size : Z) : bool := (offset <=? size) && (length <=? u64 (size - offset)).

(** The two numbers of [fill], [check] and [discard]. *)
Definition range_args (args : argv) : option (list Z * option (Z * Z)) :=
  match args with
  | name :: off :: len :: _ =>
      Some (name, match scan_u64 off, scan_u64 len with Some o, Some l => Some (o, l) | _, _ => None end)
  | _ => None
  end.

(** A command on a range of a file: [body offset length] runs on the open file
    when the range lies in the file. *)
Definition on_range (write : bool) (d : edit_disk) (args : argv)
    (body : cyanfs_file_meta → Z → Z → K → world → option (cyanfs_status * list edit_output * K * world)) : edit_result :=
  w ← ed_super d;
  match range_args args with
  | None => stop inval d
  | Some (name, range) =>
      match find_file name w, range with
      | inl r, _ => stop r d
      | _, None => stop inval d
      | inr m, Some (offset, length) =>
          with_file m write d w (λ k w,
            if valid_file_range offset length (fm_size m) then body m offset length k w else Some (inval, [], k, w))
      end
  end.

Fixpoint fill_loop (v : Z) (fuel : nat) (file size offset length : Z) (k : K) (w : world)
    : option (cyanfs_status * list edit_output * K * world) :=
  match fuel with
  | O => None
  | S fuel =>
      if negb ((offset <? size) && negb (length =? 0)) then Some (ST_OK, [], k, w) else
      let count := chunk size offset length in
      '(r, _, k, w) ← do_io wait tries file io_op_write offset count (replicate (Z.to_nat count) v) k w;
      if failed r then Some (r, [], k, w)
      else fill_loop v fuel file size (u64 (offset + count)) (u64 (length - count)) k w
  end.

Definition __do_fill (d : edit_disk) (v : Z) (args : argv) : edit_result :=
  on_range true d args (λ m offset length, fill_loop v (chunk_fuel length) (fm_id m) (fm_size m) offset length).

Definition do_fill (d : edit_disk) (args : argv) : edit_result := __do_fill d 255 args.
Definition do_zero (d : edit_disk) (args : argv) : edit_result := __do_fill d 0 args.

Fixpoint check_loop (v : Z) (fuel : nat) (file size offset length : Z) (k : K) (w : world)
    : option (cyanfs_status * list edit_output * K * world) :=
  match fuel with
  | O => None
  | S fuel =>
      if negb ((offset <? size) && negb (length =? 0)) then Some (ST_OK, [], k, w) else
      let count := chunk size offset length in
      '(r, buffer, k, w) ← do_io wait tries file io_op_read offset count (replicate (Z.to_nat count) 0) k w;
      if failed r then Some (r, [], k, w)
      else if negb (bool_decide (buffer = replicate (Z.to_nat count) v)) then Some (status_of (- ESTALE), [], k, w)
      else check_loop v fuel file size (u64 (offset + count)) (u64 (length - count)) k w
  end.

Definition __do_check (d : edit_disk) (v : Z) (args : argv) : edit_result :=
  on_range false d args (λ m offset length, check_loop v (chunk_fuel length) (fm_id m) (fm_size m) offset length).

Definition do_fill_check (d : edit_disk) (args : argv) : edit_result := __do_check d 255 args.
Definition do_zero_check (d : edit_disk) (args : argv) : edit_result := __do_check d 0 args.

Definition do_discard (d : edit_disk) (args : argv) : edit_result :=
  on_range true d args (λ m offset length k w,
    '(r, _, k, w) ← do_io wait tries (fm_id m) io_op_discard offset length [] k w; Some (r, [], k, w)).

Definition do_sleep (d : edit_disk) (args : argv) : edit_result :=
  match args with
  | s :: _ => match scan_u64 s with Some _ => stop ST_OK d | None => stop inval d end
  | [] => stop inval d
  end.
End data.

(** ** Mounting

    [loops] bounds the runs of [do_loop]. *)
Definition openfs (loops : nat) (d : edit_disk) : option (cyanfs_status * edit_disk) :=
  match ed_super d with
  | Some _ => Some (ST_OK, d)
  | None =>
      match cyanfs_super_open (ed_size d) false true true [] with
      | None => Some (status_of (- ENOMEM), d)
      | Some w =>
          '(k, w) ← do_loop loops (ed_fd d) w;
          let close r k := _ ← cyanfs_super_close (w_super w); Some (r, set_mounted k None d) in
          if negb (cyanfs_super_is_ready (w_super w)) then close (status_of (- EIO)) k else
          let '(r, k) := pthread_new k in
          if negb (r =? 0) then close (status_of (- r)) k else
          let '(r, k) := pthread_new k in
          if negb (r =? 0) then close (status_of (- r)) k else
          let '(r, k) := pthread_new k in
          if negb (r =? 0) then close (status_of (- r)) k else
          Some (ST_OK, set_mounted k (Some (upd_super (cyanfs_super_set_new_task_callback (Some 0)) w)) d)
      end
  end.

(** The worker takes [n] more tasks before it sees [terminated]. *)
Definition closefs (loops n : nat) (d : edit_disk) : option (cyanfs_status * edit_disk) :=
  match ed_super d with
  | None => Some (ST_OK, d)
  | Some w =>
      '(k, w) ← loop_run n (ed_fd d) w;
      let w := upd_super (cyanfs_super_set_new_task_callback None) w in
      let '(r, w) := cyanfs_super_flush true w in
      '(k, w) ← do_loop loops k w;
      let status := cyanfs_super_status (w_super w) in
      _ ← cyanfs_super_close (w_super w);
      Some (if failed r then r else status, set_mounted k None d)
  end.

(** ** The interpreter of commands *)
Definition is_space (ch : Z) : bool := (ch =? 32) || (ch =? 9) || (ch =? 10) || (ch =? 13).

(** The word at the start of the line, and the rest of the line. *)
Fixpoint split_word (line : list Z) : list Z * list Z :=
  match line with
  | c :: l => if is_space c then ([], line) else let '(w, r) := split_word l in (c :: w, r)
  | [] => ([], [])
  end.

(** The loop of [split_line]; [line] does not start with a space. *)
Fixpoint split_words (fuel : nat) (line : list Z) (argc capacity : Z) : option (Z + argv) :=
  match line with
  | [] => Some (inr [])
  | _ =>
      match fuel with
      | O => None
      | S fuel =>
          if argc =? capacity then Some (inl (- E2BIG)) else
          let '(w, line) := split_word line in
          r ← split_words fuel (skip_while is_space line) (argc + 1) capacity;
          Some (match r with inl e => inl e | inr ws => inr (w :: ws) end)
      end
  end.

(** A line ends at its first zero byte. *)
Definition split_line (line : list Z) (capacity : Z) : option (Z + argv) :=
  let line := skip_while is_space (c_string line) in
  split_words (length line) line 0 capacity.

Inductive edit_op :=
  | OP_enable_debug | OP_disable_debug | OP_mkfs | OP_list | OP_statfs | OP_compact | OP_create | OP_fork | OP_rename
  | OP_truncate | OP_delete | OP_extents | OP_read | OP_write | OP_fill | OP_fill_check | OP_zero | OP_zero_check
  | OP_discard | OP_mount | OP_umount | OP_sleep | OP_batch.

(** [op_maps]: the names and what they are mapped to. *)
Definition op_maps : list (string * edit_op) :=
  [("enable-debug", OP_enable_debug); ("disable-debug", OP_disable_debug); ("mkfs", OP_mkfs); ("list", OP_list);
   ("statfs", OP_statfs); ("compact", OP_compact); ("create", OP_create); ("fork", OP_fork); ("rename", OP_rename);
   ("truncate", OP_truncate); ("delete", OP_delete); ("extents", OP_extents); ("read", OP_read); ("write", OP_write);
   ("fill", OP_fill); ("fill-check", OP_fill_check); ("zero", OP_zero); ("zero-check", OP_zero_check);
   ("discard", OP_discard); ("mount", OP_mount); ("umount", OP_umount); ("sleep", OP_sleep); ("batch", OP_batch)]%string.

Definition no_mount (op : edit_op) : bool :=
  match op with
  | OP_enable_debug | OP_disable_debug | OP_mkfs | OP_mount | OP_umount | OP_sleep | OP_batch => true
  | _ => false
  end.

(** The bytes of a name. *)
Definition string_bytes (s : string) : list Z := (λ c, Z.of_N (Ascii.N_of_ascii c)) <$> String.list_ascii_of_string s.

(** The last entry that matches. *)
Definition find_op (name : list Z) : option edit_op :=
  foldl (λ r '(n, op), if bool_decide (string_bytes n = name) then Some op else r) None op_maps.

Section commands.
(** The bounds of the loops; the outcome of [open] on [/dev/urandom]; the
    lines of a batch file (or of the standard input, for [-]), with the error
    that ends them (0 at the end of the file); the tasks the worker takes
    before a command. *)
Context (wait tries loops : nat) (open_urandom : sys_result ()).
Context (open_batch : list Z → sys_result (list (list Z) * Z)) (worker : edit_disk → nat).

Definition run_worker (d : edit_disk) : option edit_disk :=
  match ed_super d with
  | None => Some d
  | Some w => '(k, w) ← loop_run (worker d) (ed_fd d) w; Some (set_mounted k (Some w) d)
  end.

Definition silent (r : option (cyanfs_status * edit_disk)) : edit_result := '(err, d) ← r; Some (err, [], d).

(** The commands but [batch]. *)
Definition op_fn (op : edit_op) (d : edit_disk) (args : argv) : edit_result :=
  match op with
  | OP_enable_debug => do_enable_debug d args
  | OP_disable_debug => do_disable_debug d args
  | OP_mkfs => do_mkfs open_urandom d args
  | OP_list => do_list d args
  | OP_statfs => do_statfs d args
  | OP_compact => do_compact d args
  | OP_create => do_create d args
  | OP_fork => do_fork d args
  | OP_rename => do_rename d args
  | OP_truncate => do_truncate d args
  | OP_delete => do_delete d args
  | OP_extents => do_extents d args
  | OP_read => do_read wait tries d args
  | OP_write => do_write wait tries loops d args
  | OP_fill => do_fill wait tries d args
  | OP_fill_check => do_fill_check wait tries d args
  | OP_zero => do_zero wait tries d args
  | OP_zero_check => do_zero_check wait tries d args
  | OP_discard => do_discard wait tries d args
  | OP_mount => silent (openfs loops d)
  | OP_umount => silent (closefs loops (worker d) d)
  | OP_sleep => do_sleep d args
  | OP_batch => stop inval d
  end.

(** [call_fn]; [batch] is [do_batch]. *)
Definition call_fn (batch : edit_disk → argv → edit_result) (d : edit_disk) (args : argv) : edit_result :=
  match args with
  | [] => None
  | name :: args =>
      match find_op name with
      | None => stop inval d
      | Some op =>
          d ← run_worker d;
          '(r, d) ← if no_mount op then Some (ST_OK, d) else openfs loops d;
          if failed r then stop r d else
          match op with OP_batch => batch d args | _ => op_fn op d args end
      end
  end.

(** The loop of [do_batch] over the lines; it stops at the first error. *)
Fixpoint batch_loop (call : edit_disk → argv → edit_result) (lines : list (list Z)) (tail : Z) (d : edit_disk) : edit_result :=
  match lines with
  | [] => stop (status_of tail) d
  | line :: lines =>
      v ← split_line line 1024;
      match v with
      | inl e => stop (status_of e) d
      | inr [] => batch_loop call lines tail d
      | inr v =>
          '(r, out, d) ← call d v;
          if failed r then Some (r, out, d) else
          '(r, out', d) ← batch_loop call lines tail d;
          Some (r, out ++ out', d)
      end
  end.

(** [do_batch]; batch files nest at most [depth] deep. *)
Fixpoint do_batch (depth : nat) (d : edit_disk) (args : argv) : edit_result :=
  match depth with
  | O => None
  | S depth =>
      match args with
      | [] => stop inval d
      | path :: _ =>
          match open_batch path with
          | inl e => stop (status_of (- e)) d
          | inr (lines, tail) => batch_loop (call_fn (do_batch depth)) lines tail d
          end
      end
  end.

(** [main]: what the process returns and what was printed; [open_r],
    [size_r] and [close_r] are the outcomes of [open], of [stat_device_size]
    and of [close]. *)
Definition edit_main (depth : nat) (open_r : sys_result ()) (size_r : sys_result Z) (close_r : sys_result ()) (argc : Z)
    (args : argv) (k : K) : option (Z * list edit_output * K) :=
  if argc <? 3 then Some (-1, [], k) else
  match open_r, size_r with
  | inl _, _ | _, inl _ => Some (-1, [], k)
  | inr _, inr size =>
      '(r, out, d) ← call_fn (do_batch depth) (mk_edit k size None false) args;
      '(closefs_r, d) ← closefs loops (worker d) d;
      let '(sync_r, k) := fsync (ed_fd d) in
      let r := if failed r then r else closefs_r in
      let r := if failed r then r else match sync_r with inl e => status_of (- e) | inr _ => ST_OK end in
      let r := if failed r then r else match close_r with inl e => status_of (- e) | inr _ => ST_OK end in
      Some (if failed r then -1 else 0, out, k)
  end.
End commands.
End edit.
