(* ===== verification/EditLine.v ===== *)
(** * EditLine: the lines of a batch file

    What [split_line] of [utils/edit.c] makes of a line: its words, in order,
    when there is room for them. *)
From Stdlib Require Import ZArith Lia.
From S2P Require Import Prelude Base Errno Posix Edit.

(** A line is blanks, then words that are each followed by blanks. *)
Definition is_blank (b : list Z) : Prop := Forall (λ c, is_space c = true) b.
Definition is_word (w : list Z) : Prop := w ≠ [] ∧ Forall (λ c, is_space c = false) w.

(** Only the last word may end the line. *)
Inductive line_words : list (list Z) → list Z → Prop :=
  | lw_nil : line_words [] []
  | lw_last w : is_word w → line_words [w] w
  | lw_cons w c b ws line : is_word w → is_blank (c :: b) → line_words ws line → line_words (w :: ws) (w ++ (c :: b) ++ line).

Definition no_blank_first (s : list Z) : Prop := ∀ c s', s = c :: s' → is_space c = false.

Lemma skip_blank s : ∃ b, s = b ++ skip_while is_space s ∧ is_blank b ∧ no_blank_first (skip_while is_space s).
Proof.
  induction s as [|c s IH]; [by exists []; split_and!; [done|constructor|]|]. cbn [skip_while]. destruct (is_space c) eqn:E.
  - destruct IH as (b & Hs & Hb & Hn). exists (c :: b). split_and!; [by rewrite Hs at 1|by constructor|done].
  - exists []. split_and!; [done|constructor|]. by intros ? ? [= <- _].
Qed.

Lemma skip_blank_app b s : is_blank b → no_blank_first s → skip_while is_space (b ++ s) = s.
Proof.
  intros Hb Hs. induction Hb as [|c b Hc Hb IH]; cbn [app skip_while]; [|by rewrite Hc].
  destruct s as [|c s]; [done|]. cbn [skip_while]. by rewrite (Hs c s eq_refl).
Qed.

Lemma split_word_app w r : Forall (λ c, is_space c = false) w → r = [] ∨ (∃ c r', r = c :: r' ∧ is_space c = true) → split_word (w ++ r) = (w, r).
Proof.
  intros Hw Hr. induction Hw as [|c w Hc Hw IH]; cbn [app split_word].
  - destruct Hr as [->|(c & r' & -> & Hc)]; [done|]. cbn [split_word]. by rewrite Hc.
  - by rewrite Hc, IH.
Qed.

Lemma split_word_spec s :
  let '(w, r) := split_word s in s = w ++ r ∧ Forall (λ c, is_space c = false) w ∧ (r = [] ∨ ∃ c r', r = c :: r' ∧ is_space c = true).
Proof.
  induction s as [|c s IH]; cbn [split_word]; [by split_and!; [done|constructor|left]|]. destruct (is_space c) eqn:E.
  - split_and!; [done|constructor|]. right. by exists c, s.
  - destruct (split_word s) as [w r]. destruct IH as (-> & Hw & Hr). split_and!; [done|by constructor|done].
Qed.

Lemma line_words_first ws line : line_words ws line → no_blank_first line.
Proof.
  destruct 1 as [|w [Hne Hw]|w c b ws line [Hne Hw] _ _]; [done| |]; intros x s'; (destruct w as [|y w]; [done|]);
    apply Forall_cons in Hw as [Hy _]; by intros [= <- _].
Qed.

(** Every line that does not start with a blank is made of words. *)
Lemma line_words_exist n s : (length s ≤ n)%nat → no_blank_first s → ∃ ws, line_words ws s.
Proof.
  revert s. induction n as [|n IH]; intros s Hn Hs; [exists []; destruct s; [constructor|simpl in Hn; lia]|].
  destruct s as [|c s]; [exists []; constructor|]. pose proof (split_word_spec (c :: s)) as Hsp.
  destruct (split_word (c :: s)) as [w r] eqn:E. destruct Hsp as (Hsr & Hw & Hr).
  assert (Hword : is_word w).
  { split; [|done]. intros ->. cbn [split_word] in E. rewrite (Hs c s eq_refl) in E. by destruct (split_word s). }
  destruct Hr as [->|(x & r' & -> & Hx)]; [exists [w]; rewrite Hsr, app_nil_r; by constructor|].
  destruct (skip_blank r') as (b & Hb & Hbl & Hn'). destruct (IH (skip_while is_space r')) as (ws & Hws); [|done|].
  { apply (f_equal length) in Hsr, Hb. rewrite length_app in Hsr, Hb. simpl in *. lia. }
  exists (w :: ws). rewrite Hsr, Hb. change (x :: b ++ ?l) with ((x :: b) ++ l). constructor; [done|by constructor|done].
Qed.

(** The words are found. *)
Lemma split_words_line ws line fuel argc capacity :
  line_words ws line → (length line ≤ fuel)%nat → argc ≤ capacity →
  split_words fuel line argc capacity = Some (if argc + Z.of_nat (length ws) <=? capacity then inr ws else inl (- E2BIG)).
Proof.
  intros Hl. revert fuel argc. induction Hl as [|w [Hne Hw]|w c b ws line [Hne Hw] Hb Hl IH]; intros fuel argc Hf Hc.
  - destruct fuel; cbn; rewrite (proj2 (Z.leb_le _ _)) by lia; done.
  - destruct w as [|x w]; [done|]. destruct fuel as [|fuel]; [simpl in Hf; lia|]. cbn [split_words length].
    destruct (Z.eqb_spec argc capacity); [by rewrite (proj2 (Z.leb_gt _ _)) by lia|].
    rewrite <- (app_nil_r (x :: w)), (split_word_app (x :: w) []) by auto. cbn [skip_while].
    destruct fuel; cbn; rewrite (proj2 (Z.leb_le _ _)) by lia; by rewrite ?app_nil_r.
  - destruct w as [|x w]; [done|]. destruct fuel as [|fuel]; [simpl in Hf; lia|]. cbn [split_words app].
    destruct (Z.eqb_spec argc capacity); [cbn [length]; by rewrite (proj2 (Z.leb_gt _ _)) by lia|].
    change (x :: w ++ ?l) with ((x :: w) ++ l). rewrite (split_word_app (x :: w) (c :: b ++ line)) by (auto; right; apply Forall_cons in Hb as [Hb _]; eauto).
    change (c :: b ++ line) with ((c :: b) ++ line). rewrite skip_blank_app by (done || by eapply line_words_first).
    rewrite IH; [|rewrite !length_app in Hf; simpl in Hf; lia|lia]. cbn [mbind option_bind length]. do 2 f_equal.
    replace (argc + Z.of_nat (S (length ws))) with (argc + 1 + Z.of_nat (length ws)) by lia. by destruct (_ <=? _).
Qed.

(** The interpreter of batch files splits every line into its words.  A
    line (up to its first zero byte) is made of blanks and of words without
    blanks, and [split_line] returns these words, in order, when there are at
    most [capacity] of them, and [-E2BIG] when there are more; it always
    returns. *)
Theorem split_line_words line capacity :
  0 ≤ capacity →
  ∃ blanks ws rest, c_string line = blanks ++ rest ∧ is_blank blanks ∧ line_words ws rest ∧
    split_line line capacity = Some (if Z.of_nat (length ws) <=? capacity then inr ws else inl (- E2BIG)).
Proof.
  intros Hc. destruct (skip_blank (c_string line)) as (b & Hs & Hb & Hn). set (rest := skip_while is_space (c_string line)) in *.
  destruct (line_words_exist (length rest) rest ltac:(lia) Hn) as (ws & Hws). exists b, ws, rest. split_and!; [done|done|done|].
  unfold split_line. fold rest. rewrite (split_words_line ws rest _ 0 capacity Hws) by lia. by rewrite Z.add_0_l.
Qed.

Lemma split_line_words_witness :
  ∃ blanks ws rest, c_string [32; 97; 98; 9; 32; 99; 10] = blanks ++ rest ∧ is_blank blanks ∧ line_words ws rest.
Proof.
  destruct (split_line_words [32; 97; 98; 9; 32; 99; 10] 1024 ltac:(lia)) as (b & ws & rest & H1 & H2 & H3 & _).
  exists b, ws, rest. split; [exact H1|]. split; [exact H2|exact H3].
Defined.

Example split_line_example : split_line [32; 97; 98; 9; 32; 99; 10] 1024 = Some (inr [[97; 98]; [99]]).
Proof. reflexivity. Qed.
