(* ===== verification/EditSpec.v ===== *)
(** * EditSpec: the editor runs the instance

    On a device that answers, the executor of the editor ([do_loop] of
    [utils/edit.c]) does what the serial executor of [System] does, so that
    mounting a device recovers its journal. *)
From Stdlib Require Import ZArith Lia.
From S2P Require Import Prelude Disk Base Journal Spec Types Super SuperInv SuperOps Replay World JournalIO JournalRecord JournalScan Discard Compact Flusher Api ApiSpec ReadWrite System Recovery Errno Posix Edit.

(** ** Devices that answer

    A call may be interrupted and a transfer cut, but nothing fails. *)
Class ReliableFile (K : Type) `{!PosixFile K} : Prop := {
  rf_pread count off k r k' : 0 < count → pread count off k = (r, k') → match r with inl e => e = EINTR | inr bs => bs ≠ [] end;
  rf_pwrite data off k r k' : data ≠ [] → pwrite data off k = (r, k') → match r with inl e => e = EINTR | inr n => n ≠ 0 end;
  rf_fsync k r k' : fsync k = (r, k') → r = inr ();
  rf_pthread_new k r k' : pthread_new k = (r, k') → r = 0;
  rf_malloc n k r k' : malloc n k = (r, k') → r = true }.

#[export] Instance scheduled_reliable : ReliableFile scheduled.
Proof.
  split.
  - intros count off [d [|[|n] l] rnd] r k' Hc; cbn; intros [= <- <-]; [|done|]; intros E;
      apply (f_equal length) in E; rewrite length_disk_read in E; unfold scheduled_count in E; simpl in E; lia.
  - intros data off [d [|[|n] l] rnd] r k' Hne; cbn; intros [= <- <-]; [|done|];
      (destruct data; [done|]); unfold id, scheduled_count; cbn [length]; lia.
  - by intros k r k' [= <- <-].
  - by intros k r k' [= <- <-].
  - by intros n k r k' [= <- <-].
Qed.

Section reliable.
Context {K : Type} `{!PosixFile K, !ReliableFile K}.

Lemma safe_pread_loop_ok fuel buf offset c k r bs k' : safe_pread_loop fuel buf offset c k = Some (r, bs, k') → r = 0.
Proof.
  revert buf offset c k. induction fuel as [|fuel IH]; intros buf offset c k; cbn [safe_pread_loop];
    (destruct (Z.leb_spec c 0); [by intros [= <- _ _]|]); [done|].
  destruct (pread c offset k) as [x k1] eqn:E. pose proof (rf_pread c offset k x k1 ltac:(lia) E) as Hx. destruct x as [e|b].
  - rewrite Hx, Z.eqb_refl. apply IH.
  - destruct (Z.eqb_spec (Z.of_nat (length b)) 0); [by destruct b|]. apply IH.
Qed.

Lemma safe_pwrite_loop_ok fuel buf offset k r k' : safe_pwrite_loop fuel buf offset k = Some (r, k') → r = 0.
Proof.
  revert buf offset k. induction fuel as [|fuel IH]; intros buf offset k; cbn [safe_pwrite_loop];
    (destruct (decide (buf = [])) as [->|Hne]; [by intros [= <- _]|rewrite bool_decide_false by done]); [done|].
  destruct (pwrite buf offset k) as [x k1] eqn:E. pose proof (rf_pwrite buf offset k x k1 Hne E) as Hx. destruct x as [e|n].
  - rewrite Hx, Z.eqb_refl. apply IH.
  - destruct (Z.eqb_spec n 0); [done|]. apply IH.
Qed.

Lemma safe_pread_ok offset c k : ∃ k', safe_pread offset c k = Some (0, disk_read (pf_bytes k) offset c, k') ∧ pf_bytes k' ≡ pf_bytes k.
Proof.
  destruct (safe_pread_loop_spec (io_fuel c k) [] offset c k ltac:(lia)) as (r & bs & k' & E & Hb & _ & Hr).
  pose proof (safe_pread_loop_ok _ _ _ _ _ _ _ _ E) as ->. exists k'. split; [|done]. unfold safe_pread. rewrite E. by rewrite Hr.
Qed.

Lemma safe_pwrite_ok buf offset k : ∃ k', safe_pwrite buf offset k = Some (0, k') ∧ pf_bytes k' ≡ disk_write (pf_bytes k) offset buf.
Proof.
  destruct (safe_pwrite_loop_spec (io_fuel (Z.of_nat (length buf)) k) buf offset k ltac:(lia)) as (r & k' & E & _ & _ & Hr).
  pose proof (safe_pwrite_loop_ok _ _ _ _ _ _ E) as ->. exists k'. split; [done|]. by apply Hr.
Qed.

(** ** The executor *)

(** The callback a task runs. *)
Definition called_of (ty : cyanfs_task_type_t) : option Z := match ty with CYANFS_TASK_REQUEUE _ ctx => Some ctx | _ => None end.

(** A task of the editor is a task of the device. *)
Lemma task_io_sim ty k w d d' w' :
  pf_bytes k ≡ d → device_io ty d w = Some (d', w') →
  ∃ k', task_io ty k w = Some (ST_OK, called_of ty, k', w') ∧ pf_bytes k' ≡ d'.
Proof.
  intros Hd. destruct ty as [|off len buf|off len buf|src dst len| |off len|f ctx]; cbn [device_io task_io].
  - intros [= <- <-]. by exists k.
  - destruct (get_cursor buf w) as [c|]; [|done]. cbn [mbind option_bind]. intros [= <- <-].
    destruct (safe_pread_ok off len k) as (k' & -> & Hb). cbn [mbind option_bind]. exists k'. rewrite Hb. split; [|done].
    do 3 f_equal. rewrite length_disk_read, Hd. done.
  - destruct (get_cursor buf w) as [c|]; [|done]. cbn [mbind option_bind]. intros [= <- <-].
    destruct (safe_pwrite_ok (take (Z.to_nat len) (cur_page c)) off k) as (k' & -> & Hb). cbn [mbind option_bind].
    exists k'. by rewrite Hb, Hd.
  - intros [= <- <-]. destruct (malloc len k) as [ok k1] eqn:Em. rewrite (rf_malloc _ _ _ _ Em). cbn [negb].
    destruct (safe_pread_ok src len k1) as (k2 & -> & Hb2). cbn [mbind option_bind]. rewrite Z.eqb_refl. cbn [negb].
    destruct (safe_pwrite_ok (disk_read (pf_bytes k1) src len) dst k2) as (k3 & -> & Hb3). cbn [mbind option_bind].
    exists k3. split; [done|]. rewrite Hb3, Hb2. rewrite (malloc_law _ _ _ _ Em), Hd. apply disk_copy_write.
  - intros [= <- <-]. destruct (fsync k) as [r k1] eqn:Ef. rewrite (rf_fsync _ _ _ Ef). destruct (fsync_law _ _ _ Ef) as [Hb _].
    exists k1. by rewrite Hb.
  - intros [= <- <-]. by exists k.
  - intros [= <- <-]. by exists k.
Qed.

Lemma loop_step_sim k w d y :
  pf_bytes k ≡ d → sys_step ST_OK (mk_system w d) = Some y →
  ∃ r k', loop_step k w = Some (r, k', sys_world y) ∧ pf_bytes k' ≡ sys_disk y ∧
    (r = None → task_head (w_super w) = [] ∧ y = mk_system w d) ∧ (task_head (w_super w) = [] → r = None).
Proof.
  intros Hd. unfold sys_step, loop_step, cyanfs_super_get_task. cbn [sys_world sys_disk].
  destruct (task_head (w_super w)) as [|t q] eqn:Eq.
  - intros [= <-]. by exists None, k.
  - cbn [failed]. set (w1 := set_w_super _ w). destruct (device_io (t_type t) d w1) as [[d' w2]|] eqn:E; [|done]. cbn [mbind option_bind].
    destruct (cyanfs_super_task_done t ST_OK w2) as [w3|] eqn:Et; [|done]. cbn [mbind option_bind]. intros [= <-].
    destruct (task_io_sim _ _ _ _ _ _ Hd E) as (k' & -> & Hb). cbn [mbind option_bind]. rewrite Et. by eexists (Some _), k'.
Qed.

Lemma sys_run_idle n w d : task_head (w_super w) = [] → sys_run n (mk_system w d) = Some (mk_system w d).
Proof.
  intros Hq. induction n as [|n IH]; [done|]. cbn [sys_run]. unfold sys_step, cyanfs_super_get_task. cbn [sys_world]. by rewrite Hq.
Qed.

(** A run that ends with an empty queue is a run of [do_loop]. *)
Lemma do_loop_sim m k w d y :
  pf_bytes k ≡ d → sys_run m (mk_system w d) = Some y → task_head (w_super (sys_world y)) = [] →
  ∃ k', do_loop (S m) k w = Some (k', sys_world y) ∧ pf_bytes k' ≡ sys_disk y.
Proof.
  revert k w d. induction m as [|m IH]; intros k w d Hd Hr Hq.
  - injection Hr as <-. cbn [sys_world sys_disk] in *. exists k. split; [|done]. cbn [do_loop]. unfold loop_step, cyanfs_super_get_task. by rewrite Hq.
  - cbn [sys_run] in Hr. destruct (sys_step ST_OK (mk_system w d)) as [y1|] eqn:E; [|done]. cbn [mbind option_bind] in Hr.
    destruct (loop_step_sim k w d y1 Hd E) as (r & k1 & El & Hb1 & Hn & _). cbn [do_loop]. rewrite El. cbn [mbind option_bind].
    destruct r as [c|].
    + destruct y1 as [w1 d1]. by apply (IH k1 w1 d1).
    + destruct (Hn eq_refl) as [Hq1 ->]. rewrite sys_run_idle in Hr by done. injection Hr as <-. by exists k1.
Qed.

Lemma do_loop_mono n n' k w r : do_loop n k w = Some r → (n ≤ n')%nat → do_loop n' k w = Some r.
Proof.
  revert n' k w. induction n as [|n IH]; intros n' k w; [done|]. destruct n' as [|n']; [lia|]. cbn [do_loop].
  destruct (loop_step k w) as [[[[c|] k1] w1]|]; cbn [mbind option_bind]; intros H Hle; try done. apply IH; [done|lia].
Qed.

Lemma do_loop_same n n' k w r r' : do_loop n k w = Some r → do_loop n' k w = Some r' → r = r'.
Proof.
  intros H H'. apply (do_loop_mono _ (n + n')) in H; [|lia]. apply (do_loop_mono _ (n + n')) in H'; [|lia]. congruence.
Qed.
End reliable.

(** What [openfs] makes of the device. *)
Definition mount_outcome {K} `{!PosixFile K} (d : edit_disk) : Prop :=
  match disk_state (ed_size d) (pf_bytes (ed_fd d)) with
  | Some (h, a, st) => ∃ loops w d', openfs loops d = Some (ST_OK, d') ∧ ed_super d' = Some w ∧
      cyanfs_super_status (w_super w) = ST_OK ∧ wf (w_super w) ∅ ∧ abs (w_super w) = a ∧ pf_bytes (ed_fd d') ≡ pf_bytes (ed_fd d)
  | None => ∀ loops d', openfs loops d = Some (ST_OK, d') → ∃ w, ed_super d' = Some w ∧ cyanfs_super_status (w_super w) = ST_ERR ERR_IO
  end.

(** C34: mounting a device in the editor recovers its journal.  When the device
    answers, and whatever it holds, the executor of the editor comes to an end;
    if the device holds a journal that describes a file system, [openfs]
    succeeds with an instance that is ready in exactly that state and the
    device is as it was; otherwise no instance is mounted that is not marked
    failed. *)
Theorem openfs_mounts {K} `{!PosixFile K, !ReliableFile K} (d : edit_disk) :
  ed_super d = None → device_size_ok (ed_size d) → disk_bytes (pf_bytes (ed_fd d)) → mount_outcome d.
Proof.
  intros Hu Hs Hb. unfold mount_outcome. destruct (open_reads (ed_size d) (pf_bytes (ed_fd d)) Hs Hb false true) as (w0 & m & y & Eo & Hy%sys_reads_run & Hrec).
  generalize dependent (disk_state (ed_size d) (pf_bytes (ed_fd d))). intros ds Hrec. destruct Hrec as (Hd & Hq & Ha & _ & Hrec). destruct (do_loop_sim m (ed_fd d) w0 (pf_bytes (ed_fd d)) y) as (k1 & Hl & Hb1); [done|done|done|].
  destruct (pthread_new k1) as [r1 k2] eqn:E1. destruct (pthread_new k2) as [r2 k3] eqn:E2. destruct (pthread_new k3) as [r3 k4] eqn:E3.
  pose proof (rf_pthread_new _ _ _ E1) as ->. pose proof (rf_pthread_new _ _ _ E2) as ->. pose proof (rf_pthread_new _ _ _ E3) as ->.
  destruct ds as [[[h a] st]|].
  - destruct Hrec as (Hst & Hab & Hwf & _). exists (S m). unfold openfs. rewrite Hu, Eo, Hl. cbn [mbind option_bind].
    apply ensure_status_ok in Hst as [He Hr]. unfold cyanfs_super_is_ready. rewrite Hr. cbn [negb]. rewrite E1, E2, E3. cbn [negb Z.eqb].
    eexists _, _. split; [done|]. cbn [ed_super set_mounted]. split; [done|]. split_and!.
    + by apply ensure_status_ok.
    + destruct Hwf as [Hwe Hwn Hwi]. split; [|by apply Hwn|by apply Hwi].
      apply (wf_ext_files (w_super (sys_world y)) _ ∅ Hwe); try done; intros id f Hf; left; by exists f.
    + done.
    + cbn. rewrite (proj2 (pthread_new_law _ _ _ E3)), (proj2 (pthread_new_law _ _ _ E2)), (proj2 (pthread_new_law _ _ _ E1)). by rewrite Hb1, Hd.
  - intros loops d'. unfold openfs. rewrite Hu, Eo. destruct (do_loop loops (ed_fd d) w0) as [[k w]|] eqn:El; [|done]. cbn [mbind option_bind].
    pose proof (do_loop_same _ _ _ _ _ _ Hl El) as [= <- <-]. destruct (negb (cyanfs_super_is_ready _)); [by destruct (cyanfs_super_close _)|].
    rewrite E1, E2, E3. cbn [negb Z.eqb]. intros [= <-]. eexists. split; [done|]. exact Hrec.
Qed.

Definition ex_edit : edit_disk := mk_edit (mk_scheduled (formatted ex_uuid) [100%nat; 0%nat; 8000%nat] 0) ex_size None false.

Lemma ex_formatted_bytes : disk_bytes (formatted ex_uuid).
Proof. apply formatted_bytes, (bool_decide_unpack _). vm_compute. exact I. Qed.

Lemma openfs_mounts_witness : mount_outcome ex_edit.
Proof. apply (openfs_mounts ex_edit); [reflexivity|exact ex_size_ok|exact ex_formatted_bytes]. Defined.
