(* ===== verification/EditWrite.v ===== *)
(** * EditWrite: the bytes of a file

    What a write of the editor does to the contents of the files, as bytes on
    the device: the file written to shows the data, a fork is copied before it
    is written to, and no other file changes. *)
From Stdlib Require Import ZArith Lia.
From S2P Require Import Prelude Disk Base Journal Spec Types Super SuperInv SuperOps Replay World JournalIO Discard Compact Flusher FlusherSpec Api ApiSpec Handles ReadWrite ReadSpec WriteSpec CopySpec ReuseSpec JournalRecord JournalScan JournalLog WriterSpec System Recovery FlushLive Errno Posix Edit EditSpec.

(** ** The contents of a file *)

(** The byte at [x] of file [id]: in the extent the file shows there, or zero. *)
Definition byte_at (s : cyanfs_super) (d : disk) (id x v : Z) : Prop :=
  ∃ r, visible s id (x / CYANFS_EXTENT_SIZE) r ∧ v = match r with Some n => d (cyanfs_map_extent_offset n x) | None => 0 end.

Lemma byte_at_fun s d id x v v' : byte_at s d id x v → byte_at s d id x v' → v = v'.
Proof. intros (r & Hr & ->) (r' & Hr' & ->). by rewrite (visible_fun _ _ _ _ _ Hr Hr'). Qed.

(** The range lies in one extent. *)
Definition one_extent (off len : Z) : Prop := 0 ≤ off ∧ 0 < len ∧ off / CYANFS_EXTENT_SIZE = (off + len - 1) / CYANFS_EXTENT_SIZE.

Lemma one_extent_space off len : one_extent off len → off + len ≤ 2 ^ 50 → cyanfs_map_extent_space off len = len.
Proof.
  intros (Ho & Hl & He) Hb. change (2 ^ 50) with 1125899906842624 in Hb.
  rewrite map_extent_space_eq by (change (2 ^ 52) with 4503599627370496; lia). change CYANFS_EXTENT_SIZE with 1048576 in He.
  pose proof (Z.div_mod off 1048576 ltac:(lia)). pose proof (Z.mod_pos_bound off 1048576 ltac:(lia)).
  pose proof (Z.div_mod (off + len - 1) 1048576 ltac:(lia)). pose proof (Z.mod_pos_bound (off + len - 1) 1048576 ltac:(lia)). lia.
Qed.

(** Addresses in extents. *)
Lemma address n x : 0 ≤ n < 1073741824 → cyanfs_map_extent_offset n x = 8192 + 1048576 * n + x mod 1048576.
Proof. intros Hn. apply map_extent_offset_eq. lia. Qed.

Lemma address_range n off len x :
  0 ≤ n < 1073741824 → one_extent off len → x / CYANFS_EXTENT_SIZE = off / CYANFS_EXTENT_SIZE →
  cyanfs_map_extent_offset n x = cyanfs_map_extent_offset n off + (x - off).
Proof.
  intros Hn (Ho & Hl & _) Hx. rewrite !address by done. change CYANFS_EXTENT_SIZE with 1048576 in Hx.
  pose proof (Z.div_mod off 1048576 ltac:(lia)). pose proof (Z.div_mod x 1048576 ltac:(lia)). lia.
Qed.

(** The write stays in its extent. *)
Lemma address_other n m off len x :
  0 ≤ n < 1073741824 → 0 ≤ m < 1073741824 → n ≠ m → one_extent off len →
  let a := cyanfs_map_extent_offset m x in a < cyanfs_map_extent_offset n off ∨ cyanfs_map_extent_offset n off + len ≤ a.
Proof.
  intros Hn Hm Hne (Ho & Hl & He). cbn zeta. rewrite !address by done. change CYANFS_EXTENT_SIZE with 1048576 in He.
  pose proof (Z.mod_pos_bound x 1048576 ltac:(lia)). pose proof (Z.div_mod off 1048576 ltac:(lia)). pose proof (Z.mod_pos_bound off 1048576 ltac:(lia)).
  pose proof (Z.div_mod (off + len - 1) 1048576 ltac:(lia)). pose proof (Z.mod_pos_bound (off + len - 1) 1048576 ltac:(lia)). lia.
Qed.

(** A copy of an extent onto another. *)
Section copy.
Context (d : disk) (m n : Z) (Hm : 0 ≤ m < 1073741824) (Hn : 0 ≤ n < 1073741824).
Local Notation copy := (disk_copy d (cyanfs_map_extent_offset m 0) (cyanfs_map_extent_offset n 0) CYANFS_EXTENT_SIZE).

Lemma copy_inside x : copy (cyanfs_map_extent_offset n x) = d (cyanfs_map_extent_offset m x).
Proof using Hm Hn.
  unfold disk_copy. rewrite !address by done. change CYANFS_EXTENT_SIZE with 1048576. rewrite Z.mod_0_l by lia.
  pose proof (Z.mod_pos_bound x 1048576 ltac:(lia)). rewrite (proj2 (Z.leb_le _ _)), (proj2 (Z.ltb_lt _ _)) by lia. cbn [andb]. f_equal. lia.
Qed.

Lemma copy_outside j x : 0 ≤ j < 1073741824 → j ≠ n → copy (cyanfs_map_extent_offset j x) = d (cyanfs_map_extent_offset j x).
Proof using Hn.
  intros Hj Hne. unfold disk_copy. rewrite (address n 0), (address j x) by done. change CYANFS_EXTENT_SIZE with 1048576. rewrite Z.mod_0_l by lia.
  pose proof (Z.mod_pos_bound x 1048576 ltac:(lia)).
  destruct (Z.leb_spec (8192 + 1048576 * n + 0) (8192 + 1048576 * j + x mod 1048576)); [|done].
  destruct (Z.ltb_spec (8192 + 1048576 * j + x mod 1048576) (8192 + 1048576 * n + 0 + 1048576)); [lia|done].
Qed.
End copy.

(** ** What is shown after an extent was bound *)
Section shown.
Context (s : cyanfs_super) (fl : gmap Z (gset Z)) (id i n : Z) (f : cyanfs_file).
Context (Hwf : wf s fl) (Hf : files_by_id s !! id = Some f) (Hrw : f_open_type f = CYANFS_FILE_READWRITE).

Lemma rw_no_forks c g : files_by_id s !! c = Some g → f_parent g ≠ Some id.
Proof using Hwf Hf Hrw.
  apply (no_forks s id f c g (wf_has_ns _ _ Hwf) Hf).
  apply (wn_open _ _ _ _ (wf_has_ns _ _ Hwf) id (strip f)); [by rewrite lookup_fmap, Hf|done].
Qed.

Lemma shown_same s' j k r : files_by_id s' = files_by_id s → visible s j k r → visible s' j k r.
Proof using.
  intros E Hv. induction Hv as [j g k m Hg Hlt Hm|j g p k r Hg Hlt Hk Hp Hv IH|j g k Hg Hlt Hk Hp|j g k Hg Hge]; rewrite <- E in Hg.
  - by apply (vis_own s' j g).
  - by apply (vis_inherited s' j g p).
  - by apply (vis_hole s' j g).
  - by apply (vis_beyond s' j g).
Qed.

(** The file itself, elsewhere. *)
Lemma shown_self s' k r :
  files_by_id s' = <[id := with_extents (<[i := n]> (f_extents f)) f]> (files_by_id s) → k ≠ i → visible s id k r → visible s' id k r.
Proof using Hwf Hf Hrw.
  intros E Hk Hv. set (f' := with_extents _ f) in *. assert (Hf' : files_by_id s' !! id = Some f') by (rewrite E; apply lookup_insert_eq).
  inversion Hv as [? g ? m Hg Hlt Hm|? g p ? ? Hg Hlt Hx Hp Hvp|? g ? Hg Hlt Hx Hp|? g ? Hg Hge]; subst; rewrite Hf in Hg; injection Hg as <-.
  - apply (vis_own s' id f'); [done|done|]. simpl. by rewrite lookup_insert_ne.
  - apply (vis_inherited s' id f' p); [done|done|simpl; by rewrite lookup_insert_ne|done|].
    apply (visible_frame s s' id); [apply rw_no_forks| | |done].
    + intros c g Hc Hg. exists g. by rewrite E, lookup_insert_ne.
    + intros ->. by destruct (rw_no_forks id f Hf).
  - apply (vis_hole s' id f'); [done|done|simpl; by rewrite lookup_insert_ne|done].
  - by apply (vis_beyond s' id f').
Qed.

(** An extent a file shows is owned at that index, so it is in range. *)
Lemma shown_range j k m : visible s j k (Some m) → 0 ≤ m < 1073741824.
Proof using Hwf.
  intros Hv. destruct (visible_node s fl j k m (wf_has_ext _ _ Hwf) Hv) as (_ & _ & _ & _ & Hr).
  pose proof (we_total _ _ (wf_has_ext _ _ Hwf)) as Ht. change CYANFS_EXTENT_COUNT_MAX with 1073741824 in Ht. lia.
Qed.

Lemma shown_index j k m : visible s j k (Some m) → f_extents f !! i = Some m → j = id ∧ k = i.
Proof using Hwf Hf Hrw.
  intros Hv Hm. destruct (visible_owner s j k m Hv) as (a & g & Ha & Hk & Hc).
  assert (E : P_FILE a k = P_FILE id i) by (apply (owns_unique _ _ (wf_has_ext _ _ Hwf) _ _ m); simpl; eauto).
  injection E as -> ->. split; [|done]. destruct Hc as [->|(c & h & Hh & Hp)]; [done|]. by destruct (rw_no_forks c h Hh).
Qed.

Lemma free_range m : m ∈ free_extents s → 0 ≤ m < 1073741824.
Proof using Hwf.
  intros Hfr. pose proof (owns_range s fl (wf_has_ext _ _ Hwf) (P_TREE T_FREE) m Hfr) as Hr.
  pose proof (we_total _ _ (wf_has_ext _ _ Hwf)) as Ht. change CYANFS_EXTENT_COUNT_MAX with 1073741824 in Ht. lia.
Qed.

Lemma shown_not_free j k m : visible s j k (Some m) → m ∉ free_extents s.
Proof using Hwf.
  intros Hv Hfr. destruct (visible_owner s j k m Hv) as (a & g & Ha & Hk & _).
  assert (Ho : owns s fl (P_FILE a k) m) by (simpl; eauto).
  by pose proof (owns_unique _ _ (wf_has_ext _ _ Hwf) (P_TREE T_FREE) (P_FILE a k) m Hfr Ho).
Qed.
End shown.

(** From [s] and [d] to [s'] and [d'], the data was written to file [id] at
    [off]: the file shows it, the rest of the file is as it was (but for the
    rest of an extent where there was a hole), and so are the other files. *)
Record content_written (s : cyanfs_super) (d : disk) (s' : cyanfs_super) (d' : disk) (id off : Z) (data : list Z) : Prop := {
  cw_data : ∀ x v, off ≤ x → data !! Z.to_nat (x - off) = Some v → byte_at s' d' id x v;
  cw_self : ∀ x v, ¬ off ≤ x < off + Z.of_nat (length data) →
    (x / CYANFS_EXTENT_SIZE = off / CYANFS_EXTENT_SIZE → ∃ m, visible s id (off / CYANFS_EXTENT_SIZE) (Some m)) →
    byte_at s d id x v → byte_at s' d' id x v;
  cw_others : ∀ j x v, j ≠ id → byte_at s d j x v → byte_at s' d' j x v }.

Lemma disk_write_at d off data x v : off ≤ x → data !! Z.to_nat (x - off) = Some v → disk_write d off data x = v.
Proof.
  revert off. induction data as [|b data IH]; intros off Hx; [by rewrite lookup_nil|]. rewrite disk_write_cons. case_decide as E.
  - subst. rewrite Z.sub_diag. by intros [= <-].
  - replace (Z.to_nat (x - off)) with (S (Z.to_nat (x - (off + 1)))) by lia. apply IH. lia.
Qed.

Section written.
Context (s : cyanfs_super) (fl : gmap Z (gset Z)) (id n : Z) (f : cyanfs_file) (off : Z) (data : list Z) (s' : cyanfs_super) (d d1 d' : disk).
Local Notation i := (off / CYANFS_EXTENT_SIZE).
Context (Hwf : wf s fl) (Hf : files_by_id s !! id = Some f) (Hrw : f_open_type f = CYANFS_FILE_READWRITE).
Context (Hone : one_extent off (Z.of_nat (length data))) (Hsize : CYANFS_EXTENT_SIZE * i < fm_size (f_meta f)) (Hn : 0 ≤ n < 1073741824).

(** The extent [n] is the file's own, or was free and is bound now. *)
Definition placed : Prop :=
  f_extents f !! i = Some n ∧ files_by_id s' = files_by_id s ∨
  n ∈ free_extents s ∧ f_extents f !! i = None ∧ files_by_id s' = <[id := with_extents (<[i := n]> (f_extents f)) f]> (files_by_id s).

Context (Hpl : placed) (Hd' : d' ≡ disk_write d1 (cyanfs_map_extent_offset n off) data).
Context (Hout : ∀ m x, 0 ≤ m < 1073741824 → m ≠ n → d1 (cyanfs_map_extent_offset m x) = d (cyanfs_map_extent_offset m x)).
Context (Hin : ∀ m x, x / CYANFS_EXTENT_SIZE = i → visible s id i (Some m) → d1 (cyanfs_map_extent_offset n x) = d (cyanfs_map_extent_offset m x)).

Lemma placed_shown : visible s' id i (Some n).
Proof using Hf Hsize Hpl.
  destruct Hpl as [[Hx E]|(_ & _ & E)].
  - apply (vis_own s' id f); [by rewrite E|done|done].
  - apply (vis_own s' id (with_extents (<[i := n]> (f_extents f)) f)); [rewrite E; apply lookup_insert_eq|done|simpl; apply lookup_insert_eq].
Qed.

Lemma placed_other j k r : j ≠ id ∨ k ≠ i → visible s j k r → visible s' j k r.
Proof using Hwf Hf Hrw Hpl.
  intros Hjk Hv. destruct Hpl as [[_ E]|(_ & _ & E)]; [by apply (shown_same s)|]. destruct (decide (j = id)) as [->|Hj].
  - apply (shown_self s fl id i n f Hwf Hf Hrw s'); [done|by destruct Hjk|done].
  - apply (visible_frame s s' id); [by apply (rw_no_forks s fl id f)| |done|done]. intros c g Hc Hg. exists g. by rewrite E, lookup_insert_ne.
Qed.

(** Nobody else shows [n]. *)
Lemma placed_hidden j k m : j ≠ id ∨ k ≠ i → visible s j k (Some m) → m ≠ n.
Proof using Hwf Hf Hrw Hpl.
  intros Hjk Hv ->. destruct Hpl as [[Hx _]|[Hfr _]]; [|by apply (shown_not_free s fl Hwf j k n)].
  destruct (shown_index s fl id i f Hwf Hf Hrw j k n Hv Hx) as [-> ->]. by destruct Hjk.
Qed.

Lemma other_byte j x v : j ≠ id ∨ x / CYANFS_EXTENT_SIZE ≠ i → byte_at s d j x v → byte_at s' d' j x v.
Proof using Hwf Hf Hrw Hpl Hd' Hout Hone Hn.
  intros Hjk (r & Hr & ->). exists r. split; [by apply placed_other|]. destruct r as [m|]; [|done].
  pose proof (placed_hidden j _ m Hjk Hr) as Hne. pose proof (shown_range s fl Hwf j _ m Hr) as Hm.
  rewrite (Hd' _), disk_write_out; [by rewrite Hout|]. by apply address_other.
Qed.

Lemma placed_written : content_written s d s' d' id off data.
Proof using Hwf Hf Hrw Hpl Hd' Hout Hone Hn Hsize Hin.
  assert (Hone' := Hone). destruct Hone' as (Ho & Hl & He). split.
  - intros x v Hx Hv. pose proof (lookup_lt_Some _ _ _ Hv) as Hlt.
    assert (Hi : x / CYANFS_EXTENT_SIZE = i).
    { change CYANFS_EXTENT_SIZE with 1048576 in *. apply Z.le_antisymm; [rewrite He|]; apply Z.div_le_mono; lia. }
    exists (Some n). rewrite Hi. split; [apply placed_shown|]. rewrite (Hd' _), (address_range n off _ x Hn Hone Hi).
    symmetry. apply disk_write_at; [lia|]. by replace (cyanfs_map_extent_offset n off + (x - off) - cyanfs_map_extent_offset n off) with (x - off) by lia.
  - intros x v Hx Hm Hb. destruct (decide (x / CYANFS_EXTENT_SIZE = i)) as [Hi|Hi]; [|by apply other_byte; [right|]].
    destruct (Hm Hi) as (m & Hv). destruct Hb as (r & Hr & ->). rewrite Hi in Hr. rewrite (visible_fun _ _ _ _ _ Hr Hv).
    exists (Some n). rewrite Hi. split; [apply placed_shown|]. rewrite <- (Hin m x Hi Hv), (Hd' _). rewrite (address_range n off _ x Hn Hone Hi).
    symmetry. apply disk_write_out. lia.
  - intros j x v Hj. apply other_byte. by left.
Qed.
End written.

(** ** The run of a write *)
Lemma frame_trans s1 s2 s3 : jview_frame s1 s2 → jview_frame s2 s3 → jview_frame s1 s3.
Proof. intros [? ? ? ?] [? ? ? ?]. split; congruence. Qed.

Lemma core_frame s s' : same_core s s' → jview_frame s s'.
Proof. intros [? ? ? ? _ ?]. by split. Qed.

Lemma flusher_start_frame n ondisk w : jview_frame (w_super w) (w_super (cyanfs_super_flusher_start n ondisk w).2).
Proof.
  unfold cyanfs_super_flusher_start. generalize (ondisk || has_flag (w_super w) CYANFS_SUPER_FLAG_FLUSH). intros od. cbv zeta.
  destruct (failed _ || _); [done|]. destruct (malloc_same w) as [l El]. destruct (cyanfs_malloc w) as [ok w1]. cbn [snd] in El. subst w1.
  destruct ok; cbn [negb]; [|done]. destruct (negb (_ || _)); [done|]. by destruct (bool_decide _), od.
Qed.

(** The end of an iteration, and of the write. *)
Definition write_end (o : write_outcome) (w : world) : world :=
  let w := match wo_writer o with Some current => upd_super (writers_add current (-1)) w | None => w end in
  if false || wo_journal o then cyanfs_super_flush_new_journal w else w.

Lemma write_end_frame o w : jview_frame (w_super w) (w_super (write_end o w)).
Proof.
  unfold write_end. set (w1 := match wo_writer o with Some _ => _ | None => _ end).
  assert (H1 : jview_frame (w_super w) (w_super w1)) by (unfold w1; destruct (wo_writer o); [apply core_frame, writers_core|done]).
  destruct (false || wo_journal o); [|done]. by eapply frame_trans, flusher_start_frame.
Qed.

Section one.
Context {C : Type} (handler : io_handler C) (id : Z) (f : cyanfs_file) (off len : Z) (w : world).
Context (Hf : files_by_id (w_super w) !! id = Some f) (Hrw : f_open_type f = CYANFS_FILE_READWRITE).
Context (Hone : one_extent off len) (Hsz : off + len ≤ fm_size (f_meta f)) (Hmax : fm_size (f_meta f) ≤ 2 ^ 50).

(** A write inside one extent takes one iteration. *)
Lemma write_one ctx o err ctx' w1 :
  write_extent (λ w, w) id off w = Some o → write_dispatch handler (wo_err o) (wo_extent o) off len ctx (wo_world o) = Some (err, ctx', w1) →
  cyanfs_write handler (λ w, w) id ctx off len w = Some (err, ctx', write_end o w1).
Proof using Hf Hrw Hone Hsz Hmax.
  intros Ho Hd. destruct Hone as (Hoff & Hlen & _). change (2 ^ 50) with 1125899906842624 in Hmax.
  unfold cyanfs_write. rewrite Hf. cbn [mbind option_bind]. unfold range_invalid.
  destruct (Z.eqb_spec len 0); [lia|]. rewrite bool_decide_true by done. destruct (Z.ltb_spec (fm_size (f_meta f)) off); [lia|].
  destruct (Z.ltb_spec (fm_size (f_meta f) - off) len); [lia|]. cbn [negb orb].
  destruct (Z.to_nat len) as [|fuel] eqn:En; [lia|]. cbn [write_loop]. destruct (Z.eqb_spec len 0); [lia|].
  rewrite (one_extent_space off len Hone) by (change (2 ^ 50) with 1125899906842624; lia). rewrite Ho. cbn [mbind option_bind].
  rewrite Hd. cbn [mbind option_bind]. unfold write_end. destruct (failed err) eqn:Ee; [done|].
  rewrite Z.sub_diag, (u64_small 0) by lia. destruct err; [|done]. destruct fuel; reflexivity.
Qed.
End one.

Lemma malloc_none w : w_malloc w = [] → cyanfs_malloc w = (true, w).
Proof. intros Hm. unfold cyanfs_malloc. by rewrite Hm. Qed.

(** A write uses up no memory that is granted anyway. *)
Lemma write_mapped_malloc n j w o : write_mapped n j w = Some o → w_malloc (wo_world o) = w_malloc w.
Proof. unfold write_mapped. intros E. destruct (nodes _ !! n); [|done]. by injection E as <-. Qed.

Lemma write_alloc_malloc id off parent w o : write_alloc id off parent w = Some o → w_malloc (wo_world o) = w_malloc w.
Proof.
  unfold write_alloc. intros E. destruct (failed _); [by injection E as <-|].
  destruct (files_by_id _ !! id) as [f|]; [|done]. cbn [mbind option_bind] in E.
  destruct (__cyanfs_file_find_extent f off); [by apply write_mapped_malloc in E|].
  destruct (__cyanfs_file_alloc_extent _ _ _) as [[[n|] s]|]; [|by injection E as <-|done]. cbn [mbind option_bind] in E.
  destruct (nodes s !! n); [|done]. cbn [mbind option_bind] in E. destruct parent; exact (write_mapped_malloc _ _ _ _ E).
Qed.

Lemma write_extent_malloc id off w o : w_malloc w = [] → write_extent (λ w, w) id off w = Some o → w_malloc (wo_world o) = [].
Proof.
  intros Hm. unfold write_extent. rewrite (malloc_none w Hm). cbn [negb]. rewrite (malloc_none w Hm). cbn [negb]. intros E.
  destruct (failed _); [by injection E as <-|]. destruct (files_by_id _ !! id) as [f|]; [|done]. cbn [mbind option_bind] in E.
  destruct (__cyanfs_file_find_extent f off); [apply write_mapped_malloc in E; congruence|].
  destruct (__cyanfs_file_find_extent_follow _ _ _) as [[p|]|]; [| |done]; cbn [mbind option_bind] in E;
    [|apply write_alloc_malloc in E; congruence].
  destruct (nodes _ !! p) as [e|]; [|done]. cbn [mbind option_bind] in E.
  destruct (ext_error e); [by injection E as <-|]. destruct (ext_pending e); [by injection E as <-|]. apply write_alloc_malloc in E. congruence.
Qed.

(** ** The editor *)
Section editor.
Context {K : Type} `{!PosixFile K, !ReliableFile K}.

Lemma status_of_0 : status_of 0 = ST_OK.
Proof. done. Qed.

(** The handler writes a piece. *)
Lemma partial_submit wait again file b_off data ctx w :
  io_buffer ctx = data → ∃ k', pf_bytes k' ≡ disk_write (pf_bytes (io_k ctx)) b_off data ∧
  do_io_partial wait again file io_op_write CYANFS_MAP_SUBMIT b_off (Z.of_nat (length data)) ctx w =
  Some (ST_OK, mk_ioctx k' (io_passed ctx ++ data) [] (u64 (io_offset ctx + Z.of_nat (length data))), w).
Proof.
  intros Hb. destruct (safe_pwrite_ok data b_off (io_k ctx)) as (k' & E & Hk'). exists k'. split; [done|].
  unfold do_io_partial. rewrite Hb, Nat2Z.id, firstn_all, E. cbn [mbind option_bind]. rewrite status_of_0. cbn [failed].
  unfold ioctx_advance, set_io. cbn [io_k io_passed io_buffer io_offset]. by rewrite Nat2Z.id, firstn_all, skipn_all.
Qed.

(** The worker takes the first task of an idle queue. *)
Lemma loop_take ty dn q k w :
  task_head (w_super w) = mk_task ty dn :: q → active_tasks (w_super w) = 0 →
  loop_step k w = '(err, called, k, w) ← task_io ty k (with_queue q 1 w); w ← cyanfs_super_task_done (mk_task ty dn) err w; Some (Some called, k, w).
Proof. intros Hq Ha. unfold loop_step, cyanfs_super_get_task. rewrite Hq, Ha. reflexivity. Qed.

(** Starting a flusher queues behind. *)
Lemma flusher_start_behind n ondisk w :
  let w' := (cyanfs_super_flusher_start n ondisk w).2 in
  __cyanfs_super_ensure_status (w_super w') = __cyanfs_super_ensure_status (w_super w) ∧
  active_tasks (w_super w') = active_tasks (w_super w) ∧ ∃ q, task_head (w_super w') = task_head (w_super w) ++ q.
Proof.
  unfold cyanfs_super_flusher_start. generalize (ondisk || has_flag (w_super w) CYANFS_SUPER_FLAG_FLUSH). intros od. cbv zeta.
  assert (Hsame : ∃ q, task_head (w_super w) = task_head (w_super w) ++ q) by (exists []; by rewrite app_nil_r).
  destruct (failed _ || _); [done|]. destruct (malloc_same w) as [l El]. destruct (cyanfs_malloc w) as [ok w1]. cbn [snd] in El. subst w1.
  destruct ok; cbn [negb]; [|done]. destruct (negb (_ || _)); [done|].
  set (t1 := mk_task CYANFS_TASK_NOP (cyanfs_journal_writer_encode (WRITER_FLUSHER (w_next w)))).
  set (t2 := mk_task CYANFS_TASK_NOP (cyanfs_super_flusher_before_flush (w_next w))).
  set (t3 := mk_task CYANFS_TASK_NOP (cyanfs_super_flusher_free (w_next w))).
  split_and!; [|by destruct (bool_decide _), od|].
  - destruct od; [|by destruct (bool_decide _)].
    assert (Hc : ∀ s, __cyanfs_super_ensure_status (clear_flag CYANFS_SUPER_FLAG_FLUSH s) = __cyanfs_super_ensure_status s).
    { intros s. unfold __cyanfs_super_ensure_status.
      rewrite (has_clear_flag s 1 2 ltac:(lia) ltac:(lia) : has_flag (clear_flag CYANFS_SUPER_FLAG_FLUSH s) CYANFS_SUPER_FLAG_ERROR = _).
      by rewrite (has_clear_flag s 1 0 ltac:(lia) ltac:(lia) : has_flag (clear_flag CYANFS_SUPER_FLAG_FLUSH s) CYANFS_SUPER_FLAG_READY = _). }
    etransitivity; [|apply (Hc (w_super w))]. by destruct (bool_decide _).
  - exists ((if bool_decide (journal_head (w_super w) = []) then [] else [t1]) ++ (if od then [t2] else []) ++ [t3]).
    destruct (bool_decide _), od; cbn; by rewrite <- ?app_assoc.
Qed.

(** The copy was made: what its completion function leaves behind. *)
Lemma copy_finish_after j n w :
  let w' := cyanfs_task_copy_on_write_finish j n ST_OK w in
  jview_frame (upd_node n (set_ext_pending false) (w_super w)) (w_super w') ∧
  __cyanfs_super_ensure_status (w_super w') = __cyanfs_super_ensure_status (w_super w) ∧
  active_tasks (w_super w') = active_tasks (w_super w) ∧ ∃ q, task_head (w_super w') = task_head (w_super w) ++ q.
Proof.
  unfold cyanfs_task_copy_on_write_finish. cbn [failed]. set (w1 := set_w_super _ w).
  destruct (flusher_start_behind CYANFS_SUPER_MAX_INFLIGHT_JOURNAL false w1) as (H1 & H2 & H3). split_and!; [|done..].
  destruct (flusher_start_frame CYANFS_SUPER_MAX_INFLIGHT_JOURNAL false w1) as [F1 F2 F3 F4]. split; [exact F1|exact F2|exact F3|exact F4].
Qed.

Lemma some_bind {A B} (x : A) (g : A → option B) : (Some x ≫= g) = g x.
Proof. reflexivity. Qed.

Lemma copy_task_done src dst len j n w :
  cyanfs_super_task_done (mk_task (CYANFS_TASK_COPY src dst len) (cyanfs_task_copy_on_write_done j n)) ST_OK w =
  on_super task_retire (cyanfs_task_copy_on_write_finish j n ST_OK w).
Proof. unfold cyanfs_super_task_done, task_done. cbn [t_done]. by rewrite some_bind. Qed.

Lemma copy_step src dst len j n q0 k w :
  task_head (w_super w) = mk_task (CYANFS_TASK_COPY src dst len) (cyanfs_task_copy_on_write_done j n) :: q0 → active_tasks (w_super w) = 0 →
  ∃ k' w' q, loop_step k w = Some (Some None, k', w') ∧ pf_bytes k' ≡ disk_copy (pf_bytes k) src dst len ∧
    jview_frame (upd_node n (set_ext_pending false) (w_super w)) (w_super w') ∧
    __cyanfs_super_ensure_status (w_super w') = __cyanfs_super_ensure_status (w_super w) ∧
    active_tasks (w_super w') = 0 ∧ task_head (w_super w') = q0 ++ q.
Proof.
  intros Hq Ha. rewrite (loop_take _ _ _ _ _ Hq Ha). set (w0 := with_queue q0 1 w).
  assert (H0 : jview_frame (w_super w) (w_super w0) ∧ flags (w_super w0) = flags (w_super w) ∧ active_tasks (w_super w0) = 1 ∧ task_head (w_super w0) = q0) by done.
  destruct H0 as ([F1 F2 F3 F4] & Hfl & Ha0 & Hq0). clearbody w0.
  destruct (task_io_sim (CYANFS_TASK_COPY src dst len) k w0 (pf_bytes k) _ _ ltac:(done) eq_refl) as (k3 & -> & Hb3).
  rewrite some_bind, copy_task_done. cbn [called_of].
  destruct (copy_finish_after j n w0) as ([G1 G2 G3 G4] & Hst & Ha2 & q & Hq2).
  generalize dependent (cyanfs_task_copy_on_write_finish j n ST_OK w0). intros w2 G1 G2 G3 G4 Hst Ha2 Hq2.
  rewrite (retire_queue w2) by congruence. rewrite some_bind. eexists _, _, q. split; [done|]. split_and!.
  - exact Hb3.
  - split; cbn; [rewrite G1|rewrite G2|rewrite G3|rewrite G4]; cbn; congruence.
  - change (__cyanfs_super_ensure_status (w_super w2) = __cyanfs_super_ensure_status (w_super w)). rewrite Hst.
    unfold __cyanfs_super_ensure_status, has_flag. by rewrite Hfl.
  - done.
  - change (task_head (w_super w2) = q0 ++ q). congruence.
Qed.

Lemma requeue_step file ctx q k w :
  task_head (w_super w) = mk_task (CYANFS_TASK_REQUEUE file ctx) __cyanfs_task_free :: q → active_tasks (w_super w) = 0 →
  loop_step k w = Some (Some (Some ctx), k, with_queue q 0 w).
Proof.
  intros Hq Ha. rewrite (loop_take _ _ _ _ _ Hq Ha). cbn [task_io mbind option_bind]. unfold cyanfs_super_task_done, task_done.
  cbn [t_done mbind option_bind]. by rewrite (retire_queue (with_queue q 1 w) eq_refl).
Qed.

(** The worker copies the extent, and calls back. *)
Lemma copy_steps wait file src dst len j n k w :
  task_head (w_super w) = [mk_task (CYANFS_TASK_COPY src dst len) (cyanfs_task_copy_on_write_done j n)] →
  active_tasks (w_super w) = 0 → w_malloc w = [] →
  ∃ k' w', wait_requeue (S (S wait)) file k w = Some (ST_OK, k', w') ∧ pf_bytes k' ≡ disk_copy (pf_bytes k) src dst len ∧
    jview_frame (upd_node n (set_ext_pending false) (w_super w)) (w_super w') ∧
    __cyanfs_super_ensure_status (w_super w') = __cyanfs_super_ensure_status (w_super w).
Proof.
  intros Hq Ha Hm. unfold wait_requeue. destruct (pthread_new k) as [r1 k1] eqn:E1. pose proof (rf_pthread_new _ _ _ E1) as ->.
  cbn [Z.eqb negb]. destruct (pthread_new k1) as [r2 k2] eqn:E2. pose proof (rf_pthread_new _ _ _ E2) as ->. cbn [Z.eqb negb].
  unfold cyanfs_requeue. rewrite (malloc_none w Hm). cbn [negb failed]. set (treq := mk_task (CYANFS_TASK_REQUEUE file requeue_ctx) __cyanfs_task_free).
  destruct (copy_step src dst len j n [treq] k2 (task_add_tail treq w)) as (k3 & w3 & q & E3 & Hb3 & [F1 F2 F3 F4] & Hst & Ha3 & Hq3);
    [cbn; by rewrite Hq|done|].
  cbn [wait_called]. rewrite E3. cbn [mbind option_bind]. rewrite bool_decide_false by done.
  rewrite (requeue_step file requeue_ctx q k3 w3 Hq3 Ha3). cbn [mbind option_bind]. rewrite bool_decide_true by done. cbn [mbind option_bind].
  eexists _, _. split; [done|]. split_and!; [|by split|done].
  rewrite Hb3, (proj2 (pthread_new_law _ _ _ E2)), (proj2 (pthread_new_law _ _ _ E1)). done.
Qed.

(** A write over an extent of the file itself. *)
Lemma write_extent_own id f i n e off w :
  __cyanfs_super_ensure_status (w_super w) = ST_OK → files_by_id (w_super w) !! id = Some f → 0 ≤ off < 2 ^ 50 →
  i = off / CYANFS_EXTENT_SIZE → f_extents f !! i = Some n → nodes (w_super w) !! n = Some e →
  ∃ current, write_extent (λ w, w) id off w = Some (mk_wout ST_OK e (Some current) false (upd_super (writers_add current 1) w)).
Proof.
  intros Hst Hf Ho -> Hn He. change (2 ^ 50) with 1125899906842624 in Ho. change CYANFS_EXTENT_SIZE with 1048576 in Hn.
  unfold write_extent. rewrite Hst. cbn [failed]. rewrite Hf. cbn [mbind option_bind]. unfold __cyanfs_file_find_extent.
  rewrite extent_from_eq, bf30_small by (pose proof (extent_index off); lia). rewrite Hn. unfold write_mapped. exists (writer_current_id (w_super w)).
  assert (E : nodes (w_super (upd_super (writers_add (writer_current_id (w_super w)) 1) w)) = nodes (w_super w)) by (by destruct (writer_current_id (w_super w))).
  rewrite E, He. done.
Qed.

(** The extent decided on is written. *)
Lemma dispatch_submit wait again file off data e ctx err w :
  ext_error e = false → ext_map e = true → ext_pending e = false → io_buffer ctx = data →
  ∃ k', pf_bytes k' ≡ disk_write (pf_bytes (io_k ctx)) (cyanfs_map_extent_offset (ext_backend e) off) data ∧
  write_dispatch (do_io_partial wait again file io_op_write) err e off (Z.of_nat (length data)) ctx w =
  Some (ST_OK, mk_ioctx k' (io_passed ctx ++ data) [] (u64 (io_offset ctx + Z.of_nat (length data))), w).
Proof.
  intros He Hm Hp Hb. unfold write_dispatch. rewrite He, Hm, Hp. by apply partial_submit.
Qed.

(** The whole write, from the outcome of the locked sections. *)
Lemma do_io_write id f off data wait tries k w o err ctx' w1 :
  let len := Z.of_nat (length data) in
  files_by_id (w_super w) !! id = Some f → f_open_type f = CYANFS_FILE_READWRITE → one_extent off len →
  off + len ≤ fm_size (f_meta f) → fm_size (f_meta f) ≤ 2 ^ 50 → write_extent (λ w, w) id off w = Some o →
  write_dispatch (do_io_partial wait (do_io wait tries id io_op_write) id io_op_write) (wo_err o) (wo_extent o) off len
    (mk_ioctx k [] data off) (wo_world o) = Some (err, ctx', w1) →
  do_io wait (S tries) id io_op_write off len data k w = Some (err, io_passed ctx' ++ io_buffer ctx', io_k ctx', write_end o w1).
Proof.
  cbv zeta. intros Hf Hrw Hone Hsz Hmax Ho Hd. cbn [do_io]. destruct (Z.eqb_spec (Z.of_nat (length data)) 0); [destruct Hone; lia|].
  rewrite (write_one _ id f off _ w Hf Hrw Hone Hsz Hmax _ o err ctx' w1 Ho Hd). done.
Qed.

(** A write over an extent of the file itself reaches the device. *)
Lemma do_io_own id f off data wait tries k w n e :
  let len := Z.of_nat (length data) in
  __cyanfs_super_ensure_status (w_super w) = ST_OK → files_by_id (w_super w) !! id = Some f → f_open_type f = CYANFS_FILE_READWRITE →
  one_extent off len → off + len ≤ fm_size (f_meta f) → fm_size (f_meta f) ≤ 2 ^ 50 →
  f_extents f !! (off / CYANFS_EXTENT_SIZE) = Some n → nodes (w_super w) !! n = Some e →
  ext_error e = false → ext_map e = true → ext_pending e = false →
  ∃ buf k' w', do_io wait (S tries) id io_op_write off len data k w = Some (ST_OK, buf, k', w') ∧
    pf_bytes k' ≡ disk_write (pf_bytes k) (cyanfs_map_extent_offset (ext_backend e) off) data ∧ jview_frame (w_super w) (w_super w').
Proof.
  cbv zeta. intros Hst Hf Hrw Hone Hsz Hmax Hx He H1 H2 H3.
  destruct (write_extent_own id f (off / CYANFS_EXTENT_SIZE) n e off w Hst Hf) as (cur & Ho); [destruct Hone as (? & ? & ?); lia|done..|].
  destruct (dispatch_submit wait (do_io wait tries id io_op_write) id off data e (mk_ioctx k [] data off) ST_OK
    (upd_super (writers_add cur 1) w) H1 H2 H3 eq_refl) as (k' & Hk' & Hd).
  eexists _, k', _. split; [exact (do_io_write _ _ _ _ _ _ _ _ _ _ _ _ Hf Hrw Hone Hsz Hmax Ho Hd)|]. split; [done|].
  eapply frame_trans, write_end_frame. apply core_frame, writers_core.
Qed.

Section write.
Context (fl : gmap Z (gset Z)) (id : Z) (f : cyanfs_file) (off : Z) (data : list Z).
Local Notation len := (Z.of_nat (length data)).
Local Notation i := (off / CYANFS_EXTENT_SIZE).

(** The file written to, on an idle instance; what it shows at the range is
    not being copied and did not fail. *)
Record write_ready (w : world) : Prop := {
  wr_wf : wf (w_super w) fl;
  wr_status : __cyanfs_super_ensure_status (w_super w) = ST_OK;
  wr_file : files_by_id (w_super w) !! id = Some f;
  wr_open : f_open_type f = CYANFS_FILE_READWRITE;
  wr_range : one_extent off len ∧ off + len ≤ fm_size (f_meta f);
  wr_reserved : 0 ≤ sm_reserved_extents (s_meta (w_super w));
  wr_idle : task_head (w_super w) = [] ∧ active_tasks (w_super w) = 0 ∧ w_malloc w = [];
  wr_settled : ∀ m e, visible (w_super w) id i (Some m) → nodes (w_super w) !! m = Some e → ext_pending e = false ∧ ext_error e = false }.

Context (w : world) (k : K) (Hr : write_ready w).

Lemma ready_size : fm_size (f_meta f) ≤ 2 ^ 50 ∧ CYANFS_EXTENT_SIZE * i < fm_size (f_meta f).
Proof using Hr.
  destruct Hr as [Hwf _ Hf _ [Hone Hsz] _ _ _]. split; [apply (file_size_bound _ fl id f Hwf Hf)|]. destruct Hone as (Ho & Hl & _).
  change CYANFS_EXTENT_SIZE with 1048576. pose proof (Z.mul_div_le off 1048576 ltac:(lia)). lia.
Qed.

(** Without a copy. *)
Lemma write_direct wait tries o n :
  write_extent (λ w, w) id off w = Some o → ext_error (wo_extent o) = false → ext_map (wo_extent o) = true → ext_pending (wo_extent o) = false →
  ext_backend (wo_extent o) = n → 0 ≤ n < 1073741824 → placed (w_super w) id n f off (w_super (wo_world o)) →
  (∀ m, visible (w_super w) id i (Some m) → m = n) →
  ∃ buf k' w', do_io wait (S tries) id io_op_write off len data k w = Some (ST_OK, buf, k', w') ∧
    content_written (w_super w) (pf_bytes k) (w_super w') (pf_bytes k') id off data.
Proof using Hr ReliableFile0.
  intros Ho He Hm Hp Hb Hn Hpl Hin. destruct ready_size as [Hmax Hlt]. destruct Hr as [Hwf Hst Hf Hrw [Hone Hsz] Hres Hidle Hset].
  destruct (dispatch_submit wait (do_io wait tries id io_op_write) id off data (wo_extent o) (mk_ioctx k [] data off) (wo_err o) (wo_world o) He Hm Hp eq_refl)
    as (k' & Hk' & Hd).
  eexists _, k', _. split; [exact (do_io_write _ _ _ _ _ _ _ _ _ _ _ _ Hf Hrw Hone Hsz Hmax Ho Hd)|]. cbn [io_k] in Hk'. rewrite Hb in Hk'.
  apply (placed_written (w_super w) fl id n f off data _ (pf_bytes k) (pf_bytes k)); try done.
  - unfold placed in *. by rewrite (jf_files _ _ (write_end_frame o (wo_world o))).
  - intros m x _ Hv. by rewrite (Hin m Hv).
Qed.

(** After a copy of the extent [m] of an ancestor. *)
Lemma copied_ctx wait tries o m n :
  write_extent (λ w, w) id off w = Some o → write_bound fl id i n f (Some m) (w_super w) o →
  ∃ buf k' w', do_io (S (S wait)) (S (S tries)) id io_op_write off len data k w = Some (ST_OK, buf, k', w') ∧
    pf_bytes k' ≡ disk_write (disk_copy (pf_bytes k) (cyanfs_map_extent_offset m 0) (cyanfs_map_extent_offset n 0) CYANFS_EXTENT_SIZE)
      (cyanfs_map_extent_offset n off) data ∧
    files_by_id (w_super w') = files_by_id (w_super (wo_world o)).
Proof using Hr ReliableFile0.
  intros Ho Hwb. destruct ready_size as [Hmax Hlt]. destruct Hr as [Hwf Hst Hf Hrw [Hone Hsz] Hres (Hq & Ha & Hml) Hset].
  destruct Hwb as [_ _ _ _ Hfs Hnd (Hbk & Hmp & Her) _ _ [Hfl Hact] (Hpd & _ & _ & Ht)]. rewrite Hq in Ht. cbn [app] in Ht.
  destruct (copy_steps wait id _ _ _ _ _ k (wo_world o) Ht ltac:(congruence) (write_extent_malloc _ _ _ _ Hml Ho))
    as (k1 & w1 & E1 & Hk1 & [F1 F2 F3 F4] & Hst1).
  set (f' := with_extents (<[i := n]> (f_extents f)) f).
  assert (Hf' : files_by_id (w_super w1) !! id = Some f') by (rewrite F1; change (files_by_id (w_super (wo_world o)) !! id = Some f'); rewrite Hfs; apply lookup_insert_eq).
  assert (Hn' : nodes (w_super w1) !! n = Some (set_ext_pending false (wo_extent o))).
  { rewrite F2. cbn [upd_node set_nodes nodes]. by rewrite lookup_alter_eq, Hnd. }
  assert (Hs' : __cyanfs_super_ensure_status (w_super w1) = ST_OK).
  { rewrite Hst1, <- Hst. unfold __cyanfs_super_ensure_status, has_flag. by rewrite Hfl. }
  destruct (do_io_own id f' off data (S (S wait)) tries k1 w1 n _ Hs' Hf' Hrw Hone Hsz Hmax ltac:(apply lookup_insert_eq) Hn' Her Hmp eq_refl)
    as (buf & k2 & w2 & E2 & Hk2 & Hfr).
  assert (Hd : write_dispatch (do_io_partial (S (S wait)) (do_io (S (S wait)) (S tries) id io_op_write) id io_op_write) (wo_err o) (wo_extent o)
    off len (mk_ioctx k [] data off) (wo_world o) = Some (ST_OK, ioctx_advance len (mk_ioctx k2 [] buf off), w2)).
  { unfold write_dispatch. rewrite Her, Hmp, Hpd. unfold do_io_partial. cbn [io_k io_offset io_buffer]. rewrite E1, some_bind. cbn [failed].
    rewrite E2, !some_bind. done. }
  eexists _, k2, _. split; [exact (do_io_write _ _ _ _ _ _ _ _ _ _ _ _ Hf Hrw Hone Hsz Hmax Ho Hd)|]. split.
  - change (ext_backend (set_ext_pending false (wo_extent o))) with (ext_backend (wo_extent o)) in Hk2. rewrite Hbk, Hk1 in Hk2. exact Hk2.
  - rewrite (jf_files _ _ (write_end_frame o w2)), (jf_files _ _ Hfr). exact F1.
Qed.

Lemma write_copied wait tries o m n :
  write_extent (λ w, w) id off w = Some o → write_bound fl id i n f (Some m) (w_super w) o → visible (w_super w) id i (Some m) →
  ∃ buf k' w', do_io (S (S wait)) (S (S tries)) id io_op_write off len data k w = Some (ST_OK, buf, k', w') ∧
    content_written (w_super w) (pf_bytes k) (w_super w') (pf_bytes k') id off data.
Proof using Hr ReliableFile0.
  intros Ho Hwb Hv. destruct (copied_ctx wait tries o m n Ho Hwb) as (buf & k' & w' & E & Hk' & Hfs).
  destruct ready_size as [Hmax Hlt]. destruct Hr as [Hwf Hst Hf Hrw [Hone Hsz] Hres Hidle Hset].
  pose proof (shown_range _ fl Hwf _ _ _ Hv) as Hm. pose proof (free_range _ fl Hwf n (wb_free _ _ _ _ _ _ _ _ Hwb)) as Hn.
  exists buf, k', w'. split; [exact E|]. eapply (placed_written (w_super w) fl id n f off data _ (pf_bytes k)); try done.
  - right. split_and!; [apply (wb_free _ _ _ _ _ _ _ _ Hwb)|apply (wb_hole _ _ _ _ _ _ _ _ Hwb)|rewrite Hfs; apply (wb_files _ _ _ _ _ _ _ _ Hwb)].
  - intros j x Hj Hne. by apply copy_outside.
  - intros j x _ Hj. pose proof (visible_fun _ _ _ _ _ Hv Hj) as [= <-]. by apply copy_inside.
Qed.

(** Nothing is written. *)
Lemma write_refused wait tries o err :
  write_extent (λ w, w) id off w = Some o → wo_err o = ST_ERR err → wo_extent o = no_extent → w_super (wo_world o) = w_super w →
  ∃ buf w', do_io wait (S tries) id io_op_write off len data k w = Some (ST_ERR err, buf, k, w') ∧
    files_by_id (w_super w') = files_by_id (w_super w).
Proof using Hr.
  intros Ho He Hx Hs. destruct ready_size as [Hmax Hlt]. destruct Hr as [Hwf Hst Hf Hrw [Hone Hsz] Hres Hidle Hset].
  assert (Hd : write_dispatch (do_io_partial wait (do_io wait tries id io_op_write) id io_op_write) (wo_err o) (wo_extent o)
    off len (mk_ioctx k [] data off) (wo_world o) = Some (ST_ERR err, mk_ioctx k [] data off, wo_world o)) by (unfold write_dispatch; by rewrite Hx, He).
  eexists _, _. split; [exact (do_io_write _ _ _ _ _ _ _ _ _ _ _ _ Hf Hrw Hone Hsz Hmax Ho Hd)|].
  by rewrite (jf_files _ _ (write_end_frame o (wo_world o))), Hs.
Qed.
End write.

End editor.

(** ** Example: writing to a snapshot *)
Definition ex_device : scheduled := mk_scheduled (λ x, x mod 251) [100%nat; 0%nat; 8000%nat] 0.

Lemma ex_settled : map_Forall (λ _ e, ext_pending e = false ∧ ext_error e = false) (nodes ex_opened).
Proof. apply (bool_decide_unpack _). vm_compute. exact I. Qed.

