(* ===== verification/EditThread.v ===== *)
(** * EditThread: the worker thread of the editor

    [thread_handler], [do_new_task] and the end of the thread in [closefs] of
    [utils/edit.c], with the part of the core they rely on: the queue of tasks
    tells whether it was empty when a task is added, and whoever added a task
    to an empty queue calls [do_new_task] later, outside every lock.  The
    threads are interleaved at the sections under [disk->lock] and under the
    lock of the queue. *)
From Stdlib Require Import ZArith Lia.
From S2P Require Import Prelude Types Super World Api Replay ReadSpec.

(** Where the worker is: in [do_loop], about to lock [disk->lock], in
    [pthread_cond_wait], out of it again, or at the end. *)
Inductive worker_pc := IN_LOOP | TO_LOCK | IN_WAIT | WOKEN | ENDED.

#[export] Instance worker_pc_eq_dec : EqDecision worker_pc.
Proof. solve_decision. Defined.

(** [new_task] and [terminated] of [struct disk]; [th_callers]: for each call
    of the core in progress, its [call_new_task]. *)
Record thread_state := mk_thread {
  th_super : cyanfs_super; th_callers : list bool; th_new_task : bool; th_terminated : bool; th_pc : worker_pc }.

(** [pthread_cond_signal]. *)
Definition cond_signal (pc : worker_pc) : worker_pc := if bool_decide (pc = IN_WAIT) then WOKEN else pc.

Definition do_new_task (st : thread_state) : thread_state :=
  mk_thread (th_super st) (th_callers st) true (th_terminated st) (cond_signal (th_pc st)).

(** [closefs] asks the thread to end. *)
Definition thread_terminate (st : thread_state) : thread_state :=
  mk_thread (th_super st) (th_callers st) (th_new_task st) true (cond_signal (th_pc st)).

(** The section of [thread_handler] under the lock. *)
Definition thread_handler_locked (st : thread_state) : thread_state :=
  if th_terminated st then mk_thread (th_super st) (th_callers st) (th_new_task st) true ENDED
  else if th_new_task st then mk_thread (th_super st) (th_callers st) false false IN_LOOP
  else mk_thread (th_super st) (th_callers st) false false IN_WAIT.

(** The thread as [openfs] creates it. *)
Definition thread_start (s : cyanfs_super) : thread_state := mk_thread s [] false false IN_LOOP.

Definition set_th_pc (pc : worker_pc) (st : thread_state) : thread_state :=
  mk_thread (th_super st) (th_callers st) (th_new_task st) (th_terminated st) pc.
Definition set_th_super (s : cyanfs_super) (st : thread_state) : thread_state :=
  mk_thread s (th_callers st) (th_new_task st) (th_terminated st) (th_pc st).
Definition set_th_callers (l : list bool) (st : thread_state) : thread_state :=
  mk_thread (th_super st) l (th_new_task st) (th_terminated st) (th_pc st).

Definition queue_empty (s : cyanfs_super) : bool := bool_decide (task_head s = []).

(** What goes on by itself: the worker, and the calls that are owed. *)
Inductive thread_step : thread_state → thread_state → Prop :=
  | ts_task st t s :
      th_pc st = IN_LOOP → cyanfs_super_get_task (th_super st) = (Some t, s) → thread_step st (set_th_super s st)
  | ts_idle st s :
      th_pc st = IN_LOOP → cyanfs_super_get_task (th_super st) = (None, s) → thread_step st (set_th_pc TO_LOCK st)
  | ts_check st : th_pc st = TO_LOCK → thread_step st (thread_handler_locked st)
  | ts_woken st : th_pc st = WOKEN → thread_step st (set_th_pc IN_LOOP st)
  | ts_call st i :
      th_callers st !! i = Some true → thread_step st (do_new_task (set_th_callers (delete i (th_callers st)) st)).

(** What others do: calls of the core, by commands or by the completion
    functions of tasks; the end of the thread; a wait that ends early. *)
Inductive client_step : thread_state → thread_state → Prop :=
  | cs_enter st : client_step st (set_th_callers (th_callers st ++ [false]) st)
  | cs_tail st i b t :
      th_callers st !! i = Some b →
      client_step st (set_th_callers (<[i := b || queue_empty (th_super st)]> (th_callers st))
        (set_th_super (cyanfs_super_task_add_tail t (th_super st)) st))
  | cs_head st i b t :
      th_callers st !! i = Some b →
      client_step st (set_th_callers (<[i := b || queue_empty (th_super st)]> (th_callers st))
        (set_th_super (cyanfs_super_task_add_head t (th_super st)) st))
  | cs_leave st i : th_callers st !! i = Some false → client_step st (set_th_callers (delete i (th_callers st)) st)
  | cs_other st s : task_head s = task_head (th_super st) → client_step st (set_th_super s st)
  | cs_terminate st : client_step st (thread_terminate st)
  | cs_spurious st : th_pc st = IN_WAIT → client_step st (set_th_pc WOKEN st).

Inductive reachable_thread (s : cyanfs_super) : thread_state → Prop :=
  | rt_start : reachable_thread s (thread_start s)
  | rt_thread st st' : reachable_thread s st → thread_step st st' → reachable_thread s st'
  | rt_client st st' : reachable_thread s st → client_step st st' → reachable_thread s st'.

(** ** The invariant *)

(** Somebody owes a call. *)
Definition owed (l : list bool) : Prop := true ∈ l.

Record thread_inv (st : thread_state) : Prop := {
  ti_wait : th_pc st = IN_WAIT → task_head (th_super st) ≠ [] → owed (th_callers st);
  ti_lock : th_pc st = TO_LOCK → task_head (th_super st) ≠ [] → owed (th_callers st) ∨ th_new_task st = true;
  ti_end : th_pc st = ENDED → th_terminated st = true;
  ti_sleep : th_pc st = IN_WAIT → th_terminated st = false }.

Lemma owed_insert l i b b' : l !! i = Some b → owed l → (b = true → b' = true) → owed (<[i := b']> l).
Proof.
  unfold owed. intros Hi (j & Hj)%list_elem_of_lookup Hb. apply list_elem_of_lookup. destruct (decide (i = j)) as [->|Hne].
  - rewrite Hi in Hj. injection Hj as ->. exists j. rewrite list_lookup_insert_eq by (by eapply lookup_lt_Some). by rewrite Hb.
  - exists j. by rewrite list_lookup_insert_ne.
Qed.

Lemma owed_added l i : is_Some (l !! i) → owed (<[i := true]> l).
Proof. intros [b Hi]. apply list_elem_of_lookup. exists i. apply list_lookup_insert_eq. by eapply lookup_lt_Some. Qed.

Lemma owed_app l l' : owed l → owed (l ++ l').
Proof. intros. apply elem_of_app. by left. Qed.

Lemma owed_delete l i : l !! i = Some false → owed l → owed (delete i l).
Proof.
  unfold owed. intros Hi. rewrite (delete_take_drop l i). rewrite <- (take_drop_middle l i false Hi) at 1.
  rewrite !elem_of_app, elem_of_cons. naive_solver.
Qed.

#[local] Hint Resolve owed_insert owed_app owed_delete owed_added : core.

(** A task is added by caller [i], at either end. *)
Lemma inv_add st i b s :
  thread_inv st → th_callers st !! i = Some b →
  thread_inv (set_th_callers (<[i := b || queue_empty (th_super st)]> (th_callers st)) (set_th_super s st)).
Proof.
  intros [H1 H2 H3 H4] Hi. unfold queue_empty.
  assert (Ho : task_head (th_super st) = [] ∨ owed (th_callers st) → owed (<[i := b || bool_decide (task_head (th_super st) = [])]> (th_callers st))).
  { intros [E|E]; [rewrite bool_decide_true, orb_true_r by done; eauto|]. eapply owed_insert; eauto. by intros ->. }
  destruct (decide (task_head (th_super st) = [])) as [E|E]; split; cbn; intros; eauto. destruct H2; eauto.
Qed.

Lemma client_inv st st' : client_step st st' → thread_inv st → thread_inv st'.
Proof.
  intros [] Hi; try (by apply inv_add); destruct Hi as [H1 H2 H3 H4]; split; cbn; unfold cond_signal; try case_bool_decide; try done; intros; eauto.
  - destruct H2; eauto.
  - destruct H2; eauto.
  - apply H1; congruence.
  - apply H2; congruence.
Qed.

Lemma step_inv st st' : thread_step st st' → thread_inv st → thread_inv st'.
Proof.
  intros [? t s Hpc E|? s Hpc E|? Hpc|? Hpc|? i Hi] [H1 H2 H3 H4].
  - split; cbn; congruence.
  - unfold cyanfs_super_get_task in E. split; cbn; try done. intros _ Hq. by destruct (task_head (th_super st0)).
  - unfold thread_handler_locked. destruct (th_terminated st0); [by split|]. destruct (th_new_task st0) eqn:En; split; cbn; try done.
    intros _ Hq. destruct (H2 Hpc Hq); [done|congruence].
  - by split.
  - split; cbn; unfold cond_signal; case_bool_decide; auto; done.
Qed.

Lemma reachable_inv s st : reachable_thread s st → thread_inv st.
Proof. induction 1; [by split|by eapply step_inv|by eapply client_inv]. Qed.

(** ** How long the thread goes on *)
Definition pc_weight (pc : worker_pc) : nat := match pc with IN_LOOP => 2 | TO_LOCK => 1 | IN_WAIT | ENDED => 0 | WOKEN => 3 end.

Definition thread_weight (st : thread_state) : nat :=
  6 * length (th_callers st) + (if th_new_task st then 2 else 0) + length (task_head (th_super st)) + pc_weight (th_pc st).

Lemma step_weight st st' : thread_step st st' → (thread_weight st' < thread_weight st)%nat.
Proof.
  unfold thread_weight. intros [? t s Hpc E|? s Hpc E|? Hpc|? Hpc|? i Hi]; cbn.
  - rewrite Hpc. unfold cyanfs_super_get_task in E. destruct (task_head (th_super st0)) as [|t0 q]; [done|]. injection E as _ <-. cbn. destruct (th_new_task st0); lia.
  - rewrite Hpc. cbn. lia.
  - rewrite Hpc. unfold thread_handler_locked. destruct (th_terminated st0), (th_new_task st0); cbn; lia.
  - rewrite Hpc. cbn. lia.
  - rewrite (length_delete _ _ (mk_is_Some _ _ Hi)). apply lookup_lt_Some in Hi. unfold cond_signal.
    case_bool_decide as Ew; [rewrite Ew|]; destruct (th_new_task st0); cbn; lia.
Qed.

Lemma stuck_ends st : thread_inv st → (∀ st', ¬ thread_step st st') →
  task_head (th_super st) = [] ∧ th_pc st = IN_WAIT ∨ th_pc st = ENDED ∧ th_terminated st = true.
Proof.
  intros Hi Hs. assert (Ho : ¬ owed (th_callers st)) by (intros (i & Hl)%list_elem_of_lookup; by eapply Hs, ts_call).
  destruct (th_pc st) eqn:Hpc.
  - exfalso. destruct (cyanfs_super_get_task (th_super st)) as [[t|] s] eqn:E; by eapply Hs; eauto using thread_step.
  - exfalso. by eapply Hs, ts_check.
  - left. split; [|done]. destruct (task_head (th_super st)) eqn:Eq; [done|]. exfalso. apply Ho, (ti_wait _ Hi Hpc). by rewrite Eq.
  - exfalso. by eapply Hs, ts_woken.
  - right. split; [done|]. by apply (ti_end _ Hi).
Qed.

(** C36: no wake-up of the worker is lost.  However commands, completions, the
    end of the thread and spurious wake-ups are interleaved with the worker:
    left alone, the worker and the calls that are still owed to it come to rest
    after a bounded number of steps, and they rest only when every task of the
    queue was taken and the worker waits for more, or when the thread ended
    because it was asked to. *)
Theorem worker_no_lost_wakeup s st :
  reachable_thread s st →
  (∀ n st', nsteps thread_step n st st' → (n ≤ thread_weight st)%nat) ∧
  (∀ st', rtc thread_step st st' → (∀ st'', ¬ thread_step st' st'') →
     task_head (th_super st') = [] ∧ th_pc st' = IN_WAIT ∨ th_pc st' = ENDED ∧ th_terminated st' = true).
Proof.
  intros Hr. split.
  - intros n st'. clear Hr. induction 1 as [|n x y z Hs _ IH]; [lia|]. apply step_weight in Hs. lia.
  - intros st' Hrun Hstuck. apply stuck_ends; [|done]. apply (reachable_inv s).
    induction Hrun as [|x y z Hs _ IH]; [done|]. apply IH; [by eapply rt_thread|done].
Qed.

(** A task is added while the worker waits. *)
Definition ex_thread (s : cyanfs_super) (t : cyanfs_task) : thread_state :=
  mk_thread (cyanfs_super_task_add_tail t s) [true] false false IN_WAIT.

Lemma ex_thread_reachable t : reachable_thread (set_task_head [] ex_ready) (ex_thread (set_task_head [] ex_ready) t).
Proof.
  set (s := set_task_head [] ex_ready).
  apply (rt_client s (mk_thread s [false] false false IN_WAIT)); [|exact (cs_tail (mk_thread s [false] false false IN_WAIT) 0 false t eq_refl)].
  apply (rt_client s (mk_thread s [] false false IN_WAIT)); [|exact (cs_enter (mk_thread s [] false false IN_WAIT))].
  apply (rt_thread s (mk_thread s [] false false TO_LOCK)); [|exact (ts_check (mk_thread s [] false false TO_LOCK) eq_refl)].
  apply (rt_thread s (thread_start s)); [constructor|]. exact (ts_idle (thread_start s) s eq_refl eq_refl).
Qed.

Definition ex_waiting : thread_state := ex_thread (set_task_head [] ex_ready) (mk_task CYANFS_TASK_NOP __cyanfs_task_free).

Lemma worker_no_lost_wakeup_witness :
  (∀ n st', nsteps thread_step n ex_waiting st' → (n ≤ 7)%nat) ∧
  (∀ st', rtc thread_step ex_waiting st' → (∀ st'', ¬ thread_step st' st'') →
     task_head (th_super st') = [] ∧ th_pc st' = IN_WAIT ∨ th_pc st' = ENDED ∧ th_terminated st' = true).
Proof.
  exact (worker_no_lost_wakeup (set_task_head [] ex_ready) ex_waiting (ex_thread_reachable (mk_task CYANFS_TASK_NOP __cyanfs_task_free))).
Defined.
