(* ===== verification/Tools.v ===== *)
(** * Tools: formatting a device and telling its identity

    Models [utils/mkfs.c] and [utils/blkid.c] on the system calls of [Posix];
    the outcomes of [open] are arguments. *)
From Stdlib Require Import ZArith Lia.
From S2P Require Import Prelude Disk Base Journal Types SuperOps JournalIO JournalScan System Recovery Errno Posix.

Section tools.
Context {K : Type} `{!PosixFile K}.

(** [main] of [mkfs.c]: the exit code. *)
Definition mkfs_main (argc : Z) (open_urandom open_device : sys_result ()) (k : K) : option (Z * K) :=
  if negb (argc =? 2) then Some (-1, k) else
  match open_urandom with
  | inl _ => Some (-1, k)
  | inr _ =>
      '(r, uuid, k) ← safe_read URANDOM 16 k;
      if r <? 0 then Some (-1, k) else
      match open_device with
      | inl _ => Some (-1, k)
      | inr _ =>
          '(r, k) ← safe_pwrite (cyanfs_super_make uuid) 0 k;
          Some (if r <? 0 then -1 else 0, k)
      end
  end.

(** [%02x] *)
Definition hex_digit (v : Z) : Z := if v <? 10 then 48 + v else 87 + v.
Definition hex_byte (b : Z) : list Z := [hex_digit (Z.shiftr b 4); hex_digit (Z.land b 15)].

(** The [printf] of [blkid.c]: groups of 4, 2, 2, 2 and 6 bytes. *)
Definition print_uuid (u : list Z) : list Z :=
  let group a n := mjoin (hex_byte <$> take n (drop a u)) in
  group 0%nat 4%nat ++ [45] ++ group 4%nat 2%nat ++ [45] ++ group 6%nat 2%nat ++ [45] ++ group 8%nat 2%nat ++ [45] ++ group 10%nat 6%nat ++ [10].

(** What became of [blkid]. *)
Inductive blkid_end := BLKID_USAGE | BLKID_OPEN | BLKID_READ | BLKID_INVALID | BLKID_DONE (out : list Z).

Definition blkid_main (argc : Z) (open_device : sys_result ()) (k : K) : option (blkid_end * K) :=
  if negb (argc =? 2) then Some (BLKID_USAGE, k) else
  match open_device with
  | inl _ => Some (BLKID_OPEN, k)
  | inr _ =>
      '(r, block, k) ← safe_pread 0 CYANFS_SUPER_BLOCK_SIZE k;
      if r <? 0 then Some (BLKID_READ, k) else
      h ← cyanfs_super_parse block;
      match h with
      | inl _ => Some (BLKID_INVALID, k)
      | inr h => Some (BLKID_DONE (print_uuid (sh_uuid h)), k)
      end
  end.

(** The uuid of the device that [mkfs] formatted. *)
Lemma mkfs_main_ok k k1 :
  mkfs_main 2 (inr ()) (inr ()) k = Some (0, k1) →
  ∃ uuid, length uuid = 16%nat ∧ Forall is_byte uuid ∧ pf_bytes k1 ≡ disk_write (pf_bytes k) 0 (cyanfs_super_make uuid).
Proof.
  unfold mkfs_main. cbn [Z.eqb negb]. unfold safe_read.
  destruct (safe_read_loop_spec URANDOM (io_fuel 16 k) [] 16 k ltac:(lia) ltac:(lia)) as (r & uuid & k2 & -> & Hb & Hr0 & Hr).
  cbn [mbind option_bind app]. destruct (Z.ltb_spec r 0); [done|]. assert (r = 0) as -> by lia. destruct (Hr eq_refl) as [Hl Hby].
  destruct (safe_pwrite_loop_spec (io_fuel (Z.of_nat (length (cyanfs_super_make uuid))) k2) (cyanfs_super_make uuid) 0 k2 ltac:(lia))
    as (r & k3 & E & Hr1 & _ & Hw). unfold safe_pwrite. rewrite E. cbn [mbind option_bind].
  destruct (Z.ltb_spec r 0); [done|]. intros [= <-]. exists uuid. split_and!; [lia|done|]. rewrite Hw by lia. by rewrite Hb.
Qed.
End tools.


