(* ===== verification/Uefi.v ===== *)
(** * Uefi: the UEFI driver

    [uefi/CyanfsDxe/CyanfsDxe.c]: the executor of the core's tasks, the
    operations of the driver's protocol, the block I/O of mapped files, and the
    virtual disks from their creation to their end.  The firmware is not part of
    the repository: what the driver uses of it is the class [Firmware], with
    what the UEFI specification says about these calls.  An [ASSERT] of the
    driver does nothing, as in a release build. *)
From Stdlib Require Import ZArith Lia.
From S2P Require Import Prelude Disk Base Journal Types Super World JournalIO Discard Compact Flusher Api ReadWrite System.

(** ** The firmware *)
Inductive efi_status :=
  | EFI_SUCCESS | EFI_INVALID_PARAMETER | EFI_UNSUPPORTED | EFI_NOT_READY | EFI_DEVICE_ERROR | EFI_OUT_OF_RESOURCES
  | EFI_VOLUME_CORRUPTED | EFI_VOLUME_FULL | EFI_NO_MEDIA | EFI_NOT_FOUND | EFI_OTHER_ERROR (code : Z).

Definition EFI_ERROR (s : efi_status) : bool := match s with EFI_SUCCESS => false | _ => true end.

(** The protocols, and the interfaces of the driver's objects, known by the
    address of the virtual disk they are part of. *)
Inductive efi_guid := GUID_BLOCK_IO | GUID_DEVICE_PATH | GUID_CYANFS.
Inductive efi_interface := IF_BLOCK_IO (disk : Z) | IF_DEVICE_PATH (disk : Z) | IF_CYANFS | IF_FOREIGN (address : Z).

#[export] Instance efi_guid_eq_dec : EqDecision efi_guid.
Proof. solve_decision. Defined.
#[export] Instance efi_interface_eq_dec : EqDecision efi_interface.
Proof. solve_decision. Defined.

Record efi_media := mk_media { BlockSize : Z; LastBlock : Z; ReadOnly : bool }.

(** The calls, for the controller the driver manages.  [fw_installed] and
    [fw_by_child] are the handle database: the interfaces of a handle, and
    whether the controller's block I/O is open on behalf of a child handle.  A
    call of [InstallProtocols] or [UninstallProtocols] may get only part of its
    work done. *)
Class Firmware (F : Type) := {
  fw_installed : F → Z → efi_guid → option efi_interface;
  fw_by_child : F → Z → bool;
  fw_parent : F → efi_interface;
  fw_media : F → efi_media;
  ReadBlocks : Z → Z → F → efi_status * list Z * F;
  WriteBlocks : Z → list Z → F → efi_status * F;
  FlushBlocks : F → efi_status * F;
  AllocatePool : F → bool * F;
  AppendDevicePathNode : F → bool * F;
  InstallProtocols : Z → list (efi_guid * efi_interface) → F → efi_status * Z * F;
  UninstallProtocols : Z → list (efi_guid * efi_interface) → F → efi_status * F;
  OpenByChild : Z → F → efi_status * efi_interface * F;
  CloseByChild : Z → F → efi_status * F;
  ConnectController : Z → F → F;
  OpenByDriver : F → efi_status * F;
  CloseByDriver : F → efi_status * F;
  InstallCyanfs : F → efi_status * F;
  UninstallCyanfs : F → efi_status * F;
  OpenCyanfs : F → efi_status * F;
  CloseCyanfs : F → efi_status * F }.

(** [edk2.h]: the errors of the core. *)
Definition efi_of (st : cyanfs_status) : efi_status :=
  match st with
  | ST_OK => EFI_SUCCESS
  | ST_ERR ERR_NOMEM => EFI_OUT_OF_RESOURCES
  | ST_ERR ERR_INVAL => EFI_INVALID_PARAMETER
  | ST_ERR ERR_BUSY => EFI_NOT_READY
  | ST_ERR ERR_NOENT => EFI_NOT_FOUND
  | ST_ERR ERR_EXIST => EFI_INVALID_PARAMETER
  | ST_ERR ERR_NOSPACE => EFI_VOLUME_FULL
  | ST_ERR ERR_IO => EFI_DEVICE_ERROR
  | ST_ERR (ERR_PLATFORM 3) => EFI_UNSUPPORTED
  | ST_ERR (ERR_PLATFORM 10) => EFI_VOLUME_CORRUPTED
  | ST_ERR (ERR_PLATFORM 12) => EFI_NO_MEDIA
  | ST_ERR (ERR_PLATFORM c) => EFI_OTHER_ERROR c
  end.

(** A status of the firmware as one of the core, which has its own names for
    some of them. *)
Definition status_of_efi (s : efi_status) : cyanfs_status :=
  match s with
  | EFI_SUCCESS => ST_OK
  | EFI_OUT_OF_RESOURCES => ST_ERR ERR_NOMEM
  | EFI_INVALID_PARAMETER => ST_ERR ERR_INVAL
  | EFI_NOT_READY => ST_ERR ERR_BUSY
  | EFI_NOT_FOUND => ST_ERR ERR_NOENT
  | EFI_VOLUME_FULL => ST_ERR ERR_NOSPACE
  | EFI_DEVICE_ERROR => ST_ERR ERR_IO
  | EFI_UNSUPPORTED => ST_ERR (ERR_PLATFORM 3)
  | EFI_VOLUME_CORRUPTED => ST_ERR (ERR_PLATFORM 10)
  | EFI_NO_MEDIA => ST_ERR (ERR_PLATFORM 12)
  | EFI_OTHER_ERROR c => ST_ERR (ERR_PLATFORM c)
  end.

Definition SECTOR_SHIFT : Z := 9.
Definition SECTOR_SIZE : Z := 512.

Inductive CYANFS_DISK_STATE := CYANFS_DISK_CREATING | CYANFS_DISK_MANAGED | CYANFS_DISK_STOPPING | CYANFS_DISK_DEGRADED.

#[export] Instance disk_state_eq_dec : EqDecision CYANFS_DISK_STATE.
Proof. solve_decision. Defined.

(** [dk_address]: the address of the structure; [dk_handle] is 0 for [NULL].
    The block I/O and the device path are known by the address. *)
Record CYANFS_DISK := mk_cdisk {
  dk_address : Z; dk_handle : Z; dk_file : Z; dk_state : CYANFS_DISK_STATE;
  dk_block_io : bool; dk_device_path : bool; dk_by_child : bool; dk_media : efi_media }.

Definition set_dk_handle (h : Z) (d : CYANFS_DISK) : CYANFS_DISK :=
  mk_cdisk (dk_address d) h (dk_file d) (dk_state d) (dk_block_io d) (dk_device_path d) (dk_by_child d) (dk_media d).
Definition set_dk_state (st : CYANFS_DISK_STATE) (d : CYANFS_DISK) : CYANFS_DISK :=
  mk_cdisk (dk_address d) (dk_handle d) (dk_file d) st (dk_block_io d) (dk_device_path d) (dk_by_child d) (dk_media d).
Definition set_dk_installed (b p : bool) (d : CYANFS_DISK) : CYANFS_DISK :=
  mk_cdisk (dk_address d) (dk_handle d) (dk_file d) (dk_state d) b p (dk_by_child d) (dk_media d).
Definition set_dk_by_child (b : bool) (d : CYANFS_DISK) : CYANFS_DISK :=
  mk_cdisk (dk_address d) (dk_handle d) (dk_file d) (dk_state d) (dk_block_io d) (dk_device_path d) b (dk_media d).

(** [Super], [Disk] and [Children]; the addresses from [bk_next] on are free. *)
Record CYANFS_BACKEND := mk_backend { bk_super : world; bk_disk : efi_interface; bk_children : list CYANFS_DISK; bk_next : Z }.

Definition set_bk_super (w : world) (b : CYANFS_BACKEND) : CYANFS_BACKEND := mk_backend w (bk_disk b) (bk_children b) (bk_next b).
Definition set_bk_children (l : list CYANFS_DISK) (b : CYANFS_BACKEND) : CYANFS_BACKEND := mk_backend (bk_super b) (bk_disk b) l (bk_next b).

Section driver.
Context {F : Type} `{!Firmware F}.

(** ** The executor *)

(** The tasks of other kinds make the driver stop in [CYANFS_BUG_ON]. *)
Definition backend_io (ty : cyanfs_task_type_t) (f : F) (w : world) : option (efi_status * F * world) :=
  match ty with
  | CYANFS_TASK_NOP => Some (EFI_SUCCESS, f, w)
  | CYANFS_TASK_READ off len buf =>
      c ← get_cursor buf w;
      let '(st, bs, f) := ReadBlocks (Z.shiftr off SECTOR_SHIFT) len f in
      Some (st, f, upd_cursor_of buf (set_cur_page (bs ++ drop (length bs) (cur_page c))) w)
  | CYANFS_TASK_WRITE off len buf =>
      c ← get_cursor buf w;
      let '(st, f) := WriteBlocks (Z.shiftr off SECTOR_SHIFT) (take (Z.to_nat len) (cur_page c)) f in
      Some (st, f, w)
  | CYANFS_TASK_FLUSH => let '(st, f) := FlushBlocks f in Some (st, f, w)
  | _ => None
  end.

(** One iteration; [false] when there is no task. *)
Definition backend_step (f : F) (w : world) : option (bool * F * world) :=
  let '(t, s) := cyanfs_super_get_task (w_super w) in
  match t with
  | None => Some (false, f, w)
  | Some t =>
      '(st, f, w) ← backend_io (t_type t) f (set_w_super s w);
      w ← cyanfs_super_task_done t (status_of_efi st) w;
      Some (true, f, w)
  end.

(** [fuel] bounds the tasks of one run. *)
Fixpoint CyanfsBackendLoop (fuel : nat) (f : F) (w : world) : option (F * world) :=
  match fuel with
  | O => None
  | S fuel =>
      '(more, f, w) ← backend_step f w;
      if (more : bool) then CyanfsBackendLoop fuel f w else Some (f, w)
  end.

Section loops.
Context (fuel : nat).

(** The core calls back when it put the first task into an empty queue, and
    it does so at the end of its operations.  The queue is empty between the
    calls of the driver, because a run of the loop takes every task: the
    callback has something to do exactly when there is a task. *)
Definition CyanfsBackendNewTask (f : F) (w : world) : option (F * world) := CyanfsBackendLoop fuel f w.

(** ** The protocol *)
Definition CyanfsStatfs (w : world) : efi_status * option cyanfs_super_meta :=
  let '(st, m) := cyanfs_statfs (w_super w) in (efi_of st, m).

Definition CyanfsList (iter : Z) (w : world) : efi_status * option cyanfs_file_meta :=
  let '(st, m) := cyanfs_list iter (w_super w) in (efi_of st, m).

Definition CyanfsLookup (name : cyanfs_file_name_t) (w : world) : efi_status * option cyanfs_file_meta :=
  let '(st, m) := cyanfs_lookup name (w_super w) in (efi_of st, m).

Definition CyanfsFlushMetadata (OperationStatus : efi_status) (f : F) (w : world) : option (efi_status * F * world) :=
  let '(st, w) := cyanfs_super_flush true w in
  let FlushStatus := efi_of st in
  '(f, w) ← CyanfsBackendNewTask f w;
  let CompletionStatus := efi_of (cyanfs_super_status (w_super w)) in
  Some (if EFI_ERROR OperationStatus then OperationStatus
        else if EFI_ERROR FlushStatus then FlushStatus
        else if EFI_ERROR CompletionStatus then CompletionStatus
        else OperationStatus, f, w).

Definition CyanfsCreate (name : cyanfs_file_name_t) (f : F) (w : world) : option (efi_status * option Z * F * world) :=
  let '(st, id, w) := cyanfs_create name w in
  '(f, w) ← CyanfsBackendNewTask f w;
  '(st, f, w) ← CyanfsFlushMetadata (efi_of st) f w; Some (st, id, f, w).

Definition CyanfsFork (from : Z) (name : cyanfs_file_name_t) (f : F) (w : world) : option (efi_status * option Z * F * world) :=
  let '(st, id, w) := cyanfs_fork from name w in
  '(f, w) ← CyanfsBackendNewTask f w;
  '(st, f, w) ← CyanfsFlushMetadata (efi_of st) f w; Some (st, id, f, w).

Definition CyanfsRename (id : Z) (name : cyanfs_file_name_t) (f : F) (w : world) : option (efi_status * F * world) :=
  '(st, w) ← cyanfs_rename id name w;
  '(f, w) ← CyanfsBackendNewTask f w; CyanfsFlushMetadata (efi_of st) f w.

Definition CyanfsTruncate (id size : Z) (f : F) (w : world) : option (efi_status * F * world) :=
  '(st, w) ← cyanfs_truncate id size w;
  '(f, w) ← CyanfsBackendNewTask f w; CyanfsFlushMetadata (efi_of st) f w.

Definition CyanfsDelete (id : Z) (f : F) (w : world) : option (efi_status * F * world) :=
  '(st, w) ← cyanfs_delete id w;
  '(f, w) ← CyanfsBackendNewTask f w; CyanfsFlushMetadata (efi_of st) f w.

(** ** Block I/O of a virtual disk *)

(** The firmware, the buffer (what the pointer has passed and what is left)
    and the offset. *)
Record CYANFS_IO_CTX := mk_ictx { ic_f : F; ic_passed : list Z; ic_buffer : list Z; ic_offset : Z; ic_write : bool }.

Definition ictx_put (f : F) (buf : list Z) (c : CYANFS_IO_CTX) : CYANFS_IO_CTX := mk_ictx f (ic_passed c) buf (ic_offset c) (ic_write c).
Definition ictx_advance (len : Z) (c : CYANFS_IO_CTX) : CYANFS_IO_CTX :=
  mk_ictx (ic_f c) (ic_passed c ++ take (Z.to_nat len) (ic_buffer c)) (drop (Z.to_nat len) (ic_buffer c)) (u64 (ic_offset c + len)) (ic_write c).

(** [again] is [CyanfsIo]. *)
Definition CyanfsIoPartial (again : Z → Z → list Z → F → world → option (efi_status * list Z * F * world)) : io_handler CYANFS_IO_CTX :=
  λ type offset len c w,
  '(st, c, w) ←
    match type with
    | CYANFS_MAP_NOP =>
        let buf := if ic_write c then ic_buffer c else replicate (Z.to_nat len) 0 ++ drop (Z.to_nat len) (ic_buffer c) in
        Some (EFI_SUCCESS, ictx_put (ic_f c) buf c, w)
    | CYANFS_MAP_SUBMIT =>
        if ic_write c then
          let '(st, f) := WriteBlocks (Z.shiftr offset SECTOR_SHIFT) (take (Z.to_nat len) (ic_buffer c)) (ic_f c) in
          Some (st, ictx_put f (ic_buffer c) c, w)
        else
          let '(st, bs, f) := ReadBlocks (Z.shiftr offset SECTOR_SHIFT) len (ic_f c) in
          Some (st, ictx_put f (bs ++ drop (length bs) (ic_buffer c)) c, w)
    | CYANFS_MAP_REQUEUE =>
        '(f, w) ← CyanfsBackendLoop fuel (ic_f c) w;
        '(st, buf, f, w) ← again (ic_offset c) len (ic_buffer c) f w;
        Some (st, ictx_put f buf c, w)
    end;
  Some (status_of_efi st, if EFI_ERROR st then c else ictx_advance len c, w).

(** [tries] bounds how often a piece is tried again. *)
Fixpoint CyanfsIo (tries : nat) (file : Z) (IsWrite : bool) (Offset Len : Z) (Buffer : list Z) (f : F) (w : world)
    : option (efi_status * list Z * F * world) :=
  match tries with
  | O => None
  | S tries =>
      if Len =? 0 then Some (EFI_SUCCESS, Buffer, f, w) else
      let handler := CyanfsIoPartial (CyanfsIo tries file IsWrite) in
      let ctx := mk_ictx f [] Buffer Offset IsWrite in
      '(st, c, w) ← (if IsWrite then cyanfs_write handler (λ w, w) file ctx Offset Len w
                     else cyanfs_read handler (λ w, w) file ctx Offset Len w);
      '(f, w) ← (if IsWrite then CyanfsBackendNewTask (ic_f c) w else Some (ic_f c, w));
      Some (efi_of st, ic_passed c ++ ic_buffer c, f, w)
  end.

Definition CyanfsIoRead (tries : nat) (d : CYANFS_DISK) (Lba : Z) (Buffer : list Z) (f : F) (w : world) :=
  CyanfsIo tries (dk_file d) false (u64 (Z.shiftl Lba SECTOR_SHIFT)) (Z.of_nat (length Buffer)) Buffer f w.

Definition CyanfsIoWrite (tries : nat) (d : CYANFS_DISK) (Lba : Z) (Buffer : list Z) (f : F) (w : world) :=
  CyanfsIo tries (dk_file d) true (u64 (Z.shiftl Lba SECTOR_SHIFT)) (Z.of_nat (length Buffer)) Buffer f w.

(** [cyanfs_flush] with the callback between its two halves. *)
Definition CyanfsIoFlush (f : F) (w : world) : option (efi_status * F * world) :=
  let '(st, w) := cyanfs_super_flush false w in
  '(f, w) ← CyanfsBackendNewTask f w;
  if failed st then Some (efi_of st, f, w) else
  let completion (st : efi_status) (f : F) (w : world) :=
    let st' := efi_of (cyanfs_file_status (w_super w)) in Some (if EFI_ERROR st' then st' else st, f, w) in
  match flush_map (w_super w) with
  | CYANFS_MAP_NOP => completion (efi_of st) f w
  | m =>
      '(f, w) ← (if bool_decide (m = CYANFS_MAP_REQUEUE) then CyanfsBackendLoop fuel f w else Some (f, w));
      let '(st, f) := FlushBlocks f in
      if EFI_ERROR st then Some (st, f, w) else completion st f w
  end.

(** ** The virtual disks *)
Definition CyanfsFindChild (h : Z) (l : list CYANFS_DISK) : option (nat * CYANFS_DISK) := list_find (λ d, dk_handle d = h) l.

(** Whether [HandleProtocol] finds the interface of the disk. *)
Definition has_interface (f : F) (h : Z) (g : efi_guid) (i : efi_interface) : bool := bool_decide (fw_installed f h g = Some i).

Definition CyanfsRefreshDiskProtocols (f : F) (d : CYANFS_DISK) : CYANFS_DISK :=
  if dk_handle d =? 0 then set_dk_installed false false d
  else set_dk_installed (has_interface f (dk_handle d) GUID_BLOCK_IO (IF_BLOCK_IO (dk_address d)))
         (has_interface f (dk_handle d) GUID_DEVICE_PATH (IF_DEVICE_PATH (dk_address d))) d.

Definition CyanfsOpenChildBlockIo (parent : efi_interface) (d : CYANFS_DISK) (f : F) : efi_status * CYANFS_DISK * F :=
  if dk_by_child d then (EFI_SUCCESS, d, f) else
  let '(st, i, f) := OpenByChild (dk_handle d) f in
  if EFI_ERROR st then (st, d, f) else
  if bool_decide (i = parent) then (EFI_SUCCESS, set_dk_by_child true d, f) else
  let '(_, f) := CloseByChild (dk_handle d) f in (EFI_DEVICE_ERROR, d, f).

Definition CyanfsCloseChildBlockIo (d : CYANFS_DISK) (f : F) : efi_status * CYANFS_DISK * F :=
  if negb (dk_by_child d) then (EFI_SUCCESS, d, f) else
  let '(st, f) := CloseByChild (dk_handle d) f in
  (st, if EFI_ERROR st then d else set_dk_by_child false d, f).

Definition CyanfsInstallDiskProtocol (p : efi_guid * efi_interface) (d : CYANFS_DISK) (f : F) : efi_status * CYANFS_DISK * F :=
  let '(st, h, f) := InstallProtocols (dk_handle d) [p] f in
  (st, CyanfsRefreshDiskProtocols f (set_dk_handle h d), f).

Definition first_error (a b : efi_status) : efi_status := if EFI_ERROR b && negb (EFI_ERROR a) then b else a.

Definition block_io_of (d : CYANFS_DISK) : efi_guid * efi_interface := (GUID_BLOCK_IO, IF_BLOCK_IO (dk_address d)).
Definition device_path_of (d : CYANFS_DISK) : efi_guid * efi_interface := (GUID_DEVICE_PATH, IF_DEVICE_PATH (dk_address d)).

Definition CyanfsRecoverDisk (parent : efi_interface) (Reconnect : bool) (d : CYANFS_DISK) (f : F) : efi_status * CYANFS_DISK * F :=
  let d := CyanfsRefreshDiskProtocols f d in
  if negb (dk_block_io d) && negb (dk_device_path d) then (EFI_NOT_FOUND, set_dk_state CYANFS_DISK_DEGRADED d, f) else
  let '(st, d, f) := CyanfsOpenChildBlockIo parent d f in
  let FirstError := if EFI_ERROR st then st else EFI_SUCCESS in
  let '(FirstError, d, f) :=
    if dk_block_io d then (FirstError, d, f) else
    let '(st, d, f) := CyanfsInstallDiskProtocol (block_io_of d) d f in (first_error FirstError st, d, f) in
  let '(FirstError, d, f) :=
    if dk_device_path d then (FirstError, d, f) else
    let '(st, d, f) := CyanfsInstallDiskProtocol (device_path_of d) d f in (first_error FirstError st, d, f) in
  let d := CyanfsRefreshDiskProtocols f d in
  if dk_block_io d && dk_device_path d && dk_by_child d then
    (EFI_SUCCESS, set_dk_state CYANFS_DISK_MANAGED d, if Reconnect then ConnectController (dk_handle d) f else f)
  else (if EFI_ERROR FirstError then FirstError else EFI_DEVICE_ERROR, set_dk_state CYANFS_DISK_DEGRADED d, f).

Definition CyanfsUninstallDiskProtocols (d : CYANFS_DISK) (f : F) : efi_status * CYANFS_DISK * F :=
  let d := CyanfsRefreshDiskProtocols f d in
  let '(st, f) :=
    if dk_block_io d && dk_device_path d then UninstallProtocols (dk_handle d) [block_io_of d; device_path_of d] f
    else if dk_block_io d then UninstallProtocols (dk_handle d) [block_io_of d] f
    else if dk_device_path d then UninstallProtocols (dk_handle d) [device_path_of d] f
    else (EFI_SUCCESS, f) in
  let d := CyanfsRefreshDiskProtocols f d in
  (if negb (EFI_ERROR st) && (dk_block_io d || dk_device_path d) then EFI_DEVICE_ERROR else st, d, f).

(** Whether the disk may be taken off the list and freed. *)
Definition CyanfsDestroyDisk_ok (d : CYANFS_DISK) : bool := negb (dk_by_child d || dk_block_io d || dk_device_path d).

(** [i]: the position of the disk in the list of the children. *)
Definition CyanfsDestroyDisk (i : nat) (d : CYANFS_DISK) (b : CYANFS_BACKEND) : option (efi_status * CYANFS_BACKEND) :=
  if negb (CyanfsDestroyDisk_ok d) then Some (EFI_DEVICE_ERROR, set_bk_children (<[i := d]> (bk_children b)) b) else
  s ← cyanfs_close (dk_file d) (w_super (bk_super b));
  Some (EFI_SUCCESS, set_bk_children (delete i (bk_children b)) (set_bk_super (set_w_super s (bk_super b)) b)).

(** The checks before any child is stopped. *)
Definition CyanfsValidateChildren (l : list CYANFS_DISK) (handles : option (list Z)) : efi_status :=
  match handles with
  | None => EFI_INVALID_PARAMETER
  | Some hs =>
      if bool_decide (NoDup hs) && forallb (λ h, negb (h =? 0) &&
        match CyanfsFindChild h l with
        | Some (_, d) => negb (bool_decide (dk_state d = CYANFS_DISK_CREATING)) && negb (bool_decide (dk_state d = CYANFS_DISK_STOPPING))
        | None => false
        end) hs then EFI_SUCCESS else EFI_INVALID_PARAMETER
  end.

Definition put_child (i : nat) (d : CYANFS_DISK) (b : CYANFS_BACKEND) : CYANFS_BACKEND := set_bk_children (<[i := d]> (bk_children b)) b.

Definition CyanfsStopDisk (i : nat) (d : CYANFS_DISK) (f : F) (b : CYANFS_BACKEND) : option (efi_status * F * CYANFS_BACKEND) :=
  let PreviousState := dk_state d in
  let d := set_dk_state CYANFS_DISK_STOPPING d in
  '(st, f, w) ← CyanfsIoFlush f (bk_super b);
  let b := set_bk_super w b in
  if EFI_ERROR st then Some (st, f, put_child i (set_dk_state PreviousState d) b) else
  let '(st, d, f) := CyanfsCloseChildBlockIo d f in
  if EFI_ERROR st then Some (st, f, put_child i (set_dk_state PreviousState d) b) else
  let '(st, d, f) := CyanfsUninstallDiskProtocols d f in
  if negb (dk_block_io d) && negb (dk_device_path d) then '(st, b) ← CyanfsDestroyDisk i d b; Some (st, f, b) else
  let '(RecoveryStatus, d, f) := CyanfsRecoverDisk (bk_disk b) true d f in
  Some (if EFI_ERROR st then st else if EFI_ERROR RecoveryStatus then RecoveryStatus else EFI_DEVICE_ERROR, f, put_child i d b).

Fixpoint stop_children (hs : list Z) (failed : bool) (f : F) (b : CYANFS_BACKEND) : option (efi_status * F * CYANFS_BACKEND) :=
  match hs with
  | [] => Some (if failed then EFI_DEVICE_ERROR else EFI_SUCCESS, f, b)
  | h :: hs =>
      '(i, d) ← CyanfsFindChild h (bk_children b);
      '(st, f, b) ← CyanfsStopDisk i d f b;
      stop_children hs (failed || EFI_ERROR st) f b
  end.

Definition CyanfsStopChildren (handles : option (list Z)) (f : F) (b : CYANFS_BACKEND) : option (efi_status * F * CYANFS_BACKEND) :=
  let st := CyanfsValidateChildren (bk_children b) handles in
  if EFI_ERROR st then Some (st, f, b) else
  match handles with Some hs => stop_children hs false f b | None => None end.

(** The loop of [CyanfsRecoverDegradedChildren] over the disks. *)
Fixpoint CyanfsRecoverDegradedChildren (parent : efi_interface) (l : list CYANFS_DISK) (f : F) : list CYANFS_DISK * F :=
  match l with
  | [] => ([], f)
  | d :: l =>
      let '(d, f) :=
        if bool_decide (dk_state d = CYANFS_DISK_DEGRADED) then
          let '(_, d, f) := CyanfsRecoverDisk parent true (set_dk_state CYANFS_DISK_STOPPING d) f in (d, f)
        else (d, f) in
      let '(l, f) := CyanfsRecoverDegradedChildren parent l f in (d :: l, f)
  end.

(** [DevicePath] says whether the caller wants the device path; what it gets is
    the device path of the disk at that address. *)
Definition CyanfsMap (ID : Z) (DevicePath : bool) (f : F) (b : CYANFS_BACKEND)
    : option (efi_status * option Z * F * CYANFS_BACKEND) :=
  if negb DevicePath then Some (EFI_INVALID_PARAMETER, None, f, b) else
  let w := bk_super b in
  let '(st, _) := cyanfs_statfs (w_super w) in
  if failed st then Some (efi_of st, None, f, b) else
  let '(st, s) := cyanfs_open ID (negb (ReadOnly (fw_media f))) (w_super w) in
  let b := set_bk_super (set_w_super s w) b in
  if failed st then Some (efi_of st, None, f, b) else
  size ← cyanfs_size ID s;
  let close_file (st : efi_status) (f : F) :=
    s ← cyanfs_close ID s; Some (st, None, f, set_bk_super (set_w_super s w) b) in
  if size =? 0 then close_file EFI_INVALID_PARAMETER f else
  let '(ok, f) := AllocatePool f in
  if negb ok then close_file EFI_OUT_OF_RESOURCES f else
  let i := length (bk_children b) in
  let d := mk_cdisk (bk_next b) 0 ID CYANFS_DISK_CREATING false false false
             (mk_media SECTOR_SIZE (Z.shiftr (size - 1) SECTOR_SHIFT) (ReadOnly (fw_media f))) in
  let b := mk_backend (bk_super b) (bk_disk b) (bk_children b ++ [d]) (bk_next b + 1) in
  let destroy (st : efi_status) (d : CYANFS_DISK) (f : F) :=
    '(r, b) ← CyanfsDestroyDisk i d b; Some (if EFI_ERROR r then r else st, None, f, b) in
  let commit (d : CYANFS_DISK) (f : F) :=
    Some (EFI_SUCCESS, Some (dk_address d), ConnectController (dk_handle d) f, put_child i (set_dk_state CYANFS_DISK_MANAGED d) b) in
  let recover (d : CYANFS_DISK) (f : F) :=
    let '(r, d, f) := CyanfsRecoverDisk (bk_disk b) false d f in
    if EFI_ERROR r then Some (r, None, f, put_child i d b) else commit d f in
  let '(ok, f) := AppendDevicePathNode f in
  if negb ok then destroy EFI_OUT_OF_RESOURCES d f else
  let '(st, h, f) := InstallProtocols (dk_handle d) [block_io_of d; device_path_of d] f in
  let d := CyanfsRefreshDiskProtocols f (set_dk_handle h d) in
  let neither (d : CYANFS_DISK) := negb (dk_block_io d) && negb (dk_device_path d) in
  if EFI_ERROR st then if neither d then destroy st d f else recover d f
  else if negb (dk_block_io d) || negb (dk_device_path d) then recover d f
  else
    let '(st, d, f) := CyanfsOpenChildBlockIo (bk_disk b) d f in
    if EFI_ERROR st then
      let '(_, d, f) := CyanfsUninstallDiskProtocols d f in
      if neither d then destroy st d f else recover d f
    else commit d f.

(** ** The driver *)

(** The size of the device the driver gives to the core. *)
Definition backend_size (m : efi_media) : Z := u64 (Z.shiftl (LastBlock m) SECTOR_SHIFT).

(** [mallocs] are the outcomes of the core's allocations. *)
Definition CyanfsDriverStart (mallocs : list bool) (f : F) : option (efi_status * option CYANFS_BACKEND * F) :=
  let '(st, f) := OpenByDriver f in
  if EFI_ERROR st then Some (st, None, f) else
  let close_block_io (st : efi_status) (f : F) := let '(_, f) := CloseByDriver f in Some (st, None, f) in
  let '(ok, f) := AllocatePool f in
  if negb ok then close_block_io EFI_OUT_OF_RESOURCES f else
  match cyanfs_super_open (backend_size (fw_media f)) false false true mallocs with
  | None => close_block_io EFI_OUT_OF_RESOURCES f
  | Some w =>
      '(f, w) ← CyanfsBackendLoop fuel f w;
      let free_super (st : efi_status) (f : F) := _ ← cyanfs_super_close (w_super w); close_block_io st f in
      if negb (cyanfs_super_is_ready (w_super w)) then free_super EFI_VOLUME_CORRUPTED f else
      let w := upd_super (cyanfs_super_set_new_task_callback (Some 0)) w in
      let '(st, f) := InstallCyanfs f in
      if EFI_ERROR st then free_super st f else
      Some (EFI_SUCCESS, Some (mk_backend w (fw_parent f) [] 1), f)
  end.

(** The second component: the backend, when it goes on existing. *)
Definition CyanfsDriverStop (NumberOfChildren : Z) (handles : option (list Z)) (f : F) (b : CYANFS_BACKEND)
    : option (efi_status * option CYANFS_BACKEND * F) :=
  let '(st, f) := OpenCyanfs f in
  if EFI_ERROR st then Some (EFI_INVALID_PARAMETER, Some b, f) else
  if negb (NumberOfChildren =? 0) then
    '(st, f, b) ← CyanfsStopChildren (take (Z.to_nat NumberOfChildren) <$> handles) f b;
    let '(CloseStatus, f) := CloseCyanfs f in
    Some (if EFI_ERROR st then st else CloseStatus, Some b, f)
  else if negb (bool_decide (bk_children b = [])) then
    let '(l, f) := CyanfsRecoverDegradedChildren (bk_disk b) (bk_children b) f in
    let '(_, f) := CloseCyanfs f in
    Some (EFI_DEVICE_ERROR, Some (set_bk_children l b), f)
  else
    '(st, f, w) ← CyanfsFlushMetadata EFI_SUCCESS f (bk_super b);
    let b := set_bk_super w b in
    let '(CloseStatus, f) := CloseCyanfs f in
    if EFI_ERROR st then Some (st, Some b, f) else
    if EFI_ERROR CloseStatus then Some (CloseStatus, Some b, f) else
    let '(st, f) := UninstallCyanfs f in
    if EFI_ERROR st then Some (st, Some b, f) else
    let '(CloseStatus, f) := CloseByDriver f in
    _ ← cyanfs_super_close (w_super (bk_super b));
    Some (CloseStatus, None, f).

Definition CyanfsDriverSupported (f : F) : efi_status * F :=
  let '(st, f) := OpenByDriver f in
  if EFI_ERROR st then (st, f) else
  let close (st : efi_status) (f : F) := let '(CloseStatus, f) := CloseByDriver f in (if EFI_ERROR CloseStatus then CloseStatus else st, f) in
  if negb (BlockSize (fw_media f) =? SECTOR_SIZE) then close EFI_UNSUPPORTED f else
  if backend_size (fw_media f) <? CYANFS_SUPER_BLOCK_SIZE then close EFI_UNSUPPORTED f else
  let '(ok, f) := AllocatePool f in
  if negb ok then close EFI_OUT_OF_RESOURCES f else
  let '(st, Buffer, f) := ReadBlocks 0 CYANFS_SUPER_BLOCK_SIZE f in
  if EFI_ERROR st then close st f else
  match cyanfs_super_parse Buffer with
  | Some (inr _) => close EFI_SUCCESS f
  | _ => close EFI_UNSUPPORTED f
  end.
End loops.
End driver.
