(* ===== verification/UefiSpec.v ===== *)
(** * UefiSpec: the virtual disks of the UEFI driver

    Whatever the firmware refuses or gets half done, the driver's list of
    virtual disks says exactly what the firmware knows of them: no disk is freed
    while the firmware refers to it, and none is forgotten. *)
From Stdlib Require Import ZArith Lia.
From S2P Require Import Prelude Disk Base Journal Types Super World JournalIO Discard Compact Flusher Api ReadWrite System Uefi.

(** ** The handle database *)
Section database.
Context {F : Type} `{!Firmware F}.

(** The database says the same about [h]. *)
Definition fw_same_at (f f' : F) (h : Z) : Prop :=
  (∀ g, fw_installed f' h g = fw_installed f h g) ∧ fw_by_child f' h = fw_by_child f h.

(** Only the handles outside of [P] may have changed. *)
Record fw_frame (P : Z → Prop) (f f' : F) : Prop := {
  ff_at : ∀ h, P h → fw_same_at f f' h;
  ff_parent : fw_parent f' = fw_parent f }.

Definition fw_same : F → F → Prop := fw_frame (λ _, True).

(** A handle that is not in use. *)
Definition unused (f : F) (h : Z) : Prop := (∀ g, fw_installed f h g = None) ∧ fw_by_child f h = false.

#[export] Instance fw_frame_preorder P : PreOrder (fw_frame P).
Proof.
  split; [by split|]. intros f1 f2 f3 [H1 E1] [H2 E2]. split; [|congruence].
  intros h Hh. destruct (H1 h Hh) as [A1 B1], (H2 h Hh) as [A2 B2]. split; [intros g; by rewrite A2|congruence].
Qed.

Lemma fw_frame_weaken (P Q : Z → Prop) f f' : (∀ h, Q h → P h) → fw_frame P f f' → fw_frame Q f f'.
Proof. intros Hq [H E]. split; [intros h Hh; by apply H, Hq|done]. Qed.

Lemma fw_same_frame P f f' : fw_same f f' → fw_frame P f f'.
Proof. by apply fw_frame_weaken. Qed.
End database.

(** What the UEFI specification says about the calls of the driver. *)
Class FirmwareLaws (F : Type) `{!Firmware F} : Prop := {
  fl_null (f : F) : unused f 0;
  fl_read lba len (f : F) st bs f' : ReadBlocks lba len f = (st, bs, f') → fw_same f f';
  fl_write lba data (f : F) st f' : WriteBlocks lba data f = (st, f') → fw_same f f';
  fl_flush (f : F) st f' : FlushBlocks f = (st, f') → fw_same f f';
  fl_pool (f : F) ok f' : AllocatePool f = (ok, f') → fw_same f f';
  fl_append (f : F) ok f' : AppendDevicePathNode f = (ok, f') → fw_same f f';
  fl_connect h (f : F) : fw_same f (ConnectController h f);
  fl_open_driver (f : F) st f' : OpenByDriver f = (st, f') → fw_same f f';
  fl_install_cyanfs (f : F) st f' : InstallCyanfs f = (st, f') → fw_same f f';
  fl_uninstall_cyanfs (f : F) st f' : UninstallCyanfs f = (st, f') → fw_same f f';
  fl_open_cyanfs (f : F) st f' : OpenCyanfs f = (st, f') → fw_same f f';
  fl_close_cyanfs (f : F) st f' : CloseCyanfs f = (st, f') → fw_same f f';
  fl_install h l (f : F) st h' f' :
    InstallProtocols h l f = (st, h', f') →
    (if h =? 0 then h' = 0 ∨ unused f h' else h' = h) ∧ fw_frame (λ x, x ≠ h') f f' ∧ fw_by_child f' h' = fw_by_child f h' ∧
    (∀ g, fw_installed f' h' g = fw_installed f h' g ∨ ∃ i, (g, i) ∈ l ∧ fw_installed f' h' g = Some i) ∧
    (st = EFI_SUCCESS → h' ≠ 0 ∧ ∀ g i, (g, i) ∈ l → fw_installed f' h' g = Some i);
  fl_uninstall h l (f : F) st f' :
    UninstallProtocols h l f = (st, f') →
    fw_frame (λ x, x ≠ h) f f' ∧ fw_by_child f' h = fw_by_child f h ∧
    (∀ g, fw_installed f' h g = fw_installed f h g ∨ fw_installed f' h g = None);
  fl_open_child h (f : F) st i f' :
    OpenByChild h f = (st, i, f') →
    fw_frame (λ x, x ≠ h) f f' ∧ (∀ g, fw_installed f' h g = fw_installed f h g) ∧
    (if EFI_ERROR st then fw_by_child f' h = fw_by_child f h else fw_by_child f' h = true ∧ i = fw_parent f);
  fl_close_child h (f : F) st f' :
    CloseByChild h f = (st, f') →
    fw_frame (λ x, x ≠ h) f f' ∧ (∀ g, fw_installed f' h g = fw_installed f h g) ∧
    (if EFI_ERROR st then fw_by_child f' h = fw_by_child f h else fw_by_child f' h = false) }.

(** What a handler keeps, a read and a write keep. *)
Section handler.
Context {C : Type} (handler : io_handler C) (R : C → C → Prop) `{!PreOrder R}.
Context (Hh : ∀ ty off len c w e c' w', handler ty off len c w = Some (e, c', w') → R c c').

Lemma read_keeps id c off len w e c' w' : cyanfs_read handler (λ w, w) id c off len w = Some (e, c', w') → R c c'.
Proof using PreOrder0 Hh.
  unfold cyanfs_read. destruct (files_by_id (w_super w) !! id) as [fl|]; [|done]. cbn [mbind option_bind].
  destruct (range_invalid _ _ _); [by intros [= _ <- _]|]. generalize (Z.to_nat len). intros n. revert c off len w.
  induction n as [|n IH]; intros c off len w; cbn [read_loop]; (destruct (len =? 0); [by intros [= _ <- _]|]); [done|].
  destruct (failed _); [by intros [= _ <- _]|]. destruct (__cyanfs_file_find_extent_follow _ _ _) as [x|]; [|done]. cbn [mbind option_bind].
  destruct (extent_of _ x) as [ex|]; [|done]. cbn [mbind option_bind].
  destruct (read_dispatch handler ex off _ c w) as [[[e1 c1] w1]|] eqn:E; [|done]. cbn [mbind option_bind].
  assert (H1 : R c c1).
  { unfold read_dispatch in E. destruct (ext_error ex); [by injection E as _ <- _|]. destruct (negb _); [by eapply Hh|]. destruct (ext_pending ex); by eapply Hh. }
  destruct (failed e1); [by intros [= _ <- _]|]. intros Hl. etransitivity; [exact H1|by eapply IH].
Qed.

Lemma write_keeps id c off len w e c' w' : cyanfs_write handler (λ w, w) id c off len w = Some (e, c', w') → R c c'.
Proof using PreOrder0 Hh.
  unfold cyanfs_write. destruct (files_by_id (w_super w) !! id) as [fl|]; [|done]. cbn [mbind option_bind].
  destruct (_ || _); [by intros [= _ <- _]|]. destruct (write_loop _ _ _ _ _ _ _ _ _) as [[[[e0 nj0] c0] w0]|] eqn:E; [|done].
  cbn [mbind option_bind]. intros [= _ <- _]. revert E. generalize (Z.to_nat len), false. intros n nj. revert c off len w nj.
  induction n as [|n IH]; intros c off len w nj; cbn [write_loop]; (destruct (len =? 0); [by intros [= _ _ <- _]|]); [done|].
  destruct (write_extent _ id off w) as [o|]; [|done]. cbn [mbind option_bind].
  destruct (write_dispatch handler _ _ off _ c _) as [[[e1 c1] w1]|] eqn:E; [|done]. cbn [mbind option_bind].
  assert (H1 : R c c1).
  { unfold write_dispatch in E. destruct (ext_error _); [by injection E as _ <- _|]. destruct (ext_map _); [|by injection E as _ <- _].
    destruct (ext_pending _); by eapply Hh. }
  destruct (failed e1); [by intros [= _ _ <- _]|]. intros Hl. etransitivity; [exact H1|by eapply IH].
Qed.
End handler.

Section tracked.
Context {F : Type} `{!Firmware F, !FirmwareLaws F}.

(** ** One disk *)

(** An interface of some virtual disk, and one of this disk. *)
Definition disk_interface (i : efi_interface) : bool := match i with IF_BLOCK_IO _ | IF_DEVICE_PATH _ => true | _ => false end.
Definition own_interface (d : CYANFS_DISK) (p : efi_guid * efi_interface) : Prop := p = block_io_of d ∨ p = device_path_of d.

(** What the firmware knows of the handle of the disk is about the disk, and
    the disk knows whether it holds its parent open. *)
Record held (f : F) (d : CYANFS_DISK) : Prop := {
  he_handle : dk_handle d ≠ 0;
  he_child : dk_by_child d = fw_by_child f (dk_handle d);
  he_mine : ∀ g i, fw_installed f (dk_handle d) g = Some i → disk_interface i = true → own_interface d (g, i) }.

(** The flags of the disk are those of the database. *)
Definition fresh_flags (f : F) (d : CYANFS_DISK) : Prop := CyanfsRefreshDiskProtocols f d = d.

(** From one state to another, of the firmware and the disk. *)
Record evolves (f : F) (d : CYANFS_DISK) (f' : F) (d' : CYANFS_DISK) : Prop := {
  ev_address : dk_address d' = dk_address d;
  ev_file : dk_file d' = dk_file d;
  ev_handle : dk_handle d' = dk_handle d;
  ev_frame : fw_frame (λ h, h ≠ dk_handle d) f f';
  ev_held : held f' d' }.

Lemma evolves_refl f d : held f d → evolves f d f d.
Proof. by split. Qed.

Lemma evolves_trans f1 d1 f2 d2 f3 d3 : evolves f1 d1 f2 d2 → evolves f2 d2 f3 d3 → evolves f1 d1 f3 d3.
Proof.
  intros [A1 B1 C1 F1 _] [A2 B2 C2 F2 H2]. split; [congruence..| |done]. rewrite C1 in F2. by etransitivity.
Qed.

Lemma refresh_same f d : dk_handle d ≠ 0 →
  let d' := CyanfsRefreshDiskProtocols f d in
  dk_address d' = dk_address d ∧ dk_handle d' = dk_handle d ∧ dk_file d' = dk_file d ∧ dk_by_child d' = dk_by_child d ∧ dk_state d' = dk_state d ∧
  dk_block_io d' = has_interface f (dk_handle d) GUID_BLOCK_IO (IF_BLOCK_IO (dk_address d)) ∧
  dk_device_path d' = has_interface f (dk_handle d) GUID_DEVICE_PATH (IF_DEVICE_PATH (dk_address d)).
Proof. unfold CyanfsRefreshDiskProtocols. intros Hh. destruct (Z.eqb_spec (dk_handle d) 0); [done|]. done. Qed.

Lemma refresh_evolves f d : held f d → evolves f d f (CyanfsRefreshDiskProtocols f d) ∧ fresh_flags f (CyanfsRefreshDiskProtocols f d).
Proof.
  intros [Hh Hc Hm]. unfold fresh_flags, CyanfsRefreshDiskProtocols. destruct (Z.eqb_spec (dk_handle d) 0); [done|].
  split; [by split|]. cbn [set_dk_installed dk_handle dk_address]. by destruct (Z.eqb_spec (dk_handle d) 0).
Qed.

Lemma held_state st f d : held f d → held f (set_dk_state st d).
Proof. by intros [? ? ?]. Qed.

Lemma evolves_state st f d f' d' : evolves f d f' d' → evolves f d f' (set_dk_state st d').
Proof. intros [? ? ? ? ?]. split; try done. by apply held_state. Qed.

(** Opening and closing the parent for the disk. *)
Lemma open_child_ok f d st d' f' :
  held f d → CyanfsOpenChildBlockIo (fw_parent f) d f = (st, d', f') →
  evolves f d f' d' ∧ (∀ h g, fw_installed f' h g = fw_installed f h g) ∧
  dk_block_io d' = dk_block_io d ∧ dk_device_path d' = dk_device_path d ∧ dk_by_child d' = negb (EFI_ERROR st) ∧ dk_state d' = dk_state d.
Proof.
  intros Hh. unfold CyanfsOpenChildBlockIo. destruct (dk_by_child d) eqn:Ec.
  { intros [= <- <- <-]. split; [by apply evolves_refl|]. rewrite Ec. done. }
  destruct (OpenByChild (dk_handle d) f) as [[st1 i] f1] eqn:E. apply fl_open_child in E as (Hfr & Hi & Hc). destruct Hh as [H1 H2 H3].
  assert (Hall : ∀ h g, fw_installed f1 h g = fw_installed f h g).
  { intros h g. destruct (decide (h = dk_handle d)) as [->|Hne]; [done|]. by apply (ff_at _ _ _ Hfr h Hne). }
  destruct (EFI_ERROR st1) eqn:Es.
  - intros [= <- <- <-]. rewrite Es. split; [|done]. split; try done. split; [done|congruence|]. intros g j. rewrite Hi. apply H3.
  - destruct Hc as [Hc ->]. rewrite bool_decide_true by done. intros [= <- <- <-]. split; [|done]. split; try done.
    split; [done|done|]. intros g j. cbn [set_dk_by_child dk_handle]. rewrite Hi. apply H3.
Qed.

Lemma close_child_ok f d st d' f' :
  held f d → CyanfsCloseChildBlockIo d f = (st, d', f') →
  evolves f d f' d' ∧ (∀ h g, fw_installed f' h g = fw_installed f h g) ∧
  dk_block_io d' = dk_block_io d ∧ dk_device_path d' = dk_device_path d ∧ dk_by_child d' = EFI_ERROR st && dk_by_child d ∧ dk_state d' = dk_state d.
Proof.
  intros Hh. unfold CyanfsCloseChildBlockIo. destruct (dk_by_child d) eqn:Ec; cbn [negb].
  2:{ intros [= <- <- <-]. split; [by apply evolves_refl|]. by rewrite Ec. }
  destruct (CloseByChild (dk_handle d) f) as [st1 f1] eqn:E. apply fl_close_child in E as (Hfr & Hi & Hc). destruct Hh as [H1 H2 H3].
  assert (Hall : ∀ h g, fw_installed f1 h g = fw_installed f h g).
  { intros h g. destruct (decide (h = dk_handle d)) as [->|Hne]; [done|]. by apply (ff_at _ _ _ Hfr h Hne). }
  intros [= <- <- <-]. destruct (EFI_ERROR st1) eqn:Es; split; rewrite ?Ec; try done; (split; [try done..|]).
  - split; [done|congruence|]. intros g j. rewrite Hi. apply H3.
  - split; [done|done|]. intros g j. cbn [set_dk_by_child dk_handle]. rewrite Hi. apply H3.
Qed.

(** Installing and uninstalling. *)

(** The interfaces of the disk that are installed. *)
Definition knows (f : F) (d : CYANFS_DISK) : Prop :=
  has_interface f (dk_handle d) GUID_BLOCK_IO (IF_BLOCK_IO (dk_address d)) ||
  has_interface f (dk_handle d) GUID_DEVICE_PATH (IF_DEVICE_PATH (dk_address d)) = true.

Lemma install_held f f' h d (l : list (efi_guid * efi_interface)) :
  dk_handle d = h → held f d → (∀ p, p ∈ l → own_interface d p) → fw_by_child f' h = fw_by_child f h →
  (∀ g, fw_installed f' h g = fw_installed f h g ∨ ∃ i, (g, i) ∈ l ∧ fw_installed f' h g = Some i) →
  held f' d ∧ (knows f d → knows f' d).
Proof.
  intros <- [H1 H2 H3] Hl Hc Hi. split.
  - split; [done|congruence|]. intros g i Hg Ha. destruct (Hi g) as [E|(j & Hj & E)]; rewrite E in Hg; [by apply H3|].
    injection Hg as <-. by apply Hl.
  - unfold knows, has_interface. rewrite !orb_true_iff, !bool_decide_eq_true. intros [Hb|Hp].
    + left. destruct (Hi GUID_BLOCK_IO) as [E|(j & Hj & E)]; rewrite E; [done|]. by destruct (Hl _ Hj) as [[= ->]|[=]].
    + right. destruct (Hi GUID_DEVICE_PATH) as [E|(j & Hj & E)]; rewrite E; [done|]. by destruct (Hl _ Hj) as [[=]|[= ->]].
Qed.

Lemma install_disk_ok p f d st d' f' :
  held f d → own_interface d p → CyanfsInstallDiskProtocol p d f = (st, d', f') →
  evolves f d f' d' ∧ fresh_flags f' d' ∧ dk_by_child d' = dk_by_child d ∧ (knows f d → knows f' d').
Proof.
  intros Hh Hp. unfold CyanfsInstallDiskProtocol. destruct (InstallProtocols (dk_handle d) [p] f) as [[st1 h] f1] eqn:E.
  apply fl_install in E as (Eh & Hfr & Hc & Hi & _). destruct (Z.eqb_spec (dk_handle d) 0) as [E0|_]; [by destruct (he_handle _ _ Hh)|]. subst h.
  intros [= <- <- <-].
  destruct (install_held f f1 (dk_handle d) d [p]) as [Hh1 Hk]; [done|done|by intros q ->%list_elem_of_singleton|done|done|].
  assert (Ed : set_dk_handle (dk_handle d) d = d) by (by destruct d). rewrite Ed.
  destruct (refresh_evolves f1 d Hh1) as [[A1 A2 A3 A4 A5] Hfl].
  split; [by split|]. destruct (refresh_same f1 d (he_handle _ _ Hh)) as (B1 & B2 & B3 & B4 & _). split_and!; [done|done|].
  intros Hkn. unfold knows. rewrite B1, B2. by apply Hk.
Qed.

Lemma uninstall_held f f' d :
  held f d → fw_by_child f' (dk_handle d) = fw_by_child f (dk_handle d) →
  (∀ g, fw_installed f' (dk_handle d) g = fw_installed f (dk_handle d) g ∨ fw_installed f' (dk_handle d) g = None) → held f' d.
Proof.
  intros [H1 H2 H3] Hc Hi. split; [done|congruence|]. intros g i Hg Ha. destruct (Hi g) as [E|E]; rewrite E in Hg; [by apply H3|done].
Qed.

Lemma uninstall_disk_ok f d st d' f' :
  held f d → CyanfsUninstallDiskProtocols d f = (st, d', f') →
  evolves f d f' d' ∧ fresh_flags f' d' ∧ dk_by_child d' = dk_by_child d.
Proof.
  intros Hh. unfold CyanfsUninstallDiskProtocols. destruct (refresh_evolves f d Hh) as [Hev0 _].
  destruct (refresh_same f d (he_handle _ _ Hh)) as (_ & _ & _ & Hc0 & _). set (d0 := CyanfsRefreshDiskProtocols f d) in *.
  match goal with |- context [let '(_, _) := ?x in _] => destruct x as [st1 f1] eqn:E end.
  assert (H1 : fw_frame (λ h, h ≠ dk_handle d0) f f1 ∧ held f1 d0).
  { pose proof (ev_held _ _ _ _ Hev0) as H0.
    assert (Hu : ∀ l, UninstallProtocols (dk_handle d0) l f = (st1, f1) → fw_frame (λ h, h ≠ dk_handle d0) f f1 ∧ held f1 d0).
    { intros l (Hfr & Hc & Hi)%fl_uninstall. split; [done|]. by apply (uninstall_held f f1 d0). }
    destruct (dk_block_io d0 && dk_device_path d0); [by eapply Hu|]. destruct (dk_block_io d0); [by eapply Hu|].
    destruct (dk_device_path d0); [by eapply Hu|]. by injection E as <- <-. }
  destruct H1 as [Hfr H1]. intros [= <- <- <-]. destruct (refresh_evolves f1 d0 H1) as [Hev1 Hfl].
  split; [|split; [done|by destruct (refresh_same f1 d0 (he_handle _ _ H1)) as (_ & _ & _ & -> & _)]].
  eapply evolves_trans; [exact Hev0|]. eapply evolves_trans; [|exact Hev1]. by split.
Qed.

(** ** Recovery *)

(** The firmware and the list agree on the disk. *)
Record tracked (f : F) (d : CYANFS_DISK) : Prop := {
  tr_held : held f d;
  tr_flags : fresh_flags f d;
  tr_knows : knows f d;
  tr_state : match dk_state d with
             | CYANFS_DISK_MANAGED => dk_block_io d = true ∧ dk_device_path d = true ∧ dk_by_child d = true
             | CYANFS_DISK_DEGRADED => True
             | _ => False
             end }.

Lemma flags_knows f d : dk_handle d ≠ 0 → fresh_flags f d → (knows f d ↔ dk_block_io d || dk_device_path d = true).
Proof. intros Hh Hf. destruct (refresh_same f d Hh) as (_ & _ & _ & _ & _ & Eb & Ep). rewrite Hf in Eb, Ep. unfold knows. by rewrite <- Eb, <- Ep. Qed.

Lemma tracked_state st f d :
  held f d → fresh_flags f d → knows f d →
  (st = CYANFS_DISK_MANAGED ∧ dk_block_io d && dk_device_path d && dk_by_child d = true ∨ st = CYANFS_DISK_DEGRADED) → tracked f (set_dk_state st d).
Proof.
  intros Hh Hf Hk Hs. split; [by apply held_state| |done|].
  - unfold fresh_flags in *. unfold CyanfsRefreshDiskProtocols in *. cbn [set_dk_state dk_handle dk_address].
    destruct d as [x1 x2 x3 x4 x5 x6 x7 x8]; cbn [dk_handle dk_address] in *. destruct (_ =? 0); cbn in *; injection Hf; intros; unfold set_dk_state, set_dk_installed; cbn; congruence.
  - destruct Hs as [[-> Ha]| ->]; [|done]. apply andb_prop in Ha as [[Ha Hb]%andb_prop Hc]. done.
Qed.

(** What is said about a disk depends on its handle only. *)
Lemma held_same f f' d : fw_same_at f f' (dk_handle d) → held f d → held f' d.
Proof. intros [Hi Hc] [H1 H2 H3]. split; [done|congruence|]. intros g i. rewrite Hi. apply H3. Qed.

Lemma tracked_same f f' d : fw_same_at f f' (dk_handle d) → tracked f d → tracked f' d.
Proof.
  intros Hs [H1 H2 H3 H4]. split; [by apply (held_same f)| | |done]; destruct Hs as [Hi _].
  - unfold fresh_flags, CyanfsRefreshDiskProtocols, has_interface in *. by rewrite !Hi.
  - unfold knows, has_interface in *. by rewrite !Hi.
Qed.

Lemma flags_same f d :
  held f d → dk_block_io d = has_interface f (dk_handle d) GUID_BLOCK_IO (IF_BLOCK_IO (dk_address d)) →
  dk_device_path d = has_interface f (dk_handle d) GUID_DEVICE_PATH (IF_DEVICE_PATH (dk_address d)) → fresh_flags f d.
Proof.
  intros Hh Eb Ep. unfold fresh_flags, CyanfsRefreshDiskProtocols. destruct (Z.eqb_spec (dk_handle d) 0); [by destruct (he_handle _ _ Hh)|].
  rewrite <- Eb, <- Ep. by destruct d.
Qed.

(** Recovery leaves a disk that agrees with the database, provided one of its
    interfaces is there. *)
Lemma recover_ok reconnect f d st d' f' :
  held f d → knows f d → CyanfsRecoverDisk (fw_parent f) reconnect d f = (st, d', f') →
  evolves f d f' d' ∧ tracked f' d' ∧ (EFI_ERROR st = false → dk_state d' = CYANFS_DISK_MANAGED).
Proof.
  intros Hh Hk. unfold CyanfsRecoverDisk. destruct (refresh_evolves f d Hh) as [Hev0 Hfl0].
  destruct (refresh_same f d (he_handle _ _ Hh)) as (A1 & A2 & _ & _ & _ & Ab & Ap). set (d0 := CyanfsRefreshDiskProtocols f d) in *.
  assert (Hk0 : knows f d0) by (unfold knows; by rewrite A1, A2).
  pose proof (ev_held _ _ _ _ Hev0) as Hh0. assert (Hor := Hk0). rewrite (flags_knows f d0 (he_handle _ _ Hh0) Hfl0) in Hor.
  assert (negb (dk_block_io d0) && negb (dk_device_path d0) = false) as -> by (by destruct (dk_block_io d0), (dk_device_path d0)).
  destruct (CyanfsOpenChildBlockIo (fw_parent f) d0 f) as [[st1 d1] f1] eqn:E1. destruct (open_child_ok f d0 st1 d1 f1 Hh0 E1) as (Hev1 & Hi1 & _).
  assert (Hk1 : knows f1 d1) by (unfold knows, has_interface; rewrite (ev_handle _ _ _ _ Hev1), (ev_address _ _ _ _ Hev1), !Hi1; exact Hk0).
  clear E1 Hi1. set (e1 := if EFI_ERROR st1 then st1 else EFI_SUCCESS).
  (* One more protocol, if it is missing. *)
  assert (Hins : ∀ (b : bool) e p da fa e' db fb, own_interface da p → held fa da → knows fa da →
    (if b then (e, da, fa) else let '(st, d, f) := CyanfsInstallDiskProtocol p da fa in (first_error e st, d, f)) = (e', db, fb) →
    evolves fa da fb db ∧ knows fb db).
  { intros b e p da fa e' db fb Hp Hha Hka. destruct b; [intros [= <- <- <-]; split; [by apply evolves_refl|done]|].
    destruct (CyanfsInstallDiskProtocol p da fa) as [[sta db0] fb0] eqn:E. intros [= <- <- <-].
    destruct (install_disk_ok p fa da sta db0 fb0 Hha Hp E) as (Hev & _ & _ & Hkk). auto. }
  destruct (if dk_block_io d1 then _ else _) as [[e2 d2] f2] eqn:E2.
  destruct (Hins _ _ _ _ _ _ _ _ (or_introl eq_refl) (ev_held _ _ _ _ Hev1) Hk1 E2) as [Hev2 Hk2]. clear E2.
  destruct (if dk_device_path d2 then _ else _) as [[e3 d3] f3] eqn:E3.
  destruct (Hins _ _ _ _ _ _ _ _ (or_intror eq_refl) (ev_held _ _ _ _ Hev2) Hk2 E3) as [Hev3 Hk3]. clear E3 Hins.
  destruct (refresh_evolves f3 d3 (ev_held _ _ _ _ Hev3)) as [Hev4 Hfl4].
  destruct (refresh_same f3 d3 (he_handle _ _ (ev_held _ _ _ _ Hev3))) as (B1 & B2 & _). set (d4 := CyanfsRefreshDiskProtocols f3 d3) in *.
  assert (Hk4 : knows f3 d4) by (unfold knows; by rewrite B1, B2). pose proof (ev_held _ _ _ _ Hev4) as Hh4.
  assert (Hev : evolves f d f3 d4) by eauto using evolves_trans.
  destruct (dk_block_io d4 && dk_device_path d4 && dk_by_child d4) eqn:Eall.
  - intros [= <- <- <-]. pose proof (tracked_state CYANFS_DISK_MANAGED f3 d4 Hh4 Hfl4 Hk4 (or_introl (conj eq_refl Eall))) as Ht.
    destruct reconnect; [|split; [by apply evolves_state|done]].
    pose proof (fl_connect (dk_handle d4) f3) as Hc. destruct Hev as [V1 V2 V3 V4 V5]. split; [|split; [|done]].
    + split; try done; [etransitivity; [exact V4|by apply fw_same_frame]|]. apply (held_same f3); [by apply (ff_at _ _ _ Hc)|]. by apply held_state.
    + apply (tracked_same f3); [by apply (ff_at _ _ _ Hc)|done].
  - intros [= <- <- <-]. split; [by apply evolves_state|]. split; [by apply tracked_state; auto|]. by destruct (EFI_ERROR e3) eqn:Ee; [rewrite Ee|].
Qed.

(** ** The driver's I/O leaves the database alone *)
Lemma backend_step_same f w more f' w' : backend_step f w = Some (more, f', w') → fw_same f f'.
Proof.
  unfold backend_step. destruct (cyanfs_super_get_task (w_super w)) as [[t|] s]; [|by intros [= <- <- <-]].
  unfold backend_io. destruct (t_type t); cbn [mbind option_bind]; try done.
  - destruct (cyanfs_super_task_done _ _ _); [|done]. by intros [= <- <- <-].
  - destruct (get_cursor buf _); [|done]. cbn [mbind option_bind]. destruct (ReadBlocks _ _ f) as [[st bs] f1] eqn:E. cbn [mbind option_bind].
    destruct (cyanfs_super_task_done _ _ _); [|done]. intros [= <- <- <-]. by eapply fl_read.
  - destruct (get_cursor buf _); [|done]. cbn [mbind option_bind]. destruct (WriteBlocks _ _ f) as [st f1] eqn:E. cbn [mbind option_bind].
    destruct (cyanfs_super_task_done _ _ _); [|done]. intros [= <- <- <-]. by eapply fl_write.
  - destruct (FlushBlocks f) as [st f1] eqn:E. cbn [mbind option_bind].
    destruct (cyanfs_super_task_done _ _ _); [|done]. intros [= <- <- <-]. by eapply fl_flush.
Qed.

Lemma loop_same fuel f w f' w' : CyanfsBackendLoop fuel f w = Some (f', w') → fw_same f f'.
Proof.
  revert f w. induction fuel as [|fuel IH]; intros f w; [done|]. cbn [CyanfsBackendLoop].
  destruct (backend_step f w) as [[[more f1] w1]|] eqn:E; [|done]. apply backend_step_same in E. cbn [mbind option_bind].
  destruct more; [|by intros [= <- <-]]. intros Hl. etransitivity; [exact E|by eapply IH].
Qed.

Lemma flush_metadata_same fuel st f w st' f' w' : CyanfsFlushMetadata fuel st f w = Some (st', f', w') → fw_same f f'.
Proof.
  unfold CyanfsFlushMetadata, CyanfsBackendNewTask. destruct (cyanfs_super_flush true w) as [st1 w1].
  destruct (CyanfsBackendLoop fuel f w1) as [[f1 w2]|] eqn:E; [|done]. cbn [mbind option_bind]. intros [= _ <- _]. by eapply loop_same.
Qed.

Lemma io_flush_same fuel f w st f' w' : CyanfsIoFlush fuel f w = Some (st, f', w') → fw_same f f'.
Proof.
  unfold CyanfsIoFlush, CyanfsBackendNewTask. destruct (cyanfs_super_flush false w) as [st1 w1].
  destruct (CyanfsBackendLoop fuel f w1) as [[f1 w2]|] eqn:E; [|done]. apply loop_same in E. cbn [mbind option_bind].
  destruct (failed st1); [by intros [= <- <- <-]|].
  assert (Hrest : ∀ fx wx, fw_same f fx → (let '(st, f0) := FlushBlocks fx in
    if EFI_ERROR st then Some (st, f0, wx) else
    Some (if EFI_ERROR (efi_of (cyanfs_file_status (w_super wx))) then efi_of (cyanfs_file_status (w_super wx)) else st, f0, wx)) = Some (st, f', w') → fw_same f f').
  { intros fx wx Hx. destruct (FlushBlocks fx) as [st2 f2] eqn:E2. apply fl_flush in E2. destruct (EFI_ERROR st2); intros [= _ <- _]; by etransitivity. }
  destruct (flush_map (w_super w2)); [by intros [= _ <- _]|rewrite bool_decide_false by done; cbn [mbind option_bind]; by apply Hrest|].
  rewrite bool_decide_true by done. destruct (CyanfsBackendLoop fuel f1 w2) as [[f2 w3]|] eqn:E2; [|done]. cbn [mbind option_bind].
  apply loop_same in E2. apply Hrest. by etransitivity.
Qed.

(** The firmware of two contexts. *)
Definition ctx_same (c c' : CYANFS_IO_CTX) : Prop := fw_same (ic_f c) (ic_f c').

#[local] Instance ctx_same_preorder : PreOrder ctx_same.
Proof. split; [intros c; unfold ctx_same; reflexivity|]. intros c1 c2 c3 H1 H2. unfold ctx_same in *. by etransitivity. Qed.

Lemma partial_same fuel again ty off len (c : CYANFS_IO_CTX) w e c' w' :
  (∀ o l buf f0 w0 st0 buf' f1 w1, again o l buf f0 w0 = Some (st0, buf', f1, w1) → fw_same f0 f1) →
  CyanfsIoPartial fuel again ty off len c w = Some (e, c', w') → ctx_same c c'.
Proof.
  intros Ha. unfold CyanfsIoPartial.
  assert (Hend : ∀ (x : option (efi_status * CYANFS_IO_CTX * world)), (∀ st c1 w1, x = Some (st, c1, w1) → ctx_same c c1) →
    ('(st, c, w) ← x; Some (status_of_efi st, if EFI_ERROR st then c else ictx_advance len c, w)) = Some (e, c', w') → ctx_same c c').
  { intros [[[st c1] w1]|] Hx; [|done]. cbn [mbind option_bind]. specialize (Hx _ _ _ eq_refl). by destruct (EFI_ERROR st); intros [= _ <- _]. }
  apply Hend. clear Hend. intros st c1 w1. destruct ty; cbn [mbind option_bind].
  - intros [= _ <- _]. unfold ctx_same. reflexivity.
  - destruct (ic_write c).
    + destruct (WriteBlocks _ _ _) as [st1 f1] eqn:E. intros [= _ <- _]. by eapply fl_write.
    + destruct (ReadBlocks _ _ _) as [[st1 bs] f1] eqn:E. intros [= _ <- _]. by eapply fl_read.
  - destruct (CyanfsBackendLoop fuel (ic_f c) w) as [[f1 w2]|] eqn:E; [|done]. apply loop_same in E. cbn [mbind option_bind].
    destruct (again _ _ _ f1 w2) as [[[[st2 buf] f2] w3]|] eqn:E2; [|done]. apply Ha in E2. cbn [mbind option_bind].
    intros [= _ <- _]. unfold ctx_same. cbn. by etransitivity.
Qed.

Lemma io_same fuel tries file wr off len buf f w st buf' f' w' :
  CyanfsIo fuel tries file wr off len buf f w = Some (st, buf', f', w') → fw_same f f'.
Proof.
  revert off len buf f w st buf' f' w'. induction tries as [|tries IH]; intros off len buf f w st buf' f' w'; [done|]. cbn [CyanfsIo].
  destruct (len =? 0); [by intros [= _ _ <- _]|]. set (handler := CyanfsIoPartial fuel _).
  assert (Hk : ∀ ty o l c0 w0 e c1 w1, handler ty o l c0 w0 = Some (e, c1, w1) → ctx_same c0 c1).
  { intros ty o l c0 w0 e c1 w1. apply partial_same. exact IH. }
  destruct wr.
  - destruct (cyanfs_write handler _ _ _ _ _ _) as [[[e c1] w1]|] eqn:E; [|done]. apply (write_keeps _ ctx_same Hk) in E. cbn [mbind option_bind].
    unfold CyanfsBackendNewTask. destruct (CyanfsBackendLoop fuel (ic_f c1) w1) as [[f2 w2]|] eqn:E2; [|done]. apply loop_same in E2.
    cbn [mbind option_bind]. intros [= _ _ <- _]. by etransitivity.
  - destruct (cyanfs_read handler _ _ _ _ _ _) as [[[e c1] w1]|] eqn:E; [|done]. apply (read_keeps _ ctx_same Hk) in E. cbn [mbind option_bind].
    by intros [= _ _ <- _].
Qed.

(** ** The list of the children *)
Record backend_ok (f : F) (b : CYANFS_BACKEND) : Prop := {
  bo_parent : bk_disk b = fw_parent f;
  bo_tracked : ∀ d, d ∈ bk_children b → tracked f d;
  bo_handles : NoDup (dk_handle <$> bk_children b);
  bo_addresses : NoDup (dk_address <$> bk_children b) ∧ ∀ d, d ∈ bk_children b → dk_address d < bk_next b;
  bo_owned : ∀ h g i, fw_installed f h g = Some i → disk_interface i = true →
    ∃ d, d ∈ bk_children b ∧ dk_handle d = h ∧ own_interface d (g, i);
  bo_child : ∀ h, fw_by_child f h = true → ∃ d, d ∈ bk_children b ∧ dk_handle d = h }.

Lemma backend_same f f' b : fw_same f f' → backend_ok f b → backend_ok f' b.
Proof.
  intros [Hs Hp] [H1 H2 H3 H4 H5 H6]. split; [congruence| |done|done| |].
  - intros d Hd. apply (tracked_same f); [by apply Hs|by apply H2].
  - intros h g i. rewrite (proj1 (Hs h I)). apply H5.
  - intros h. rewrite (proj2 (Hs h I)). apply H6.
Qed.

Lemma backend_super w f b : backend_ok f b → backend_ok f (set_bk_super w b).
Proof. intros [H1 H2 H3 H4 H5 H6]. by split. Qed.

(** The disks at other positions have other handles. *)
Lemma other_handle f b i j d x :
  backend_ok f b → bk_children b !! i = Some d → bk_children b !! j = Some x → i ≠ j → dk_handle x ≠ dk_handle d.
Proof.
  intros Hb Hi Hj Hne E. apply Hne. apply (NoDup_lookup _ _ _ (dk_handle d) (bo_handles _ _ Hb)); rewrite list_lookup_fmap.
  - by rewrite Hi.
  - rewrite Hj. cbn. by rewrite E.
Qed.

Section child.
Context (f f' : F) (b : CYANFS_BACKEND) (i : nat) (d d' : CYANFS_DISK).
Context (Hb : backend_ok f b) (Hi : bk_children b !! i = Some d) (Hev : evolves f d f' d').

Lemma other_tracked j x : bk_children b !! j = Some x → i ≠ j → tracked f' x.
Proof using Hb Hi Hev.
  intros Hj Hne. apply (tracked_same f); [|by apply (bo_tracked _ _ Hb), (list_elem_of_lookup_2 _ j)].
  apply (ff_at _ _ _ (ev_frame _ _ _ _ Hev)). by apply (other_handle f b i j).
Qed.

Lemma other_owned h : h ≠ dk_handle d →
  (∀ g j, fw_installed f' h g = Some j → disk_interface j = true →
     ∃ k x, i ≠ k ∧ bk_children b !! k = Some x ∧ dk_handle x = h ∧ own_interface x (g, j)) ∧
  (fw_by_child f' h = true → ∃ k x, i ≠ k ∧ bk_children b !! k = Some x ∧ dk_handle x = h).
Proof using Hb Hi Hev.
  intros Hh. destruct (ff_at _ _ _ (ev_frame _ _ _ _ Hev) h Hh) as [E1 E2].
  assert (Hk : ∀ k x, bk_children b !! k = Some x → dk_handle x = h → i ≠ k) by (intros k x Hk Hx ->; rewrite Hk in Hi; by injection Hi as <-).
  split.
  - intros g j. rewrite E1. intros Hg Hj. destruct (bo_owned _ _ Hb h g j Hg Hj) as (x & (k & Hx)%list_elem_of_lookup & Hxh & Ho). exists k, x. eauto.
  - rewrite E2. intros Hc. destruct (bo_child _ _ Hb h Hc) as (x & (k & Hx)%list_elem_of_lookup & Hxh). exists k, x. eauto.
Qed.

(** The disk was changed in place. *)
Lemma put_child_ok : tracked f' d' → backend_ok f' (put_child i d' b).
Proof using Hb Hi Hev.
  intros Ht. pose proof (lookup_lt_Some _ _ _ Hi) as Hlen. destruct Hev as [Ea Ef Eh Hfr Hh'].
  assert (Hin : ∀ x, x ∈ <[i := d']> (bk_children b) → x = d' ∨ ∃ j, i ≠ j ∧ bk_children b !! j = Some x).
  { intros x (j & Hj)%list_elem_of_lookup. destruct (decide (i = j)) as [<-|Hne].
    - rewrite list_lookup_insert_eq in Hj by done. injection Hj as <-. by left.
    - rewrite list_lookup_insert_ne in Hj by done. right. eauto. }
  assert (Hother : ∀ k x, i ≠ k → bk_children b !! k = Some x → x ∈ <[i := d']> (bk_children b)).
  { intros k x Hne Hk. apply (list_elem_of_lookup_2 _ k). by rewrite list_lookup_insert_ne. }
  assert (Hself : d' ∈ <[i := d']> (bk_children b)) by (apply (list_elem_of_lookup_2 _ i); by apply list_lookup_insert_eq).
  split; cbn [put_child set_bk_children bk_children bk_disk bk_next].
  - rewrite (bo_parent _ _ Hb). symmetry. apply (ff_parent _ _ _ Hfr).
  - intros x [->|(j & Hne & Hj)]%Hin; [done|by eapply other_tracked].
  - rewrite list_fmap_insert, Eh, list_insert_id; [apply (bo_handles _ _ Hb)|]. by rewrite list_lookup_fmap, Hi.
  - split.
    + rewrite list_fmap_insert, Ea, list_insert_id; [apply (bo_addresses _ _ Hb)|]. by rewrite list_lookup_fmap, Hi.
    + intros x [->|(j & Hne & Hj)]%Hin; [rewrite Ea|]; apply (bo_addresses _ _ Hb); by eapply list_elem_of_lookup_2.
  - intros h g j Hg Hj. destruct (decide (h = dk_handle d)) as [->|Hne].
    + exists d'. split_and!; [done|done|]. apply (he_mine _ _ Hh'); [by rewrite Eh|done].
    + destruct (proj1 (other_owned h Hne) g j Hg Hj) as (k & x & Hk & Hx & Hxh & Ho). eauto.
  - intros h Hc. destruct (decide (h = dk_handle d)) as [->|Hne]; [by exists d'|].
    destruct (proj2 (other_owned h Hne) Hc) as (k & x & Hk & Hx & Hxh). eauto.
Qed.

(** The disk is off the list, and the firmware does not know it. *)
Lemma drop_child_ok : ¬ knows f' d' → dk_by_child d' = false → backend_ok f' (set_bk_children (delete i (bk_children b)) b).
Proof using Hb Hi Hev.
  intros Hk Hc. destruct Hev as [Ea Ef Eh Hfr Hh'].
  assert (Hin : ∀ x, x ∈ delete i (bk_children b) → ∃ j, i ≠ j ∧ bk_children b !! j = Some x).
  { intros x (j & Hj)%list_elem_of_lookup. destruct (decide (j < i)%nat).
    - rewrite list_lookup_delete_lt in Hj by done. exists j. split; [lia|done].
    - rewrite list_lookup_delete_ge in Hj by lia. exists (S j). split; [lia|done]. }
  assert (Hother : ∀ k x, i ≠ k → bk_children b !! k = Some x → x ∈ delete i (bk_children b)).
  { intros k x Hne Hx. apply list_elem_of_lookup. destruct (decide (k < i)%nat).
    - exists k. by rewrite list_lookup_delete_lt.
    - exists (pred k). rewrite list_lookup_delete_ge by lia. by replace (S (pred k)) with k by lia. }
  assert (Hdel : ∀ {A} (g : CYANFS_DISK → A), g <$> delete i (bk_children b) = delete i (g <$> bk_children b)) by (intros; apply list_fmap_delete).
  split; cbn [set_bk_children bk_children bk_disk bk_next].
  - rewrite (bo_parent _ _ Hb). symmetry. apply (ff_parent _ _ _ Hfr).
  - intros x (j & Hne & Hj)%Hin. by eapply other_tracked.
  - rewrite Hdel. apply (sublist_NoDup _ (dk_handle <$> bk_children b)); [apply (bo_handles _ _ Hb)|apply sublist_delete].
  - split.
    + rewrite Hdel. apply (sublist_NoDup _ (dk_address <$> bk_children b)); [apply (bo_addresses _ _ Hb)|apply sublist_delete].
    + intros x (j & Hne & Hj)%Hin. apply (bo_addresses _ _ Hb). by eapply list_elem_of_lookup_2.
  - intros h g j Hg Hj. destruct (decide (h = dk_handle d)) as [->|Hne].
    + destruct Hk. rewrite <- Eh in Hg. destruct (he_mine _ _ Hh' g j Hg Hj) as [[= -> ->]|[= -> ->]]; unfold knows, has_interface;
        rewrite orb_true_iff, !bool_decide_eq_true; auto.
    + destruct (proj1 (other_owned h Hne) g j Hg Hj) as (k & x & Hx1 & Hx2 & Hxh & Ho). eauto.
  - intros h Hc'. destruct (decide (h = dk_handle d)) as [->|Hne].
    + rewrite <- Eh, <- (he_child _ _ Hh') in Hc'. congruence.
    + destruct (proj2 (other_owned h Hne) Hc') as (k & x & Hx1 & Hx2 & Hxh). eauto.
Qed.
End child.

(** A disk that is not known to the firmware is destroyed. *)
Lemma destroy_ok f f' b i d d' st b' :
  backend_ok f b → bk_children b !! i = Some d → evolves f d f' d' → fresh_flags f' d' →
  dk_block_io d' = false → dk_device_path d' = false → dk_by_child d' = false →
  CyanfsDestroyDisk i d' b = Some (st, b') → backend_ok f' b'.
Proof.
  intros Hb Hi Hev Hfl E1 E2 E3. unfold CyanfsDestroyDisk, CyanfsDestroyDisk_ok. rewrite E1, E2, E3. cbn [orb negb].
  destruct (cyanfs_close _ _) as [s|]; [|done]. cbn [mbind option_bind]. intros [= _ <-].
  assert (Hk : ¬ knows f' d') by (rewrite (flags_knows f' d' (he_handle _ _ (ev_held _ _ _ _ Hev)) Hfl), E1, E2; done).
  pose proof (drop_child_ok f f' b i d d' Hb Hi Hev Hk E3) as Hok.
  exact (backend_super (set_w_super s (bk_super b)) f' (set_bk_children (delete i (bk_children b)) b) Hok).
Qed.

(** ** Stopping disks *)
Lemma stop_disk_ok fuel i d f b st f' b' :
  backend_ok f b → bk_children b !! i = Some d → CyanfsStopDisk fuel i d f b = Some (st, f', b') → backend_ok f' b'.
Proof.
  intros Hb Hi. unfold CyanfsStopDisk. destruct (CyanfsIoFlush fuel f (bk_super b)) as [[[st1 f1] w1]|] eqn:E1; [|done].
  cbn [mbind option_bind]. apply io_flush_same in E1. pose proof (backend_super w1 f1 b (backend_same f f1 b E1 Hb)) as Hb1. clear Hb E1.
  set (b1 := set_bk_super w1 b) in *. change (bk_children b1 !! i = Some d) in Hi. set (ds := set_dk_state CYANFS_DISK_STOPPING d).
  pose proof (bo_tracked _ _ Hb1 d (list_elem_of_lookup_2 _ _ _ Hi)) as Ht. pose proof (tr_held _ _ Ht) as Hh.
  assert (Eback : set_dk_state (dk_state d) ds = d) by (by destruct d).
  assert (Hkeep : ∀ fx dx, evolves f1 d fx dx → tracked fx dx → backend_ok fx (put_child i dx b1)) by (intros fx dx; by apply put_child_ok).
  destruct (EFI_ERROR st1); [rewrite Eback; intros [= _ <- <-]; apply Hkeep; [by apply evolves_refl|done]|].
  destruct (CyanfsCloseChildBlockIo ds f1) as [[st2 d2] f2] eqn:E2.
  destruct (close_child_ok f1 ds st2 d2 f2 (held_state _ _ _ Hh) E2) as (Hev2 & Hi2 & B2 & P2 & C2 & S2).
  assert (Hev2' : evolves f1 d f2 d2) by (destruct Hev2; by split).
  destruct (EFI_ERROR st2) eqn:Es2.
  { intros [= _ <- <-]. apply Hkeep; [by apply evolves_state|]. cbn [andb] in C2.
    unfold CyanfsCloseChildBlockIo in E2. change (dk_by_child ds) with (dk_by_child d) in *. destruct (dk_by_child d) eqn:Ec; cbn [negb] in E2;
      [|injection E2 as <- <- <-; rewrite Eback; exact Ht]. destruct (CloseByChild _ f1) as [st3 f3] eqn:E3. injection E2 as <- <- <-. rewrite Es2, Eback.
    apply (tracked_same f1); [|done]. apply fl_close_child in E3 as (_ & Hg & Hc). rewrite Es2 in Hc. split; [exact Hg|exact Hc]. }
  cbn [andb] in C2. destruct (CyanfsUninstallDiskProtocols d2 f2) as [[st3 d3] f3] eqn:E3.
  destruct (uninstall_disk_ok f2 d2 st3 d3 f3 (ev_held _ _ _ _ Hev2) E3) as (Hev3 & Hfl3 & C3). rewrite C2 in C3.
  pose proof (evolves_trans _ _ _ _ _ _ Hev2' Hev3) as Hev. destruct (dk_block_io d3) eqn:B3, (dk_device_path d3) eqn:P3; cbn [negb andb].
  4:{ destruct (CyanfsDestroyDisk i d3 b1) as [[st4 b4]|] eqn:E4; [|done]. cbn [mbind option_bind]. intros [= _ <- <-]. by eapply (destroy_ok f1 f3 b1 i d d3). }
  all: destruct (CyanfsRecoverDisk (bk_disk b1) true d3 f3) as [[st4 d4] f4] eqn:E4; intros [= _ <- <-].
  all: assert (Hp : bk_disk b1 = fw_parent f3) by (rewrite (bo_parent _ _ Hb1); symmetry; apply (ff_parent _ _ _ (ev_frame _ _ _ _ Hev))); rewrite Hp in E4.
  all: assert (Hk : knows f3 d3) by (rewrite (flags_knows f3 d3 (he_handle _ _ (ev_held _ _ _ _ Hev3)) Hfl3), B3, P3; done).
  all: destruct (recover_ok true f3 d3 st4 d4 f4 (ev_held _ _ _ _ Hev3) Hk E4) as (Hev4 & Ht4 & _).
  all: apply Hkeep; [by eapply evolves_trans|done].
Qed.

Lemma find_child h l i d : CyanfsFindChild h l = Some (i, d) → l !! i = Some d.
Proof. unfold CyanfsFindChild. intros (Hi & _)%list_find_Some. done. Qed.

Lemma stop_children_ok fuel hs bad f b st f' b' :
  backend_ok f b → stop_children fuel hs bad f b = Some (st, f', b') → backend_ok f' b'.
Proof.
  revert bad f b. induction hs as [|h hs IH]; intros bad f b Hb; cbn [stop_children]; [by intros [= _ <- <-]|].
  destruct (CyanfsFindChild h (bk_children b)) as [[i d]|] eqn:E; [|done]. apply find_child in E. cbn [mbind option_bind].
  destruct (CyanfsStopDisk fuel i d f b) as [[[st1 f1] b1]|] eqn:E1; [|done]. cbn [mbind option_bind]. apply IH. by eapply stop_disk_ok.
Qed.

(** The degraded disks of the end of the list are recovered, one by one. *)
Lemma recover_children_ok pre l f b l' f' :
  backend_ok f b → bk_children b = pre ++ l → CyanfsRecoverDegradedChildren (bk_disk b) l f = (l', f') →
  backend_ok f' (set_bk_children (pre ++ l') b).
Proof.
  revert pre f b l'. induction l as [|d l IH]; intros pre f b l' Hb El; cbn [CyanfsRecoverDegradedChildren].
  { intros [= <- <-]. rewrite <- El. by destruct b. }
  destruct (if bool_decide (dk_state d = CYANFS_DISK_DEGRADED) then _ else _) as [d1 f1] eqn:E1.
  destruct (CyanfsRecoverDegradedChildren (bk_disk b) l f1) as [l1 f2] eqn:E2. intros [= <- <-].
  assert (Hi : bk_children b !! length pre = Some d) by (rewrite El; by apply list_lookup_middle).
  assert (Hb1 : backend_ok f1 (put_child (length pre) d1 b)).
  { pose proof (bo_tracked _ _ Hb d (list_elem_of_lookup_2 _ _ _ Hi)) as Ht. case_bool_decide.
    - destruct (CyanfsRecoverDisk _ _ _ _) as [[st d0] f0] eqn:E. injection E1 as <- <-. rewrite (bo_parent _ _ Hb) in E.
      destruct (recover_ok true f (set_dk_state CYANFS_DISK_STOPPING d) st d0 f0 (held_state _ _ _ (tr_held _ _ Ht)) (tr_knows _ _ Ht) E) as (Hev & Ht0 & _).
      apply (put_child_ok f f0 b (length pre) d d0 Hb Hi); [|done]. destruct Hev. by split.
    - injection E1 as <- <-. apply (put_child_ok f f b (length pre) d d Hb Hi); [by apply evolves_refl, Ht|done]. }
  assert (El1 : bk_children (put_child (length pre) d1 b) = (pre ++ [d1]) ++ l).
  { cbn. rewrite El, <- app_assoc. by rewrite insert_app_r_alt, Nat.sub_diag by lia. }
  specialize (IH (pre ++ [d1]) f1 (put_child (length pre) d1 b) l1 Hb1 El1 E2). rewrite <- app_assoc in IH. exact IH.
Qed.

(** ** Mapping a file *)

(** A disk at the end of the list, on a handle that was not in use, that the
    firmware knows. *)
Lemma add_child_ok f f' b d d' :
  backend_ok f b → dk_address d' = bk_next b → unused f (dk_handle d') → fw_frame (λ h, h ≠ dk_handle d') f f' → tracked f' d' →
  backend_ok f' (put_child (length (bk_children b)) d' (mk_backend (bk_super b) (bk_disk b) (bk_children b ++ [d]) (bk_next b + 1))).
Proof.
  intros Hb Ea [Hu1 Hu2] Hfr Ht. assert (El : <[length (bk_children b) := d']> (bk_children b ++ [d]) = bk_children b ++ [d']).
  { by rewrite insert_app_r_alt, Nat.sub_diag by lia. }
  unfold put_child, set_bk_children. cbn [bk_super bk_disk bk_children bk_next]. rewrite El.
  assert (Hne : ∀ x, x ∈ bk_children b → dk_handle x ≠ dk_handle d').
  { intros x Hx E. pose proof (tr_knows _ _ (bo_tracked _ _ Hb x Hx)) as Hk. unfold knows, has_interface in Hk. rewrite E, !Hu1 in Hk. done. }
  assert (Hsame : ∀ h, h ≠ dk_handle d' → fw_same_at f f' h) by (apply Hfr).
  split; cbn [bk_super bk_disk bk_children bk_next].
  - rewrite (bo_parent _ _ Hb). symmetry. apply Hfr.
  - intros x [Hx| ->%list_elem_of_singleton]%elem_of_app; [|done]. apply (tracked_same f); [by apply Hsame, Hne|by apply (bo_tracked _ _ Hb)].
  - rewrite fmap_app. apply NoDup_app. split_and!; [apply (bo_handles _ _ Hb)| |apply NoDup_singleton].
    intros h (x & -> & Hx)%list_elem_of_fmap Hin%list_elem_of_singleton. by apply (Hne x Hx).
  - destruct (bo_addresses _ _ Hb) as [Hnd Hlt]. split.
    + rewrite fmap_app. apply NoDup_app. split_and!; [done| |apply NoDup_singleton].
      intros a (x & -> & Hx)%list_elem_of_fmap Hin%list_elem_of_singleton. specialize (Hlt x Hx). lia.
    + intros x [Hx| ->%list_elem_of_singleton]%elem_of_app; [specialize (Hlt x Hx)|]; lia.
  - intros h g j Hg Hj. destruct (decide (h = dk_handle d')) as [->|Hn].
    + exists d'. split_and!; [apply elem_of_app; right; by apply list_elem_of_singleton|done|]. by apply (he_mine _ _ (tr_held _ _ Ht)).
    + destruct (Hsame h Hn) as [E _]. rewrite E in Hg. destruct (bo_owned _ _ Hb h g j Hg Hj) as (x & Hx & Hxh & Ho).
      exists x. split_and!; [apply elem_of_app; by left|done|done].
  - intros h Hc. destruct (decide (h = dk_handle d')) as [->|Hn].
    + exists d'. split; [apply elem_of_app; right; by apply list_elem_of_singleton|done].
    + destruct (Hsame h Hn) as [_ E]. rewrite E in Hc. destruct (bo_child _ _ Hb h Hc) as (x & Hx & Hxh).
      exists x. split; [apply elem_of_app; by left|done].
Qed.

Section map.
Context (f : F) (b : CYANFS_BACKEND) (d : CYANFS_DISK) (Hb : backend_ok f b).
Local Notation b1 := (mk_backend (bk_super b) (bk_disk b) (bk_children b ++ [d]) (bk_next b + 1)).
Local Notation i := (length (bk_children b)).

(** The new disk, with a handle. *)
Record born (f1 : F) (d1 : CYANFS_DISK) : Prop := {
  bn_unused : unused f (dk_handle d1);
  bn_frame : fw_frame (λ h, h ≠ dk_handle d1) f f1;
  bn_held : held f1 d1;
  bn_flags : fresh_flags f1 d1;
  bn_address : dk_address d1 = bk_next b }.

Lemma born_evolves f1 d1 f2 d2 : born f1 d1 → evolves f1 d1 f2 d2 → fresh_flags f2 d2 → born f2 d2.
Proof using.
  intros [H1 H2 H3 H4 H5] [E1 E2 E3 E4 E5] Hfl. split; [by rewrite E3| |done|done|congruence]. rewrite E3. by etransitivity.
Qed.

Lemma map_commit f1 d1 :
  born f1 d1 → dk_block_io d1 && dk_device_path d1 && dk_by_child d1 = true →
  backend_ok (ConnectController (dk_handle d1) f1) (put_child i (set_dk_state CYANFS_DISK_MANAGED d1) b1).
Proof using Hb FirmwareLaws0.
  intros [H1 H2 H3 H4 H5] Hall. apply (backend_same f1); [apply fl_connect|]. apply (add_child_ok f); try done. apply tracked_state; [done|done| |by left].
  apply (flags_knows f1 d1 (he_handle _ _ H3) H4). by destruct (dk_block_io d1).
Qed.

(** The firmware knows nothing of the new disk, which is destroyed. *)
Lemma map_destroy f1 d1 st b' :
  unused f (dk_handle d1) → fw_frame (λ h, h ≠ dk_handle d1) f f1 →
  (∀ g j, fw_installed f1 (dk_handle d1) g = Some j → disk_interface j = false) → fw_by_child f1 (dk_handle d1) = false →
  CyanfsDestroyDisk_ok d1 = true → CyanfsDestroyDisk i d1 b1 = Some (st, b') → backend_ok f1 b'.
Proof using Hb.
  intros [Hu1 Hu2] Hfr Hno Hnc Hok. unfold CyanfsDestroyDisk. rewrite Hok. cbn [negb]. destruct (cyanfs_close _ _) as [s|]; [|done].
  cbn [mbind option_bind]. intros [= _ <-]. unfold set_bk_super, set_bk_children. cbn [bk_super bk_disk bk_children bk_next].
  assert (El : delete i (bk_children b ++ [d]) = bk_children b) by (rewrite delete_take_drop, take_app_length, drop_ge by (rewrite length_app; cbn; lia); apply app_nil_r).
  rewrite El. assert (Hsame : ∀ h, h ≠ dk_handle d1 → fw_same_at f f1 h) by apply Hfr.
  assert (Hne : ∀ x, x ∈ bk_children b → dk_handle x ≠ dk_handle d1).
  { intros x Hx E. pose proof (tr_knows _ _ (bo_tracked _ _ Hb x Hx)) as Hk. unfold knows, has_interface in Hk. rewrite E, !Hu1 in Hk. done. }
  destruct Hb as [P1 P2 P3 [P4 P4'] P5 P6]. split; cbn [bk_super bk_disk bk_children bk_next].
  - rewrite P1. symmetry. apply Hfr.
  - intros x Hx. apply (tracked_same f); auto.
  - done.
  - split; [done|]. intros x Hx. specialize (P4' x Hx). lia.
  - intros h g j Hg Hj. destruct (decide (h = dk_handle d1)) as [->|Hn]; [rewrite (Hno g j Hg) in Hj; done|].
    apply P5; [|done]. by rewrite <- (proj1 (Hsame h Hn)).
  - intros h Hc. destruct (decide (h = dk_handle d1)) as [->|Hn]; [congruence|]. apply P6. by rewrite <- (proj2 (Hsame h Hn)).
Qed.

Lemma born_destroy f1 d1 st b' :
  born f1 d1 → dk_block_io d1 = false → dk_device_path d1 = false → dk_by_child d1 = false →
  CyanfsDestroyDisk i d1 b1 = Some (st, b') → backend_ok f1 b'.
Proof using Hb.
  intros [H1 H2 H3 H4 H5] E1 E2 E3. apply map_destroy; [done|done| |by rewrite <- (he_child _ _ H3)|unfold CyanfsDestroyDisk_ok; by rewrite E1, E2, E3].
  intros g j Hg. destruct (disk_interface j) eqn:Ej; [|done].
  destruct (refresh_same f1 d1 (he_handle _ _ H3)) as (_ & _ & _ & _ & _ & Eb & Ep). rewrite H4, E1 in Eb. rewrite H4, E2 in Ep.
  symmetry in Eb, Ep. unfold has_interface in Eb, Ep. rewrite bool_decide_eq_false in Eb, Ep.
  by destruct (he_mine _ _ H3 g j Hg Ej) as [[= -> ->]|[= -> ->]].
Qed.

Lemma born_recover f1 d1 st d2 f2 :
  born f1 d1 → dk_block_io d1 || dk_device_path d1 = true → CyanfsRecoverDisk (bk_disk b) false d1 f1 = (st, d2, f2) →
  backend_ok f2 (put_child i d2 b1) ∧ (EFI_ERROR st = false → born f2 d2 ∧ dk_block_io d2 && dk_device_path d2 && dk_by_child d2 = true).
Proof using Hb FirmwareLaws0.
  intros Hbn Hk E. pose proof Hbn as [H1 H2 H3 H4 H5]. rewrite (bo_parent _ _ Hb), <- (ff_parent _ _ _ H2) in E.
  apply (flags_knows f1 d1 (he_handle _ _ H3) H4) in Hk.
  destruct (recover_ok false f1 d1 st d2 f2 H3 Hk E) as (Hev & Ht & Hm). pose proof (born_evolves _ _ _ _ Hbn Hev (tr_flags _ _ Ht)) as [G1 G2 G3 G4 G5].
  split; [exact (add_child_ok f f2 b d d2 Hb G5 G1 G2 Ht)|]. intros Hs. split; [done|]. pose proof (tr_state _ _ Ht) as Hst. rewrite (Hm Hs) in Hst. by destruct Hst as (-> & -> & ->).
Qed.
End map.

(** A fresh handle, or none at all. *)
Lemma install_born f b d st h f1 :
  backend_ok f b → dk_address d = bk_next b → dk_handle d = 0 → dk_by_child d = false →
  InstallProtocols 0 [block_io_of d; device_path_of d] f = (st, h, f1) →
  unused f h ∧ fw_frame (λ x, x ≠ h) f f1 ∧ fw_by_child f1 h = false ∧
  (st = EFI_SUCCESS → h ≠ 0 ∧ has_interface f1 h GUID_BLOCK_IO (IF_BLOCK_IO (dk_address d)) = true) ∧
  (h ≠ 0 → born f b f1 (CyanfsRefreshDiskProtocols f1 (set_dk_handle h d))).
Proof.
  intros Hb Ea Eh Ec (Hh & Hfr & Hc & Hi & Hs)%fl_install. cbn [Z.eqb] in Hh.
  assert (Hu : unused f h) by (destruct Hh as [->|?]; [apply fl_null|done]). split; [done|]. split; [done|]. split; [by rewrite Hc, (proj2 Hu)|].
  split; [intros E; destruct (Hs E) as [Hh0 Hin]; split; [done|]; apply bool_decide_eq_true, Hin; by left|]. intros Hne.
  assert (Hheld : held f1 (set_dk_handle h d)).
  { split; cbn [set_dk_handle dk_handle dk_by_child]; [done|by rewrite Hc, (proj2 Hu)|]. intros g j Hg Hj.
    destruct (Hi g) as [E|(k & Hk & E)]; [rewrite E, (proj1 Hu) in Hg; done|]. rewrite E in Hg. injection Hg as <-.
    apply list_elem_of_In in Hk as [<-|[<-|[]]]; [by left|by right]. }
  destruct (refresh_evolves f1 _ Hheld) as [Hev Hfl]. destruct Hev as [A1 A2 A3 A4 A5]. split; [by rewrite A3|by rewrite A3|done|done|by rewrite A1].
Qed.

Section mapping.
Context (f : F) (b : CYANFS_BACKEND) (d : CYANFS_DISK) (Hb : backend_ok f b).
Local Notation b1 := (mk_backend (bk_super b) (bk_disk b) (bk_children b ++ [d]) (bk_next b + 1)).
Local Notation i := (length (bk_children b)).

(** The ends of [CyanfsMap], from a disk with a handle. *)
Lemma recover_end dx fx st path f' b' :
  born f b fx dx → dk_block_io dx || dk_device_path dx = true →
  (let '(r, d0, f0) := CyanfsRecoverDisk (bk_disk b) false dx fx in
   if EFI_ERROR r then Some (r, None, f0, put_child i d0 b1)
   else Some (EFI_SUCCESS, Some (dk_address d0), ConnectController (dk_handle d0) f0, put_child i (set_dk_state CYANFS_DISK_MANAGED d0) b1)) =
    Some (st, path, f', b') → backend_ok f' b'.
Proof using Hb FirmwareLaws0.
  intros Hbn Hk. destruct (CyanfsRecoverDisk _ _ _ _) as [[r d0] f0] eqn:E. destruct (born_recover f b d Hb fx dx r d0 f0 Hbn Hk E) as [H1 H2].
  destruct (EFI_ERROR r) eqn:Er; [by intros [= _ _ <- <-]|]. destruct (H2 eq_refl). intros [= _ _ <- <-]. by apply (map_commit f b d Hb).
Qed.

Lemma unlink_end e dx fx st path f' b' :
  born f b fx dx → dk_by_child dx = false →
  (if negb (dk_block_io dx) && negb (dk_device_path dx) then '(r, b0) ← CyanfsDestroyDisk i dx b1; Some (if EFI_ERROR r then r else e, None, fx, b0)
   else let '(r, d0, f0) := CyanfsRecoverDisk (bk_disk b) false dx fx in
     if EFI_ERROR r then Some (r, None, f0, put_child i d0 b1)
     else Some (EFI_SUCCESS, Some (dk_address d0), ConnectController (dk_handle d0) f0, put_child i (set_dk_state CYANFS_DISK_MANAGED d0) b1)) =
    Some (st, path, f', b') → backend_ok f' b'.
Proof using Hb FirmwareLaws0.
  intros Hbn Hc. destruct (dk_block_io dx) eqn:Eb, (dk_device_path dx) eqn:Ep; cbn [negb andb]; try (apply (recover_end dx fx); [done|by rewrite Eb, Ep]).
  destruct (CyanfsDestroyDisk _ _ _) as [[r b0]|] eqn:E; [|done]. cbn [mbind option_bind]. intros [= _ _ <- <-]. by eapply (born_destroy f b d Hb fx dx).
Qed.

(** Once both interfaces are installed. *)
Lemma open_end dx fx st path f' b' :
  born f b fx dx → dk_block_io dx = true → dk_device_path dx = true →
  (let '(st2, d0, f0) := CyanfsOpenChildBlockIo (bk_disk b) dx fx in
   if EFI_ERROR st2 then
     let '(_, d1, f4) := CyanfsUninstallDiskProtocols d0 f0 in
     if negb (dk_block_io d1) && negb (dk_device_path d1) then '(r, b0) ← CyanfsDestroyDisk i d1 b1; Some (if EFI_ERROR r then r else st2, None, f4, b0)
     else let '(r, d0, f0) := CyanfsRecoverDisk (bk_disk b) false d1 f4 in
       if EFI_ERROR r then Some (r, None, f0, put_child i d0 b1)
       else Some (EFI_SUCCESS, Some (dk_address d0), ConnectController (dk_handle d0) f0, put_child i (set_dk_state CYANFS_DISK_MANAGED d0) b1)
   else Some (EFI_SUCCESS, Some (dk_address d0), ConnectController (dk_handle d0) f0, put_child i (set_dk_state CYANFS_DISK_MANAGED d0) b1)) =
    Some (st, path, f', b') → backend_ok f' b'.
Proof using Hb FirmwareLaws0.
  intros Hbn Eb Ep. pose proof (bn_frame _ _ _ _ Hbn) as Hfr. rewrite (bo_parent _ _ Hb) at 1. rewrite <- (ff_parent _ _ _ Hfr).
  destruct (CyanfsOpenChildBlockIo (fw_parent fx) dx fx) as [[st2 d2] f2] eqn:E2.
  destruct (open_child_ok fx dx st2 d2 f2 (bn_held _ _ _ _ Hbn) E2) as (Hev2 & Hi2 & B2 & P2 & C2 & _).
  destruct (EFI_ERROR st2) eqn:Es.
  - destruct (CyanfsUninstallDiskProtocols d2 f2) as [[st3 d3] f3] eqn:E3.
    destruct (uninstall_disk_ok f2 d2 st3 d3 f3 (ev_held _ _ _ _ Hev2) E3) as (Hev3 & Hfl3 & C3). rewrite C2 in C3.
    apply unlink_end; [|done]. eapply born_evolves; [exact Hbn|by eapply evolves_trans|done].
  - intros [= _ _ <- <-]. apply (map_commit f b d Hb f2 d2); [|by rewrite B2, P2, C2, Eb, Ep]. apply (born_evolves f b fx dx f2 d2 Hbn Hev2).
    destruct (refresh_same f2 d2 (he_handle _ _ (ev_held _ _ _ _ Hev2))) as (A1 & A2 & A3 & A4 & A5 & A6 & A7).
    destruct (refresh_same fx dx (he_handle _ _ (bn_held _ _ _ _ Hbn))) as (_ & _ & _ & _ & _ & G6 & G7). rewrite (bn_flags _ _ _ _ Hbn) in G6, G7.
    apply flags_same; [by apply (ev_held _ _ _ _ Hev2)|..]; rewrite (ev_handle _ _ _ _ Hev2), (ev_address _ _ _ _ Hev2).
    + rewrite B2, G6. unfold has_interface. by rewrite Hi2.
    + rewrite P2, G7. unfold has_interface. by rewrite Hi2.
Qed.
End mapping.

Lemma map_ok ID out f b st path f' b' : backend_ok f b → CyanfsMap ID out f b = Some (st, path, f', b') → backend_ok f' b'.
Proof.
  intros Hb. unfold CyanfsMap. destruct out; cbn [negb]; [|by intros [= _ _ <- <-]].
  destruct (cyanfs_statfs _) as [st0 m]. destruct (failed st0); [by intros [= _ _ <- <-]|].
  destruct (cyanfs_open ID _ _) as [st1 s]. apply (backend_super (set_w_super s (bk_super b))) in Hb. set (b0 := set_bk_super _ b) in *.
  destruct (failed st1); [by intros [= _ _ <- <-]|]. destruct (cyanfs_size ID s) as [size|]; [|done]. cbn [mbind option_bind].
  assert (Hclose : ∀ e fx, backend_ok fx b0 →
    (s0 ← cyanfs_close ID s; Some (e, None, fx, set_bk_super (set_w_super s0 (bk_super b)) b0)) = Some (st, path, f', b') → backend_ok f' b').
  { intros e fx Hx. destruct (cyanfs_close ID s); [|done]. cbn [mbind option_bind]. intros [= _ _ <- <-]. by apply backend_super. }
  destruct (size =? 0); [by apply Hclose|].
  destruct (AllocatePool f) as [ok f1] eqn:E1. apply fl_pool in E1. apply (backend_same f f1) in Hb; [|done]. clear E1.
  destruct ok; cbn [negb]; [|by apply Hclose]. clear Hclose. set (d := mk_cdisk _ 0 ID _ _ _ _ _). cbn [bk_disk].
  destruct (AppendDevicePathNode f1) as [ok f2] eqn:E2. apply fl_append in E2. apply (backend_same f1 f2) in Hb; [|done]. clear E2.
  destruct ok; cbn [negb].
  2:{ destruct (CyanfsDestroyDisk _ d _) as [[r b3]|] eqn:E; [|done]. cbn [mbind option_bind]. intros [= _ _ <- <-].
      destruct (fl_null f2) as [Hn1 Hn2]. apply (map_destroy f2 b0 d Hb f2 d r b3); try done. intros g j Hg. by rewrite Hn1 in Hg. }
  change (dk_handle d) with 0. destruct (InstallProtocols 0 _ f2) as [[st3 h] f3] eqn:E3.
  destruct (install_born f2 b0 d st3 h f3 Hb eq_refl eq_refl eq_refl E3) as (Hu & Hfr & Hc & Hs & Hbn). clear E3.
  destruct (decide (h = 0)) as [->|Hne].
  - destruct (EFI_ERROR st3) eqn:Es; [|by destruct st3; try done; destruct (Hs eq_refl) as [[] _]]. cbn [CyanfsRefreshDiskProtocols set_dk_handle dk_handle Z.eqb set_dk_installed dk_block_io dk_device_path negb andb].
    destruct (CyanfsDestroyDisk _ _ _) as [[r b3]|] eqn:E; [|done]. cbn [mbind option_bind]. intros [= _ _ <- <-].
    destruct (fl_null f3) as [Hn1 Hn2]. eapply (map_destroy f2 b0 d Hb f3 _ r b3); [..|exact E]; try done. intros g j Hg. cbn in Hg. by rewrite Hn1 in Hg.
  - specialize (Hbn Hne). set (d3 := CyanfsRefreshDiskProtocols f3 (set_dk_handle h d)) in *.
    assert (C3 : dk_by_child d3 = false) by exact (proj1 (proj2 (proj2 (proj2 (refresh_same f3 (set_dk_handle h d) Hne))))).
    destruct (EFI_ERROR st3) eqn:Es; [by apply (unlink_end f2 b0 d Hb)|].
    destruct (dk_block_io d3) eqn:Eb, (dk_device_path d3) eqn:Ep; cbn [negb orb].
    + by apply (open_end f2 b0 d Hb).
    + apply (recover_end f2 b0 d Hb); [done|by rewrite Eb].
    + apply (recover_end f2 b0 d Hb); [done|by rewrite Ep, orb_true_r].
    + destruct st3; try done. destruct (Hs eq_refl) as [_ Hin]. destruct (refresh_same f3 (set_dk_handle h d) Hne) as (_ & _ & _ & _ & _ & E & _).
      fold d3 in E. cbn [set_dk_handle dk_handle] in E. change (dk_address (set_dk_handle h d)) with (dk_address d) in E. rewrite E in Eb. congruence.
Qed.

(** ** The life of the driver *)
Lemma driver_stop_ok fuel n hs f b st b' f' : backend_ok f b → CyanfsDriverStop fuel n hs f b = Some (st, Some b', f') → backend_ok f' b'.
Proof.
  intros Hb. unfold CyanfsDriverStop. destruct (OpenCyanfs f) as [st1 f1] eqn:E1. apply fl_open_cyanfs in E1. apply (backend_same f f1) in Hb; [|done].
  destruct (EFI_ERROR st1); [by intros [= _ <- <-]|]. destruct (negb (n =? 0)).
  { unfold CyanfsStopChildren. destruct (EFI_ERROR (CyanfsValidateChildren _ _)).
    - cbn [mbind option_bind]. destruct (CloseCyanfs f1) as [st2 f2] eqn:E2. apply fl_close_cyanfs in E2. intros [= _ <- <-]. by apply (backend_same f1).
    - destruct (take _ <$> hs) as [l|]; [|done]. destruct (stop_children fuel l false f1 b) as [[[st2 f2] b2]|] eqn:E2; [|done]. cbn [mbind option_bind].
      apply stop_children_ok in E2; [|done]. destruct (CloseCyanfs f2) as [st3 f3] eqn:E3. apply fl_close_cyanfs in E3. intros [= _ <- <-]. by apply (backend_same f2). }
  destruct (negb (bool_decide (bk_children b = []))).
  { destruct (CyanfsRecoverDegradedChildren _ _ f1) as [l f2] eqn:E2. apply (recover_children_ok [] _ f1 b l f2 Hb eq_refl) in E2. cbn [app] in E2.
    destruct (CloseCyanfs f2) as [st3 f3] eqn:E3. apply fl_close_cyanfs in E3. intros [= _ <- <-]. by apply (backend_same f2). }
  destruct (CyanfsFlushMetadata fuel EFI_SUCCESS f1 (bk_super b)) as [[[st2 f2] w2]|] eqn:E2; [|done]. cbn [mbind option_bind].
  apply flush_metadata_same in E2. apply (backend_same f1 f2) in Hb; [|done]. apply (backend_super w2) in Hb.
  destruct (CloseCyanfs f2) as [st3 f3] eqn:E3. apply fl_close_cyanfs in E3. apply (backend_same f2 f3) in Hb; [|done].
  destruct (EFI_ERROR st2); [by intros [= _ <- <-]|]. destruct (EFI_ERROR st3); [by intros [= _ <- <-]|].
  destruct (UninstallCyanfs f3) as [st4 f4] eqn:E4. apply fl_uninstall_cyanfs in E4. apply (backend_same f3 f4) in Hb; [|done].
  destruct (EFI_ERROR st4); [by intros [= _ <- <-]|]. destruct (CloseByDriver f4) as [st5 f5]. by destruct (cyanfs_super_close _).
Qed.

(** The firmware knows no virtual disk. *)
Definition no_disks (f : F) : Prop := (∀ h g i, fw_installed f h g = Some i → disk_interface i = false) ∧ ∀ h, fw_by_child f h = false.

(** The driver right after its start. *)
Record started (f : F) (b : CYANFS_BACKEND) : Prop := {
  sd_none : no_disks f;
  sd_parent : bk_disk b = fw_parent f;
  sd_children : bk_children b = [] }.

Lemma driver_start_ok fuel mallocs f st b f' : no_disks f → CyanfsDriverStart fuel mallocs f = Some (st, Some b, f') → started f' b.
Proof.
  intros [Hn1 Hn2]. unfold CyanfsDriverStart. destruct (OpenByDriver f) as [st1 f1] eqn:E1. apply fl_open_driver in E1.
  assert (Hnot : ∀ fx st0, (let '(_, f0) := CloseByDriver fx in Some (st0, None, f0)) ≠ Some (st, Some b, f')) by (intros fx st0; by destruct (CloseByDriver fx)).
  destruct (EFI_ERROR st1); [done|]. destruct (AllocatePool f1) as [ok f2] eqn:E2. apply fl_pool in E2.
  destruct ok; cbn [negb]; [|intros E; by apply Hnot in E]. destruct (cyanfs_super_open _ _ _ _ _) as [w|]; [|intros E; by apply Hnot in E].
  destruct (CyanfsBackendLoop fuel f2 w) as [[f3 w3]|] eqn:E3; [|done]. apply loop_same in E3. cbn [mbind option_bind].
  destruct (negb (cyanfs_super_is_ready _)); [destruct (cyanfs_super_close _); [intros E; by apply Hnot in E|done]|].
  destruct (InstallCyanfs f3) as [st4 f4] eqn:E4. apply fl_install_cyanfs in E4.
  destruct (EFI_ERROR st4); [destruct (cyanfs_super_close _); [intros E; by apply Hnot in E|done]|]. intros [= _ <- <-].
  assert (Hs : fw_same f f4) by (do 3 (etransitivity; [eassumption|]); done). split; try done. split.
  - intros h g i. rewrite (proj1 (ff_at _ _ _ Hs h I)). apply Hn1.
  - intros h. rewrite (proj2 (ff_at _ _ _ Hs h I)). apply Hn2.
Qed.

Lemma started_ok f b : started f b → backend_ok f b.
Proof.
  intros [[Hn1 Hn2] Hp Hc]. split; rewrite ?Hc; [done|by intros d ?%elem_of_nil|constructor|split; [constructor|by intros d ?%elem_of_nil]| |].
  - intros h g i Hg. by rewrite (Hn1 h g i Hg).
  - intros h. by rewrite Hn2.
Qed.

(** One call of the driver, by the firmware or by a client of its protocols. *)
Inductive uefi_step : F * CYANFS_BACKEND → F * CYANFS_BACKEND → Prop :=
  | us_create fuel name st id f b f' w' : CyanfsCreate fuel name f (bk_super b) = Some (st, id, f', w') → uefi_step (f, b) (f', set_bk_super w' b)
  | us_fork fuel from name st id f b f' w' : CyanfsFork fuel from name f (bk_super b) = Some (st, id, f', w') → uefi_step (f, b) (f', set_bk_super w' b)
  | us_rename fuel id name st f b f' w' : CyanfsRename fuel id name f (bk_super b) = Some (st, f', w') → uefi_step (f, b) (f', set_bk_super w' b)
  | us_truncate fuel id size st f b f' w' : CyanfsTruncate fuel id size f (bk_super b) = Some (st, f', w') → uefi_step (f, b) (f', set_bk_super w' b)
  | us_delete fuel id st f b f' w' : CyanfsDelete fuel id f (bk_super b) = Some (st, f', w') → uefi_step (f, b) (f', set_bk_super w' b)
  | us_read fuel tries d lba buf st buf' f b f' w' :
      CyanfsIoRead fuel tries d lba buf f (bk_super b) = Some (st, buf', f', w') → uefi_step (f, b) (f', set_bk_super w' b)
  | us_write fuel tries d lba buf st buf' f b f' w' :
      CyanfsIoWrite fuel tries d lba buf f (bk_super b) = Some (st, buf', f', w') → uefi_step (f, b) (f', set_bk_super w' b)
  | us_flush fuel st f b f' w' : CyanfsIoFlush fuel f (bk_super b) = Some (st, f', w') → uefi_step (f, b) (f', set_bk_super w' b)
  | us_map id out st path f b f' b' : CyanfsMap id out f b = Some (st, path, f', b') → uefi_step (f, b) (f', b')
  | us_stop fuel n hs st f b f' b' : CyanfsDriverStop fuel n hs f b = Some (st, Some b', f') → uefi_step (f, b) (f', b').

(** The operations on files: a change of the core, the callback, the flush. *)
Lemma then_flush_same fuel st f w st' f' w' :
  ('(f, w) ← CyanfsBackendNewTask fuel f w; CyanfsFlushMetadata fuel st f w) = Some (st', f', w') → fw_same f f'.
Proof.
  unfold CyanfsBackendNewTask. destruct (CyanfsBackendLoop fuel f w) as [[f1 w1]|] eqn:E1; [|done]. cbn [mbind option_bind].
  apply loop_same in E1. intros E2%flush_metadata_same. by etransitivity.
Qed.

Lemma then_flush_id_same fuel st (id : option Z) f w st' id' f' w' :
  ('(f, w) ← CyanfsBackendNewTask fuel f w; '(st, f, w) ← CyanfsFlushMetadata fuel st f w; Some (st, id, f, w)) = Some (st', id', f', w') → fw_same f f'.
Proof.
  intros E. apply (then_flush_same fuel st f w st' f' w'). destruct (CyanfsBackendNewTask fuel f w) as [[f1 w1]|]; [|done]. cbn [mbind option_bind] in *.
  destruct (CyanfsFlushMetadata fuel st f1 w1) as [[[st2 f2] w2]|]; [|done]. cbn [mbind option_bind] in E. by injection E as <- _ <- <-.
Qed.

Lemma uefi_step_ok x y : uefi_step x y → backend_ok x.1 x.2 → backend_ok y.1 y.2.
Proof.
  intros [fuel name st id f b f' w' E|fuel from name st id f b f' w' E|fuel id name st f b f' w' E|fuel id size st f b f' w' E|fuel id st f b f' w' E
    |fuel tries d lba buf st buf' f b f' w' E|fuel tries d lba buf st buf' f b f' w' E|fuel st f b f' w' E|id out st path f b f' b' E|fuel n hs st f b f' b' E] Hb;
    cbn [fst snd] in *; [apply backend_super, (backend_same f); [|done]..| |].
  - unfold CyanfsCreate in E. destruct (cyanfs_create _ _) as [[st0 id0] w0]. by eapply then_flush_id_same.
  - unfold CyanfsFork in E. destruct (cyanfs_fork _ _ _) as [[st0 id0] w0]. by eapply then_flush_id_same.
  - unfold CyanfsRename in E. destruct (cyanfs_rename _ _ _) as [[st0 w0]|]; [|done]. by eapply then_flush_same.
  - unfold CyanfsTruncate in E. destruct (cyanfs_truncate _ _ _) as [[st0 w0]|]; [|done]. by eapply then_flush_same.
  - unfold CyanfsDelete in E. destruct (cyanfs_delete _ _) as [[st0 w0]|]; [|done]. by eapply then_flush_same.
  - by eapply io_same.
  - by eapply io_same.
  - by eapply io_flush_same.
  - by eapply map_ok.
  - by eapply driver_stop_ok.
Qed.
End tracked.

