(* ===== verification/UefiSim.v ===== *)
(** * UefiSim: a firmware for the UEFI driver

    A handle database that satisfies the laws of [FirmwareLaws], with calls that
    fail when a script says so: the laws can hold, and the driver runs on it. *)
From Stdlib Require Import ZArith Lia.
From S2P Require Import Prelude Disk Base Journal Types Super World JournalIO Discard Compact Flusher Api ReadWrite System ReadSpec Uefi UefiSpec.

(** The installed interfaces, the child handles the parent is open for, the
    bytes of the device, the last block, and the outcomes of the calls to come
    ([true] when there is none left). *)
Record sim := mk_sim {
  sm_list : list (Z * efi_guid * efi_interface); sm_children : list Z; sm_bytes : disk; sm_last : Z; sm_script : list bool }.

Fixpoint sim_find (h : Z) (g : efi_guid) (l : list (Z * efi_guid * efi_interface)) : option efi_interface :=
  match l with
  | [] => None
  | (h', g', i) :: l => if bool_decide (h' = h ∧ g' = g) then Some i else sim_find h g l
  end.

Definition sim_installed (s : sim) (h : Z) (g : efi_guid) : option efi_interface := if h =? 0 then None else sim_find h g (sm_list s).
Definition sim_by_child (s : sim) (h : Z) : bool := negb (h =? 0) && bool_decide (h ∈ sm_children s).

(** The next outcome. *)
Definition sim_next (s : sim) : bool * sim :=
  match sm_script s with
  | [] => (true, s)
  | ok :: l => (ok, mk_sim (sm_list s) (sm_children s) (sm_bytes s) (sm_last s) l)
  end.

Definition sim_set (l : list (Z * efi_guid * efi_interface)) (c : list Z) (s : sim) : sim := mk_sim l c (sm_bytes s) (sm_last s) (sm_script s).

(** A handle above all the others. *)
Definition sim_fresh (s : sim) : Z := 1 + foldr Z.max 0 ((λ p, p.1.1) <$> sm_list s) + foldr Z.max 0 (sm_children s).

Definition sim_install (h : Z) (l : list (efi_guid * efi_interface)) (s : sim) : efi_status * Z * sim :=
  let '(ok, s) := sim_next s in
  if negb ok || negb (bool_decide (NoDup l.*1)) then (EFI_OUT_OF_RESOURCES, h, s) else
  let h' := if h =? 0 then sim_fresh s else h in
  (EFI_SUCCESS, h', sim_set (((λ p, (h', p.1, p.2)) <$> l) ++ sm_list s) (sm_children s) s).

Definition sim_uninstall (h : Z) (l : list (efi_guid * efi_interface)) (s : sim) : efi_status * sim :=
  let '(ok, s) := sim_next s in
  if negb ok then (EFI_DEVICE_ERROR, s) else
  (EFI_SUCCESS, sim_set (filter (λ p, ¬ (p.1.1 = h ∧ p.1.2 ∈ l.*1)) (sm_list s)) (sm_children s) s).

Definition sim_parent : efi_interface := IF_FOREIGN 1.

Definition sim_open (h : Z) (s : sim) : efi_status * efi_interface * sim :=
  let '(ok, s) := sim_next s in
  if negb ok || (h =? 0) then (EFI_INVALID_PARAMETER, sim_parent, s) else (EFI_SUCCESS, sim_parent, sim_set (sm_list s) (h :: sm_children s) s).

Definition sim_close (h : Z) (s : sim) : efi_status * sim :=
  let '(ok, s) := sim_next s in
  if negb ok then (EFI_NOT_FOUND, s) else (EFI_SUCCESS, sim_set (sm_list s) (filter (λ x, x ≠ h) (sm_children s)) s).

Definition sim_quiet (s : sim) : efi_status * sim := (EFI_SUCCESS, s).
Definition sim_granted (s : sim) : bool * sim := (true, s).

#[export] Instance sim_firmware : Firmware sim := {
  fw_installed := sim_installed; fw_by_child := sim_by_child; fw_parent _ := sim_parent;
  fw_media s := mk_media SECTOR_SIZE (sm_last s) false;
  ReadBlocks lba len s := (EFI_SUCCESS, disk_read (sm_bytes s) (SECTOR_SIZE * lba) len, s);
  WriteBlocks lba data s :=
    (EFI_SUCCESS, mk_sim (sm_list s) (sm_children s) (disk_write (sm_bytes s) (SECTOR_SIZE * lba) data) (sm_last s) (sm_script s));
  FlushBlocks := sim_quiet; AllocatePool := sim_granted; AppendDevicePathNode := sim_granted;
  InstallProtocols := sim_install; UninstallProtocols := sim_uninstall; OpenByChild := sim_open; CloseByChild := sim_close;
  ConnectController _ s := s; OpenByDriver := sim_quiet; CloseByDriver := sim_quiet; InstallCyanfs := sim_quiet; UninstallCyanfs := sim_quiet;
  OpenCyanfs := sim_quiet; CloseCyanfs := sim_quiet }.

(** ** The laws *)
Lemma sim_find_app h g l1 l2 : sim_find h g (l1 ++ l2) = match sim_find h g l1 with Some i => Some i | None => sim_find h g l2 end.
Proof. induction l1 as [|[[h' g'] i] l1 IH]; [done|]. cbn. by case_bool_decide. Qed.

Lemma sim_find_new h h' g (l : list (efi_guid * efi_interface)) :
  sim_find h g ((λ p, (h', p.1, p.2)) <$> l) = if bool_decide (h' = h) then snd <$> head (filter (λ p, p.1 = g) l) else None.
Proof.
  induction l as [|[g' i] l IH]; [by case_bool_decide|]. rewrite fmap_cons, filter_cons. cbn [sim_find fst snd]. rewrite IH.
  repeat case_bool_decide; repeat case_decide; naive_solver.
Qed.

Lemma sim_find_filter h g (P : Z * efi_guid * efi_interface → Prop) `{!∀ p, Decision (P p)} l :
  (∀ i, P (h, g, i)) → sim_find h g (filter P l) = sim_find h g l.
Proof.
  intros HP. induction l as [|[[h' g'] i] l IH]; [done|]. rewrite filter_cons. case_decide as Hd; cbn; [by rewrite IH|].
  case_bool_decide as E; [|done]. destruct E as [-> ->]. by destruct Hd.
Qed.

Lemma sim_find_gone h g (P : Z * efi_guid * efi_interface → Prop) `{!∀ p, Decision (P p)} l :
  (∀ i, ¬ P (h, g, i)) → sim_find h g (filter P l) = None.
Proof.
  intros HP. induction l as [|[[h' g'] i] l IH]; [done|]. rewrite filter_cons. case_decide as Hd; cbn; [|done].
  case_bool_decide as E; [|done]. destruct E as [-> ->]. by destruct (HP i).
Qed.

Lemma foldr_max x l : x ∈ l → x ≤ foldr Z.max 0 l.
Proof. induction l as [|y l IH]; [by intros ?%elem_of_nil|]. intros [->|Hx]%elem_of_cons; cbn; [lia|]. specialize (IH Hx). lia. Qed.

Lemma foldr_max_pos l : 0 ≤ foldr Z.max 0 l.
Proof. induction l; cbn; lia. Qed.

Lemma sim_fresh_unused s : unused s (sim_fresh s) ∧ sim_fresh s ≠ 0.
Proof.
  pose proof (foldr_max_pos ((λ p, p.1.1) <$> sm_list s)). pose proof (foldr_max_pos (sm_children s)).
  split; [|unfold sim_fresh; lia]. split.
  - intros g. cbn. unfold sim_installed. destruct (_ =? 0); [done|]. destruct (sim_find _ g (sm_list s)) as [i|] eqn:E; [|done]. exfalso.
    assert (Hin : sim_fresh s ∈ (λ p, p.1.1) <$> sm_list s).
    { revert E. generalize (sm_list s), (sim_fresh s). intros l h. induction l as [|[[h' g'] j] l IH]; [done|]. cbn. case_bool_decide as Ed.
      - intros _. apply elem_of_cons. left. by destruct Ed.
      - intros E. apply elem_of_cons. right. by apply IH. }
    apply foldr_max in Hin. unfold sim_fresh in Hin. lia.
  - cbn. unfold sim_by_child. rewrite andb_false_iff, bool_decide_eq_false. right. intros Hin%foldr_max. unfold sim_fresh in Hin. lia.
Qed.

Lemma sim_next_same s ok s' : sim_next s = (ok, s') → sm_list s' = sm_list s ∧ sm_children s' = sm_children s.
Proof. unfold sim_next. by destruct (sm_script s); intros [= <- <-]. Qed.

Lemma sim_same_of s s' : sm_list s' = sm_list s → sm_children s' = sm_children s → fw_same s s'.
Proof. intros El Ec. split; [|done]. intros h _. split; cbn; unfold sim_installed, sim_by_child; by rewrite ?El, ?Ec. Qed.

(** Nothing but the interfaces at [h] changed. *)
Lemma sim_frame_list h s s' :
  sm_children s' = sm_children s → (∀ x g, x ≠ h → sim_find x g (sm_list s') = sim_find x g (sm_list s)) → fw_frame (λ x, x ≠ h) s s'.
Proof. intros Ec Hl. split; [|done]. intros x Hx. split; cbn; unfold sim_installed, sim_by_child; [intros g; by rewrite Hl|by rewrite Ec]. Qed.

(** Nothing but the use of the parent for [h] changed. *)
Lemma sim_frame_child h s s' :
  sm_list s' = sm_list s → (∀ x, x ≠ h → x ∈ sm_children s' ↔ x ∈ sm_children s) → fw_frame (λ x, x ≠ h) s s'.
Proof.
  intros El Hc. split; [|done]. intros x Hx. split; cbn; unfold sim_installed, sim_by_child; [by rewrite El|]. f_equal. apply bool_decide_ext. by apply Hc.
Qed.

Lemma sim_frame_script s1 s s' P : fw_same s s1 → fw_frame P s1 s' → fw_frame P s s'.
Proof. intros Hs Hf. etransitivity; [by apply fw_same_frame|done]. Qed.

Lemma sim_install_law h l s st h' s' :
  sim_install h l s = (st, h', s') →
  (if h =? 0 then h' = 0 ∨ unused s h' else h' = h) ∧ fw_frame (λ x, x ≠ h') s s' ∧ fw_by_child s' h' = fw_by_child s h' ∧
  (∀ g, fw_installed s' h' g = fw_installed s h' g ∨ ∃ i, (g, i) ∈ l ∧ fw_installed s' h' g = Some i) ∧
  (st = EFI_SUCCESS → h' ≠ 0 ∧ ∀ g i, (g, i) ∈ l → fw_installed s' h' g = Some i).
Proof.
  unfold sim_install. destruct (sim_next s) as [ok s1] eqn:En. apply sim_next_same in En as [El Ec]. pose proof (sim_same_of s s1 El Ec) as Hs.
  assert (Hu : unused s (sim_fresh s1) ∧ sim_fresh s1 ≠ 0) by (unfold sim_fresh; rewrite El, Ec; apply sim_fresh_unused). clear Ec.
  destruct (negb ok || negb (bool_decide (NoDup l.*1))) eqn:Eok.
  { intros [= <- <- <-]. split; [destruct (Z.eqb_spec h 0); [by left|done]|]. split; [by apply fw_same_frame|].
    destruct (ff_at _ _ _ Hs h I) as [H1 H2]. split; [done|]. split; [intros g; left; apply H1|done]. }
  apply orb_false_iff in Eok as [_ Hnd]. apply negb_false_iff, bool_decide_eq_true in Hnd. set (h0 := if h =? 0 then sim_fresh s1 else h).
  intros [= <- <- <-]. set (s2 := sim_set _ _ s1).
  assert (H0 : h0 ≠ 0) by (unfold h0; destruct (Z.eqb_spec h 0); [apply Hu|done]).
  assert (Hfind : ∀ x g, sim_find x g (sm_list s2) =
    match (if bool_decide (h0 = x) then snd <$> head (filter (λ p, p.1 = g) l) else None) with Some i => Some i | None => sim_find x g (sm_list s1) end).
  { intros x g. unfold s2. cbn [sim_set sm_list]. by rewrite sim_find_app, sim_find_new. }
  assert (Hin : ∀ g, fw_installed s2 h0 g = match head (filter (λ p, p.1 = g) l) with Some p => Some p.2 | None => fw_installed s1 h0 g end).
  { intros g. cbn. unfold sim_installed. destruct (Z.eqb_spec h0 0); [done|]. rewrite Hfind, bool_decide_true by done. by destruct (head _). }
  split_and!.
  - unfold h0. destruct (h =? 0); [right; apply Hu|done].
  - apply (sim_frame_script s1); [done|]. apply sim_frame_list; [done|]. intros x g Hx. by rewrite Hfind, bool_decide_false.
  - by rewrite <- (proj2 (ff_at _ _ _ Hs h0 I)).
  - intros g. rewrite Hin, (proj1 (ff_at _ _ _ Hs h0 I)). destruct (head (filter (λ p, p.1 = g) l)) as [[g' i]|] eqn:Eh; [right|by left].
    exists i. split; [|done]. apply head_Some_elem_of in Eh. apply list_elem_of_filter in Eh as [Eg Hl]. cbn in Eg. by subst.
  - intros _. split; [done|]. intros g i Hl. rewrite Hin. destruct (head (filter (λ p, p.1 = g) l)) as [[g' i']|] eqn:Eh.
    + apply head_Some_elem_of in Eh. apply list_elem_of_filter in Eh as [Eg Hl']. cbn in Eg. subst. cbn. f_equal.
      apply list_elem_of_lookup in Hl as [a Ha], Hl' as [c Hc]. assert (a = c) as <-.
      { apply (NoDup_lookup _ _ _ g Hnd); rewrite list_lookup_fmap; [by rewrite Ha|by rewrite Hc]. }
      rewrite Ha in Hc. by injection Hc as <-.
    + exfalso. assert (Hf : (g, i) ∈ filter (λ p, p.1 = g) l) by (by apply list_elem_of_filter). by destruct (filter _ l); [apply elem_of_nil in Hf|].
Qed.

#[export] Instance sim_laws : FirmwareLaws sim.
Proof.
  split.
  - intros s. split; done.
  - by intros ? ? ? ? ? ? [= <- <- <-].
  - intros ? ? ? ? ? [= <- <-]. by apply sim_same_of.
  - by intros ? ? ? [= <- <-].
  - by intros ? ? ? [= <- <-].
  - by intros ? ? ? [= <- <-].
  - done.
  - by intros ? ? ? [= <- <-].
  - by intros ? ? ? [= <- <-].
  - by intros ? ? ? [= <- <-].
  - by intros ? ? ? [= <- <-].
  - by intros ? ? ? [= <- <-].
  - intros h l s st h' s'. apply sim_install_law.
  - intros h l s st s'. cbn. unfold sim_uninstall. destruct (sim_next s) as [ok s1] eqn:En. apply sim_next_same in En as [El Ec].
    pose proof (sim_same_of s s1 El Ec) as Hs. destruct (ff_at _ _ _ Hs h I) as [H1 H2]. destruct ok; cbn [negb]; intros [= <- <-];
      [|split; [by apply fw_same_frame|split; [done|left; apply H1]]].
    split; [|split; [done|]].
    + apply (sim_frame_script s1); [done|]. apply sim_frame_list; [done|]. intros x g Hx. cbn [sim_set sm_list]. apply sim_find_filter. cbn. naive_solver.
    + intros g. cbn in H1 |- *. unfold sim_installed in *. cbn [sim_set sm_list]. destruct (h =? 0); [by left|]. destruct (decide (g ∈ l.*1)) as [Hg|Hg].
      * right. apply sim_find_gone. cbn. naive_solver.
      * left. rewrite <- H1. apply sim_find_filter. cbn. naive_solver.
  - intros h s st i s'. cbn. unfold sim_open. destruct (sim_next s) as [ok s1] eqn:En. apply sim_next_same in En as [El Ec].
    pose proof (sim_same_of s s1 El Ec) as Hs. destruct (ff_at _ _ _ Hs h I) as [H1 H2]. destruct (negb ok || (h =? 0)) eqn:Eok; intros [= <- <- <-];
      cbn [EFI_ERROR]; [by split; [apply fw_same_frame|]|]. apply orb_false_iff in Eok as [_ Eh]. split; [|split; [exact H1|]].
    + apply (sim_frame_script s1); [done|]. apply sim_frame_child; [done|]. intros x Hx. cbn [sim_set sm_children]. rewrite elem_of_cons. naive_solver.
    + split; [|done]. unfold sim_by_child. rewrite Eh. cbn [negb andb sim_set sm_children]. apply bool_decide_eq_true. by left.
  - intros h s st s'. cbn. unfold sim_close. destruct (sim_next s) as [ok s1] eqn:En. apply sim_next_same in En as [El Ec].
    pose proof (sim_same_of s s1 El Ec) as Hs. destruct (ff_at _ _ _ Hs h I) as [H1 H2]. destruct ok; cbn [negb]; intros [= <- <-]; cbn [EFI_ERROR];
      [|by split; [apply fw_same_frame|]]. split; [|split; [exact H1|]].
    + apply (sim_frame_script s1); [done|]. apply sim_frame_child; [done|]. intros x Hx. cbn [sim_set sm_children]. rewrite list_elem_of_filter. naive_solver.
    + unfold sim_by_child. cbn [sim_set sm_children]. rewrite andb_false_iff, bool_decide_eq_false, list_elem_of_filter. naive_solver.
Qed.

(** ** Example: a file is mapped while the firmware fails now and then

    The interfaces are installed, the parent cannot be opened for the child, the
    interfaces cannot be uninstalled either, and recovery succeeds. *)
Definition ex_uefi : CYANFS_BACKEND := mk_backend ex_ready_world sim_parent [] 1.
Definition ex_sim : sim := mk_sim [] [] (λ _, 0) 4112 [true; false; false].

Lemma ex_uefi_started : started ex_sim ex_uefi.
Proof.
  split; [|done|done]. split.
  - intros h g i. cbn. unfold sim_installed. by destruct (h =? 0).
  - intros h. cbn. unfold sim_by_child. by destruct (h =? 0).
Qed.

Definition ex_mapped : option (efi_status * option Z * sim * CYANFS_BACKEND) := CyanfsMap 2 true ex_sim ex_uefi.

Lemma ex_mapped_disks :
  (λ '(st, path, s, b), (st, path, (λ d, (dk_handle d, dk_state d, dk_by_child d)) <$> bk_children b, sm_children s)) <$> ex_mapped =
  Some (EFI_SUCCESS, Some 1, [(1, CYANFS_DISK_MANAGED, true)], [1]).
Proof. vm_compute. reflexivity. Qed.

