(* ===== verification/UefiWrite.v ===== *)
(** * UefiWrite: where the UEFI driver and the core do not fit together

    Two consequences of the driver's code: its executor knows no copies, and the
    size it takes the device to have. *)
From Stdlib Require Import ZArith Lia.
From S2P Require Import Prelude Disk Base Journal Spec Types Super SuperInv SuperOps Replay World JournalIO Discard Compact Flusher Api ReadWrite ReadSpec WriteSpec EditWrite System Uefi UefiSpec UefiSim.

(** ** Copies *)
Section copy.
Context {F : Type} `{!Firmware F}.

Lemma loop_copy fuel f w src dst len dn q :
  task_head (w_super w) = mk_task (CYANFS_TASK_COPY src dst len) dn :: q → CyanfsBackendLoop fuel f w = None.
Proof. intros Hq. destruct fuel; [done|]. cbn [CyanfsBackendLoop]. unfold backend_step, cyanfs_super_get_task. by rewrite Hq. Qed.

(** A write that gets no further than its first piece. *)
Lemma write_stuck {C} (handler : io_handler C) id f off len w ctx o :
  files_by_id (w_super w) !! id = Some f → f_open_type f = CYANFS_FILE_READWRITE → one_extent off len → off + len ≤ fm_size (f_meta f) →
  fm_size (f_meta f) ≤ 2 ^ 50 → write_extent (λ w, w) id off w = Some o →
  write_dispatch handler (wo_err o) (wo_extent o) off len ctx (wo_world o) = None → cyanfs_write handler (λ w, w) id ctx off len w = None.
Proof.
  intros Hf Hrw Hone Hsz Hmax Ho Hd. destruct Hone as (Hoff & Hlen & Hex). change (2 ^ 50) with 1125899906842624 in Hmax.
  unfold cyanfs_write. rewrite Hf. cbn [mbind option_bind]. unfold range_invalid.
  destruct (Z.eqb_spec len 0); [lia|]. rewrite bool_decide_true by done. destruct (Z.ltb_spec (fm_size (f_meta f)) off); [lia|].
  destruct (Z.ltb_spec (fm_size (f_meta f) - off) len); [lia|]. cbn [negb orb].
  destruct (Z.to_nat len) as [|fuel] eqn:En; [lia|]. cbn [write_loop]. destruct (Z.eqb_spec len 0); [lia|].
  rewrite (one_extent_space off len) by (done || (change (2 ^ 50) with 1125899906842624; lia)). rewrite Ho. cbn [mbind option_bind]. by rewrite Hd.
Qed.
End copy.

(** C39: on UEFI a write to a fork over data of its parent does not return.
    Take an open file of a ready, idle instance (as in the theorem on the
    writes of the editor), and data inside one extent where the file has no
    extent of its own but its parent shows one.  Unless the core refuses the
    write for lack of memory or space, it queues a copy of the parent's extent,
    which the driver's executor answers with [CYANFS_BUG_ON]: however many tasks
    and tries are allowed, the write has no outcome. *)
Theorem uefi_fork_write_stuck {F} `{!Firmware F} fl id f p m off data w o :
  write_ready fl id f off data w → f_extents f !! (off / CYANFS_EXTENT_SIZE) = None → f_parent f = Some p →
  visible (w_super w) p (off / CYANFS_EXTENT_SIZE) (Some m) → write_extent (λ w, w) id off w = Some o → wo_err o = ST_OK →
  ∀ fuel tries (fw : F), CyanfsIo fuel tries id true off (Z.of_nat (length data)) data fw w = None.
Proof.
  intros Hr Hh Hp Hv Ho He fuel tries fw. destruct (ready_size fl id f off data w Hr) as [Hmax Hlt]. destruct Hr as [Hwf Hst Hf Hrw [Hone Hsz] Hres (Hq & _) Hset].
  destruct tries as [|tries]; [done|]. cbn [CyanfsIo]. assert (Hlen : 0 < Z.of_nat (length data)) by apply Hone.
  destruct (Z.eqb_spec (Z.of_nat (length data)) 0) as [E0|_]; [lia|].
  assert (Hoff : 0 ≤ off < fm_size (f_meta f)) by (destruct Hone as (? & ? & _); lia).
  assert (Hcase : ∃ n, write_bound fl id (off / CYANFS_EXTENT_SIZE) n f (Some m) (w_super w) o).
  { destruct (write_extent_case fl id off f w Hwf Hst Hf Hoff Hres) as (o' & Ho' & Hc). rewrite Ho in Ho'. injection Ho' as <-.
    change (off / 1048576) with (off / CYANFS_EXTENT_SIZE) in Hc.
    destruct Hc as [err He' _ _|n e _ Hn _ _ _ _|p' n e _ Hp' Hv' Hnd Hpd _ _ _|n r Hv' Hb]; [congruence..| |].
    - assert (Hvi : visible (w_super w) id (off / CYANFS_EXTENT_SIZE) (Some n)) by (by apply (vis_inherited _ id f p')).
      destruct (Hset n e Hvi Hnd). congruence.
    - rewrite Hp in Hv'. pose proof (visible_fun _ _ _ _ _ Hv' Hv) as ->. by exists n. }
  destruct Hcase as (n & Hb). destruct (wb_extent _ _ _ _ _ _ _ _ Hb) as (_ & Hmp & Her). destruct (wb_kind _ _ _ _ _ _ _ _ Hb) as (Hpd & _ & _ & Ht).
  rewrite Hq in Ht. rewrite (write_stuck _ id f off _ w _ o Hf Hrw Hone Hsz Hmax Ho); [done|].
  unfold write_dispatch. rewrite Her, Hmp, Hpd. unfold CyanfsIoPartial. cbn [ic_f]. by rewrite (loop_copy fuel fw (wo_world o) _ _ _ _ _ Ht).
Qed.

Lemma uefi_fork_write_stuck_witness : ∃ o, write_extent (λ w, w) 2 4096 ex_world = Some o ∧
  ∀ fuel tries (fw : sim), CyanfsIo fuel tries 2 true 4096 3 [7; 8; 9] fw ex_world = None.
Proof.
  destruct ex_opened_facts as (Hst & Hv & Hr). destruct (files_by_id ex_opened !! 2) as [f|] eqn:Hf; [|discriminate Hv].
  injection Hv as Ho Hs Hp Hx.
  assert (Hready : write_ready ∅ 2 f 4096 [7; 8; 9] ex_world).
  { split; cbn [ex_world w_super].
    - exact ex_opened_wf.
    - exact Hst.
    - exact Hf.
    - exact Ho.
    - rewrite Hs. split; [split; [lia|split; [reflexivity|vm_compute; reflexivity]]|vm_compute; discriminate].
    - apply Hr.
    - split_and!; vm_compute; reflexivity.
    - intros m e _ He. exact (ex_settled m e He). }
  assert (Hvis : visible ex_opened 1 0 (Some 2)).
  { destruct (files_by_id ex_opened !! 1) as [g|] eqn:Hg.
    - assert (Hg' : (λ g, (fm_size (f_meta g), f_extents g !! 0)) <$> files_by_id ex_opened !! 1 = Some (1572864, Some 2)) by (vm_compute; reflexivity).
      rewrite Hg in Hg'. injection Hg' as Hgs Hgx. apply (vis_own ex_opened 1 g); [exact Hg|rewrite Hgs; vm_compute; reflexivity|exact Hgx].
    - exfalso. assert (Hg' : bool_decide (is_Some (files_by_id ex_opened !! 1)) = true) by (vm_compute; reflexivity). rewrite Hg in Hg'. discriminate Hg'. }
  destruct (write_extent (λ w, w) 2 4096 ex_world) as [o|] eqn:Eo; [|exfalso; pose proof write_example as H; rewrite Eo in H; discriminate H].
  exists o. split; [reflexivity|].
  apply (uefi_fork_write_stuck ∅ 2 f 1 2 4096 [7; 8; 9] ex_world o Hready Hx Hp Hvis Eo).
  pose proof write_example as H. rewrite Eo in H. by injection H as -> _ _.
Defined.

(** ** The size of the device *)

(** The UEFI driver does not see the last block of the device.  On a
    device of [blocks] blocks it opens the instance with a size of one block
    less.  When the device is exactly as long as its extents, the instance has
    one extent less than an instance that the tools open on the same device,
    and a journal entry that binds the last extent has no meaning for it. *)
Theorem uefi_misses_last_block m blocks k discard compact :
  LastBlock m = blocks - 1 → SECTOR_SIZE * blocks = CYANFS_SUPER_BLOCK_SIZE + CYANFS_EXTENT_SIZE * k → 2 ≤ k ≤ CYANFS_EXTENT_COUNT_MAX →
  backend_size m = SECTOR_SIZE * blocks - SECTOR_SIZE ∧
  sm_total_extents (s_meta (init_super (SECTOR_SIZE * blocks) discard compact)) = k ∧
  sm_total_extents (s_meta (init_super (backend_size m) discard compact)) = k - 1 ∧
  (∀ id i a, a_total a = k - 1 → spec_apply (J_BIND id (k - 1) i) a = None).
Proof.
  change SECTOR_SIZE with 512. change CYANFS_SUPER_BLOCK_SIZE with 8192. change CYANFS_EXTENT_SIZE with 1048576.
  change CYANFS_EXTENT_COUNT_MAX with 1073741824. intros Hl Hs Hk.
  assert (Hb : backend_size m = 512 * blocks - 512).
  { unfold backend_size. rewrite Hl. change SECTOR_SHIFT with 9. rewrite Z.shiftl_mul_pow2 by lia. change (2 ^ 9) with 512. rewrite u64_small; lia. }
  split; [done|]. rewrite Hb. unfold init_super, blank_super. cbn [s_meta sm_total_extents]. change CYANFS_SUPER_BLOCK_SIZE with 8192.
  rewrite (u64_small (512 * blocks - 8192)), (u64_small (512 * blocks - 512 - 8192)) by lia.
  rewrite !extent_from_eq by (change (2 ^ 52) with 4503599627370496; lia). split_and!.
  - replace (512 * blocks - 8192) with (k * 1048576) by lia. by apply Z.div_mul.
  - symmetry. apply (Z.div_unique _ _ _ (1048576 - 512)); lia.
  - intros id i a Ha. unfold spec_apply. destruct (a_files a !! id) as [f|]; [|done]. cbn [mbind option_bind].
    assert (a_free a (k - 1) = false) as ->; [|by rewrite andb_false_r]. apply bool_decide_eq_false. lia.
Qed.

Definition ex_media : efi_media := mk_media 512 (16 + 2048 * 3 - 1) false.

Lemma uefi_misses_last_block_witness :
  backend_size ex_media = 512 * (16 + 2048 * 3) - 512 ∧ sm_total_extents (s_meta (init_super (backend_size ex_media) false false)) = 3 - 1.
Proof.
  destruct (uefi_misses_last_block ex_media (16 + 2048 * 3) 3 false false) as (H1 & _ & H2 & _);
    [reflexivity|reflexivity|split; [lia|vm_compute; discriminate]|]. exact (conj H1 H2).
Defined.
