(* ===== verification/IoLoop.v ===== *)
(** * IoLoop: what a handler keeps while a file is read, written or discarded

    The three loops of [core/readwrite.c] call the handler for consecutive
    pieces of the range.  An invariant of the handler that speaks about the
    rest of the range goes through all of them, whatever the state of the
    instance and the other threads do. *)
From Stdlib Require Import ZArith Lia.
From S2P Require Import Prelude Base Journal Spec Types Super SuperInv SuperOps World JournalIO Discard Compact Flusher FlusherSpec Api ReadWrite ReadSpec.

(** ** Mapped extents *)

(** The extents in the trees of the files are mapped. *)
Definition mapped (s : cyanfs_super) : Prop := ∀ id f i n e,
  files_by_id s !! id = Some f → f_extents f !! i = Some n → nodes s !! n = Some e → ext_map e = true.

Lemma wf_mapped s fl : wf s fl → mapped s.
Proof.
  intros Hwf id f i n e Hf Hi He. assert (Ho : owns s fl (P_FILE id i) n) by (simpl; eauto).
  destruct (we_node _ _ (wf_has_ext _ _ Hwf) _ _ Ho) as (e' & He' & _ & Hmap & _). simplify_eq. exact Hmap.
Qed.

Lemma mapped_same s s' : files_by_id s' = files_by_id s → nodes s' = nodes s → mapped s → mapped s'.
Proof. unfold mapped. by intros -> ->. Qed.

(** One more extent, which is mapped. *)
Lemma mapped_extend s s' n :
  mapped s →
  (∀ j g i m, files_by_id s' !! j = Some g → f_extents g !! i = Some m →
     m = n ∨ ∃ f, files_by_id s !! j = Some f ∧ f_extents f !! i = Some m) →
  (∀ m e, nodes s' !! m = Some e → ext_map e = true ∨ m ≠ n ∧ nodes s !! m = Some e) → mapped s'.
Proof.
  intros Hm Hf Hn j g i m e Hg Hi He. destruct (Hn m e He) as [?|[Hne He']]; [done|].
  destruct (Hf j g i m Hg Hi) as [->|(f & Hf' & Hi')]; [done|]. by eapply Hm.
Qed.

Lemma upd_node_mapped n g s : (∀ e, ext_map (g e) = ext_map e) → mapped s → mapped (upd_node n g s).
Proof.
  intros Hg Hm j f i m e Hf Hi He. change (nodes (upd_node n g s)) with (alter g n (nodes s)) in He.
  apply lookup_alter_Some in He as [(<- & e0 & He0 & ->)|[_ He]]; [rewrite Hg|]; by eapply Hm.
Qed.

Lemma map_extent_mapped fid n f_id s st s' :
  mapped s → __cyanfs_file_map_extent fid n f_id s = Some (st, s') → mapped s'.
Proof.
  intros Hm. unfold __cyanfs_file_map_extent. destruct (files_by_id s !! fid) as [f|] eqn:Hf; [|done]. cbn [mbind option_bind].
  destruct (__cyanfs_file_find_extent f _) as [?|]; [by intros [= _ <-]|]. cbv zeta.
  set (s1 := upd_node n _ s). destruct (__cyanfs_extent_super_to_file fid n T_FREE s1) as [s2|] eqn:E; [|done]. cbn [mbind option_bind].
  intros [= _ <-]. unfold __cyanfs_extent_super_to_file in E. cbv zeta in E.
  destruct (rb_remove _ _) as [X|]; [|done]. cbn [mbind option_bind] in E. set (s3 := tree_set T_FREE X _) in E.
  assert (Ef : files_by_id s3 = files_by_id s) by done.
  assert (En : nodes s3 = alter (set_ext_file (bf30 f_id)) n (nodes s)) by done.
  rewrite Ef, Hf in E. cbn [mbind option_bind] in E.
  destruct (nodes s3 !! n) as [e0|]; [|done]. cbn [mbind option_bind] in E.
  destruct (bug_on _); [|done]. cbn [mbind option_bind] in E. injection E as <-.
  apply (mapped_extend s _ n Hm).
  - intros j g i m. cbn [upd_node upd_file upd_meta set_nodes set_files_by_id set_s_meta files_by_id]. rewrite Ef, alter_alter_eq.
    intros [(<- & h & Hh & ->)|[_ Hg]]%lookup_alter_Some; [|eauto]. cbn. rewrite Hf in Hh. injection Hh as <-.
    intros [[_ <-]|[_ Hi]]%lookup_insert_Some; eauto.
  - intros m e. cbn [upd_node upd_file upd_meta set_nodes set_files_by_id set_s_meta nodes]. rewrite En, alter_alter_eq.
    intros [(<- & h & Hh & ->)|[Hne Hg]]%lookup_alter_Some; [by left|by right].
Qed.

Lemma alloc_extent_mapped fid off s n s' :
  mapped s → __cyanfs_file_alloc_extent fid off s = Some (n, s') → mapped s'.
Proof.
  intros Hm. unfold __cyanfs_file_alloc_extent. destruct (_ <=? _); [by intros [= _ <-]|].
  destruct (files_by_id s !! fid) as [f|]; [|done]. cbn [mbind option_bind].
  destruct (__cyanfs_super_find_nearly_extent _ _) as [m|]; [|by intros [= _ <-]].
  destruct (__cyanfs_file_map_extent _ _ _ _) as [[st s1]|] eqn:E; [|done]. cbn [mbind option_bind]. intros [= _ <-].
  by eapply map_extent_mapped.
Qed.

Lemma alloc_extent_node fid off s n s' :
  __cyanfs_file_alloc_extent fid off s = Some (Some n, s') → ∀ e, nodes s' !! n = Some e → ext_map e = true.
Proof.
  unfold __cyanfs_file_alloc_extent. destruct (_ <=? _); [done|]. destruct (files_by_id s !! fid) as [f|]; [|done]. cbn [mbind option_bind].
  destruct (__cyanfs_super_find_nearly_extent _ _) as [m|]; [|done]. unfold __cyanfs_file_map_extent.
  destruct (files_by_id s !! fid) as [g|]; [|done]. cbn [mbind option_bind].
  destruct (__cyanfs_file_find_extent g _) as [?|]; [done|]. cbv zeta.
  destruct (__cyanfs_extent_super_to_file _ _ _ _) as [s1|]; [|done]. cbn [mbind option_bind failed]. intros [= <- <-] e. cbn [upd_node set_nodes nodes].
  by intros [(_ & e1 & _ & ->)|[? _]]%lookup_alter_Some.
Qed.

(** What the locked sections of a write leave behind: an error, or a mapped extent. *)
Definition write_settled (o : write_outcome) : Prop :=
  mapped (w_super (wo_world o)) ∧ (failed (wo_err o) = true ∨ ext_map (wo_extent o) = true).

Lemma write_stop_settled err w : failed err = true → mapped (w_super w) → write_settled (write_stop err w).
Proof. split; [done|by left]. Qed.

Lemma write_mapped_settled n j w o :
  mapped (w_super w) → (∀ e, nodes (w_super w) !! n = Some e → ext_map e = true) → write_mapped n j w = Some o → write_settled o.
Proof.
  intros Hm Hn. unfold write_mapped. cbv zeta. set (w1 := upd_super _ w).
  assert (Ef : files_by_id (w_super w1) = files_by_id (w_super w)) by (unfold w1, upd_super, writers_add; by destruct (writer_current_id _)).
  assert (En : nodes (w_super w1) = nodes (w_super w)) by (unfold w1, upd_super, writers_add; by destruct (writer_current_id _)).
  destruct (nodes (w_super w1) !! n) as [e|] eqn:He; [|done]. cbn [mbind option_bind]. intros [= <-]. split; cbn [wo_world wo_extent].
  - by eapply mapped_same.
  - right. rewrite En in He. by apply Hn.
Qed.

Lemma write_alloc_settled id off parent w o : mapped (w_super w) → write_alloc id off parent w = Some o → write_settled o.
Proof.
  intros Hm. unfold write_alloc. cbv zeta. destruct (failed _) eqn:Ef; [intros [= <-]; by apply write_stop_settled|].
  destruct (files_by_id (w_super w) !! id) as [f|] eqn:Hf; [|done]. cbn [mbind option_bind].
  destruct (__cyanfs_file_find_extent f off) as [n|] eqn:Hx; [apply write_mapped_settled; [done|]; intros e; by eapply Hm|].
  destruct (__cyanfs_file_alloc_extent id off (w_super w)) as [[[n|] s1]|] eqn:Ea; cbn [mbind option_bind]; [| |done].
  - pose proof (alloc_extent_mapped _ _ _ _ _ Hm Ea) as Hm1. pose proof (alloc_extent_node _ _ _ _ _ Ea) as Hn.
    destruct (nodes s1 !! n) as [e|] eqn:He; [|done]. cbn [mbind option_bind]. destruct parent as [b|].
    + apply write_mapped_settled; cbn [w_super set_w_super].
      * apply (mapped_same (upd_node n (set_ext_pending true) s1)); [done..|]. by apply upd_node_mapped.
      * intros e'. unfold cyanfs_super_task_add_tail. cbn. intros [(_ & e1 & He1 & ->)|[? _]]%lookup_alter_Some; [|done]. cbn. rewrite He in He1. by apply Hn.
    + apply write_mapped_settled; [done|]. cbn. rewrite He. exact Hn.
  - intros [= <-]. apply write_stop_settled; [done|]. by eapply alloc_extent_mapped.
Qed.

Lemma follow_mapped s f off n e :
  mapped s → __cyanfs_file_find_extent_follow s f off = Some (Some n) → nodes s !! n = Some e → ext_map e = true.
Proof.
  intros Hm. unfold __cyanfs_file_find_extent_follow. generalize (S (size (files_by_id s))). intros fuel. revert f.
  induction fuel as [|fuel IH]; intros f; cbn [follow_loop]; [done|]. destruct f as [fid|]; [|done].
  destruct (files_by_id s !! fid) as [g|] eqn:Hg; [|done]. cbn [mbind option_bind]. destruct (_ <? _); [|done].
  destruct (__cyanfs_file_find_extent g off) as [m|] eqn:Hx; [|apply IH]. intros [= ->] He. by eapply Hm.
Qed.

Lemma write_extent_settled (race : world → world) id off w o :
  (∀ w, mapped (w_super w) → mapped (w_super (race w))) → mapped (w_super w) → write_extent race id off w = Some o → write_settled o.
Proof.
  intros Hrace Hm0. unfold write_extent. cbv zeta. pose proof (Hrace w Hm0) as Hm. set (w1 := race w) in *. clearbody w1. clear w Hm0.
  destruct (failed _) eqn:Ef; [intros [= <-]; by apply write_stop_settled|].
  destruct (files_by_id (w_super w1) !! id) as [f|] eqn:Hf; [|done]. cbn [mbind option_bind].
  destruct (__cyanfs_file_find_extent f off) as [n|] eqn:Hx; [apply write_mapped_settled; [done|]; intros e; by eapply Hm|].
  destruct (__cyanfs_file_find_extent_follow _ _ _) as [[p|]|] eqn:Ep; cbn [mbind option_bind]; [| |done].
  - destruct (nodes (w_super w1) !! p) as [e|] eqn:He; [|done]. cbn [mbind option_bind].
    destruct (ext_error e); [intros [= <-]; by apply write_stop_settled|].
    destruct (ext_pending e); [intros [= <-]; split; [done|]; right; by eapply follow_mapped|].
    destruct (malloc_same w1) as [l1 E1]. destruct (cyanfs_malloc w1) as [ok1 w2]. cbn [snd] in E1. subst w2.
    destruct ok1; cbn [negb]; [|intros [= <-]; by apply write_stop_settled].
    destruct (malloc_same (set_w_malloc l1 w1)) as [l2 E2]. destruct (cyanfs_malloc _) as [ok2 w2]. cbn [snd] in E2. subst w2.
    destruct ok2; cbn [negb]; [|intros [= <-]; by apply write_stop_settled]. apply write_alloc_settled. by apply Hrace.
  - destruct (malloc_same w1) as [l1 E1]. destruct (cyanfs_malloc w1) as [ok1 w2]. cbn [snd] in E1. subst w2.
    destruct ok1; cbn [negb]; [|intros [= <-]; by apply write_stop_settled]. apply write_alloc_settled. by apply Hrace.
Qed.

Section loops.
Context {C : Type} (handler : io_handler C) (race : world → world).
Context (I : Z → Z → C → Prop) (E : C → Prop).

(** [I off len]: the bytes from [off] on are left; [E]: after a failure. *)
Definition keeps_range : Prop := ∀ ty b_off off len c w e c' w',
  0 ≤ off → 0 < len → off + len ≤ 2 ^ 51 → I off len c →
  handler ty b_off (cyanfs_map_extent_space off len) c w = Some (e, c', w') →
  if failed e then E c' else I (off + cyanfs_map_extent_space off len) (len - cyanfs_map_extent_space off len) c'.

(** The end of a loop: everything is done, the handler failed, or there is something left. *)
Definition range_end (off len : Z) (e : cyanfs_status) (c : C) : Prop :=
  if failed e then E c ∨ ∃ off' len', 0 < len' ∧ I off' len' c else I (off + len) 0 c.

Context (Hh : keeps_range).

Lemma piece_bounds off len :
  0 ≤ off → 0 < len → off + len ≤ 2 ^ 51 →
  let l := cyanfs_map_extent_space off len in 0 < l ≤ len ∧ u64 (off + l) = off + l ∧ u64 (len - l) = len - l.
Proof using Type.
  intros Ho Hl Hb l. destruct (space_piece off len ltac:(lia) Hl) as [Hr _]. fold l in Hr. split_and!; try lia; apply u64_small; lia.
Qed.

Lemma range_stop off len e c : 0 < len → I off len c → failed e = true → range_end off len e c.
Proof using Type. intros Hl Hi He. unfold range_end. rewrite He. right. eauto. Qed.

(** A call of the handler, and what is left to show. *)
Lemma range_call ty b_off off len c w e c' w' :
  0 ≤ off → 0 < len → off + len ≤ 2 ^ 51 → I off len c →
  let l := cyanfs_map_extent_space off len in
  handler ty b_off l c w = Some (e, c', w') →
  if failed e then range_end off len e c'
  else I (off + l) (len - l) c' ∧ ∀ e1 c1, range_end (off + l) (len - l) e1 c1 → range_end off len e1 c1.
Proof using Hh.
  intros Ho Hl Hb Hi l Hc. pose proof (Hh _ _ _ _ _ _ _ _ _ Ho Hl Hb Hi Hc) as H. fold l in H. unfold range_end.
  destruct (failed e) eqn:Ef; [by left|]. split; [done|]. intros e1 c1. by replace (off + l + (len - l)) with (off + len) by lia.
Qed.

Lemma read_loop_range fuel id off len c w e c' w' :
  0 ≤ off → 0 ≤ len → off + len ≤ 2 ^ 51 → I off len c →
  read_loop handler race fuel id off len c w = Some (e, c', w') → range_end off len e c'.
Proof using Hh.
  revert off len c w. induction fuel as [|fuel IH]; intros off len c w Ho Hl Hb Hi; cbn [read_loop];
    (destruct (Z.eqb_spec len 0) as [->|Hne]; [intros [= <- <- <-]; unfold range_end; by rewrite Z.add_0_r|]); [done|].
  destruct (piece_bounds off len Ho ltac:(lia) Hb) as (Hr & E1 & E2). set (l := cyanfs_map_extent_space off len) in *. cbv zeta.
  set (w1 := race w). destruct (failed (__cyanfs_super_ensure_status (w_super w1))) eqn:Ef.
  { intros [= <- <- _]. apply range_stop; [lia|done|done]. }
  destruct (__cyanfs_file_find_extent_follow _ _ _) as [n|]; [|done]. cbn [mbind option_bind].
  destruct (extent_of _ n) as [x|]; [|done]. cbn [mbind option_bind].
  destruct (read_dispatch handler x off l c w1) as [[[e1 c1] w2]|] eqn:Ed; [|done]. cbn [mbind option_bind].
  assert (Hd : if failed e1 then range_end off len e1 c1
               else I (off + l) (len - l) c1 ∧ ∀ e2 c2, range_end (off + l) (len - l) e2 c2 → range_end off len e2 c2).
  { unfold read_dispatch in Ed. destruct (ext_error x); [injection Ed as <- <- _; apply range_stop; [lia|done|done]|].
    destruct (ext_map x); cbn [negb] in Ed; [destruct (ext_pending x)|];
      exact (range_call _ _ off len c w1 e1 c1 w2 Ho ltac:(lia) Hb Hi Ed). }
  destruct (failed e1) eqn:Ef1; [by intros [= <- <- _]|]. destruct Hd as [Hi1 Hgo]. rewrite E1, E2. intros Hrun.
  apply Hgo. eapply IH; [| | | |exact Hrun]; [lia|lia|lia|done].
Qed.

Lemma discard_loop_range fuel id off len nj c w e nj' c' w' :
  0 ≤ off → 0 ≤ len → off + len ≤ 2 ^ 51 → I off len c →
  discard_loop handler race fuel id off len nj c w = Some (e, nj', c', w') → range_end off len e c'.
Proof using Hh.
  revert off len nj c w. induction fuel as [|fuel IH]; intros off len nj c w Ho Hl Hb Hi; cbn [discard_loop];
    (destruct (Z.eqb_spec len 0) as [->|Hne]; [intros [= <- _ <- <-]; unfold range_end; by rewrite Z.add_0_r|]); [done|].
  destruct (piece_bounds off len Ho ltac:(lia) Hb) as (Hr & E1 & E2). set (l := cyanfs_map_extent_space off len) in *. cbv zeta.
  destruct (discard_extent race id off l w) as [[[[e0 ty] j] w1]|]; [|done]. cbn [mbind option_bind].
  destruct (failed e0) eqn:Ef0; [intros [= <- _ <- _]; apply range_stop; [lia|done|done]|].
  destruct (handler ty 0 l c w1) as [[[e1 c1] w2]|] eqn:Ed; [|done]. cbn [mbind option_bind].
  pose proof (range_call _ _ off len c w1 e1 c1 w2 Ho ltac:(lia) Hb Hi Ed) as Hd. fold l in Hd.
  destruct (failed e1) eqn:Ef1; [by intros [= <- _ <- _]|]. destruct Hd as [Hi1 Hgo]. rewrite E1, E2. intros Hrun.
  apply Hgo. eapply IH; [| | | |exact Hrun]; [lia|lia|lia|done].
Qed.

(** The operations: the range is inside the file, which is not larger than files get. *)
Definition sizes_ok (s : cyanfs_super) : Prop := ∀ id f, files_by_id s !! id = Some f → fm_size (f_meta f) ≤ 2 ^ 51.

Lemma range_valid size off len : size ≤ 2 ^ 51 → range_invalid size off len = false → off + len ≤ 2 ^ 51.
Proof using Type. unfold range_invalid. intros Hs. repeat case_bool; cbn [orb]; try done; lia. Qed.

Lemma cyanfs_read_range id c off len w e c' w' :
  0 ≤ off → 0 < len → sizes_ok (w_super w) → I off len c → cyanfs_read handler race id c off len w = Some (e, c', w') →
  range_end off len e c'.
Proof using Hh.
  intros Ho Hl Hs Hi. unfold cyanfs_read. destruct (files_by_id (w_super w) !! id) as [f|] eqn:Hf; [|done]. cbn [mbind option_bind].
  destruct (range_invalid _ off len) eqn:Er; [intros [= <- <- _]; by apply range_stop|].
  apply read_loop_range; [done|lia|by eapply range_valid, Er; eapply Hs|done].
Qed.

Lemma cyanfs_discard_range id c off len w e c' w' :
  0 ≤ off → 0 < len → sizes_ok (w_super w) → I off len c → cyanfs_discard handler race id c off len w = Some (e, c', w') →
  range_end off len e c'.
Proof using Hh.
  intros Ho Hl Hs Hi. unfold cyanfs_discard. destruct (files_by_id (w_super w) !! id) as [f|] eqn:Hf; [|done]. cbn [mbind option_bind].
  destruct (_ || _ || _) eqn:Er; [intros [= <- <- _]; by apply range_stop|]. apply orb_false_elim in Er as [_ Er].
  destruct (discard_loop _ _ _ _ _ _ _ _ _) as [[[[e1 nj] c1] w1]|] eqn:El; [|done]. cbn [mbind option_bind]. intros [= <- <- _].
  eapply discard_loop_range; [done| | |exact Hi|exact El]; [lia|by eapply range_valid, Er; eapply Hs].
Qed.

(** Writing relies on the extents of the files being mapped. *)
Context (Hrace : ∀ w, mapped (w_super w) → mapped (w_super (race w))).
Context (Hhw : ∀ ty b_off l c w e c' w', mapped (w_super w) → handler ty b_off l c w = Some (e, c', w') → mapped (w_super w')).

Lemma write_loop_range fuel id off len nj c w e nj' c' w' :
  0 ≤ off → 0 ≤ len → off + len ≤ 2 ^ 51 → I off len c → mapped (w_super w) →
  write_loop handler race fuel id off len nj c w = Some (e, nj', c', w') → range_end off len e c'.
Proof using Hh Hrace Hhw.
  revert off len nj c w. induction fuel as [|fuel IH]; intros off len nj c w Ho Hl Hb Hi Hm; cbn [write_loop];
    (destruct (Z.eqb_spec len 0) as [->|Hne]; [intros [= <- _ <- <-]; unfold range_end; by rewrite Z.add_0_r|]); [done|].
  destruct (piece_bounds off len Ho ltac:(lia) Hb) as (Hr & E1 & E2). set (l := cyanfs_map_extent_space off len) in *. cbv zeta.
  destruct (write_extent race id off w) as [o|] eqn:Eo; [|done]. cbn [mbind option_bind].
  destruct (write_extent_settled race id off w o Hrace Hm Eo) as [Hm1 Ho1].
  destruct (write_dispatch handler (wo_err o) (wo_extent o) off l c (wo_world o)) as [[[e1 c1] w2]|] eqn:Ed; [|done].
  cbn [mbind option_bind].
  assert (Hd : mapped (w_super w2) ∧
               if failed e1 then range_end off len e1 c1
               else I (off + l) (len - l) c1 ∧ ∀ e2 c2, range_end (off + l) (len - l) e2 c2 → range_end off len e2 c2).
  { unfold write_dispatch in Ed. destruct (ext_error (wo_extent o)).
    { injection Ed as <- <- <-. split; [done|]. by apply range_stop; [lia|done|done]. }
    destruct Ho1 as [Ho1|Ho1].
    - destruct (ext_map (wo_extent o)).
      + destruct (ext_pending (wo_extent o)); (split; [by eapply Hhw|]; exact (range_call _ _ off len c _ e1 c1 w2 Ho ltac:(lia) Hb Hi Ed)).
      + injection Ed as <- <- <-. split; [done|]. rewrite Ho1. by apply range_stop; [lia|done|done].
    - rewrite Ho1 in Ed. destruct (ext_pending (wo_extent o));
        (split; [by eapply Hhw|]; exact (range_call _ _ off len c _ e1 c1 w2 Ho ltac:(lia) Hb Hi Ed)). }
  set (w3 := match wo_writer o with Some _ => _ | None => _ end).
  assert (Hm3 : mapped (w_super w3)).
  { unfold w3. destruct (wo_writer o) as [cur|]; [|apply Hd]. apply (mapped_same (w_super (race w2)));
      [by destruct cur|by destruct cur|by apply Hrace, Hd]. }
  destruct Hd as [_ Hd]. destruct (failed e1) eqn:Ef1; [by intros [= <- _ <- _]|]. destruct Hd as [Hi1 Hgo]. rewrite E1, E2.
  intros Hrun. apply Hgo. eapply IH; [| | | | |exact Hrun]; [lia|lia|lia|done|done].
Qed.

Lemma cyanfs_write_range id c off len w e c' w' :
  0 ≤ off → 0 < len → sizes_ok (w_super w) → mapped (w_super w) → I off len c →
  cyanfs_write handler race id c off len w = Some (e, c', w') → range_end off len e c'.
Proof using Hh Hrace Hhw.
  intros Ho Hl Hs Hm Hi. unfold cyanfs_write. destruct (files_by_id (w_super w) !! id) as [f|] eqn:Hf; [|done]. cbn [mbind option_bind].
  destruct (_ || _ || _) eqn:Er; [intros [= <- <- _]; by apply range_stop|]. apply orb_false_elim in Er as [_ Er].
  destruct (write_loop _ _ _ _ _ _ _ _ _) as [[[[e1 nj] c1] w1]|] eqn:El; [|done]. cbn [mbind option_bind]. intros [= <- <- _].
  eapply write_loop_range; [done| | |exact Hi|exact Hm|exact El]; [lia|by eapply range_valid, Er; eapply Hs].
Qed.
End loops.
