(* ===== verification/Bio.v ===== *)
(** * Bio: the block requests of the Linux module

    The first part of [linux/main.c]: a request of the block layer ([struct
    bio]) for a file is cut into one piece per extent, and each piece is
    completed at once, sent on to the device, or queued behind the tasks of the
    core.  The functions of the block layer the module calls ([bio_split],
    [bio_chain], [bio_endio], ...) are a class; its laws say what the kernel
    documents: a request counts the completions it waits for, and tells the one
    it is chained to when there are none left. *)
From Stdlib Require Import ZArith Lia.
From S2P Require Import Prelude Count Base Journal Types Super World JournalIO Discard Compact Flusher Api ReadWrite Errno.

(** ** Requests *)
Definition SECTOR_SHIFT : Z := 9.
Definition SECTOR_SIZE : Z := 512.

Inductive req_op := REQ_OP_READ | REQ_OP_WRITE | REQ_OP_DISCARD | REQ_OP_FLUSH | REQ_OP_OTHER (op : Z).

#[export] Instance req_op_eq_dec : EqDecision req_op.
Proof. solve_decision. Defined.

Definition BLK_STS_OK : Z := 0.
Definition BLK_STS_NOTSUPP : Z := 1.
Definition BLK_STS_IOERR : Z := 10.

(** [bi_pos]: where the request is in the memory of the one it was cut from
    ([bi_root]).  [bi_next] holds the file while the module has the request. *)
Record bio := mk_bio {
  bi_op : req_op; bi_preflush : bool; bi_sector : Z; bi_size : Z; bi_pos : Z; bi_status : Z;
  bi_next : option Z; bi_parent : option Z; bi_remaining : Z; bi_root : Z }.

Definition set_bi_sector (x : Z) (b : bio) : bio :=
  mk_bio (bi_op b) (bi_preflush b) x (bi_size b) (bi_pos b) (bi_status b) (bi_next b) (bi_parent b) (bi_remaining b) (bi_root b).
Definition set_bi_status (x : Z) (b : bio) : bio :=
  mk_bio (bi_op b) (bi_preflush b) (bi_sector b) (bi_size b) (bi_pos b) x (bi_next b) (bi_parent b) (bi_remaining b) (bi_root b).
Definition set_bi_next (x : option Z) (b : bio) : bio :=
  mk_bio (bi_op b) (bi_preflush b) (bi_sector b) (bi_size b) (bi_pos b) (bi_status b) x (bi_parent b) (bi_remaining b) (bi_root b).
Definition set_bi_parent (x : option Z) (b : bio) : bio :=
  mk_bio (bi_op b) (bi_preflush b) (bi_sector b) (bi_size b) (bi_pos b) (bi_status b) (bi_next b) x (bi_remaining b) (bi_root b).
Definition set_bi_remaining (x : Z) (b : bio) : bio :=
  mk_bio (bi_op b) (bi_preflush b) (bi_sector b) (bi_size b) (bi_pos b) (bi_status b) (bi_next b) (bi_parent b) x (bi_root b).

(** The requests by their addresses; the memory of the requests that came from
    outside; who has to complete a request: the device it was sent to, or the
    queue of the core it waits in.  Three histories: the pieces whose queueing
    failed, the requests from outside that were completed, with their status,
    and those for which an error was reported. *)
Record bio_state := mk_bios {
  bs_bios : gmap Z bio; bs_mem : gmap Z (list Z); bs_submitted : list Z; bs_requeued : list Z;
  bs_dropped : list Z; bs_done : list (Z * Z); bs_errors : list Z; bs_next : Z }.

Definition set_bs_bios (x : gmap Z bio) (s : bio_state) : bio_state :=
  mk_bios x (bs_mem s) (bs_submitted s) (bs_requeued s) (bs_dropped s) (bs_done s) (bs_errors s) (bs_next s).
Definition set_bs_mem (x : gmap Z (list Z)) (s : bio_state) : bio_state :=
  mk_bios (bs_bios s) x (bs_submitted s) (bs_requeued s) (bs_dropped s) (bs_done s) (bs_errors s) (bs_next s).
Definition set_bs_submitted (x : list Z) (s : bio_state) : bio_state :=
  mk_bios (bs_bios s) (bs_mem s) x (bs_requeued s) (bs_dropped s) (bs_done s) (bs_errors s) (bs_next s).
Definition set_bs_requeued (x : list Z) (s : bio_state) : bio_state :=
  mk_bios (bs_bios s) (bs_mem s) (bs_submitted s) x (bs_dropped s) (bs_done s) (bs_errors s) (bs_next s).
Definition set_bs_dropped (x : list Z) (s : bio_state) : bio_state :=
  mk_bios (bs_bios s) (bs_mem s) (bs_submitted s) (bs_requeued s) x (bs_done s) (bs_errors s) (bs_next s).
Definition set_bs_done (x : list (Z * Z)) (s : bio_state) : bio_state :=
  mk_bios (bs_bios s) (bs_mem s) (bs_submitted s) (bs_requeued s) (bs_dropped s) x (bs_errors s) (bs_next s).
Definition set_bs_errors (x : list Z) (s : bio_state) : bio_state :=
  mk_bios (bs_bios s) (bs_mem s) (bs_submitted s) (bs_requeued s) (bs_dropped s) (bs_done s) x (bs_next s).

Definition no_bios : bio_state := mk_bios ∅ ∅ [] [] [] [] [] 1.

Definition put_bio (a : Z) (b : bio) (s : bio_state) : bio_state := set_bs_bios (<[a := b]> (bs_bios s)) s.

(** ** What the kernel documents of the block layer *)

(** The completion of a request: [BUG] when it was already completed; when
    nothing is left to wait for, the one it is chained to is told, or whoever
    made the request.  Each round but the last frees a request, so [fuel] can be
    one more than their number. *)
Fixpoint endio_effect_from (fuel : nat) (a : Z) (s : bio_state) : option bio_state :=
  match fuel with
  | O => None
  | S fuel =>
      b ← bs_bios s !! a;
      bug_on (bi_remaining b <=? 0);;
      if negb (bi_remaining b - 1 =? 0) then Some (put_bio a (set_bi_remaining (bi_remaining b - 1) b) s) else
      let freed := set_bs_bios (delete a (bs_bios s)) s in
      match bi_parent b with
      | None => Some (set_bs_done (bs_done s ++ [(a, bi_status b)]) freed)
      | Some p =>
          parent ← bs_bios freed !! p;
          let parent := if negb (bi_status b =? 0) && (bi_status parent =? 0) then set_bi_status (bi_status b) parent else parent in
          endio_effect_from fuel p (put_bio p parent freed)
      end
  end.

Definition endio_effect (a : Z) (s : bio_state) : option bio_state := endio_effect_from (S (size (bs_bios s))) a s.

(** [bi_status] is set; an error goes into the history. *)
Definition bio_report (a status : Z) (s : bio_state) : option bio_state :=
  b ← bs_bios s !! a;
  let s := put_bio a (set_bi_status status b) s in
  Some (if status =? 0 then s else set_bs_errors (bi_root b :: bs_errors s) s).

(** A new request for the first sectors; the old one keeps the rest.  The
    memory of the new one comes from a reserve, it is always there. *)
Definition split_effect (a sectors : Z) (s : bio_state) : option (Z * bio_state) :=
  b ← bs_bios s !! a;
  bug_on ((sectors <=? 0) || (Z.shiftr (bi_size b) SECTOR_SHIFT <=? sectors));;
  let l := Z.shiftl sectors SECTOR_SHIFT in
  let n := bs_next s in
  let new_bio := mk_bio (bi_op b) (bi_preflush b) (bi_sector b) l (bi_pos b) 0 None None 1 (bi_root b) in
  let rest := mk_bio (bi_op b) (bi_preflush b) (u64 (bi_sector b + sectors)) (bi_size b - l) (bi_pos b + l) (bi_status b)
                (bi_next b) (bi_parent b) (bi_remaining b) (bi_root b) in
  Some (n, mk_bios (<[n := new_bio]> (<[a := rest]> (bs_bios s))) (bs_mem s) (bs_submitted s) (bs_requeued s)
             (bs_dropped s) (bs_done s) (bs_errors s) (n + 1)).

(** [parent] also waits for [n]. *)
Definition chain_effect (n parent : Z) (s : bio_state) : option bio_state :=
  b ← bs_bios s !! n;
  p ← bs_bios s !! parent;
  Some (put_bio parent (set_bi_remaining (bi_remaining p + 1) p) (put_bio n (set_bi_parent (Some parent) b) s)).

(** [memcpy] to an offset. *)
Definition mem_put (pos : Z) (data mem : list Z) : list Z :=
  take (Z.to_nat pos) mem ++ data ++ drop (Z.to_nat pos + length data) mem.

Definition bio_fill (b : bio) (data : list Z) (s : bio_state) : bio_state :=
  set_bs_mem (alter (mem_put (bi_pos b) data) (bi_root b) (bs_mem s)) s.

Definition zero_fill_effect (a : Z) (s : bio_state) : option bio_state :=
  b ← bs_bios s !! a; Some (bio_fill b (replicate (Z.to_nat (bi_size b)) 0) s).

Definition submit_effect (a : Z) (s : bio_state) : bio_state := set_bs_submitted (bs_submitted s ++ [a]) s.

(** A request from outside the module. *)
Definition bio_alloc (op : req_op) (preflush : bool) (sector : Z) (mem : list Z) (s : bio_state) : Z * bio_state :=
  let a := bs_next s in
  (a, mk_bios (<[a := mk_bio op preflush sector (Z.of_nat (length mem)) 0 0 None None 1 a]> (bs_bios s)) (<[a := mem]> (bs_mem s))
        (bs_submitted s) (bs_requeued s) (bs_dropped s) (bs_done s) (bs_errors s) (a + 1)).

(** ** The block layer *)

(** The functions of the kernel the module calls. *)
Class BlockLayer := {
  bio_endio : Z → bio_state → option bio_state;
  bio_split : Z → Z → bio_state → option (Z * bio_state);
  bio_chain : Z → Z → bio_state → option bio_state;
  zero_fill_bio : Z → bio_state → option bio_state;
  submit_bio : Z → bio_state → bio_state }.

(** They do what is documented. *)
Class BlockLayerLaws (BL : BlockLayer) : Prop := {
  bl_endio a s : bio_endio a s = endio_effect a s;
  bl_split a sectors s : bio_split a sectors s = split_effect a sectors s;
  bl_chain n parent s : bio_chain n parent s = chain_effect n parent s;
  bl_zero_fill a s : zero_fill_bio a s = zero_fill_effect a s;
  bl_submit a s : submit_bio a s = submit_effect a s }.

(** ** The module *)
Section module.
Context {BL : BlockLayer} (errno_to_blk_status : Z → Z) (race : world → world).

(** The device is done with a request: with an error, or with the [data] it read. *)
Definition device_done (a status : Z) (data : list Z) (s : bio_state) : option bio_state :=
  b ← bs_bios s !! a;
  let s := set_bs_submitted (list_take_out a (bs_submitted s)) s in
  if status =? 0 then bio_endio a (if bool_decide (bi_op b = REQ_OP_READ) then bio_fill b data s else s)
  else s ← bio_report a status s; bio_endio a s.

Definition cyanfs_bio_endio_status (a status : Z) (s : bio_state) : option bio_state :=
  s ← bio_report a status s; bio_endio a s.

Definition cyanfs_bio_endio_error (a : Z) (err : cyanfs_status) (s : bio_state) : option bio_state :=
  cyanfs_bio_endio_status a (errno_to_blk_status (errno_of err)) s.

(** The request for the next [len] bytes: cut off [a] when there are more, with
    the file and chained to [a]; and whether it was cut. *)
Definition split_piece (a len : Z) (s : bio_state) : option (Z * bool * bio_state) :=
  b ← bs_bios s !! a;
  if len <? bi_size b then
    '(n, s) ← bio_split a (Z.shiftr len SECTOR_SHIFT) s;
    s ← bio_chain n a s;
    new_bio ← bs_bios s !! n;
    Some (n, true, put_bio n (set_bi_next (bi_next b) new_bio) s)
  else Some (a, false, s).

(** What the core wants for the piece [x] of [file]. *)
Definition dispatch_piece (file : option Z) (x : Z) (cut : bool) : io_handler bio_state := λ type b_off _ s w,
  b ← bs_bios s !! x;
  match type with
  | CYANFS_MAP_NOP =>
      s ← (if bool_decide (bi_op b = REQ_OP_READ) then zero_fill_bio x s else Some s);
      s ← bio_endio x s;
      Some (ST_OK, s, w)
  | CYANFS_MAP_SUBMIT =>
      Some (ST_OK, submit_bio x (put_bio x (set_bi_next None (set_bi_sector (Z.shiftr b_off SECTOR_SHIFT) b)) s), w)
  | CYANFS_MAP_REQUEUE =>
      file ← file;
      let '(err, w) := cyanfs_requeue file x w in
      Some (err, if failed err then if cut then set_bs_dropped (x :: bs_dropped s) s else s
                 else set_bs_requeued (bs_requeued s ++ [x]) s, w)
  end.

(** The handler of the core for the request at [a]. *)
Definition cyanfs_file_split_bio (a : Z) : io_handler bio_state := λ type b_off len s w,
  b ← bs_bios s !! a;
  '(x, cut, s) ← split_piece a len s;
  dispatch_piece (bi_next b) x cut type b_off len s w.

(** The file of a request is let go. *)
Definition bio_release (a : Z) (s : bio_state) : option bio_state := b ← bs_bios s !! a; Some (put_bio a (set_bi_next None b) s).

Definition cyanfs_file_map_bio (a : Z) (s : bio_state) (w : world) : option (bio_state * world) :=
  b ← bs_bios s !! a;
  file ← bi_next b;
  if bool_decide (bi_op b = REQ_OP_FLUSH) || (bi_size b =? 0) then
    let err := cyanfs_file_status (w_super w) in
    s ← bio_release a s;
    s ← (if failed err then cyanfs_bio_endio_error a err s else Some (submit_bio a s));
    Some (s, w)
  else
    let fn := match bi_op b with
              | REQ_OP_READ => cyanfs_read (cyanfs_file_split_bio a) race
              | REQ_OP_WRITE => cyanfs_write (cyanfs_file_split_bio a) race
              | _ => cyanfs_discard (cyanfs_file_split_bio a) race
              end in
    '(err, s, w) ← fn file s (u64 (Z.shiftl (bi_sector b) SECTOR_SHIFT)) (bi_size b) w;
    s ← (if failed err then cyanfs_bio_endio_error a err s else Some s);
    Some (s, w).

(** The callback of a queued request, [__cyanfs_file_map_bio]. *)
Definition __cyanfs_file_map_bio (a : Z) (s : bio_state) (w : world) : option (bio_state * world) :=
  cyanfs_file_map_bio a (set_bs_requeued (list_take_out a (bs_requeued s)) s) w.

(** The operations the module knows. *)
Definition op_known (op : req_op) : bool := match op with REQ_OP_OTHER _ => false | _ => true end.

Definition cyanfs_file_submit_bio (file a : Z) (s : bio_state) (w : world) : option (bio_state * world) :=
  b ← bs_bios s !! a;
  if negb (op_known (bi_op b)) then s ← cyanfs_bio_endio_status a BLK_STS_NOTSUPP s; Some (s, w) else
  if negb (bi_size b mod SECTOR_SIZE =? 0) then s ← cyanfs_bio_endio_status a BLK_STS_IOERR s; Some (s, w) else
  bug_on (bool_decide (is_Some (bi_next b)));;
  let s := put_bio a (set_bi_next (Some file) b) s in
  if bool_decide (bi_op b = REQ_OP_FLUSH) || bi_preflush b then
    let '(err, map, w) := cyanfs_flush w in
    let fail (err : cyanfs_status) (w : world) := s ← bio_release a s; s ← cyanfs_bio_endio_error a err s; Some (s, w) in
    if failed err then fail err w else
    match map with
    | Some CYANFS_MAP_REQUEUE =>
        let '(err, w) := cyanfs_requeue file a w in
        if failed err then fail err w else Some (set_bs_requeued (bs_requeued s ++ [a]) s, w)
    | Some CYANFS_MAP_NOP =>
        if bool_decide (bi_op b = REQ_OP_FLUSH) || (bi_size b =? 0) then
          let err := cyanfs_file_status (w_super w) in
          s ← bio_release a s;
          s ← (if failed err then cyanfs_bio_endio_error a err s else bio_endio a s);
          Some (s, w)
        else cyanfs_file_map_bio a s w
    | _ => cyanfs_file_map_bio a s w
    end
  else cyanfs_file_map_bio a s w.
End module.
