(* ===== verification/BioSpec.v ===== *)
(** * BioSpec: a request is completed exactly once

    However a request is cut, and in whatever order its pieces are completed
    by the device or run from the queue, whoever made it is told once, when
    nothing is left, and with an error exactly if there was one. *)
From Stdlib Require Import ZArith Lia.
From S2P Require Import Prelude Count Base Journal Spec Types Super SuperInv SuperOps World JournalIO Discard Compact Flusher FlusherSpec Api ReadWrite ReadSpec WriteSpec IoLoop Errno Bio.

(** ** The invariant *)

(** How many requests are chained to [a]. *)
Definition children (m : gmap Z bio) (a : Z) : Z := map_count (λ b, bi_parent b = Some a) m.

(** [L]: the obligations to complete a request.  A request waits for its
    obligations and for the ones chained to it; an error of a piece is in the
    status of the piece or of one it is chained to. *)
Record bio_inv (L : list Z) (s : bio_state) : Prop := {
  bv_held : ∀ a, a ∈ L → is_Some (bs_bios s !! a);
  bv_count : ∀ a b, bs_bios s !! a = Some b → bi_remaining b = occurs a L + children (bs_bios s) a;
  bv_wait : ∀ a b, bs_bios s !! a = Some b → 0 < bi_remaining b;
  bv_up : ∀ a b p, bs_bios s !! a = Some b → bi_parent b = Some p →
    p < a ∧ ∃ pb, bs_bios s !! p = Some pb ∧ bi_root pb = bi_root b;
  bv_top : ∀ a b, bs_bios s !! a = Some b → bi_parent b = None → bi_root b = a;
  bv_fresh : ∀ a b, bs_bios s !! a = Some b → bi_root b ≤ a < bs_next s;
  bv_once : NoDup (bs_done s).*1;
  bv_over : ∀ r st, (r, st) ∈ bs_done s → bs_bios s !! r = None ∧ r < bs_next s ∧ (st ≠ 0 → r ∈ bs_errors s);
  bv_error : ∀ r, r ∈ bs_errors s →
    (∃ a b, bs_bios s !! a = Some b ∧ bi_root b = r ∧ bi_status b ≠ 0) ∨ ∃ st, (r, st) ∈ bs_done s ∧ st ≠ 0;
  bv_clean : ∀ a b, bs_bios s !! a = Some b → bi_status b ≠ 0 → bi_root b ∈ bs_errors s }.

Lemma bio_inv_perm L L' s : L ≡ₚ L' → bio_inv L s → bio_inv L' s.
Proof.
  intros Hp [H1 H2 H3 H4 H5 H6 H7 H8 H9 H10]. split; try done; [intros a; by rewrite <- Hp; apply H1|].
  intros a b Hb. rewrite <- Hp. by apply H2.
Qed.

(** Only the requests and the histories count. *)
Lemma bio_inv_same L s s' :
  bs_bios s' = bs_bios s → bs_done s' = bs_done s → bs_errors s' = bs_errors s → bs_next s' = bs_next s → bio_inv L s → bio_inv L s'.
Proof. intros E1 E2 E3 E4 [H1 H2 H3 H4 H5 H6 H7 H8 H9 H10]. by split; rewrite ?E1, ?E2, ?E3, ?E4. Qed.

(** What stays the same when a request is counted down or up. *)
Definition bio_shape (b : bio) : req_op * bool * Z * Z * Z * option Z * option Z * Z :=
  (bi_op b, bi_preflush b, bi_sector b, bi_size b, bi_pos b, bi_next b, bi_parent b, bi_root b).

Lemma children_put m a b b' x : m !! a = Some b → bi_parent b' = bi_parent b → children (<[a := b']> m) x = children m x.
Proof. intros Hb E. unfold children. rewrite (map_count_update _ _ _ _ _ Hb), E. lia. Qed.

(** A request changes, its tree stays; an error it reports is in its status. *)
Lemma bio_inv_put_errors L L' s a b b' es :
  bio_inv L s → bs_bios s !! a = Some b → bi_parent b' = bi_parent b → bi_root b' = bi_root b →
  (bi_status b' = bi_status b ∨ bi_status b' ≠ 0 ∧ bi_root b ∈ es) →
  (∀ r, r ∈ bs_errors s → r ∈ es) → (∀ r, r ∈ es → r ∈ bs_errors s ∨ r = bi_root b ∧ bi_status b' ≠ 0) →
  bi_remaining b' = occurs a L' + children (bs_bios s) a → 0 < bi_remaining b' →
  (∀ x, x ≠ a → occurs x L' = occurs x L) → (∀ x, x ∈ L' → x = a ∨ x ∈ L) → bio_inv L' (set_bs_errors es (put_bio a b' s)).
Proof.
  intros [H1 H2 H3 H4 H5 H6 H7 H8 H9 H10] Hb Ep Er Es He1 He2 Ec Hw Ho Hin.
  assert (Em : bs_bios (set_bs_errors es (put_bio a b' s)) = <[a := b']> (bs_bios s)) by done.
  assert (Hl : ∀ x y, <[a := b']> (bs_bios s) !! x = Some y → (x = a ∧ y = b') ∨ (x ≠ a ∧ bs_bios s !! x = Some y)).
  { intros x y [[-> <-]|[Hne Hx]]%lookup_insert_Some; [by left|right; by split]. }
  assert (Hc : ∀ x, children (<[a := b']> (bs_bios s)) x = children (bs_bios s) x) by (intros x; by apply (children_put _ _ b)).
  split; rewrite ?Em; change (bs_done (set_bs_errors es (put_bio a b' s))) with (bs_done s);
    change (bs_errors (set_bs_errors es (put_bio a b' s))) with es; change (bs_next (set_bs_errors es (put_bio a b' s))) with (bs_next s).
  - intros x [->|Hx]%Hin; [rewrite lookup_insert_eq; eauto|]. apply lookup_insert_is_Some.
    destruct (decide (a = x)); [by left|right; by split; [|apply H1]].
  - intros x y Hx. rewrite Hc. destruct (Hl x y Hx) as [[-> ->]|[Hne Hx']]; [done|]. rewrite Ho by done. by apply H2.
  - intros x y Hx. destruct (Hl x y Hx) as [[-> ->]|[Hne Hx']]; [done|by eapply H3].
  - intros x y p Hx Hp. assert (∃ z, bs_bios s !! x = Some z ∧ bi_parent z = Some p ∧ bi_root z = bi_root y) as (z & Hz & Hpz & Hrz).
    { destruct (Hl x y Hx) as [[-> ->]|[_ Hx']]; [exists b; by rewrite <- Ep|by exists y]. }
    destruct (H4 x z p Hz Hpz) as (Hlt & pb & Hpb & Hr). split; [done|]. rewrite <- Hrz.
    destruct (decide (p = a)) as [->|Hne]; [exists b'; rewrite lookup_insert_eq; split; [done|congruence]|].
    exists pb. by rewrite lookup_insert_ne by done.
  - intros x y Hx Hp. destruct (Hl x y Hx) as [[-> ->]|[_ Hx']]; [rewrite Er; by apply H5; [|congruence]|by apply H5].
  - intros x y Hx. destruct (Hl x y Hx) as [[-> ->]|[_ Hx']]; [rewrite Er|]; by apply H6.
  - done.
  - intros r st Hr. destruct (H8 r st Hr) as (Hn & Hlt & He). split_and!; [|done|by intros ?%He%He1]. by rewrite lookup_insert_ne by congruence.
  - intros r [Hr|[-> Hst]]%He2; [|left; exists a, b'; by rewrite lookup_insert_eq].
    destruct (H9 r Hr) as [(x & y & Hx & Hy & Hst)|?]; [left|by right].
    destruct (decide (x = a)) as [->|Hne]; [|exists x, y; by rewrite lookup_insert_ne by done].
    exists a, b'. rewrite lookup_insert_eq. split; [done|]. rewrite Hb in Hx. injection Hx as <-.
    split; [congruence|]. by destruct Es as [->|[? _]].
  - intros x y Hx Hst. destruct (Hl x y Hx) as [[-> ->]|[_ Hx']]; [|by eapply He1, H10].
    rewrite Er. destruct Es as [E|[_ ?]]; [|done]. eapply He1, H10; [done|congruence].
Qed.

Lemma bio_inv_put L L' s a b b' :
  bio_inv L s → bs_bios s !! a = Some b → bi_parent b' = bi_parent b → bi_root b' = bi_root b →
  (bi_status b' = bi_status b ∨ bi_status b' ≠ 0 ∧ bi_root b ∈ bs_errors s) →
  bi_remaining b' = occurs a L' + children (bs_bios s) a → 0 < bi_remaining b' →
  (∀ x, x ≠ a → occurs x L' = occurs x L) → (∀ x, x ∈ L' → x = a ∨ x ∈ L) → bio_inv L' (put_bio a b' s).
Proof.
  intros. apply (bio_inv_same _ (set_bs_errors (bs_errors s) (put_bio a b' s))); try done.
  apply (bio_inv_put_errors L L' s a b b'); try done. by left.
Qed.

(** Nothing but the fields of the request changes. *)
Lemma bio_inv_edit L s a b b' :
  bio_inv L s → bs_bios s !! a = Some b → bi_parent b' = bi_parent b → bi_root b' = bi_root b → bi_status b' = bi_status b →
  bi_remaining b' = bi_remaining b → bio_inv L (put_bio a b' s).
Proof.
  intros Hi Hb E1 E2 E3 E4. apply (bio_inv_put L L s a b b'); try done; rewrite ?E4; [by left|by apply (bv_count _ _ Hi)| |by right].
  by eapply (bv_wait _ _ Hi).
Qed.

(** The last completion of [a] is over to the one it is chained to, or to its maker. *)
Definition bio_free (a : Z) (s : bio_state) : bio_state := set_bs_bios (delete a (bs_bios s)) s.

Lemma last_obligation a b L s :
  bio_inv (a :: L) s → bs_bios s !! a = Some b → bi_remaining b = 1 → a ∉ L ∧ ∀ x y, bs_bios s !! x = Some y → bi_parent y ≠ Some a.
Proof.
  intros Hi Hb Hr. pose proof (bv_count _ _ Hi a b Hb) as E. rewrite occurs_self, Hr in E.
  pose proof (list_count_nonneg (λ x, x = a) L). pose proof (map_count_nonneg (λ b, bi_parent b = Some a) (bs_bios s)) as Hc.
  unfold children in E. split.
  - intros Hin. pose proof (list_count_pos (λ x, x = a) L a Hin eq_refl). lia.
  - apply (proj1 (map_count_zero (λ b, bi_parent b = Some a) (bs_bios s))). lia.
Qed.

Lemma children_free m a b x : m !! a = Some b → children (delete a m) x = children m x - Z.b2z (bool_decide (bi_parent b = Some x)).
Proof. intros Hb. unfold children. by rewrite (map_count_delete _ _ _ _ Hb). Qed.

Lemma bio_inv_free a b L s :
  bio_inv (a :: L) s → bs_bios s !! a = Some b → bi_remaining b = 1 →
  match bi_parent b with
  | None => bio_inv L (set_bs_done (bs_done s ++ [(a, bi_status b)]) (bio_free a s))
  | Some p => (∀ pb, bs_bios s !! p = Some pb → bi_status b ≠ 0 → bi_status pb ≠ 0) → bio_inv (p :: L) (bio_free a s)
  end.
Proof.
  intros Hi Hb Hr. destruct (last_obligation a b L s Hi Hb Hr) as [Hn Hch].
  destruct Hi as [H1 H2 H3 H4 H5 H6 H7 H8 H9 H10].
  assert (Em : bs_bios (bio_free a s) = delete a (bs_bios s)) by done.
  assert (Hl : ∀ x y, bs_bios (bio_free a s) !! x = Some y → x ≠ a ∧ bs_bios s !! x = Some y).
  { intros x y. rewrite Em. intros [Hne Hx]%lookup_delete_Some. by split. }
  assert (Hd : ∀ x, x ≠ a → is_Some (bs_bios s !! x) → is_Some (bs_bios (bio_free a s) !! x)).
  { intros x Hne. by rewrite Em, lookup_delete_ne by done. }
  assert (Hup : ∀ x y p, bs_bios (bio_free a s) !! x = Some y → bi_parent y = Some p →
    p < x ∧ ∃ pb, bs_bios (bio_free a s) !! p = Some pb ∧ bi_root pb = bi_root y).
  { intros x y p [Hne Hx]%Hl Hp. destruct (H4 x y p Hx Hp) as (Hlt & pb & Hpb & E). split; [done|]. exists pb.
    rewrite Em, lookup_delete_ne; [done|]. intros ->. by apply (Hch x y). }
  assert (Hover : ∀ r st, (r, st) ∈ bs_done s →
    bs_bios (bio_free a s) !! r = None ∧ r < bs_next s ∧ (st ≠ 0 → r ∈ bs_errors s)).
  { intros r st Hin. destruct (H8 r st Hin) as (Hx & ? & ?). split; [|done]. rewrite Em. by apply lookup_delete_None; right. }
  destruct (bi_parent b) as [p|] eqn:Ep.
  - intros Hst. destruct (H4 a b p Hb Ep) as (Hlt & pb & Hpb & Er). split; try done.
    + intros x [->|Hx]%elem_of_cons; (apply Hd; [|by eauto || by apply H1; right]); [lia|congruence].
    + intros x y [Hne Hx]%Hl. rewrite Em, (children_free _ _ b) by done. rewrite (H2 x y Hx), Ep, occurs_other by done.
      rewrite list_count_cons. destruct (decide (p = x)) as [->|Hpx].
      * rewrite !bool_decide_true by done. simpl. lia.
      * rewrite !bool_decide_false by congruence. simpl. lia.
    + intros x y [_ Hx]%Hl. by eapply H3.
    + intros x y [_ Hx]%Hl. by apply H5.
    + intros x y [_ Hx]%Hl. by apply H6.
    + intros r Hin. destruct (H9 r Hin) as [(x & y & Hx & Hy & Hs)|?]; [left|by right].
      destruct (decide (x = a)) as [->|Hne].
      * rewrite Hb in Hx. injection Hx as <-. exists p, pb. rewrite Em, lookup_delete_ne by lia. split_and!; [done|congruence|by eapply Hst].
      * exists x, y. by rewrite Em, lookup_delete_ne.
    + intros x y [_ Hx]%Hl. by eapply H10.
  - split.
    + intros x Hx. apply Hd; [congruence|]. by apply H1; right.
    + intros x y [Hne Hx]%Hl. change (bs_bios (set_bs_done ?d ?s)) with (bs_bios s). rewrite Em, (children_free _ _ b) by done.
      rewrite (H2 x y Hx), Ep, occurs_other by done. simpl. lia.
    + intros x y [_ Hx]%Hl. by eapply H3.
    + exact Hup.
    + intros x y [_ Hx]%Hl. by apply H5.
    + intros x y [_ Hx]%Hl. by apply H6.
    + cbn [set_bs_done bs_done]. rewrite fmap_app. apply NoDup_app. split_and!; [done| |apply NoDup_singleton].
      intros x Hx Hx2. apply list_elem_of_singleton in Hx2. cbn in Hx2. subst x.
      apply list_elem_of_fmap in Hx as ([r st] & -> & Hin). destruct (H8 r st Hin) as [E _]. cbn in *. congruence.
    + cbn [set_bs_done bs_done bs_errors bs_next]. intros r st [Hin|Hin]%elem_of_app; [by apply Hover|].
      apply list_elem_of_singleton in Hin as [= -> ->]. split_and!; [apply lookup_delete_eq|apply (H6 a b Hb)|].
      intros Hs. rewrite <- (H5 a b Hb Ep). by eapply H10.
    + cbn [set_bs_done bs_done bs_errors]. intros r Hin. destruct (H9 r Hin) as [(x & y & Hx & Hy & Hs)|(st & Hd1 & Hs)];
        [|right; exists st; by rewrite elem_of_app; split; [left|]].
      destruct (decide (x = a)) as [->|Hne].
      * right. rewrite Hb in Hx. injection Hx as <-. exists (bi_status b). rewrite (H5 a b Hb Ep) in Hy. subst r.
        rewrite elem_of_app. split; [right; by left|done].
      * left. exists x, y. change (bs_bios (set_bs_done ?d ?s)) with (bs_bios s). by rewrite Em, lookup_delete_ne.
    + intros x y [_ Hx]%Hl. by eapply H10.
Qed.

(** What a completion leaves as it was. *)
Record bio_after (s s' : bio_state) : Prop := {
  ba_fields : bs_mem s' = bs_mem s ∧ bs_submitted s' = bs_submitted s ∧ bs_requeued s' = bs_requeued s ∧
    bs_dropped s' = bs_dropped s ∧ bs_errors s' = bs_errors s ∧ bs_next s' = bs_next s;
  ba_done : bs_done s `prefix_of` bs_done s';
  ba_live : ∀ x b', bs_bios s' !! x = Some b' → ∃ b, bs_bios s !! x = Some b ∧ bio_shape b' = bio_shape b;
  ba_root : ∀ x b, bs_bios s !! x = Some b → bi_parent b = None → is_Some (bs_bios s' !! x) ∨ x ∈ (bs_done s').*1 }.

#[export] Instance bio_after_preorder : PreOrder bio_after.
Proof.
  split.
  - intros s. split; try done; [intros x b Hb; by exists b|]. intros x b Hb _. left. by eexists.
  - intros s1 s2 s3 [(A1 & A2 & A3 & A4 & A5 & A6) D1 L1 R1] [(B1 & B2 & B3 & B4 & B5 & B6) D2 L2 R2]. split.
    + split_and!; congruence.
    + by etrans.
    + intros x b3 H3. destruct (L2 x b3 H3) as (b2 & H2 & E2). destruct (L1 x b2 H2) as (b1 & H1 & E1). exists b1. split; [done|congruence].
    + intros x b Hb Hp. destruct (R1 x b Hb Hp) as [[b2 H2]|Hd].
      * destruct (L1 x b2 H2) as (b1 & H1 & E1). rewrite Hb in H1. injection H1 as <-. apply (R2 x b2 H2). injection E1. congruence.
      * right. destruct D2 as [k ->]. rewrite fmap_app, elem_of_app. by left.
Qed.

Lemma put_after a b b' s : bs_bios s !! a = Some b → bio_shape b' = bio_shape b → bio_after s (put_bio a b' s).
Proof.
  intros Hb E. split; try done.
  - intros x y. cbn [put_bio set_bs_bios bs_bios]. intros [[<- <-]|[_ Hx]]%lookup_insert_Some; eauto.
  - intros x y Hx _. left. apply lookup_insert_is_Some. destruct (decide (a = x)); [by left|right; split; [done|by eexists]].
Qed.

Lemma free_after a b s : bs_bios s !! a = Some b → is_Some (bi_parent b) → bio_after s (bio_free a s).
Proof.
  intros Hb Hp. split; try done.
  - intros x y. cbn [bio_free set_bs_bios bs_bios]. intros [_ Hx]%lookup_delete_Some. eauto.
  - intros x y Hx Hn. left. cbn [bio_free set_bs_bios bs_bios]. rewrite lookup_delete_ne by (intros ->; destruct Hp; congruence). by eexists.
Qed.

Lemma done_after a b s : bs_bios s !! a = Some b → bio_after s (set_bs_done (bs_done s ++ [(a, bi_status b)]) (bio_free a s)).
Proof.
  intros Hb. split; try done; cbn [set_bs_done bio_free set_bs_bios bs_bios bs_done].
  - by apply prefix_app_r.
  - intros x y [_ Hx]%lookup_delete_Some. eauto.
  - intros x y Hx Hn. destruct (decide (x = a)) as [->|Hne]; [right; rewrite fmap_app, elem_of_app; right; by left|].
    left. rewrite lookup_delete_ne by done. by eexists.
Qed.

(** Completing a request meets one obligation. *)
Lemma endio_effect_from_ok fuel a L s :
  bio_inv (a :: L) s → (size (bs_bios s) < fuel)%nat → ∃ s', endio_effect_from fuel a s = Some s' ∧ bio_inv L s' ∧ bio_after s s'.
Proof.
  revert a s. induction fuel as [|fuel IH]; intros a s Hi Hf; [lia|]. cbn [endio_effect_from].
  destruct (bv_held _ _ Hi a) as [b Hb]; [set_solver|]. rewrite Hb. cbn [mbind option_bind].
  pose proof (bv_wait _ _ Hi a b Hb) as Hw. pose proof (bv_count _ _ Hi a b Hb) as Hc. rewrite occurs_self in Hc.
  destruct (Z.leb_spec (bi_remaining b) 0); [lia|]. cbn [bug_on mbind option_bind].
  destruct (Z.eqb_spec (bi_remaining b - 1) 0) as [H1|H1]; cbn [negb].
  - assert (Hr : bi_remaining b = 1) by lia. pose proof (bio_inv_free a b L s Hi Hb Hr) as Hfree. fold (bio_free a s).
    destruct (bi_parent b) as [p|] eqn:Ep.
    + destruct (bv_up _ _ Hi a b p Hb Ep) as (Hlt & pb & Hpb & Er). cbn [bio_free set_bs_bios bs_bios].
      rewrite lookup_delete_ne, Hpb by lia. cbn [mbind option_bind]. set (pb' := if negb _ && _ then _ else _).
      assert (E : put_bio p pb' (bio_free a s) = bio_free a (put_bio p pb' s)).
      { unfold put_bio, bio_free. cbn [bs_bios set_bs_bios]. rewrite delete_insert_ne by lia. done. }
      fold (bio_free a s). rewrite E. set (s1 := put_bio p pb' s).
      assert (Hs : bi_status pb' = bi_status pb ∨ bi_status pb' ≠ 0 ∧ bi_root pb ∈ bs_errors s).
      { unfold pb'. destruct (Z.eqb_spec (bi_status b) 0) as [|Hne]; cbn [negb andb]; [by left|].
        destruct (bi_status pb =? 0); [|by left]. right. split; [done|]. rewrite Er. by eapply (bv_clean _ _ Hi). }
      assert (Hpp : bi_parent pb' = bi_parent pb ∧ bi_root pb' = bi_root pb ∧ bi_remaining pb' = bi_remaining pb ∧ bio_shape pb' = bio_shape pb).
      { unfold pb'. by destruct (negb _ && _). }
      destruct Hpp as (Hpp & Hpr & Hpm & Hps).
      assert (Hi1 : bio_inv (a :: L) s1).
      { apply (bio_inv_put (a :: L) (a :: L) s p pb pb' Hi Hpb); try done; [|rewrite Hpm; by eapply (bv_wait _ _ Hi)|by right].
        rewrite Hpm. by apply (bv_count _ _ Hi). }
      assert (Hb1 : bs_bios s1 !! a = Some b) by (cbn [s1 put_bio set_bs_bios bs_bios]; by rewrite lookup_insert_ne by lia).
      pose proof (bio_inv_free a b L s1 Hi1 Hb1 Hr) as Hfree1. rewrite Ep in Hfree1.
      assert (Hp1 : bs_bios s1 !! p = Some pb') by (cbn [s1 put_bio set_bs_bios bs_bios]; apply lookup_insert_eq).
      destruct (IH p (bio_free a s1)) as (s' & -> & Hi' & Ha').
      * apply Hfree1. intros x Hx Hne. rewrite Hp1 in Hx. injection Hx as <-. unfold pb'.
        destruct (Z.eqb_spec (bi_status b) 0); [done|]. cbn [negb andb]. by destruct (Z.eqb_spec (bi_status pb) 0).
      * cbn [bio_free s1 put_bio set_bs_bios bs_bios]. rewrite map_size_delete_Some by (rewrite lookup_insert_ne by lia; by eexists).
        rewrite map_size_insert_Some by (by eexists). destruct (size (bs_bios s)) eqn:Es; [|lia].
        apply map_size_empty_inv in Es. rewrite Es in Hb. done.
      * exists s'. split; [done|]. split; [done|]. etrans; [|exact Ha']. etrans; [by apply (put_after p pb pb')|].
        apply (free_after a b s1 Hb1). by rewrite Ep.
    + eexists. split; [done|]. split; [exact Hfree|]. apply (done_after a b s Hb).
  - eexists. split; [done|]. split; [|by apply (put_after a b)].
    apply (bio_inv_put (a :: L) L s a b); try done.
    + by left.
    + cbn [set_bi_remaining bi_remaining]. lia.
    + cbn [set_bi_remaining bi_remaining]. lia.
    + intros x Hx. by rewrite occurs_other by congruence.
    + intros x Hx. right. set_solver.
Qed.

Section layer.
Context {BL : BlockLayer} {BLL : BlockLayerLaws BL}.

Lemma bio_endio_ok a L s : bio_inv (a :: L) s → ∃ s', bio_endio a s = Some s' ∧ bio_inv L s' ∧ bio_after s s'.
Proof using BLL. intros Hi. rewrite bl_endio. apply endio_effect_from_ok; [done|lia]. Qed.

(** A status is set; an error is remembered. *)
Definition bio_reported (a status : Z) (b : bio) (s : bio_state) : bio_state :=
  set_bs_errors (if status =? 0 then bs_errors s else bi_root b :: bs_errors s) (put_bio a (set_bi_status status b) s).

Lemma bio_report_ok a b status L s :
  bio_inv L s → bs_bios s !! a = Some b → bi_status b = 0 ∨ status ≠ 0 →
  bio_report a status s = Some (bio_reported a status b s) ∧ bio_inv L (bio_reported a status b s).
Proof.
  intros Hi Hb Hz. unfold bio_report, bio_reported. rewrite Hb. cbn [mbind option_bind]. split.
  - by destruct (status =? 0).
  - apply (bio_inv_put_errors L L s a b); try done.
    + destruct (Z.eqb_spec status 0) as [->|Hne]; cbn; [by destruct Hz; [left|]|right; split; [done|by left]].
    + intros r Hr. destruct (status =? 0); [done|by right].
    + intros r. destruct (Z.eqb_spec status 0); [by left|]. intros [->|?]%elem_of_cons; [by right|by left].
    + exact (bv_count _ _ Hi a b Hb).
    + exact (bv_wait _ _ Hi a b Hb).
    + by right.
Qed.

(** A new request: it takes over an obligation of the one it is chained to. *)
Definition bio_new (piece : bio) (s : bio_state) : bio_state :=
  mk_bios (<[bs_next s := piece]> (bs_bios s)) (bs_mem s) (bs_submitted s) (bs_requeued s) (bs_dropped s) (bs_done s) (bs_errors s)
    (bs_next s + 1).

Lemma bio_inv_new piece L s :
  bio_inv (option_list (bi_parent piece) ++ L) s → bi_status piece = 0 → bi_remaining piece = 1 →
  match bi_parent piece with
  | Some a => ∃ b, bs_bios s !! a = Some b ∧ bi_root piece = bi_root b
  | None => bi_root piece = bs_next s
  end → bio_inv (bs_next s :: L) (bio_new piece s).
Proof.
  intros Hi P3 P4 Hp. pose proof Hi as [H1 H2 H3 H4 H5 H6 H7 H8 H9 H10]. set (n := bs_next s) in *.
  assert (Hfr : bs_bios s !! n = None) by (destruct (bs_bios s !! n) as [y|] eqn:E; [apply H6 in E; lia|done]).
  assert (Em : bs_bios (bio_new piece s) = <[n := piece]> (bs_bios s)) by done.
  assert (Hl : ∀ x y, bs_bios (bio_new piece s) !! x = Some y → (x = n ∧ y = piece) ∨ (x ≠ n ∧ bs_bios s !! x = Some y)).
  { intros x y. rewrite Em. intros [[-> <-]|[? ?]]%lookup_insert_Some; [by left|by right]. }
  assert (Hlive : ∀ x y, bs_bios s !! x = Some y → bs_bios (bio_new piece s) !! x = Some y).
  { intros x y Hx. rewrite Em, lookup_insert_ne by congruence. done. }
  assert (Hno : n ∉ L) by (intros Hin; destruct (H1 n) as [z Hz]; [rewrite elem_of_app; by right|congruence]).
  assert (Hc : ∀ x, children (bs_bios (bio_new piece s)) x = children (bs_bios s) x + Z.b2z (bool_decide (bi_parent piece = Some x))).
  { intros x. rewrite Em. unfold children. by rewrite map_count_insert. }
  split; change (bs_done (bio_new piece s)) with (bs_done s); change (bs_errors (bio_new piece s)) with (bs_errors s);
    change (bs_next (bio_new piece s)) with (n + 1).
  - intros x [->|Hx]%elem_of_cons; [rewrite Em, lookup_insert_eq; eauto|].
    destruct (H1 x) as [y Hy]; [rewrite elem_of_app; by right|]. eauto.
  - intros x y Hx. rewrite Hc. destruct (Hl x y Hx) as [[-> ->]|[Hne Hx']].
    + rewrite occurs_self, occurs_none, P4 by done. assert (children (bs_bios s) n = 0) as ->.
      { apply map_count_zero. intros z u Hz Hu. destruct (H4 z u n Hz Hu) as (_ & pb & Hpb & _). congruence. }
      rewrite bool_decide_false; [done|]. intros E. rewrite E in Hp. destruct Hp as (b & Hb & _). congruence.
    + rewrite occurs_other, (H2 x y Hx') by done. rewrite list_count_app. destruct (bi_parent piece) as [a|]; cbn [option_list].
      * change (option_list (Some a)) with [a]. rewrite list_count_cons. change (occurs x []) with 0.
        destruct (decide (a = x)) as [->|Hax]; [rewrite !bool_decide_true by done|rewrite !bool_decide_false by congruence]; cbn [Z.b2z]; lia.
      * rewrite bool_decide_false by done. change (occurs x (option_list None)) with 0. cbn [Z.b2z]. lia.
  - intros x y Hx. destruct (Hl x y Hx) as [[-> ->]|[_ Hx']]; [lia|by eapply H3].
  - intros x y p Hx Hpp. destruct (Hl x y Hx) as [[-> ->]|[_ Hx']].
    + rewrite Hpp in Hp. destruct Hp as (b & Hb & E). split; [apply H6 in Hb; lia|]. exists b. split; [by apply Hlive|done].
    + destruct (H4 x y p Hx' Hpp) as (Hlt & pb & Hpb & E). eauto.
  - intros x y Hx Hpp. destruct (Hl x y Hx) as [[-> ->]|[_ Hx']]; [by rewrite Hpp in Hp|by apply H5].
  - intros x y Hx. destruct (Hl x y Hx) as [[-> ->]|[_ Hx']]; [|pose proof (H6 x y Hx'); lia]. destruct (bi_parent piece) as [a|].
    + destruct Hp as (b & Hb & ->). pose proof (H6 a b Hb). lia.
    + lia.
  - done.
  - intros r st Hr. destruct (H8 r st Hr) as (Hx & Hlt & He). split_and!; [|lia|done]. rewrite Em, lookup_insert_ne by lia. done.
  - intros r Hr. destruct (H9 r Hr) as [(x & y & Hx & Hy)|?]; [left; exists x, y; by split; [apply Hlive|]|by right].
  - intros x y Hx Hst. destruct (Hl x y Hx) as [[-> ->]|[_ Hx']]; [done|by eapply H10].
Qed.

(** ** The pieces *)
Definition bio_piece (a l : Z) (b : bio) : bio :=
  mk_bio (bi_op b) (bi_preflush b) (bi_sector b) l (bi_pos b) 0 (bi_next b) (Some a) 1 (bi_root b).
Definition bio_rest (l : Z) (b : bio) : bio :=
  mk_bio (bi_op b) (bi_preflush b) (u64 (bi_sector b + l / 512)) (bi_size b - l) (bi_pos b + l) (bi_status b) (bi_next b)
    (bi_parent b) (bi_remaining b + 1) (bi_root b).
Definition bio_cut (a l : Z) (b : bio) (s : bio_state) : bio_state := bio_new (bio_piece a l b) (put_bio a (bio_rest l b) s).

Lemma split_piece_eq a b l s :
  bs_bios s !! a = Some b → a < bs_next s → 0 < l → l mod 512 = 0 → bi_size b mod 512 = 0 →
  split_piece a l s = Some (if l <? bi_size b then (bs_next s, true, bio_cut a l b s) else (a, false, s)).
Proof.
  intros Hb Ha Hl Hm Hs. unfold split_piece. rewrite Hb. cbn [mbind option_bind]. destruct (Z.ltb_spec l (bi_size b)) as [Hlt|]; [|done].
  rewrite bl_split. unfold split_effect, SECTOR_SHIFT. rewrite Hb. cbn [mbind option_bind]. rewrite !Z.shiftr_div_pow2, Z.shiftl_mul_pow2 by lia.
  change (2 ^ 9) with 512. pose proof (Z.div_mod l 512 ltac:(lia)). pose proof (Z.div_mod (bi_size b) 512 ltac:(lia)).
  destruct (Z.leb_spec (l / 512) 0); [lia|]. destruct (Z.leb_spec (bi_size b / 512) (l / 512)); [lia|]. cbn [orb bug_on mbind option_bind].
  replace (l / 512 * 512) with l by lia. rewrite bl_chain. unfold chain_effect. cbn [bs_bios].
  rewrite lookup_insert_eq, lookup_insert_ne, lookup_insert_eq by lia. cbn [mbind option_bind put_bio set_bs_bios bs_bios].
  rewrite lookup_insert_ne, lookup_insert_eq by lia. cbn [mbind option_bind]. do 2 f_equal.
  unfold bio_cut, bio_new, put_bio, set_bs_bios. cbn. f_equal.
  apply map_eq. intros x. destruct (decide (x = bs_next s)) as [->|Hx]; [by rewrite !lookup_insert_eq|].
  destruct (decide (x = a)) as [->|Hxa]; [|by rewrite !lookup_insert_ne by done].
  rewrite (lookup_insert_ne _ (bs_next s) a), lookup_insert_eq by done. by rewrite lookup_insert_ne, lookup_insert_eq by done.
Qed.

(** ** Handling a piece *)

(** Who completes the requests of a state. *)
Definition outs (s : bio_state) : list Z := bs_submitted s ++ bs_requeued s ++ bs_dropped s.

(** A request the module can map: it has the file, and whole sectors. *)
Definition bio_fit (b : bio) : Prop := is_Some (bi_next b) ∧ 0 ≤ bi_size b ∧ bi_size b mod 512 = 0.

Lemma shape_fit b b' : bio_shape b' = bio_shape b → bio_fit b → bio_fit b'.
Proof. intros [= _ _ _ E2 _ E1 _ _] (F1 & F2 & F3). unfold bio_fit. by rewrite E1, E2. Qed.

(** [H]: the obligations of the function that runs. *)
Record bio_ok (H : list Z) (s : bio_state) : Prop := {
  bo_inv : bio_inv (H ++ outs s) s;
  bo_nodup : NoDup (H ++ outs s);
  bo_fit : ∀ x b, x ∈ bs_requeued s → bs_bios s !! x = Some b → bio_fit b }.

(** What happened stays, and no request from outside is forgotten. *)
Record kept (s s' : bio_state) : Prop := {
  kp_done : ∀ x, x ∈ bs_done s → x ∈ bs_done s';
  kp_errors : ∀ r, r ∈ bs_errors s → r ∈ bs_errors s';
  kp_dropped : ∀ x, x ∈ bs_dropped s → x ∈ bs_dropped s';
  kp_root : ∀ x b, bs_bios s !! x = Some b → bi_parent b = None →
    (∃ b', bs_bios s' !! x = Some b' ∧ bi_parent b' = None) ∨ x ∈ (bs_done s').*1 }.

#[export] Instance kept_preorder : PreOrder kept.
Proof.
  split; [intros s; split; eauto|]. intros s1 s2 s3 [D1 E1 P1 R1] [D2 E2 P2 R2]. split; [auto..|].
  intros x b Hb Hp. destruct (R1 x b Hb Hp) as [(b2 & H2 & Hp2)|Hd]; [by apply (R2 x b2)|]. right.
  apply list_elem_of_fmap in Hd as (y & -> & Hy). apply list_elem_of_fmap. eauto.
Qed.

Lemma after_kept s s' : bio_after s s' → kept s s'.
Proof.
  intros [(_ & _ & _ & E4 & E5 & _) [k D] Hl Hr]. split.
  - intros x Hx. rewrite D. apply elem_of_app. by left.
  - intros x Hx. by rewrite E5.
  - intros x Hx. by rewrite E4.
  - intros x b Hb Hp. destruct (Hr x b Hb Hp) as [[b' Hb']|?]; [left|by right]. exists b'. split; [done|].
    destruct (Hl x b' Hb') as (b0 & H0 & E). injection E. congruence.
Qed.

Lemma put_kept a b b' s : bs_bios s !! a = Some b → bi_parent b' = bi_parent b → kept s (put_bio a b' s).
Proof.
  intros Hb Hp. split; try done. intros x y Hx Hy. left. cbn [put_bio set_bs_bios bs_bios]. destruct (decide (x = a)) as [->|Hne].
  - rewrite lookup_insert_eq. exists b'. split; [done|]. congruence.
  - rewrite lookup_insert_ne by done. eauto.
Qed.

Lemma new_kept piece s : bs_bios s !! bs_next s = None → kept s (bio_new piece s).
Proof.
  intros Hn. split; try done. intros x y Hx Hy. left. exists y. split; [|done]. cbn [bio_new bs_bios].
  by rewrite lookup_insert_ne by congruence.
Qed.

Lemma bio_inv_fresh L s : bio_inv L s → bs_bios s !! bs_next s = None.
Proof. intros Hi. destruct (bs_bios s !! bs_next s) as [y|] eqn:E; [apply (bv_fresh _ _ Hi) in E; lia|done]. Qed.

(** The requeued requests are the ones they were. *)
Lemma bio_ok_after H H' s s' :
  bio_ok H s → bio_after s s' → bio_inv (H' ++ outs s) s' → NoDup (H' ++ outs s) → bio_ok H' s'.
Proof.
  intros [_ _ Hf] [(_ & E2 & E3 & E4 & _) _ Hl _] Hi Hnd. assert (Eo : outs s' = outs s) by (unfold outs; congruence).
  split; [by rewrite Eo..|]. intros x b Hx Hb. rewrite E3 in Hx.
  destruct (Hl x b Hb) as (b0 & H0 & E). by apply (shape_fit b0), (Hf x).
Qed.

Lemma bio_cut_ok a b l H s :
  bio_ok (a :: H) s → bs_bios s !! a = Some b → bio_fit b → 0 < l < bi_size b → l mod 512 = 0 →
  bio_ok (bs_next s :: a :: H) (bio_cut a l b s) ∧ kept s (bio_cut a l b s) ∧
  bs_bios (bio_cut a l b s) !! bs_next s = Some (bio_piece a l b) ∧ bs_bios (bio_cut a l b s) !! a = Some (bio_rest l b) ∧
  bio_fit (bio_piece a l b) ∧ bio_fit (bio_rest l b).
Proof.
  intros [Hi Hnd Hf] Hb (Hn & Hs & Hm) Hl Hlm. pose proof (bio_inv_fresh _ _ Hi) as Hfr.
  assert (Hp : bio_fit (bio_piece a l b)) by (split; [done|by cbn; lia]).
  assert (Hr : bio_fit (bio_rest l b)) by (split_and!; [done|cbn; lia|]; cbn; by rewrite Zminus_mod, Hm, Hlm).
  set (s1 := put_bio a (bio_rest l b) s). set (L := H ++ outs s).
  assert (Hi1 : bio_inv (a :: a :: L) s1).
  { apply (bio_inv_put (a :: L) (a :: a :: L) s a b); try done.
    - by left.
    - cbn. rewrite (bv_count _ _ Hi a b Hb). change ((a :: H) ++ outs s) with (a :: L). rewrite !occurs_self. lia.
    - cbn. pose proof (bv_wait _ _ Hi a b Hb). lia.
    - intros x Hx. by rewrite !occurs_other by congruence.
    - intros x Hx. set_solver. }
  assert (Hb1 : bs_bios s1 !! a = Some (bio_rest l b)) by (cbn [s1 put_bio set_bs_bios bs_bios]; apply lookup_insert_eq).
  split_and!; try done.
  - split.
    + change (outs (bio_cut a l b s)) with (outs s). apply (bio_inv_new (bio_piece a l b) (a :: L) s1); try done. by exists (bio_rest l b).
    + change (outs (bio_cut a l b s)) with (outs s). apply NoDup_cons. split; [|done]. intros Hin.
      destruct (bv_held _ _ Hi _ Hin) as [? ?]. congruence.
    + intros x y Hx. change (bs_requeued (bio_cut a l b s)) with (bs_requeued s) in Hx.
      cbn [bio_cut bio_new bs_bios put_bio set_bs_bios bs_next].
      intros [[<- <-]|[_ [[<- <-]|[_ Hy]]%lookup_insert_Some]]%lookup_insert_Some; [done|done|by eapply Hf].
  - etrans; [by apply (put_kept a b (bio_rest l b))|]. apply new_kept. apply (bio_inv_fresh _ _ Hi1).
  - cbn [bio_cut bio_new bs_bios put_bio set_bs_bios bs_next]. apply lookup_insert_eq.
  - cbn [bio_cut bio_new bs_bios put_bio set_bs_bios bs_next]. rewrite lookup_insert_ne by congruence. apply lookup_insert_eq.
Qed.

(** What one piece leaves: its obligation is met, or handed on; or it stays with the caller. *)
Definition piece_end (x : Z) (cut : bool) (H : list Z) (s : bio_state) (e : cyanfs_status) (s' : bio_state) : Prop :=
  (if failed e && negb cut then bio_ok (x :: H) s' else bio_ok H s') ∧ kept s s' ∧
  ∀ y b', y ≠ x → bs_bios s' !! y = Some b' → ∃ b, bs_bios s !! y = Some b ∧ bio_shape b' = bio_shape b.

Lemma outs_move x s s' : outs s' ≡ₚ x :: outs s → ∀ H, H ++ outs s' ≡ₚ (x :: H) ++ outs s.
Proof. intros E H. rewrite E. cbn [app]. by rewrite Permutation_middle. Qed.

(** An obligation of the caller becomes one of the state. *)
Lemma bio_ok_move x H s s' :
  bio_ok (x :: H) s → bs_bios s' = bs_bios s → bs_done s' = bs_done s → bs_errors s' = bs_errors s → bs_next s' = bs_next s →
  outs s' ≡ₚ x :: outs s → (∀ y b, y ∈ bs_requeued s' → bs_bios s !! y = Some b → bio_fit b) → bio_ok H s'.
Proof.
  intros [Hi Hnd _] E1 E2 E3 E4 Eo Hf. pose proof (outs_move x s s' Eo H) as Ep. split.
  - apply (bio_inv_perm _ _ _ (symmetry Ep)). by apply (bio_inv_same _ s).
  - by rewrite Ep.
  - intros y b. rewrite E1. apply Hf.
Qed.

Lemma same_kept s s' :
  bs_bios s' = bs_bios s → bs_done s' = bs_done s → bs_errors s' = bs_errors s → (∀ x, x ∈ bs_dropped s → x ∈ bs_dropped s') → kept s s'.
Proof. intros E1 E2 E3 E4. split; [by intros x; rewrite E2|by intros x; rewrite E3|done|]. intros x b. rewrite E1. eauto. Qed.

Lemma dispatch_piece_ok file x cut ty b_off l b H s w e s' w' :
  bio_ok (x :: H) s → bs_bios s !! x = Some b → bio_fit b →
  dispatch_piece file x cut ty b_off l s w = Some (e, s', w') → piece_end x cut H s e s'.
Proof.
  intros Hok Hb Hfit. pose proof Hok as [Hi Hnd Hf]. unfold dispatch_piece. rewrite Hb. cbn [mbind option_bind].
  assert (Hx : x ∉ bs_requeued s).
  { intros Hin. change (NoDup (x :: (H ++ outs s))) in Hnd. apply NoDup_cons in Hnd as [Hn _]. apply Hn. unfold outs. rewrite !elem_of_app. auto. }
  assert (Hsame : ∀ s0, bs_bios s0 = bs_bios s → ∀ y b', y ≠ x → bs_bios s0 !! y = Some b' → ∃ b, bs_bios s !! y = Some b ∧ bio_shape b' = bio_shape b)
    by (intros s0 -> y b' _ Hy; eauto).
  destruct ty.
  - set (zs := if bool_decide _ then _ else _).
    assert (∃ m, zs = Some (set_bs_mem m s)) as [m ->].
    { unfold zs. rewrite bl_zero_fill. unfold zero_fill_effect. rewrite Hb. destruct (bool_decide _); [by eexists|]. exists (bs_mem s). by destruct s. }
    cbn [mbind option_bind]. set (s1 := set_bs_mem m s).
    assert (Hok1 : bio_ok (x :: H) s1) by (split; [by apply (bio_inv_same _ s)|done|done]).
    destruct (bio_endio_ok x (H ++ outs s1) s1) as (s2 & -> & Hi2 & Ha); [apply Hok1|]. cbn [mbind option_bind]. intros [= <- <- <-].
    split_and!; cbn [failed andb].
    + apply (bio_ok_after (x :: H) H s1); [done|done|done|]. by apply NoDup_cons in Hnd as [_ ?].
    + etrans; [|by apply after_kept]. by apply same_kept.
    + intros y b' _ Hy. apply (ba_live _ _ Ha y b' Hy).
  - rewrite bl_submit. intros [= <- <- <-]. set (b1 := set_bi_next None _). set (s1 := put_bio x b1 s).
    assert (Hi1 : bio_inv ((x :: H) ++ outs s1) s1) by (by apply (bio_inv_edit _ s x b b1)).
    split_and!; cbn [failed andb].
    + apply (bio_ok_move x H s1); try done.
      * split; [done|done|]. intros y c Hy. unfold s1. cbn [put_bio set_bs_bios bs_bios bs_requeued] in *.
        rewrite lookup_insert_ne by (intros <-; by apply Hx). by apply Hf.
      * apply (parts_first x (bs_submitted s)).
      * intros y c Hy. change (bs_requeued s1) with (bs_requeued s) in Hy. cbn [s1 put_bio set_bs_bios bs_bios].
        rewrite lookup_insert_ne by (intros <-; by apply Hx). by apply Hf.
    + etrans; [by apply (put_kept x b b1)|]. by apply same_kept.
    + intros y b' Hy. cbn [submit_effect set_bs_submitted s1 put_bio set_bs_bios bs_bios]. rewrite lookup_insert_ne by done. eauto.
  - destruct file as [fl|]; [|done]. cbn [mbind option_bind]. destruct (cyanfs_requeue fl x w) as [e1 w1]. intros [= <- <- <-].
    destruct (failed e1) eqn:Ef; [destruct cut|]; unfold piece_end; rewrite Ef; cbn [andb negb].
    + split_and!; [|apply same_kept; [done..|]; intros y Hy; by right|by apply Hsame].
      apply (bio_ok_move x H s); try done. apply (parts_third x (bs_submitted s)).
    + split_and!; [done|done|by apply Hsame].
    + split_and!; [|by apply same_kept|by apply Hsame]. apply (bio_ok_move x H s); try done.
      * apply (parts_second x (bs_submitted s)).
      * cbn. intros y c [Hy| ->%list_elem_of_singleton]%elem_of_app Hc; [by eapply Hf|]. congruence.
Qed.

(** ** Mapping a request *)
Lemma sectors_u64 x : u64 (x * 512) mod 512 = 0.
Proof.
  unfold u64. change 18446744073709551616 with (36028797018963968 * 512).
  rewrite Zmult_mod_distr_r, Z.mod_mul by lia. done.
Qed.

Lemma space_sectors off len :
  0 ≤ off → 0 < len → off + len ≤ 2 ^ 51 → off mod 512 = 0 → len mod 512 = 0 → cyanfs_map_extent_space off len mod 512 = 0.
Proof.
  intros Ho Hl Hb Hmo Hml. rewrite map_extent_space_eq by lia. pose proof (Z.mod_pos_bound off 1048576 ltac:(lia)) as Hr.
  assert (Hd : (off mod 1048576) mod 512 = 0).
  { rewrite <- Znumtheory.Zmod_div_mod; [done|lia|lia|]. by exists 2048. }
  destruct (Z.min_spec len (1048576 - off mod 1048576)) as [[_ ->]|[_ ->]]; [done|].
  rewrite Zminus_mod, Hd. done.
Qed.

Lemma sector_advance x l off : u64 (x * 512) = off → l mod 512 = 0 → 0 ≤ l → off + l < 2 ^ 64 → u64 (u64 (x + l / 512) * 512) = off + l.
Proof.
  intros <- Hm Hl Hb. pose proof (u64_range (x * 512)). assert (E : l = l / 512 * 512) by (pose proof (Z.div_mod l 512 ltac:(lia)); lia).
  unfold u64 in *. rewrite Zmult_mod_idemp_l, Z.mul_add_distr_r, <- E, <- Zplus_mod_idemp_l. apply Z.mod_small. lia.
Qed.

Section map.
Context (a : Z) (H : list Z) (s0 : bio_state).

(** The rest of the request at [a] while it is mapped. *)
Definition mapping (off len : Z) (s : bio_state) : Prop :=
  kept s0 s ∧
  if len =? 0 then bio_ok H s
  else bio_ok (a :: H) s ∧ ∃ b, bs_bios s !! a = Some b ∧ bio_fit b ∧ bi_size b = len ∧ u64 (bi_sector b * 512) = off.

Definition mapping_failed (s : bio_state) : Prop := kept s0 s ∧ bio_ok (a :: H) s.

Lemma split_bio_keeps : keeps_range (cyanfs_file_split_bio a) mapping mapping_failed.
Proof.
  intros ty b_off off len s w e s' w' Ho Hl Hb [Hk Hm]. destruct (Z.eqb_spec len 0) as [|_]; [lia|].
  destruct Hm as (Hok & b & Hba & Hfit & Hsize & Hoff). pose proof Hfit as (_ & _ & Hm512).
  assert (Hl512 : cyanfs_map_extent_space off len mod 512 = 0).
  { apply space_sectors; [done..| |by rewrite <- Hsize]. rewrite <- Hoff. apply sectors_u64. }
  destruct (space_piece off len ltac:(lia) Hl) as [Hr _]. set (l := cyanfs_map_extent_space off len) in *.
  unfold cyanfs_file_split_bio. rewrite Hba. cbn [mbind option_bind].
  rewrite (split_piece_eq a b l s Hba) by (done || lia || apply (bv_fresh _ _ (bo_inv _ _ Hok) a b Hba)).
  cbn [mbind option_bind]. destruct (Z.ltb_spec l (bi_size b)) as [Hlt|Hge].
  - destruct (bio_cut_ok a b l H s Hok Hba Hfit ltac:(lia) Hl512) as (Hok1 & Hk1 & Hn1 & Ha1 & Hf1 & Hf2). intros Hd.
    destruct (dispatch_piece_ok _ _ _ _ _ _ _ _ _ _ _ _ _ Hok1 Hn1 Hf1 Hd) as (Hok2 & Hk2 & Hfr).
    rewrite andb_false_r in Hok2. assert (Hk3 : kept s0 s') by (do 2 (etrans; [|done]); done).
    destruct (failed e); [by split|]. split; [done|]. destruct (Z.eqb_spec (len - l) 0); [lia|]. split; [done|].
    destruct (bv_held _ _ (bo_inv _ _ Hok2) a) as [b' Hb']; [by left|].
    assert (Hna : a ≠ bs_next s) by (pose proof (bv_fresh _ _ (bo_inv _ _ Hok) a b Hba); lia).
    destruct (Hfr a b' Hna Hb') as (b0 & H0 & E). rewrite Ha1 in H0. injection H0 as <-. unfold bio_shape in E.
    exists b'. split; [done|]. split; [by apply (shape_fit (bio_rest l b))|]. injection E as _ _ Es Ez _ _ _ _. cbn in Es, Ez.
    rewrite Es, Ez. split; [lia|]. apply sector_advance; [done..|lia|lia].
  - intros Hd. assert (l = len) as El by lia.
    destruct (dispatch_piece_ok _ _ _ _ _ _ _ _ _ _ _ _ _ Hok Hba Hfit Hd) as (Hok2 & Hk2 & _).
    assert (Hk3 : kept s0 s') by (etrans; done). rewrite andb_true_r in Hok2.
    destruct (failed e); [by split|]. split; [done|]. by rewrite El, Z.sub_diag.
Qed.
End map.

(** ** The functions of the module *)
Section module.
Context (errno_to_blk_status : Z → Z) (race : world → world).
Context (Hblk : ∀ e, e ≠ 0 → errno_to_blk_status e ≠ 0).
Context (Hrace : ∀ w, mapped (w_super w) → mapped (w_super (race w))).

Lemma reported_ok a b status H s :
  bio_ok (a :: H) s → bs_bios s !! a = Some b → status ≠ 0 →
  bio_report a status s = Some (bio_reported a status b s) ∧ bio_ok (a :: H) (bio_reported a status b s) ∧ kept s (bio_reported a status b s).
Proof using Type.
  intros [Hi Hnd Hf] Hb Hne. destruct (bio_report_ok a b status _ s Hi Hb) as [E Hi1]; [by right|]. split; [done|]. split.
  - split; [done|done|]. intros x c Hx. unfold bio_reported. cbn [set_bs_errors put_bio set_bs_bios bs_bios].
    intros [[<- <-]|[_ Hc]]%lookup_insert_Some; [|by eapply Hf]. apply (shape_fit b); [done|]. by apply (Hf a).
  - unfold bio_reported. destruct (Z.eqb_spec status 0); [done|]. etrans; [by apply (put_kept a b (set_bi_status status b))|].
    split; try done; [intros r Hr; by right|eauto].
Qed.

Lemma endio_ok a H s : bio_ok (a :: H) s → ∃ s', bio_endio a s = Some s' ∧ bio_ok H s' ∧ kept s s'.
Proof using BLL.
  intros Hok. destruct (bio_endio_ok a (H ++ outs s) s) as (s' & E & Hi & Ha); [apply Hok|]. exists s'. split; [done|].
  split; [|by apply after_kept]. apply (bio_ok_after (a :: H) H s); try done. pose proof (bo_nodup _ _ Hok) as Hnd.
  by apply NoDup_cons in Hnd as [_ ?].
Qed.

Lemma endio_status_ok a status H s :
  bio_ok (a :: H) s → status ≠ 0 → ∃ s', cyanfs_bio_endio_status a status s = Some s' ∧ bio_ok H s' ∧ kept s s'.
Proof using BLL.
  intros Hok Hne. destruct (bv_held _ _ (bo_inv _ _ Hok) a) as [b Hb]; [by left|].
  destruct (reported_ok a b status H s Hok Hb Hne) as (E & Hok1 & Hk1). unfold cyanfs_bio_endio_status. rewrite E. cbn [mbind option_bind].
  destruct (endio_ok a H _ Hok1) as (s' & E' & Hok' & Hk'). exists s'. split; [done|]. split; [done|]. by etrans.
Qed.

Lemma endio_error_ok a err H s :
  bio_ok (a :: H) s → failed err = true → ∃ s', cyanfs_bio_endio_error errno_to_blk_status a err s = Some s' ∧ bio_ok H s' ∧ kept s s'.
Proof using Hblk BLL. intros Hok Hf. apply endio_status_ok; [done|]. by apply Hblk, errno_of_failed. Qed.

(** A request that is given away is not in the queue. *)
Lemma held_not_queued a H s : bio_ok (a :: H) s → a ∉ bs_requeued s.
Proof using Type.
  intros [_ Hnd _] Hin. change (NoDup (a :: (H ++ outs s))) in Hnd. apply NoDup_cons in Hnd as [Hn _]. apply Hn. unfold outs.
  rewrite !elem_of_app. auto.
Qed.

Lemma edit_ok a b b' H s :
  bio_ok (a :: H) s → bs_bios s !! a = Some b → bi_parent b' = bi_parent b → bi_root b' = bi_root b → bi_status b' = bi_status b →
  bi_remaining b' = bi_remaining b → bio_ok (a :: H) (put_bio a b' s) ∧ kept s (put_bio a b' s).
Proof using Type.
  intros Hok Hb E1 E2 E3 E4. split; [|by apply (put_kept a b b')]. split.
  - by apply (bio_inv_edit _ s a b b'); [apply Hok|..].
  - apply Hok.
  - intros x c Hx. cbn [put_bio set_bs_bios bs_bios]. rewrite lookup_insert_ne; [by apply Hok|].
    intros <-. by apply (held_not_queued a H s Hok).
Qed.

Lemma submit_ok a H s : bio_ok (a :: H) s → bio_ok H (submit_bio a s) ∧ kept s (submit_bio a s).
Proof using BLL.
  intros Hok. rewrite bl_submit. split; [|by apply same_kept]. apply (bio_ok_move a H s); try done; [apply (parts_first a (bs_submitted s))|apply Hok].
Qed.

Lemma release_ok a H s : bio_ok (a :: H) s → ∃ s', bio_release a s = Some s' ∧ bio_ok (a :: H) s' ∧ kept s s'.
Proof using Type.
  intros Hok. destruct (bv_held _ _ (bo_inv _ _ Hok) a) as [b Hb]; [by left|]. unfold bio_release. rewrite Hb. cbn [mbind option_bind].
  eexists. split; [done|]. by apply (edit_ok a b).
Qed.

Lemma split_bio_mapped a ty b_off l s w e s' w' :
  mapped (w_super w) → cyanfs_file_split_bio a ty b_off l s w = Some (e, s', w') → mapped (w_super w').
Proof using Type.
  intros Hm. unfold cyanfs_file_split_bio. destruct (bs_bios s !! a) as [b|]; [|done]. cbn [mbind option_bind].
  destruct (split_piece a l s) as [[[x cut] s1]|]; [|done]. cbn [mbind option_bind]. unfold dispatch_piece.
  destruct (bs_bios s1 !! x) as [c|]; [|done]. cbn [mbind option_bind]. destruct ty.
  - destruct (if bool_decide _ then _ else _) as [s2|]; [|done]. cbn [mbind option_bind].
    destruct (bio_endio x s2) as [s3|]; [|done]. cbn [mbind option_bind]. by intros [= _ _ <-].
  - by intros [= _ _ <-].
  - destruct (bi_next b) as [fl|]; [|done]. cbn [mbind option_bind]. unfold cyanfs_requeue.
    destruct (malloc_same w) as [k E]. destruct (cyanfs_malloc w) as [ok w1]. cbn [snd] in E. subst w1.
    destruct ok; cbn [negb]; intros [= _ _ <-]; [|done]. by apply (mapped_same (w_super w)).
Qed.

(** What mapping a request relies on. *)
Definition world_fit (w : world) : Prop := sizes_ok (w_super w) ∧ mapped (w_super w).

Lemma flush_fit ondisk w : world_fit w → world_fit (cyanfs_super_flush ondisk w).2.
Proof using Type.
  intros [Hs Hm]. assert (E : files_by_id (w_super (cyanfs_super_flush ondisk w).2) = files_by_id (w_super w) ∧
                              nodes (w_super (cyanfs_super_flush ondisk w).2) = nodes (w_super w)).
  { unfold cyanfs_super_flush, cyanfs_super_flusher_start. generalize (ondisk || has_flag (w_super w) CYANFS_SUPER_FLAG_FLUSH). intros od.
    cbv zeta. destruct (failed _ || _); [done|]. destruct (malloc_same w) as [l El]. destruct (cyanfs_malloc w) as [ok w1]. cbn [snd] in El.
    subst w1. destruct ok; cbn [negb]; [|done]. destruct (negb (_ || _)); [done|]. by destruct (bool_decide _), od. }
  destruct E as [E1 E2]. split; [unfold sizes_ok; by rewrite E1|by apply (mapped_same (w_super w))].
Qed.

Lemma map_bio_ok a b H s w s' w' :
  bio_ok (a :: H) s → bs_bios s !! a = Some b → bio_fit b → world_fit w →
  cyanfs_file_map_bio errno_to_blk_status race a s w = Some (s', w') → bio_ok H s' ∧ kept s s'.
Proof using Hblk Hrace BLL.
  intros Hok Hb Hfit [Hs Hm]. unfold cyanfs_file_map_bio. rewrite Hb. cbn [mbind option_bind].
  destruct (bi_next b) as [file|] eqn:En; [|done]. cbn [mbind option_bind].
  destruct (bool_decide _ || (bi_size b =? 0)) eqn:Eflush.
  { destruct (release_ok a H s Hok) as (s1 & -> & Hok1 & Hk1). cbn [mbind option_bind]. destruct (failed (cyanfs_file_status _)) eqn:Ef.
    - destruct (endio_error_ok a _ H s1 Hok1 Ef) as (s2 & -> & Hok2 & Hk2). cbn [mbind option_bind]. intros [= <- <-].
      split; [done|by etrans].
    - destruct (submit_ok a H s1 Hok1) as [Hok2 Hk2]. cbn [mbind option_bind]. intros [= <- <-]. split; [done|by etrans]. }
  apply orb_false_elim in Eflush as [_ Hz]. apply Z.eqb_neq in Hz. pose proof Hfit as (_ & Hpos & _).
  unfold SECTOR_SHIFT. rewrite Z.shiftl_mul_pow2 by lia. change (2 ^ 9) with 512. set (off := u64 (bi_sector b * 512)).
  assert (Hoff : 0 ≤ off) by apply u64_range.
  assert (Hmap : mapping a H s off (bi_size b) s).
  { split; [done|]. destruct (Z.eqb_spec (bi_size b) 0); [lia|]. split; [done|]. by exists b. }
  destruct (match bi_op b with REQ_OP_READ => _ | _ => _ end file s off (bi_size b) w) as [[[err s1] w1]|] eqn:Efn; [|done].
  assert (Hend : range_end (mapping a H s) (mapping_failed a H s) off (bi_size b) err s1).
  { destruct (bi_op b);
      [eapply (cyanfs_read_range _ race _ _ (split_bio_keeps a H s))|eapply (cyanfs_write_range _ race _ _ (split_bio_keeps a H s) Hrace)|
       eapply (cyanfs_discard_range _ race _ _ (split_bio_keeps a H s))..]; try exact Efn; try done; try lia.
    intros *. apply split_bio_mapped. }
  cbn [mbind option_bind]. unfold range_end in Hend. destruct (failed err) eqn:Ef.
  - assert (Hfail : mapping_failed a H s s1).
    { destruct Hend as [?|(o' & l' & Hl' & Hk & Hm')]; [done|]. destruct (Z.eqb_spec l' 0); [lia|]. split; [done|]. apply Hm'. }
    destruct Hfail as [Hk1 Hok1]. destruct (endio_error_ok a _ H s1 Hok1 Ef) as (s2 & -> & Hok2 & Hk2). cbn [mbind option_bind].
    intros [= <- <-]. split; [done|by etrans].
  - cbn [mbind option_bind]. intros [= <- <-]. by destruct Hend as [Hk1 Hok1].
Qed.

Lemma flush_map_cases s : flush_map s = CYANFS_MAP_SUBMIT ∨ flush_map s = CYANFS_MAP_REQUEUE.
Proof using Type. unfold flush_map. destruct (_ && _); auto. Qed.

(** A request from the block layer: a whole number of sectors or not, without a file. *)
Definition bio_raw (b : bio) : Prop := bi_next b = None ∧ 0 ≤ bi_size b.

Lemma submit_bio_ok file a b H s w s' w' :
  bio_ok (a :: H) s → bs_bios s !! a = Some b → bio_raw b → world_fit w →
  cyanfs_file_submit_bio errno_to_blk_status race file a s w = Some (s', w') → bio_ok H s' ∧ kept s s'.
Proof using Hblk Hrace BLL.
  intros Hok Hb [Hn Hz] Hw. unfold cyanfs_file_submit_bio. rewrite Hb. cbn [mbind option_bind].
  assert (Hend : ∀ st, st ≠ 0 → (s ← cyanfs_bio_endio_status a st s; Some (s, w)) = Some (s', w') → bio_ok H s' ∧ kept s s').
  { intros st Hst. destruct (endio_status_ok a st H s Hok Hst) as (s1 & -> & Hok1 & Hk1). cbn [mbind option_bind]. by intros [= <- <-]. }
  destruct (op_known (bi_op b)); cbn [negb]; [|by apply Hend].
  unfold SECTOR_SIZE. destruct (Z.eqb_spec (bi_size b mod 512) 0) as [Hm|]; cbn [negb]; [|by apply Hend].
  rewrite (bool_decide_false (is_Some (bi_next b))) by (rewrite Hn; by intros [? ?]). cbn [bug_on mbind option_bind]. clear Hend.
  set (b1 := set_bi_next (Some file) b). set (s1 := put_bio a b1 s).
  destruct (edit_ok a b b1 H s Hok Hb) as [Hok1 Hk1]; [done..|]. fold s1 in Hok1, Hk1.
  assert (Hb1 : bs_bios s1 !! a = Some b1) by (cbn [s1 put_bio set_bs_bios bs_bios]; apply lookup_insert_eq).
  assert (Hfit : bio_fit b1) by done.
  assert (Hmap : ∀ w, world_fit w → cyanfs_file_map_bio errno_to_blk_status race a s1 w = Some (s', w') → bio_ok H s' ∧ kept s s').
  { intros w0 Hw0 E. destruct (map_bio_ok a b1 H s1 w0 s' w' Hok1 Hb1 Hfit Hw0 E) as [? ?]. split; [done|by etrans]. }
  assert (Hfail : ∀ err w, failed err = true →
    (s ← bio_release a s1; s ← cyanfs_bio_endio_error errno_to_blk_status a err s; Some (s, w)) = Some (s', w') → bio_ok H s' ∧ kept s s').
  { intros err w0 He. destruct (release_ok a H s1 Hok1) as (s2 & -> & Hok2 & Hk2). cbn [mbind option_bind].
    destruct (endio_error_ok a err H s2 Hok2 He) as (s3 & -> & Hok3 & Hk3). cbn [mbind option_bind]. intros [= <- <-].
    split; [done|]. etrans; [exact Hk1|]. by etrans. }
  destruct (_ || bi_preflush b); [|by apply Hmap]. pose proof (flush_fit false w Hw) as Hw1. unfold cyanfs_flush.
  destruct (cyanfs_super_flush false w) as [err w1]. cbn [snd] in Hw1. destruct (failed err) eqn:Ef; [by rewrite Ef; apply Hfail|].
  cbn [failed]. destruct (flush_map_cases (w_super w1)) as [-> | ->]; [by apply Hmap|].
  destruct (cyanfs_requeue file a w1) as [e2 w2]. destruct (failed e2) eqn:Ef2; [by apply Hfail|]. intros [= <- <-].
  split; [|etrans; [exact Hk1|by apply same_kept]].
  apply (bio_ok_move a H s1); try done; [apply (parts_second a (bs_submitted s))|].
  intros y c [Hy| ->%list_elem_of_singleton]%elem_of_app Hc; [by apply (bo_fit _ _ Hok1 y)|congruence].
Qed.

(** The device completes a request it has. *)
Lemma device_done_ok a status data s :
  bio_ok [] s → a ∈ bs_submitted s → ∃ s', device_done a status data s = Some s' ∧ bio_ok [] s' ∧ kept s s'.
Proof using BLL.
  intros Hok Ha. destruct (bv_held _ _ (bo_inv _ _ Hok) a) as [b Hb]; [unfold outs; cbn [app]; rewrite !elem_of_app; by left|].
  unfold device_done. rewrite Hb. cbn [mbind option_bind]. set (s1 := set_bs_submitted _ s).
  assert (Hok1 : bio_ok [a] s1).
  { assert (Ep : [a] ++ outs s1 ≡ₚ [] ++ outs s) by (unfold outs; cbn [app]; symmetry; apply (Permutation_app_tail _ (list_take_out_perm a _ Ha))).
    split; [|by rewrite Ep; apply Hok|apply Hok]. apply (bio_inv_perm _ _ _ (symmetry Ep)). apply (bio_inv_same _ s); try done. apply Hok. }
  assert (Hk1 : kept s s1) by (by apply same_kept).
  destruct (Z.eqb_spec status 0) as [->|Hne].
  - set (s2 := if bool_decide _ then _ else _).
    assert (∃ m, s2 = set_bs_mem m s1) as [m E].
    { unfold s2. destruct (bool_decide _); [by eexists|]. exists (bs_mem s1). by destruct s1. }
    destruct (endio_ok a [] s2) as (s3 & -> & Hok3 & Hk3).
    { rewrite E. split; [apply (bio_inv_same _ s1); try done; apply Hok1|apply Hok1|apply Hok1]. }
    exists s3. split; [done|]. split; [done|]. etrans; [exact Hk1|]. etrans; [|exact Hk3]. rewrite E. by apply same_kept.
  - destruct (endio_status_ok a status [] s1 Hok1 Hne) as (s3 & E & Hok3 & Hk3). unfold cyanfs_bio_endio_status in E.
    exists s3. split; [done|]. split; [done|]. by etrans.
Qed.

(** A request waits in the queue no more. *)
Lemma requeued_ok a s w s' w' :
  bio_ok [] s → a ∈ bs_requeued s → world_fit w → __cyanfs_file_map_bio errno_to_blk_status race a s w = Some (s', w') →
  bio_ok [] s' ∧ kept s s'.
Proof using Hblk Hrace BLL.
  intros Hok Ha Hw. destruct (bv_held _ _ (bo_inv _ _ Hok) a) as [b Hb]; [unfold outs; cbn [app]; rewrite !elem_of_app; auto|].
  unfold __cyanfs_file_map_bio. set (s1 := set_bs_requeued _ s). intros E.
  assert (Hperm : bs_requeued s ≡ₚ a :: bs_requeued s1) by (by apply list_take_out_perm).
  assert (Hok1 : bio_ok [a] s1).
  { assert (Ep : [a] ++ outs s1 ≡ₚ [] ++ outs s).
    { unfold outs. cbn [app]. rewrite Hperm. cbn [app]. apply (Permutation_middle (bs_submitted s)). }
    split; [|by rewrite Ep; apply Hok|].
    - apply (bio_inv_perm _ _ _ (symmetry Ep)). apply (bio_inv_same _ s); try done. apply Hok.
    - intros x c Hx. apply Hok. rewrite Hperm. by right. }
  destruct (map_bio_ok a b [] s1 w s' w' Hok1 Hb) as [? ?]; [by apply (bo_fit _ _ Hok a)|done|done|].
  split; [done|]. etrans; [|done]. by apply same_kept.
Qed.
End module.

(** ** Runs

    A request comes in, a queued one is run, or the device completes one; the
    instance of the core may be in any state then. *)
Section runs.
Context (errno_to_blk_status : Z → Z) (race : world → world).

(** [new]: the request that came in. *)
Inductive bio_event (s s' : bio_state) : option Z → Prop :=
  | bt_submit op preflush sector mem file w w' :
      world_fit w → cyanfs_file_submit_bio errno_to_blk_status race file (bs_next s) (bio_alloc op preflush sector mem s).2 w = Some (s', w') →
      bio_event s s' (Some (bs_next s))
  | bt_requeued a w w' :
      a ∈ bs_requeued s → world_fit w → __cyanfs_file_map_bio errno_to_blk_status race a s w = Some (s', w') → bio_event s s' None
  | bt_device a status data : a ∈ bs_submitted s → device_done a status data s = Some s' → bio_event s s' None.

Definition bio_step (s s' : bio_state) : Prop := ∃ new, bio_event s s' new.

(** The requests that came in since the start. *)
Inductive bio_run : list Z → bio_state → Prop :=
  | br_start : bio_run [] no_bios
  | br_step l s s' new : bio_run l s → bio_event s s' new → bio_run (option_list new ++ l) s'.

Context (Hblk : ∀ e, e ≠ 0 → errno_to_blk_status e ≠ 0).
Context (Hrace : ∀ w, mapped (w_super w) → mapped (w_super (race w))).

Lemma alloc_ok op preflush sector mem H s :
  bio_ok H s → bio_ok (bs_next s :: H) (bio_alloc op preflush sector mem s).2 ∧ kept s (bio_alloc op preflush sector mem s).2.
Proof using Type.
  intros [Hi Hnd Hf]. set (b := mk_bio op preflush sector (Z.of_nat (length mem)) 0 0 None None 1 (bs_next s)).
  pose proof (bio_inv_fresh _ _ Hi) as Hfr. split; [split|].
  - apply (bio_inv_same _ (bio_new b s)); try done. by apply (bio_inv_new b (H ++ outs s)).
  - apply NoDup_cons. split; [|done]. intros Hin. destruct (bv_held _ _ Hi _ Hin). congruence.
  - intros x c Hx. cbn [bio_alloc snd bs_bios bs_requeued] in *. rewrite lookup_insert_ne; [by apply Hf|]. intros <-.
    destruct (bv_held _ _ Hi (bs_next s)) as [? ?]; [unfold outs; rewrite !elem_of_app; auto|congruence].
  - etrans; [by apply (new_kept b)|]. by apply same_kept.
Qed.

Lemma start_ok : bio_ok [] no_bios.
Proof using Type. split; [|constructor|done]. split; try done; try (by intros ? Hn; inversion Hn); try (by intros ? ? Hn; inversion Hn). apply NoDup_nil_2. Qed.

(** The roots that came in are there or completed. *)
Definition accounted (l : list Z) (s : bio_state) : Prop :=
  ∀ r, r ∈ l → (∃ b, bs_bios s !! r = Some b ∧ bi_parent b = None) ∨ r ∈ (bs_done s).*1.

Lemma accounted_kept l s s' : accounted l s → kept s s' → accounted l s'.
Proof using Type.
  intros Ha Hk r Hr. destruct (Ha r Hr) as [(b & Hb & Hp)|Hd]; [by apply (kp_root _ _ Hk r b)|]. right.
  apply list_elem_of_fmap in Hd as (y & -> & Hy). apply list_elem_of_fmap. exists y. split; [done|]. by apply (kp_done _ _ Hk).
Qed.

Lemma bio_event_ok l s s' new :
  bio_ok [] s → accounted l s → bio_event s s' new → bio_ok [] s' ∧ kept s s' ∧ accounted (option_list new ++ l) s'.
Proof using Hblk Hrace BLL.
  intros Hok Ha [op pre sec mem file w w' Hw E|a w w' Hin Hw E|a st data Hin E].
  - destruct (alloc_ok op pre sec mem [] s Hok) as [Hok1 Hk1].
    destruct (submit_bio_ok errno_to_blk_status race Hblk Hrace file (bs_next s) (mk_bio op pre sec (Z.of_nat (length mem)) 0 0 None None 1 (bs_next s))
      [] _ w s' w' Hok1) as [Hok' Hk']; [apply lookup_insert_eq|split; [done|cbn; lia]|done|done|]. split_and!; [done|by etrans|].
    apply (accounted_kept _ (bio_alloc op pre sec mem s).2); [|done]. intros r [->|Hr]%elem_of_cons; [|by apply (accounted_kept l s)].
    left. eexists. split; [apply lookup_insert_eq|done].
  - destruct (requeued_ok _ race Hblk Hrace a s w s' w' Hok Hin Hw E). split_and!; [done|done|by eapply accounted_kept].
  - destruct (device_done_ok a st data s Hok Hin) as (s1 & E1 & ? & ?). rewrite E in E1. injection E1 as <-.
    split_and!; [done|done|by eapply accounted_kept].
Qed.

Lemma bio_run_ok l s : bio_run l s → bio_ok [] s ∧ accounted l s.
Proof using Hblk Hrace BLL.
  induction 1 as [|l s s' new _ [Hok Ha] Hst]; [split; [exact start_ok|]; intros r Hr; inversion Hr|].
  destruct (bio_event_ok l s s' new Hok Ha Hst) as (? & _ & ?). by split.
Qed.

(** A request belongs to one from outside that is not completed. *)
Lemma root_live L s a b : bio_inv L s → bs_bios s !! a = Some b → is_Some (bs_bios s !! bi_root b).
Proof using Type.
  intros Hi. remember (Z.to_nat (a - bi_root b)) as n eqn:En. revert a b En. induction (lt_wf n) as [n _ IH]. intros a b -> Hb.
  destruct (bi_parent b) as [p|] eqn:Ep; [|rewrite (bv_top _ _ Hi a b Hb Ep); eauto].
  destruct (bv_up _ _ Hi a b p Hb Ep) as (Hlt & pb & Hpb & Er). rewrite <- Er. pose proof (bv_fresh _ _ Hi p pb Hpb).
  apply (IH (Z.to_nat (p - bi_root pb))) with (a := p); [rewrite <- Er; lia|done|done].
Qed.

(** With nobody left to complete a request there is none: the newest one has
    nothing chained to it. *)
Lemma no_obligation s : bio_inv [] s → bs_bios s = ∅.
Proof using Type.
  intros Hi. apply map_empty. intros a. destruct (bs_bios s !! a) as [b|] eqn:Hb; [exfalso|done].
  remember (Z.to_nat (bs_next s - a)) as n eqn:En. revert a b En Hb. induction (lt_wf n) as [n _ IH]. intros a b -> Hb.
  pose proof (bv_count _ _ Hi a b Hb) as E. pose proof (bv_wait _ _ Hi a b Hb). change (occurs a []) with 0 in E.
  destruct (map_count_exists (λ b, bi_parent b = Some a) (bs_bios s)) as (c & d & Hc & Hp); [unfold children in E; lia|].
  destruct (bv_up _ _ Hi c d a Hc Hp) as [Hlt _]. pose proof (bv_fresh _ _ Hi c d Hc).
  by apply (IH (Z.to_nat (bs_next s - c)) ltac:(lia) c d).
Qed.

Lemma NoDup_fst_inj (l : list (Z * Z)) r x y : NoDup l.*1 → (r, x) ∈ l → (r, y) ∈ l → x = y.
Proof using Type.
  intros Hnd Hx Hy. apply elem_of_list_to_map_1 in Hx, Hy; [|done..]. congruence.
Qed.


(** A piece whose queueing failed is lost.  The request it was cut from is
    not completed, in that state or any later one: whoever made it waits for
    ever. *)
Theorem requeue_failure_hangs l s s' x :
  bio_run l s → rtc bio_step s s' → x ∈ bs_dropped s → ∃ b, bs_bios s' !! x = Some b ∧ bi_root b ∉ (bs_done s').*1.
Proof using Hblk Hrace BLL.
  intros Hr Hs Hx. destruct (bio_run_ok l s Hr) as [Hok _].
  assert (Hok' : bio_ok [] s' ∧ x ∈ bs_dropped s').
  { clear Hr. induction Hs as [|s1 s2 s3 [new Hst] _ IH]; [done|].
    destruct (bio_event_ok [] s1 s2 new Hok) as (Hok2 & Hk & _); [intros r Hn; inversion Hn|done|]. apply IH; [|done].
    by apply (kp_dropped _ _ Hk). }
  destruct Hok' as [Hok' Hx']. pose proof (bo_inv _ _ Hok') as Hi. destruct (bv_held _ _ Hi x) as [b Hb].
  { unfold outs. rewrite !elem_of_app. auto. }
  exists b. split; [done|]. intros Hd. apply list_elem_of_fmap in Hd as ([r st] & Er & Hin). cbn in Er.
  destruct (bv_over _ _ Hi r st Hin) as (Hn & _). destruct (root_live _ _ x b Hi Hb). congruence.
Qed.
End runs.
End layer.

(** A block layer that does what is documented. *)
#[export] Instance documented_layer : BlockLayer := {|
  bio_endio := endio_effect; bio_split := split_effect; bio_chain := chain_effect; zero_fill_bio := zero_fill_effect; submit_bio := submit_effect |}.
#[export] Instance documented_laws : BlockLayerLaws documented_layer.
Proof. by split. Qed.

(** ** Examples: two sectors on both sides of the end of the first extent

    Reading them sends one piece to the device; the other one is in a hole.
    Writing them copies the extent first, and fails to queue the piece. *)
Definition ex_blk_status (e : Z) : Z := if e =? 0 then 0 else BLK_STS_IOERR.

Definition ex_submit (op : req_op) (w : world) : option (bio_state * world) :=
  cyanfs_file_submit_bio ex_blk_status (λ w, w) 2 1 (bio_alloc op false 2047 (replicate 1024 7) no_bios).2 w.
Definition ex_no_memory : world := set_w_malloc [true; true; false] ex_world.

Lemma ex_world_fit l : world_fit (set_w_malloc l ex_world).
Proof.
  split; [|exact (wf_mapped _ _ ex_opened_wf)]. intros id f Hf. pose proof (file_size_bound _ _ _ _ ex_opened_wf Hf) as [_ H].
  etrans; [exact H|]. by vm_compute.
Qed.

Lemma ex_blk_ok e : e ≠ 0 → ex_blk_status e ≠ 0.
Proof. intros He. unfold ex_blk_status. by destruct (Z.eqb_spec e 0). Qed.

(** The requests after reading, after the device is done, and after writing. *)
Definition ex_reading : bio_state := from_option fst no_bios (ex_submit REQ_OP_READ ex_world).
Definition ex_read : bio_state := default no_bios (device_done 2 0 (replicate 512 5) ex_reading).
Definition ex_dropped : bio_state := from_option fst no_bios (ex_submit REQ_OP_WRITE ex_no_memory).

Lemma submit_run op w : world_fit w → bool_decide (is_Some (ex_submit op w)) = true →
  bio_run ex_blk_status (λ w, w) [1] (from_option fst no_bios (ex_submit op w)).
Proof.
  intros Hw Hs%bool_decide_eq_true_1. destruct (ex_submit op w) as [[s w']|] eqn:E; [|by destruct Hs].
  apply (br_step _ _ [] no_bios s (Some 1)); [constructor|]. by apply (bt_submit _ _ no_bios s op false 2047 (replicate 1024 7) 2 w w').
Qed.

Lemma ex_read_run : bio_run ex_blk_status (λ w, w) [1] ex_read.
Proof.
  assert (H1 : bio_run ex_blk_status (λ w, w) [1] ex_reading).
  { apply submit_run; [apply (ex_world_fit [])|]. vm_compute. reflexivity. }
  apply (br_step _ _ [1] ex_reading ex_read None H1). apply (bt_device _ _ _ _ 2 0 (replicate 512 5)).
  - apply (bool_decide_unpack _). vm_compute. exact I.
  - assert (Hs : bool_decide (is_Some (device_done 2 0 (replicate 512 5) ex_reading)) = true) by (vm_compute; reflexivity).
    apply bool_decide_eq_true_1 in Hs as [x Hx]. unfold ex_read. by rewrite Hx.
Qed.


Lemma requeue_failure_hangs_witness : ∃ b, bs_bios ex_dropped !! 2 = Some b ∧ bi_root b ∉ (bs_done ex_dropped).*1.
Proof.
  apply (requeue_failure_hangs ex_blk_status (λ w, w) ex_blk_ok (λ w H, H) [1] ex_dropped ex_dropped 2).
  - apply submit_run; [apply ex_world_fit|]. vm_compute. reflexivity.
  - apply rtc_refl.
  - apply (bool_decide_unpack _). vm_compute. exact I.
Defined.

Example ex_read_memory :
  bs_mem ex_read !! 1 = Some (replicate 512 5 ++ replicate 512 0) ∧ bs_done ex_read = [(1, 0)] ∧
  bs_dropped ex_dropped = [2] ∧ bs_submitted ex_dropped = [] ∧ bs_requeued ex_dropped = [] ∧ bs_done ex_dropped = [].
Proof. vm_compute. split_and!; reflexivity. Qed.
