(* ===== verification/Backend.v ===== *)
(** * Backend: the devices of the Linux module

    The second part of [linux/main.c]: the executor of the core's tasks on a
    block device, the work item that runs it and those who wait for it, and a
    backend from its opening to its closing.  The kernel is not part of the
    repository: what the module uses of it is the class [Kernel]; a call gives
    0 or a negative error number. *)
From Stdlib Require Import ZArith Lia.
From S2P Require Import Prelude Count Disk Base Journal Types Super World JournalIO Discard Compact Flusher Api ReadWrite System Errno Bio.

(** ** The kernel *)

(** A block device is known by its number.  [k_claimed]: the devices somebody
    holds exclusively; [k_pages]: the pages handed out; [k_users]: the
    references that keep the module loaded; [k_disks]: the disks of the module
    that the system knows; [k_bytes]: what the devices hold. *)
Class Kernel (K : Type) := {
  k_claimed : K → gset Z;
  k_pages : K → Z;
  k_users : K → Z;
  k_disks : K → gset Z;
  k_bytes : K → Z → disk;
  kzalloc : K → bool * K;
  alloc_page : K → bool * K;
  put_page : K → K;
  bdev_open : Z → K → Z * K;
  bdev_release : Z → K → K;
  bdev_logical_block_size : Z → Z;
  bdev_physical_block_size : Z → Z;
  bdev_nr_bytes : Z → Z;
  bdev_max_discard_sectors : Z → Z;
  submit_bio_read : Z → Z → Z → K → Z * list Z * K;
  submit_bio_write : Z → Z → list Z → K → Z * K;
  blkdev_issue_discard : Z → Z → Z → K → Z * K;
  blkdev_issue_flush : Z → K → Z * K;
  module_get : K → K;
  module_put : K → K;
  idr_alloc : gset Z → K → Z * K;
  blk_alloc_disk : K → Z * K;
  blk_cleanup_disk : K → K;
  device_add_disk : Z → K → Z * K;
  del_gendisk : Z → K → K }.

Definition CYANFS_BIO_MAX_VECS : Z := 256.
Definition PAGE_SHIFT : Z := 12.
Definition PAGE_SIZE : Z := 4096.
Definition CYANFS_BIO_MAX_SIZE : Z := Z.shiftl CYANFS_BIO_MAX_VECS PAGE_SHIFT.

(** [be_work] and [be_flush_work]: the work items that are queued; [be_waiters]:
    the completions to call after the next run. *)
Record cyanfs_backend := mk_backend {
  be_ref : Z; be_super : world; be_dev_id : Z; be_work : bool; be_flush_work : bool; be_waiters : list Z }.

Definition set_be_ref (x : Z) (b : cyanfs_backend) : cyanfs_backend :=
  mk_backend x (be_super b) (be_dev_id b) (be_work b) (be_flush_work b) (be_waiters b).
Definition set_be_super (x : world) (b : cyanfs_backend) : cyanfs_backend :=
  mk_backend (be_ref b) x (be_dev_id b) (be_work b) (be_flush_work b) (be_waiters b).
Definition set_be_work (x : bool) (b : cyanfs_backend) : cyanfs_backend :=
  mk_backend (be_ref b) (be_super b) (be_dev_id b) x (be_flush_work b) (be_waiters b).
Definition set_be_flush_work (x : bool) (b : cyanfs_backend) : cyanfs_backend :=
  mk_backend (be_ref b) (be_super b) (be_dev_id b) (be_work b) x (be_waiters b).
Definition set_be_waiters (x : list Z) (b : cyanfs_backend) : cyanfs_backend :=
  mk_backend (be_ref b) (be_super b) (be_dev_id b) (be_work b) (be_flush_work b) x.

Section backend.
Context {K : Type} `{!Kernel K} {BL : BlockLayer} (errno_to_blk_status : Z → Z) (race : world → world).

(** ** The executor *)
Definition cyanfs_backend_read (dev b_off size : Z) (k : K) : Z * list Z * K := submit_bio_read dev (Z.shiftr b_off SECTOR_SHIFT) size k.
Definition cyanfs_backend_write (dev b_off : Z) (data : list Z) (k : K) : Z * K := submit_bio_write dev (Z.shiftr b_off SECTOR_SHIFT) data k.

(** A round copies at least a byte, so [fuel] can be [len]. *)
Fixpoint copy_loop (fuel : nat) (dev b_off_src b_off_dst len : Z) (k : K) : option (Z * K) :=
  if len =? 0 then Some (0, k) else
  match fuel with
  | O => None
  | S fuel =>
      let l := Z.min len CYANFS_BIO_MAX_SIZE in
      let '(err, data, k) := cyanfs_backend_read dev b_off_src l k in
      if negb (err =? 0) then Some (err, k) else
      let '(err, k) := cyanfs_backend_write dev b_off_dst data k in
      if negb (err =? 0) then Some (err, k) else
      copy_loop fuel dev (u64 (b_off_src + l)) (u64 (b_off_dst + l)) (u64 (len - l)) k
  end.

Definition cyanfs_backend_copy (dev b_off_src b_off_dst len : Z) (k : K) : option (Z * K) :=
  copy_loop (Z.to_nat len) dev b_off_src b_off_dst len k.

(** The I/O of a task; the completion a requeued callback calls.  The callback
    of a request maps it, the others are completions. *)
Definition backend_io (dev : Z) (ty : cyanfs_task_type_t) (k : K) (s : bio_state) (w : world)
    : option (Z * option Z * K * bio_state * world) :=
  match ty with
  | CYANFS_TASK_NOP => Some (0, None, k, s, w)
  | CYANFS_TASK_READ off len buf =>
      c ← get_cursor buf w;
      let '(err, data, k) := cyanfs_backend_read dev off len k in
      Some (err, None, k, s, upd_cursor_of buf (set_cur_page (data ++ drop (length data) (cur_page c))) w)
  | CYANFS_TASK_WRITE off len buf =>
      c ← get_cursor buf w;
      let '(err, k) := cyanfs_backend_write dev off (take (Z.to_nat len) (cur_page c)) k in
      Some (err, None, k, s, w)
  | CYANFS_TASK_COPY src dst len => '(err, k) ← cyanfs_backend_copy dev src dst len k; Some (err, None, k, s, w)
  | CYANFS_TASK_DISCARD off len =>
      let '(err, k) := blkdev_issue_discard dev (Z.shiftr off SECTOR_SHIFT) (Z.shiftr len SECTOR_SHIFT) k in
      Some (err, None, k, s, w)
  | CYANFS_TASK_FLUSH => let '(err, k) := blkdev_issue_flush dev k in Some (err, None, k, s, w)
  | CYANFS_TASK_REQUEUE _ ctx =>
      if bool_decide (ctx ∈ bs_requeued s) then
        '(s, w) ← __cyanfs_file_map_bio errno_to_blk_status race ctx s w; Some (0, None, k, s, w)
      else Some (0, Some ctx, k, s, w)
  end.

(** The completions that were called, and whether there was a task. *)
Definition loop_step (dev : Z) (k : K) (s : bio_state) (w : world) : option (bool * list Z * K * bio_state * world) :=
  let '(t, sup) := cyanfs_super_get_task (w_super w) in
  match t with
  | None => Some (false, [], k, s, w)
  | Some t =>
      '(err, c, k, s, w) ← backend_io dev (t_type t) k s (set_w_super sup w);
      w ← cyanfs_super_task_done t (status_of err) w;
      Some (true, option_list c, k, s, w)
  end.

(** [None] also when [fuel] is used up. *)
Fixpoint cyanfs_backend_loop (fuel : nat) (dev : Z) (k : K) (s : bio_state) (w : world) : option (list Z * K * bio_state * world) :=
  match fuel with
  | O => None
  | S fuel =>
      '(more, c, k, s, w) ← loop_step dev k s w;
      if (more : bool) then '(cs, k, s, w) ← cyanfs_backend_loop fuel dev k s w; Some (c ++ cs, k, s, w) else Some ([], k, s, w)
  end.

(** ** The work item *)
Context (fuel : nat).

Definition queue_work (b : cyanfs_backend) : cyanfs_backend := set_be_work true b.

(** The completions: of the callbacks, then of those who wait. *)
Definition cyanfs_backend_work (k : K) (s : bio_state) (b : cyanfs_backend) : option (list Z * K * bio_state * cyanfs_backend) :=
  let sync_waiters := be_waiters b in
  let b := set_be_waiters [] (set_be_work false b) in
  '(cs, k, s, w) ← cyanfs_backend_loop fuel (be_dev_id b) k s (be_super b);
  Some (cs ++ sync_waiters, k, s, set_be_super w b).

(** The completion on the stack of the caller. *)
Definition stack_waiter : Z := 0.

(** [in_work]: the caller is the work item itself.  The work item runs while the
    caller waits; [None] when that would be for ever. *)
Definition cyanfs_backend_wait_tasks (in_work : bool) (k : K) (s : bio_state) (b : cyanfs_backend)
    : option (Z * K * bio_state * cyanfs_backend) :=
  if in_work then Some (- EDEADLK, k, s, b) else
  let b := queue_work (set_be_waiters (be_waiters b ++ [stack_waiter]) b) in
  '(cs, k, s, b) ← cyanfs_backend_work k s b;
  bug_on (negb (bool_decide (stack_waiter ∈ cs)));;
  Some (0, k, s, b).

Definition cyanfs_backend_sync (in_work : bool) (k : K) (s : bio_state) (b : cyanfs_backend)
    : option (Z * K * bio_state * cyanfs_backend) :=
  if in_work then Some (- EDEADLK, k, s, b) else
  let '(err, w) := cyanfs_super_flush true (be_super b) in
  let b := set_be_super w b in
  if failed err then Some (errno_of err, k, s, b) else
  '(err, k, s, b) ← cyanfs_backend_wait_tasks in_work k s b;
  if negb (err =? 0) then Some (err, k, s, b) else
  Some (errno_of (cyanfs_super_status (w_super (be_super b))), k, s, b).

Definition cyanfs_backend_flush_work (b : cyanfs_backend) : cyanfs_backend :=
  let '(_, w) := cyanfs_super_flush false (be_super b) in set_be_flush_work true (set_be_super w b).

(** The callback of the core for a new task. *)
Definition cyanfs_new_task (b : cyanfs_backend) : cyanfs_backend := queue_work b.

(** ** Opening and closing *)

(** The pages for copies: how many there are, and whether that is all. *)
Fixpoint alloc_bvecs (n : nat) (k : K) : nat * bool * K :=
  match n with
  | O => (O, true, k)
  | S n =>
      let '(ok, k) := alloc_page k in
      if negb ok then (O, false, k) else
      let '(got, ok, k) := alloc_bvecs n k in (S got, ok, k)
  end.

Fixpoint put_bvecs (n : nat) (k : K) : K := match n with O => k | S n => put_bvecs n (put_page k) end.

(** [mallocs]: the outcomes of the core's allocations. *)
Definition cyanfs_backend_open (dev : Z) (mallocs : list bool) (k : K) : option (Z * option cyanfs_backend * K) :=
  let '(ok, k) := kzalloc k in
  if negb ok then Some (- ENOMEM, None, k) else
  let '(pages, ok, k) := alloc_bvecs (Z.to_nat CYANFS_BIO_MAX_VECS) k in
  let backend_out (error : Z) (k : K) := Some (error, None, put_bvecs pages k) in
  if negb ok then backend_out (- ENOMEM) k else
  let '(error, k) := bdev_open dev k in
  if negb (error =? 0) then backend_out error k else
  let dev_out (error : Z) (k : K) := backend_out error (bdev_release dev k) in
  if negb (bdev_logical_block_size dev =? SECTOR_SIZE) || (CYANFS_FILE_ALIGN_SIZE <? bdev_physical_block_size dev)
  then dev_out (- EMEDIUMTYPE) k else
  match cyanfs_super_open (bdev_nr_bytes dev) (negb (bdev_max_discard_sectors dev =? 0)) true true mallocs with
  | None => dev_out (- ENOMEM) k
  | Some w =>
      '(_, k, _, w) ← cyanfs_backend_loop fuel dev k no_bios w;
      if negb (cyanfs_super_is_ready (w_super w)) then _ ← cyanfs_super_close (w_super w); dev_out (- EIO) k else
      let w := upd_super (cyanfs_super_set_new_task_callback (Some 0)) w in
      Some (0, Some (mk_backend 1 w dev false true []), module_get k)
  end.

Definition cyanfs_backend_close (b : cyanfs_backend) (k : K) (s : bio_state) : option (K * bio_state) :=
  let b := set_be_flush_work false b in
  let '(_, w) := cyanfs_super_flush true (be_super b) in
  let b := queue_work (set_be_super w b) in
  '(_, k, s, b) ← cyanfs_backend_work k s b;
  _ ← cyanfs_super_close (w_super (be_super b));
  Some (module_put (put_bvecs (Z.to_nat CYANFS_BIO_MAX_VECS) (bdev_release (be_dev_id b) k)), s).
End backend.
