(* ===== verification/BackendSpec.v ===== *)
(** * BackendSpec: the executor of the Linux module, and what a backend holds

    Given what the kernel documents about its calls: a copy made in parts is
    the copy the core asked for, mounting recovers the journal of the device,
    and a backend gives back everything it took, on every way out. *)
From Stdlib Require Import ZArith Lia.
From S2P Require Import Prelude Count Disk Base Journal Spec Types Super SuperInv SuperOps Replay World JournalIO JournalScan Discard Compact Flusher Api ApiSpec ReadWrite System Recovery Errno Bio Backend.

(** ** The kernel *)

(** What the module holds of the kernel. *)
Definition k_held {K} `{!Kernel K} (k : K) : gset Z * Z * Z * gset Z := (k_claimed k, k_pages k, k_users k, k_disks k).

(** A device is opened by one holder at a time; an id is not in use; the other
    calls neither take nor give anything back. *)
Class KernelLaws (K : Type) `{!Kernel K} : Prop := {
  kl_kzalloc (k k' : K) ok : kzalloc k = (ok, k') → k_held k' = k_held k ∧ k_bytes k' = k_bytes k;
  kl_alloc_page (k k' : K) ok : alloc_page k = (ok, k') →
    k_held k' = (k_claimed k, k_pages k + Z.b2z ok, k_users k, k_disks k) ∧ k_bytes k' = k_bytes k;
  kl_put_page (k : K) : k_held (put_page k) = (k_claimed k, k_pages k - 1, k_users k, k_disks k) ∧ k_bytes (put_page k) = k_bytes k;
  kl_open dev (k k' : K) err : bdev_open dev k = (err, k') → k_bytes k' = k_bytes k ∧
    if err =? 0 then dev ∉ k_claimed k ∧ k_held k' = ({[dev]} ∪ k_claimed k, k_pages k, k_users k, k_disks k) else k_held k' = k_held k;
  kl_release dev (k : K) :
    k_held (bdev_release dev k) = (k_claimed k ∖ {[dev]}, k_pages k, k_users k, k_disks k) ∧ k_bytes (bdev_release dev k) = k_bytes k;
  kl_read dev sector size (k k' : K) err data : submit_bio_read dev sector size k = (err, data, k') →
    k_held k' = k_held k ∧ k_bytes k' = k_bytes k ∧ (err = 0 → data = disk_read (k_bytes k dev) (sector * 512) size);
  kl_write dev sector data (k k' : K) err : submit_bio_write dev sector data k = (err, k') →
    k_held k' = k_held k ∧ same_outside (sector * 512) (Z.of_nat (length data)) (k_bytes k dev) (k_bytes k' dev) ∧
    (err = 0 → k_bytes k' dev ≡ disk_write (k_bytes k dev) (sector * 512) data);
  kl_discard dev sector n (k k' : K) err : blkdev_issue_discard dev sector n k = (err, k') → k_held k' = k_held k;
  kl_flush dev (k k' : K) err : blkdev_issue_flush dev k = (err, k') → k_held k' = k_held k ∧ k_bytes k' = k_bytes k;
  kl_get (k : K) : k_held (module_get k) = (k_claimed k, k_pages k, k_users k + 1, k_disks k) ∧ k_bytes (module_get k) = k_bytes k;
  kl_put (k : K) : k_held (module_put k) = (k_claimed k, k_pages k, k_users k - 1, k_disks k) ∧ k_bytes (module_put k) = k_bytes k;
  kl_idr used (k k' : K) r : idr_alloc used k = (r, k') → k_held k' = k_held k ∧ k_bytes k' = k_bytes k ∧ (0 ≤ r → r ∉ used);
  kl_alloc_disk (k k' : K) r : blk_alloc_disk k = (r, k') → k_held k' = k_held k ∧ k_bytes k' = k_bytes k;
  kl_cleanup_disk (k : K) : k_held (blk_cleanup_disk k) = k_held k ∧ k_bytes (blk_cleanup_disk k) = k_bytes k;
  kl_add_disk id (k k' : K) r : device_add_disk id k = (r, k') → k_bytes k' = k_bytes k ∧
    k_held k' = (k_claimed k, k_pages k, k_users k, if r <? 0 then k_disks k else {[id]} ∪ k_disks k);
  kl_del_disk id (k : K) :
    k_held (del_gendisk id k) = (k_claimed k, k_pages k, k_users k, k_disks k ∖ {[id]}) ∧ k_bytes (del_gendisk id k) = k_bytes k }.

(** ** Copies in parts *)
Section copy.
Context {K : Type} `{!Kernel K, !KernelLaws K}.

Lemma max_size_eq : CYANFS_BIO_MAX_SIZE = 1048576.
Proof using Type. done. Qed.

Lemma sectors_of off : off mod 512 = 0 → Z.shiftr off SECTOR_SHIFT * 512 = off.
Proof using Type. intros Hm. unfold SECTOR_SHIFT. rewrite Z.shiftr_div_pow2 by lia. pose proof (Z.div_mod off 512 ltac:(lia)). change (2 ^ 9) with 512. lia. Qed.

Lemma disk_copy_shift d src dst len l : 0 ≤ l ≤ len → src + len ≤ dst ∨ dst + len ≤ src ∨ l = len →
  disk_copy (disk_copy d src dst l) (src + l) (dst + l) (len - l) ≡ disk_copy d src dst len.
Proof using Type.
  intros Hl Hd x. unfold disk_copy.
  destruct (Z.leb_spec (dst + l) x), (Z.ltb_spec x (dst + l + (len - l))), (Z.leb_spec dst x), (Z.ltb_spec x (dst + len)),
    (Z.ltb_spec x (dst + l)); cbn [andb]; try lia; try done.
  - destruct (Z.leb_spec dst (x - (dst + l) + (src + l))), (Z.ltb_spec (x - (dst + l) + (src + l)) (dst + l)); cbn [andb]; f_equal; lia.
Qed.

(** How the parts of a copy may lie. *)
Definition copy_fit (src dst len : Z) : Prop := src + len ≤ dst ∨ dst + len ≤ src ∨ len ≤ CYANFS_BIO_MAX_SIZE.

Lemma copy_loop_ok fuel dev src dst len k :
  0 ≤ src → 0 ≤ dst → 0 ≤ len → src mod 512 = 0 → dst mod 512 = 0 → src + len < 2 ^ 64 → dst + len < 2 ^ 64 → copy_fit src dst len →
  (Z.to_nat len ≤ fuel)%nat →
  ∃ err k', copy_loop fuel dev src dst len k = Some (err, k') ∧ k_held k' = k_held k ∧
    same_outside dst len (k_bytes k dev) (k_bytes k' dev) ∧ (err = 0 → k_bytes k' dev ≡ disk_copy (k_bytes k dev) src dst len).
Proof using KernelLaws0.
  revert src dst len k. induction fuel as [|fuel IH]; intros src dst len k Hs Hd Hl Hms Hmd Hbs Hbd Hfit Hf; cbn [copy_loop];
    (destruct (Z.eqb_spec len 0) as [->|Hne];
      [exists 0, k; split_and!; try done; intros _ x; unfold disk_copy; destruct (Z.leb_spec dst x), (Z.ltb_spec x (dst + 0)); cbn [andb]; try done; lia|]);
    [lia|]. rewrite max_size_eq. set (l := Z.min len 1048576). assert (Hlr : 0 < l ≤ len) by lia.
  unfold cyanfs_backend_read, cyanfs_backend_write.
  destruct (submit_bio_read dev (Z.shiftr src SECTOR_SHIFT) l k) as [[e1 data] k1] eqn:E1. destruct (kl_read _ _ _ _ _ _ _ E1) as (Hh1 & Hb1 & Hr1).
  rewrite sectors_of in Hr1 by done. destruct (Z.eqb_spec e1 0) as [->|Hn1]; cbn [negb]; [|exists e1, k1; split_and!; [done|done|by rewrite Hb1|done]].
  specialize (Hr1 eq_refl). destruct (submit_bio_write dev (Z.shiftr dst SECTOR_SHIFT) data k1) as [e2 k2] eqn:E2.
  destruct (kl_write _ _ _ _ _ _ E2) as (Hh2 & Ho2 & Hw2). rewrite sectors_of in Ho2, Hw2 by done. rewrite Hb1 in Ho2, Hw2.
  assert (Hlen : Z.of_nat (length data) = l) by (rewrite Hr1, length_disk_read; lia). rewrite Hlen in Ho2.
  assert (Hout : same_outside dst len (k_bytes k dev) (k_bytes k2 dev)) by (intros x Hx; apply Ho2; lia).
  destruct (Z.eqb_spec e2 0) as [->|Hn2]; cbn [negb]; [|exists e2, k2; split_and!; [done|congruence|done|done]].
  rewrite !u64_small by lia. specialize (Hw2 eq_refl). rewrite Hr1, disk_copy_write in Hw2.
  assert (Hml : l mod 512 = 0 ∨ l = len) by (unfold l; destruct (Z.min_spec len 1048576) as [[_ ->]|[_ ->]]; [by right|by left]).
  destruct (decide (l = len)) as [El|Hnl].
  - rewrite El, Z.sub_diag. exists 0, k2. split; [by destruct fuel|]. split_and!; [congruence|done|]. intros _. by rewrite Hw2, El.
  - destruct Hml as [Hml|?]; [|done]. unfold copy_fit in Hfit. rewrite max_size_eq in Hfit.
    destruct (IH (src + l) (dst + l) (len - l) k2) as (err & k' & E & Hh & Ho & Hc); [lia|lia|lia| | |lia|lia| |lia|].
    + by rewrite Zplus_mod, Hms, Hml.
    + by rewrite Zplus_mod, Hmd, Hml.
    + unfold copy_fit. lia.
    + exists err, k'. split_and!; [done|congruence| |].
      * intros x Hx. rewrite (Ho x) by lia. apply Hout. lia.
      * intros He. rewrite (Hc He), Hw2. apply disk_copy_shift; lia.
Qed.

(** C12: the copy of the Linux module, made in parts of at most 1 MiB through its
    own pages, ends for every length.  When it reports success the destination
    holds what the source held; when a part fails nothing outside of the
    destination was touched; and it takes nothing from the kernel.  The ranges
    are disjoint, or the copy is a single part. *)
Theorem backend_copy_copies dev src dst len k :
  0 ≤ src → 0 ≤ dst → 0 ≤ len → src mod 512 = 0 → dst mod 512 = 0 → src + len < 2 ^ 64 → dst + len < 2 ^ 64 →
  src + len ≤ dst ∨ dst + len ≤ src ∨ len ≤ CYANFS_BIO_MAX_SIZE →
  ∃ err k', cyanfs_backend_copy dev src dst len k = Some (err, k') ∧ k_held k' = k_held k ∧
    same_outside dst len (k_bytes k dev) (k_bytes k' dev) ∧ (err = 0 → k_bytes k' dev ≡ disk_copy (k_bytes k dev) src dst len).
Proof using KernelLaws0. intros. by apply copy_loop_ok. Qed.
End copy.

(** ** The executor *)
Lemma claim_release (dev : Z) (c : gset Z) : dev ∉ c → ({[dev]} ∪ c) ∖ {[dev]} = c.
Proof. set_solver. Qed.

Section executor.
Context {K : Type} `{!Kernel K, !KernelLaws K} {BL : BlockLayer} (blk : Z → Z) (race : world → world).

Lemma copy_loop_held fuel dev src dst len (k : K) err k' : copy_loop fuel dev src dst len k = Some (err, k') → k_held k' = k_held k.
Proof using KernelLaws0.
  revert src dst len k. induction fuel as [|fuel IH]; intros src dst len k; cbn [copy_loop];
    (destruct (len =? 0); [by intros [= _ <-]|]); [done|]. unfold cyanfs_backend_read, cyanfs_backend_write.
  destruct (submit_bio_read _ _ _ k) as [[e1 data] k1] eqn:E1. destruct (kl_read _ _ _ _ _ _ _ E1) as (Hh1 & _).
  destruct (negb (e1 =? 0)); [by intros [= _ <-]|]. destruct (submit_bio_write _ _ _ k1) as [e2 k2] eqn:E2.
  destruct (kl_write _ _ _ _ _ _ E2) as (Hh2 & _). destruct (negb (e2 =? 0)); [intros [= _ <-]; congruence|].
  intros H. rewrite (IH _ _ _ _ H). congruence.
Qed.

Lemma backend_io_held dev ty (k : K) s w err c k' s' w' : backend_io blk race dev ty k s w = Some (err, c, k', s', w') → k_held k' = k_held k.
Proof using KernelLaws0.
  destruct ty as [|off len buf|off len buf|src dst len| |off len|f ctx]; cbn [backend_io].
  - by intros [= _ _ <- _ _].
  - destruct (get_cursor buf w) as [cur|]; [|done]. cbn [mbind option_bind]. unfold cyanfs_backend_read.
    destruct (submit_bio_read _ _ _ k) as [[e1 data] k1] eqn:E1. intros [= _ _ <- _ _]. apply (kl_read _ _ _ _ _ _ _ E1).
  - destruct (get_cursor buf w) as [cur|]; [|done]. cbn [mbind option_bind]. unfold cyanfs_backend_write.
    destruct (submit_bio_write _ _ _ k) as [e1 k1] eqn:E1. intros [= _ _ <- _ _]. apply (kl_write _ _ _ _ _ _ E1).
  - unfold cyanfs_backend_copy. destruct (copy_loop _ _ _ _ _ k) as [[e1 k1]|] eqn:E1; [|done]. cbn [mbind option_bind]. intros [= _ _ <- _ _].
    by eapply copy_loop_held.
  - destruct (blkdev_issue_flush _ k) as [e1 k1] eqn:E1. intros [= _ _ <- _ _]. apply (kl_flush _ _ _ _ E1).
  - destruct (blkdev_issue_discard _ _ _ k) as [e1 k1] eqn:E1. intros [= _ _ <- _ _]. apply (kl_discard _ _ _ _ _ _ E1).
  - destruct (bool_decide _); [|by intros [= _ _ <- _ _]]. destruct (__cyanfs_file_map_bio _ _ _ _ _) as [[s1 w1]|]; [|done].
    cbn [mbind option_bind]. by intros [= _ _ <- _ _].
Qed.

Lemma backend_loop_held fuel dev (k : K) s w cs k' s' w' :
  cyanfs_backend_loop blk race fuel dev k s w = Some (cs, k', s', w') → k_held k' = k_held k ∧ task_head (w_super w') = [].
Proof using KernelLaws0.
  revert k s w cs. induction fuel as [|fuel IH]; intros k s w cs; cbn [cyanfs_backend_loop]; [done|]. unfold loop_step, cyanfs_super_get_task.
  destruct (task_head (w_super w)) as [|t q] eqn:Eq; [cbn [mbind option_bind]; by intros [= _ <- _ <-]|].
  destruct (backend_io _ _ _ _ _ _ _) as [[[[[e c] k1] s1] w1]|] eqn:E1; [|done]. cbn [mbind option_bind].
  destruct (cyanfs_super_task_done t _ w1) as [w2|]; [|done]. cbn [mbind option_bind].
  destruct (cyanfs_backend_loop blk race fuel dev k1 s1 w2) as [[[[cs1 k2] s2] w3]|] eqn:E2; [|done]. cbn [mbind option_bind].
  intros [= _ <- <- <-]. destruct (IH _ _ _ _ E2) as [H1 H2]. split; [|done]. rewrite H1. by eapply backend_io_held.
Qed.

(** The pages. *)
Definition more_pages (n : Z) (h : gset Z * Z * Z * gset Z) : gset Z * Z * Z * gset Z := let '(c, p, u, d) := h in (c, p + n, u, d).

Lemma alloc_bvecs_held n (k : K) got ok k' : alloc_bvecs n k = (got, ok, k') →
  k_held k' = more_pages (Z.of_nat got) (k_held k) ∧ k_bytes k' = k_bytes k ∧ (ok = true → got = n).
Proof using KernelLaws0.
  revert k got. induction n as [|n IH]; intros k got; cbn [alloc_bvecs].
  - intros [= <- <- <-]. split_and!; [|done|done]. unfold more_pages, k_held. f_equal. f_equal. f_equal. lia.
  - destruct (alloc_page k) as [o k1] eqn:E1. destruct (kl_alloc_page _ _ _ E1) as [H1 B1]. destruct o; cbn [negb].
    + destruct (alloc_bvecs n k1) as [[g o] k2] eqn:E2. intros [= <- <- <-]. destruct (IH _ _ E2) as (H2 & B2 & G2).
      split_and!; [|congruence|by intros ?%G2; f_equal]. rewrite H2, H1. unfold more_pages, k_held. cbn [Z.b2z]. do 3 f_equal. lia.
    + intros [= <- <- <-]. split_and!; [|done|done]. rewrite H1. done.
Qed.

Lemma put_bvecs_held n (k : K) : k_held (put_bvecs n k) = more_pages (- Z.of_nat n) (k_held k) ∧ k_bytes (put_bvecs n k) = k_bytes k.
Proof using KernelLaws0.
  revert k. induction n as [|n IH]; intros k; cbn [put_bvecs].
  - split; [|done]. unfold more_pages, k_held. do 3 f_equal. lia.
  - destruct (kl_put_page k) as [H1 B1]. destruct (IH (put_page k)) as [H2 B2]. split; [|congruence]. rewrite H2, H1.
    unfold more_pages, k_held. do 3 f_equal. lia.
Qed.

(** What a backend takes from the kernel. *)
Definition backend_holds (dev : Z) (h : gset Z * Z * Z * gset Z) : gset Z * Z * Z * gset Z :=
  let '(c, p, u, d) := h in ({[dev]} ∪ c, p + CYANFS_BIO_MAX_VECS, u + 1, d).

Lemma more_pages_back n h : more_pages (- n) (more_pages n h) = h.
Proof using Type. destruct h as [[[c p] u] d]. unfold more_pages. do 3 f_equal. lia. Qed.

Lemma release_pages got dev (k k1 : K) :
  dev ∉ k_claimed k → k_held k1 = (λ h : gset Z * Z * Z * gset Z, let '(c, p, u, d) := h in ({[dev]} ∪ c, p, u, d)) (more_pages (Z.of_nat got) (k_held k)) →
  k_held (put_bvecs got (bdev_release dev k1)) = k_held k.
Proof using KernelLaws0.
  intros Hn H1. destruct (put_bvecs_held got (bdev_release dev k1)) as [-> _]. destruct (kl_release dev k1) as [-> _].
  unfold k_held, more_pages in *. injection H1 as -> -> -> ->. rewrite claim_release by done. do 3 f_equal. lia.
Qed.

(** Opening: everything is given back unless there is a backend. *)
Lemma backend_open_held fuel dev mallocs (k : K) err o k' :
  cyanfs_backend_open blk race fuel dev mallocs k = Some (err, o, k') →
  match o with
  | None => k_held k' = k_held k
  | Some b => err = 0 ∧ be_dev_id b = dev ∧ be_ref b = 1 ∧ dev ∉ k_claimed k ∧ k_held k' = backend_holds dev (k_held k)
  end.
Proof using KernelLaws0.
  unfold cyanfs_backend_open. destruct (kzalloc k) as [ok0 k0] eqn:E0. destruct (kl_kzalloc _ _ _ E0) as [H0 _].
  destruct ok0; cbn [negb]; [|by intros [= _ <- <-]].
  destruct (alloc_bvecs _ k0) as [[got ok1] k1] eqn:E1. destruct (alloc_bvecs_held _ _ _ _ _ E1) as (H1 & _ & G1). rewrite H0 in H1.
  assert (Hback : ∀ k2 : K, k_held k2 = k_held k1 → k_held (put_bvecs got k2) = k_held k).
  { intros k2 E. destruct (put_bvecs_held got k2) as [-> _]. rewrite E, H1. apply more_pages_back. }
  destruct ok1; cbn [negb]; [|intros [= _ <- <-]; by apply Hback].
  destruct (bdev_open dev k1) as [e2 k2] eqn:E2. destruct (kl_open _ _ _ _ E2) as [_ H2].
  destruct (Z.eqb_spec e2 0) as [->|Hne]; cbn [negb]; [|intros [= _ <- <-]; by apply Hback]. destruct H2 as [Hn H2].
  assert (Hc : k_claimed k1 = k_claimed k) by (unfold k_held, more_pages in H1; by injection H1). rewrite Hc in Hn.
  assert (Hrel : ∀ k3 : K, k_held k3 = k_held k2 → k_held (put_bvecs got (bdev_release dev k3)) = k_held k).
  { intros k3 E. apply release_pages; [done|]. rewrite E, H2. unfold k_held, more_pages in *. by injection H1 as -> -> -> ->. }
  destruct (_ || _); [intros [= _ <- <-]; by apply Hrel|].
  destruct (cyanfs_super_open _ _ _ _ _) as [w|]; [|intros [= _ <- <-]; by apply Hrel].
  destruct (cyanfs_backend_loop blk race fuel dev k2 no_bios w) as [[[[cs k3] s3] w3]|] eqn:E3; [|done]. cbn [mbind option_bind].
  destruct (backend_loop_held _ _ _ _ _ _ _ _ _ E3) as [H3 _].
  destruct (negb _); [destruct (cyanfs_super_close _); [|done]; intros [= _ <- <-]; by apply Hrel|]. intros [= <- <- <-].
  split_and!; try done. destruct (kl_get k3) as [-> _]. rewrite (G1 eq_refl) in H1. unfold k_held, more_pages, backend_holds in *.
  injection H1 as A1 A2 A3 A4. injection H2 as B1 B2 B3 B4. injection H3 as C1 C2 C3 C4. rewrite C1, C2, C3, C4, B1, B2, B3, B4, A1, A2, A3, A4.
  done.
Qed.

Lemma backend_work_held fuel (k : K) s b cs k' s' b' :
  cyanfs_backend_work blk race fuel k s b = Some (cs, k', s', b') →
  k_held k' = k_held k ∧ be_dev_id b' = be_dev_id b ∧ be_ref b' = be_ref b ∧ be_flush_work b' = be_flush_work b ∧
  task_head (w_super (be_super b')) = [].
Proof using KernelLaws0.
  unfold cyanfs_backend_work. cbv zeta. destruct (cyanfs_backend_loop _ _ _ _ _ _ _) as [[[[cs1 k1] s1] w1]|] eqn:E; [|done].
  cbn [mbind option_bind]. intros [= _ <- <- <-]. destruct (backend_loop_held _ _ _ _ _ _ _ _ _ E). by split_and!.
Qed.

(** Closing gives back what the backend held. *)
Definition backend_gives (dev : Z) (h : gset Z * Z * Z * gset Z) : gset Z * Z * Z * gset Z :=
  let '(c, p, u, d) := h in (c ∖ {[dev]}, p - CYANFS_BIO_MAX_VECS, u - 1, d).

Lemma backend_close_held fuel b (k : K) s k' s' :
  cyanfs_backend_close blk race fuel b k s = Some (k', s') → k_held k' = backend_gives (be_dev_id b) (k_held k).
Proof using KernelLaws0.
  unfold cyanfs_backend_close. cbv zeta.
  change (backend_gives _ _) with (k_claimed k ∖ {[be_dev_id b]}, k_pages k - Z.of_nat (Z.to_nat CYANFS_BIO_MAX_VECS), k_users k - 1, k_disks k).
  generalize (Z.to_nat CYANFS_BIO_MAX_VECS). intros n. destruct (cyanfs_super_flush _ _) as [e w].
  destruct (cyanfs_backend_work _ _ _ _ _ _) as [[[[cs k1] s1] b1]|] eqn:E; [|done]. cbn [mbind option_bind].
  destruct (cyanfs_super_close _) as [X|]; [|done]. cbn [mbind option_bind]. intros [= <- <-].
  destruct (backend_work_held _ _ _ _ _ _ _ _ E) as (H1 & Hd & _). cbn [queue_work set_be_work set_be_super set_be_flush_work be_dev_id] in Hd. rewrite Hd.
  destruct (kl_put (put_bvecs n (bdev_release (be_dev_id b) k1))) as [-> _].
  destruct (put_bvecs_held n (bdev_release (be_dev_id b) k1)) as [H2 _].
  destruct (kl_release (be_dev_id b) k1) as [H3 _]. rewrite H3 in H2. unfold k_held, more_pages in *.
  injection H1 as A1 A2 A3 A4. injection H2 as -> -> -> ->. rewrite A1, A2, A3, A4. done.
Qed.
End executor.

(** ** Mounting *)

(** A kernel that has memory, and a device that answers. *)
Class ReliableKernel (K : Type) `{!Kernel K} : Prop := {
  rk_kzalloc (k k' : K) ok : kzalloc k = (ok, k') → ok = true;
  rk_alloc_page (k k' : K) ok : alloc_page k = (ok, k') → ok = true;
  rk_open dev (k k' : K) err : dev ∉ k_claimed k → bdev_open dev k = (err, k') → err = 0;
  rk_read dev sector size (k k' : K) err data : submit_bio_read dev sector size k = (err, data, k') → err = 0 }.

Section mount.
Context {K : Type} `{!Kernel K, !KernelLaws K, !ReliableKernel K} {BL : BlockLayer} (blk : Z → Z) (race : world → world).

Lemma loop_read_sim dev (k : K) s w y :
  takes_read (mk_system w (k_bytes k dev)) = true → sys_step ST_OK (mk_system w (k_bytes k dev)) = Some y →
  ∃ k', loop_step blk race dev k s w = Some (true, [], k', s, sys_world y) ∧ k_bytes k' = k_bytes k ∧ sys_disk y = k_bytes k dev.
Proof using KernelLaws0 ReliableKernel0.
  unfold takes_read, sys_step, loop_step, cyanfs_super_get_task. cbn [sys_world sys_disk].
  destruct (task_head (w_super w)) as [|[[|off len buf|off len buf|src dst len| |off len|f ctx] dn] q]; try done. intros Hal%Z.eqb_eq.
  cbn [failed t_type device_io backend_io]. set (w1 := set_w_super _ w). destruct (get_cursor buf w1) as [c|]; [|done]. cbn [mbind option_bind].
  unfold cyanfs_backend_read. destruct (submit_bio_read dev (Z.shiftr off SECTOR_SHIFT) len k) as [[e data] k1] eqn:E.
  pose proof (rk_read _ _ _ _ _ _ _ E) as ->. destruct (kl_read _ _ _ _ _ _ _ E) as (_ & Hb & Hd). rewrite sectors_of in Hd by done.
  rewrite (Hd eq_refl), length_disk_read. cbn [mbind option_bind]. change (status_of 0) with ST_OK.
  destruct (cyanfs_super_task_done _ _ _) as [w2|]; [|done]. cbn [mbind option_bind]. intros [= <-]. by exists k1.
Qed.

Lemma loop_reads_sim m dev (k : K) s w y :
  sys_reads m (mk_system w (k_bytes k dev)) = Some y → task_head (w_super (sys_world y)) = [] →
  ∃ k', cyanfs_backend_loop blk race (S m) dev k s w = Some ([], k', s, sys_world y) ∧ k_bytes k' = k_bytes k.
Proof using KernelLaws0 ReliableKernel0.
  revert k w. induction m as [|m IH]; intros k w Hr Hq.
  - injection Hr as <-. cbn [sys_world] in *. exists k. split; [|done]. cbn [cyanfs_backend_loop]. unfold loop_step, cyanfs_super_get_task. by rewrite Hq.
  - cbn [sys_reads] in Hr. destruct (takes_read _) eqn:Et; [|done]. cbn [negb bug_on mbind option_bind] in Hr.
    destruct (sys_step ST_OK _) as [y1|] eqn:Es; [|done]. cbn [mbind option_bind] in Hr.
    destruct (loop_read_sim dev k s w y1 Et Es) as (k1 & El & Hb1 & Hd1). destruct y1 as [w1 d1]. cbn [sys_world sys_disk] in *. subst d1.
    rewrite <- Hb1 in Hr. destruct (IH k1 w1 Hr Hq) as (k2 & E2 & Hb2). exists k2. split; [|congruence].
    remember (S m) as n eqn:En. cbn [cyanfs_backend_loop]. rewrite El. cbn [mbind option_bind]. by rewrite E2.
Qed.

Lemma loop_mono n n' dev (k : K) s w r :
  cyanfs_backend_loop blk race n dev k s w = Some r → (n ≤ n')%nat → cyanfs_backend_loop blk race n' dev k s w = Some r.
Proof using Type.
  revert n' k s w r. induction n as [|n IH]; intros n' k s w r; [done|]. destruct n' as [|n']; [lia|]. cbn [cyanfs_backend_loop].
  destruct (loop_step _ _ _ _ _ _) as [[[[[more c] k1] s1] w1]|]; [|done]. cbn [mbind option_bind]. destruct more; [|done].
  destruct (cyanfs_backend_loop blk race n dev k1 s1 w1) as [r1|] eqn:E; [|done]. intros H Hle. by rewrite (IH n' _ _ _ _ E) by lia.
Qed.

Lemma alloc_bvecs_reliable n (k : K) : ∃ k', alloc_bvecs n k = (n, true, k').
Proof using ReliableKernel0.
  revert k. induction n as [|n IH]; intros k; cbn [alloc_bvecs]; [by exists k|]. destruct (alloc_page k) as [ok k1] eqn:E.
  rewrite (rk_alloc_page _ _ _ E). cbn [negb]. destruct (IH k1) as [k2 ->]. by exists k2.
Qed.

(** The geometry the module asks for. *)
Definition device_fits (dev : Z) : Prop :=
  bdev_logical_block_size dev = SECTOR_SIZE ∧ bdev_physical_block_size dev ≤ CYANFS_FILE_ALIGN_SIZE ∧ device_size_ok (bdev_nr_bytes dev).

(** Everything before the run of the executor. *)
Lemma backend_open_run fuel dev (k : K) w cs w' :
  dev ∉ k_claimed k → device_fits dev →
  cyanfs_super_open (bdev_nr_bytes dev) (negb (bdev_max_discard_sectors dev =? 0)) true true [] = Some w →
  (∀ k1 : K, k_bytes k1 = k_bytes k → ∃ k2 : K, cyanfs_backend_loop blk race fuel dev k1 no_bios w = Some (cs, k2, no_bios, w') ∧ k_bytes k2 = k_bytes k) →
  ∃ k2 : K, k_bytes k2 = k_bytes k ∧ cyanfs_backend_open blk race fuel dev [] k =
    if cyanfs_super_is_ready (w_super w')
    then Some (0, Some (mk_backend 1 (upd_super (cyanfs_super_set_new_task_callback (Some 0)) w') dev false true []), module_get k2)
    else _ ← cyanfs_super_close (w_super w'); Some (- EIO, None, put_bvecs (Z.to_nat CYANFS_BIO_MAX_VECS) (bdev_release dev k2)).
Proof using KernelLaws0 ReliableKernel0.
  intros Hc (Hg1 & Hg2 & _) Ho Hloop. unfold cyanfs_backend_open. destruct (kzalloc k) as [ok0 k0] eqn:E0.
  destruct (kl_kzalloc _ _ _ E0) as [H0 B0]. rewrite (rk_kzalloc _ _ _ E0). cbn [negb].
  generalize (Z.to_nat CYANFS_BIO_MAX_VECS). intros n. destruct (alloc_bvecs_reliable n k0) as [k1 E1].
  destruct (alloc_bvecs_held _ _ _ _ _ E1) as (H1 & B1 & _). rewrite E1. cbn [negb].
  destruct (bdev_open dev k1) as [e2 k2] eqn:E2. destruct (kl_open _ _ _ _ E2) as [B2 _].
  assert (Hc1 : dev ∉ k_claimed k1).
  { rewrite H0 in H1. unfold k_held, more_pages in H1. injection H1 as -> _ _ _. done. }
  rewrite (rk_open _ _ _ _ Hc1 E2). cbn [negb Z.eqb]. rewrite Hg1. change (SECTOR_SIZE =? SECTOR_SIZE) with true. cbn [negb orb].
  destruct (Z.ltb_spec CYANFS_FILE_ALIGN_SIZE (bdev_physical_block_size dev)); [lia|]. rewrite Ho.
  destruct (Hloop k2) as (k3 & -> & B3); [congruence|]. cbn [mbind option_bind]. exists k3. split; [done|].
  by destruct (cyanfs_super_is_ready (w_super w')).
Qed.

Lemma open_mono n n' dev mallocs (k : K) r :
  cyanfs_backend_open blk race n dev mallocs k = Some r → (n ≤ n')%nat → cyanfs_backend_open blk race n' dev mallocs k = Some r.
Proof using Type.
  intros H Hle. revert H. unfold cyanfs_backend_open. destruct (kzalloc k) as [ok0 k0]. destruct (negb ok0); [done|].
  destruct (alloc_bvecs _ k0) as [[got ok1] k1]. destruct (negb ok1); [done|]. destruct (bdev_open dev k1) as [e2 k2].
  destruct (negb (e2 =? 0)); [done|]. destruct (_ || _); [done|]. destruct (cyanfs_super_open _ _ _ _ _) as [w|]; [|done].
  destruct (cyanfs_backend_loop blk race n dev k2 no_bios w) as [r1|] eqn:E; [|done]. by rewrite (loop_mono _ n' _ _ _ _ _ E Hle).
Qed.

(** What mounting makes of a device. *)
Definition backend_mounted (dev : Z) (k : K) : Prop :=
  match disk_state (bdev_nr_bytes dev) (k_bytes k dev) with
  | Some (h, a, st) => ∃ fuel b k', cyanfs_backend_open blk race fuel dev [] k = Some (0, Some b, k') ∧ be_ref b = 1 ∧
      cyanfs_super_status (w_super (be_super b)) = ST_OK ∧ wf (w_super (be_super b)) ∅ ∧ abs (w_super (be_super b)) = a ∧ k_bytes k' = k_bytes k
  | None => ∀ fuel err b k', cyanfs_backend_open blk race fuel dev [] k = Some (err, Some b, k') →
      cyanfs_super_status (w_super (be_super b)) = ST_ERR ERR_IO
  end.

(** C11: mounting a device in the kernel recovers its journal.  When memory is
    there and the device answers, whatever it holds, the executor comes to an
    end while the backend is opened; if the device holds a journal that
    describes a file system, the backend is there, with the only reference to
    it, its instance is ready in exactly that state, and the device is as it
    was; otherwise there is no backend with an instance that is not marked
    failed. *)
Theorem backend_open_mounts dev (k : K) :
  dev ∉ k_claimed k → device_fits dev → disk_bytes (k_bytes k dev) → backend_mounted dev k.
Proof using KernelLaws0 ReliableKernel0.
  intros Hc Hg Hb. pose proof Hg as (_ & _ & Hs). unfold backend_mounted.
  destruct (open_reads (bdev_nr_bytes dev) (k_bytes k dev) Hs Hb (negb (bdev_max_discard_sectors dev =? 0)) true) as (w0 & m & y & Eo & Hy & Hrec).
  generalize dependent (disk_state (bdev_nr_bytes dev) (k_bytes k dev)). intros ds Hrec. destruct Hrec as (Hd & Hq & Ha & _ & Hrec).
  assert (Hloop : ∀ fuel (k1 : K), (S m ≤ fuel)%nat → k_bytes k1 = k_bytes k →
    ∃ k2 : K, cyanfs_backend_loop blk race fuel dev k1 no_bios w0 = Some ([], k2, no_bios, sys_world y) ∧ k_bytes k2 = k_bytes k).
  { intros fuel k1 Hf E. rewrite <- E in Hy. destruct (loop_reads_sim m dev k1 no_bios w0 y Hy Hq) as (k2 & El & Hb2).
    exists k2. split; [by eapply loop_mono|congruence]. }
  destruct ds as [[[h a] st]|].
  - destruct Hrec as (Hst & Hab & Hwf & _). apply ensure_status_ok in Hst as [He Hr].
    destruct (backend_open_run (S m) dev k w0 [] (sys_world y) Hc Hg Eo (λ k1, Hloop (S m) k1 ltac:(lia))) as (k2 & Hk2 & E).
    unfold cyanfs_super_is_ready in E. rewrite Hr in E. eexists _, _, _. split; [exact E|]. cbn [be_ref be_super]. split_and!; [done| | |done|].
    + by apply ensure_status_ok.
    + destruct Hwf as [Hwe Hwn Hwi]. split; [|by apply Hwn|by apply Hwi].
      apply (wf_ext_files (w_super (sys_world y)) _ ∅ Hwe); try done; intros id f Hf; left; by exists f.
    + destruct (kl_get k2) as [_ ->]. done.
  - intros fuel err b k' Ef. apply (open_mono _ (fuel + S m)) in Ef; [|lia].
    destruct (backend_open_run (fuel + S m) dev k w0 [] (sys_world y) Hc Hg Eo (λ k1, Hloop (fuel + S m)%nat k1 ltac:(lia))) as (k2 & _ & E).
    rewrite Ef in E. destruct (cyanfs_super_is_ready _); [|by destruct (cyanfs_super_close _)]. injection E as _ -> _. exact Hrec.
Qed.

(** A backend gives back what it took.  Opening one either fails, and the
    kernel holds nothing for the module that it did not hold before: no page,
    no claim on the device, no reference on the module; or it succeeds with 256
    pages, the device, which nobody held, and one reference; closing it gives
    exactly these back. *)
Theorem backend_balanced fuel fuel' dev mallocs (k : K) err o k' :
  cyanfs_backend_open blk race fuel dev mallocs k = Some (err, o, k') →
  match o with
  | None => k_held k' = k_held k
  | Some b => err = 0 ∧ dev ∉ k_claimed k ∧ k_held k' = backend_holds dev (k_held k) ∧
      ∀ b1 (k1 : K) s k2 s2, be_dev_id b1 = be_dev_id b → k_held k1 = k_held k' →
        cyanfs_backend_close blk race fuel' b1 k1 s = Some (k2, s2) → k_held k2 = k_held k
  end.
Proof using KernelLaws0.
  intros E. pose proof (backend_open_held blk race fuel dev mallocs k err o k' E) as H. destruct o as [b|]; [|done].
  destruct H as (He & Hd & _ & Hc & Hh). split_and!; [done..|]. intros b1 k1 s k2 s2 Hb Hk1 Ec.
  rewrite (backend_close_held _ _ _ _ _ _ _ _ Ec), Hb, Hd, Hk1, Hh. unfold backend_holds, backend_gives, k_held.
  rewrite claim_release by done. do 3 f_equal; lia.
Qed.
End mount.
