(* ===== verification/Linux.v ===== *)
(** * Linux: backends, virtual disks and the control device

    [linux/vdisk.c] and [linux/ctl.c]: the objects of the module with their
    reference counts, the disks made of files, and the operations of the control
    device [/dev/cyanfs].  An object is known by its address; an operation that
    uses one that was freed ends in [DANGLING], one that writes past the end of
    a buffer in [OVERRUN], one in which the core or the
    kernel stops the machine in [ABORT].  The operations of the control device
    run one at a time, under its lock. *)
From Stdlib Require Import ZArith Lia.
From S2P Require Import Prelude Count Disk Base Journal Types Super World JournalIO Discard Compact Flusher Api ReadWrite System Errno Bio Backend.

(** ** Outcomes *)
Inductive fault := DANGLING | OVERRUN | ABORT.

Definition res (A : Type) : Type := (fault + A)%type.

#[export] Instance res_ret : MRet res := λ A x, inr x.
#[export] Instance res_bind : MBind res := λ A B f r, match r with inl e => inl e | inr x => f x end.

Definition live {A} (x : option A) : res A := match x with Some x => inr x | None => inl DANGLING end.
Definition core {A} (x : option A) : res A := match x with Some x => inr x | None => inl ABORT end.

(** ** Device numbers *)
Definition MINORBITS : Z := 20.
Definition MKDEV (major minor : Z) : Z := u32 (Z.lor (Z.shiftl major MINORBITS) minor).
Definition MAJOR (dev : Z) : Z := Z.shiftr dev MINORBITS.
Definition MINOR (dev : Z) : Z := Z.land dev (Z.ones MINORBITS).

(** ** Objects *)

(** [cb_write] is the mode of [cbd->file] and of the disk; [cb_capacity] its
    size in sectors; [cb_work]: the work item that frees it is queued;
    [cb_opens]: how often the disk is open. *)
Record cyanfs_block_device := mk_cbd {
  cb_id : Z; cb_ref : Z; cb_backend : Z; cb_file_id : Z; cb_write : bool; cb_capacity : Z; cb_work : bool; cb_opens : Z }.

Definition set_cb_ref (x : Z) (c : cyanfs_block_device) : cyanfs_block_device :=
  mk_cbd (cb_id c) x (cb_backend c) (cb_file_id c) (cb_write c) (cb_capacity c) (cb_work c) (cb_opens c).
Definition set_cb_work (x : bool) (c : cyanfs_block_device) : cyanfs_block_device :=
  mk_cbd (cb_id c) (cb_ref c) (cb_backend c) (cb_file_id c) (cb_write c) (cb_capacity c) x (cb_opens c).
Definition set_cb_opens (x : Z) (c : cyanfs_block_device) : cyanfs_block_device :=
  mk_cbd (cb_id c) (cb_ref c) (cb_backend c) (cb_file_id c) (cb_write c) (cb_capacity c) (cb_work c) x.

(** [struct cyanfs_ctl_ctx]: the file and the backend are set together. *)
Record cyanfs_ctl_ctx := mk_ctx { cx_bound : option (Z * Z * bool) }.
Definition cx_file (c : cyanfs_ctl_ctx) : option Z := (λ x, x.1.2) <$> cx_bound c.
Definition cx_backend (c : cyanfs_ctl_ctx) : option Z := (λ x, x.1.1) <$> cx_bound c.

(** The trees are ordered by the comparison functions: the backends by their
    device number, the disks by [cbd_key]. *)
Definition cbd_key (dev_id file_id : Z) : Z := dev_id * 18446744073709551616 + file_id.

Definition __cyanfs_backend_compare (a b : Z) : Z := if a <? b then -1 else if b <? a then 1 else 0.
Definition __cyanfs_block_device_compare (a b : Z * Z) : Z :=
  let r := __cyanfs_backend_compare a.1 b.1 in
  if negb (r =? 0) then r else if a.2 <? b.2 then -1 else if b.2 <? a.2 then 1 else 0.

(** The module: the objects by their addresses, the two trees of the control
    device, the objects that belong to an item of configfs, the ids of the
    disks, the requests, and the kernel. *)
Record lmodule (K : Type) := mk_module {
  m_backends : gmap Z cyanfs_backend; m_devices : gmap Z cyanfs_block_device; m_ctxs : gmap Z cyanfs_ctl_ctx;
  m_backend_rb : gmap Z Z; m_device_rb : gmap Z Z; m_cfg_backends : gset Z; m_cfg_devices : gset Z;
  m_idr : gmap Z Z; m_bios : bio_state; m_kernel : K; m_next : Z }.
Arguments mk_module {K}. Arguments m_backends {K}. Arguments m_devices {K}. Arguments m_ctxs {K}. Arguments m_backend_rb {K}.
Arguments m_device_rb {K}. Arguments m_cfg_backends {K}. Arguments m_cfg_devices {K}. Arguments m_idr {K}. Arguments m_bios {K}.
Arguments m_kernel {K}. Arguments m_next {K}.

Section setters.
Context {K : Type}.
Definition set_m_backends (x : gmap Z cyanfs_backend) (m : lmodule K) : lmodule K :=
  mk_module x (m_devices m) (m_ctxs m) (m_backend_rb m) (m_device_rb m) (m_cfg_backends m) (m_cfg_devices m) (m_idr m) (m_bios m) (m_kernel m) (m_next m).
Definition set_m_devices (x : gmap Z cyanfs_block_device) (m : lmodule K) : lmodule K :=
  mk_module (m_backends m) x (m_ctxs m) (m_backend_rb m) (m_device_rb m) (m_cfg_backends m) (m_cfg_devices m) (m_idr m) (m_bios m) (m_kernel m) (m_next m).
Definition set_m_ctxs (x : gmap Z cyanfs_ctl_ctx) (m : lmodule K) : lmodule K :=
  mk_module (m_backends m) (m_devices m) x (m_backend_rb m) (m_device_rb m) (m_cfg_backends m) (m_cfg_devices m) (m_idr m) (m_bios m) (m_kernel m) (m_next m).
Definition set_m_backend_rb (x : gmap Z Z) (m : lmodule K) : lmodule K :=
  mk_module (m_backends m) (m_devices m) (m_ctxs m) x (m_device_rb m) (m_cfg_backends m) (m_cfg_devices m) (m_idr m) (m_bios m) (m_kernel m) (m_next m).
Definition set_m_device_rb (x : gmap Z Z) (m : lmodule K) : lmodule K :=
  mk_module (m_backends m) (m_devices m) (m_ctxs m) (m_backend_rb m) x (m_cfg_backends m) (m_cfg_devices m) (m_idr m) (m_bios m) (m_kernel m) (m_next m).
Definition set_m_cfg_backends (x : gset Z) (m : lmodule K) : lmodule K :=
  mk_module (m_backends m) (m_devices m) (m_ctxs m) (m_backend_rb m) (m_device_rb m) x (m_cfg_devices m) (m_idr m) (m_bios m) (m_kernel m) (m_next m).
Definition set_m_cfg_devices (x : gset Z) (m : lmodule K) : lmodule K :=
  mk_module (m_backends m) (m_devices m) (m_ctxs m) (m_backend_rb m) (m_device_rb m) (m_cfg_backends m) x (m_idr m) (m_bios m) (m_kernel m) (m_next m).
Definition set_m_idr (x : gmap Z Z) (m : lmodule K) : lmodule K :=
  mk_module (m_backends m) (m_devices m) (m_ctxs m) (m_backend_rb m) (m_device_rb m) (m_cfg_backends m) (m_cfg_devices m) x (m_bios m) (m_kernel m) (m_next m).
Definition set_m_bios (x : bio_state) (m : lmodule K) : lmodule K :=
  mk_module (m_backends m) (m_devices m) (m_ctxs m) (m_backend_rb m) (m_device_rb m) (m_cfg_backends m) (m_cfg_devices m) (m_idr m) x (m_kernel m) (m_next m).
Definition set_m_kernel (x : K) (m : lmodule K) : lmodule K :=
  mk_module (m_backends m) (m_devices m) (m_ctxs m) (m_backend_rb m) (m_device_rb m) (m_cfg_backends m) (m_cfg_devices m) (m_idr m) (m_bios m) x (m_next m).
Definition set_m_next (x : Z) (m : lmodule K) : lmodule K :=
  mk_module (m_backends m) (m_devices m) (m_ctxs m) (m_backend_rb m) (m_device_rb m) (m_cfg_backends m) (m_cfg_devices m) (m_idr m) (m_bios m) (m_kernel m) x.

Definition put_backend (a : Z) (b : cyanfs_backend) (m : lmodule K) : lmodule K := set_m_backends (<[a := b]> (m_backends m)) m.
Definition put_device (d : Z) (c : cyanfs_block_device) (m : lmodule K) : lmodule K := set_m_devices (<[d := c]> (m_devices m)) m.

(** The module right after it was loaded. *)
Definition loaded (k : K) : lmodule K := mk_module ∅ ∅ ∅ ∅ ∅ ∅ ∅ ∅ no_bios k 1.
End setters.

Section linux.
Context {K : Type} `{!Kernel K} {BL : BlockLayer} (errno_to_blk_status : Z → Z) (race : world → world) (fuel : nat).
Implicit Types m : lmodule K.

(** ** Backends *)
Definition cyanfs_backend_get (a : Z) m : res (lmodule K) := b ← live (m_backends m !! a); inr (put_backend a (set_be_ref (be_ref b + 1) b) m).

Definition cyanfs_backend_put (a : Z) m : res (lmodule K) :=
  b ← live (m_backends m !! a);
  if be_ref b - 1 =? 0 then
    '(k, s) ← core (cyanfs_backend_close errno_to_blk_status race fuel b (m_kernel m) (m_bios m));
    inr (set_m_backends (delete a (m_backends m)) (set_m_kernel k (set_m_bios s m)))
  else inr (put_backend a (set_be_ref (be_ref b - 1) b) m).

(** The core calls back when it puts a task into an empty queue; when the queue
    is not empty, the work item is queued or running. *)
Definition kick (w : world) (b : cyanfs_backend) : cyanfs_backend :=
  let b := set_be_super w b in if bool_decide (task_head (w_super w) = []) then b else cyanfs_new_task b.

(** A call of the core for the backend at [a]. *)
Definition on_backend {A} (a : Z) (f : world → res (A * world)) m : res (A * lmodule K) :=
  b ← live (m_backends m !! a);
  '(x, w) ← f (be_super b);
  inr (x, put_backend a (kick w b) m).

Definition set_super (w : world) (x : cyanfs_status * cyanfs_super) : cyanfs_status * world := let '(st, s) := x in (st, set_w_super s w).

Definition close_file (a file : Z) m : res (lmodule K) :=
  '(_, m) ← on_backend a (λ w, s ← core (cyanfs_close file (w_super w)); inr ((), set_w_super s w)) m; inr m.

(** The work item of the backend at [a] runs. *)
Definition run_work (a : Z) m : res (list Z * lmodule K) :=
  b ← live (m_backends m !! a);
  '(cs, k, s, b) ← core (cyanfs_backend_work errno_to_blk_status race fuel (m_kernel m) (m_bios m) b);
  inr (cs, put_backend a b (set_m_kernel k (set_m_bios s m))).

(** The timer of the backend at [a]. *)
Definition run_flush_work (a : Z) m : res (lmodule K) :=
  b ← live (m_backends m !! a); inr (put_backend a (cyanfs_backend_flush_work b) m).

Definition backend_sync (a : Z) m : res (Z * lmodule K) :=
  b ← live (m_backends m !! a);
  '(err, k, s, b) ← core (cyanfs_backend_sync errno_to_blk_status race fuel false (m_kernel m) (m_bios m) b);
  inr (err, put_backend a b (set_m_kernel k (set_m_bios s m))).

(** ** Virtual disks ([vdisk.c]) *)
Definition cyanfs_idr_alloc (d : Z) m : Z * Z * lmodule K :=
  let '(r, k) := idr_alloc (dom (m_idr m)) (m_kernel m) in
  let m := set_m_kernel k m in
  if r <? 0 then (r, 0, m) else (0, r, set_m_idr (<[r := d]> (m_idr m)) m).

Definition cyanfs_idr_free (id : Z) m : lmodule K := set_m_idr (delete id (m_idr m)) m.

(** The error, and the address of the disk. *)
Definition cyanfs_block_device_alloc (a id : Z) (write : bool) m : res (Z * option Z * lmodule K) :=
  let '(ok, k) := kzalloc (m_kernel m) in
  let m := set_m_kernel k m in
  if negb ok then inr (- ENOMEM, None, m) else
  let d := m_next m in
  let m := set_m_next (d + 1) m in
  m ← cyanfs_backend_get a m;
  let cbd_out (error : Z) m := m ← cyanfs_backend_put a m; inr (error, None, m) in
  let '(error, cbd_id, m) := cyanfs_idr_alloc d m in
  if error <? 0 then cbd_out error m else
  let idr_out (error : Z) m := cbd_out error (cyanfs_idr_free cbd_id m) in
  '(st, m) ← on_backend a (λ w, inr (set_super w (cyanfs_open id write (w_super w)))) m;
  if failed st then idr_out (errno_of st) m else
  let file_out (error : Z) m := m ← close_file a id m; idr_out error m in
  b ← live (m_backends m !! a);
  size ← core (cyanfs_size id (w_super (be_super b)));
  if size =? 0 then file_out (- EINVAL) m else
  let '(error, k) := blk_alloc_disk (m_kernel m) in
  let m := set_m_kernel k m in
  if error <? 0 then file_out error m else
  let '(error, k) := device_add_disk cbd_id (m_kernel m) in
  let m := set_m_kernel k m in
  if error <? 0 then file_out error (set_m_kernel (blk_cleanup_disk (m_kernel m)) m) else
  inr (0, Some d, put_device d (mk_cbd cbd_id 1 a id write (Z.shiftr size SECTOR_SHIFT) false 0) m).

(** The work item that frees the disk at [d]. *)
Definition cyanfs_block_device_free_work (d : Z) m : res (lmodule K) :=
  c ← live (m_devices m !! d);
  let m := set_m_kernel (blk_cleanup_disk (del_gendisk (cb_id c) (m_kernel m))) m in
  m ← close_file (cb_backend c) (cb_file_id c) m;
  let m := set_m_devices (delete d (m_devices m)) (cyanfs_idr_free (cb_id c) m) in
  cyanfs_backend_put (cb_backend c) m.

(** [schedule_work]. *)
Definition cyanfs_block_device_free (c : cyanfs_block_device) : cyanfs_block_device := set_cb_work true c.

Definition cyanfs_block_device_get (d : Z) m : res (lmodule K) := c ← live (m_devices m !! d); inr (put_device d (set_cb_ref (cb_ref c + 1) c) m).

Definition cyanfs_block_device_put (d : Z) m : res (lmodule K) :=
  c ← live (m_devices m !! d);
  let c := set_cb_ref (cb_ref c - 1) c in
  inr (put_device d (if cb_ref c =? 0 then cyanfs_block_device_free c else c) m).

(** The disk at [d] is opened, and closed again, as a block device. *)
Definition count_open (v d : Z) m : res (lmodule K) := c ← live (m_devices m !! d); inr (put_device d (set_cb_opens (cb_opens c + v) c) m).
Definition cyanfs_block_device_open (d : Z) m : res (lmodule K) := m ← cyanfs_block_device_get d m; count_open 1 d m.
Definition cyanfs_block_device_release (d : Z) m : res (lmodule K) := m ← count_open (-1) d m; cyanfs_block_device_put d m.

(** A request for the disk at [d]. *)
Definition cyanfs_block_device_submit_bio (d bio : Z) m : res (lmodule K) :=
  c ← live (m_devices m !! d);
  b ← live (m_backends m !! cb_backend c);
  '(s, w) ← core (cyanfs_file_submit_bio errno_to_blk_status race (cb_file_id c) bio (m_bios m) (be_super b));
  inr (put_backend (cb_backend c) (kick w b) (set_m_bios s m)).

(** ** The control device ([ctl.c]) *)

(** The trees are walked: whatever is in them is looked at. *)
Definition walk_backends m : res () :=
  if forallb (λ x, bool_decide (is_Some (m_backends m !! x.2))) (map_to_list (m_backend_rb m)) then inr () else inl DANGLING.

Definition device_alive m (d : Z) : bool :=
  match m_devices m !! d with Some c => bool_decide (is_Some (m_backends m !! cb_backend c)) | None => false end.
Definition walk_devices m : res () := if forallb (λ x, device_alive m x.2) (map_to_list (m_device_rb m)) then inr () else inl DANGLING.

(** [CYANFS_RB_INSERT]: nothing happens when the key is there. *)
Definition rb_put (key a : Z) (t : gmap Z Z) : gmap Z Z := match t !! key with Some _ => t | None => <[key := a]> t end.

(** [CYANFS_RB_NFIND]: the element with the least key that is not smaller. *)
Definition rb_nfind (t : gmap Z Z) (key : Z) : option (Z * Z) := k ← set_nfind (dom t) key; a ← t !! k; Some (k, a).

Definition cyanfs_ctl_backend_lookup (major minor : Z) m : res (option Z) := walk_backends m;; inr (m_backend_rb m !! MKDEV major minor).

(** The backend of an operation, or [-ENODEV]. *)
Definition with_backend {A} (major minor : Z) (err : Z → A) (f : Z → lmodule K → res (A * lmodule K)) m : res (A * lmodule K) :=
  o ← cyanfs_ctl_backend_lookup major minor m;
  match o with Some a => f a m | None => inr (err (- ENODEV), m) end.

Definition cyanfs_ctl_backend_mount (major minor : Z) (mallocs : list bool) m : res (Z * lmodule K) :=
  let dev := MKDEV major minor in
  '(err, o, k) ← core (cyanfs_backend_open errno_to_blk_status race fuel dev mallocs (m_kernel m));
  let m := set_m_kernel k m in
  match o with
  | None => inr (err, m)
  | Some b =>
      walk_backends m;;
      let a := m_next m in
      inr (0, set_m_backend_rb (rb_put dev a (m_backend_rb m)) (put_backend a b (set_m_next (a + 1) m)))
  end.

Definition cyanfs_ctl_backend_umount (major minor : Z) m : res (Z * lmodule K) :=
  with_backend major minor id (λ a m,
    b ← live (m_backends m !! a);
    walk_devices m;;
    match rb_nfind (m_device_rb m) (cbd_key (be_dev_id b) 0) with
    | Some (_, d) =>
        c ← live (m_devices m !! d);
        if cb_backend c =? a then inr (- EBUSY, m) else
        m ← cyanfs_backend_put a (set_m_backend_rb (delete (be_dev_id b) (m_backend_rb m)) m); inr (0, m)
    | None => m ← cyanfs_backend_put a (set_m_backend_rb (delete (be_dev_id b) (m_backend_rb m)) m); inr (0, m)
    end) m.

(** The error, and the device number of the next backend. *)
Definition cyanfs_ctl_backend_list (major minor : Z) m : res (Z * option (Z * Z)) :=
  walk_backends m;;
  match rb_nfind (m_backend_rb m) (MKDEV major (u32 (minor + 1))) with
  | None => inr (- ENODEV, None)
  | Some (_, a) => b ← live (m_backends m !! a); inr (0, Some (MAJOR (be_dev_id b), MINOR (be_dev_id b)))
  end.

Definition cyanfs_ctl_backend_sync (major minor : Z) m : res (Z * lmodule K) := with_backend major minor id backend_sync m.

(** The error, and the number of the disk. *)
Definition cyanfs_ctl_device_map (major minor id : Z) (readonly : bool) m : res (Z * option Z * lmodule K) :=
  o ← cyanfs_ctl_backend_lookup major minor m;
  match o with
  | None => inr (- ENODEV, None, m)
  | Some a =>
      '(err, o, m) ← cyanfs_block_device_alloc a id (negb readonly) m;
      match o with
      | None => inr (err, None, m)
      | Some d =>
          walk_devices m;;
          b ← live (m_backends m !! a);
          c ← live (m_devices m !! d);
          inr (0, Some (cb_id c), set_m_device_rb (rb_put (cbd_key (be_dev_id b) id) d (m_device_rb m)) m)
      end
  end.

Definition cyanfs_ctl_device_unmap (major minor id : Z) m : res (Z * lmodule K) :=
  walk_devices m;;
  match m_device_rb m !! cbd_key (MKDEV major minor) id with
  | None => inr (- ENODEV, m)
  | Some d =>
      m ← cyanfs_block_device_put d (set_m_device_rb (delete (cbd_key (MKDEV major minor) id) (m_device_rb m)) m);
      inr (0, m)
  end.

(** The error, and the device number, the file and the disk of the next one. *)
Definition cyanfs_ctl_device_list (major minor id : Z) m : res (Z * option (Z * Z * Z * Z)) :=
  walk_devices m;;
  match rb_nfind (m_device_rb m) (cbd_key (MKDEV major minor) (u64 (id + 1))) with
  | None => inr (- ENODEV, None)
  | Some (_, d) =>
      c ← live (m_devices m !! d);
      b ← live (m_backends m !! cb_backend c);
      inr (0, Some (MAJOR (be_dev_id b), MINOR (be_dev_id b), cb_file_id c, cb_id c))
  end.
End linux.
