(* ===== verification/LinuxCtl.v ===== *)
(** * LinuxCtl: the file operations of the control device

    The second part of [linux/ctl.c]: the operations on files, a descriptor of
    [/dev/cyanfs] that is bound to a file (reading, writing, seeking, flushing,
    closing), and the dispatch of [ioctl]. *)
From Stdlib Require Import ZArith Lia.
From S2P Require Import Prelude Count Disk Base Journal Types Super World JournalIO Discard Compact Flusher Api ReadWrite System Errno Bio Backend Linux.

Section ctl.
Context {K : Type} `{!Kernel K} {BL : BlockLayer} (errno_to_blk_status : Z → Z) (race : world → world) (fuel : nat).
Implicit Types m : lmodule K.

(** ** Operations on files *)

(** A question to the core. *)
Definition ask {A} (a : Z) (f : cyanfs_super → A) m : res (A * lmodule K) := b ← live (m_backends m !! a); inr (f (w_super (be_super b)), m).

Definition as_errno {A} (r : cyanfs_status * A) : Z * A := (errno_of r.1, r.2).

Definition cyanfs_ctl_backend_statfs (major minor : Z) m : res (Z * option cyanfs_super_meta * lmodule K) :=
  with_backend major minor (λ e, (e, None)) (λ a, ask a (λ s, as_errno (cyanfs_statfs s))) m.

Definition cyanfs_ctl_file_list (major minor iter : Z) m : res (Z * option cyanfs_file_meta * lmodule K) :=
  with_backend major minor (λ e, (e, None)) (λ a, ask a (λ s, as_errno (cyanfs_list iter s))) m.

Definition cyanfs_ctl_file_lookup (major minor : Z) (name : cyanfs_file_name_t) m : res (Z * option cyanfs_file_meta * lmodule K) :=
  with_backend major minor (λ e, (e, None)) (λ a, ask a (λ s, as_errno (cyanfs_lookup name s))) m.

Definition cyanfs_ctl_file_stat (major minor id : Z) m : res (Z * option cyanfs_file_meta * lmodule K) :=
  with_backend major minor (λ e, (e, None)) (λ a, ask a (λ s, as_errno (cyanfs_stat id s))) m.

Definition cyanfs_ctl_file_create (major minor : Z) (name : cyanfs_file_name_t) m : res (Z * option Z * lmodule K) :=
  with_backend major minor (λ e, (e, None))
    (λ a, on_backend a (λ w, let '(st, id, w) := cyanfs_create name w in inr (errno_of st, id, w))) m.

Definition cyanfs_ctl_file_fork (major minor pid : Z) (name : cyanfs_file_name_t) m : res (Z * option Z * lmodule K) :=
  with_backend major minor (λ e, (e, None))
    (λ a, on_backend a (λ w, let '(st, id, w) := cyanfs_fork pid name w in inr (errno_of st, id, w))) m.

Definition cyanfs_ctl_file_rename (major minor id : Z) (name : cyanfs_file_name_t) m : res (Z * lmodule K) :=
  with_backend major minor (λ e, e) (λ a, on_backend a (λ w, '(st, w) ← core (cyanfs_rename id name w); inr (errno_of st, w))) m.

Definition cyanfs_ctl_file_truncate (major minor id size : Z) m : res (Z * lmodule K) :=
  with_backend major minor (λ e, e) (λ a, on_backend a (λ w, '(st, w) ← core (cyanfs_truncate id size w); inr (errno_of st, w))) m.

Definition cyanfs_ctl_file_delete (major minor id : Z) m : res (Z * lmodule K) :=
  with_backend major minor (λ e, e) (λ a, on_backend a (λ w, '(st, w) ← core (cyanfs_delete id w); inr (errno_of st, w))) m.

(** ** A descriptor of the control device *)
Definition put_ctx (x : Z) (c : cyanfs_ctl_ctx) m : lmodule K := set_m_ctxs (<[x := c]> (m_ctxs m)) m.

(** [generic_file_open]: what the kernel makes of the flags of the caller. *)
Definition cyanfs_ctl_open (generic_file_open : Z) m : res (Z * option Z * lmodule K) :=
  let '(ok, k) := kzalloc (m_kernel m) in
  let m := set_m_kernel k m in
  if negb ok then inr (- ENOMEM, None, m) else
  let x := m_next m in
  inr (generic_file_open, Some x, put_ctx x (mk_ctx None) (set_m_next (x + 1) m)).

Definition file_status (a : Z) m : res (Z * lmodule K) := ask a (λ s, errno_of (cyanfs_file_status s)) m.

(** The part after the tasks of the core. *)
Definition flush_device (a : Z) m : res (Z * lmodule K) :=
  b ← live (m_backends m !! a);
  let '(r, k) := blkdev_issue_flush (be_dev_id b) (m_kernel m) in
  let m := set_m_kernel k m in
  if r <? 0 then inr (r, m) else file_status a m.

(** The caller waits while the work item runs; it would wait for ever if that
    did not call [__complete]. *)
Definition cyanfs_ctl_flush (c : cyanfs_ctl_ctx) m : res (Z * lmodule K) :=
  match cx_bound c with
  | None => inr (0, m)
  | Some (a, file, _) =>
      '(st, map, m) ← on_backend a (λ w, let '(st, map, w) := cyanfs_flush w in inr (st, map, w)) m;
      if failed st then inr (errno_of st, m) else
      match map with
      | Some CYANFS_MAP_NOP => file_status a m
      | Some CYANFS_MAP_REQUEUE =>
          '(st, m) ← on_backend a (λ w, inr (cyanfs_requeue file stack_waiter w)) m;
          if failed st then inr (errno_of st, m) else
          '(cs, m) ← run_work errno_to_blk_status race fuel a m;
          core (bug_on (negb (bool_decide (stack_waiter ∈ cs))));;
          flush_device a m
      | _ => flush_device a m
      end
  end.

Definition cyanfs_ctl_fsync (x : Z) m : res (Z * lmodule K) := c ← live (m_ctxs m !! x); cyanfs_ctl_flush c m.

Definition cyanfs_ctl_release (x : Z) m : res (lmodule K) :=
  c ← live (m_ctxs m !! x);
  m ← match cx_bound c with
      | None => inr m
      | Some (a, file, _) =>
          '(_, m) ← cyanfs_ctl_flush c m;
          m ← close_file a file m;
          cyanfs_backend_put errno_to_blk_status race fuel a m
      end;
  inr (set_m_ctxs (delete x (m_ctxs m)) m).

Definition cyanfs_ctl_file_bind (x major minor id : Z) (readonly : bool) m : res (Z * lmodule K) :=
  c ← live (m_ctxs m !! x);
  match cx_bound c with
  | Some _ => inr (- EBUSY, m)
  | None =>
      with_backend major minor (λ e, e) (λ a m,
        '(st, m) ← on_backend a (λ w, inr (set_super w (cyanfs_open id (negb readonly) (w_super w)))) m;
        if failed st then inr (errno_of st, m) else
        m ← cyanfs_backend_get a m;
        inr (0, put_ctx x (mk_ctx (Some (a, id, negb readonly))) m)) m
  end.

Definition SEEK_DATA : Z := 3.

(** [noop_llseek] and [fixed_size_llseek] are functions of the kernel. *)
Definition cyanfs_ctl_llseek (noop_llseek : Z → Z → Z) (fixed_size_llseek : Z → Z → Z → Z) (x offset whence : Z) m : res Z :=
  c ← live (m_ctxs m !! x);
  match cx_bound c with
  | None => inr (noop_llseek offset whence)
  | Some (a, file, _) =>
      b ← live (m_backends m !! a);
      let s := w_super (be_super b) in
      if negb (whence =? SEEK_DATA) then size ← core (cyanfs_size file s); inr (fixed_size_llseek offset whence size) else
      if offset <? 0 then inr (- EINVAL) else
      '(st, off) ← core (cyanfs_seek_data file (u64 offset) s);
      inr (match st with ST_OK => off | ST_ERR ERR_NOENT => - ENXIO | _ => errno_of st end)
  end.

(** ** Reading and writing *)
Definition DIV_ROUND_UP (n d : Z) : Z := (n + d - 1) / d.

(** The pages of the user's memory become the segments of the request: what is
    left of [len].  The entries of [pages] from [got] on were never written. *)
Fixpoint add_pages (n : nat) (got i page_offset len : Z) : res Z :=
  match n with
  | O => inr len
  | S n =>
      if negb (i <? got) then inl DANGLING else
      let l := Z.min (PAGE_SIZE - page_offset) len in
      add_pages n got (i + 1) 0 (len - l)
  end.

(** What a transfer does before it has a request: the bytes to transfer, or the
    result. *)
Definition io_length (size : Z) (is_write : bool) (pos len : Z) : Z + Z :=
  if negb (pos mod SECTOR_SIZE =? 0) || negb (len mod SECTOR_SIZE =? 0) || (CYANFS_BIO_MAX_SIZE <? len) then inl (- EINVAL) else
  if size <? u64 (pos + len) then if size <=? pos then inl (if is_write then - ENOSPC else 0) else inr (size - pos)
  else if len =? 0 then inl 0 else inr len.

(** [buf]: where the user's memory is; [mem]: what it holds; [get_user_pages]:
    what the kernel answers, the number of pages or an error; [bio_ok]: there is
    a request.  [inl]: the result; [inr]: the request that was sent and the
    number of bytes, the caller waits for its completion. *)
Definition cyanfs_ctl_io (get_user_pages : Z) (bio_ok is_write : bool) (x buf : Z) (mem : list Z) (pos len : Z) m
    : res ((Z + Z * Z) * lmodule K) :=
  c ← live (m_ctxs m !! x);
  match cx_bound c with
  | None => inr (inl (- EINVAL), m)
  | Some (a, file, _) =>
      b ← live (m_backends m !! a);
      size ← core (cyanfs_size file (w_super (be_super b)));
      match io_length size is_write pos len with
      | inl r => inr (inl r, m)
      | inr len =>
          let page_offset := buf mod PAGE_SIZE in
          let pages_num := DIV_ROUND_UP (page_offset + len) PAGE_SIZE in
          let '(ok, k) := kzalloc (m_kernel m) in
          let m := set_m_kernel k m in
          if negb ok then inr (inl (- ENOMEM), m) else
          let pages_got := u64 get_user_pages in
          if pages_got <? pages_num then inr (inl (- EFAULT), m) else
          if negb bio_ok then if get_user_pages <? 0 then inl DANGLING else inr (inl (- ENOMEM), m) else
          rest ← add_pages (Z.to_nat pages_num) get_user_pages 0 page_offset len;
          core (bug_on (negb (rest =? 0)));;
          let '(bio, s) := bio_alloc (if is_write then REQ_OP_WRITE else REQ_OP_READ) false (Z.shiftr pos SECTOR_SHIFT)
                             (take (Z.to_nat len) mem) (m_bios m) in
          '(s, w) ← core (cyanfs_file_submit_bio errno_to_blk_status race file bio s (be_super b));
          inr (inr (bio, len), put_backend a (kick w b) (set_m_bios s m))
      end
  end.

(** After the completion: the result, and the position. *)
Definition ctl_io_finish (blk_status_to_errno : Z → Z) (bi_status pos r : Z) : Z * Z :=
  if negb (bi_status =? 0) then (blk_status_to_errno bi_status, pos) else (r, pos + r).

(** ** [ioctl] *)
Inductive ctl_cmd :=
  | BACKEND_MOUNT (major minor : Z) (mallocs : list bool)
  | BACKEND_UMOUNT (major minor : Z)
  | BACKEND_LIST (major minor : Z)
  | BACKEND_STATFS (major minor : Z)
  | BACKEND_SYNC (major minor : Z)
  | DEVICE_MAP (major minor id : Z) (readonly : bool)
  | DEVICE_UNMAP (major minor id : Z)
  | DEVICE_LIST (major minor id : Z)
  | FILE_LIST (major minor iter : Z)
  | FILE_LOOKUP (major minor : Z) (name : cyanfs_file_name_t)
  | FILE_CREATE (major minor : Z) (name : cyanfs_file_name_t)
  | FILE_FORK (major minor pid : Z) (name : cyanfs_file_name_t)
  | FILE_RENAME (major minor id : Z) (name : cyanfs_file_name_t)
  | FILE_TRUNCATE (major minor id size : Z)
  | FILE_DELETE (major minor id : Z)
  | FILE_STAT (major minor id : Z)
  | FILE_BIND (major minor id : Z) (readonly : bool)
  | CMD_OTHER (cmd : Z).

(** What a command writes into the structure of the caller. *)
Inductive ctl_out :=
  | OUT_NONE
  | OUT_DEV (major minor : Z)
  | OUT_SUPER (meta : cyanfs_super_meta)
  | OUT_DEVICE (major minor id vdisk : Z)
  | OUT_VDISK (vdisk : Z)
  | OUT_FILE (meta : cyanfs_file_meta)
  | OUT_ID (id : Z).

Definition out_of {A} (f : A → ctl_out) (o : option A) : ctl_out := match o with Some x => f x | None => OUT_NONE end.

(** The body of a command. *)
Definition ctl_run (x : Z) (cmd : ctl_cmd) m : res (Z * ctl_out * lmodule K) :=
  match cmd with
  | BACKEND_MOUNT major minor mallocs =>
      '(r, m) ← cyanfs_ctl_backend_mount errno_to_blk_status race fuel major minor mallocs m; inr (r, OUT_NONE, m)
  | BACKEND_UMOUNT major minor => '(r, m) ← cyanfs_ctl_backend_umount errno_to_blk_status race fuel major minor m; inr (r, OUT_NONE, m)
  | BACKEND_LIST major minor => '(r, o) ← cyanfs_ctl_backend_list major minor m; inr (r, out_of (λ d, OUT_DEV d.1 d.2) o, m)
  | BACKEND_STATFS major minor => '(r, o, m) ← cyanfs_ctl_backend_statfs major minor m; inr (r, out_of OUT_SUPER o, m)
  | BACKEND_SYNC major minor => '(r, m) ← cyanfs_ctl_backend_sync errno_to_blk_status race fuel major minor m; inr (r, OUT_NONE, m)
  | DEVICE_MAP major minor id readonly =>
      '(r, o, m) ← cyanfs_ctl_device_map errno_to_blk_status race fuel major minor id readonly m; inr (r, out_of OUT_VDISK o, m)
  | DEVICE_UNMAP major minor id => '(r, m) ← cyanfs_ctl_device_unmap major minor id m; inr (r, OUT_NONE, m)
  | DEVICE_LIST major minor id =>
      '(r, o) ← cyanfs_ctl_device_list major minor id m; inr (r, out_of (λ d, OUT_DEVICE d.1.1.1 d.1.1.2 d.1.2 d.2) o, m)
  | FILE_LIST major minor iter => '(r, o, m) ← cyanfs_ctl_file_list major minor iter m; inr (r, out_of OUT_FILE o, m)
  | FILE_LOOKUP major minor name => '(r, o, m) ← cyanfs_ctl_file_lookup major minor name m; inr (r, out_of OUT_FILE o, m)
  | FILE_CREATE major minor name => '(r, o, m) ← cyanfs_ctl_file_create major minor name m; inr (r, out_of OUT_ID o, m)
  | FILE_FORK major minor pid name => '(r, o, m) ← cyanfs_ctl_file_fork major minor pid name m; inr (r, out_of OUT_ID o, m)
  | FILE_RENAME major minor id name => '(r, m) ← cyanfs_ctl_file_rename major minor id name m; inr (r, OUT_NONE, m)
  | FILE_TRUNCATE major minor id size => '(r, m) ← cyanfs_ctl_file_truncate major minor id size m; inr (r, OUT_NONE, m)
  | FILE_DELETE major minor id => '(r, m) ← cyanfs_ctl_file_delete major minor id m; inr (r, OUT_NONE, m)
  | FILE_STAT major minor id => '(r, o, m) ← cyanfs_ctl_file_stat major minor id m; inr (r, out_of OUT_FILE o, m)
  | FILE_BIND major minor id readonly => '(r, m) ← cyanfs_ctl_file_bind x major minor id readonly m; inr (r, OUT_NONE, m)
  | CMD_OTHER _ => inr (- ENOSYS, OUT_NONE, m)
  end.

(** The commands whose structure is copied back. *)
Definition cmd_output (cmd : ctl_cmd) : bool :=
  match cmd with
  | BACKEND_LIST _ _ | BACKEND_STATFS _ _ | DEVICE_MAP _ _ _ _ | DEVICE_LIST _ _ _ | FILE_LIST _ _ _ | FILE_LOOKUP _ _ _
  | FILE_CREATE _ _ _ | FILE_FORK _ _ _ _ | FILE_STAT _ _ _ => true
  | _ => false
  end.

Definition cmd_known (cmd : ctl_cmd) : bool := match cmd with CMD_OTHER _ => false | _ => true end.

(** [from_fault] and [to_fault]: the memory of the caller cannot be read, or
    written. *)
Definition cyanfs_ctl_ioctl (from_fault to_fault : bool) (x : Z) (cmd : ctl_cmd) m : res (Z * ctl_out * lmodule K) :=
  if negb (cmd_known cmd) then inr (- ENOSYS, OUT_NONE, m) else
  if from_fault then inr (- EFAULT, OUT_NONE, m) else
  '(r, out, m) ← ctl_run x cmd m;
  if r <? 0 then inr (r, OUT_NONE, m) else
  if cmd_output cmd && to_fault then inr (- EFAULT, OUT_NONE, m) else
  inr (0, if cmd_output cmd then out else OUT_NONE, m).
End ctl.
