(* ===== verification/LinuxConfig.v ===== *)
(** * LinuxConfig: the directories of configfs

    [linux/configfs.c], the second interface of the module: a directory per
    backend, with the disks as its subdirectories, and files that show the state
    of the file system or run a command when they are written. *)
From Stdlib Require Import ZArith Lia.
From S2P Require Import Prelude Count Disk Base Journal Types Super World JournalIO Discard Compact Flusher Api ReadWrite System Errno Edit Bio Backend Linux LinuxCtl.

(** ** Text *)

(** A C string is a list of characters; it ends at a NUL or with the list. *)
Definition head_char (s : list Z) : Z := match s with c :: _ => c | [] => 0 end.

Fixpoint strnlen (s : list Z) (max : nat) : nat :=
  match max, s with
  | S max, c :: s => if c =? 0 then O else S (strnlen s max)
  | _, _ => O
  end.

(** [memset] and [memcpy] into a name. *)
Definition name_of (chars : list Z) : cyanfs_file_name_t := chars ++ replicate (CYANFS_FILE_NAME_SIZE - length chars) 0.

(** [sizeof(name->data)] *)
Definition NAME_DATA_SIZE : nat := 127.

Definition cyanfs_configfs_is_space (c : Z) : bool :=
  (c =? 32) || (c =? 9) || (c =? 10) || (c =? 13) || (c =? 12) || (c =? 11).

Fixpoint skip_spaces (s : list Z) : list Z :=
  match s with
  | c :: s' => if negb (c =? 0) && cyanfs_configfs_is_space c then skip_spaces s' else s
  | [] => []
  end.

(** The word at the front, and the rest. *)
Fixpoint next_word (s : list Z) : list Z * list Z :=
  match s with
  | c :: s' => if negb (c =? 0) && negb (cyanfs_configfs_is_space c) then let '(w, r) := next_word s' in (c :: w, r) else ([], s)
  | [] => ([], [])
  end.

(** The error, the name, and the cursor. *)
Definition cyanfs_configfs_next_name (cursor : list Z) : Z * option cyanfs_file_name_t * list Z :=
  let cursor := skip_spaces cursor in
  if head_char cursor =? 0 then (- EINVAL, None, cursor) else
  let '(word, cursor) := next_word cursor in
  if (NAME_DATA_SIZE <? length word)%nat then (- ENAMETOOLONG, None, cursor) else (0, Some (name_of word), cursor).

(** The decimal digits of a number, padded with blanks on the left; [fuel]
    bounds the digits, a 64-bit number has at most 20. *)
Fixpoint digits (fuel : nat) (v : Z) : list Z :=
  match fuel with
  | O => []
  | S fuel => (if v <? 10 then [] else digits fuel (v / 10)) ++ [48 + v mod 10]
  end.
Definition fmt_u (width : nat) (v : Z) : list Z := let d := digits 20 v in replicate (width - length d) 32 ++ d.

Definition fmt_s (s : list Z) : list Z := take (strnlen s (length s)) s.

Section config.
Context {K : Type} `{!Kernel K} {BL : BlockLayer} (errno_to_blk_status : Z → Z) (race : world → world) (fuel : nat).
Implicit Types m : lmodule K.

(** ** What is shown *)
Definition statfs_title : list Z := (* "    Free     Data  Journal Reserved    Total         Size\n" *)
  [32;32;32;32;70;114;101;101; 32;32;32;32;32;68;97;116;97; 32;32;74;111;117;114;110;97;108; 32;82;101;115;101;114;118;101;100;
   32;32;32;32;84;111;116;97;108; 32;32;32;32;32;32;32;32;32;83;105;122;101; 10].

Definition list_title : list Z := (* "    ID Parent Child  Extents         Size Name\n" *)
  [32;32;32;32;73;68; 32;80;97;114;101;110;116; 32;67;104;105;108;100; 32;32;69;120;116;101;110;116;115;
   32;32;32;32;32;32;32;32;32;83;105;122;101; 32;78;97;109;101; 10].

Definition statfs_line (v : cyanfs_super_meta) : list Z :=
  fmt_u 8 (sm_free_extents v) ++ [32] ++ fmt_u 8 (sm_data_extents v) ++ [32] ++ fmt_u 8 (sm_journal_extents v) ++ [32] ++
  fmt_u 8 (sm_reserved_extents v) ++ [32] ++ fmt_u 8 (sm_total_extents v) ++ [32] ++ fmt_u 12 (sm_size v) ++ [10].

Definition list_line (v : cyanfs_file_meta) : list Z :=
  fmt_u 6 (fm_id v) ++ [32] ++ fmt_u 6 (fm_parent_id v) ++ [32] ++ fmt_u 5 (fm_children v) ++ [32] ++ fmt_u 8 (fm_extents v) ++ [32] ++
  fmt_u 12 (fm_size v) ++ [32] ++ fmt_s (fm_name v) ++ [10].

(** The page that is written has [PAGE_SIZE] bytes; every [sprintf] also writes
    a NUL. *)
Definition sprintf (page s : list Z) : res (list Z) :=
  if PAGE_SIZE <? Z.of_nat (length page + length s + 1) then inl OVERRUN else inr (page ++ s).

Definition cyanfs_block_device_id_show (d : Z) m : res (list Z) := c ← live (m_devices m !! d); sprintf [] (fmt_u 0 (cb_id c) ++ [10]).

Definition statfs_show (s : cyanfs_super) : res (Z + list Z) :=
  match cyanfs_statfs s with
  | (ST_OK, Some v) => page ← sprintf [] statfs_title; page ← sprintf page (statfs_line v); inr (inr page)
  | (st, _) => inr (inl (errno_of st))
  end.
Definition cyanfs_backend_cmd_statfs_show (a : Z) m : res (Z + list Z) := b ← live (m_backends m !! a); statfs_show (w_super (be_super b)).

(** Every round shows a file with a larger id, so [n] can be one more than the
    number of files. *)
Fixpoint list_lines (n : nat) (iter : Z) (s : cyanfs_super) (page : list Z) : res (list Z) :=
  match n with
  | O => inl ABORT
  | S n =>
      match cyanfs_list iter s with
      | (ST_OK, Some v) => page ← sprintf page (list_line v); list_lines n (fm_id v) s page
      | _ => inr page
      end
  end.
Definition list_show (s : cyanfs_super) : res (list Z) := page ← sprintf [] list_title; list_lines (S (size (files_by_id s))) 0 s page.
Definition cyanfs_backend_cmd_list_show (a : Z) m : res (list Z) := b ← live (m_backends m !! a); list_show (w_super (be_super b)).

(** ** Commands *)

(** The result of a command that wrote [count] bytes. *)
Definition stored (count : Z) (r : Z) : Z := if r <? 0 then r else count.
Definition store {A} (count : Z) (r : res (Z * A)) : res (Z * A) := '(r, x) ← r; inr (stored count r, x).

(** A name is looked up, its file is used. *)
Definition with_file (a : Z) (name : cyanfs_file_name_t) (f : Z → lmodule K → res (Z * lmodule K)) m : res (Z * lmodule K) :=
  '(r, meta, m) ← ask a (λ s, as_errno (cyanfs_lookup name s)) m;
  match meta with Some v => f (fm_id v) m | None => inr (r, m) end.

Definition with_name (cursor : list Z) (f : cyanfs_file_name_t → list Z → lmodule K → res (Z * lmodule K)) m : res (Z * lmodule K) :=
  let '(r, name, cursor) := cyanfs_configfs_next_name cursor in
  match name with Some name => f name cursor m | None => inr (r, m) end.

Definition cyanfs_backend_cmd_create_store (a : Z) (page : list Z) (count : Z) m : res (Z * lmodule K) :=
  store count (with_name page (λ name _, on_backend a (λ w, let '(st, _, w) := cyanfs_create name w in inr (errno_of st, w))) m).

Definition cyanfs_backend_cmd_fork_store (a : Z) (page : list Z) (count : Z) m : res (Z * lmodule K) :=
  store count (with_name page (λ from cursor, with_name cursor (λ to _, with_file a from (λ id,
    on_backend a (λ w, let '(st, _, w) := cyanfs_fork id to w in inr (errno_of st, w))))) m).

Definition cyanfs_backend_cmd_rename_store (a : Z) (page : list Z) (count : Z) m : res (Z * lmodule K) :=
  store count (with_name page (λ from cursor, with_name cursor (λ to _, with_file a from (λ id,
    on_backend a (λ w, '(st, w) ← core (cyanfs_rename id to w); inr (errno_of st, w))))) m).

(** [round_up] for a power of two. *)
Definition round_up (x y : Z) : Z := u64 (Z.lor (u64 (x - 1)) (y - 1) + 1).

(** [sscanf_llu]: the number at the front of a string, if there is one. *)
Definition cyanfs_backend_cmd_truncate_store (sscanf_llu : list Z → option Z) (a : Z) (page : list Z) (count : Z) m : res (Z * lmodule K) :=
  store count (with_name page (λ name cursor m,
    match sscanf_llu cursor with
    | None => inr (- EINVAL, m)
    | Some size =>
        if CYANFS_FILE_MAX_SIZE <? size then inr (- EINVAL, m) else
        with_file a name (λ id, on_backend a (λ w,
          '(st, w) ← core (cyanfs_truncate id (round_up size CYANFS_FILE_ALIGN_SIZE) w); inr (errno_of st, w))) m
    end) m).

Definition cyanfs_backend_cmd_delete_store (a : Z) (page : list Z) (count : Z) m : res (Z * lmodule K) :=
  store count (with_name page (λ name _, with_file a name (λ id,
    on_backend a (λ w, '(st, w) ← core (cyanfs_delete id w); inr (errno_of st, w)))) m).

Definition cyanfs_backend_cmd_sync_store (a count : Z) m : res (Z * lmodule K) := store count (backend_sync errno_to_blk_status race fuel a m).

Definition cyanfs_backend_cmd_compact_store (a count : Z) m : res (Z * lmodule K) :=
  store count (
    '(st, m) ← on_backend a (λ w, core (cyanfs_super_compact w)) m;
    if failed st then inr (errno_of st, m) else
    b ← live (m_backends m !! a);
    '(r, k, s, b) ← core (cyanfs_backend_wait_tasks errno_to_blk_status race fuel false (m_kernel m) (m_bios m) b);
    let m := put_backend a b (set_m_kernel k (set_m_bios s m)) in
    if r <? 0 then inr (r, m) else ask a (λ s, errno_of (cyanfs_super_status s)) m).

(** ** Directories *)

(** The directory of a disk. *)
Definition cyanfs_make_block_device (a : Z) (name : list Z) (write : bool) m : res (Z * option Z * lmodule K) :=
  let '(st, filename) := cyanfs_file_name_copy name in
  if failed st then inr (errno_of st, None, m) else
  '(error, meta, m) ← ask a (λ s, as_errno (cyanfs_lookup filename s)) m;
  match meta with
  | None => inr (error, None, m)
  | Some v =>
      '(error, o, m) ← cyanfs_block_device_alloc errno_to_blk_status race fuel a (fm_id v) write m;
      inr (error, o, match o with Some d => set_m_cfg_devices ({[d]} ∪ m_cfg_devices m) m | None => m end)
  end.

Definition cyanfs_make_block_device_ro (a : Z) (name : list Z) m : res (Z * option Z * lmodule K) := cyanfs_make_block_device a name false m.
Definition cyanfs_make_block_device_rw (a : Z) (name : list Z) m : res (Z * option Z * lmodule K) := cyanfs_make_block_device a name true m.

Definition cyanfs_release_block_device (d : Z) m : res (lmodule K) :=
  cyanfs_block_device_put d (set_m_cfg_devices (m_cfg_devices m ∖ {[d]}) m).

(** [char devpath[128]], with "/dev/" in front. *)
Definition DEVPATH_SIZE : Z := 128.

(** [lookup_bdev]: an error or the number of the device with a path. *)
Definition cyanfs_make_backend (lookup_bdev : list Z → Z + Z) (name : list Z) (mallocs : list bool) m : res (Z * option Z * lmodule K) :=
  if DEVPATH_SIZE <? 5 + Z.of_nat (length name) + 1 then inl OVERRUN else
  match lookup_bdev ([47; 100; 101; 118; 47] ++ name) with
  | inl error => inr (error, None, m)
  | inr dev =>
      '(error, o, k) ← core (cyanfs_backend_open errno_to_blk_status race fuel dev mallocs (m_kernel m));
      let m := set_m_kernel k m in
      match o with
      | None => inr (error, None, m)
      | Some b =>
          let a := m_next m in
          inr (0, Some a, set_m_cfg_backends ({[a]} ∪ m_cfg_backends m) (put_backend a b (set_m_next (a + 1) m)))
      end
  end.

Definition cyanfs_release_backend (a : Z) m : res (lmodule K) :=
  cyanfs_backend_put errno_to_blk_status race fuel a (set_m_cfg_backends (m_cfg_backends m ∖ {[a]}) m).
End config.

(** ** Loading and unloading ([main.c]) *)

(** What the module is registered for in the kernel. *)
Record registered := mk_registered { rg_blkdev : bool; rg_workqueue : bool; rg_ctl : bool; rg_configfs : bool }.
Definition no_registered : registered := mk_registered false false false false.

Definition register_blkdev (r : registered) : registered := mk_registered true (rg_workqueue r) (rg_ctl r) (rg_configfs r).
Definition unregister_blkdev (r : registered) : registered := mk_registered false (rg_workqueue r) (rg_ctl r) (rg_configfs r).
Definition alloc_workqueue (r : registered) : registered := mk_registered (rg_blkdev r) true (rg_ctl r) (rg_configfs r).
Definition destroy_workqueue (r : registered) : registered := mk_registered (rg_blkdev r) false (rg_ctl r) (rg_configfs r).
Definition cyanfs_ctl_register (error : Z) (r : registered) : Z * registered :=
  (error, if error <? 0 then r else mk_registered (rg_blkdev r) (rg_workqueue r) true (rg_configfs r)).
Definition cyanfs_ctl_unregister (r : registered) : registered := mk_registered (rg_blkdev r) (rg_workqueue r) false (rg_configfs r).
Definition cyanfs_configfs_register (error : Z) (r : registered) : Z * registered :=
  (error, if error <? 0 then r else mk_registered (rg_blkdev r) (rg_workqueue r) (rg_ctl r) true).
Definition cyanfs_configfs_unregister (r : registered) : registered := mk_registered (rg_blkdev r) (rg_workqueue r) (rg_ctl r) false.

(** What the kernel answers: the major number, whether there is a work queue,
    the results of the two registrations.  [debug]: [CYANFS_DEBUG_ENABLED]. *)
Definition cyanfs_init (debug : bool) (major : Z) (workqueue : bool) (ctl configfs : Z) (r : registered) : Z * registered :=
  if major <=? 0 then (- EBUSY, r) else
  let r := register_blkdev r in
  if negb workqueue then (- ENOMEM, unregister_blkdev r) else
  let r := alloc_workqueue r in
  let '(error, r) := cyanfs_ctl_register ctl r in
  if error <? 0 then (error, unregister_blkdev (destroy_workqueue r)) else
  let '(error, r) := if debug then cyanfs_configfs_register configfs r else (error, r) in
  if error <? 0 then (error, unregister_blkdev (destroy_workqueue (cyanfs_ctl_unregister r))) else (0, r).

Definition cyanfs_exit (debug : bool) (r : registered) : registered :=
  let r := if debug then cyanfs_configfs_unregister r else r in
  unregister_blkdev (destroy_workqueue (cyanfs_ctl_unregister r)).

(** Loading registers everything or nothing; unloading gives it all back. *)
Lemma init_all_or_nothing debug major workqueue ctl configfs :
  let '(error, r) := cyanfs_init debug major workqueue ctl configfs no_registered in
  if error =? 0 then r = mk_registered true true true debug ∧ cyanfs_exit debug r = no_registered else error < 0 ∧ r = no_registered.
Proof.
  unfold cyanfs_init. destruct (Z.leb_spec major 0); [done|]. destruct workqueue; [|done]. unfold cyanfs_ctl_register.
  destruct (Z.ltb_spec ctl 0) as [Hc|Hc]; cbn -[Z.ltb].
  - destruct (Z.ltb_spec ctl 0); [|lia]. destruct (Z.eqb_spec ctl 0); [lia|done].
  - destruct (Z.ltb_spec ctl 0); [lia|]. destruct debug; cbn -[Z.ltb].
    + destruct (Z.ltb_spec configfs 0) as [Hf|Hf]; [|done]. destruct (Z.eqb_spec configfs 0); [lia|done].
    + destruct (Z.ltb_spec ctl 0); [lia|done].
Qed.
