(* ===== verification/LinuxRefs.v ===== *)
(** * LinuxRefs: who holds the objects of the Linux module

    The invariant of the reference counts of [linux/main.c] and
    [linux/vdisk.c]: the count of a backend is the number of its holders (the
    tree of the control device, a directory of configfs, the disks and the bound
    descriptors), the count of a disk is at least the number of its own; what is
    held is there.  Every operation of the module keeps it. *)
From Stdlib Require Import ZArith Lia.
From S2P Require Import Prelude Count Disk Base Journal Types Super World JournalIO Discard Compact Flusher Api ReadWrite System Errno Bio Backend BackendSpec Linux LinuxCtl LinuxConfig.

(** ** Outcomes that use nothing that is gone *)
Definition safe {A} (r : res A) (P : A → Prop) : Prop := match r with inl DANGLING => False | inl _ => True | inr x => P x end.

Lemma safe_bind {A B} (r : res A) (f : A → res B) P Q : safe r P → (∀ x, P x → safe (f x) Q) → safe (r ≫= f) Q.
Proof. destruct r as [[]|x]; cbn; auto. Qed.

Lemma safe_mono {A} (r : res A) (P Q : A → Prop) : safe r P → (∀ x, P x → Q x) → safe r Q.
Proof. destruct r as [[]|x]; cbn; auto. Qed.

Lemma safe_live {A} (x : option A) y (P : A → Prop) : x = Some y → P y → safe (live x) P.
Proof. by intros ->. Qed.

Lemma safe_core {A} (x : option A) (P : A → Prop) : (∀ y, x = Some y → P y) → safe (core x) P.
Proof. destruct x as [y|]; cbn; auto. Qed.

Lemma safe_bind_live {A B} (x : option A) y (f : A → res B) Q : x = Some y → safe (f y) Q → safe (live x ≫= f) Q.
Proof. by intros ->. Qed.

Lemma safe_bind_core {A B} (x : option A) (f : A → res B) Q : (∀ y, x = Some y → safe (f y) Q) → safe (core x ≫= f) Q.
Proof. destruct x as [y|]; cbn; auto. Qed.

Lemma b2z_insert (a a1 : Z) (t : gset Z) : a ∉ t → Z.b2z (bool_decide (a1 ∈ {[a]} ∪ t)) = Z.b2z (bool_decide (a = a1)) + Z.b2z (bool_decide (a1 ∈ t)).
Proof.
  intros Hn. destruct (decide (a = a1)) as [<-|Hne].
  - rewrite (bool_decide_true (a ∈ _)) by (by apply elem_of_union_l, elem_of_singleton). by rewrite bool_decide_true, bool_decide_false.
  - rewrite (bool_decide_false (a = a1)) by done. change (Z.b2z false) with 0. rewrite Z.add_0_l. f_equal. apply bool_decide_ext. rewrite elem_of_union, elem_of_singleton.
    naive_solver.
Qed.

Lemma b2z_remove (a a1 : Z) (t : gset Z) : a ∈ t → Z.b2z (bool_decide (a = a1)) + Z.b2z (bool_decide (a1 ∈ t ∖ {[a]})) = Z.b2z (bool_decide (a1 ∈ t)).
Proof.
  intros Ha. destruct (decide (a = a1)) as [<-|Hne].
  - rewrite (bool_decide_false (a ∈ t ∖ _)) by (rewrite elem_of_difference, elem_of_singleton; naive_solver). by rewrite !bool_decide_true.
  - rewrite (bool_decide_false (a = a1)) by done. change (Z.b2z false) with 0. rewrite Z.add_0_l. f_equal. apply bool_decide_ext. rewrite elem_of_difference, elem_of_singleton.
    naive_solver.
Qed.

Lemma some_ext (x y : Z) : bool_decide (Some x = Some y) = bool_decide (x = y).
Proof. apply bool_decide_ext. naive_solver. Qed.

(** ** The invariant *)
Section refs.
Context {K : Type} `{!Kernel K, !KernelLaws K} (blk : Z → Z) (race : world → world) (fuel : nat) (p0 u0 : Z).
Implicit Types m : lmodule K.

(** [X], [Y]: the references in the hands of the operation that runs. *)
Definition holders (X : list Z) (a : Z) m : Z :=
  occurs a X + map_count (λ x, x = a) (m_backend_rb m) + Z.b2z (bool_decide (a ∈ m_cfg_backends m)) +
  map_count (λ c, cb_backend c = a) (m_devices m) + map_count (λ c, cx_backend c = Some a) (m_ctxs m).

Definition keepers (Y : list Z) (d : Z) m : Z :=
  occurs d Y + map_count (λ x, x = d) (m_device_rb m) + Z.b2z (bool_decide (d ∈ m_cfg_devices m)).

Definition backend_ok (X : list Z) m (a : Z) : Prop :=
  match m_backends m !! a with Some b => 0 < be_ref b ∧ be_ref b = holders X a m | None => holders X a m = 0 end.

Definition device_ok (Y : list Z) m (d : Z) : Prop :=
  match m_devices m !! d with
  | Some c => 0 ≤ cb_opens c ∧ keepers Y d m + cb_opens c ≤ cb_ref c ∧ (cb_work c = true ↔ cb_ref c = 0) ∧ m_idr m !! cb_id c = Some d
  | None => keepers Y d m = 0
  end.

Record refs (X Y : list Z) m : Prop := mk_refs {
  r_backend a : backend_ok X m a;
  r_device d : device_ok Y m d;
  r_rb key a : m_backend_rb m !! key = Some a → ∃ b, m_backends m !! a = Some b ∧ be_dev_id b = key;
  r_drb key d : m_device_rb m !! key = Some d →
    ∃ c b, m_devices m !! d = Some c ∧ m_backends m !! cb_backend c = Some b ∧ key = cbd_key (be_dev_id b) (cb_file_id c);
  r_claimed a b : m_backends m !! a = Some b → be_dev_id b ∈ k_claimed (m_kernel m);
  r_distinct a a' b b' : m_backends m !! a = Some b → m_backends m !! a' = Some b' → be_dev_id b = be_dev_id b' → a = a';
  r_fresh a : m_next m ≤ a → m_backends m !! a = None ∧ m_devices m !! a = None ∧ m_ctxs m !! a = None;
  r_pages : k_pages (m_kernel m) = p0 + CYANFS_BIO_MAX_VECS * Z.of_nat (size (m_backends m));
  r_users : k_users (m_kernel m) = u0 + Z.of_nat (size (m_backends m)) }.

(** *** Holders *)
Lemma holders_nonneg X a m : 0 ≤ holders X a m.
Proof using Type.
  unfold holders. pose proof (list_count_nonneg (λ x, x = a) X). pose proof (map_count_nonneg (λ x, x = a) (m_backend_rb m)).
  pose proof (map_count_nonneg (λ c, cb_backend c = a) (m_devices m)). pose proof (map_count_nonneg (λ c, cx_backend c = Some a) (m_ctxs m)).
  destruct (bool_decide _); cbn [Z.b2z]; lia.
Qed.

Lemma keepers_nonneg Y d m : 0 ≤ keepers Y d m.
Proof using Type.
  unfold keepers. pose proof (list_count_nonneg (λ x, x = d) Y). pose proof (map_count_nonneg (λ x, x = d) (m_device_rb m)).
  destruct (bool_decide _); cbn [Z.b2z]; lia.
Qed.

Lemma holders_cons x X a m : holders (x :: X) a m = Z.b2z (bool_decide (x = a)) + holders X a m.
Proof using Type. unfold holders. rewrite list_count_cons. lia. Qed.

Lemma keepers_cons x Y d m : keepers (x :: Y) d m = Z.b2z (bool_decide (x = d)) + keepers Y d m.
Proof using Type. unfold keepers. rewrite list_count_cons. lia. Qed.

Lemma held_live X Y a m : refs X Y m → 0 < holders X a m → ∃ b, m_backends m !! a = Some b.
Proof using Type. intros [Hb _ _ _ _ _ _ _ _] Hh. specialize (Hb a). unfold backend_ok in Hb. destruct (m_backends m !! a) as [b|]; [by exists b|lia]. Qed.

Lemma kept_live X Y d m : refs X Y m → 0 < keepers Y d m → ∃ c, m_devices m !! d = Some c.
Proof using Type. intros [_ Hd _ _ _ _ _ _ _] Hh. specialize (Hd d). unfold device_ok in Hd. destruct (m_devices m !! d) as [c|]; [by exists c|lia]. Qed.

Lemma token_live a X Y m : refs (a :: X) Y m → ∃ b, m_backends m !! a = Some b.
Proof using Type.
  intros H. apply (held_live _ _ _ _ H). rewrite holders_cons, bool_decide_true by done. pose proof (holders_nonneg X a m). cbn [Z.b2z]. lia.
Qed.

Lemma cfg_live a X Y m : refs X Y m → a ∈ m_cfg_backends m → ∃ b, m_backends m !! a = Some b.
Proof using Type.
  intros H Ha. apply (held_live _ _ _ _ H). unfold holders. rewrite (bool_decide_true (a ∈ _)) by done.
  pose proof (list_count_nonneg (λ x, x = a) X). pose proof (map_count_nonneg (λ x, x = a) (m_backend_rb m)).
  pose proof (map_count_nonneg (λ c, cb_backend c = a) (m_devices m)). pose proof (map_count_nonneg (λ c, cx_backend c = Some a) (m_ctxs m)).
  cbn [Z.b2z]. lia.
Qed.

Lemma device_backend_live X Y d c m : refs X Y m → m_devices m !! d = Some c → ∃ b, m_backends m !! cb_backend c = Some b.
Proof using Type.
  intros H Hd. apply (held_live _ _ _ _ H). unfold holders. pose proof (map_count_pos (λ c', cb_backend c' = cb_backend c) _ _ _ Hd eq_refl).
  pose proof (list_count_nonneg (λ x, x = cb_backend c) X). pose proof (map_count_nonneg (λ x, x = cb_backend c) (m_backend_rb m)).
  pose proof (map_count_nonneg (λ x, cx_backend x = Some (cb_backend c)) (m_ctxs m)). destruct (bool_decide _); cbn [Z.b2z]; lia.
Qed.

Lemma ctx_backend_live X Y x c a m : refs X Y m → m_ctxs m !! x = Some c → cx_backend c = Some a → ∃ b, m_backends m !! a = Some b.
Proof using Type.
  intros H Hx Ha. apply (held_live _ _ _ _ H). unfold holders. pose proof (map_count_pos (λ c', cx_backend c' = Some a) _ _ _ Hx Ha).
  pose proof (list_count_nonneg (λ x, x = a) X). pose proof (map_count_nonneg (λ x, x = a) (m_backend_rb m)).
  pose proof (map_count_nonneg (λ c, cb_backend c = a) (m_devices m)). destruct (bool_decide _); cbn [Z.b2z]; lia.
Qed.

(** *** Changes that hold nothing *)
Lemma refs_kernel X Y k m : refs X Y m → k_held k = k_held (m_kernel m) → refs X Y (set_m_kernel k m).
Proof using Type.
  intros [] E. unfold k_held in E. injection E as E1 E2 E3 _. split; try assumption; cbn [set_m_kernel m_kernel m_backends]; [by rewrite E1|by rewrite E2|by rewrite E3].
Qed.

Lemma refs_bios X Y s m : refs X Y m → refs X Y (set_m_bios s m).
Proof using Type. by intros []; split. Qed.

Lemma refs_next X Y n m : refs X Y m → m_next m ≤ n → refs X Y (set_m_next n m).
Proof using Type. intros [] Hn. split; try assumption. intros a Ha. apply r_fresh0. cbn [set_m_next m_next] in Ha. lia. Qed.

(** A backend whose device stays, with as many holders as it counts. *)
Lemma refs_count X X' Y a b b' m : refs X Y m → m_backends m !! a = Some b → be_dev_id b' = be_dev_id b → 0 < be_ref b' →
  be_ref b' = holders X' a m → (∀ a1, a1 ≠ a → holders X' a1 m = holders X a1 m) → refs X' Y (put_backend a b' m).
Proof using Type.
  intros [Hb Hd Hrb Hdrb Hc Hu Hf Hp Hus] Ha Ed Hpos Er Hoth.
  assert (Hget : ∀ a1 b1, <[a := b']> (m_backends m) !! a1 = Some b1 → ∃ b2, m_backends m !! a1 = Some b2 ∧ be_dev_id b2 = be_dev_id b1).
  { intros a1 b1 [[-> <-]|[Hne H]]%lookup_insert_Some; [exists b; by split|exists b1; by split]. }
  assert (Hput : ∀ a1 b1, m_backends m !! a1 = Some b1 → ∃ b2, <[a := b']> (m_backends m) !! a1 = Some b2 ∧ be_dev_id b2 = be_dev_id b1).
  { intros a1 b1 H1. destruct (decide (a = a1)) as [<-|Hne]; [exists b'; rewrite lookup_insert_eq; split; [done|congruence]|].
    exists b1. by rewrite lookup_insert_ne. }
  split; cbn [put_backend set_m_backends m_backends m_backend_rb m_device_rb m_devices m_kernel m_next m_ctxs]; try done.
  - intros a1. specialize (Hb a1). unfold backend_ok in *. cbn [put_backend set_m_backends m_backends]. destruct (decide (a = a1)) as [<-|Hne].
    + by rewrite lookup_insert_eq.
    + rewrite lookup_insert_ne by done. specialize (Hoth a1 (not_eq_sym Hne)).
      change (holders X' a1 (put_backend a b' m)) with (holders X' a1 m). by rewrite Hoth.
  - intros key a1 H1. destruct (Hrb _ _ H1) as (b1 & H2 & <-). apply Hput in H2 as (b2 & ? & ?). by exists b2.
  - intros key d H1. destruct (Hdrb _ _ H1) as (c & b1 & ? & H2 & ->). apply Hput in H2 as (b2 & ? & E). exists c, b2. by rewrite E.
  - intros a1 b1 H1. apply Hget in H1 as (b2 & H2 & <-). by eapply Hc.
  - intros a1 a2 b1 b2 H1 H2 E. apply Hget in H1 as (b3 & H3 & E3). apply Hget in H2 as (b4 & H4 & E4). apply (Hu _ _ _ _ H3 H4). congruence.
  - intros a1 H1. destruct (Hf a1 H1) as (? & ? & ?). split; [|done]. apply lookup_insert_None. split; [done|]. intros ->. congruence.
  - rewrite map_size_insert_Some by (by exists b). done.
  - rewrite map_size_insert_Some by (by exists b). done.
Qed.

Lemma ref_holders X Y a b m : refs X Y m → m_backends m !! a = Some b → 0 < be_ref b ∧ be_ref b = holders X a m.
Proof using Type. intros [Hb _ _ _ _ _ _ _ _] Ha. specialize (Hb a). unfold backend_ok in Hb. by rewrite Ha in Hb. Qed.

Lemma refs_put_backend X Y a b b' m : refs X Y m → m_backends m !! a = Some b → be_ref b' = be_ref b → be_dev_id b' = be_dev_id b →
  refs X Y (put_backend a b' m).
Proof using Type. intros H Ha Er Ed. destruct (ref_holders _ _ _ _ _ H Ha). apply (refs_count X X Y a b b' m); try done; congruence. Qed.

Lemma kick_same w b : be_ref (kick w b) = be_ref b ∧ be_dev_id (kick w b) = be_dev_id b.
Proof using Type. unfold kick. by destruct (bool_decide _). Qed.

Lemma refs_kick X Y a w b m : refs X Y m → m_backends m !! a = Some b → refs X Y (put_backend a (kick w b) m).
Proof using Type. intros H Ha. destruct (kick_same w b). by eapply refs_put_backend. Qed.

(** *** References of a backend *)
Lemma refs_get X Y a b m : refs X Y m → m_backends m !! a = Some b → refs (a :: X) Y (put_backend a (set_be_ref (be_ref b + 1) b) m).
Proof using Type.
  intros H Ha. destruct (ref_holders _ _ _ _ _ H Ha) as [Hp Hh].
  apply (refs_count X (a :: X) Y a b _ m H Ha); cbn [set_be_ref be_ref be_dev_id]; [done|lia| |].
  - rewrite holders_cons, bool_decide_true by done. cbn [Z.b2z]. lia.
  - intros a1 Hne. by rewrite holders_cons, bool_decide_false by congruence.
Qed.

Lemma refs_unref X Y a b m : refs (a :: X) Y m → m_backends m !! a = Some b → be_ref b - 1 ≠ 0 →
  refs X Y (put_backend a (set_be_ref (be_ref b - 1) b) m).
Proof using Type.
  intros H Ha Hn. destruct (ref_holders _ _ _ _ _ H Ha) as [Hp Hh]. rewrite holders_cons, bool_decide_true in Hh by done. cbn [Z.b2z] in Hh.
  apply (refs_count (a :: X) X Y a b _ m H Ha); cbn [set_be_ref be_ref be_dev_id]; [done|lia|lia|].
  intros a1 Hne. by rewrite holders_cons, bool_decide_false by congruence.
Qed.

Lemma holders_zero X a m : holders X a m = 0 →
  occurs a X = 0 ∧ (∀ key, m_backend_rb m !! key ≠ Some a) ∧ a ∉ m_cfg_backends m ∧ (∀ d c, m_devices m !! d = Some c → cb_backend c ≠ a) ∧
  (∀ x c, m_ctxs m !! x = Some c → cx_backend c ≠ Some a).
Proof using Type.
  unfold holders. intros H. pose proof (list_count_nonneg (λ x, x = a) X). pose proof (map_count_nonneg (λ x, x = a) (m_backend_rb m)).
  pose proof (map_count_nonneg (λ c, cb_backend c = a) (m_devices m)). pose proof (map_count_nonneg (λ c, cx_backend c = Some a) (m_ctxs m)).
  assert (Hc : a ∉ m_cfg_backends m) by (case_bool_decide; [cbn [Z.b2z] in *; lia|done]). rewrite (bool_decide_false (a ∈ _)) in H by done. cbn [Z.b2z] in H.
  split_and!; [lia| |done| |].
  - intros key Hk. pose proof (map_count_pos (λ x, x = a) _ _ _ Hk eq_refl). lia.
  - intros d c Hd E. pose proof (map_count_pos (λ c, cb_backend c = a) _ _ _ Hd E). lia.
  - intros x c Hx E. pose proof (map_count_pos (λ c, cx_backend c = Some a) _ _ _ Hx E). lia.
Qed.

(** The last one goes. *)
Lemma refs_free X Y a b k m : refs (a :: X) Y m → m_backends m !! a = Some b → be_ref b - 1 = 0 →
  k_held k = backend_gives (be_dev_id b) (k_held (m_kernel m)) → refs X Y (set_m_backends (delete a (m_backends m)) (set_m_kernel k m)).
Proof using Type.
  intros H Ha Hn Hk. destruct (ref_holders _ _ _ _ _ H Ha) as [Hp Hh]. rewrite holders_cons, bool_decide_true in Hh by done. cbn [Z.b2z] in Hh.
  assert (Hz : holders X a m = 0) by lia. destruct (holders_zero _ _ _ Hz) as (_ & Zrb & _ & Zdev & _).
  destruct H as [Hb Hd Hrb Hdrb Hc Hu Hf Hpg Hus]. unfold k_held, backend_gives in Hk. injection Hk as K1 K2 K3 _.
  split; cbn [set_m_backends set_m_kernel m_backends m_backend_rb m_device_rb m_devices m_kernel m_next m_ctxs]; try done.
  - intros a1. specialize (Hb a1). unfold backend_ok in *. cbn [set_m_backends m_backends]. rewrite holders_cons in Hb.
    change (holders X a1 (set_m_backends (delete a (m_backends m)) (set_m_kernel k m))) with (holders X a1 m). destruct (decide (a = a1)) as [<-|Hne].
    + by rewrite lookup_delete_eq.
    + rewrite lookup_delete_ne by done. rewrite bool_decide_false in Hb by done. exact Hb.
  - intros key a1 H1. destruct (Hrb _ _ H1) as (b1 & H2 & E). exists b1. rewrite lookup_delete_ne; [done|]. intros <-. by apply (Zrb key).
  - intros key d H1. destruct (Hdrb _ _ H1) as (c & b1 & H2 & H3 & E). exists c, b1. rewrite lookup_delete_ne; [done|]. intros E1. by apply (Zdev d c H2).
  - intros a1 b1 [Hne H1]%lookup_delete_Some. rewrite K1. apply elem_of_difference. split; [by eapply Hc|]. intros E%elem_of_singleton.
    by apply Hne, (Hu a a1 b b1).
  - intros a1 a2 b1 b2 [_ H1]%lookup_delete_Some [_ H2]%lookup_delete_Some. by apply (Hu a1 a2 b1 b2).
  - intros a1 H1. destruct (Hf a1 H1) as (? & ? & ?). split; [|done]. apply lookup_delete_None. by right.
  - rewrite K2, Hpg, map_size_delete_Some by (by exists b). pose proof (proj2 (map_size_ne_0_lookup (m_backends m)) (ex_intro _ a (ex_intro _ b Ha))). unfold CYANFS_BIO_MAX_VECS. lia.
  - rewrite K3, Hus, map_size_delete_Some by (by exists b). pose proof (proj2 (map_size_ne_0_lookup (m_backends m)) (ex_intro _ a (ex_intro _ b Ha))). lia.
Qed.

(** One that was opened. *)
Lemma refs_new_backend X Y b k m : refs X Y m → be_ref b = 1 → be_dev_id b ∉ k_claimed (m_kernel m) →
  k_held k = backend_holds (be_dev_id b) (k_held (m_kernel m)) →
  refs (m_next m :: X) Y (put_backend (m_next m) b (set_m_next (m_next m + 1) (set_m_kernel k m))).
Proof using Type.
  intros H Er Hn Hk. set (a := m_next m). destruct (r_fresh _ _ _ H a ltac:(lia)) as (Fa & Fd & Fx).
  assert (Hz : holders X a m = 0) by (pose proof (r_backend _ _ _ H a) as Hb; unfold backend_ok in Hb; by rewrite Fa in Hb).
  destruct H as [Hb Hd Hrb Hdrb Hc Hu Hf Hpg Hus]. unfold k_held, backend_holds in Hk. injection Hk as K1 K2 K3 _.
  assert (Hput : ∀ a1 b1, m_backends m !! a1 = Some b1 → <[a := b]> (m_backends m) !! a1 = Some b1).
  { intros a1 b1 H1. rewrite lookup_insert_ne; [done|]. intros <-. congruence. }
  split; cbn [put_backend set_m_backends set_m_next set_m_kernel m_backends m_backend_rb m_device_rb m_devices m_kernel m_next m_ctxs]; try done.
  - intros a1. specialize (Hb a1). unfold backend_ok in *. cbn [put_backend set_m_backends set_m_next set_m_kernel m_backends]. rewrite holders_cons.
    change (holders X a1 (put_backend a b (set_m_next (a + 1) (set_m_kernel k m)))) with (holders X a1 m). destruct (decide (a = a1)) as [<-|Hne].
    + rewrite lookup_insert_eq, bool_decide_true by done. cbn [Z.b2z]. lia.
    + rewrite lookup_insert_ne, bool_decide_false by done. exact Hb.
  - intros key a1 H1. destruct (Hrb _ _ H1) as (b1 & H2 & E). exists b1. by rewrite (Hput _ _ H2).
  - intros key d H1. destruct (Hdrb _ _ H1) as (c & b1 & H2 & H3 & E). exists c, b1. by rewrite (Hput _ _ H3).
  - intros a1 b1 [[<- <-]|[Hne H1]]%lookup_insert_Some; rewrite K1; [by apply elem_of_union_l, elem_of_singleton|]. apply elem_of_union_r. by eapply Hc.
  - intros a1 a2 b1 b2 [[<- <-]|[? H1]]%lookup_insert_Some [[<- <-]|[? H2]]%lookup_insert_Some E; try done.
    + exfalso. apply Hn. rewrite E. by eapply Hc.
    + exfalso. apply Hn. rewrite <- E. by eapply Hc.
    + by apply (Hu a1 a2 b1 b2).
  - intros a1 H1. destruct (Hf a1) as (? & ? & ?); [unfold a in H1; lia|]. split; [|done]. apply lookup_insert_None. split; [done|unfold a; lia].
  - rewrite K2, Hpg, map_size_insert_None by done. unfold CYANFS_BIO_MAX_VECS. lia.
  - rewrite K3, Hus, map_size_insert_None by done. lia.
Qed.

(** *** The tree, the directories and the descriptors *)
Lemma refs_rb X X' Y t m : refs X Y m → (∀ a, holders X' a (set_m_backend_rb t m) = holders X a m) →
  (∀ key a, t !! key = Some a → ∃ b, m_backends m !! a = Some b ∧ be_dev_id b = key) → refs X' Y (set_m_backend_rb t m).
Proof using Type.
  intros [Hb Hd Hrb Hdrb Hc Hu Hf Hpg Hus] Hh Ht. split; try assumption. intros a. specialize (Hb a). unfold backend_ok in *. by rewrite Hh.
Qed.

Lemma refs_rb_in X Y a b m : refs (a :: X) Y m → m_backends m !! a = Some b → m_backend_rb m !! be_dev_id b = None →
  refs X Y (set_m_backend_rb (<[be_dev_id b := a]> (m_backend_rb m)) m).
Proof using Type.
  intros H Ha Hn. apply (refs_rb (a :: X)); [done| |].
  - intros a1. rewrite holders_cons. unfold holders. cbn [set_m_backend_rb m_backend_rb m_cfg_backends m_devices m_ctxs].
    rewrite map_count_insert by done. lia.
  - intros key a1 [[<- <-]|[_ H1]]%lookup_insert_Some; [by exists b|by apply (r_rb _ _ _ H)].
Qed.

Lemma refs_rb_out X Y key a m : refs X Y m → m_backend_rb m !! key = Some a → refs (a :: X) Y (set_m_backend_rb (delete key (m_backend_rb m)) m).
Proof using Type.
  intros H Hk. apply (refs_rb X); [done| |].
  - intros a1. rewrite holders_cons. unfold holders. cbn [set_m_backend_rb m_backend_rb m_cfg_backends m_devices m_ctxs].
    rewrite (map_count_delete _ _ _ _ Hk). lia.
  - intros key1 a1 [_ H1]%lookup_delete_Some. by apply (r_rb _ _ _ H).
Qed.

Lemma refs_cfg X X' Y t m : refs X Y m → (∀ a, holders X' a (set_m_cfg_backends t m) = holders X a m) → refs X' Y (set_m_cfg_backends t m).
Proof using Type.
  intros [Hb Hd Hrb Hdrb Hc Hu Hf Hpg Hus] Hh. split; try assumption. intros a. specialize (Hb a). unfold backend_ok in *. by rewrite Hh.
Qed.

Lemma refs_cfg_in X Y a m : refs (a :: X) Y m → a ∉ m_cfg_backends m → refs X Y (set_m_cfg_backends ({[a]} ∪ m_cfg_backends m) m).
Proof using Type.
  intros H Hn. apply (refs_cfg (a :: X)); [done|]. intros a1. rewrite holders_cons. unfold holders.
  cbn [set_m_cfg_backends m_backend_rb m_cfg_backends m_devices m_ctxs]. rewrite (b2z_insert a a1 _ Hn). lia.
Qed.

Lemma refs_cfg_out X Y a m : refs X Y m → a ∈ m_cfg_backends m → refs (a :: X) Y (set_m_cfg_backends (m_cfg_backends m ∖ {[a]}) m).
Proof using Type.
  intros H Ha. apply (refs_cfg X); [done|]. intros a1. rewrite holders_cons. unfold holders.
  cbn [set_m_cfg_backends m_backend_rb m_cfg_backends m_devices m_ctxs]. rewrite <- (b2z_remove a a1 _ Ha). lia.
Qed.

Lemma refs_ctxs X X' Y t m : refs X Y m → (∀ a, holders X' a (set_m_ctxs t m) = holders X a m) →
  (∀ x, m_next m ≤ x → t !! x = None) → refs X' Y (set_m_ctxs t m).
Proof using Type.
  intros [Hb Hd Hrb Hdrb Hc Hu Hf Hpg Hus] Hh Ht. split; try assumption.
  - intros a. specialize (Hb a). unfold backend_ok in *. by rewrite Hh.
  - intros a Ha. destruct (Hf a Ha) as (? & ? & _). by split_and!; [..|apply Ht].
Qed.

(** A new descriptor. *)
Lemma refs_ctx_new X Y x m : refs X Y m → m_ctxs m !! x = None → x < m_next m → refs X Y (set_m_ctxs (<[x := mk_ctx None]> (m_ctxs m)) m).
Proof using Type.
  intros H Hx Hlt. apply (refs_ctxs X); [done| |].
  - intros a. unfold holders. cbn [set_m_ctxs m_backend_rb m_cfg_backends m_devices m_ctxs]. rewrite map_count_insert by done.
    rewrite (bool_decide_false (cx_backend (mk_ctx None) = Some a)) by done. cbn [Z.b2z]. lia.
  - intros x1 H1. rewrite lookup_insert_ne by lia. by apply (r_fresh _ _ _ H).
Qed.

Lemma refs_ctx_bind X Y x c a file write m : refs (a :: X) Y m → m_ctxs m !! x = Some c → cx_bound c = None →
  refs X Y (set_m_ctxs (<[x := mk_ctx (Some (a, file, write))]> (m_ctxs m)) m).
Proof using Type.
  intros H Hx Hc. apply (refs_ctxs (a :: X)); [done| |].
  - intros a1. rewrite holders_cons. unfold holders. cbn [set_m_ctxs m_backend_rb m_cfg_backends m_devices m_ctxs].
    rewrite (map_count_update _ _ _ _ _ Hx). rewrite (bool_decide_false (cx_backend c = Some a1)) by (unfold cx_backend; by rewrite Hc).
    unfold cx_backend. cbn [cx_bound fmap option_fmap option_map fst snd Z.b2z].
    rewrite some_ext. lia.
  - intros x1 H1. destruct (r_fresh _ _ _ H x1 H1) as (_ & _ & Hn). rewrite lookup_insert_ne; [done|]. intros <-. congruence.
Qed.

(** A descriptor that is closed. *)
Definition bound_to (c : cyanfs_ctl_ctx) : list Z := option_list (cx_backend c).

Lemma refs_ctx_del X Y x c m : refs X Y m → m_ctxs m !! x = Some c → refs (bound_to c ++ X) Y (set_m_ctxs (delete x (m_ctxs m)) m).
Proof using Type.
  intros H Hx. apply (refs_ctxs X); [done| |].
  - intros a1. assert (holders (bound_to c ++ X) a1 (set_m_ctxs (delete x (m_ctxs m)) m) =
      Z.b2z (bool_decide (cx_backend c = Some a1)) + holders X a1 (set_m_ctxs (delete x (m_ctxs m)) m)) as ->.
    { unfold bound_to. destruct (cx_backend c) as [a|]; [change (option_list (Some a) ++ X) with (a :: X); by rewrite holders_cons, some_ext|].
      by rewrite bool_decide_false. }
    unfold holders. cbn [set_m_ctxs m_backend_rb m_cfg_backends m_devices m_ctxs]. rewrite (map_count_delete _ _ _ _ Hx). lia.
  - intros x1 H1. apply lookup_delete_None. right. by apply (r_fresh _ _ _ H).
Qed.

(** *** Disks *)

(** A disk that keeps its backend, its file and its number. *)
Lemma refs_put_device X Y Y' d c c' m : refs X Y m → m_devices m !! d = Some c →
  cb_id c' = cb_id c → cb_backend c' = cb_backend c → cb_file_id c' = cb_file_id c →
  0 ≤ cb_opens c' → keepers Y' d m + cb_opens c' ≤ cb_ref c' → (cb_work c' = true ↔ cb_ref c' = 0) →
  (∀ d1, d1 ≠ d → keepers Y' d1 m = keepers Y d1 m) → refs X Y' (put_device d c' m).
Proof using Type.
  intros [Hb Hd Hrb Hdrb Hc Hu Hf Hpg Hus] Hdc E1 E2 E3 Ho Hk Hw Hoth. split; try assumption.
  - intros a. specialize (Hb a). unfold backend_ok, holders in *. cbn [put_device set_m_devices m_backends m_backend_rb m_cfg_backends m_devices m_ctxs].
    rewrite (map_count_update _ _ _ _ _ Hdc), E2. destruct (m_backends m !! a); lia.
  - intros d1. specialize (Hd d1). unfold device_ok in *. cbn [put_device set_m_devices m_devices m_idr].
    change (keepers Y' d1 (put_device d c' m)) with (keepers Y' d1 m). destruct (decide (d = d1)) as [<-|Hne].
    + rewrite lookup_insert_eq. rewrite Hdc in Hd. rewrite E1. by split_and!; try apply Hd.
    + rewrite lookup_insert_ne by done. by rewrite (Hoth d1) by congruence.
  - intros key d1 H1. destruct (Hdrb _ _ H1) as (c1 & b & H2 & H3 & E). cbn [put_device set_m_devices m_devices m_backends].
    destruct (decide (d = d1)) as [<-|Hne]; [|exists c1, b; by rewrite lookup_insert_ne]. assert (c1 = c) as -> by congruence.
    exists c', b. rewrite lookup_insert_eq. by rewrite E2, E3.
  - intros a Ha. destruct (Hf a Ha) as (? & ? & ?). split_and!; [done| |done]. cbn [put_device set_m_devices m_devices].
    apply lookup_insert_None. split; [done|]. intros ->. congruence.
Qed.

Lemma device_kept X Y d c m : refs X Y m → m_devices m !! d = Some c →
  0 ≤ cb_opens c ∧ keepers Y d m + cb_opens c ≤ cb_ref c ∧ (cb_work c = true ↔ cb_ref c = 0) ∧ m_idr m !! cb_id c = Some d.
Proof using Type. intros [_ Hd _ _ _ _ _ _ _] H. specialize (Hd d). unfold device_ok in Hd. by rewrite H in Hd. Qed.

Lemma refs_new_device X Y a b d c m : refs (a :: X) Y m → m_devices m !! d = None → d < m_next m → m_backends m !! a = Some b →
  cb_backend c = a → cb_ref c = 1 → cb_work c = false → cb_opens c = 0 → m_idr m !! cb_id c = Some d → refs X (d :: Y) (put_device d c m).
Proof using Type.
  intros H Hn Hlt Ha Ea Er Ew Eo Ei. assert (Hz : keepers Y d m = 0) by (pose proof (r_device _ _ _ H d) as Hd; unfold device_ok in Hd; by rewrite Hn in Hd).
  destruct H as [Hb Hd Hrb Hdrb Hc Hu Hf Hpg Hus]. split; try assumption.
  - intros a1. specialize (Hb a1). unfold backend_ok in *. rewrite holders_cons in Hb. unfold holders in *.
    cbn [put_device set_m_devices m_backends m_backend_rb m_cfg_backends m_devices m_ctxs]. rewrite map_count_insert by done. rewrite Ea.
    destruct (m_backends m !! a1); lia.
  - intros d1. specialize (Hd d1). unfold device_ok in *. cbn [put_device set_m_devices m_devices m_idr].
    change (keepers (d :: Y) d1 (put_device d c m)) with (keepers (d :: Y) d1 m). rewrite keepers_cons. destruct (decide (d = d1)) as [<-|Hne].
    + rewrite lookup_insert_eq, bool_decide_true, Er, Eo, Ew, Hz by done. cbn [Z.b2z]. split_and!; [lia|lia|done|done].
    + rewrite lookup_insert_ne, bool_decide_false by done. exact Hd.
  - intros key d1 H1. destruct (Hdrb _ _ H1) as (c1 & b1 & H2 & H3 & E). exists c1, b1. cbn [put_device set_m_devices m_devices].
    rewrite lookup_insert_ne; [done|]. intros <-. congruence.
  - intros a1 H1. cbn [put_device set_m_devices m_next m_devices] in *. destruct (Hf a1 H1) as (? & ? & ?). split_and!; [done| |done].
    apply lookup_insert_None. split; [done|lia].
Qed.

(** A number of a disk that is not used. *)
Lemma refs_idr_put X Y id d m : refs X Y m → m_idr m !! id = None → refs X Y (set_m_idr (<[id := d]> (m_idr m)) m).
Proof using Type.
  intros [Hb Hd Hrb Hdrb Hc Hu Hf Hpg Hus] Hn. split; try assumption. intros d1. specialize (Hd d1). unfold device_ok in *.
  cbn [set_m_idr m_devices m_idr]. destruct (m_devices m !! d1) as [c|]; [|exact Hd]. destruct Hd as (? & ? & ? & Hi). split_and!; try done.
  rewrite lookup_insert_ne; [done|]. intros E. congruence.
Qed.

Lemma refs_idr_free X Y id d m : refs X Y m → m_idr m !! id = Some d → m_devices m !! d = None → refs X Y (cyanfs_idr_free id m).
Proof using Type.
  intros [Hb Hd Hrb Hdrb Hc Hu Hf Hpg Hus] Hi Hn. split; try assumption. intros d1. specialize (Hd d1). unfold device_ok in *.
  cbn [cyanfs_idr_free set_m_idr m_devices m_idr]. destruct (m_devices m !! d1) as [c|] eqn:E; [|exact Hd]. destruct Hd as (? & ? & ? & Hi1).
  split_and!; try done. rewrite lookup_delete_ne; [done|]. intros E1. congruence.
Qed.

(** A disk without keepers goes; the reference on its backend is left. *)
Lemma refs_del_device X Y d c m : refs X Y m → m_devices m !! d = Some c → cb_ref c = 0 →
  refs (cb_backend c :: X) Y (set_m_devices (delete d (m_devices m)) (cyanfs_idr_free (cb_id c) m)).
Proof using Type.
  intros H Hdc Hr. destruct (device_kept _ _ _ _ _ H Hdc) as (Ho & Hk & _ & Hi). pose proof (keepers_nonneg Y d m).
  assert (Hz : keepers Y d m = 0) by lia. destruct H as [Hb Hd Hrb Hdrb Hc Hu Hf Hpg Hus]. split; try assumption.
  - intros a. specialize (Hb a). unfold backend_ok in *. rewrite holders_cons. unfold holders in *.
    cbn [cyanfs_idr_free set_m_idr set_m_devices m_backends m_backend_rb m_cfg_backends m_devices m_ctxs]. rewrite (map_count_delete _ _ _ _ Hdc).
    destruct (m_backends m !! a); lia.
  - intros d1. specialize (Hd d1). unfold device_ok in *. cbn [cyanfs_idr_free set_m_idr set_m_devices m_devices m_idr].
    change (keepers Y d1 _) with (keepers Y d1 m). destruct (decide (d = d1)) as [<-|Hne]; [by rewrite lookup_delete_eq|].
    rewrite lookup_delete_ne by done. destruct (m_devices m !! d1) as [c1|]; [|exact Hd]. destruct Hd as (? & ? & ? & Hi1).
    split_and!; try done. rewrite lookup_delete_ne; [done|]. intros E. rewrite <- E in Hi1. congruence.
  - intros key d1 H1. destruct (Hdrb _ _ H1) as (c1 & b & H2 & H3 & E). exists c1, b. split; [|done].
    cbn [cyanfs_idr_free set_m_idr set_m_devices m_devices]. rewrite lookup_delete_ne; [done|]. intros <-.
    unfold keepers in Hz. pose proof (map_count_pos (λ x, x = d) (m_device_rb m) _ _ H1 eq_refl). pose proof (list_count_nonneg (λ x, x = d) Y).
    destruct (bool_decide (d ∈ m_cfg_devices m)); cbn [Z.b2z] in *; lia.
  - intros a Ha. destruct (Hf a Ha) as (? & ? & ?). split_and!; [done| |done]. apply lookup_delete_None. by right.
Qed.

Lemma refs_drb X Y Y' t m : refs X Y m → (∀ d, keepers Y' d (set_m_device_rb t m) = keepers Y d m) →
  (∀ key d, t !! key = Some d → ∃ c b, m_devices m !! d = Some c ∧ m_backends m !! cb_backend c = Some b ∧ key = cbd_key (be_dev_id b) (cb_file_id c)) →
  refs X Y' (set_m_device_rb t m).
Proof using Type.
  intros [Hb Hd Hrb Hdrb Hc Hu Hf Hpg Hus] Hk Ht. split; try assumption. intros d. specialize (Hd d). unfold device_ok in *. by rewrite Hk.
Qed.

Lemma refs_drb_in X Y d c b m : refs X (d :: Y) m → m_devices m !! d = Some c → m_backends m !! cb_backend c = Some b →
  m_device_rb m !! cbd_key (be_dev_id b) (cb_file_id c) = None →
  refs X Y (set_m_device_rb (<[cbd_key (be_dev_id b) (cb_file_id c) := d]> (m_device_rb m)) m).
Proof using Type.
  intros H Hd Hb Hn. apply (refs_drb X (d :: Y)); [done| |].
  - intros d1. rewrite keepers_cons. unfold keepers. cbn [set_m_device_rb m_device_rb m_cfg_devices]. rewrite map_count_insert by done. lia.
  - intros key d1 [[<- <-]|[_ H1]]%lookup_insert_Some; [by exists c, b|by apply (r_drb _ _ _ H)].
Qed.

Lemma refs_drb_out X Y key d m : refs X Y m → m_device_rb m !! key = Some d → refs X (d :: Y) (set_m_device_rb (delete key (m_device_rb m)) m).
Proof using Type.
  intros H Hk. apply (refs_drb X Y); [done| |].
  - intros d1. rewrite keepers_cons. unfold keepers. cbn [set_m_device_rb m_device_rb m_cfg_devices]. rewrite (map_count_delete _ _ _ _ Hk). lia.
  - intros key1 d1 [_ H1]%lookup_delete_Some. by apply (r_drb _ _ _ H).
Qed.

Lemma refs_dcfg X Y Y' t m : refs X Y m → (∀ d, keepers Y' d (set_m_cfg_devices t m) = keepers Y d m) → refs X Y' (set_m_cfg_devices t m).
Proof using Type.
  intros [Hb Hd Hrb Hdrb Hc Hu Hf Hpg Hus] Hk. split; try assumption. intros d. specialize (Hd d). unfold device_ok in *. by rewrite Hk.
Qed.

Lemma refs_dcfg_in X Y d m : refs X (d :: Y) m → d ∉ m_cfg_devices m → refs X Y (set_m_cfg_devices ({[d]} ∪ m_cfg_devices m) m).
Proof using Type.
  intros H Hn. apply (refs_dcfg X (d :: Y)); [done|]. intros d1. rewrite keepers_cons. unfold keepers. cbn [set_m_cfg_devices m_device_rb m_cfg_devices].
  rewrite (b2z_insert d d1 _ Hn). lia.
Qed.

Lemma refs_dcfg_out X Y d m : refs X Y m → d ∈ m_cfg_devices m → refs X (d :: Y) (set_m_cfg_devices (m_cfg_devices m ∖ {[d]}) m).
Proof using Type.
  intros H Hd. apply (refs_dcfg X Y); [done|]. intros d1. rewrite keepers_cons. unfold keepers. cbn [set_m_cfg_devices m_device_rb m_cfg_devices].
  rewrite <- (b2z_remove d d1 _ Hd). lia.
Qed.

(** A reference on a disk that is never given back. *)
Lemma refs_forget X Y d m : refs X (d :: Y) m → refs X Y m.
Proof using Type.
  intros [Hb Hd Hrb Hdrb Hc Hu Hf Hpg Hus]. split; try assumption. intros d1. specialize (Hd d1). unfold device_ok in *. rewrite keepers_cons in Hd.
  pose proof (keepers_nonneg Y d1 m). destruct (m_devices m !! d1) as [c|].
  - destruct Hd as (? & ? & ? & ?). split_and!; try done. destruct (bool_decide (d = d1)); cbn [Z.b2z] in *; lia.
  - destruct (bool_decide (d = d1)); cbn [Z.b2z] in *; lia.
Qed.

Lemma refs_loaded k : k_pages k = p0 → k_users k = u0 → refs [] [] (loaded k).
Proof using Type. intros Hp Hu. split; try done; cbn [loaded m_kernel m_backends]; rewrite ?map_size_empty; lia. Qed.
End refs.
