(* ===== verification/LinuxSafe.v ===== *)
(** * LinuxSafe: no operation of the Linux module uses what was freed

    Each operation of [linux/vdisk.c], [linux/ctl.c] and [linux/configfs.c]
    keeps the invariant of [LinuxRefs]; so does every sequence of them. *)
From Stdlib Require Import ZArith Lia.
From S2P Require Import Prelude Count Disk Base Journal Types Super World JournalIO Discard Compact Flusher Api ReadWrite System Errno Bio Backend BackendSpec Linux LinuxCtl LinuxConfig LinuxRefs.

Section safe.
Context {K : Type} `{!Kernel K, !KernelLaws K} {BL : BlockLayer} (blk : Z → Z) (race : world → world) (fuel : nat) (p0 u0 : Z).
Implicit Types m : lmodule K.
#[local] Notation refs := (LinuxRefs.refs p0 u0).

(** What the operations on a mounted backend leave alone. *)
Definition objects m := (m_devices m, m_ctxs m, m_backend_rb m, m_device_rb m, m_cfg_backends m, m_cfg_devices m, m_idr m, m_next m).

(** Such an operation. *)
Definition quiet (X Y : list Z) m {A} (r : res (A * lmodule K)) : Prop := safe r (λ x, refs X Y x.2 ∧ objects x.2 = objects m).

Lemma objects_ctxs m m' : objects m' = objects m → m_ctxs m' = m_ctxs m.
Proof using Type. unfold objects. congruence. Qed.
Lemma objects_devices m m' : objects m' = objects m → m_devices m' = m_devices m.
Proof using Type. unfold objects. congruence. Qed.

Lemma quiet_ret {A} X Y m (x : A) : refs X Y m → quiet X Y m (inr (x, m)).
Proof using Type. by intros H. Qed.

Lemma quiet_weaken {A} X Y m m' (r : res (A * lmodule K)) : objects m' = objects m → quiet X Y m' r → quiet X Y m r.
Proof using Type. intros E H. eapply safe_mono; [exact H|]. intros x [? ?]. split; [done|congruence]. Qed.

(** One after the other. *)
Lemma quiet_bind {A B} X Y m (r : res (A * lmodule K)) (f : A * lmodule K → res (B * lmodule K)) :
  quiet X Y m r → (∀ x m', refs X Y m' → objects m' = objects m → quiet X Y m' (f (x, m'))) → quiet X Y m (r ≫= f).
Proof using Type.
  intros H Hf. eapply safe_bind; [exact H|]. intros [x m'] [H1 H2]. cbn [fst snd] in *. apply (quiet_weaken X Y m m'); [done|]. by apply Hf.
Qed.

(** ** Backends *)
Lemma on_backend_quiet {A} X Y a b (f : world → res (A * world)) m :
  refs X Y m → m_backends m !! a = Some b → (∀ w, safe (f w) (λ _, True)) → quiet X Y m (on_backend a f m).
Proof using Type.
  intros H Ha Hf. unfold on_backend. apply (safe_bind_live _ b); [done|]. eapply safe_bind; [apply Hf|]. intros [x w] _. cbn.
  split; [by apply (refs_kick p0 u0)|done].
Qed.

Lemma core_pair_ret {A B C} (x : option (A * B)) (f : A → B → C) : safe ('(y, z) ← core x; inr (f y z)) (λ _, True).
Proof using Type. by destruct x as [[y z]|]. Qed.

Lemma close_file_safe X Y a b file m : refs X Y m → m_backends m !! a = Some b →
  safe (close_file a file m) (λ m', refs X Y m' ∧ objects m' = objects m).
Proof using Type.
  intros H Ha. unfold close_file. eapply safe_bind; [apply (on_backend_quiet X Y a b); [done|done|]|].
  - intros w. destruct (cyanfs_close file (w_super w)) as [s|]; done.
  - intros [x m'] Hx. exact Hx.
Qed.

Lemma get_safe a b m (P : lmodule K → Prop) : m_backends m !! a = Some b → P (put_backend a (set_be_ref (be_ref b + 1) b) m) →
  safe (cyanfs_backend_get a m) P.
Proof using Type. intros Ha Hp. unfold cyanfs_backend_get. by apply (safe_bind_live _ b). Qed.

Lemma put_safe X Y a m : refs (a :: X) Y m → safe (cyanfs_backend_put blk race fuel a m) (refs X Y).
Proof using KernelLaws0.
  intros H. destruct (token_live p0 u0 _ _ _ _ H) as [b Ha]. unfold cyanfs_backend_put. apply (safe_bind_live _ b); [done|].
  destruct (Z.eqb_spec (be_ref b - 1) 0) as [E|Hn]; [|by apply (refs_unref p0 u0)].
  apply safe_bind_core. intros [k s] Ec. cbn. apply backend_close_held in Ec.
  apply (refs_free p0 u0 X Y a b k (set_m_bios s m)); [by apply (refs_bios p0 u0)|done|done|done].
Qed.

Lemma work_same k s b cs k' s' b' : cyanfs_backend_work blk race fuel k s b = Some (cs, k', s', b') →
  k_held k' = k_held k ∧ be_dev_id b' = be_dev_id b ∧ be_ref b' = be_ref b.
Proof using KernelLaws0. intros E. apply backend_work_held in E as (? & ? & ? & _). done. Qed.

(** What a run of the work item leaves. *)
Lemma refs_worked X Y a b k s b' m : refs X Y m → m_backends m !! a = Some b → k_held k = k_held (m_kernel m) →
  be_dev_id b' = be_dev_id b → be_ref b' = be_ref b → refs X Y (put_backend a b' (set_m_kernel k (set_m_bios s m))).
Proof using Type.
  intros H Ha Hk Hd Hr. apply (refs_put_backend p0 u0 X Y a b); [|done..]. apply (refs_kernel p0 u0); [by apply (refs_bios p0 u0)|done].
Qed.

Lemma run_work_quiet X Y a b m : refs X Y m → m_backends m !! a = Some b → quiet X Y m (run_work blk race fuel a m).
Proof using KernelLaws0.
  intros H Ha. unfold run_work. apply (safe_bind_live _ b); [done|]. apply safe_bind_core. intros [[[cs k] s] b1] E.
  apply work_same in E as (? & ? & ?). cbn. split; [by apply (refs_worked X Y a b)|done].
Qed.

Lemma wait_tasks_same k s b r k' s' b' : cyanfs_backend_wait_tasks blk race fuel false k s b = Some (r, k', s', b') →
  k_held k' = k_held k ∧ be_dev_id b' = be_dev_id b ∧ be_ref b' = be_ref b.
Proof using KernelLaws0.
  unfold cyanfs_backend_wait_tasks. cbv zeta. destruct (cyanfs_backend_work _ _ _ _ _ _) as [[[[cs k1] s1] b1]|] eqn:E; [|done].
  cbn [mbind option_bind]. apply work_same in E. destruct (bool_decide _); [|done]. cbn [negb bug_on mbind option_bind].
  intros [= _ <- _ <-]. exact E.
Qed.

Lemma sync_same k s b r k' s' b' : cyanfs_backend_sync blk race fuel false k s b = Some (r, k', s', b') →
  k_held k' = k_held k ∧ be_dev_id b' = be_dev_id b ∧ be_ref b' = be_ref b.
Proof using KernelLaws0.
  unfold cyanfs_backend_sync. cbv zeta. destruct (cyanfs_super_flush true (be_super b)) as [e w]. destruct (failed e); [by intros [= _ <- _ <-]|].
  destruct (cyanfs_backend_wait_tasks _ _ _ _ _ _ _) as [[[[r1 k1] s1] b1]|] eqn:E; [|done]. cbn [mbind option_bind]. apply wait_tasks_same in E.
  destruct (negb _); intros [= _ <- _ <-]; exact E.
Qed.

Lemma backend_sync_quiet X Y a b m : refs X Y m → m_backends m !! a = Some b → quiet X Y m (backend_sync blk race fuel a m).
Proof using KernelLaws0.
  intros H Ha. unfold backend_sync. apply (safe_bind_live _ b); [done|]. apply safe_bind_core. intros [[[r k] s] b1] E.
  apply sync_same in E as (? & ? & ?). cbn. split; [by apply (refs_worked X Y a b)|done].
Qed.

Lemma run_flush_work_safe X Y a b m : refs X Y m → m_backends m !! a = Some b → safe (run_flush_work a m) (refs X Y).
Proof using Type.
  intros H Ha. unfold run_flush_work. apply (safe_bind_live _ b); [done|]. cbn. apply (refs_put_backend p0 u0 X Y a b); [done..| |];
    unfold cyanfs_backend_flush_work; by destruct (cyanfs_super_flush _ _).
Qed.

Lemma ask_quiet {A} X Y a b (f : cyanfs_super → A) m : refs X Y m → m_backends m !! a = Some b → quiet X Y m (ask a f m).
Proof using Type. intros H Ha. unfold ask. by apply (safe_bind_live _ b). Qed.

(** ** Disks *)

(** The trees of the control device. *)
Definition trees m : gmap Z Z * gmap Z Z := (m_backend_rb m, m_device_rb m).

(** What a new disk is: nobody but the caller holds it. *)
Definition new_disk (X Y : list Z) (t : gmap Z Z * gmap Z Z) (a id : Z) m (d : Z) : Prop :=
  refs X (d :: Y) m ∧ d ∉ m_cfg_devices m ∧ trees m = t ∧ keepers Y d m = 0 ∧
  ∃ c b, m_devices m !! d = Some c ∧ cb_backend c = a ∧ cb_file_id c = id ∧ cb_ref c = 1 ∧ cb_opens c = 0 ∧ m_backends m !! a = Some b.

Definition alloc_post (X Y : list Z) (t : gmap Z Z * gmap Z Z) (a id : Z) (r : Z * option Z * lmodule K) : Prop :=
  match r.1.2 with Some d => new_disk X Y t a id r.2 d | None => refs X Y r.2 end.

Lemma put_out X Y t a id err m : refs (a :: X) Y m → safe (m ← cyanfs_backend_put blk race fuel a m; inr (err, None, m)) (alloc_post X Y t a id).
Proof using KernelLaws0. intros H. eapply safe_bind; [by apply put_safe|]. intros m' H'. exact H'. Qed.

Lemma idr_out X Y t a id err i d m : refs (a :: X) Y m → m_idr m !! i = Some d → m_devices m !! d = None →
  safe (m ← cyanfs_backend_put blk race fuel a (cyanfs_idr_free i m); inr (err, None, m)) (alloc_post X Y t a id).
Proof using KernelLaws0. intros H Hi Hd. apply put_out. by eapply (refs_idr_free p0 u0). Qed.

Lemma file_out X Y t a b id err i d m : refs (a :: X) Y m → m_backends m !! a = Some b → m_idr m !! i = Some d → m_devices m !! d = None →
  safe (m ← close_file a id m; m ← cyanfs_backend_put blk race fuel a (cyanfs_idr_free i m); inr (err, None, m)) (alloc_post X Y t a id).
Proof using KernelLaws0.
  intros H Ha Hi Hd. eapply safe_bind; [by eapply close_file_safe|]. intros m' [H' E]. unfold objects in E. injection E as E1 _ _ _ _ _ E2 _.
  apply (idr_out _ _ _ _ _ _ i d); congruence.
Qed.

Lemma kept_none X Y d m : refs X Y m → m_devices m !! d = None → d ∉ m_cfg_devices m.
Proof using Type.
  intros H Hd Hin. destruct (kept_live p0 u0 X Y d m H) as [c Hc]; [|congruence]. unfold keepers. rewrite (bool_decide_true (d ∈ _)) by done.
  pose proof (list_count_nonneg (λ x, x = d) Y). pose proof (map_count_nonneg (λ x, x = d) (m_device_rb m)). cbn [Z.b2z]. lia.
Qed.

(** The steps after the file is open. *)
Lemma alloc_disk_safe X Y a b id write i d m : refs (a :: X) Y m → m_backends m !! a = Some b → m_idr m !! i = Some d → m_devices m !! d = None → d < m_next m →
  safe (let file_out (error : Z) m := m ← close_file a id m; m ← cyanfs_backend_put blk race fuel a (cyanfs_idr_free i m); inr (error, None, m) in
        b ← live (m_backends m !! a);
        size ← core (cyanfs_size id (w_super (be_super b)));
        if size =? 0 then file_out (- EINVAL) m else
        let '(error, k) := blk_alloc_disk (m_kernel m) in
        let m := set_m_kernel k m in
        if error <? 0 then file_out error m else
        let '(error, k) := device_add_disk i (m_kernel m) in
        let m := set_m_kernel k m in
        if error <? 0 then file_out error (set_m_kernel (blk_cleanup_disk (m_kernel m)) m) else
        inr (0, Some d, put_device d (mk_cbd i 1 a id write (Z.shiftr size SECTOR_SHIFT) false 0) m)) (alloc_post X Y (trees m) a id).
Proof using KernelLaws0.
  intros H Ha Hi Hd Hlt. cbv zeta. apply (safe_bind_live _ b); [done|]. apply safe_bind_core. intros size _.
  destruct (size =? 0); [by apply (file_out _ _ _ _ b _ _ i d)|].
  destruct (blk_alloc_disk (m_kernel m)) as [e1 k1] eqn:E1. destruct (kl_alloc_disk _ _ _ E1) as [Hk1 _].
  assert (H1 : refs (a :: X) Y (set_m_kernel k1 m)) by (by apply (refs_kernel p0 u0)).
  destruct (e1 <? 0); [by apply (file_out _ _ _ _ b _ _ i d)|]. cbn [set_m_kernel m_kernel].
  destruct (device_add_disk i k1) as [e2 k2] eqn:E2. destruct (kl_add_disk _ _ _ _ E2) as [_ Hk2].
  assert (Hr : ∀ k3 : K, k_held k3 = k_held k2 → refs (a :: X) Y (set_m_kernel k3 (set_m_kernel k1 m))).
  { intros k3 Hk3. destruct H1 as [Hb Hdv Hrb Hdrb Hc Hu Hf Hpg Hus]. rewrite Hk2 in Hk3. unfold k_held in Hk3. injection Hk3 as C1 C2 C3 _.
    split; try assumption; cbn [set_m_kernel m_kernel m_backends] in *; [by rewrite C1|by rewrite C2|by rewrite C3]. }
  destruct (e2 <? 0); [apply (file_out _ _ _ _ b _ _ i d); try done; apply Hr; cbn [m_kernel]; apply kl_cleanup_disk|].
  cbn. split_and!.
  - apply (refs_new_device p0 u0 X Y a b); try done. by apply Hr.
  - exact (kept_none (a :: X) Y d m H Hd).
  - done.
  - pose proof (r_device _ _ _ _ _ H d) as Hk. unfold device_ok in Hk. by rewrite Hd in Hk.
  - eexists _, b. split; [apply lookup_insert_eq|]. done.
Qed.

Lemma alloc_safe X Y a b id write m : refs X Y m → m_backends m !! a = Some b →
  safe (cyanfs_block_device_alloc blk race fuel a id write m) (alloc_post X Y (trees m) a id).
Proof using KernelLaws0.
  intros H Ha. unfold cyanfs_block_device_alloc. destruct (kzalloc (m_kernel m)) as [ok k] eqn:Ek. destruct (kl_kzalloc _ _ _ Ek) as [Hk _].
  assert (H1 : refs X Y (set_m_kernel k m)) by (by apply (refs_kernel p0 u0)). destruct ok; cbn [negb]; [|exact H1]. cbv zeta.
  cbn [set_m_kernel m_next]. set (d := m_next m). change (mk_module _ _ _ _ _ _ _ _ _ _ _) with (set_m_kernel k m).
  destruct (r_fresh _ _ _ _ _ H d ltac:(lia)) as (_ & Fd & _).
  assert (H2 : refs X Y (set_m_next (d + 1) (set_m_kernel k m))) by (apply (refs_next p0 u0); [done|cbn [set_m_kernel m_next]; lia]).
  eapply safe_bind; [apply (get_safe a b _ (λ m', m' = put_backend a (set_be_ref (be_ref b + 1) b) (set_m_next (d + 1) (set_m_kernel k m)))); done|].
  intros m3 ->. pose proof (refs_get p0 u0 X Y a b _ H2 Ha) as H3. set (m3 := put_backend _ _ _) in *.
  assert (E3 : objects m3 = objects (set_m_next (d + 1) m)) by done. clearbody m3. unfold cyanfs_idr_alloc.
  destruct (idr_alloc (dom (m_idr m3)) (m_kernel m3)) as [r k4] eqn:E4. destruct (kl_idr _ _ _ _ E4) as (Hk4 & _ & Hr).
  assert (H4 : refs (a :: X) Y (set_m_kernel k4 m3)) by (by apply (refs_kernel p0 u0)).
  destruct (Z.ltb_spec r 0) as [Hlt|Hge]; cbn beta iota; [destruct (Z.ltb_spec r 0); [by apply put_out|lia]|]. cbn [Z.ltb Z.compare].
  cbn [set_m_kernel m_idr]. set (m5 := set_m_idr _ _). assert (H5 : refs (a :: X) Y m5).
  { apply (refs_idr_put p0 u0 (a :: X) Y r d _ H4). cbn [set_m_kernel m_idr]. by apply not_elem_of_dom, Hr. }
  unfold objects in E3. cbn [set_m_next m_devices m_next] in E3. injection E3 as Ed _ Eb Er _ _ _ En.
  assert (Hi5 : m_idr m5 !! r = Some d) by apply lookup_insert_eq. assert (Hd5 : m_devices m5 !! d = None) by (cbn; congruence).
  assert (Hn5 : d < m_next m5) by (cbn; lia).
  assert (Ht5 : trees m5 = trees m) by (unfold trees; cbn; by rewrite Eb, Er). clearbody m5. destruct (token_live p0 u0 _ _ _ _ H5) as [b5 Ha5].
  eapply safe_bind; [apply (on_backend_quiet _ _ a b5 _ _ H5 Ha5); done|]. intros [st m6] [H6 E6]. cbn [fst snd] in *.
  unfold objects in E6. injection E6 as D6 _ B6 R6 _ _ I6 N6. destruct (token_live p0 u0 _ _ _ _ H6) as [b6 Ha6].
  destruct (failed st); [by apply (idr_out _ _ _ _ _ _ r d); try congruence|]. assert (Ht6 : trees m6 = trees m) by (unfold trees in *; by rewrite B6, R6).
  rewrite <- Ht6. apply (alloc_disk_safe _ _ _ b6); congruence.
Qed.

Lemma free_work_safe X Y d c m : refs X Y m → m_devices m !! d = Some c → cb_work c = true → safe (cyanfs_block_device_free_work blk race fuel d m) (refs X Y).
Proof using KernelLaws0.
  intros H Hd Hw. destruct (device_kept p0 u0 _ _ _ _ _ H Hd) as (_ & _ & [Hz _] & _). specialize (Hz Hw).
  unfold cyanfs_block_device_free_work. apply (safe_bind_live _ c); [done|]. set (k := blk_cleanup_disk _).
  assert (H1 : refs X Y (set_m_kernel k m)).
  { destruct (kl_cleanup_disk (del_gendisk (cb_id c) (m_kernel m))) as [Hk _]. destruct (kl_del_disk (cb_id c) (m_kernel m)) as [Hk1 _].
    fold k in Hk. rewrite Hk1 in Hk. unfold k_held in Hk. injection Hk as C1 C2 C3 _. destruct H as [Hb Hdv Hrb Hdrb Hc Hu Hf Hpg Hus].
    split; try assumption; cbn [set_m_kernel m_kernel m_backends]; [by rewrite C1|by rewrite C2|by rewrite C3]. }
  destruct (device_backend_live p0 u0 _ _ _ _ _ H1 Hd) as [b Hb]. eapply safe_bind; [by eapply close_file_safe|]. intros m2 [H2 E2].
  apply objects_devices in E2. apply put_safe. apply (refs_del_device p0 u0); [done| |done]. by rewrite E2.
Qed.

Lemma device_put_safe X Y d m : refs X (d :: Y) m → safe (cyanfs_block_device_put d m) (refs X Y).
Proof using Type.
  intros H. assert (Hp : 0 < keepers (d :: Y) d m).
  { rewrite keepers_cons, bool_decide_true by done. pose proof (keepers_nonneg Y d m). cbn [Z.b2z]. lia. }
  destruct (kept_live p0 u0 _ _ _ _ H Hp) as [c Hc]. destruct (device_kept p0 u0 _ _ _ _ _ H Hc) as (Ho & Hk & [Hw1 Hw2] & _).
  rewrite keepers_cons, bool_decide_true in Hk by done. cbn [Z.b2z] in Hk. unfold cyanfs_block_device_put. apply (safe_bind_live _ c); [done|]. cbn.
  pose proof (keepers_nonneg Y d m).
  apply (refs_put_device p0 u0 X (d :: Y) Y d c); [done|done| | | | | | |]; try (by destruct (_ =? 0)).
  - destruct (_ =? 0); cbn [cyanfs_block_device_free set_cb_ref set_cb_work cb_opens cb_ref]; lia.
  - destruct (Z.eqb_spec (cb_ref c - 1) 0) as [E|Hn]; cbn; [done|]. split; [intros ?%Hw1; lia|lia].
  - intros d1 Hn. by rewrite keepers_cons, bool_decide_false by congruence.
Qed.

(** A disk that is not about to go is opened; one that is open is closed. *)
Lemma device_open_safe X Y d c m : refs X Y m → m_devices m !! d = Some c → cb_work c = false → safe (cyanfs_block_device_open d m) (refs X Y).
Proof using Type.
  intros H Hc Hw. destruct (device_kept p0 u0 _ _ _ _ _ H Hc) as (Ho & Hk & [Hw1 Hw2] & _). pose proof (keepers_nonneg Y d m).
  unfold cyanfs_block_device_open, cyanfs_block_device_get, count_open. rewrite Hc. cbn. rewrite lookup_insert_eq. cbn.
  unfold put_device. cbn. rewrite insert_insert_eq.
  apply (refs_put_device p0 u0 X Y Y d c _ m H Hc); cbn; try done; [lia|lia|]. rewrite Hw. split; [done|]. intros E. lia.
Qed.

Lemma device_release_safe X Y d c m : refs X Y m → m_devices m !! d = Some c → 0 < cb_opens c → safe (cyanfs_block_device_release d m) (refs X Y).
Proof using Type.
  intros H Hc Hp. destruct (device_kept p0 u0 _ _ _ _ _ H Hc) as (Ho & Hk & Hw & _). unfold cyanfs_block_device_release, count_open. rewrite Hc. cbn [live mbind res_bind].
  apply device_put_safe. apply (refs_put_device p0 u0 X Y (d :: Y) d c _ m H Hc); cbn [set_cb_opens cb_id cb_backend cb_file_id cb_opens cb_ref cb_work]; try done; [lia| |].
  - rewrite keepers_cons, bool_decide_true by done. cbn [Z.b2z]. lia.
  - intros d1 Hn. by rewrite keepers_cons, bool_decide_false by congruence.
Qed.

Lemma device_bio_safe X Y d c bio m : refs X Y m → m_devices m !! d = Some c → safe (cyanfs_block_device_submit_bio blk race d bio m) (refs X Y).
Proof using Type.
  intros H Hc. destruct (device_backend_live p0 u0 _ _ _ _ _ H Hc) as [b Hb]. unfold cyanfs_block_device_submit_bio.
  apply (safe_bind_live _ c); [done|]. apply (safe_bind_live _ b); [done|]. apply safe_bind_core. intros [s w] _. cbn.
  apply (refs_kick p0 u0); [by apply (refs_bios p0 u0)|done].
Qed.

(** ** The control device *)
Lemma walk_backends_ok X Y m : refs X Y m → walk_backends m = inr ().
Proof using Type.
  intros H. unfold walk_backends. replace (forallb _ _) with true; [done|]. symmetry. apply forallb_forall. intros [key a] Hin.
  apply list_elem_of_In, elem_of_map_to_list in Hin. destruct (r_rb _ _ _ _ _ H _ _ Hin) as (b & Hb & _). apply bool_decide_true. by exists b.
Qed.

Lemma walk_devices_ok X Y m : refs X Y m → walk_devices m = inr ().
Proof using Type.
  intros H. unfold walk_devices. replace (forallb _ _) with true; [done|]. symmetry. apply forallb_forall. intros [key d] Hin.
  apply list_elem_of_In, elem_of_map_to_list in Hin. destruct (r_drb _ _ _ _ _ H _ _ Hin) as (c & b & Hc & Hb & _).
  unfold device_alive. cbn [snd]. rewrite Hc. apply bool_decide_true. by exists b.
Qed.

Lemma with_backend_safe {A} X Y major minor (err : Z → A) f m (Q : A * lmodule K → Prop) :
  refs X Y m → Q (err (- ENODEV), m) →
  (∀ a b, m_backend_rb m !! MKDEV major minor = Some a → m_backends m !! a = Some b → be_dev_id b = MKDEV major minor → safe (f a m) Q) →
  safe (with_backend major minor err f m) Q.
Proof using Type.
  intros H Hq Hf. unfold with_backend, cyanfs_ctl_backend_lookup. rewrite (walk_backends_ok X Y m H). cbn [mbind res_bind].
  destruct (m_backend_rb m !! _) as [a|] eqn:E; [|exact Hq]. destruct (r_rb _ _ _ _ _ H _ _ E) as (b & Hb & Hd). by apply (Hf a b).
Qed.

Lemma with_backend_quiet {A} X Y major minor (err : Z → A) f m :
  refs X Y m → (∀ a b, m_backends m !! a = Some b → quiet X Y m (f a m)) → quiet X Y m (with_backend major minor err f m).
Proof using Type. intros H Hf. apply (with_backend_safe X Y); [done|done|]. intros a b _ Ha _. by apply (Hf a b). Qed.

Lemma open_new X Y fl dev mallocs m err b k : refs X Y m → cyanfs_backend_open blk race fl dev mallocs (m_kernel m) = Some (err, Some b, k) →
  be_dev_id b = dev ∧ (∀ a b', m_backends m !! a = Some b' → be_dev_id b' ≠ dev) ∧
  refs (m_next m :: X) Y (put_backend (m_next m) b (set_m_next (m_next m + 1) (set_m_kernel k m))).
Proof using KernelLaws0.
  intros H E. apply backend_open_held in E as (_ & Hd & Hr & Hn & Hk). split_and!; [done| |].
  - intros a b' Ha E. apply Hn. rewrite <- E. by eapply (r_claimed _ _ _ _ _ H).
  - apply (refs_new_backend p0 u0); [done|done| |]; by rewrite Hd.
Qed.

Lemma open_failed X Y fl dev mallocs m err k : refs X Y m → cyanfs_backend_open blk race fl dev mallocs (m_kernel m) = Some (err, None, k) →
  refs X Y (set_m_kernel k m).
Proof using KernelLaws0. intros H E. apply backend_open_held in E. by apply (refs_kernel p0 u0). Qed.

Lemma mount_safe X Y major minor mallocs m : refs X Y m → safe (cyanfs_ctl_backend_mount blk race fuel major minor mallocs m) (λ r, refs X Y r.2).
Proof using KernelLaws0.
  intros H. unfold cyanfs_ctl_backend_mount. set (dev := MKDEV major minor). apply safe_bind_core. intros [[err o] k] E. destruct o as [b|]; [|by eapply open_failed].
  change (walk_backends (set_m_kernel k m)) with (walk_backends m). rewrite (walk_backends_ok X Y m H). cbn [mbind res_bind].
  destruct (open_new _ _ _ _ _ _ _ _ _ H E) as (<- & Hoth & Hnew). cbn [safe snd]. cbn [set_m_kernel m_next m_backend_rb].
  assert (Hrb : m_backend_rb m !! be_dev_id b = None).
  { destruct (m_backend_rb m !! be_dev_id b) as [a|] eqn:Ea; [|done]. destruct (r_rb _ _ _ _ _ H _ _ Ea) as (b' & Hb' & Ed). by destruct (Hoth a b'). }
  unfold rb_put. rewrite Hrb. apply (refs_rb_in p0 u0 X Y (m_next m) b _ Hnew); [apply lookup_insert_eq|exact Hrb].
Qed.

Lemma umount_put X Y major minor a b m : refs X Y m → m_backend_rb m !! MKDEV major minor = Some a → be_dev_id b = MKDEV major minor →
  safe (m ← cyanfs_backend_put blk race fuel a (set_m_backend_rb (delete (be_dev_id b) (m_backend_rb m)) m); inr (0, m)) (λ r, refs X Y r.2).
Proof using KernelLaws0.
  intros H Hrb Hd. eapply safe_bind; [apply (put_safe X Y); apply (refs_rb_out p0 u0); [done|by rewrite Hd]|]. intros m' H'. exact H'.
Qed.

Lemma rb_nfind_in t key key' a : rb_nfind t key = Some (key', a) → t !! key' = Some a.
Proof using Type.
  unfold rb_nfind. destruct (set_nfind _ _) as [k1|]; [|done]. cbn [mbind option_bind]. destruct (t !! k1) eqn:E; [|done]. cbn [mbind option_bind]. congruence.
Qed.

Lemma umount_safe X Y major minor m : refs X Y m → safe (cyanfs_ctl_backend_umount blk race fuel major minor m) (λ r, refs X Y r.2).
Proof using KernelLaws0.
  intros H. apply (with_backend_safe X Y); [done|done|]. intros a b Hrb Ha Hd. apply (safe_bind_live _ b); [done|].
  rewrite (walk_devices_ok X Y m H). cbn [mbind res_bind]. destruct (rb_nfind _ _) as [[key d]|] eqn:E; [|by eapply umount_put].
  destruct (r_drb _ _ _ _ _ H _ _ (rb_nfind_in _ _ _ _ E)) as (c & b1 & Hc & _). apply (safe_bind_live _ c); [done|].
  destruct (_ =? a); [done|by eapply umount_put].
Qed.

Lemma map_safe X Y major minor id readonly m : refs X Y m → safe (cyanfs_ctl_device_map blk race fuel major minor id readonly m) (λ r, refs X Y r.2).
Proof using KernelLaws0.
  intros H. unfold cyanfs_ctl_device_map, cyanfs_ctl_backend_lookup. rewrite (walk_backends_ok X Y m H). cbn [mbind res_bind].
  destruct (m_backend_rb m !! _) as [a|] eqn:E; [|exact H]. destruct (r_rb _ _ _ _ _ H _ _ E) as (b & Hb & _).
  eapply safe_bind; [by eapply alloc_safe|]. intros [[err o] m1] Hp. unfold alloc_post in Hp. cbn [fst snd] in Hp. destruct o as [d|]; [|exact Hp].
  destruct Hp as (H1 & _ & _ & _ & c & b1 & Hc & Hcb & Hid & _ & _ & Hb1). rewrite (walk_devices_ok _ _ m1 H1). cbn [mbind res_bind].
  apply (safe_bind_live _ b1); [done|]. apply (safe_bind_live _ c); [done|]. cbn [safe snd]. unfold rb_put.
  destruct (m_device_rb m1 !! _) eqn:Ek; [|subst id a; by apply (refs_drb_in p0 u0)].
  apply (refs_forget p0 u0 X Y d) in H1. destruct H1. by split.
Qed.

Lemma unmap_safe X Y major minor id m : refs X Y m → safe (cyanfs_ctl_device_unmap major minor id m) (λ r, refs X Y r.2).
Proof using Type.
  intros H. unfold cyanfs_ctl_device_unmap. rewrite (walk_devices_ok X Y m H). cbn [mbind res_bind]. destruct (m_device_rb m !! _) as [d|] eqn:E; [|exact H].
  eapply safe_bind; [apply device_put_safe; by apply (refs_drb_out p0 u0)|]. intros m' H'. exact H'.
Qed.

Lemma backend_list_safe X Y major minor m : refs X Y m → safe (cyanfs_ctl_backend_list major minor m) (λ _, True).
Proof using Type.
  intros H. unfold cyanfs_ctl_backend_list. rewrite (walk_backends_ok X Y m H). cbn [mbind res_bind]. destruct (rb_nfind _ _) as [[key a]|] eqn:E; [|done].
  destruct (r_rb _ _ _ _ _ H _ _ (rb_nfind_in _ _ _ _ E)) as (b & Hb & _). by apply (safe_bind_live _ b).
Qed.

Lemma device_list_safe X Y major minor id m : refs X Y m → safe (cyanfs_ctl_device_list major minor id m) (λ _, True).
Proof using Type.
  intros H. unfold cyanfs_ctl_device_list. rewrite (walk_devices_ok X Y m H). cbn [mbind res_bind]. destruct (rb_nfind _ _) as [[key d]|] eqn:E; [|done].
  destruct (r_drb _ _ _ _ _ H _ _ (rb_nfind_in _ _ _ _ E)) as (c & b & Hc & Hb & _). apply (safe_bind_live _ c); [done|]. by apply (safe_bind_live _ b).
Qed.

(** *** A descriptor *)
Lemma bound_live X Y x c a file wr m : refs X Y m → m_ctxs m !! x = Some c → cx_bound c = Some (a, file, wr) → ∃ b, m_backends m !! a = Some b.
Proof using Type. intros H Hx Hc. apply (ctx_backend_live p0 u0 X Y x c a m H Hx). unfold cx_backend. by rewrite Hc. Qed.

Lemma flush_device_quiet X Y a b m : refs X Y m → m_backends m !! a = Some b → quiet X Y m (flush_device a m).
Proof using KernelLaws0.
  intros H Ha. unfold flush_device. apply (safe_bind_live _ b); [done|]. destruct (blkdev_issue_flush _ _) as [r k] eqn:E. destruct (kl_flush _ _ _ _ E) as [Hk _].
  assert (H1 : refs X Y (set_m_kernel k m)) by (by apply (refs_kernel p0 u0)). destruct (r <? 0); [done|].
  apply (quiet_weaken X Y m (set_m_kernel k m)); [done|]. by apply (ask_quiet X Y a b).
Qed.

Lemma ctl_flush_quiet X Y x c m : refs X Y m → m_ctxs m !! x = Some c → quiet X Y m (cyanfs_ctl_flush blk race fuel c m).
Proof using KernelLaws0.
  intros H Hx. unfold cyanfs_ctl_flush. destruct (cx_bound c) as [[[a file] wr]|] eqn:Ec; [|by apply quiet_ret].
  assert (Hlive : ∀ m', refs X Y m' → objects m' = objects m → ∃ b, m_backends m' !! a = Some b).
  { intros m' H' E. apply (bound_live X Y x c a file wr m' H'); [by rewrite (objects_ctxs _ _ E)|done]. }
  destruct (Hlive m H eq_refl) as [b Ha]. apply quiet_bind; [apply (on_backend_quiet X Y a b); [done|done|]; intros w; by destruct (cyanfs_flush w) as [[? ?] ?]|].
  intros [st map] m1 H1 E1. destruct (failed st); [by apply quiet_ret|]. destruct (Hlive m1 H1 E1) as [b1 Ha1].
  destruct map as [[| |]|]; try (by apply (flush_device_quiet X Y a b1)); [by apply (ask_quiet X Y a b1)|].
  apply quiet_bind; [by apply (on_backend_quiet X Y a b1)|]. intros st2 m2 H2 E2. destruct (failed st2); [by apply quiet_ret|].
  destruct (Hlive m2 H2 ltac:(congruence)) as [b2 Ha2]. apply quiet_bind; [by apply (run_work_quiet X Y a b2)|]. intros cs m3 H3 E3.
  destruct (Hlive m3 H3 ltac:(congruence)) as [b3 Ha3]. apply safe_bind_core. intros _ _. by apply (flush_device_quiet X Y a b3).
Qed.

(** The descriptor goes before or after the reference it held. *)
Lemma put_then_ctx a x m : (m' ← cyanfs_backend_put blk race fuel a m; inr (set_m_ctxs (delete x (m_ctxs m')) m')) =
  cyanfs_backend_put blk race fuel a (set_m_ctxs (delete x (m_ctxs m)) m).
Proof using Type.
  unfold cyanfs_backend_put. cbn [set_m_ctxs m_backends m_kernel m_bios]. destruct (m_backends m !! a) as [b|]; [|done]. cbn [live mbind res_bind].
  destruct (_ =? 0); [|done]. by destruct (cyanfs_backend_close _ _ _ _ _ _) as [[k s]|].
Qed.

Lemma ctl_release_safe X Y x c m : refs X Y m → m_ctxs m !! x = Some c → safe (cyanfs_ctl_release blk race fuel x m) (refs X Y).
Proof using KernelLaws0.
  intros H Hx. unfold cyanfs_ctl_release. apply (safe_bind_live _ c); [done|]. pose proof (refs_ctx_del p0 u0 X Y x c) as Hdel.
  unfold bound_to, cx_backend in Hdel. destruct (cx_bound c) as [[[a file] wr]|] eqn:Ec; [|by apply Hdel]. cbn [fmap option_fmap option_map fst snd] in Hdel.
  pose proof (ctl_flush_quiet X Y x c m H Hx) as Hq. unfold quiet in Hq. revert Hq. generalize (cyanfs_ctl_flush blk race fuel c m). intros r Hq.
  destruct r as [[]|[e m1]]; try done. destruct Hq as [H1 E1]. cbn [mbind res_bind fst snd] in *. rewrite <- (objects_ctxs _ _ E1) in Hx.
  destruct (bound_live X Y x c a file wr m1 H1 Hx Ec) as [b Ha]. pose proof (close_file_safe X Y a b file m1 H1 Ha) as Hc.
  destruct (close_file a file m1) as [[]|m2]; try done. destruct Hc as [H2 E2]. rewrite <- (objects_ctxs _ _ E2) in Hx.
  fold (mbind (M := res) (λ m', inr (set_m_ctxs (delete x (m_ctxs m')) m')) (cyanfs_backend_put blk race fuel a m2)).
  change (safe (m' ← cyanfs_backend_put blk race fuel a m2; inr (set_m_ctxs (delete x (m_ctxs m')) m')) (refs X Y)). rewrite put_then_ctx.
  apply put_safe. by apply Hdel.
Qed.

Lemma bind_safe X Y x c major minor id readonly m : refs X Y m → m_ctxs m !! x = Some c →
  safe (cyanfs_ctl_file_bind x major minor id readonly m) (λ r, refs X Y r.2).
Proof using Type.
  intros H Hx. unfold cyanfs_ctl_file_bind. apply (safe_bind_live _ c); [done|]. destruct (cx_bound c) as [p|] eqn:Ec; [done|].
  apply (with_backend_safe X Y); [done|done|]. intros a b _ Ha _. eapply safe_bind; [by apply (on_backend_quiet X Y a b)|]. intros [st m1] [H1 E1].
  cbn [fst snd] in *. destruct (failed st) eqn:Ef; [done|]. pose proof E1 as E2. unfold objects in E2. injection E2 as _ Ex Erb _ _ _ _ _.
  destruct (m_backends m1 !! a) as [b1|] eqn:Ha1.
  - eapply safe_bind; [apply (get_safe a b1 _ (λ m', m' = put_backend a (set_be_ref (be_ref b1 + 1) b1) m1)); done|]. intros m2 ->. cbn [safe snd].
    apply (refs_ctx_bind p0 u0 X Y x c); [by apply (refs_get p0 u0)| |done]. cbn [put_backend set_m_backends m_ctxs]. by rewrite Ex.
  - exfalso. unfold on_backend in *. revert Ha1. pose proof (r_backend _ _ _ _ _ H1 a) as Hb1. pose proof (r_backend _ _ _ _ _ H a) as Hb.
    unfold backend_ok in *. rewrite Ha in Hb. intros Ha1. rewrite Ha1 in Hb1. unfold holders in *. unfold objects in E1.
    injection E1 as F1 F2 F3 _ F5 _ _ _. rewrite F1, F2, F3, F5 in Hb1. lia.
Qed.

Lemma add_pages_safe n got i off len : i + Z.of_nat n ≤ got → safe (add_pages n got i off len) (λ _, True).
Proof using Type.
  revert i off len. induction n as [|n IH]; intros i off len Hi; cbn [add_pages]; [done|]. destruct (Z.ltb_spec i got); [|lia]. cbn [negb]. apply IH. lia.
Qed.

(** [get_user_pages] gives a number of pages. *)
Lemma ctl_io_safe X Y got ok wr x c buf mem pos len m : refs X Y m → m_ctxs m !! x = Some c → 0 ≤ got < 2 ^ 63 →
  safe (cyanfs_ctl_io blk race got ok wr x buf mem pos len m) (λ r, refs X Y r.2).
Proof using KernelLaws0.
  intros H Hx Hgot. unfold cyanfs_ctl_io. apply (safe_bind_live _ c); [done|]. destruct (cx_bound c) as [[[a file] w]|] eqn:Ec; [|done].
  destruct (bound_live _ _ _ _ _ _ _ _ H Hx Ec) as [b Ha]. apply (safe_bind_live _ b); [done|]. apply safe_bind_core. intros size _.
  destruct (io_length _ _ _ _) as [r|len']; [done|]. cbv zeta. destruct (kzalloc (m_kernel m)) as [ok1 k] eqn:Ek. destruct (kl_kzalloc _ _ _ Ek) as [Hk _].
  assert (H1 : refs X Y (set_m_kernel k m)) by (by apply (refs_kernel p0 u0)). destruct ok1; cbn [negb]; [|done]. rewrite u64_small by lia.
  destruct (Z.ltb_spec got (DIV_ROUND_UP (buf mod PAGE_SIZE + len') PAGE_SIZE)) as [|Hge]; [done|]. destruct ok; cbn [negb].
  - eapply safe_bind; [apply add_pages_safe; lia|]. intros rest _. apply safe_bind_core. intros _ _. destruct (bio_alloc _ _ _ _ _) as [bio s].
    apply safe_bind_core. intros [s1 w1] _. cbn [safe snd]. apply (refs_kick p0 u0); [by apply (refs_bios p0 u0)|done].
  - destruct (Z.ltb_spec got 0); [lia|done].
Qed.

Lemma ctl_open_safe X Y gfo m : refs X Y m → safe (cyanfs_ctl_open gfo m) (λ r, refs X Y r.2).
Proof using KernelLaws0.
  intros H. unfold cyanfs_ctl_open. destruct (kzalloc (m_kernel m)) as [ok k] eqn:Ek. destruct (kl_kzalloc _ _ _ Ek) as [Hk _].
  assert (H1 : refs X Y (set_m_kernel k m)) by (by apply (refs_kernel p0 u0)). destruct ok; cbn [negb]; [|done]. cbv zeta. cbn [safe snd].
  apply (refs_ctx_new p0 u0).
  - by apply (refs_next p0 u0); [|lia].
  - apply (r_fresh _ _ _ _ _ H). cbn [set_m_kernel m_next]. lia.
  - cbn [set_m_next set_m_kernel m_next]. lia.
Qed.

(** *** Every command *)
Lemma quiet_refs {A} X Y m (r : res (A * lmodule K)) : quiet X Y m r → safe r (λ x, refs X Y x.2).
Proof using Type. intros H. eapply safe_mono; [exact H|]. by intros x [? _]. Qed.

Lemma ctl_run_safe X Y x c cmd m : refs X Y m → m_ctxs m !! x = Some c → safe (ctl_run blk race fuel x cmd m) (λ r, refs X Y r.2).
Proof using KernelLaws0.
  intros H Hx.
  assert (Hask : ∀ A major minor (err : Z → A) (f : cyanfs_super → A), safe (with_backend major minor err (λ a, ask a f) m) (λ r, refs X Y r.2)).
  { intros. apply (quiet_refs X Y m), with_backend_quiet; [done|]. intros a b Ha. by apply (ask_quiet X Y a b). }
  assert (Hon : ∀ A major minor (err : Z → A) (f : world → res (A * world)), (∀ w, safe (f w) (λ _, True)) →
    safe (with_backend major minor err (λ a, on_backend a f) m) (λ r, refs X Y r.2)).
  { intros A major minor err f Hf. apply (quiet_refs X Y m), with_backend_quiet; [done|]. intros a b Ha. by apply (on_backend_quiet X Y a b). }
  destruct cmd as [major minor mallocs|major minor|major minor|major minor|major minor|major minor id ro|major minor id|major minor id|major minor iter|
    major minor name|major minor name|major minor pid name|major minor id name|major minor id size|major minor id|major minor id|major minor id ro|cmd]; cbn [ctl_run].
  - eapply safe_bind; [by apply mount_safe|]. by intros [r m'].
  - eapply safe_bind; [by apply umount_safe|]. by intros [r m'].
  - eapply safe_bind; [by eapply backend_list_safe|]. by intros [r o].
  - eapply safe_bind; [apply Hask|]. by intros [[r o] m'].
  - apply (safe_bind _ _ (λ r : Z * lmodule K, refs X Y r.2)); [|by intros [r m']]. apply (quiet_refs X Y m), with_backend_quiet; [done|]. intros a b Ha. by apply (backend_sync_quiet X Y a b).
  - eapply safe_bind; [by apply map_safe|]. by intros [[r o] m'].
  - eapply safe_bind; [by apply unmap_safe|]. by intros [r m'].
  - eapply safe_bind; [by eapply device_list_safe|]. by intros [r o].
  - eapply safe_bind; [apply Hask|]. by intros [[r o] m'].
  - eapply safe_bind; [apply Hask|]. by intros [[r o] m'].
  - eapply safe_bind; [apply Hon|by intros [[r o] m']]. intros w. by destruct (cyanfs_create name w) as [[? ?] ?].
  - eapply safe_bind; [apply Hon|by intros [[r o] m']]. intros w. by destruct (cyanfs_fork pid name w) as [[? ?] ?].
  - eapply safe_bind; [apply Hon|by intros [r m']]. intros w. apply core_pair_ret.
  - eapply safe_bind; [apply Hon|by intros [r m']]. intros w. apply core_pair_ret.
  - eapply safe_bind; [apply Hon|by intros [r m']]. intros w. apply core_pair_ret.
  - eapply safe_bind; [apply Hask|]. by intros [[r o] m'].
  - eapply safe_bind; [by eapply bind_safe|]. by intros [r m'].
  - exact H.
Qed.

Lemma ioctl_safe X Y from_fault to_fault x c cmd m : refs X Y m → m_ctxs m !! x = Some c →
  safe (cyanfs_ctl_ioctl blk race fuel from_fault to_fault x cmd m) (λ r, refs X Y r.2).
Proof using KernelLaws0.
  intros H Hx. unfold cyanfs_ctl_ioctl. destruct (negb _); [done|]. destruct from_fault; [done|]. eapply safe_bind; [by eapply ctl_run_safe|].
  intros [[r out] m'] H'. destruct (r <? 0); [done|]. by destruct (_ && _).
Qed.
End safe.
