(* ===== verification/LinuxSteps.v ===== *)
(** * LinuxSteps: the Linux module as a whole

    Everything that can happen to the module: the calls of its users and of the
    kernel, its work items, the completions of the device.  What holds after
    any sequence of them. *)
From Stdlib Require Import ZArith Lia.
From S2P Require Import Prelude Count Disk Base Journal Types Super World JournalIO Discard Compact Flusher Api ReadWrite System Errno Bio Backend BackendSpec Linux LinuxCtl LinuxConfig LinuxRefs LinuxSafe.

(** ** Events *)
Inductive event :=
  | EV_OPEN (generic_file_open : Z)
  | EV_RELEASE (x : Z)
  | EV_IOCTL (from_fault to_fault : bool) (x : Z) (cmd : ctl_cmd)
  | EV_FSYNC (x : Z)
  | EV_IO (get_user_pages : Z) (bio_ok is_write : bool) (x buf : Z) (mem : list Z) (pos len : Z)
  | EV_DISK_OPEN (d : Z)
  | EV_DISK_RELEASE (d : Z)
  | EV_DISK_BIO (d : Z) (op : req_op) (preflush : bool) (sector : Z) (mem : list Z)
  | EV_FREE_WORK (d : Z)
  | EV_WORK (a : Z)
  | EV_TIMER (a : Z)
  | EV_DONE (bio status : Z) (data : list Z)
  | EV_MAKE_BACKEND (path : Z + Z) (name : list Z) (mallocs : list bool)
  | EV_RELEASE_BACKEND (a : Z)
  | EV_MAKE_DEVICE (a : Z) (name : list Z) (write : bool)
  | EV_RELEASE_DEVICE (d : Z)
  | EV_LIST (a : Z)
  | EV_STATFS (a : Z)
  | EV_ID (d : Z)
  | EV_CREATE (a : Z) (page : list Z)
  | EV_FORK (a : Z) (page : list Z)
  | EV_RENAME (a : Z) (page : list Z)
  | EV_TRUNCATE (size : option Z) (a : Z) (page : list Z)
  | EV_DELETE (a : Z) (page : list Z)
  | EV_SYNC (a : Z)
  | EV_COMPACT (a : Z).

Section steps.
Context {K : Type} `{!Kernel K} {BL : BlockLayer} (blk : Z → Z) (race : world → world) (fuel : nat).
Implicit Types m : lmodule K.

Definition last_of {A} (r : res (A * lmodule K)) : res (lmodule K) := '(_, m) ← r; inr m.

(** A question changes nothing. *)
Definition seen {A} (m : lmodule K) (r : res A) : res (lmodule K) := _ ← r; inr m.

Definition happen (e : event) m : res (lmodule K) :=
  match e with
  | EV_OPEN gfo => last_of (cyanfs_ctl_open gfo m)
  | EV_RELEASE x => cyanfs_ctl_release blk race fuel x m
  | EV_IOCTL from_fault to_fault x cmd => last_of (cyanfs_ctl_ioctl blk race fuel from_fault to_fault x cmd m)
  | EV_FSYNC x => last_of (cyanfs_ctl_fsync blk race fuel x m)
  | EV_IO got ok wr x buf mem pos len => last_of (cyanfs_ctl_io blk race got ok wr x buf mem pos len m)
  | EV_DISK_OPEN d => cyanfs_block_device_open d m
  | EV_DISK_RELEASE d => cyanfs_block_device_release d m
  | EV_DISK_BIO d op preflush sector mem =>
      let '(bio, s) := bio_alloc op preflush sector mem (m_bios m) in cyanfs_block_device_submit_bio blk race d bio (set_m_bios s m)
  | EV_FREE_WORK d => cyanfs_block_device_free_work blk race fuel d m
  | EV_WORK a => last_of (run_work blk race fuel a m)
  | EV_TIMER a => run_flush_work a m
  | EV_DONE bio status data => s ← core (device_done bio status data (m_bios m)); inr (set_m_bios s m)
  | EV_MAKE_BACKEND path name mallocs => last_of (cyanfs_make_backend blk race fuel (λ _, path) name mallocs m)
  | EV_RELEASE_BACKEND a => cyanfs_release_backend blk race fuel a m
  | EV_MAKE_DEVICE a name write => last_of (cyanfs_make_block_device blk race fuel a name write m)
  | EV_RELEASE_DEVICE d => cyanfs_release_block_device d m
  | EV_LIST a => seen m (cyanfs_backend_cmd_list_show a m)
  | EV_STATFS a => seen m (cyanfs_backend_cmd_statfs_show a m)
  | EV_ID d => seen m (cyanfs_block_device_id_show d m)
  | EV_CREATE a page => last_of (cyanfs_backend_cmd_create_store a page 0 m)
  | EV_FORK a page => last_of (cyanfs_backend_cmd_fork_store a page 0 m)
  | EV_RENAME a page => last_of (cyanfs_backend_cmd_rename_store a page 0 m)
  | EV_TRUNCATE size a page => last_of (cyanfs_backend_cmd_truncate_store (λ _, size) a page 0 m)
  | EV_DELETE a page => last_of (cyanfs_backend_cmd_delete_store a page 0 m)
  | EV_SYNC a => last_of (cyanfs_backend_cmd_sync_store blk race fuel a 0 m)
  | EV_COMPACT a => last_of (cyanfs_backend_cmd_compact_store blk race fuel a 0 m)
  end.

(** What the kernel sees to: a descriptor is used while it is open, a directory
    while it is there, a disk while it is open; a work item runs when it was
    queued.  And two things the code takes for granted: the memory of a user's
    buffer is there, and no one opens a disk whose last reference is gone. *)
Definition device_is (P : cyanfs_block_device → bool) m (d : Z) : bool := match m_devices m !! d with Some c => P c | None => false end.

Definition may (e : event) m : bool :=
  match e with
  | EV_OPEN _ | EV_DONE _ _ _ | EV_MAKE_BACKEND _ _ _ => true
  | EV_RELEASE x | EV_IOCTL _ _ x _ | EV_FSYNC x => bool_decide (is_Some (m_ctxs m !! x))
  | EV_IO got _ _ x _ _ _ _ => bool_decide (is_Some (m_ctxs m !! x)) && (0 <=? got) && (got <? 2 ^ 63)
  | EV_DISK_OPEN d => device_is (λ c, negb (cb_work c)) m d
  | EV_DISK_RELEASE d | EV_DISK_BIO d _ _ _ _ => device_is (λ c, 0 <? cb_opens c) m d
  | EV_FREE_WORK d => device_is cb_work m d
  | EV_WORK a => match m_backends m !! a with Some b => be_work b | None => false end
  | EV_TIMER a => match m_backends m !! a with Some b => be_flush_work b | None => false end
  | EV_RELEASE_DEVICE d | EV_ID d => bool_decide (d ∈ m_cfg_devices m)
  | EV_RELEASE_BACKEND a | EV_MAKE_DEVICE a _ _ | EV_LIST a | EV_STATFS a | EV_CREATE a _ | EV_FORK a _ | EV_RENAME a _
  | EV_TRUNCATE _ a _ | EV_DELETE a _ | EV_SYNC a | EV_COMPACT a => bool_decide (a ∈ m_cfg_backends m)
  end.

(** The states of the module, from the moment it was loaded. *)
Inductive reachable (k0 : K) : lmodule K → Prop :=
  | reach_loaded : reachable k0 (loaded k0)
  | reach_step e m m' : reachable k0 m → may e m = true → happen e m = inr m' → reachable k0 m'.
End steps.

(** ** The directories *)
Section safe.
Context {K : Type} `{!Kernel K, !KernelLaws K} {BL : BlockLayer} (blk : Z → Z) (race : world → world) (fuel : nat) (p0 u0 : Z).
Implicit Types m : lmodule K.
#[local] Notation refs := (LinuxRefs.refs p0 u0).
#[local] Notation quiet := (LinuxSafe.quiet p0 u0).

Lemma store_quiet X Y m count (r : res (Z * lmodule K)) : quiet X Y m r → quiet X Y m (store count r).
Proof using Type. intros H. unfold store. eapply safe_bind; [exact H|]. intros [x m'] Hx. exact Hx. Qed.

Lemma with_name_quiet X Y m cursor (f : cyanfs_file_name_t → list Z → lmodule K → res (Z * lmodule K)) :
  refs X Y m → (∀ name cursor, quiet X Y m (f name cursor m)) → quiet X Y m (with_name cursor f m).
Proof using Type. intros H Hf. unfold with_name. destruct (cyanfs_configfs_next_name cursor) as [[r [name|]] cursor']; [apply Hf|done]. Qed.

Lemma with_file_quiet X Y m a b name (f : Z → lmodule K → res (Z * lmodule K)) :
  refs X Y m → m_backends m !! a = Some b → (∀ id, quiet X Y m (f id m)) → quiet X Y m (with_file a name f m).
Proof using Type.
  intros H Ha Hf. unfold with_file, ask. rewrite Ha. cbn [live mbind res_bind]. destruct (as_errno _) as [r [v|]]; [apply Hf|done].
Qed.

Lemma compact_quiet X Y m a b count : refs X Y m → m_backends m !! a = Some b → quiet X Y m (cyanfs_backend_cmd_compact_store blk race fuel a count m).
Proof using KernelLaws0.
  intros H Ha. apply store_quiet. unfold on_backend. rewrite Ha. cbn [live mbind res_bind]. destruct (cyanfs_super_compact _) as [[st w]|]; [|done].
  cbn [core mbind res_bind]. assert (H1 : refs X Y (put_backend a (kick w b) m)) by (by apply (refs_kick p0 u0)).
  destruct (failed st); [by split|]. assert (Ha1 : m_backends (put_backend a (kick w b) m) !! a = Some (kick w b)) by apply lookup_insert_eq.
  apply (safe_bind_live _ _ _ _ Ha1). apply safe_bind_core. intros [[[r k] s] b1] E. apply wait_tasks_same in E as (Hk & Hd & Hr).
  assert (H2 : refs X Y (put_backend a b1 (set_m_kernel k (set_m_bios s (put_backend a (kick w b) m))))) by (by eapply (refs_worked p0 u0)).
  destruct (r <? 0); [by split|]. apply (quiet_weaken p0 u0 X Y m (put_backend a b1 (set_m_kernel k (set_m_bios s (put_backend a (kick w b) m))))); [done|].
  apply (ask_quiet p0 u0 X Y a b1); [done|apply lookup_insert_eq].
Qed.

Lemma make_device_safe X Y m a b name wr : refs X Y m → m_backends m !! a = Some b →
  safe (cyanfs_make_block_device blk race fuel a name wr m) (λ r, refs X Y r.2).
Proof using KernelLaws0.
  intros H Ha. unfold cyanfs_make_block_device. destruct (Edit.cyanfs_file_name_copy name) as [st fn]. destruct (failed st); [done|]. unfold ask. rewrite Ha. cbn [live mbind res_bind].
  destruct (as_errno _) as [e1 [v|]]; [|done]. eapply safe_bind; [by apply (alloc_safe blk race fuel p0 u0 X Y a b)|].
  intros [[e2 o] m1] Hp. unfold alloc_post in Hp. cbn [fst snd] in Hp. destruct o as [d|]; [|done]. destruct Hp as (H1 & Hn & _). by apply (refs_dcfg_in p0 u0).
Qed.

Lemma make_backend_safe X Y m lookup name mallocs : refs X Y m → safe (cyanfs_make_backend blk race fuel lookup name mallocs m) (λ r, refs X Y r.2).
Proof using KernelLaws0.
  intros H. unfold cyanfs_make_backend. destruct (_ <? _); [done|]. destruct (lookup _) as [e|dev]; [done|]. apply safe_bind_core. intros [[e o] k] E.
  destruct o as [b|]; [|by eapply (open_failed blk race p0 u0)]. destruct (open_new blk race p0 u0 _ _ _ _ _ _ _ _ _ H E) as (_ & _ & Hnew).
  cbv zeta. cbn [safe snd]. cbn [set_m_kernel m_next]. apply (refs_cfg_in p0 u0 X Y (m_next m) _ Hnew). intros Hin.
  destruct (cfg_live p0 u0 (m_next m) X Y m H Hin) as [b' Hb']. destruct (r_fresh _ _ _ _ _ H (m_next m) ltac:(lia)). congruence.
Qed.

(** ** Every event *)
Lemma last_of_safe {A} X Y (r : res (A * lmodule K)) : safe r (λ x, refs X Y x.2) → safe (last_of r) (refs X Y).
Proof using Type. intros H. unfold last_of. eapply safe_bind; [exact H|]. intros [x m'] Hx. exact Hx. Qed.

Lemma last_of_quiet {A} X Y m (r : res (A * lmodule K)) : quiet X Y m r → safe (last_of r) (refs X Y).
Proof using Type. intros H. apply last_of_safe. by eapply quiet_refs. Qed.

Lemma sprintf_safe page s : safe (sprintf page s) (λ _, True).
Proof using Type. unfold sprintf. by destruct (_ <? _). Qed.

Lemma list_lines_safe n iter s page : safe (list_lines n iter s page) (λ _, True).
Proof using Type.
  revert iter page. induction n as [|n IH]; intros iter page; cbn [list_lines]; [done|]. destruct (cyanfs_list iter s) as [[|e] [v|]]; try done.
  eapply safe_bind; [apply sprintf_safe|]. intros page' _. apply IH.
Qed.

Lemma statfs_show_safe s : safe (statfs_show s) (λ _, True).
Proof using Type.
  unfold statfs_show. destruct (cyanfs_statfs s) as [[|err] [v|]]; [|exact I..]. generalize statfs_title (statfs_line v). intros l1 l2.
  eapply safe_bind; [apply sprintf_safe|]. intros page _. eapply safe_bind; [apply sprintf_safe|]. by intros page2 _.
Qed.

Lemma list_show_safe s : safe (list_show s) (λ _, True).
Proof using Type. unfold list_show. eapply safe_bind; [apply sprintf_safe|]. intros page _. apply list_lines_safe. Qed.

Lemma device_is_true P m d : device_is P m d = true → ∃ c, m_devices m !! d = Some c ∧ P c = true.
Proof using Type. unfold device_is. destruct (m_devices m !! d) as [c|]; [|done]. by exists c. Qed.

Lemma event_safe e m : refs [] [] m → may e m = true → safe (happen blk race fuel e m) (refs [] []).
Proof using KernelLaws0.
  intros H. assert (Hcfg : ∀ a, bool_decide (a ∈ m_cfg_backends m) = true → ∃ b, m_backends m !! a = Some b).
  { intros a Ha%bool_decide_eq_true. by apply (cfg_live p0 u0 a [] [] m). }
  assert (Hctx : ∀ x, bool_decide (is_Some (m_ctxs m !! x)) = true → ∃ c, m_ctxs m !! x = Some c) by (intros x Hx; by apply bool_decide_eq_true in Hx).
  destruct e; cbn [may happen].
  - intros _. by apply last_of_safe, (ctl_open_safe p0 u0).
  - intros [c Hc]%Hctx. by apply (ctl_release_safe blk race fuel p0 u0 [] [] x c).
  - intros [c Hc]%Hctx. by apply last_of_safe, (ioctl_safe blk race fuel p0 u0 [] [] _ _ x c).
  - intros [c Hc]%Hctx. apply (last_of_quiet [] [] m). unfold cyanfs_ctl_fsync. apply (safe_bind_live _ c); [done|].
    by apply (ctl_flush_quiet blk race fuel p0 u0 [] [] x c).
  - intros [[[c Hc]%Hctx ?%Z.leb_le]%andb_prop ?%Z.ltb_lt]%andb_prop. by apply last_of_safe, (ctl_io_safe blk race p0 u0 [] [] _ _ _ x c).
  - intros (c & Hc & Hw%negb_true_iff)%device_is_true. by apply (device_open_safe p0 u0 [] [] d c).
  - intros (c & Hc & Ho%Z.ltb_lt)%device_is_true. by apply (device_release_safe p0 u0 [] [] d c).
  - intros (c & Hc & Ho%Z.ltb_lt)%device_is_true. destruct (bio_alloc _ _ _ _ _) as [bio s].
    apply (device_bio_safe blk race p0 u0 [] [] d c); [by apply (refs_bios p0 u0)|done].
  - intros (c & Hc & Hw)%device_is_true. by apply (free_work_safe blk race fuel p0 u0 [] [] d c).
  - destruct (m_backends m !! a) as [b|] eqn:Ha; [|done]. intros _. by apply (last_of_quiet [] [] m), (run_work_quiet blk race fuel p0 u0 [] [] a b).
  - destruct (m_backends m !! a) as [b|] eqn:Ha; [|done]. intros _. by apply (run_flush_work_safe p0 u0 [] [] a b).
  - intros _. apply safe_bind_core. intros s _. by apply (refs_bios p0 u0).
  - intros _. by apply last_of_safe, make_backend_safe.
  - intros Ha%bool_decide_eq_true. apply (put_safe blk race fuel p0 u0). by apply (refs_cfg_out p0 u0).
  - intros [b Ha]%Hcfg. by eapply last_of_safe, make_device_safe.
  - intros Hd%bool_decide_eq_true. apply (device_put_safe p0 u0). by apply (refs_dcfg_out p0 u0).
  - intros [b Ha]%Hcfg. unfold seen, cyanfs_backend_cmd_list_show. rewrite Ha. cbn [live mbind res_bind]. eapply safe_bind; [apply list_show_safe|]. by intros x _.
  - intros [b Ha]%Hcfg. unfold seen, cyanfs_backend_cmd_statfs_show. rewrite Ha. cbn [live mbind res_bind]. eapply safe_bind; [apply statfs_show_safe|]. by intros x _.
  - intros Hd%bool_decide_eq_true. destruct (kept_live p0 u0 [] [] d m H) as [c Hc].
    { unfold keepers. rewrite (bool_decide_true (d ∈ _)) by done. pose proof (map_count_nonneg (λ x, x = d) (m_device_rb m)). pose proof (list_count_nonneg (λ x, x = d) []). cbn [Z.b2z]. lia. }
    unfold seen, cyanfs_block_device_id_show. rewrite Hc. cbn [live mbind res_bind]. eapply safe_bind; [apply sprintf_safe|]. by intros x _.
  - intros [b Ha]%Hcfg. apply (last_of_quiet [] [] m), store_quiet, with_name_quiet; [done|]. intros name _. apply (on_backend_quiet p0 u0 [] [] a b); [done..|].
    intros w. by destruct (cyanfs_create name w) as [[? ?] ?].
  - intros [b Ha]%Hcfg. apply (last_of_quiet [] [] m), store_quiet, with_name_quiet; [done|]. intros name cur. apply with_name_quiet; [done|]. intros name2 _.
    apply (with_file_quiet [] [] m a b); [done..|]. intros id. apply (on_backend_quiet p0 u0 [] [] a b); [done..|]. intros w. by destruct (cyanfs_fork id name2 w) as [[? ?] ?].
  - intros [b Ha]%Hcfg. apply (last_of_quiet [] [] m), store_quiet, with_name_quiet; [done|]. intros name cur. apply with_name_quiet; [done|]. intros name2 _.
    apply (with_file_quiet [] [] m a b); [done..|]. intros id. apply (on_backend_quiet p0 u0 [] [] a b); [done..|]. intros w. apply core_pair_ret.
  - intros [b Ha]%Hcfg. apply (last_of_quiet [] [] m), store_quiet, with_name_quiet; [done|]. intros name cur. destruct size as [size|]; [|done].
    destruct (_ <? _); [done|]. apply (with_file_quiet [] [] m a b); [done..|]. intros id. apply (on_backend_quiet p0 u0 [] [] a b); [done..|]. intros w. apply core_pair_ret.
  - intros [b Ha]%Hcfg. apply (last_of_quiet [] [] m), store_quiet, with_name_quiet; [done|]. intros name _.
    apply (with_file_quiet [] [] m a b); [done..|]. intros id. apply (on_backend_quiet p0 u0 [] [] a b); [done..|]. intros w. apply core_pair_ret.
  - intros [b Ha]%Hcfg. apply (last_of_quiet [] [] m), store_quiet. by apply (backend_sync_quiet blk race fuel p0 u0 [] [] a b).
  - intros [b Ha]%Hcfg. apply (last_of_quiet [] [] m). by apply (compact_quiet [] [] m a b).
Qed.
End safe.

(** ** The module *)
Section module.
Context {K : Type} `{!Kernel K, !KernelLaws K} {BL : BlockLayer} (blk : Z → Z) (race : world → world) (fuel : nat).

Lemma reachable_refs (k0 : K) m : reachable blk race fuel k0 m → refs (k_pages k0) (k_users k0) [] [] m.
Proof using KernelLaws0.
  induction 1 as [|e m m' _ IH Hm Hh]; [by apply refs_loaded|]. pose proof (event_safe blk race fuel _ _ e m IH Hm) as Hs. by rewrite Hh in Hs.
Qed.

(** C7: no operation of the Linux module uses an object that was freed.
    Whatever the users of the control device, of configfs and of the disks do,
    in whatever order, and whichever allocations and calls of the kernel fail,
    no backend, disk or descriptor is used after it is gone; provided ([may])
    that the buffers of transfers are there and that no disk is opened between
    the end of its last reference and its work item. *)
Theorem module_never_dangles (k0 : K) m e :
  reachable blk race fuel k0 m → may e m = true → happen blk race fuel e m ≠ inl DANGLING.
Proof using KernelLaws0.
  intros H%reachable_refs Hm E. pose proof (event_safe blk race fuel _ _ e m H Hm) as Hs. by rewrite E in Hs.
Qed.

(** C8: after any sequence of operations, a backend is there exactly as long as
    something holds it: its count is positive and is the number of its holders
    (the tree of the control device, a directory, the disks, the bound
    descriptors), and what a holder refers to is there.  No two backends use
    the same device, no two disks have the same number.  The kernel's pages and
    the references that keep the module loaded are those of the backends: 256
    pages and one reference each, so the module can be unloaded again exactly
    when there are none. *)
Theorem module_accounts (k0 : K) m :
  reachable blk race fuel k0 m →
  (∀ a b, m_backends m !! a = Some b → 0 < be_ref b ∧ be_ref b = holders [] a m) ∧
  (∀ a, 0 < holders [] a m → is_Some (m_backends m !! a)) ∧
  (∀ a a' b b', m_backends m !! a = Some b → m_backends m !! a' = Some b' → be_dev_id b = be_dev_id b' → a = a') ∧
  (∀ d d' c c', m_devices m !! d = Some c → m_devices m !! d' = Some c' → cb_id c = cb_id c' → d = d') ∧
  k_pages (m_kernel m) = k_pages k0 + CYANFS_BIO_MAX_VECS * Z.of_nat (size (m_backends m)) ∧
  (k_users (m_kernel m) = k_users k0 ↔ m_backends m = ∅).
Proof using KernelLaws0.
  intros H%reachable_refs. split_and!.
  - intros a b. apply (ref_holders _ _ _ _ _ _ _ H).
  - intros a Ha. apply (held_live _ _ _ _ _ _ H) in Ha as [b Hb]. by exists b.
  - apply (r_distinct _ _ _ _ _ H).
  - intros d d' c c' Hd Hd' E. destruct (device_kept _ _ _ _ _ _ _ H Hd) as (_ & _ & _ & Hi). destruct (device_kept _ _ _ _ _ _ _ H Hd') as (_ & _ & _ & Hi').
    rewrite E in Hi. congruence.
  - apply (r_pages _ _ _ _ _ H).
  - rewrite (r_users _ _ _ _ _ H), <- map_size_empty_iff. lia.
Qed.
End module.
