(* ===== verification/LinuxSpec.v ===== *)
(** * LinuxSpec: single operations of the Linux module

    What the listing of configfs shows, how a user's buffer becomes a request,
    and the operations that do not do what they are meant to: a failed
    [get_user_pages] goes unnoticed, mapping a file twice forgets a disk, a disk
    can be opened while it is taken down, and the listing of the backends can
    turn back. *)
From Stdlib Require Import ZArith Lia.
From S2P Require Import Prelude Count Disk Base Journal Types Super SuperInv World JournalIO Discard Compact Flusher Api Handles ReadWrite System Errno Bio Backend BackendSpec Linux LinuxCtl LinuxConfig LinuxRefs LinuxSafe LinuxSteps.

(** ** The listing of configfs *)

(** The text as a whole. *)
Definition fits_page (text : list Z) : res (list Z) := if PAGE_SIZE <? Z.of_nat (length text + 1) then inl OVERRUN else inr text.

Lemma sprintf_fits page s : sprintf page s = fits_page (page ++ s).
Proof. unfold sprintf, fits_page. by rewrite length_app. Qed.

Lemma fits_page_app page s : (p ← fits_page page; sprintf p s) = fits_page (page ++ s).
Proof.
  rewrite <- sprintf_fits. unfold fits_page, sprintf. destruct (Z.ltb_spec PAGE_SIZE (Z.of_nat (length page + 1))); [|done]. cbn [mbind res_bind].
  destruct (Z.ltb_spec PAGE_SIZE (Z.of_nat (length page + length s + 1))); [done|lia].
Qed.

Lemma list_lines_from n iter s page ms st : list_from n iter s = Some (ms, st) →
  (p ← fits_page page; list_lines n iter s p) = fits_page (page ++ concat (list_line <$> ms)).
Proof.
  revert iter page ms. induction n as [|n IH]; intros iter page ms; cbn [list_from list_lines]; [done|].
  destruct (cyanfs_list iter s) as [[|e] [v|]]; try (intros [= <- _]; cbn; rewrite app_nil_r; by destruct (fits_page page)).
  destruct (list_from n (fm_id v) s) as [[ms1 st1]|] eqn:E; [|done]. cbn [mbind option_bind]. intros [= <- <-]. cbn [fmap list_fmap concat].
  rewrite app_assoc, <- (IH (fm_id v) (page ++ list_line v) ms1 E), <- fits_page_app. by destruct (fits_page page).
Qed.

(** The metadata of the files, in the order of the ids. *)
Definition files_listed (s : cyanfs_super) : list cyanfs_file_meta := omap (λ id, f_meta <$> files_by_id s !! id) (set_ordered (dom (files_by_id s))).

Lemma list_show_text s fl :
  wf s fl → __cyanfs_super_ensure_status s = ST_OK → list_show s = fits_page (list_title ++ concat (list_line <$> files_listed s)).
Proof.
  intros Hwf Hst. unfold list_show. rewrite sprintf_fits. rewrite app_nil_l. eapply list_lines_from.
  apply (list_from_sorted s fl); try done.
  - apply set_ordered_lt.
  - intros id. rewrite elem_of_set_ordered, elem_of_dom. split; [|by intros [_ ?]]. intros [f Hf]. split; [|by eauto].
    destruct (wn_id _ _ _ _ (wf_has_ns _ _ Hwf) id (strip f)); [by rewrite lookup_fmap, Hf|lia].
  - rewrite (Permutation_length (set_ordered_Permutation _)). change (length (elements ?X)) with (size X). rewrite size_dom. lia.
Qed.

(** Ninety-five files are too many for the page. *)
Lemma length_fmt_u width v : (width ≤ length (fmt_u width v))%nat.
Proof. unfold fmt_u. rewrite length_app, length_replicate. lia. Qed.

Lemma length_list_line v : (43 ≤ length (list_line v))%nat.
Proof.
  unfold list_line. rewrite !length_app. pose proof (length_fmt_u 6 (fm_id v)). pose proof (length_fmt_u 6 (fm_parent_id v)).
  pose proof (length_fmt_u 5 (fm_children v)). pose proof (length_fmt_u 8 (fm_extents v)). pose proof (length_fmt_u 12 (fm_size v)). cbn [length]. lia.
Qed.

Lemma length_list_lines (ms : list cyanfs_file_meta) : (43 * length ms ≤ length (concat (list_line <$> ms)))%nat.
Proof. induction ms as [|v ms IH]; [done|]. cbn [fmap list_fmap concat length]. rewrite length_app. pose proof (length_list_line v). lia. Qed.

Lemma length_omap_all {A B} (f : A → option B) (l : list A) : (∀ x, x ∈ l → is_Some (f x)) → length (omap f l) = length l.
Proof.
  induction l as [|x l IH]; intros H; [done|]. destruct (H x) as [y Hy]; [apply list_elem_of_here|]. cbn [omap list_omap]. rewrite Hy. cbn [length].
  f_equal. apply IH. intros z Hz. apply H. by apply list_elem_of_further.
Qed.

Lemma length_files_listed s : length (files_listed s) = size (files_by_id s).
Proof.
  unfold files_listed. rewrite length_omap_all, (Permutation_length (set_ordered_Permutation _)).
  - change (length (elements ?X)) with (size X). apply size_dom.
  - intros id [f Hf]%elem_of_set_ordered%elem_of_dom. rewrite Hf. by eexists.
Qed.

(** The file [list] of configfs shows its title and one line per file, each
    file once, in the order of the ids; but the page of 4096 bytes it is written
    to is overrun exactly when that text does not fit, which is so for any file
    system with 95 files. *)
Theorem list_show_lines s fl :
  wf s fl → __cyanfs_super_ensure_status s = ST_OK →
  let text := list_title ++ concat (list_line <$> files_listed s) in
  list_show s = (if PAGE_SIZE <? Z.of_nat (length text + 1) then inl OVERRUN else inr text) ∧
  ((95 ≤ size (files_by_id s))%nat → list_show s = inl OVERRUN).
Proof.
  intros Hwf Hst. cbv zeta. rewrite (list_show_text s fl Hwf Hst). split; [done|]. intros Hn. unfold fits_page.
  pose proof (length_list_lines (files_listed s)) as Hl. rewrite length_files_listed in Hl. rewrite length_app. change (length list_title) with 47%nat.
  destruct (Z.ltb_spec PAGE_SIZE (Z.of_nat (47 + length (concat (list_line <$> files_listed s)) + 1))); [done|]. unfold PAGE_SIZE in *. lia.
Qed.

(** ** A user's buffer *)

(** The segments of a request hold all of its bytes. *)
Lemma add_pages_all n got i off len : 0 ≤ off < PAGE_SIZE → 0 ≤ len → i + Z.of_nat n ≤ got → off + len ≤ PAGE_SIZE * Z.of_nat n →
  add_pages n got i off len = inr 0.
Proof.
  revert i off len. induction n as [|n IH]; intros i off len Ho Hl Hi Hn; cbn [add_pages]; [f_equal; lia|].
  destruct (Z.ltb_spec i got); [|lia]. cbn [negb]. apply IH; unfold PAGE_SIZE in *; lia.
Qed.

Lemma pages_enough off len : 0 < len → 0 ≤ off → off + len ≤ PAGE_SIZE * Z.of_nat (Z.to_nat (DIV_ROUND_UP (off + len) PAGE_SIZE)).
Proof.
  intros Hl Ho. unfold DIV_ROUND_UP, PAGE_SIZE. pose proof (Z.div_mod (off + len + 4096 - 1) 4096 ltac:(lia)).
  pose proof (Z.mod_pos_bound (off + len + 4096 - 1) 4096 ltac:(lia)). rewrite Z2Nat.id; [lia|]. apply Z.div_pos; lia.
Qed.

Section spec.
Context {K : Type} `{!Kernel K, !KernelLaws K} {BL : BlockLayer} (blk : Z → Z) (race : world → world) (fuel : nat).
Implicit Types m : lmodule K.

(** A transfer inside a file: when the buffer is there, its segments hold exactly
    the bytes up to the end of the file, the machine is not stopped, and one
    request for them goes to the file. *)
Theorem ctl_io_sends got is_write x a file write b size buf mem pos len m k :
  m_ctxs m !! x = Some (mk_ctx (Some (a, file, write))) → m_backends m !! a = Some b →
  cyanfs_size file (w_super (be_super b)) = Some size → 0 ≤ pos < size → 0 < len ≤ CYANFS_BIO_MAX_SIZE → pos + len < 2 ^ 64 →
  pos mod SECTOR_SIZE = 0 → len mod SECTOR_SIZE = 0 → kzalloc (m_kernel m) = (true, k) →
  let len' := Z.min len (size - pos) in
  DIV_ROUND_UP (buf mod PAGE_SIZE + len') PAGE_SIZE ≤ got < 2 ^ 63 →
  cyanfs_ctl_io blk race got true is_write x buf mem pos len m =
  (let '(bio, s) := bio_alloc (if is_write then REQ_OP_WRITE else REQ_OP_READ) false (Z.shiftr pos SECTOR_SHIFT) (take (Z.to_nat len') mem) (m_bios m) in
   '(s, w) ← core (cyanfs_file_submit_bio blk race file bio s (be_super b));
   inr (inr (bio, len'), put_backend a (kick w b) (set_m_bios s (set_m_kernel k m)))).
Proof using Type.
  intros Hx Ha Hs Hp Hl Hb Hmp Hml Hk len' Hg. unfold cyanfs_ctl_io. rewrite Hx. cbn [live mbind res_bind cx_bound]. rewrite Ha. cbn [live mbind res_bind].
  rewrite Hs. cbn [core mbind res_bind]. pose proof (Z.mod_pos_bound buf PAGE_SIZE ltac:(done)) as Hbuf.
  assert (Hlen : io_length size is_write pos len = inr len').
  { unfold io_length, len'. rewrite Hmp, Hml. cbn [Z.eqb negb orb]. destruct (Z.ltb_spec CYANFS_BIO_MAX_SIZE len); [lia|]. rewrite u64_small by lia.
    destruct (Z.ltb_spec size (pos + len)), (Z.leb_spec size pos), (Z.eqb_spec len 0); try lia; f_equal; lia. }
  rewrite Hlen. cbv zeta. rewrite Hk. cbn [negb]. assert (Hn : 0 ≤ DIV_ROUND_UP (buf mod PAGE_SIZE + len') PAGE_SIZE) by (apply Z.div_pos; unfold PAGE_SIZE in *; lia).
  rewrite u64_small by lia. destruct (Z.ltb_spec got (DIV_ROUND_UP (buf mod PAGE_SIZE + len') PAGE_SIZE)); [lia|].
  rewrite add_pages_all; [done|done|lia|lia|]. apply pages_enough; lia.
Qed.

(** C40: a transfer whose buffer is not there is not refused.  [get_user_pages]
    answers with a negative number, the code keeps it in an [unsigned long] and
    compares that with 0 and with the number of pages: both tests pass, and the
    entries of the array of pages, which were never written, are used. *)
Theorem ctl_io_bad_buffer got bio_ok is_write x a file write b size buf mem pos len len' m k :
  m_ctxs m !! x = Some (mk_ctx (Some (a, file, write))) → m_backends m !! a = Some b →
  cyanfs_size file (w_super (be_super b)) = Some size → io_length size is_write pos len = inr len' → 0 < len' <= CYANFS_BIO_MAX_SIZE →
  kzalloc (m_kernel m) = (true, k) → - 4095 ≤ got < 0 →
  cyanfs_ctl_io blk race got bio_ok is_write x buf mem pos len m = inl DANGLING.
Proof using Type.
  intros Hx Ha Hs Hl Hlen Hk Hg. unfold cyanfs_ctl_io. rewrite Hx. cbn [live mbind res_bind cx_bound]. rewrite Ha. cbn [live mbind res_bind].
  rewrite Hs. cbn [core mbind res_bind]. rewrite Hl. cbv zeta. rewrite Hk. cbn [negb].
  assert (Hu : u64 got = got + 2 ^ 64) by (symmetry; apply (Z.mod_unique got _ (-1)); lia).
  pose proof (Z.mod_pos_bound buf PAGE_SIZE ltac:(done)) as Hb. change CYANFS_BIO_MAX_SIZE with 1048576 in Hlen.
  assert (Hn : 1 ≤ DIV_ROUND_UP (buf mod PAGE_SIZE + len') PAGE_SIZE ≤ 1048576).
  { unfold DIV_ROUND_UP, PAGE_SIZE in *. split; [apply Z.div_le_lower_bound; lia|apply Z.div_le_upper_bound; lia]. }
  destruct (Z.ltb_spec (u64 got) (DIV_ROUND_UP (buf mod PAGE_SIZE + len') PAGE_SIZE)); [lia|]. destruct bio_ok; cbn [negb].
  - destruct (Z.to_nat (DIV_ROUND_UP _ _)) as [|n] eqn:En; [lia|]. cbn [add_pages]. destruct (Z.ltb_spec 0 got); [lia|done].
  - destruct (Z.ltb_spec got 0); [done|lia].
Qed.

(** ** Disks *)

(** Mapping a file that is mapped already forgets a disk.  A second
    read-only mapping of a file succeeds and reports the number of a new disk,
    but the tree already has an element with its key and stays as it is: the
    reference of the new disk is held by nobody, so no unmapping gives it back,
    and with it the file and the backend stay open. *)
Theorem device_map_leaks p0 u0 major minor id readonly d0 v m m' :
  refs p0 u0 [] [] m → m_device_rb m !! cbd_key (MKDEV major minor) id = Some d0 →
  cyanfs_ctl_device_map blk race fuel major minor id readonly m = inr (0, Some v, m') →
  ∃ d c, m_devices m' !! d = Some c ∧ cb_id c = v ∧ cb_file_id c = id ∧ cb_ref c = 1 ∧ cb_opens c = 0 ∧ keepers [] d m' = 0 ∧
    d ∉ m_cfg_devices m' ∧ (∀ key, m_device_rb m' !! key ≠ Some d) ∧ m_device_rb m' = m_device_rb m.
Proof using KernelLaws0.
  intros H Hd0. unfold cyanfs_ctl_device_map, cyanfs_ctl_backend_lookup. rewrite (walk_backends_ok p0 u0 [] [] m H). cbn [mbind res_bind].
  destruct (m_backend_rb m !! _) as [a|] eqn:Ea; [|done]. destruct (r_rb _ _ _ _ _ H _ _ Ea) as (b & Hb & _).
  pose proof (alloc_safe blk race fuel p0 u0 [] [] a b id (negb readonly) m H Hb) as Hs.
  destruct (cyanfs_block_device_alloc _ _ _ _ _ _ _) as [e|[[err [d|]] m1]]; [done| |done]. cbn [safe] in Hs. unfold alloc_post in Hs. cbn [fst snd] in Hs.
  destruct Hs as (H1 & Hn & Ht & Hk & c & b1 & Hc & Hcb & Hid & Hr & Ho & Hb1). cbn [mbind res_bind].
  rewrite (walk_devices_ok p0 u0 [] [d] m1 H1). cbn [mbind res_bind]. rewrite Hb1, Hc. cbn [live mbind res_bind].
  unfold trees in Ht. injection Ht as Ht1 Ht2. destruct (r_rb _ _ _ _ _ H1 (MKDEV major minor) a) as (b2 & Hb2 & Ed); [by rewrite Ht1|].
  assert (b2 = b1) as -> by congruence. unfold rb_put. rewrite Ed, Ht2, Hd0. intros [= <- <-]. rewrite <- Ht2. exists d, c.
  split_and!; try done. cbn [set_m_device_rb m_device_rb]. intros key Hkey. unfold keepers in Hk.
  pose proof (map_count_pos (λ x, x = d) _ _ _ Hkey eq_refl). pose proof (list_count_nonneg (λ x, x = d) []).
  destruct (bool_decide (d ∈ m_cfg_devices m1)); cbn [Z.b2z] in Hk; lia.
Qed.

(** A disk whose last reference is gone can still be opened until its work item
    runs; the work item frees it all the same, and closing it uses what was
    freed. *)
Lemma put_devices a m m' : cyanfs_backend_put blk race fuel a m = inr m' → m_devices m' = m_devices m.
Proof using Type.
  unfold cyanfs_backend_put. destruct (m_backends m !! a) as [b|]; [|done]. cbn [live mbind res_bind]. destruct (_ =? 0); [|by intros [= <-]].
  destruct (cyanfs_backend_close _ _ _ _ _ _) as [[k s]|]; [|done]. by intros [= <-].
Qed.

Theorem going_disk_opened d m m1 m2 :
  device_is cb_work m d = true → happen blk race fuel (EV_DISK_OPEN d) m = inr m1 → happen blk race fuel (EV_FREE_WORK d) m1 = inr m2 →
  device_is cb_work m1 d = true ∧ happen blk race fuel (EV_DISK_RELEASE d) m2 = inl DANGLING.
Proof using Type.
  intros (c & Hc & Hw)%device_is_true. cbn [happen]. unfold cyanfs_block_device_open, cyanfs_block_device_get, count_open. rewrite Hc. cbn. rewrite lookup_insert_eq. cbn.
  intros [= <-]. split; [unfold device_is; cbn; by rewrite lookup_insert_eq|]. revert H. unfold cyanfs_block_device_free_work. cbn. rewrite lookup_insert_eq. cbn [live mbind res_bind].
  destruct (close_file _ _ _) as [e|m3]; [done|]. cbn [mbind res_bind]. intros Hp%put_devices. cbn in Hp.
  unfold cyanfs_block_device_release, count_open. rewrite Hp. cbn. by rewrite lookup_delete_eq.
Qed.
End spec.

(** ** Listing the backends *)
Lemma lor_odd x : Z.odd x = true → Z.lor x 1 = x.
Proof.
  intros Ho. apply Z.bits_inj'. intros n Hn. rewrite Z.lor_spec. destruct (Z.eqb_spec n 0) as [->|Hne]; [by rewrite Z.bit0_odd, Ho|].
  rewrite (Z.bits_above_log2 1) by (cbn; lia). apply orb_false_r.
Qed.

Lemma land_shifted a b n : 0 ≤ n → 0 ≤ b < 2 ^ n → Z.land (Z.shiftl a n) b = 0.
Proof.
  intros Hn Hb. apply Z.bits_inj'. intros i Hi. rewrite Z.land_spec, Z.bits_0. destruct (Z.ltb_spec i n).
  - by rewrite Z.shiftl_spec_low.
  - rewrite <- (Z.mod_small b (2 ^ n)) by done. rewrite Z.mod_pow2_bits_high by lia. apply andb_false_r.
Qed.

Lemma MKDEV_eq major minor : 0 ≤ major < 2 ^ 12 → 0 ≤ minor < 2 ^ 20 → MKDEV major minor = major * 2 ^ 20 + minor.
Proof.
  intros Hj Hn. unfold MKDEV, MINORBITS. pose proof (Z.add_lor_land (Z.shiftl major 20) minor) as E. rewrite land_shifted, Z.add_0_r in E by lia.
  rewrite E, Z.shiftl_mul_pow2 by lia. apply u32_small. lia.
Qed.

(** The listing of the backends turns back.  The number after the last minor
    of an odd major is made with an "or" that loses the carry, so it is the
    first number of the same major: once the backend on (major, 0xFFFFF) was
    returned, the next call returns a backend that is not behind it, and a
    caller that walks the list never comes to its end. *)
Theorem backend_list_turns_back {K} `{!Kernel K} p0 u0 major a (m : lmodule K) :
  refs p0 u0 [] [] m → 0 ≤ major < 2 ^ 12 → Z.odd major = true → m_backend_rb m !! MKDEV major 1048575 = Some a →
  ∃ a' b, m_backends m !! a' = Some b ∧ be_dev_id b ≤ MKDEV major 1048575 ∧
    cyanfs_ctl_backend_list major 1048575 m = inr (0, Some (MAJOR (be_dev_id b), MINOR (be_dev_id b))).
Proof.
  intros H Hj Ho Ha. unfold cyanfs_ctl_backend_list. rewrite (walk_backends_ok p0 u0 [] [] m H). cbn [mbind res_bind].
  assert (E : MKDEV major (u32 (1048575 + 1)) = MKDEV major 0).
  { unfold MKDEV, MINORBITS. change (u32 (1048575 + 1)) with (Z.shiftl 1 20). by rewrite <- Z.shiftl_lor, lor_odd, Z.lor_0_r. }
  rewrite E. unfold rb_nfind. destruct (set_nfind (dom (m_backend_rb m)) (MKDEV major 0)) as [key|] eqn:En.
  - apply set_nfind_Some in En as (Hin & _ & Hmin). apply elem_of_dom in Hin as [a' Ha']. destruct (r_rb _ _ _ _ _ H _ _ Ha') as (b & Hb & <-).
    exists a', b. split_and!; [done| |cbn [mbind option_bind]; rewrite Ha'; cbn [mbind option_bind]; by rewrite Hb]. apply Hmin; [apply elem_of_dom; by exists a|]. rewrite !MKDEV_eq by lia. lia.
  - exfalso. pose proof (proj1 (set_nfind_None _ _) En (MKDEV major 1048575)) as Hlt. rewrite !MKDEV_eq in Hlt by lia.
    specialize (Hlt ltac:(apply elem_of_dom; rewrite <- MKDEV_eq by lia; by exists a)). lia.
Qed.
