(* ===== verification/LinuxSim.v ===== *)
(** * LinuxSim: a kernel to run the Linux module with

    A kernel that has memory and whose devices answer, with what the module
    holds of it written down.  It does what [KernelLaws] and [ReliableKernel]
    ask for, so the theorems about the module apply to it; the examples of these
    theorems are here. *)
From Stdlib Require Import ZArith Lia.
From S2P Require Import Prelude Count Disk Base Journal Types Super SuperInv Replay World JournalIO JournalRecord Discard Compact Flusher Api Handles ReadWrite ReadSpec WriteSpec System Recovery Errno EditSpec Bio BioSpec Backend BackendSpec Linux LinuxCtl LinuxConfig LinuxRefs LinuxSafe LinuxSteps LinuxSpec.

Record sim := mk_sim { sim_claimed : gset Z; sim_pages : Z; sim_users : Z; sim_disks : gset Z; sim_bytes : Z → disk }.

(** The least number that is not in use. *)
Definition fresh_id (used : gset Z) : Z := match elements used with [] => 0 | x :: l => 1 + Z.max 0 (foldr Z.max x l) end.

#[export] Instance sim_kernel : Kernel sim := {|
  k_claimed := sim_claimed; k_pages := sim_pages; k_users := sim_users; k_disks := sim_disks; k_bytes := sim_bytes;
  kzalloc k := (true, k);
  alloc_page k := (true, mk_sim (sim_claimed k) (sim_pages k + 1) (sim_users k) (sim_disks k) (sim_bytes k));
  put_page k := mk_sim (sim_claimed k) (sim_pages k - 1) (sim_users k) (sim_disks k) (sim_bytes k);
  bdev_open dev k :=
    if bool_decide (dev ∈ sim_claimed k) then (- EBUSY, k)
    else (0, mk_sim ({[dev]} ∪ sim_claimed k) (sim_pages k) (sim_users k) (sim_disks k) (sim_bytes k));
  bdev_release dev k := mk_sim (sim_claimed k ∖ {[dev]}) (sim_pages k) (sim_users k) (sim_disks k) (sim_bytes k);
  bdev_logical_block_size dev := if dev =? 0 then 4096 else 512;
  bdev_physical_block_size dev := 4096;
  bdev_nr_bytes dev := ex_size;
  bdev_max_discard_sectors dev := 0;
  submit_bio_read dev sector size k := (0, disk_read (sim_bytes k dev) (sector * 512) size, k);
  submit_bio_write dev sector data k :=
    (0, mk_sim (sim_claimed k) (sim_pages k) (sim_users k) (sim_disks k)
          (λ d, if d =? dev then disk_write (sim_bytes k dev) (sector * 512) data else sim_bytes k d));
  blkdev_issue_discard dev sector n k := (0, k);
  blkdev_issue_flush dev k := (0, k);
  module_get k := mk_sim (sim_claimed k) (sim_pages k) (sim_users k + 1) (sim_disks k) (sim_bytes k);
  module_put k := mk_sim (sim_claimed k) (sim_pages k) (sim_users k - 1) (sim_disks k) (sim_bytes k);
  idr_alloc used k := (fresh_id used, k);
  blk_alloc_disk k := (0, k);
  blk_cleanup_disk k := k;
  device_add_disk id k := (0, mk_sim (sim_claimed k) (sim_pages k) (sim_users k) ({[id]} ∪ sim_disks k) (sim_bytes k));
  del_gendisk id k := mk_sim (sim_claimed k) (sim_pages k) (sim_users k) (sim_disks k ∖ {[id]}) (sim_bytes k) |}.

Lemma foldr_max_above x l y : y ∈ x :: l → y ≤ foldr Z.max x l.
Proof.
  induction l as [|z l IH]; cbn [foldr]; [intros ->%list_elem_of_singleton; done|]. intros [->|[->|Hy]%elem_of_cons]%elem_of_cons.
  - pose proof (IH ltac:(apply list_elem_of_here)). lia.
  - lia.
  - pose proof (IH ltac:(by apply list_elem_of_further)). lia.
Qed.

Lemma fresh_id_fresh used : fresh_id used ∉ used.
Proof.
  intros Hin%elem_of_elements. unfold fresh_id in Hin. destruct (elements used) as [|x l]; [by apply not_elem_of_nil in Hin|].
  apply foldr_max_above in Hin. lia.
Qed.

#[export] Instance sim_laws : KernelLaws sim.
Proof.
  split; unfold k_held; cbn.
  - by intros k k' ok [= _ <-].
  - by intros k k' ok [= <- <-].
  - done.
  - intros dev k k' err. case_bool_decide as Hc; intros [= <- <-]; [done|]. by split_and!.
  - done.
  - by intros dev sector size k k' err data [= <- <- <-].
  - intros dev sector data k k' err [= <- <-]. cbn. rewrite Z.eqb_refl. split_and!; [done| |done]. intros x Hx. by apply disk_write_out.
  - by intros dev sector n k k' err [= _ <-].
  - by intros dev k k' err [= _ <-].
  - done.
  - done.
  - intros used k k' r [= <- <-]. split_and!; [done..|]. intros _. apply fresh_id_fresh.
  - by intros k k' r [= _ <-].
  - done.
  - by intros id k k' r [= <- <-].
  - done.
Qed.

#[export] Instance sim_reliable : ReliableKernel sim.
Proof.
  split; cbn.
  - by intros k k' ok [= <- _].
  - by intros k k' ok [= <- _].
  - intros dev k k' err Hn. rewrite bool_decide_false by done. by intros [= <- _].
  - by intros dev sector size k k' err data [= <- _ _].
Qed.

(** ** Examples *)

(** A kernel in which every device is freshly formatted; device 0 has blocks the
    module does not support. *)
Definition ex_kernel : sim := mk_sim ∅ 0 0 ∅ (λ _, formatted ex_uuid).

Lemma backend_copy_copies_witness :
  ∃ err k', cyanfs_backend_copy 8 0 8192 4096 ex_kernel = Some (err, k') ∧ k_held k' = k_held ex_kernel ∧
    (err = 0 → k_bytes k' 8 ≡ disk_copy (k_bytes ex_kernel 8) 0 8192 4096).
Proof.
  destruct (backend_copy_copies 8 0 8192 4096 ex_kernel) as (err & k' & H1 & H2 & _ & H3); [lia|lia|lia|done|done|lia|lia|left; lia|].
  exists err, k'. by split_and!.
Defined.

Lemma backend_open_mounts_witness : device_fits 8 ∧ backend_mounted ex_blk_status (λ w, w) 8 ex_kernel.
Proof.
  split.
  - split_and!; [done|done|exact ex_size_ok].
  - apply backend_open_mounts; [apply not_elem_of_empty| |exact ex_formatted_bytes]. split_and!; [done|done|exact ex_size_ok].
Defined.

(** A backend with the files of an example. *)
Definition ex_dev : Z := MKDEV 8 1.
Definition ex_backend : cyanfs_backend := mk_backend 1 ex_ready_world ex_dev false true [].
Definition ex_kernel1 : sim := mk_sim {[ex_dev]} 256 1 ∅ (λ _, formatted ex_uuid).
Definition ex_mounted : lmodule sim :=
  set_m_backend_rb {[ex_dev := 1]} (put_backend 1 ex_backend (set_m_next 2 (set_m_kernel ex_kernel1 (loaded ex_kernel)))).

Lemma ex_mounted_refs : refs 0 0 [] [] ex_mounted.
Proof.
  pose proof (refs_new_backend 0 0 [] [] ex_backend ex_kernel1 (loaded ex_kernel)) as H.
  apply (refs_rb_in 0 0 [] [] 1 ex_backend) in H; [exact H|apply refs_loaded; done|done|apply not_elem_of_empty|done|apply lookup_insert_eq|done].
Qed.

(** File 1 is mapped, twice. *)
Definition ex_map (m : lmodule sim) : res (Z * option Z * lmodule sim) := cyanfs_ctl_device_map ex_blk_status (λ w, w) 0 8 1 1 true m.
Definition after {A} (m : lmodule sim) (r : res (A * lmodule sim)) : lmodule sim := match r with inr (_, m) => m | inl _ => m end.
Definition answer {A} (r : res (A * lmodule sim)) : option A := match r with inr (x, _) => Some x | inl _ => None end.
Definition ex_once : lmodule sim := after ex_mounted (ex_map ex_mounted).

Lemma answer_some {A} (r : res (A * lmodule sim)) m x : answer r = Some x → r = inr (x, after m r).
Proof. destruct r as [e|[y m']]; [done|]. by intros [= ->]. Qed.

Lemma ex_once_refs : refs 0 0 [] [] ex_once.
Proof.
  pose proof (map_safe ex_blk_status (λ w, w) 0 0 0 [] [] 8 1 1 true ex_mounted ex_mounted_refs) as H.
  assert (Ha : answer (ex_map ex_mounted) = Some (0, Some 0)) by (vm_compute; reflexivity).
  unfold ex_once. fold (ex_map ex_mounted) in H. rewrite (answer_some _ ex_mounted _ Ha) in H. exact H.
Qed.

Lemma ex_once_tree : m_device_rb ex_once !! cbd_key (MKDEV 8 1) 1 = Some 2.
Proof. vm_compute. reflexivity. Qed.

Definition ex_twice : lmodule sim := after ex_once (ex_map ex_once).

Lemma ex_twice_eq : ex_map ex_once = inr (0, Some 1, ex_twice).
Proof. apply answer_some. vm_compute. reflexivity. Qed.

Lemma device_map_leaks_witness :
  ∃ d c, m_devices ex_twice !! d = Some c ∧ cb_id c = 1 ∧ cb_ref c = 1 ∧ m_device_rb ex_twice = m_device_rb ex_once.
Proof.
  pose proof (device_map_leaks ex_blk_status (λ w, w) 0 0 0 8 1 1 true 2 1 ex_once ex_twice ex_once_refs ex_once_tree ex_twice_eq) as H.
  destruct H as (d & c & H1 & H2 & _ & H3 & _ & _ & _ & _ & H4). exists d, c. exact (conj H1 (conj H2 (conj H3 H4))).
Defined.

(** A descriptor bound to file 1, and a buffer that is not there. *)
Definition ex_bound : lmodule sim := put_ctx 2 (mk_ctx (Some (1, 1, false))) ex_mounted.

Lemma ctl_io_bad_buffer_witness :
  cyanfs_ctl_io ex_blk_status (λ w, w) (- EFAULT) true false 2 0 [] 0 4096 ex_bound = inl DANGLING.
Proof.
  apply (ctl_io_bad_buffer ex_blk_status (λ w, w) (- EFAULT) true false 2 1 1 false ex_backend 1572864 0 [] 0 4096 4096 ex_bound ex_kernel1);
    [reflexivity|reflexivity|vm_compute; reflexivity|reflexivity|vm_compute; split; congruence|reflexivity|vm_compute; split; congruence].
Defined.

(** Somebody opens the control device and tries to mount a device the module
    cannot use. *)
Definition ex_open : lmodule sim := put_ctx 1 (mk_ctx None) (set_m_next 2 (set_m_kernel ex_kernel (loaded ex_kernel))).

Lemma ex_open_reachable : reachable ex_blk_status (λ w, w) 0 ex_kernel ex_open.
Proof. apply (reach_step _ _ _ _ (EV_OPEN 0) (loaded ex_kernel)); [apply reach_loaded|done|done]. Qed.

Lemma module_never_dangles_witness :
  may (EV_IOCTL false false 1 (BACKEND_MOUNT 0 0 [])) ex_open = true ∧
  happen ex_blk_status (λ w, w) 0 (EV_IOCTL false false 1 (BACKEND_MOUNT 0 0 [])) ex_open ≠ inl DANGLING.
Proof.
  split; [reflexivity|]. apply (module_never_dangles ex_blk_status (λ w, w) 0 ex_kernel); [exact ex_open_reachable|reflexivity].
Defined.

Lemma module_accounts_witness : k_users (m_kernel ex_open) = k_users ex_kernel ↔ m_backends ex_open = ∅.
Proof.
  destruct (module_accounts ex_blk_status (λ w, w) 0 ex_kernel ex_open ex_open_reachable) as (_ & _ & _ & _ & _ & H). exact H.
Defined.
