(* ===== verification/LinuxWait.v ===== *)
(** * LinuxWait: those who wait for the tasks of a backend

    [cyanfs_backend_work], [cyanfs_backend_wait_tasks] and [cyanfs_new_task] of
    [linux/main.c] with their interleavings: the work item runs on a work queue
    of the kernel, which runs it once after it was queued, never twice at a
    time; callers put themselves on the list of the backend, queue the work and
    wait.  As in [EditThread], whoever adds a task to an empty queue of the core
    calls [cyanfs_new_task] later, outside every lock. *)
From Stdlib Require Import ZArith Lia.
From S2P Require Import Prelude Types Super World Api Replay ReadSpec EditThread.

(** Where the work item is: not running, before [list_splice_init], in
    [cyanfs_backend_loop], or completing; with the waiters it took. *)
Inductive work_pc := NOT_RUNNING | TO_SPLICE | LOOPING (l : list Z) | COMPLETING (l : list Z).

(** [wk_calling]: the waiters on the list whose caller has not queued the work
    yet.  Three histories: the waiters, those that were completed, and those
    since whose arrival the queue was seen empty. *)
Record work_state := mk_work {
  wk_super : cyanfs_super; wk_callers : list bool; wk_waiters : list Z; wk_calling : list Z; wk_queued : bool; wk_pc : work_pc;
  wk_added : list Z; wk_done : list Z; wk_emptied : list Z }.

Definition set_wk_super (x : cyanfs_super) (st : work_state) : work_state :=
  mk_work x (wk_callers st) (wk_waiters st) (wk_calling st) (wk_queued st) (wk_pc st) (wk_added st) (wk_done st) (wk_emptied st).
Definition set_wk_callers (x : list bool) (st : work_state) : work_state :=
  mk_work (wk_super st) x (wk_waiters st) (wk_calling st) (wk_queued st) (wk_pc st) (wk_added st) (wk_done st) (wk_emptied st).
Definition set_wk_calling (x : list Z) (st : work_state) : work_state :=
  mk_work (wk_super st) (wk_callers st) (wk_waiters st) x (wk_queued st) (wk_pc st) (wk_added st) (wk_done st) (wk_emptied st).
Definition set_wk_queued (x : bool) (st : work_state) : work_state :=
  mk_work (wk_super st) (wk_callers st) (wk_waiters st) (wk_calling st) x (wk_pc st) (wk_added st) (wk_done st) (wk_emptied st).
Definition set_wk_pc (x : work_pc) (st : work_state) : work_state :=
  mk_work (wk_super st) (wk_callers st) (wk_waiters st) (wk_calling st) (wk_queued st) x (wk_added st) (wk_done st) (wk_emptied st).

(** [queue_work]: also [cyanfs_new_task]. *)
Definition work_queue (st : work_state) : work_state := set_wk_queued true st.

(** The sections of [cyanfs_backend_work]. *)
Definition work_start (st : work_state) : work_state := set_wk_pc TO_SPLICE (set_wk_queued false st).
Definition work_splice (st : work_state) : work_state :=
  mk_work (wk_super st) (wk_callers st) [] (wk_calling st) (wk_queued st) (LOOPING (wk_waiters st)) (wk_added st) (wk_done st) (wk_emptied st).
Definition work_loop_end (l : list Z) (st : work_state) : work_state :=
  mk_work (wk_super st) (wk_callers st) (wk_waiters st) (wk_calling st) (wk_queued st) (COMPLETING l) (wk_added st) (wk_done st) (wk_added st).
Definition work_complete (w : Z) (l : list Z) (st : work_state) : work_state :=
  mk_work (wk_super st) (wk_callers st) (wk_waiters st) (wk_calling st) (wk_queued st) (COMPLETING l) (wk_added st) (wk_done st ++ [w]) (wk_emptied st).

(** The sections of [cyanfs_backend_wait_tasks]. *)
Definition wait_add (w : Z) (st : work_state) : work_state :=
  mk_work (wk_super st) (wk_callers st) (wk_waiters st ++ [w]) (wk_calling st ++ [w]) (wk_queued st) (wk_pc st) (wk_added st ++ [w]) (wk_done st) (wk_emptied st).
Definition wait_queue (i : nat) (st : work_state) : work_state := work_queue (set_wk_calling (delete i (wk_calling st)) st).

(** A backend that was opened. *)
Definition work_init (s : cyanfs_super) : work_state := mk_work s [] [] [] false NOT_RUNNING [] [] [].

(** What goes on by itself. *)
Inductive work_step : work_state → work_state → Prop :=
  | wk_start st : wk_pc st = NOT_RUNNING → wk_queued st = true → work_step st (work_start st)
  | wk_splice st : wk_pc st = TO_SPLICE → work_step st (work_splice st)
  | wk_task st l t s : wk_pc st = LOOPING l → cyanfs_super_get_task (wk_super st) = (Some t, s) → work_step st (set_wk_super s st)
  | wk_idle st l s : wk_pc st = LOOPING l → cyanfs_super_get_task (wk_super st) = (None, s) → work_step st (work_loop_end l st)
  | wk_wake st w l : wk_pc st = COMPLETING (w :: l) → work_step st (work_complete w l st)
  | wk_end st : wk_pc st = COMPLETING [] → work_step st (set_wk_pc NOT_RUNNING st)
  | wk_call st i : wk_callers st !! i = Some true → work_step st (work_queue (set_wk_callers (delete i (wk_callers st)) st))
  | wk_wait st i w : wk_calling st !! i = Some w → work_step st (wait_queue i st).

(** What others do: calls of the core, by users or by the completion functions
    of tasks, and new waiters. *)
Inductive work_client : work_state → work_state → Prop :=
  | wc_enter st : work_client st (set_wk_callers (wk_callers st ++ [false]) st)
  | wc_tail st i b t : wk_callers st !! i = Some b →
      work_client st (set_wk_callers (<[i := b || queue_empty (wk_super st)]> (wk_callers st)) (set_wk_super (cyanfs_super_task_add_tail t (wk_super st)) st))
  | wc_head st i b t : wk_callers st !! i = Some b →
      work_client st (set_wk_callers (<[i := b || queue_empty (wk_super st)]> (wk_callers st)) (set_wk_super (cyanfs_super_task_add_head t (wk_super st)) st))
  | wc_leave st i : wk_callers st !! i = Some false → work_client st (set_wk_callers (delete i (wk_callers st)) st)
  | wc_other st s : task_head s = task_head (wk_super st) → work_client st (set_wk_super s st)
  | wc_wait st w : w ∉ wk_added st → work_client st (wait_add w st).

Inductive reachable_work (s : cyanfs_super) : work_state → Prop :=
  | rw_init : reachable_work s (work_init s)
  | rw_work st st' : reachable_work s st → work_step st st' → reachable_work s st'
  | rw_client st st' : reachable_work s st → work_client st st' → reachable_work s st'.

(** ** The invariant *)
Definition taken (pc : work_pc) : list Z := match pc with LOOPING l | COMPLETING l => l | _ => [] end.
Definition behind (pc : work_pc) : list Z := match pc with COMPLETING l => l | _ => [] end.

Record work_inv (st : work_state) : Prop := {
  wi_tasks : task_head (wk_super st) ≠ [] → (wk_pc st = NOT_RUNNING ∨ ∃ l, wk_pc st = COMPLETING l) → owed (wk_callers st) ∨ wk_queued st = true;
  wi_waiters w : w ∈ wk_waiters st → wk_pc st ≠ TO_SPLICE → w ∈ wk_calling st ∨ wk_queued st = true;
  wi_added : wk_added st ≡ₚ wk_waiters st ++ taken (wk_pc st) ++ wk_done st;
  wi_nodup : NoDup (wk_added st);
  wi_emptied w : w ∈ behind (wk_pc st) ++ wk_done st → w ∈ wk_emptied st }.

Lemma work_inv_init s : task_head s = [] → work_inv (work_init s).
Proof. intros E. split; cbn; [done|by intros w ?%not_elem_of_nil|done|constructor|by intros w ?%not_elem_of_nil]. Qed.

(** A task is added by caller [i], at either end. *)
Lemma work_inv_add st i b s : work_inv st → wk_callers st !! i = Some b →
  work_inv (set_wk_callers (<[i := b || queue_empty (wk_super st)]> (wk_callers st)) (set_wk_super s st)).
Proof.
  intros [H1 H2 H3 H4 H5] Hi. split; cbn; try done. intros _ Hpc. unfold queue_empty.
  destruct (decide (task_head (wk_super st) = [])) as [E|E].
  - left. rewrite bool_decide_true, orb_true_r by done. apply owed_added. by exists b.
  - destruct (H1 E Hpc) as [Ho|Hq]; [left|by right]. eapply owed_insert; [done|done|]. by intros ->.
Qed.

Lemma work_client_inv st st' : work_client st st' → work_inv st → work_inv st'.
Proof.
  intros [] Hi; try (by apply work_inv_add); destruct Hi as [H1 H2 H3 H4 H5]; split; cbn; try done.
  - intros Hq Hpc. destruct (H1 Hq Hpc); [left; by apply owed_app|by right].
  - intros Hq Hpc. destruct (H1 Hq Hpc); [left; by apply owed_delete|by right].
  - intros Hq Hpc. apply H1; congruence.
  - intros w1 [Hw|Hw]%elem_of_app Hpc; [destruct (H2 _ Hw Hpc) as [?|?]; [left|by right]; apply elem_of_app; by left|left; apply elem_of_app; by right].
  - rewrite H3, <- !app_assoc. apply Permutation_app_head. rewrite (Permutation_app_comm [w]). by rewrite <- app_assoc.
  - apply NoDup_app. split_and!; [done| |apply NoDup_singleton]. by intros w1 Hw ->%list_elem_of_singleton.
Qed.

Lemma calling_delete (l : list Z) i w w1 : l !! i = Some w → w1 ∈ l → w1 = w ∨ w1 ∈ delete i l.
Proof.
  intros Hi. rewrite (delete_take_drop l i). rewrite <- (take_drop_middle l i w Hi) at 1. rewrite !elem_of_app, elem_of_cons. naive_solver.
Qed.

Lemma work_step_inv st st' : work_step st st' → work_inv st → work_inv st'.
Proof.
  intros [? Hpc Hq|? Hpc|? l t s Hpc E|? l s Hpc E|? w l Hpc|? Hpc|? i Hi|? i w Hi] [H1 H2 H3 H4 H5]; split; cbn; try done.
  - intros _ [?|[l ?]]; done.
  - by rewrite Hpc in H3.
  - by rewrite Hpc in H5.
  - intros _ [?|[l ?]]; done.
  - by intros w ?%not_elem_of_nil.
  - by rewrite Hpc in H3.
  - by rewrite Hpc in H5.
  - rewrite Hpc. intros _ [?|[l1 ?]]; done.
  - intros Hq _. unfold cyanfs_super_get_task in E. by destruct (task_head (wk_super st0)).
  - intros w Hw _. apply (H2 w Hw). by rewrite Hpc.
  - by rewrite Hpc in H3.
  - intros w Hw. rewrite H3, Hpc. cbn [taken]. rewrite elem_of_app. by right.
  - intros Hq _. apply H1; [done|]. right. by eexists.
  - intros w1 Hw _. apply (H2 w1 Hw). by rewrite Hpc.
  - rewrite H3, Hpc. cbn [taken]. apply Permutation_app_head. rewrite app_assoc, <- (Permutation_app_comm [w]). done.
  - intros w1 Hw. apply H5. rewrite Hpc. cbn [behind]. revert Hw. rewrite !elem_of_app, list_elem_of_singleton, elem_of_cons. tauto.
  - intros Hq _. apply H1; [done|]. right. by eexists.
  - intros w1 Hw _. apply (H2 w1 Hw). by rewrite Hpc.
  - by rewrite Hpc in H3.
  - by rewrite Hpc in H5.
  - intros Hq Hpc. by right.
  - intros w1 _ _. by right.
  - intros Hq Hpc. by right.
  - intros w1 _ _. by right.
Qed.

Lemma reachable_work_inv s st : task_head s = [] → reachable_work s st → work_inv st.
Proof. intros Hs. induction 1; [by apply work_inv_init|by eapply work_step_inv|by eapply work_client_inv]. Qed.

(** ** How long it goes on *)
Definition work_pc_weight (pc : work_pc) : nat :=
  match pc with NOT_RUNNING => 0 | TO_SPLICE => 3 | LOOPING l => 2 + length l | COMPLETING l => 1 + length l end.

Definition work_weight (st : work_state) : nat :=
  5 * length (wk_callers st) + 5 * length (wk_calling st) + (if wk_queued st then 4 else 0) + length (wk_waiters st) +
  length (task_head (wk_super st)) + work_pc_weight (wk_pc st).

Lemma work_step_weight st st' : work_step st st' → (work_weight st' < work_weight st)%nat.
Proof.
  unfold work_weight. intros [? Hpc Hq|? Hpc|? l t s Hpc E|? l s Hpc E|? w l Hpc|? Hpc|? i Hi|? i w Hi]; cbn; rewrite ?Hpc, ?Hq; cbn; try lia.
  - unfold cyanfs_super_get_task in E. destruct (task_head (wk_super st0)) as [|t0 q]; [done|]. injection E as _ <-. cbn. lia.
  - rewrite (length_delete _ _ (mk_is_Some _ _ Hi)). apply lookup_lt_Some in Hi. destruct (wk_queued st0); lia.
  - rewrite (length_delete _ _ (mk_is_Some _ _ Hi)). apply lookup_lt_Some in Hi. destruct (wk_queued st0); lia.
Qed.

Lemma work_rest st : work_inv st → (∀ st', ¬ work_step st st') → wk_pc st = NOT_RUNNING ∧ task_head (wk_super st) = [] ∧ wk_added st ≡ₚ wk_done st.
Proof.
  intros [H1 H2 H3 H4 H5] Hs. assert (Ho : ¬ owed (wk_callers st)) by (intros (i & Hl)%list_elem_of_lookup; by eapply Hs, wk_call).
  assert (Hc : wk_calling st = []) by (destruct (wk_calling st) as [|w l] eqn:E; [done|exfalso; eapply Hs, (wk_wait st 0 w); by rewrite E]).
  assert (Hpc : wk_pc st = NOT_RUNNING).
  { destruct (wk_pc st) as [| |l|[|w l]] eqn:Hpc; [done|exfalso..]; [by eapply Hs, wk_splice| |by eapply Hs, wk_end|by eapply Hs, wk_wake].
    destruct (cyanfs_super_get_task (wk_super st)) as [[t|] s] eqn:E; by eapply Hs; eauto using work_step. }
  assert (Hq : wk_queued st = false) by (destruct (wk_queued st) eqn:E; [exfalso; by eapply Hs, wk_start|done]). split_and!; [done| |].
  - destruct (task_head (wk_super st)) eqn:Eq; [done|]. destruct (H1 ltac:(done) (or_introl Hpc)); [done|congruence].
  - rewrite H3, Hpc. cbn [taken app]. destruct (wk_waiters st) as [|w l]; [done|]. exfalso.
    destruct (H2 w ltac:(apply list_elem_of_here)) as [Hw|?]; [by rewrite Hpc|by rewrite Hc in Hw; apply not_elem_of_nil in Hw|congruence].
Qed.

(** C10: nobody waits in vain for the tasks of a backend.  However the users of
    the backend, the completions of its tasks and those who wait are interleaved
    with the work item: left alone, it comes to rest after a bounded number of
    steps, with no task in the queue and everybody who waited completed, each
    exactly once.  And nobody is completed early: between the arrival of a
    waiter and its completion the queue was empty, so every task that was there
    when it came had been taken. *)
Theorem waiters_served s st :
  task_head s = [] → reachable_work s st →
  (∀ n st', nsteps work_step n st st' → (n ≤ work_weight st)%nat) ∧
  (∀ st', rtc work_step st st' → (∀ st'', ¬ work_step st' st'') →
     task_head (wk_super st') = [] ∧ wk_added st' ≡ₚ wk_done st' ∧ NoDup (wk_done st')) ∧
  (∀ w, w ∈ wk_done st → w ∈ wk_emptied st).
Proof.
  intros Hs Hr. split_and!.
  - intros n st'. clear Hr. induction 1 as [|n x y z Hw _ IH]; [lia|]. apply work_step_weight in Hw. lia.
  - intros st' Hrun Hstuck. assert (Hi : work_inv st').
    { apply (reachable_work_inv s); [done|]. clear Hstuck. induction Hrun as [|x y z Hw _ IH]; [done|]. apply IH. by eapply rw_work. }
    destruct (work_rest st' Hi Hstuck) as (_ & Hq & Hp). split_and!; [done|done|]. rewrite <- Hp. apply (wi_nodup _ Hi).
  - intros w Hw. apply (wi_emptied _ (reachable_work_inv s st Hs Hr)), elem_of_app. by right.
Qed.

(** One waits while a task is queued. *)
Definition ex_idle_super : cyanfs_super := set_task_head [] ex_ready.
Definition ex_wait : work_state := wait_add 7 (work_init ex_idle_super).

Lemma ex_wait_reachable : reachable_work ex_idle_super ex_wait.
Proof. eapply rw_client; [apply rw_init|]. apply wc_wait, not_elem_of_nil. Qed.

Lemma waiters_served_witness :
  (∀ n st', nsteps work_step n ex_wait st' → (n ≤ 6)%nat) ∧
  (∀ st', rtc work_step ex_wait st' → (∀ st'', ¬ work_step st' st'') → wk_added st' ≡ₚ wk_done st').
Proof.
  destruct (waiters_served ex_idle_super ex_wait eq_refl ex_wait_reachable) as (H1 & H2 & _). split; [exact H1|].
  intros st' Hr Hs. apply (H2 st' Hr Hs).
Defined.
